(* ===== verification/_CoqProject ===== *)
-Q . S2P
Prelude.v
Text.v
Parse.v
Clock.v
Mentions.v
Json.v
Serde.v
Sql.v
Domain.v
StateMachine.v
Revision.v
Intake.v
ExactHead.v
Contracts.v
Tables.v
Inputs.v
Frozen.v
Recovery.v
StoreCore.v
Outbox.v
Attempts.v
Control.v
Records.v
Status.v
ProjectionRetry.v
History.v
Frames.v
Steps.v
Invariants.v
Conversations.v
CaseHistory.v
Delivery.v
Batches.v
RolePolicy.v
Scheduling.v
Jobs.v
Ledger.v
Results.v
System.v
Ingest.v
Policy.v
PolicyLaws.v
Commands.v
Cycles.v
Bounds.v
Park.v
GitHub.v
Ci.v
World.v
Claims.v
Takeover.v
Authorization.v
ActiveIntake.v
Recoveries.v
Resume.v
Inbox.v
FinalGate.v
Preflight.v
Plans.v
DraftPr.v
Reviews.v
Disposition.v
Writer.v
Board.v
Drift.v
Dispatch.v
Collect.v
DirectJobs.v
DirectQueue.v
DirectPool.v
DirectDispatch.v
ControlPlane.v
