(* ===== verification/Prelude.v ===== *)
(** * Pip control plane: verification library

    Pip turns an authorized GitHub issue into a planned, built, reviewed and
    adjudicated pull request.  A case is one issue.  Its history lives in an
    SQLite ledger; a pure state machine decides every transition; workers
    (planner, builder, reviewers, final reviewer) return JSON results; effects
    the state machine asks for wait in an outbox until they are leased, carried
    out and acknowledged.  Nothing a worker says changes a case except through
    a validated result that is bound to the job the controller issued.

    ** The parts and how they interact

    - pip-core: identifiers, the case state machine, the revision gate around
      it, issue eligibility, and the exact-head join.  Pure functions.
    - pip-contracts: worker results, the binding they must meet, decoding and
      validation.
    - pip-store: the ledger.  Every public method is one SQLite transaction: it
      either commits all of its writes or none.
    - pip-controller: [LedgerController] evaluates the pure core and hands the
      transitions to the store; results.rs turns a worker result into such a
      command; scheduling.rs turns a claimed dispatch effect into jobs.
    - pip-control: the processes around it (GitHub, the board, git, commands).

    ** Files

    Foundations:
    - Prelude: [Result], machine integers, tactics, list and option lemmas.
    - Text: the Rust string operations the sources use.
    - Json: [serde_json::Value]; the text codec and SHA-256 as the class [Codec],
      what the program relies on as [CodecLaws], and [demo_codec], an instance
      of both on which the witnesses are evaluated.
    - Serde: derived decoding of structs and enums.
    - Sql: SELECT, INSERT, UPDATE and ORDER BY on lists of rows.

    pip-core:
    - Domain (domain.rs), StateMachine (state_machine.rs), Revision
      (revision.rs), Intake (policy.rs), ExactHead (exact_head.rs).

    pip-contracts:
    - Contracts (lib.rs): result types, [decode], [validate], [fill_binding],
      [validate_binding].

    pip-store:
    - Tables: the rows, the record [Store] of all tables, and insertion with
      the CHECK, UNIQUE and foreign-key constraints of the schema.
    - Inputs: the commands methods take, with the serialization that is hashed.
    - Frozen (dispatch_intents.rs): frozen dispatch batches, reservations.
    - Recovery (control.rs [validate_resume], reauthorization.rs and the other
      recovery files): guards on the events that move a held case on.
    - StoreCore (lib.rs): creating cases, the transition transaction, replay,
      supersession, reconstruction and repair.
    - Outbox, Attempts, Records (lib.rs, case_activity.rs, task_results.rs,
      reauthorization.rs), Control (control.rs), ProjectionRetry
      (projection_retry.rs), Conversations (conversations.rs), CaseHistory
      (the history queries of lib.rs).

    pip-controller:
    - Ledger (ledger.rs), Results (results.rs), RolePolicy and Scheduling
      (scheduling.rs, with the projection key of pip-hermes/projection.rs).

    pip-control, with GitHub, the board, files and the clock as parameters:
    - Parse, Clock, Mentions: integer parsing, timestamps (resume.rs
      [unix_seconds]), and the comment parser (conversations.rs).
    - Policy, PolicyLaws (policy.rs): the repository policy file, its validation,
      the policies derived from it.
    - Commands (scope.rs, builder_retry.rs): which cases a cycle may touch, and
      commands built from a stored case; Cycles: what applying one does.
    - Status (lib.rs [status]): the report the cycles select cases from.
    - GitHub (pip-github/lib.rs, ci_diagnostics.rs, discussion.rs): the evidence
      types and the CI verdict.  World: a cycle that may fail half-way, keeping
      the ledger writes it committed and the requests it sent.
    - Bounds (bounds.rs), Park (park.rs, publication_text.rs), Ci (ci.rs),
      Takeover (takeover.rs), Authorization (authorization.rs), ActiveIntake
      (intake.rs), Inbox (conversations.rs, [ingest_webhook], [verify_webhook]),
      Resume (resume.rs), Recoveries (the offline operator requests, and the
      joins of draft_pr.rs they use).
    - Claims: claiming an effect in a cycle and what it leaves alone.
    - Plans (plans.rs), DraftPr (draft_pr.rs), Reviews (reviews.rs), FinalGate and
      Preflight (final_preflight.rs), Disposition (disposition.rs): the
      publications and the gate before readiness.
    - Writer (pip-github/write.rs): the idempotent requests to GitHub, on top of
      an HTTP transport.
    - Board, Drift (pip-hermes lib.rs, projection.rs): the client of the worker
      board, on top of a command runner, and the comparison of a board with what
      was asked of it.
    - Dispatch (dispatch.rs), Collect (results.rs): work goes to the board and to
      direct workers, results come back from the board.
    - DirectJobs (direct_worker.rs), DirectQueue, DirectPool (direct_queue.rs):
      jobs of direct workers, their hand-over through files, and the pool of
      worker threads; DirectDispatch: both ends of that hand-over together.
    - ControlPlane: the step relation [control_step] of all these cycles.

    Theorems about several components:
    - History, Frames, Steps: the invariant that ties the [cases] table to the
      [events] table, what each building block writes, the step relation
      [store_step] with one constructor per writing method, [reachable].
    - Invariants, Delivery, Batches: theorems about every reachable ledger.
    - Jobs: theorems about the jobs of a dispatch.
    - System, Ingest: the pure core, the controller and the store together.

    ** How the code is modelled

    A method that takes [&mut self] is a function from a [Store] to a result;
    [Err] carries no store, so a failing transaction is a rollback by
    construction, and the fault points of [apply_transition_batch] are part of
    the model.  Tables are lists in insertion order: SELECT filters, ORDER BY
    sorts, a trigger that raises is an error of the statement.  Integers are
    [Z]; the casts, checked and saturating operations of the source are written
    out ([i64::try_from], [checked_add], ...).  Text is [string], a list of
    bytes.  JSON values are the inductive [Value]; struct serialization is
    written out in field order, so equality of hashed commands is meaningful.

    The text encoder, the parser, SHA-256, the comparison of floating-point
    numbers and SQLite's reading of text as an integer are parameters (class
    [Codec]).  [CodecLaws] states that the text of a value parses back to it and
    that different values have different texts; nothing is assumed of the digest.
    Theorems that need the laws have them as a binder.

    Every recursion of the model is structural; the one fuel is that of a parser
    of the examples ([unlean] in Dispatch.v, deep enough for their values).

    ** What the theorems show

    - Refinement: the history of a case driven by the controller is a run of
      the pure state machine ([history_simulates_state_machine]); the mutable
      projection always equals the last event
      ([reachable_projection_matches_history]).
    - Safety of the workflow: a case that became ready had fresh CI and every
      required review on the very head it is bound to
      ([ready_case_has_exact_head_evidence]); remediation stays within its
      budget; bindings only move forward; shadow mode never merges.
    - Ledger discipline: append-only tables, replay of identical commands,
      conflict on changed ones, staleness of racing commands, supersession of
      stale work, a batch equals its transitions one by one.
    - Delivery: oldest effect first, at most one delivery, exclusive attempts,
      one create per reservation, bounded outage delay, failure accounting.
    - Workers: results are decoded and bound exactly, ingestion replays and
      keeps bindings, reviews are approved exactly when all required ones are;
      jobs are bound to their case, one per reviewer, with independent focus.
    - Retries and conversations: the budget of rejected results, a conversation
      is created once and its reply is frozen.
    - Control plane: any sequence of its cycles, under any answers of GitHub,
      the board and the workers' files, and also when a cycle fails half-way, is
      a run of the abstract system ([control_plane_refines_system]).  Each cycle
      moves a case only for its reason: CI on green evidence of the exact head,
      takeover on a foreign pull request, revocation on a withdrawn label, a
      bound that is exceeded, a fresh human command on a parked case, a root
      request on the exact revision.  Intake never overfills its slots.  The
      policy file loads only when every derived policy exists, and survives the
      ledger.  Signatures, CI verdicts and timestamps equal their reference
      definitions.
    - Publication: plans, drafts and reviews move a case only after what they
      publish was confirmed; the final gate is exactly its specification
      ([final_gate_exact]) and nothing is marked ready but behind it; a comment
      is created at most once however often its request is repeated.
    - Workers: a task is created on the board at most once
      ([task_created_at_most_once]); what is handed over was verified; a result
      moves only the case of its own current job, from the board
      ([collection_moves_current_job]) and from direct workers
      ([direct_results_move_own_case]); direct jobs run together only within the
      capacity, however threads interleave ([pool_within_capacity]); a job the
      controller wrote passes the controller's own check
      ([dispatched_jobs_accepted]).

    ** Not modelled, and why

    - Migration scripts, backup and restore: database administration.
      Tables are as the last migration leaves them.
    - HTTP, token exchange and assignment requests, pip-executor (git worktrees,
      subprocesses, signing), installation and the webhook spool:
      operating-system and network I/O.
    - The run loop (the order in which the cycles run), the conversation runtime,
      the provider programs and git worktrees behind direct workers, and the
      command line: processes around the modelled cycles.
    - GitHub requests ([IntakeSource], [PullRequestSource], the writers' clients),
      the board's program ([CommandRunner]), files ([Filesystem]), a provider
      ([DirectWorkerRuntime]), HMAC-SHA-256 ([Mac]) and SQLite's addition on a
      dynamically typed value ([SqlPlusOne]) are parameters; the theorems hold
      for every answer they give.  That a SHA-256 digest is 64 hexadecimal digits
      is a hypothesis where it is used.
*)

From stdpp Require Export base option list strings gmap.
From stdpp Require Import pretty sorting.
From Stdlib Require Export ZArith Lia.

#[export] Set Default Goal Selector "!".

(** ** Rust's [Result] *)

Inductive result (E A : Type) : Type :=
| Ok (a : A)
| Err (e : E).
Arguments Ok {E A} a.
Arguments Err {E A} e.

Declare Scope pip_scope.
Delimit Scope pip_scope with pip.

#[export] Instance result_ret {E} : MRet (result E) := fun A a => Ok a.
#[export] Instance result_bind {E} : MBind (result E) := fun A B f m =>
  match m with Ok a => f a | Err e => Err e end.
#[export] Instance result_fmap {E} : FMap (result E) := fun A B f m =>
  match m with Ok a => Ok (f a) | Err e => Err e end.

#[export] Instance result_eq_dec {E A} `{EqDecision E, EqDecision A} :
  EqDecision (result E A).
Proof. solve_decision. Defined.

(** [Option::ok_or]. *)
Definition ok_or {E A} (o : option A) (e : E) : result E A :=
  match o with Some a => Ok a | None => Err e end.

(** [Result::map_err]. *)
Definition map_err {E F A} (f : E -> F) (m : result E A) : result F A :=
  match m with Ok a => Ok a | Err e => Err (f e) end.

(** [if condition { return Err(e); }]. *)
Definition err_if {E} (b : bool) (e : E) : result E () :=
  if b then Err e else Ok ().

(** [iter().map(f).collect::<Result<Vec<_>, _>>()]: the first error wins. *)
Fixpoint try_map {E A B} (f : A -> result E B) (l : list A) : result E (list B) :=
  match l with
  | [] => Ok []
  | x :: l => y ← f x; ys ← try_map f l; Ok (y :: ys)
  end.

Definition is_ok {E A} (m : result E A) : bool :=
  match m with Ok _ => true | Err _ => false end.

(** ** Machine integers

    Unsigned and signed integers are [Z] with their ranges written out.  *)

Open Scope Z_scope.

Definition u32_max : Z := 4294967295.
Definition u64_max : Z := 18446744073709551615.
Definition i64_max : Z := 9223372036854775807.

Definition is_u32 (n : Z) : Prop := 0 <= n <= u32_max.
Definition is_u64 (n : Z) : Prop := 0 <= n <= u64_max.

(** [u64::checked_add], [u32::checked_add]. *)
Definition checked_add (max a b : Z) : option Z :=
  if a + b <=? max then Some (a + b) else None.

(** [u32::saturating_add]. *)
Definition saturating_add (max a b : Z) : Z := Z.min max (a + b).

(** [u64::saturating_sub]. *)
Definition saturating_sub (a b : Z) : Z := Z.max 0 (a - b).

(** [NonZeroU64::new], [NonZeroU32::new]. *)
Definition nonzero (n : Z) : option Z := if n =? 0 then None else Some n.

(** ** Automation *)

Create HintDb pip discriminated.

(** Split a computation in the result monad that is known to succeed or
    fail into its steps. *)
Lemma bind_ok {E A B} (m : result E A) (f : A -> result E B) b :
  (m ≫= f) = Ok b <-> exists a, m = Ok a /\ f a = Ok b.
Proof. destruct m; simpl; naive_solver. Qed.

Lemma bind_err {E A B} (m : result E A) (f : A -> result E B) e :
  (m ≫= f) = Err e <-> m = Err e \/ exists a, m = Ok a /\ f a = Err e.
Proof. destruct m; simpl; naive_solver. Qed.

Lemma err_if_ok {E} b (e : E) u : err_if b e = Ok u <-> b = false.
Proof. destruct b, u; simpl; naive_solver. Qed.

Lemma err_if_err {E} b (e e' : E) : err_if b e = Err e' <-> b = true /\ e' = e.
Proof. destruct b; simpl; naive_solver. Qed.

Lemma ok_or_ok {E A} (o : option A) (e : E) a : ok_or o e = Ok a <-> o = Some a.
Proof. destruct o; simpl; naive_solver. Qed.

Lemma map_err_ok {E F A} (f : E -> F) (m : result E A) a :
  map_err f m = Ok a <-> m = Ok a.
Proof. destruct m; simpl; naive_solver. Qed.

Lemma checked_add_some max a b c :
  checked_add max a b = Some c <-> c = a + b /\ a + b <= max.
Proof. unfold checked_add. destruct (Z.leb_spec (a + b) max); naive_solver lia. Qed.

Lemma nonzero_some n m : nonzero n = Some m <-> m = n /\ n <> 0.
Proof. unfold nonzero. destruct (Z.eqb_spec n 0); naive_solver. Qed.

Lemma forallb_elem {A} (f : A -> bool) l x : forallb f l = true -> x ∈ l -> f x = true.
Proof. rewrite forallb_forall, list_elem_of_In. auto. Qed.

Lemma try_map_Forall2 {E A B} (f : A -> result E B) l out :
  try_map f l = Ok out <-> Forall2 (fun x y => f x = Ok y) l out.
Proof.
  revert out. induction l as [|x l IH]; intros out; simpl.
  { split; [intros [= <-]; constructor|by intros ->%Forall2_nil_inv_l]. }
  split.
  - intros (y & Hy & (ys & Hys & [= <-])%bind_ok)%bind_ok. constructor; [done|by apply IH].
  - intros (y & ys & Hy & Hys & ->)%Forall2_cons_inv_l. rewrite Hy. simpl. by rewrite (proj2 (IH ys) Hys).
Qed.
Lemma try_map_elem {E A B} (f : A -> result E B) l out x :
  try_map f l = Ok out -> x ∈ l -> exists y, f x = Ok y /\ y ∈ out.
Proof.
  revert out. induction l as [|a l IH]; intros out Hm Hx; simpl in Hm; [set_solver|].
  apply bind_ok in Hm as (y & Hy & (ys & Hys & [= <-])%bind_ok).
  apply elem_of_cons in Hx as [->|Hx]; [set_solver|]. destruct (IH _ Hys Hx) as (z & ? & ?). set_solver.
Qed.

Lemma zip_map_elem {A B} (g : A -> B) l x : x ∈ l -> (x, g x) ∈ zip l (map g l).
Proof. induction l; set_solver. Qed.

Lemma Forall2_elem_l {A B} (P : A -> B -> Prop) l k x :
  Forall2 P l k -> x ∈ l -> exists y, y ∈ k /\ P x y.
Proof. induction 1; set_solver. Qed.
Lemma Forall2_elem_r {A B} (P : A -> B -> Prop) l k y :
  Forall2 P l k -> y ∈ k -> exists x, x ∈ l /\ P x y.
Proof. induction 1; set_solver. Qed.

(** Turn the hypotheses that say a monadic computation returned [Ok] into the
    facts its steps established. *)
Ltac open_ok :=
  repeat match goal with
  | H : mbind _ _ = Ok _ |- _ => apply bind_ok in H as (? & ? & ?)
  | H : (_ ≫= _) = Ok _ |- _ => apply bind_ok in H as (? & ? & ?)
  | H : err_if _ _ = Ok _ |- _ => apply err_if_ok in H
  | H : ok_or _ _ = Ok _ |- _ => apply ok_or_ok in H
  | H : map_err _ _ = Ok _ |- _ => apply map_err_ok in H
  | H : checked_add _ _ _ = Some _ |- _ => apply checked_add_some in H as [? ?]
  | H : nonzero _ = Some _ |- _ => apply nonzero_some in H as [? ?]
  | H : mret _ = Ok _ |- _ => unfold mret, result_ret in H
  | H : Ok _ = Ok _ |- _ => injection H as H
  | H : Err _ = Ok _ |- _ => discriminate H
  | H : Ok _ = Err _ |- _ => discriminate H
  end.

(** The same with the equations simplified; [open_ok] is for long operations,
    whose constants are better left alone. *)
Ltac inv_ok := open_ok; simplify_eq/=.

(** Boolean guards as propositions. *)
Ltac bools :=
  repeat match goal with
  | H : _ || _ = false |- _ => apply orb_false_iff in H as [? ?]
  | H : _ && _ = true |- _ => apply andb_true_iff in H as [? ?]
  | H : negb _ = true |- _ => apply negb_true_iff in H
  | H : negb _ = false |- _ => apply negb_false_iff in H
  | H : bool_decide _ = true |- _ => apply bool_decide_eq_true in H
  | H : bool_decide _ = false |- _ => apply bool_decide_eq_false in H
  | H : (_ =? _) = true |- _ => apply Z.eqb_eq in H
  | H : (_ =? _) = false |- _ => apply Z.eqb_neq in H
  | H : (_ <? _) = true |- _ => apply Z.ltb_lt in H
  | H : (_ <? _) = false |- _ => apply Z.ltb_ge in H
  | H : (_ <=? _) = true |- _ => apply Z.leb_le in H
  | H : (_ <=? _) = false |- _ => apply Z.leb_gt in H
  end.
