(* ===== verification/Text.v ===== *)
(** * Text: the string operations the control plane uses

    Rust strings are UTF-8 byte sequences; here they are Stdlib strings of
    bytes.  [chars] decodes them into code points together with their bytes,
    so that [str::trim], [char::is_control] and [char::is_whitespace] work on
    characters as in Rust, while [len] and [bytes] work on bytes. *)

From S2P Require Import Prelude.
From stdpp Require Import pretty.
From Stdlib Require Import Ascii.
Open Scope Z_scope.

Definition byte_of (a : ascii) : Z := Z.of_N (N_of_ascii a).

(** [str::bytes]. *)
Fixpoint bytes (s : string) : list Z :=
  match s with EmptyString => [] | String a s => byte_of a :: bytes s end.

(** [str::len]: the length in bytes. *)
Definition len (s : string) : Z := Z.of_nat (String.length s).

Definition is_empty (s : string) : bool :=
  match s with EmptyString => true | _ => false end.

(** [str::chars] on valid UTF-8: every code point with the bytes it takes. *)
Fixpoint chars (s : string) : list (Z * string) :=
  match s with
  | EmptyString => []
  | String a s1 =>
    let b0 := byte_of a in
    if b0 <? 192 then (b0, String a "") :: chars s1 else
    match s1 with
    | EmptyString => [(b0, String a "")]
    | String b s2 =>
      let c1 := byte_of b - 128 in
      if b0 <? 224 then ((b0 - 192) * 64 + c1, String a (String b "")) :: chars s2 else
      match s2 with
      | EmptyString => [(b0, s)]
      | String c s3 =>
        let c2 := byte_of c - 128 in
        if b0 <? 240 then
          ((b0 - 224) * 4096 + c1 * 64 + c2, String a (String b (String c ""))) :: chars s3
        else
        match s3 with
        | EmptyString => [(b0, s)]
        | String d s4 =>
          ((b0 - 240) * 262144 + c1 * 4096 + c2 * 64 + (byte_of d - 128),
            String a (String b (String c (String d "")))) :: chars s4
        end
      end
    end
  end.

(** [char::is_whitespace]: Unicode's White_Space property. *)
Definition is_whitespace (c : Z) : bool :=
  ((9 <=? c) && (c <=? 13)) || (c =? 32) || (c =? 133) || (c =? 160) || (c =? 5760)
  || ((8192 <=? c) && (c <=? 8202)) || (c =? 8232) || (c =? 8233) || (c =? 8239)
  || (c =? 8287) || (c =? 12288).

(** [char::is_control]: Unicode's general category Cc. *)
Definition is_control (c : Z) : bool :=
  (c <? 32) || ((127 <=? c) && (c <=? 159)).

Fixpoint drop_while {A} (p : A -> bool) (l : list A) : list A :=
  match l with [] => [] | x :: l' => if p x then drop_while p l' else l end.

(** [str::trim]. *)
Definition trim (s : string) : string :=
  let blank := fun c : Z * string => is_whitespace c.1 in
  foldr String.append "" (snd <$> rev (drop_while blank (rev (drop_while blank (chars s))))).

(** [value.trim().is_empty()]: every character is white space. *)
Definition blank (s : string) : bool :=
  forallb (fun c => is_whitespace c.1) (chars s).

(** [value.chars().any(char::is_control)]. *)
Definition has_control (s : string) : bool := existsb (fun c => is_control c.1) (chars s).

(** [u8::is_ascii_digit], [u8::is_ascii_alphanumeric], [u8::is_ascii_uppercase]. *)
Definition is_ascii_digit (b : Z) : bool := (48 <=? b) && (b <=? 57).
Definition is_ascii_uppercase (b : Z) : bool := (65 <=? b) && (b <=? 90).
Definition is_ascii_lowercase (b : Z) : bool := (97 <=? b) && (b <=? 122).
Definition is_ascii_alphanumeric (b : Z) : bool :=
  is_ascii_digit b || is_ascii_uppercase b || is_ascii_lowercase b.

(** [byte.is_ascii_digit() || (b'a'..=b'f').contains(&byte)]. *)
Definition is_lower_hex (b : Z) : bool := is_ascii_digit b || ((97 <=? b) && (b <=? 102)).

(** A string of exactly [n] lowercase hexadecimal digits. *)
Definition hex_string (n : Z) (s : string) : bool :=
  (len s =? n) && forallb is_lower_hex (bytes s).

(** [str::to_ascii_lowercase]. *)
Definition ascii_lower (a : ascii) : ascii :=
  if is_ascii_uppercase (byte_of a) then ascii_of_N (Z.to_N (byte_of a + 32)) else a.
Fixpoint to_ascii_lowercase (s : string) : string :=
  match s with
  | EmptyString => EmptyString
  | String a s => String (ascii_lower a) (to_ascii_lowercase s)
  end.

(** [str::split(c)] for an ASCII separator: always at least one part. *)
Fixpoint split_on (c : ascii) (s : string) : list string :=
  match s with
  | EmptyString => [EmptyString]
  | String a s' =>
    if Ascii.eqb a c then EmptyString :: split_on c s'
    else match split_on c s' with
         | [] => [String a EmptyString]
         | part :: parts => String a part :: parts
         end
  end.

(** [starts_with(c)], [ends_with(c)] for an ASCII character. *)
Definition starts_with_char (c : ascii) (s : string) : bool :=
  match s with String a _ => Ascii.eqb a c | EmptyString => false end.
Fixpoint ends_with_char (c : ascii) (s : string) : bool :=
  match s with
  | EmptyString => false
  | String a EmptyString => Ascii.eqb a c
  | String _ s => ends_with_char c s
  end.

(** [trim_end_matches(c)]. *)
Fixpoint trim_end_char (c : ascii) (s : string) : string :=
  match s with
  | EmptyString => EmptyString
  | String a s =>
    match trim_end_char c s with
    | EmptyString => if Ascii.eqb a c then EmptyString else String a EmptyString
    | t => String a t
    end
  end.

(** [str::starts_with(prefix)]. *)
Definition starts_with (p s : string) : bool := String.prefix p s.

(** [format!("{}", n)] of an unsigned integer. *)
Definition show (n : Z) : string := pretty (Z.to_N n).

(** Byte-wise comparison, the order of Rust strings and of SQLite's BINARY
    collation. *)
Definition str_leb (a b : string) : bool :=
  match String.compare a b with Gt => false | _ => true end.
Definition str_ltb (a b : string) : bool :=
  match String.compare a b with Lt => true | _ => false end.

(** Membership of a string in a list of literals, as Rust's [matches!]. *)
Definition one_of (l : list string) (s : string) : bool := bool_decide (s ∈ l).

(** ** Facts *)

#[local] Arguments String.append : simpl nomatch.

Lemma show_inj a b : 0 <= a -> 0 <= b -> show a = show b -> a = b.
Proof. unfold show. intros Ha Hb H%(inj pretty). lia. Qed.

Lemma byte_of_range a : 0 <= byte_of a < 256.
Proof.
  unfold byte_of. pose proof (N_ascii_bounded a). lia.
Qed.

Lemma len_bytes s : len s = Z.of_nat (length (bytes s)).
Proof. unfold len. f_equal. induction s; simpl; congruence. Qed.

Lemma append_nil_r (s : string) : String.append s "" = s.
Proof. induction s; simpl; congruence. Qed.

Lemma append_assoc (a b c : string) :
  String.append (String.append a b) c = String.append a (String.append b c).
Proof. induction a; simpl; congruence. Qed.

Lemma append_inj_l (p a b : string) : String.append p a = String.append p b -> a = b.
Proof. induction p; simpl; [done|]. intros [=]; auto. Qed.

(** The decimal rendering contains no separator, which is what makes the
    composite identifiers built from it unambiguous. *)
Fixpoint all_digits (s : string) : bool :=
  match s with EmptyString => true | String a s => is_ascii_digit (byte_of a) && all_digits s end.

Lemma pretty_go_digits n s : all_digits s = true -> all_digits (pretty_N_go n s) = true.
Proof.
  revert s. induction (N.lt_wf_0 n) as [n _ IH]; intros s Hs.
  destruct (decide (0 < n)%N) as [Hn|Hn].
  - rewrite pretty_N_go_step by done. apply IH.
    + apply N.div_lt; lia.
    + simpl. rewrite Hs, andb_true_r. unfold pretty_N_char. by repeat case_match.
  - assert (n = 0%N) as -> by lia. by rewrite pretty_N_go_0.
Qed.

Lemma show_digits n : all_digits (show n) = true.
Proof.
  unfold show, pretty, pretty_N. case_decide; [done|]. by apply pretty_go_digits.
Qed.

(** A digit string followed by a separator is determined by the whole text. *)
Lemma digits_sep_inj (c : ascii) a b s t :
  is_ascii_digit (byte_of c) = false ->
  all_digits a = true -> all_digits b = true ->
  String.append a (String c s) = String.append b (String c t) -> a = b /\ s = t.
Proof.
  intros Hc. revert b. induction a as [|x a IH]; intros [|y b] Ha Hb H; simpl in *; bools.
  - by injection H.
  - injection H as -> _. congruence.
  - injection H as -> _. congruence.
  - injection H as -> H. destruct (IH b) as [-> ->]; auto.
Qed.

Lemma drop_while_nil {A} (p : A -> bool) l : drop_while p l = [] <-> forallb p l = true.
Proof.
  induction l as [|x l IH]; simpl; [done|]. destruct (p x); simpl; [done|]. done.
Qed.

Lemma chars_nonempty s : Forall (fun c => c.2 <> ""%string) (chars s).
Proof.
  remember (String.length s) as n eqn:Hn. revert s Hn.
  induction (lt_wf n) as [n _ IH]; intros s ->.
  destruct s as [|a s1]; simpl; [done|].
  case_match; [constructor; [done|]; eapply IH; [|done]; simpl; lia|].
  destruct s1 as [|b s2]; [by repeat constructor|].
  case_match; [constructor; [done|]; eapply IH; [|done]; simpl; lia|].
  destruct s2 as [|c s3]; [by repeat constructor|].
  case_match; [constructor; [done|]; eapply IH; [|done]; simpl; lia|].
  destruct s3 as [|d s4]; [by repeat constructor|].
  constructor; [done|]; eapply IH; [|done]; simpl; lia.
Qed.

Lemma append_chunks_nil l :
  Forall (fun c : Z * string => c.2 <> ""%string) l ->
  foldr String.append "" (snd <$> l) = ""%string -> l = [].
Proof. destruct l as [|[c [|]] l]; [done|by inversion 1|done]. Qed.

(** [blank] is [trim(...).is_empty()]. *)
Lemma drop_while_Forall {A} (P : A -> Prop) p l : Forall P l -> Forall P (drop_while p l).
Proof. induction 1; simpl; [done|]. case_match; auto. Qed.

Lemma trim_blank s : trim s = ""%string <-> blank s = true.
Proof.
  unfold trim, blank. set (p := fun c : Z * string => is_whitespace c.1).
  rewrite <-(drop_while_nil p). split.
  - intros H. apply append_chunks_nil in H.
    + apply (f_equal (@rev _)) in H. rewrite rev_involutive in H. simpl in H.
      apply drop_while_nil in H. rewrite forallb_forall in H.
      destruct (drop_while p (chars s)) as [|x l] eqn:E; [done|].
      assert (p x = true) as Hx. { apply H. apply in_rev. rewrite rev_involutive. by left. }
      clear H. exfalso. induction (chars s) as [|y m IH]; simpl in E; [done|].
      destruct (p y) eqn:Hy; [auto|]. injection E as -> _. congruence.
    + apply Forall_rev, drop_while_Forall, Forall_rev, drop_while_Forall, chars_nonempty.
  - intros ->. done.
Qed.

Lemma str_leb_refl a : str_leb a a = true.
Proof.
  unfold str_leb. destruct (String.compare a a) eqn:E; [done|done|].
  pose proof (String.compare_antisym a a) as H. rewrite E in H. done.
Qed.

Lemma ascii_compare_eq a b : Ascii.compare a b = Eq <-> a = b.
Proof.
  unfold Ascii.compare. rewrite N.compare_eq_iff. split; [|by intros ->].
  intros H. by rewrite <-(ascii_N_embedding a), <-(ascii_N_embedding b), H.
Qed.
Lemma str_leb_trans a b c : str_leb a b = true -> str_leb b c = true -> str_leb a c = true.
Proof.
  unfold str_leb. revert b c. induction a as [|x a IH]; intros [|y b] [|z c]; simpl; try done.
  destruct (Ascii.compare x y) eqn:E1, (Ascii.compare y z) eqn:E2; try done;
    repeat match goal with H : Ascii.compare _ _ = Eq |- _ => apply ascii_compare_eq in H; subst end;
    rewrite ?E1, ?E2.
  - rewrite (proj2 (ascii_compare_eq z z) eq_refl). apply IH.
  - done.
  - done.
  - assert (Ascii.compare x z = Lt) as ->; [|done].
    unfold Ascii.compare in *. rewrite N.compare_lt_iff in *. lia.
Qed.
Lemma str_leb_total a b : str_leb a b = true \/ str_leb b a = true.
Proof.
  unfold str_leb. rewrite (String.compare_antisym a b).
  destruct (String.compare b a); simpl; auto.
Qed.
