(* ===== verification/Parse.v ===== *)
(** * Parse: prefixes, numbers and words of text

    The parsing half of Rust's [str] that the control plane uses: stripping,
    slicing at character boundaries, [str::parse] of integers, trimming and
    splitting. *)

From S2P Require Import Prelude Text.
From Stdlib Require Import Ascii.
Open Scope Z_scope.

(** ** Prefixes and suffixes *)

(** [str::strip_prefix]. *)
Fixpoint strip_prefix (p s : string) : option string :=
  match p, s with
  | EmptyString, _ => Some s
  | String a p, String b s => if Ascii.eqb a b then strip_prefix p s else None
  | String _ _, EmptyString => None
  end.

(** [str::strip_suffix(c)] for an ASCII character. *)
Fixpoint strip_suffix_char (c : ascii) (s : string) : option string :=
  match s with
  | EmptyString => None
  | String a EmptyString => if Ascii.eqb a c then Some EmptyString else None
  | String a s => String a <$> strip_suffix_char c s
  end.

(** [str::contains(pattern)] for text. *)
Fixpoint contains (p s : string) : bool :=
  starts_with p s || match s with EmptyString => false | String _ s => contains p s end.

(** [str::ends_with(pattern)] for text. *)
Definition ends_with (p s : string) : bool :=
  (String.length p <=? String.length s)%nat
  && String.eqb (String.substring (String.length s - String.length p) (String.length p) s) p.

(** [split_once(c)] for an ASCII character: the text before and after its first occurrence. *)
Fixpoint find_char (c : ascii) (s : string) : option (string * string) :=
  match s with
  | EmptyString => None
  | String a s' => if Ascii.eqb a c then Some (""%string, s')
                   else '(before, after) ← find_char c s'; Some (String a before, after)
  end.

(** ** Slices *)

(** The first [n] bytes, and the rest. *)
Fixpoint take_bytes (n : nat) (s : string) : string :=
  match n, s with
  | S n, String a s => String a (take_bytes n s)
  | _, _ => EmptyString
  end.
Fixpoint drop_bytes (n : nat) (s : string) : string :=
  match n, s with
  | S n, String _ s => drop_bytes n s
  | _, _ => s
  end.

(** A UTF-8 continuation byte. *)
Definition continuation (a : ascii) : bool := (128 <=? byte_of a) && (byte_of a <? 192).

(** [str::is_char_boundary]. *)
Definition is_char_boundary (i : nat) (s : string) : bool :=
  match drop_bytes i s with
  | EmptyString => Nat.eqb i (String.length s)
  | String a _ => Nat.eqb i 0 || negb (continuation a)
  end.

(** [str::get(from..to)]. *)
Definition get_range (from to : nat) (s : string) : option string :=
  if Nat.leb from to && is_char_boundary from s && is_char_boundary to s
  then Some (take_bytes (to - from) (drop_bytes from s)) else None.

(** ** Numbers

    [str::parse] of an integer: an optional sign (only [+] for an unsigned
    type), then at least one digit, within the range of the type. *)

Fixpoint digits_value (acc : Z) (s : string) : option Z :=
  match s with
  | EmptyString => Some acc
  | String a s => if is_ascii_digit (byte_of a) then digits_value (acc * 10 + (byte_of a - 48)) s else None
  end.
Definition parse_digits (s : string) : option Z :=
  if is_empty s then None else digits_value 0 s.

Definition parse_u64 (s : string) : option Z :=
  n ← parse_digits (match s with String "+" s => s | _ => s end);
  if n <=? u64_max then Some n else None.
Definition parse_i64 (s : string) : option Z :=
  match s with
  | String "-" s => n ← parse_digits s; if n <=? i64_max + 1 then Some (- n) else None
  | String "+" s => n ← parse_digits s; if n <=? i64_max then Some n else None
  | _ => n ← parse_digits s; if n <=? i64_max then Some n else None
  end.

(** ** White space and words *)

Definition concat_chars (l : list (Z * string)) : string := foldr String.append "" (snd <$> l).
Definition white (c : Z * string) : bool := is_whitespace c.1.

(** [str::trim_start]. *)
Definition trim_start (s : string) : string := concat_chars (drop_while white (chars s)).

(** The characters up to the first that satisfies [p], and those after it. *)
Fixpoint cut_chars (p : Z * string -> bool) (l : list (Z * string))
  : list (Z * string) * option (list (Z * string)) :=
  match l with
  | [] => ([], None)
  | c :: l => if p c then ([], Some l) else
      let '(before, after) := cut_chars p l in (c :: before, after)
  end.
(** [str::splitn(n, p)] on characters: at most [n] parts. *)
Fixpoint splitn_chars (n : nat) (p : Z * string -> bool) (l : list (Z * string))
  : list (list (Z * string)) :=
  match n with
  | O => []
  | S O => [l]
  | S n => match cut_chars p l with
           | (part, None) => [part]
           | (part, Some rest) => part :: splitn_chars n p rest
           end
  end.
Definition splitn (n : nat) (p : Z * string -> bool) (s : string) : list string :=
  concat_chars <$> splitn_chars n p (chars s).

(** [char::is_ascii_punctuation]. *)
Definition is_ascii_punctuation (c : Z) : bool :=
  ((33 <=? c) && (c <=? 47)) || ((58 <=? c) && (c <=? 64))
  || ((91 <=? c) && (c <=? 96)) || ((123 <=? c) && (c <=? 126)).
(** [trim_end_matches(predicate)]. *)
Definition trim_end_matches (p : Z * string -> bool) (s : string) : string :=
  concat_chars (rev (drop_while p (rev (chars s)))).

(** [str::eq_ignore_ascii_case]. *)
Definition eq_ignore_ascii_case (a b : string) : bool :=
  String.eqb (to_ascii_lowercase a) (to_ascii_lowercase b).

(** [parts.join(separator)]. *)
Definition join (sep : string) (parts : list string) : string :=
  match parts with
  | [] => ""
  | p :: ps => foldl (fun acc p => acc +:+ sep +:+ p) p ps
  end.

(** ** Facts *)

Lemma digits_value_nonneg s acc n : 0 <= acc -> digits_value acc s = Some n -> acc <= n.
Proof.
  revert acc. induction s as [|a s IH]; intros acc Hacc; simpl; [intros [= <-]; lia|].
  destruct (is_ascii_digit (byte_of a)) eqn:Hd; [|done].
  unfold is_ascii_digit in Hd. apply andb_prop in Hd as [?%Z.leb_le ?%Z.leb_le].
  intros Hn%IH; lia.
Qed.

Lemma parse_u64_range s n : parse_u64 s = Some n -> is_u64 n.
Proof.
  unfold parse_u64, parse_digits. intros (m & Hm & Hn)%bind_Some.
  destruct (m <=? u64_max) eqn:Hle; simplify_eq. apply Z.leb_le in Hle. split; [|done].
  destruct (is_empty _); [done|]. eapply digits_value_nonneg; [|exact Hm]. lia.
Qed.

Lemma length_take_bytes n s : (String.length (take_bytes n s) <= n)%nat.
Proof. revert s. induction n as [|n IH]; intros [|a s]; simpl; [lia..|]. specialize (IH s). lia. Qed.

Lemma length_take_exact n s : (n <= String.length s)%nat -> String.length (take_bytes n s) = n.
Proof. revert s. induction n as [|n IH]; intros [|a s] Hn; simpl in *; [done..|lia|]. by rewrite IH by lia. Qed.
