(* ===== verification/Clock.v ===== *)
(** * Clock: GitHub timestamps

    [unix_seconds] of crates/pip-control/src/resume.rs, and the proof that its date
    arithmetic is the Gregorian calendar. *)

From S2P Require Import Prelude Text Parse.
From Stdlib Require Import Ascii.
Open Scope Z_scope.

(** ** The code *)

(** Days from the civil date (Howard Hinnant's algorithm). *)
Definition days_from_civil (year month day : Z) : Z :=
  let year := if month <=? 2 then year - 1 else year in
  let era := year / 400 in
  let year_of_era := year - era * 400 in
  let month_index := (month + 9) mod 12 in
  let day_of_year := (153 * month_index + 2) / 5 + day - 1 in
  let day_of_era := year_of_era * 365 + year_of_era / 4 - year_of_era / 100 + day_of_year in
  era * 146097 + day_of_era - 719468.

Definition byte_at (n : nat) (c : ascii) (s : string) : bool :=
  match String.get n s with Some a => Ascii.eqb a c | None => false end.

(** [value.get(range)?.parse::<i64>().ok()]. *)
Definition time_field (from to : nat) (s : string) : option Z := get_range from to s ≫= parse_i64.

Definition timestamp_shape (s : string) : bool :=
  (len s =? 20) && byte_at 4 "-" s && byte_at 7 "-" s && byte_at 10 "T" s && byte_at 13 ":" s
  && byte_at 16 ":" s && byte_at 19 "Z" s.

Definition unix_seconds (s : string) : option Z :=
  if negb (timestamp_shape s) then None else
  year ← time_field 0 4 s;
  month ← time_field 5 7 s;
  day ← time_field 8 10 s;
  hour ← time_field 11 13 s;
  minute ← time_field 14 16 s;
  second ← time_field 17 19 s;
  if negb ((1 <=? month) && (month <=? 12)) || negb ((1 <=? day) && (day <=? 31))
     || (23 <? hour) || (59 <? minute) || (60 <? second)
  then None
  else
    let seconds := days_from_civil year month day * 86400 + hour * 3600 + minute * 60 + second in
    if 0 <=? seconds then Some seconds else None.

Example epoch : unix_seconds "1970-01-01T00:00:00Z" = Some 0.
Proof. vm_compute. reflexivity. Qed.
Example source_test : unix_seconds "2026-09-07T00:00:00Z" = Some 1788739200.
Proof. vm_compute. reflexivity. Qed.
Example leap_day : unix_seconds "2024-02-29T12:34:56Z" = Some 1709210096.
Proof. vm_compute. reflexivity. Qed.

(** ** The calendar *)

Definition leap (year : Z) : bool :=
  (year mod 4 =? 0) && (negb (year mod 100 =? 0) || (year mod 400 =? 0)).
Definition month_days (year month : Z) : Z :=
  if month =? 2 then (if leap year then 29 else 28)
  else if (month =? 4) || (month =? 6) || (month =? 9) || (month =? 11) then 30 else 31.
Definition valid_date (year month day : Z) : Prop := 1 <= month <= 12 /\ 1 <= day <= month_days year month.
Definition next_date (d : Z * Z * Z) : Z * Z * Z :=
  let '(year, month, day) := d in
  if day <? month_days year month then (year, month, day + 1)
  else if month <? 12 then (year, month + 1, 1) else (year + 1, 1, 1).

(** Days before the first of March of a year. *)
Definition year_base (year : Z) : Z :=
  let era := year / 400 in
  let year_of_era := year - era * 400 in
  era * 146097 + (year_of_era * 365 + year_of_era / 4 - year_of_era / 100) - 719468.

Lemma year_base_step year : year_base year = year_base (year - 1) + 365 + (if leap year then 1 else 0).
Proof.
  unfold year_base, leap.
  destruct (Z.eqb_spec (year mod 4) 0), (Z.eqb_spec (year mod 100) 0), (Z.eqb_spec (year mod 400) 0); simpl;
    Z.to_euclidean_division_equations; lia.
Qed.

Lemma days_base year month day :
  days_from_civil year month day =
  year_base (if month <=? 2 then year - 1 else year) + ((153 * ((month + 9) mod 12) + 2) / 5 + day - 1).
Proof. unfold days_from_civil, year_base. lia. Qed.

Lemma days_next year month day :
  valid_date year month day ->
  let '(y, m, d) := next_date (year, month, day) in
  days_from_civil y m d = days_from_civil year month day + 1.
Proof.
  intros [Hm Hd]. unfold next_date. destruct (Z.ltb_spec day (month_days year month)) as [Hlt|Hge].
  { unfold days_from_civil. lia. }
  assert (day = month_days year month) as -> by lia. clear Hd Hge.
  assert (month = 1 \/ month = 2 \/ month = 3 \/ month = 4 \/ month = 5 \/ month = 6 \/ month = 7 \/ month = 8
          \/ month = 9 \/ month = 10 \/ month = 11 \/ month = 12) as Hc by lia. clear Hm.
  pose proof (year_base_step year) as Hy.
  repeat destruct Hc as [->|Hc]; try subst month; cbn [Z.ltb Z.compare Pos.compare Pos.compare_cont];
    rewrite !days_base; unfold month_days; simpl;
    repeat match goal with
    | |- context [?a mod 12] => let v := eval vm_compute in (a mod 12) in change (a mod 12) with v
    | |- context [?a / 5] => let v := eval vm_compute in (a / 5) in change (a / 5) with v
    end; rewrite ?Z.add_simpl_r; try lia.
  rewrite Hy. destruct (leap year); lia.
Qed.

Lemma next_date_valid year month day :
  valid_date year month day -> let '(y, m, d) := next_date (year, month, day) in valid_date y m d.
Proof.
  intros [Hm Hd]. unfold next_date. assert (forall y m, 28 <= month_days y m) as Hlow.
  { intros y m. unfold month_days. repeat case_match; lia. }
  destruct (Z.ltb_spec day (month_days year month)); [unfold valid_date; lia|].
  destruct (Z.ltb_spec month 12); split; try lia; (split; [lia|]); etrans; [|apply Hlow| |apply Hlow]; lia.
Qed.

(** The date [n] days after the epoch. *)
Definition date_after (n : nat) : Z * Z * Z := Nat.iter n next_date (1970, 1, 1).

Lemma date_after_days n :
  let '(y, m, d) := date_after n in valid_date y m d /\ days_from_civil y m d = Z.of_nat n.
Proof.
  induction n as [|n IH]; [split; [by split|reflexivity]|].
  change (date_after (S n)) with (next_date (date_after n)). destruct (date_after n) as [[y m] d].
  destruct IH as [Hv Hd]. pose proof (days_next _ _ _ Hv) as Hn. pose proof (next_date_valid _ _ _ Hv) as Hv'.
  destruct (next_date (y, m, d)) as [[y' m'] d']. split; [done|lia].
Qed.

Lemma date_after_year n : 1970 <= (date_after n).1.1.
Proof.
  induction n as [|n IH]; [done|]. change (date_after (S n)) with (next_date (date_after n)).
  destruct (date_after n) as [[y m] d]. simpl in *. repeat case_match; simpl; lia.
Qed.

(** ** Timestamps *)

Definition digit (n : Z) : ascii := ascii_of_N (Z.to_N (48 + n)).
Definition two_digits (n : Z) (rest : string) : string := String (digit (n / 10)) (String (digit (n mod 10)) rest).
(** [YYYY-MM-DDTHH:MM:SSZ]. *)
Definition timestamp (date : Z * Z * Z) (hour minute second : Z) : string :=
  let '(year, month, day) := date in
  two_digits (year / 100) (two_digits (year mod 100) (String "-" (two_digits month (String "-"
    (two_digits day (String "T" (two_digits hour (String ":" (two_digits minute (String ":"
    (two_digits second (String "Z" "")))))))))))).

(** A property of all numbers below a bound, by evaluation. *)
Lemma below_decide (p : Z -> bool) (bound : nat) n :
  forallb p (Z.of_nat <$> seq 0 bound) = true -> 0 <= n < Z.of_nat bound -> p n = true.
Proof.
  intros Hall Hn. eapply forallb_elem; [exact Hall|]. apply list_elem_of_fmap. exists (Z.to_nat n).
  split; [lia|]. apply elem_of_seq. lia.
Qed.

Lemma digit_boundary n : 0 <= n < 10 -> continuation (digit n) = false.
Proof.
  intros Hn. apply negb_true_iff.
  by apply (below_decide (fun n => negb (continuation (digit n))) 10); [vm_compute|].
Qed.
Definition reads (s : string) (n : Z) : bool := match parse_i64 s with Some v => v =? n | None => false end.
Lemma reads_some s n : reads s n = true -> parse_i64 s = Some n.
Proof. unfold reads. destruct (parse_i64 s); [|done]. by intros ->%Z.eqb_eq. Qed.

Lemma parse_two n : 0 <= n < 100 -> parse_i64 (two_digits n "") = Some n.
Proof.
  intros Hn. apply reads_some, (below_decide (fun n => reads (two_digits n "") n) 100); [by vm_compute|lia].
Qed.
Lemma parse_four n : 0 <= n < 10000 -> parse_i64 (two_digits (n / 100) (two_digits (n mod 100) "")) = Some n.
Proof.
  intros Hn. apply reads_some.
  apply (below_decide (fun n => reads (two_digits (n / 100) (two_digits (n mod 100) "")) n) (Z.to_nat 10000));
    [by vm_compute|lia].
Qed.

Lemma two_bound n : 0 <= n < 100 -> 0 <= n / 10 < 10 /\ 0 <= n mod 10 < 10.
Proof. intros Hn. Z.to_euclidean_division_equations. lia. Qed.

Lemma timestamp_fields y m d hour minute second :
  0 <= y < 10000 -> 0 <= m < 100 -> 0 <= d < 100 -> 0 <= hour < 100 -> 0 <= minute < 100 -> 0 <= second < 100 ->
  let s := timestamp (y, m, d) hour minute second in
  timestamp_shape s = true /\ time_field 0 4 s = Some y /\ time_field 5 7 s = Some m /\ time_field 8 10 s = Some d
  /\ time_field 11 13 s = Some hour /\ time_field 14 16 s = Some minute /\ time_field 17 19 s = Some second.
Proof.
  intros Hy Hm Hd Hh Hi Hs s. split; [reflexivity|].
  assert (0 <= y / 100 < 100 /\ 0 <= y mod 100 < 100) as [Hy1 Hy2] by (Z.to_euclidean_division_equations; lia).
  unfold time_field, get_range, is_char_boundary, s, timestamp. cbn.
  rewrite !(digit_boundary _ (proj1 (two_bound _ Hm))), !(digit_boundary _ (proj1 (two_bound _ Hd))),
    !(digit_boundary _ (proj1 (two_bound _ Hh))), !(digit_boundary _ (proj1 (two_bound _ Hi))),
    !(digit_boundary _ (proj1 (two_bound _ Hs))). cbn.
  split_and!; [exact (parse_four y Hy)|by apply parse_two..].
Qed.

(** Timestamps are read as the calendar says.  The timestamp of the date [n] days
    after the first of January 1970, at any time of that day, is read as [n] days and that many seconds. *)
Theorem unix_seconds_is_calendar (n : nat) (hour minute second : Z)
  (Hyear : (date_after n).1.1 <= 9999) (Hhour : 0 <= hour <= 23) (Hminute : 0 <= minute <= 59)
  (Hsecond : 0 <= second <= 59) :
  unix_seconds (timestamp (date_after n) hour minute second)
  = Some (Z.of_nat n * 86400 + hour * 3600 + minute * 60 + second).
Proof.
  pose proof (date_after_days n) as Hd. pose proof (date_after_year n) as Hy0.
  destruct (date_after n) as [[y m] d]. cbn [fst] in *. destruct Hd as [[Hm Hday] Hdays].
  assert (1 <= d <= 31) as Hd31 by (unfold month_days in *; repeat case_match; lia).
  unfold unix_seconds.
  destruct (timestamp_fields y m d hour minute second) as (-> & -> & -> & -> & -> & -> & ->); [lia..|].
  cbn [negb mbind option_bind]. rewrite Hdays.
  replace (_ || _) with false by lia. replace (0 <=? _) with true by lia. done.
Qed.

Lemma unix_seconds_is_calendar_witness :
  unix_seconds "2024-02-29T12:34:56Z" = Some (19782 * 86400 + 12 * 3600 + 34 * 60 + 56).
Proof.
  exact (unix_seconds_is_calendar (Z.to_nat 19782) 12 34 56 ltac:(vm_compute; discriminate) ltac:(lia) ltac:(lia) ltac:(lia)).
Defined.

(** The fields of a timestamp may carry a sign: an hour of minus one is read as
    the hour before midnight. *)
Lemma signed_field_is_read :
  unix_seconds "2026-09-07T-1:00:00Z" = unix_seconds "2026-09-06T23:00:00Z".
Proof. vm_compute. reflexivity. Qed.
