(* ===== verification/Mentions.v ===== *)
(** * Mentions: commands and mentions in comments

    The text functions of crates/pip-control/src/conversations.rs: a control command is a
    leading mention and a verb; a mention counts outside quotes and code. *)

From S2P Require Import Prelude Text Parse.
From Stdlib Require Import Ascii.
Open Scope Z_scope.

Definition comment_event (name : string) : bool :=
  one_of ["issue_comment"; "pull_request_review_comment"; "pull_request_review"] name.

(** ** Control commands *)

(** The length of the longest prefix of at most [n] bytes that ends between characters:
    [while !is_char_boundary(end) { end -= 1 }]. *)
Fixpoint floor_boundary (n : nat) (s : string) : nat :=
  if is_char_boundary n s then n else match n with O => O | S n => floor_boundary n s end.
Definition truncate_at (max : nat) (s : string) : string :=
  take_bytes (floor_boundary (Nat.min (String.length s) max) s) s.

Definition is_newline (c : Z * string) : bool := c.1 =? 10.
Definition verb (word : string) : option string :=
  if String.eqb word "resume" then Some "RESUME"
  else if String.eqb word "replan" then Some "REPLAN"
  else if String.eqb word "abandon" then Some "ABANDON" else None.

Definition max_guidance : nat := Z.to_nat (8 * 1024).

Definition parse_control_command (body login : string) : option (string * string) :=
  let lines := splitn 2 is_newline (trim_start body) in
  first ← trim <$> lines !! 0%nat;
  let rest := default "" (lines !! 1%nat) in
  let words := splitn 3 white first in
  mention ← words !! 0%nat;
  if negb (eq_ignore_ascii_case mention ("@" +:+ login)) then None else
  second ← words !! 1%nat;
  command ← verb (to_ascii_lowercase (trim_end_matches (fun c => is_ascii_punctuation c.1) second));
  let guidance := join (String "010" "") (List.filter (fun part => negb (is_empty part))
                    (trim <$> [default "" (words !! 2%nat); rest])) in
  Some (command, truncate_at max_guidance guidance).

(** ** Mentions *)

(** [str::lines]: a terminated line loses its newline and a carriage return before it; a
    final empty line does not count. *)
Definition strip_cr (line : string) : string := default line (strip_suffix_char "013" line).
Definition lines (s : string) : list string :=
  let parts := split_on "010" s in
  let final := List.last parts "" in
  (strip_cr <$> removelast parts) ++ (if is_empty final then [] else [final]).

(** The even parts: outside of backquotes. *)
Fixpoint even_parts {A} (l : list A) : list A :=
  match l with
  | [] => []
  | [a] => [a]
  | a :: _ :: l => a :: even_parts l
  end.

(** [split(predicate)]. *)
Fixpoint split_chars (p : Z * string -> bool) (l : list (Z * string)) : list (list (Z * string)) :=
  match l with
  | [] => [[]]
  | c :: l => if p c then [] :: split_chars p l else
      match split_chars p l with
      | part :: parts => (c :: part) :: parts
      | [] => [[c]]
      end
  end.

Definition word_break (c : Z * string) : bool :=
  negb (is_ascii_alphanumeric c.1) && negb (bool_decide (c.1 ∈ [64; 45; 95])).

Definition plain_mention (login plain : string) : bool :=
  existsb (fun word => eq_ignore_ascii_case (concat_chars word) ("@" +:+ login))
    (split_chars word_break (chars plain)).

(** One line: the new fence state, and whether the line mentions the login. *)
Definition line_mentions (login : string) (fence : bool) (line : string) : bool * bool :=
  let line := trim_start line in
  if starts_with "```" line || starts_with "~~~" line then (negb fence, false)
  else if fence || starts_with_char ">" line then (fence, false)
  else (fence, existsb (plain_mention login) (even_parts (split_on "`" line))).

(** [any]: stops at the first line that mentions. *)
Fixpoint any_line (login : string) (fence : bool) (l : list string) : bool :=
  match l with
  | [] => false
  | line :: l => let '(fence, found) := line_mentions login fence line in
                 if found then true else any_line login fence l
  end.
Definition mentions (body login : string) : bool := any_line login false (lines body).

Example control_resume : parse_control_command "@agent-p1p resume" "agent-p1p" = Some ("RESUME", "")%string.
Proof. vm_compute. reflexivity. Qed.
Example control_replan :
  parse_control_command ("@Agent-P1P Replan: keep the API stable" +:+ String "010" "and add a migration test") "agent-p1p"
  = Some ("REPLAN", "keep the API stable" +:+ String "010" "and add a migration test")%string.
Proof. vm_compute. reflexivity. Qed.
Example control_other : parse_control_command "please @agent-p1p resume" "agent-p1p" = None.
Proof. vm_compute. reflexivity. Qed.
Example mention_quoted : mentions "> @agent-p1p hello" "agent-p1p" = false.
Proof. vm_compute. reflexivity. Qed.
Example mention_plain : mentions "ping @Agent-P1P, please" "agent-p1p" = true.
Proof. vm_compute. reflexivity. Qed.

(** ** What a command is *)

Lemma floor_boundary_le n s : (floor_boundary n s <= n)%nat.
Proof. induction n as [|n IH]; simpl; [by destruct (is_char_boundary 0 s)|]. destruct (is_char_boundary _ _); lia. Qed.
Lemma floor_boundary_ok n s : is_char_boundary (floor_boundary n s) s = true.
Proof.
  induction n as [|n IH]; simpl.
  - destruct (is_char_boundary 0 s) eqn:H0; [done|]. exfalso. by destruct s.
  - by destruct (is_char_boundary (S n) s) eqn:Hs.
Qed.

Lemma verb_names w c : verb w = Some c -> one_of ["RESUME"; "REPLAN"; "ABANDON"] c = true.
Proof. unfold verb. intros Hv. repeat case_match; by simplify_eq. Qed.

(** A parsed command can always be recorded.  It is one of the three verbs, and its guidance
    is a whole number of characters of at most eight kibibytes, the bounds [record_control_command] checks. *)
Lemma parsed_command_bounds body login command guidance :
  parse_control_command body login = Some (command, guidance) ->
  one_of ["RESUME"; "REPLAN"; "ABANDON"] command = true /\ len guidance <= 8 * 1024
  /\ exists text, guidance = take_bytes (String.length guidance) text
       /\ is_char_boundary (String.length guidance) text = true.
Proof.
  unfold parse_control_command. intros (first & _ & Hp)%bind_Some. apply bind_Some in Hp as (mention & _ & Hp).
  destruct (negb _); [done|]. apply bind_Some in Hp as (second & _ & Hp).
  apply bind_Some in Hp as (command' & Hv & Hp).
  match type of Hp with Some (_, truncate_at _ ?g) = _ => set (text := g) in * end. injection Hp as -> <-.
  split; [by apply verb_names in Hv|]. unfold truncate_at.
  set (n := floor_boundary _ text).
  assert (n <= Nat.min (String.length text) max_guidance)%nat as Hn by apply floor_boundary_le.
  assert (String.length (take_bytes n text) = n) as Hlen by (apply length_take_exact; lia).
  split; [|exists text; rewrite Hlen; split; [done|apply floor_boundary_ok]].
  unfold len. rewrite Hlen. unfold max_guidance in Hn. lia.
Qed.
