(* ===== verification/Json.v ===== *)
(** * Json: [serde_json::Value], its accessors, and the text codec

    [Value] follows serde_json's enum.  An [Object] is the list of its members
    in serialization order: a [serde_json::Map] keeps them sorted by key
    (the default [BTreeMap] backing), which [wf_value] states and [map_insert]
    maintains, while a derived [Serialize] of a struct emits its fields in
    declaration order.  The text encoder, the parser and SHA-256 are third-party
    code: they are the operations of the class [Codec], and what the program
    relies on is the class [CodecLaws]. *)

From S2P Require Import Prelude Text.
From stdpp Require Import countable.
From Stdlib Require Import Ascii.
Open Scope Z_scope.

Inductive Value : Type :=
| Null
| Bool (b : bool)
| Number (n : Z)
| Float (bits : Z)
| Str (s : string)
| Array (items : list Value)
| Object (members : list (string * Value)).

(** ** Accessors *)

(** [Map::get]. *)
Fixpoint map_get (k : string) (m : list (string * Value)) : option Value :=
  match m with
  | [] => None
  | (k', v) :: m => if String.eqb k k' then Some v else map_get k m
  end.

(** [Map::insert] on the sorted representation. *)
Fixpoint map_insert (k : string) (v : Value) (m : list (string * Value))
  : list (string * Value) :=
  match m with
  | [] => [(k, v)]
  | (k', v') :: m' =>
    match String.compare k k' with
    | Lt => (k, v) :: m
    | Eq => (k, v) :: m'
    | Gt => (k', v') :: map_insert k v m'
    end
  end.

(** [Map::remove]. *)
Fixpoint map_remove (k : string) (m : list (string * Value)) : list (string * Value) :=
  match m with
  | [] => []
  | (k', v') :: m' => if String.eqb k k' then m' else (k', v') :: map_remove k m'
  end.

(** [Map::from_iter], and the [json!] object literal. *)
Definition map_of (l : list (string * Value)) : list (string * Value) :=
  foldl (fun m kv => map_insert kv.1 kv.2 m) [] l.
Definition json_object (l : list (string * Value)) : Value := Object (map_of l).

(** [value["key"]]: [Null] when absent or not an object. *)
Definition index (v : Value) (k : string) : Value :=
  match v with Object m => default Null (map_get k m) | _ => Null end.

(** [Value::get]. *)
Definition get (v : Value) (k : string) : option Value :=
  match v with Object m => map_get k m | _ => None end.

Definition as_u64 (v : Value) : option Z :=
  match v with
  | Number n => if (0 <=? n) && (n <=? u64_max) then Some n else None
  | _ => None
  end.
Definition as_str (v : Value) : option string :=
  match v with Str s => Some s | _ => None end.
Definition as_array (v : Value) : option (list Value) :=
  match v with Array l => Some l | _ => None end.
Definition as_object (v : Value) : option (list (string * Value)) :=
  match v with Object m => Some m | _ => None end.
Definition is_object (v : Value) : bool :=
  match v with Object _ => true | _ => false end.

(** [value == "text"] and [value == 1]: comparison with a primitive. *)
Definition eq_str (v : Value) (s : string) : bool :=
  match v with Str t => String.eqb t s | _ => false end.
Definition eq_int (v : Value) (n : Z) : bool :=
  match v with Number m => m =? n | _ => false end.

(** [Value::from(Option<...>)] as [json!] interpolates it. *)
Definition opt_number (o : option Z) : Value :=
  match o with Some n => Number n | None => Null end.
Definition opt_str (o : option string) : Value :=
  match o with Some s => Str s | None => Null end.

(** A parsed value: sorted unique keys, integers in serde_json's range. *)
Fixpoint sorted_keys (m : list (string * Value)) : bool :=
  match m with
  | (k, _) :: ((k', _) :: _) as m' => str_ltb k k' && sorted_keys m'
  | _ => true
  end.
Fixpoint wf_value (v : Value) : bool :=
  match v with
  | Null | Bool _ | Float _ | Str _ => true
  | Number n => (- i64_max - 1 <=? n) && (n <=? u64_max)
  | Array l => forallb wf_value l
  | Object m => sorted_keys m && forallb (fun kv => wf_value kv.2) m
  end.

(** ** Induction and decidable equality *)

Section value_induction.
Context (P : Value -> Prop).
Context (HNull : P Null) (HBool : forall b, P (Bool b)) (HNumber : forall n, P (Number n)).
Context (HFloat : forall n, P (Float n)) (HStr : forall s, P (Str s)).
Context (HArray : forall l, Forall P l -> P (Array l)).
Context (HObject : forall m, Forall (fun kv => P kv.2) m -> P (Object m)).

Fixpoint value_rect' (v : Value) : P v :=
  match v with
  | Null => HNull
  | Bool b => HBool b
  | Number n => HNumber n
  | Float n => HFloat n
  | Str s => HStr s
  | Array l => HArray l
      ((fix go l : Forall P l :=
          match l with [] => Forall_nil_2 _ | v :: l => Forall_cons_2 _ _ _ (value_rect' v) (go l) end) l)
  | Object m => HObject m
      ((fix go m : Forall (fun kv => P kv.2) m :=
          match m with
          | [] => Forall_nil_2 _
          | (k, v) :: m => Forall_cons_2 _ (k, v) _ (value_rect' v) (go m)
          end) m)
  end.
End value_induction.

Fixpoint to_tree (v : Value) : gen_tree (bool * Z * string) :=
  match v with
  | Null => GenNode 0 []
  | Bool b => GenNode 1 [GenLeaf (b, 0, "")]
  | Number n => GenNode 2 [GenLeaf (false, n, "")]
  | Float n => GenNode 3 [GenLeaf (false, n, "")]
  | Str s => GenNode 4 [GenLeaf (false, 0, s)]
  | Array l => GenNode 5 (to_tree <$> l)
  | Object m => GenNode 6 ((fun kv => GenNode 7 [GenLeaf (false, 0, kv.1); to_tree kv.2]) <$> m)
  end.

Fixpoint of_tree (t : gen_tree (bool * Z * string)) : Value :=
  match t with
  | GenNode 1 [GenLeaf (b, _, _)] => Bool b
  | GenNode 2 [GenLeaf (_, n, _)] => Number n
  | GenNode 3 [GenLeaf (_, n, _)] => Float n
  | GenNode 4 [GenLeaf (_, _, s)] => Str s
  | GenNode 5 l => Array (of_tree <$> l)
  | GenNode 6 l => Object ((fun t => match t with
                                     | GenNode 7 [GenLeaf (_, _, k); t] => (k, of_tree t)
                                     | _ => ("", Null)
                                     end) <$> l)
  | _ => Null
  end.

Lemma of_to_tree v : of_tree (to_tree v) = v.
Proof.
  induction v as [| | | | |l IH|m IH] using value_rect'; simpl; try done; f_equal.
  - induction IH; simpl; f_equal; done.
  - induction IH as [|[k v] m Hv _ IH]; simpl in *; [done|].
    f_equal; [by rewrite Hv | exact IH].
Qed.

#[export] Instance value_eq_dec : EqDecision Value.
Proof.
  refine (fun v w => cast_if (decide (to_tree v = to_tree w))).
  - abstract (by rewrite <-(of_to_tree v), <-(of_to_tree w), e).
  - abstract congruence.
Defined.

#[export] Instance value_countable : Countable Value :=
  inj_countable' to_tree of_tree of_to_tree.

(** ** Text encoding and digests *)

Class Codec := {
  to_string : Value -> string;          (* serde_json::to_string / to_vec *)
  from_str : string -> option Value;    (* serde_json::from_str *)
  hash_bytes : string -> string;        (* lowercase hex SHA-256, pip-store hash_bytes *)
  float_cmp : Z -> Z -> comparison;     (* order of two IEEE doubles *)
  float_cmp_int : Z -> Z -> comparison; (* order of a double and an integer *)
  float_of_int : Z -> Z;                (* the double nearest to an integer *)
  int_text : string -> option Z;        (* SQLite: text that reads as an integer *)
}.

(** Documented behaviour of serde_json: text written for a value parses back
    to that value, and different values are written differently. *)
Class CodecLaws (C : Codec) := {
  from_to_string v : wf_value v = true -> from_str (to_string v) = Some v;
  to_string_inj v w : to_string v = to_string w -> v = w;
}.

(** [payload(value)]: the stored text and its digest. *)
Definition payload `{Codec} (v : Value) : string * string :=
  (to_string v, hash_bytes (to_string v)).

(** A concrete codec, used to exhibit executions: the binary expansion of
    stdpp's encoding of values, and the identity as digest. *)
Fixpoint bits_of (p : positive) : string :=
  match p with
  | xH => ""
  | xO p => String "0"%char (bits_of p)
  | xI p => String "1"%char (bits_of p)
  end.
Fixpoint of_bits (s : string) : positive :=
  match s with
  | EmptyString => xH
  | String a s => if Ascii.eqb a "0"%char then xO (of_bits s) else xI (of_bits s)
  end.

Definition demo_codec : Codec := {|
  to_string v := bits_of (encode v);
  from_str s := decode (of_bits s);
  hash_bytes s := s;
  float_cmp := Z.compare;
  float_cmp_int := Z.compare;
  float_of_int n := n;
  int_text _ := None;
|}.

(** ** Facts *)

Lemma of_bits_of p : of_bits (bits_of p) = p.
Proof. induction p; simpl; congruence. Qed.

#[export] Instance demo_codec_laws : CodecLaws demo_codec.
Proof.
  split; simpl.
  - intros v _. by rewrite of_bits_of, decode_encode.
  - intros v w H. apply (inj encode). by rewrite <-(of_bits_of (encode v)), H, of_bits_of.
Qed.

Lemma string_compare_refl k : String.compare k k = Eq.
Proof.
  destruct (String.compare k k) eqn:E; [done| |];
    pose proof (String.compare_antisym k k) as H; rewrite E in H; done.
Qed.

Lemma string_compare_eq k k' : String.compare k k' = Eq <-> k = k'.
Proof.
  split; [apply String.compare_eq_iff|]. intros ->. apply string_compare_refl.
Qed.

Lemma map_get_insert_eq k v m : map_get k (map_insert k v m) = Some v.
Proof.
  induction m as [|[k' v'] m IH]; simpl; [by rewrite String.eqb_refl|].
  destruct (String.compare k k') eqn:E; simpl; rewrite ?String.eqb_refl; auto.
  destruct (String.eqb_spec k k') as [->|]; [by rewrite string_compare_refl in E|done].
Qed.

Lemma map_get_insert_ne k k' v m : k <> k' -> map_get k (map_insert k' v m) = map_get k m.
Proof.
  intros Hne. induction m as [|[k1 v1] m IH]; simpl.
  - by destruct (String.eqb_spec k k').
  - destruct (String.compare k' k1) eqn:E; simpl.
    + apply string_compare_eq in E as ->. by destruct (String.eqb_spec k k1).
    + by destruct (String.eqb_spec k k').
    + by rewrite IH.
Qed.

Lemma map_get_insert k k' v m :
  map_get k (map_insert k' v m) = if decide (k = k') then Some v else map_get k m.
Proof.
  case_decide; [subst; apply map_get_insert_eq | by apply map_get_insert_ne].
Qed.

Lemma index_object m k : index (Object m) k = default Null (map_get k m).
Proof. done. Qed.

Lemma as_u64_some v n : as_u64 v = Some n <-> v = Number n /\ is_u64 n.
Proof.
  unfold as_u64, is_u64. destruct v; try naive_solver.
  destruct (_ && _) eqn:E; bools.
  - naive_solver.
  - apply andb_false_iff in E. rewrite !Z.leb_gt in E. naive_solver lia.
Qed.
