(* ===== verification/Serde.v ===== *)
(** * Serde: what [#[derive(Deserialize)]] accepts

    The derived deserializers of the program, run on a [serde_json::Value],
    are built from the readers of this file.  [None] is a serde error. *)

From S2P Require Import Prelude Text Json.
Open Scope Z_scope.

(** A unit variant: its name, or an object with that single key and [null]. *)
Definition de_enum {A} (all : list A) (name : A -> string) (v : Value) : option A :=
  match v with
  | Str s | Object [(s, Null)] => List.find (fun a => String.eqb (name a) s) all
  | _ => None
  end.

Definition de_u64 (v : Value) : option Z := as_u64 v.
Definition de_u32 (v : Value) : option Z :=
  n ← as_u64 v; if n <=? u32_max then Some n else None.
Definition de_vec {A} (de : Value -> option A) (v : Value) : option (list A) :=
  l ← as_array v; mapM de l.
Definition de_option {A} (de : Value -> option A) (o : option Value) : option (option A) :=
  match o with
  | None | Some Null => Some None
  | Some v => Some <$> de v
  end.

(** A required field. *)
Definition field {A} (m : list (string * Value)) (k : string) (de : Value -> option A) : option A :=
  map_get k m ≫= de.

Definition deny_unknown (known : list string) (m : list (string * Value)) : bool :=
  forallb (fun kv => one_of known kv.1) m.

(** A struct with [deny_unknown_fields]: an object with no other key, or an
    array of the fields in declaration order. *)
Definition as_struct (fields : list string) (v : Value) : option (list (string * Value)) :=
  match v with
  | Object m => if deny_unknown fields m then Some m else None
  | Array l => if bool_decide (length l = length fields) then Some (zip fields l) else None
  | _ => None
  end.

(** ** Facts *)

Lemma map_get_foldl_insert k l m :
  NoDup (fst <$> l) ->
  map_get k (foldl (fun m kv => map_insert kv.1 kv.2 m) m l)
  = match map_get k l with Some v => Some v | None => map_get k m end.
Proof.
  revert m. induction l as [|[k' v'] l IH]; intros m Hl; [done|].
  apply NoDup_cons in Hl as [Hk Hl]. simpl in *. rewrite IH by done.
  rewrite map_get_insert. destruct (String.eqb_spec k k') as [->|Hne].
  - rewrite decide_True by done. replace (map_get k' l) with (@None Value); [done|].
    symmetry. clear -Hk. induction l as [|[k2 v2] l IH]; [done|]. simpl in *.
    destruct (String.eqb_spec k' k2) as [->|]; [set_solver|]. apply IH. set_solver.
  - by rewrite decide_False.
Qed.

Lemma map_get_json_object k l :
  bool_decide (NoDup (fst <$> l)) = true ->
  map_get k (map_of l) = map_get k l.
Proof.
  intros H%bool_decide_eq_true. unfold map_of. rewrite map_get_foldl_insert by done.
  by destruct (map_get k l).
Qed.

Lemma as_u64_number n : is_u64 n -> as_u64 (Number n) = Some n.
Proof. intros. by apply as_u64_some. Qed.
Lemma de_u64_number n : is_u64 n -> de_u64 (Number n) = Some n.
Proof. apply as_u64_number. Qed.
Lemma de_u32_number n : is_u32 n -> de_u32 (Number n) = Some n.
Proof.
  intros [? ?]. unfold de_u32. rewrite as_u64_number by (split; unfold u32_max, u64_max in *; lia).
  simpl. by rewrite (proj2 (Z.leb_le _ _)).
Qed.

Lemma map_insert_unknown known k v m :
  one_of known k = true -> deny_unknown known m = true -> deny_unknown known (map_insert k v m) = true.
Proof.
  intros Hk. unfold deny_unknown. induction m as [|[k' v'] m IH]; simpl; [by rewrite Hk|].
  intros H. bools. destruct (String.compare k k'); simpl; rewrite ?Hk, ?H; auto.
Qed.

Lemma deny_unknown_json_object l known :
  deny_unknown known l = true -> deny_unknown known (map_of l) = true.
Proof.
  intros H. unfold map_of. assert (deny_unknown known [] = true) as Hm by done. revert Hm.
  generalize (@nil (string * Value)).
  induction l as [|[k v] l IH]; intros m Hm; [done|]. simpl in *. bools.
  apply IH; [done|]. by apply map_insert_unknown.
Qed.

Lemma as_struct_json_object l known :
  deny_unknown known l = true -> as_struct known (json_object l) = Some (map_of l).
Proof. intros H. unfold json_object, as_struct. by rewrite deny_unknown_json_object. Qed.

Lemma mapM_fmap {A} (de : Value -> option A) (ser : A -> Value) l :
  (forall a, de (ser a) = Some a) -> mapM de (ser <$> l) = Some l.
Proof. intros H. apply mapM_Some_2, Forall2_fmap_l, Forall_Forall2_diag, Forall_true. auto. Qed.

Lemma de_vec_fmap {A} (de : Value -> option A) (ser : A -> Value) l :
  (forall a, de (ser a) = Some a) -> de_vec de (Array (ser <$> l)) = Some l.
Proof. apply mapM_fmap. Qed.

(** Look a field up in an encoded object. *)
Ltac fields :=
  unfold field; rewrite ?map_get_json_object by (vm_compute; reflexivity);
  cbn [map_get app];
  repeat (match goal with |- context [String.eqb ?a ?b] =>
    let r := eval vm_compute in (String.eqb a b) in change (String.eqb a b) with r end; cbn [map_get]).
