(* ===== verification/Sql.v ===== *)
(** * Sql: the fragment of SQLite the ledger uses

    Rows are Rocq records and a table is the list of its rows in insertion
    (rowid) order; the queries of pip-store become list operations.  This file
    has what they share: SQL values as [json_extract] yields them, comparisons
    in which NULL is never equal to anything, the aggregates [MAX] and [SUM]
    with the column conversion rusqlite applies, ordering, and the errors of a
    statement. *)

From S2P Require Import Prelude Text Json.
From stdpp Require Import sorting.
Open Scope Z_scope.

(** [rusqlite::Error], as far as the code can meet it. *)
Inductive SqlError :=
| ConstraintViolation        (* PRIMARY KEY, UNIQUE, CHECK, NOT NULL, REFERENCES *)
| QueryReturnedNoRows
| InvalidColumnType          (* a value that is not of the Rust type requested *)
| FromSqlConversionFailure   (* a result column that does not parse *)
| InvalidQuery
| MalformedJson              (* json_extract on text that is not JSON *)
| IntegerOverflow.           (* SUM beyond 64 bits *)

#[export] Instance SqlError_eq_dec : EqDecision SqlError.
Proof. solve_decision. Defined.

(** ** Values *)

(** A JSON array or object comes out of [json_extract] as its minified text;
    [SJson] keeps the value that text encodes. *)
Inductive SqlVal :=
| SNull
| SInt (n : Z)
| SReal (bits : Z)
| SText (s : string)
| SJson (v : Value).

Section sql_values.
Context `{Codec}.

(** The SQL value of a JSON value: booleans become 1 and 0, integers outside
    the signed 64-bit range become REAL. *)
Definition sql_of_json (v : Value) : SqlVal :=
  match v with
  | Null => SNull
  | Bool b => SInt (if b then 1 else 0)
  | Number n => if n <=? i64_max then SInt n else SReal (float_of_int n)
  | Float bits => SReal bits
  | Str s => SText s
  | Array _ | Object _ => SJson v
  end.

(** [json_extract(text, '$.a.b')]: NULL when the path is absent, an error when
    the text is not JSON. *)
Definition json_path (v : Value) (path : list string) : option Value :=
  foldl (fun o k => o ≫= fun v => get v k) (Some v) path.
Definition json_extract (text : string) (path : list string) : result SqlError SqlVal :=
  v ← ok_or (from_str text) MalformedJson;
  Ok (match json_path v path with Some w => sql_of_json w | None => SNull end).

(** [a = b] used as a condition. *)
Definition sql_eq (a b : SqlVal) : bool :=
  match a, b with
  | SInt m, SInt n => m =? n
  | SReal x, SInt n | SInt n, SReal x =>
      match float_cmp_int x n with Eq => true | _ => false end
  | SReal x, SReal y => match float_cmp x y with Eq => true | _ => false end
  | SText s, SText t => String.eqb s t
  | SJson v, SJson w => bool_decide (v = w)
  | SText s, SJson v | SJson v, SText s => String.eqb s (to_string v)
  | _, _ => false
  end.

(** [a < b] in the order [MAX] uses: NULL, then numbers, then text. *)
Definition sql_lt (a b : SqlVal) : bool :=
  match a, b with
  | _, SNull => false
  | SNull, _ => true
  | SInt m, SInt n => m <? n
  | SReal x, SInt n => match float_cmp_int x n with Lt => true | _ => false end
  | SInt n, SReal x => match float_cmp_int x n with Gt => true | _ => false end
  | SReal x, SReal y => match float_cmp x y with Lt => true | _ => false end
  | (SInt _ | SReal _), _ => true
  | _, (SInt _ | SReal _) => false
  | SText s, SText t => str_ltb s t
  | SText s, SJson v => str_ltb s (to_string v)
  | SJson v, SText s => str_ltb (to_string v) s
  | SJson v, SJson w => str_ltb (to_string v) (to_string w)
  end.

(** The aggregate [MAX]: the first of the greatest values, NULL on no rows. *)
Definition sql_max (l : list SqlVal) : SqlVal :=
  foldl (fun best v => if sql_lt best v then v else best) SNull l.

(** The aggregate [SUM] over [json_extract]ed values, text that reads as an
    integer counting as one.  A sum that meets anything else is REAL, which no
    [i64] column read accepts. *)
Definition numeric_type (v : SqlVal) : SqlVal :=
  match v with
  | SText s => match int_text s with Some n => SInt n | None => v end
  | _ => v
  end.
Definition sql_sum (l : list SqlVal) : result SqlError SqlVal :=
  foldl (fun acc v =>
    match acc, numeric_type v with
    | Err e, _ => Err e
    | Ok a, SNull => Ok a
    | Ok SNull, SInt n => Ok (SInt n)
    | Ok (SInt m), SInt n =>
        if (- i64_max - 1 <=? m + n) && (m + n <=? i64_max) then Ok (SInt (m + n))
        else Err IntegerOverflow
    | Ok _, _ => Ok (SReal 0)
    end) (Ok SNull) l.

(** [row.get::<_, Option<i64>>] and [row.get::<_, i64>]. *)
Definition get_opt_i64 (v : SqlVal) : result SqlError (option Z) :=
  match v with
  | SNull => Ok None
  | SInt n => Ok (Some n)
  | _ => Err InvalidColumnType
  end.
Definition get_i64 (v : SqlVal) : result SqlError Z :=
  match v with SInt n => Ok n | _ => Err InvalidColumnType end.
End sql_values.

(** [json_each(text, '$.a').value]: the elements, or the single value. *)
Definition json_each `{Codec} (text : string) (path : list string) : result SqlError (list SqlVal) :=
  v ← ok_or (from_str text) MalformedJson;
  Ok (match json_path v path with
      | None => []
      | Some (Array l) => sql_of_json <$> l
      | Some (Object m) => (fun kv => sql_of_json kv.2) <$> m
      | Some w => [sql_of_json w]
      end).

(** [json_type(text, '$.a') = 'true'] and [= 'false']. *)
Definition json_is_bool `{Codec} (b : bool) (text : string) (path : list string)
  : result SqlError bool :=
  v ← ok_or (from_str text) MalformedJson;
  Ok (bool_decide (json_path v path = Some (Bool b))).

(** A nullable column as a value. *)
Definition sql_int (o : option Z) : SqlVal := match o with Some n => SInt n | None => SNull end.
Definition sql_text (o : option string) : SqlVal := match o with Some s => SText s | None => SNull end.

(** ** Rows *)

(** [WHERE]: a condition on rows that can fail (it calls [json_extract]). *)
Fixpoint try_filter {R} (p : R -> result SqlError bool) (l : list R) : result SqlError (list R) :=
  match l with
  | [] => Ok []
  | r :: l => b ← p r; rs ← try_filter p l; Ok (if (b : bool) then r :: rs else rs)
  end.

(** [EXISTS] over such a condition. *)
Fixpoint try_exists {R} (p : R -> result SqlError bool) (l : list R) : result SqlError bool :=
  match l with
  | [] => Ok false
  | r :: l => b ← p r; if (b : bool) then Ok true else try_exists p l
  end.

(** [a AND b] where [b] is evaluated only on the rows that satisfy [a]. *)
Definition and_then (a : bool) (b : result SqlError bool) : result SqlError bool :=
  if a then b else Ok false.

Definition exists_row {R} (p : R -> bool) (l : list R) : bool := existsb p l.
Definition count_rows {R} (p : R -> bool) (l : list R) : Z := Z.of_nat (length (List.filter p l)).

(** [query_row]: the first row, or an error. *)
Definition one_row {R} (o : option R) : result SqlError R := ok_or o QueryReturnedNoRows.

(** [MAX] over an INTEGER column. *)
Definition max_opt (l : list Z) : option Z :=
  foldl (fun best n => match best with Some m => Some (Z.max m n) | None => Some n end) None l.

(** [ORDER BY]: a stable sort on a key. *)
Definition order_by {R} (leb : R -> R -> bool) (l : list R) : list R :=
  merge_sort (fun a b => Is_true (leb a b)) l.
Definition key_leb (a b : Z * string) : bool :=
  (a.1 <? b.1) || ((a.1 =? b.1) && str_leb a.2 b.2).

(** [LIMIT]. *)
Definition limit {R} (n : Z) (l : list R) : list R := take (Z.to_nat n) l.

(** [IS NULL]. *)
Definition is_none {A} (o : option A) : bool := match o with None => true | Some _ => false end.
Definition is_some {A} (o : option A) : bool := match o with None => false | Some _ => true end.

(** [column = ?] for a nullable column. *)
Definition null_eq {A} `{EqDecision A} (column : option A) (a : A) : bool :=
  bool_decide (column = Some a).
(** [a = b] for two nullable columns. *)
Definition both_eq {A} `{EqDecision A} (a b : option A) : bool :=
  match a, b with Some x, Some y => bool_decide (x = y) | _, _ => false end.
(** [?n IS NULL OR column = ?n]. *)
Definition unless {A} `{EqDecision A} (o : option A) (a : A) : bool :=
  match o with None => true | Some b => bool_decide (b = a) end.

(** [UPDATE ... WHERE p SET f]: the new table and the number of rows changed. *)
Definition update_where {R} (p : R -> bool) (f : R -> R) (l : list R) : list R * Z :=
  (map (fun r => if p r then f r else r) l, count_rows p l).

(** ** Facts *)

Lemma max_opt_app l n :
  max_opt (l ++ [n]) = Some (match max_opt l with Some m => Z.max m n | None => n end).
Proof. unfold max_opt. rewrite foldl_app. simpl. by destruct (foldl _ None l). Qed.

Lemma max_opt_spec l m :
  max_opt l = Some m -> m ∈ l /\ Forall (fun n => n <= m) l.
Proof.
  revert m. induction l as [|n l IH] using rev_ind; intros m; [done|].
  rewrite max_opt_app. intros [= <-]. destruct (max_opt l) as [m'|] eqn:E.
  - specialize (IH m' eq_refl) as [Hin Hall]. split.
    + destruct (Z.max_spec m' n) as [[_ ->]|[_ ->]]; set_solver.
    + apply Forall_app; split; [|repeat constructor; lia].
      eapply Forall_impl; [exact Hall|]. simpl. lia.
  - split; [set_solver|]. destruct l as [|x l _] using rev_ind; [repeat constructor; lia|].
    by rewrite max_opt_app in E.
Qed.

Lemma count_rows_app {R} (p : R -> bool) l k :
  count_rows p (l ++ k) = count_rows p l + count_rows p k.
Proof. unfold count_rows. rewrite List.filter_app, length_app. lia. Qed.

Lemma count_rows_nonneg {R} (p : R -> bool) l : 0 <= count_rows p l.
Proof. unfold count_rows. lia. Qed.

Lemma update_where_length {R} (p : R -> bool) f l : length (update_where p f l).1 = length l.
Proof. simpl. apply length_map. Qed.

Lemma exists_row_false {R} (p : R -> bool) l :
  exists_row p l = false <-> Forall (fun r => p r = false) l.
Proof.
  unfold exists_row. induction l as [|r l IH]; simpl; [naive_solver|].
  rewrite orb_false_iff, IH, Forall_cons. done.
Qed.

Lemma exists_row_true {R} (p : R -> bool) l :
  exists_row p l = true <-> exists r, r ∈ l /\ p r = true.
Proof. unfold exists_row. rewrite existsb_exists. by setoid_rewrite list_elem_of_In. Qed.

Lemma update_none {R} (p : R -> bool) f l :
  Forall (fun r => p r = false) l -> (update_where p f l).1 = l.
Proof. simpl. induction 1 as [|r l Hr _ IH]; simpl; [done|]. by rewrite Hr, IH. Qed.

Lemma exists_row_fresh {R} (f : R -> string) l k :
  exists_row (fun r => String.eqb (f r) k) l = false -> k ∉ f <$> l.
Proof.
  rewrite exists_row_false, Forall_forall. intros Hl (r & -> & Hr)%list_elem_of_fmap.
  specialize (Hl r Hr). simpl in Hl. by rewrite String.eqb_refl in Hl.
Qed.

(** A query with [ORDER BY] that takes the first row meeting a condition takes
    a least one. *)
Lemma order_by_elem {R} (leb : R -> R -> bool) l x : x ∈ order_by leb l <-> x ∈ l.
Proof. unfold order_by. by rewrite merge_sort_Permutation. Qed.

Lemma order_by_sorted {R} (leb : R -> R -> bool) l :
  (forall a b c, leb a b = true -> leb b c = true -> leb a c = true) ->
  (forall a b, leb a b = true \/ leb b a = true) ->
  StronglySorted (fun a b => Is_true (leb a b)) (order_by leb l).
Proof.
  intros Ht Hl. apply StronglySorted_merge_sort.
  - intros a b c ?%Is_true_true ?%Is_true_true. apply Is_true_true. eauto.
  - intros a b. rewrite !Is_true_true. apply Hl.
Qed.

Lemma find_order_by {R} (leb : R -> R -> bool) (p : R -> bool) l x :
  (forall a b c, leb a b = true -> leb b c = true -> leb a c = true) ->
  (forall a b, leb a b = true \/ leb b a = true) ->
  List.find p (order_by leb l) = Some x ->
  x ∈ l /\ p x = true /\ forall y, y ∈ l -> p y = true -> leb x y = true.
Proof.
  intros Ht Hl Hf. pose proof (order_by_sorted leb l Ht Hl) as Hs.
  assert (Hin := Hf). apply find_some in Hin as [Hin%list_elem_of_In Hp].
  rewrite order_by_elem in Hin. split_and!; [done..|].
  intros y Hy Hpy. rewrite <-(order_by_elem leb) in Hy.
  induction Hs as [|z r Hs IH Hz]; [set_solver|]. simpl in Hf. destruct (p z) eqn:E.
  - injection Hf as ->. apply elem_of_cons in Hy as [->|Hy].
    + by destruct (Hl x x).
    + rewrite Forall_forall in Hz. by apply Is_true_true, Hz.
  - apply elem_of_cons in Hy as [->|Hy]; [congruence|auto].
Qed.

Lemma key_leb_trans a b c : key_leb a b = true -> key_leb b c = true -> key_leb a c = true.
Proof.
  unfold key_leb. rewrite !orb_true_iff, !andb_true_iff, !Z.ltb_lt, !Z.eqb_eq.
  intros [?|[? H1]] [?|[? H2]]; [left; lia..|]. right. split; [lia|]. by eapply str_leb_trans.
Qed.
Lemma key_leb_total a b : key_leb a b = true \/ key_leb b a = true.
Proof.
  unfold key_leb. rewrite !orb_true_iff, !andb_true_iff, !Z.ltb_lt, !Z.eqb_eq.
  destruct (str_leb_total a.2 b.2); lia || (destruct (Z.lt_total a.1 b.1) as [|[|]]; naive_solver).
Qed.

Lemma filter_none {R} (p : R -> bool) l : (forall r, r ∈ l -> p r = false) -> List.filter p l = [].
Proof.
  induction l as [|r l IH]; [done|]. intros Hn. simpl. rewrite (Hn r) by set_solver.
  apply IH. set_solver.
Qed.

(** A predicate that holds of one row counts one row. *)
Lemma count_rows_one {R} (p : R -> bool) l x :
  NoDup l -> x ∈ l -> p x = true -> (forall y, y ∈ l -> p y = true -> y = x) -> count_rows p l = 1.
Proof.
  intros Hnd Hx Hp Hu. unfold count_rows. assert (List.filter p l = [x]) as ->; [|done].
  induction l as [|a l IH]; [set_solver|]. apply NoDup_cons in Hnd as [Ha Hnd]. simpl.
  apply elem_of_cons in Hx as [<-|Hx].
  - rewrite Hp. f_equal. apply filter_none. intros y Hy. destruct (p y) eqn:E; [|done].
    assert (y = x) by (apply Hu; set_solver). congruence.
  - destruct (p a) eqn:E; [|by apply IH; auto; set_solver].
    assert (a = x) by (apply Hu; set_solver). congruence.
Qed.

Lemma count_rows_pos {R} (p : R -> bool) l : 0 < count_rows p l -> exists x, x ∈ l /\ p x = true.
Proof.
  unfold count_rows. intros Hc. destruct (List.filter p l) as [|x r] eqn:E; [simpl in Hc; lia|].
  exists x. rewrite list_elem_of_In. apply filter_In. rewrite E. by left.
Qed.
Lemma count_rows_none {R} (p : R -> bool) l : (forall x, x ∈ l -> p x = false) -> count_rows p l = 0.
Proof. intros Hn. unfold count_rows. by rewrite filter_none. Qed.
Lemma count_rows_map {R} (p p' : R -> bool) (g : R -> R) l :
  (forall x, x ∈ l -> p' (g x) = p x) -> count_rows p' (map g l) = count_rows p l.
Proof.
  unfold count_rows. induction l as [|x l IH]; [done|]. intros Hg. simpl.
  rewrite (Hg x) by set_solver. specialize (IH ltac:(set_solver)). destruct (p x); simpl; lia.
Qed.

Lemma try_exists_true {R} (p : R -> result SqlError bool) l :
  try_exists p l = Ok true -> exists r, r ∈ l /\ p r = Ok true.
Proof.
  induction l as [|r l IH]; simpl; [done|]. intros (b & Hb & Hr)%bind_ok.
  destruct b; [set_solver|]. destruct (IH Hr) as (x & ? & ?). set_solver.
Qed.
Lemma try_filter_elem {R} (p : R -> result SqlError bool) l rs r :
  try_filter p l = Ok rs -> r ∈ rs -> r ∈ l /\ p r = Ok true.
Proof.
  revert rs. induction l as [|x l IH]; intros rs; simpl; [intros [= <-]; set_solver|].
  intros (b & Hb & (rs' & Hrs & [= <-])%bind_ok)%bind_ok Hr.
  destruct b; [apply elem_of_cons in Hr as [->|Hr]; [set_solver|]|];
    destruct (IH _ Hrs Hr); set_solver.
Qed.
Lemma and_then_true a b : and_then a b = Ok true <-> a = true /\ b = Ok true.
Proof. destruct a; simpl; naive_solver. Qed.
