(* ===== verification/Domain.v ===== *)
(** * Domain: identifiers of the pure core (crates/pip-core/src/domain.rs)

    Non-zero integers are [Z] built through [nonzero]; textual identifiers and
    slugs are strings accepted by their [from_str].  [case_key] is the
    [Display] of [CaseId], the primary key of every case row in the ledger. *)

From S2P Require Import Prelude Text.
From Stdlib Require Import Ascii.
Open Scope Z_scope.

(** [IdentifierError]. *)
Record IdentifierError := { kind : string; value : string }.

#[export] Instance identifier_error_eq_dec : EqDecision IdentifierError.
Proof. solve_decision. Defined.

Definition slug_byte (b : Z) : bool :=
  is_ascii_alphanumeric b || (b =? 46) || (b =? 95) || (b =? 45).

Definition valid_slug (value : string) : bool :=
  negb (is_empty value) && forallb slug_byte (bytes value).

(** [RepositorySlug::from_str]: exactly two slugs joined by one slash. *)
Definition RepositorySlug_from_str (value : string) : result IdentifierError string :=
  match split_on "/"%char value with
  | owner :: rest =>
    let repository := default "" (head rest) in
    if negb (valid_slug owner) || negb (valid_slug repository)
       || bool_decide (is_Some (head (tail rest)))
    then Err {| kind := "repository slug"; value := value |}
    else Ok value
  | [] => Err {| kind := "repository slug"; value := value |}
  end.

(** [textual_id!]: [RunId], [FindingId] and [EventId]. *)
Definition textual_id (k : string) (value : string) : result IdentifierError string :=
  if valid_slug value then Ok value else Err {| kind := k; value := value |}.
Definition RunId_from_str := textual_id "run ID".
Definition FindingId_from_str := textual_id "finding ID".
Definition EventId_from_str := textual_id "event ID".

(** [CaseId]. *)
Record CaseId := { repository : Z; issue : Z; workflow : Z }.

#[export] Instance case_id_eq_dec : EqDecision CaseId.
Proof. solve_decision. Defined.

(** The components of a [CaseId] are [NonZeroU64], [NonZeroU64], [NonZeroU32]. *)
Definition wf_case_id (c : CaseId) : Prop :=
  1 <= repository c <= u64_max /\ 1 <= issue c <= u64_max /\ 1 <= workflow c <= u32_max.

(** [impl Display for CaseId]. *)
Definition case_key (c : CaseId) : string :=
  "repo:" +:+ show (repository c) +:+ String "#" (show (issue c) +:+ String "@" (show (workflow c))).

(** [StateRevision::checked_next]. *)
Definition checked_next (revision : Z) : option Z :=
  checked_add u64_max revision 1 ≫= nonzero.

(** [GitSha::from_str]: forty lowercase hexadecimal digits; [Display] gives
    them back unchanged. *)
Definition GitSha_from_str (value : string) : result IdentifierError string :=
  if negb (len value =? 40) || negb (forallb is_lower_hex (bytes value))
  then Err {| kind := "Git SHA"; value := value |}
  else Ok value.

(** ** Facts *)

Lemma case_key_inj (a b : CaseId) :
  wf_case_id a -> wf_case_id b -> case_key a = case_key b -> a = b.
Proof.
  intros (Ha1 & Ha2 & Ha3) (Hb1 & Hb2 & Hb3) H. unfold case_key in H.
  apply append_inj_l in H.
  apply digits_sep_inj in H as [Hr H]; auto using show_digits.
  apply digits_sep_inj in H as [Hi Hw]; auto using show_digits.
  apply show_inj in Hr, Hi, Hw; try lia.
  destruct a, b; simpl in *; congruence.
Qed.

(** ** Theorems *)

(** Case keys identify cases: two well-formed case identities with the same
    rendered key are the same identity, so the ledger's primary key never
    conflates two cases. *)
Theorem case_key_injective (a b : CaseId) :
  wf_case_id a -> wf_case_id b -> case_key a = case_key b -> a = b.
Proof. apply case_key_inj. Qed.

Lemma case_key_injective_witness :
  {| repository := 6 * 2; issue := 3; workflow := 1 |}
  = {| repository := 12; issue := 3; workflow := 1 |}.
Proof.
  apply case_key_injective; [split_and!; vm_compute; congruence.. | reflexivity].
Defined.

(** An accepted revision is the successor and stays a non-zero [u64]; the
    last representable revision has none. *)
Lemma checked_next_spec r r' :
  1 <= r <= u64_max ->
  checked_next r = Some r' <-> r' = r + 1 /\ r < u64_max.
Proof.
  intros Hr. unfold checked_next, checked_add, nonzero.
  destruct (Z.leb_spec (r + 1) u64_max); simpl.
  - destruct (Z.eqb_spec (r + 1) 0); naive_solver lia.
  - naive_solver lia.
Qed.

Lemma split_on_app (c : ascii) s :
  foldr (fun p acc => match acc with None => Some p | Some t => Some (p +:+ String c t) end)
    None (split_on c s) = Some s.
Proof.
  induction s as [|a s IH]; simpl; [done|].
  destruct (Ascii.eqb_spec a c) as [->|].
  - simpl. by rewrite IH.
  - destruct (split_on c s) as [|p ps]; simpl in *; [done|].
    destruct (foldr _ None ps); naive_solver.
Qed.

(** Parsing a repository slug: the accepted texts are exactly those of the
    form [owner/repository] with both parts valid slugs, and the value is
    kept unchanged. *)
Theorem RepositorySlug_from_str_ok (v r : string) :
  RepositorySlug_from_str v = Ok r <->
  r = v /\ exists o p, split_on "/"%char v = [o; p] /\ v = o +:+ String "/" p
                       /\ valid_slug o = true /\ valid_slug p = true.
Proof.
  unfold RepositorySlug_from_str. pose proof (split_on_app "/"%char v) as Hv.
  destruct (split_on _ v) as [|o [|p [|q rest]]] eqn:E; simpl in *.
  - naive_solver.
  - replace (valid_slug "") with false by done. rewrite orb_true_r. naive_solver.
  - injection Hv as Hv.
    destruct (valid_slug o) eqn:Ho, (valid_slug p) eqn:Hp; simpl; (split;
      [intros [= <-]; eauto 10 | intros [-> (o' & p' & [= <- <-] & _ & ? & ?)]; congruence]).
  - rewrite orb_true_r. naive_solver.
Qed.
