(* ===== verification/StateMachine.v ===== *)
(** * StateMachine: the workflow state machine (crates/pip-core/src/state_machine.rs)

    [transition] is the total function the controller evaluates for every
    accepted event; the traces of the workflow are the sequences of accepted
    transitions, and the safety properties of the workflow are invariants of
    those traces. *)

From S2P Require Import Prelude Text.
From Stdlib Require Import Ascii.
Open Scope Z_scope.

(** ** States, events, effects *)

Module State.
Inductive CaseState :=
| Planning
| WaitingHuman
| ReadyToBuild
| Building
| WaitingCi
| Reviewing
| Remediating
| FinalReview
| ShadowReady
| ReadyToMerge
| Merging
| Completed
| Blocked
| Escalated
| Abandoned
| TakenOver.
End State.
Abbreviation CaseState := State.CaseState.

Module Ev.
Inductive Event :=
| PlanRecorded
| Proceed
| WaitingForIssueCreator
| NeedsHumanScopeDecision
| RootCauseDifferentScope
| CrossRepoDependency
| AlreadyFixed
| NotReproducible
| Duplicate
| Abandon
| HumanNarrowedScope
| HumanApprovedStaleBase
| HumanClarified
| HumanFeedbackReceived
| BuilderDispatched
| NativeReviewRetryAuthorized
| ReviewCoordinationRecoveryAuthorized
| InfrastructureRecoveryAuthorized
| RemediationBudgetExtended
| FollowUpRecoveryAuthorized
| PublicationRetryAuthorized
| BuildRecorded
| ReviewReady
| ReturnToPlanning
| Blocked
| HumanReaffirmedScope
| CiAccepted
| CiFailed
| ReviewRecorded
| ReviewsApproved
| ReviewsPublished
| FinalPreflightAccepted
| RequestChanges
| Ready
| ReturnToBuild
| ReturnToReview
| WaitForIssueCreator
| HumanMerged
| PrerequisiteResolved
| BlockedUnexpectedModel
| MergeStarted
| MergeVerified
| HumanTookOver
| AuthorizationRemoved
| OperationalBoundReached
| HumanResumed
| HumanAbandoned.
End Ev.
Abbreviation Event := Ev.Event.

Module Fx.
Inductive Effect :=
| DispatchPlanner
| PublishPlan
| DispatchBuilder
| PublishDraftPullRequest
| ObserveCi
| DispatchReviewers
| PublishReviews
| ObserveFinalPreflight
| DispatchFinalReviewer
| HoldForHuman
| NotifyShadowReady
| BeginMerge
| ExecuteMerge
| RecordCompletion
| RecordAbandonment
| RecordBlock
| RecordTakeover
| Escalate.
End Fx.
Abbreviation Effect := Fx.Effect.

Inductive MergeMode := Shadow | Guarded.

#[export] Instance case_state_eq_dec : EqDecision CaseState.
Proof. solve_decision. Defined.
#[export] Instance event_eq_dec : EqDecision Event.
Proof. solve_decision. Defined.
#[export] Instance effect_eq_dec : EqDecision Effect.
Proof. solve_decision. Defined.
#[export] Instance merge_mode_eq_dec : EqDecision MergeMode.
Proof. solve_decision. Defined.

(** [CaseState::is_terminal]. *)
Definition is_terminal (s : CaseState) : bool :=
  match s with State.Completed | State.Abandoned | State.TakenOver => true | _ => false end.

(** [Event::ALL]. *)
Definition Event_ALL : list Event := [
  Ev.PlanRecorded;
  Ev.Proceed;
  Ev.WaitingForIssueCreator;
  Ev.NeedsHumanScopeDecision;
  Ev.RootCauseDifferentScope;
  Ev.CrossRepoDependency;
  Ev.AlreadyFixed;
  Ev.NotReproducible;
  Ev.Duplicate;
  Ev.Abandon;
  Ev.HumanNarrowedScope;
  Ev.HumanApprovedStaleBase;
  Ev.HumanClarified;
  Ev.HumanFeedbackReceived;
  Ev.BuilderDispatched;
  Ev.NativeReviewRetryAuthorized;
  Ev.ReviewCoordinationRecoveryAuthorized;
  Ev.InfrastructureRecoveryAuthorized;
  Ev.RemediationBudgetExtended;
  Ev.FollowUpRecoveryAuthorized;
  Ev.PublicationRetryAuthorized;
  Ev.BuildRecorded;
  Ev.ReviewReady;
  Ev.ReturnToPlanning;
  Ev.Blocked;
  Ev.HumanReaffirmedScope;
  Ev.CiAccepted;
  Ev.CiFailed;
  Ev.ReviewRecorded;
  Ev.ReviewsApproved;
  Ev.ReviewsPublished;
  Ev.FinalPreflightAccepted;
  Ev.RequestChanges;
  Ev.Ready;
  Ev.ReturnToBuild;
  Ev.ReturnToReview;
  Ev.WaitForIssueCreator;
  Ev.HumanMerged;
  Ev.PrerequisiteResolved;
  Ev.BlockedUnexpectedModel;
  Ev.MergeStarted;
  Ev.MergeVerified;
  Ev.HumanTookOver;
  Ev.AuthorizationRemoved;
  Ev.OperationalBoundReached;
  Ev.HumanResumed;
  Ev.HumanAbandoned
].

(** [string_enum!(CaseState, ...)]: the wire names. *)
Definition CaseState_to_string (s : CaseState) : string :=
  match s with
  | State.Planning => "PLANNING"
  | State.WaitingHuman => "WAITING_HUMAN"
  | State.ReadyToBuild => "READY_TO_BUILD"
  | State.Building => "BUILDING"
  | State.WaitingCi => "WAITING_CI"
  | State.Reviewing => "REVIEWING"
  | State.Remediating => "REMEDIATING"
  | State.FinalReview => "FINAL_REVIEW"
  | State.ShadowReady => "SHADOW_READY"
  | State.ReadyToMerge => "READY_TO_MERGE"
  | State.Merging => "MERGING"
  | State.Completed => "COMPLETED"
  | State.Blocked => "BLOCKED"
  | State.Escalated => "ESCALATED"
  | State.Abandoned => "ABANDONED"
  | State.TakenOver => "TAKEN_OVER"
  end.

(** [ParseDomainValueError]. *)
Record ParseDomainValueError := { parse_kind : string; parse_value : string }.

Definition CaseState_from_str (value : string) : result ParseDomainValueError CaseState :=
  if String.eqb value "PLANNING" then Ok State.Planning
  else if String.eqb value "WAITING_HUMAN" then Ok State.WaitingHuman
  else if String.eqb value "READY_TO_BUILD" then Ok State.ReadyToBuild
  else if String.eqb value "BUILDING" then Ok State.Building
  else if String.eqb value "WAITING_CI" then Ok State.WaitingCi
  else if String.eqb value "REVIEWING" then Ok State.Reviewing
  else if String.eqb value "REMEDIATING" then Ok State.Remediating
  else if String.eqb value "FINAL_REVIEW" then Ok State.FinalReview
  else if String.eqb value "SHADOW_READY" then Ok State.ShadowReady
  else if String.eqb value "READY_TO_MERGE" then Ok State.ReadyToMerge
  else if String.eqb value "MERGING" then Ok State.Merging
  else if String.eqb value "COMPLETED" then Ok State.Completed
  else if String.eqb value "BLOCKED" then Ok State.Blocked
  else if String.eqb value "ESCALATED" then Ok State.Escalated
  else if String.eqb value "ABANDONED" then Ok State.Abandoned
  else if String.eqb value "TAKEN_OVER" then Ok State.TakenOver
  else Err {| parse_kind := "case state"; parse_value := value |}.

(** [string_enum!(Event, ...)]. *)
Definition Event_to_string (e : Event) : string :=
  match e with
  | Ev.PlanRecorded => "PLAN_RECORDED"
  | Ev.Proceed => "PROCEED"
  | Ev.WaitingForIssueCreator => "WAITING_FOR_ISSUE_CREATOR"
  | Ev.NeedsHumanScopeDecision => "NEEDS_HUMAN_SCOPE_DECISION"
  | Ev.RootCauseDifferentScope => "ROOT_CAUSE_DIFFERENT_SCOPE"
  | Ev.CrossRepoDependency => "CROSS_REPO_DEPENDENCY"
  | Ev.AlreadyFixed => "ALREADY_FIXED"
  | Ev.NotReproducible => "NOT_REPRODUCIBLE"
  | Ev.Duplicate => "DUPLICATE"
  | Ev.Abandon => "ABANDON"
  | Ev.HumanNarrowedScope => "HUMAN_NARROWED_SCOPE"
  | Ev.HumanApprovedStaleBase => "HUMAN_APPROVED_STALE_BASE"
  | Ev.HumanClarified => "HUMAN_CLARIFIED"
  | Ev.HumanFeedbackReceived => "HUMAN_FEEDBACK_RECEIVED"
  | Ev.BuilderDispatched => "BUILDER_DISPATCHED"
  | Ev.NativeReviewRetryAuthorized => "NATIVE_REVIEW_RETRY_AUTHORIZED"
  | Ev.ReviewCoordinationRecoveryAuthorized => "REVIEW_COORDINATION_RECOVERY_AUTHORIZED"
  | Ev.InfrastructureRecoveryAuthorized => "INFRASTRUCTURE_RECOVERY_AUTHORIZED"
  | Ev.RemediationBudgetExtended => "REMEDIATION_BUDGET_EXTENDED"
  | Ev.FollowUpRecoveryAuthorized => "FOLLOW_UP_RECOVERY_AUTHORIZED"
  | Ev.PublicationRetryAuthorized => "PUBLICATION_RETRY_AUTHORIZED"
  | Ev.BuildRecorded => "BUILD_RECORDED"
  | Ev.ReviewReady => "REVIEW_READY"
  | Ev.ReturnToPlanning => "RETURN_TO_PLANNING"
  | Ev.Blocked => "BLOCKED"
  | Ev.HumanReaffirmedScope => "HUMAN_REAFFIRMED_SCOPE"
  | Ev.CiAccepted => "CI_ACCEPTED"
  | Ev.CiFailed => "CI_FAILED"
  | Ev.ReviewRecorded => "REVIEW_RECORDED"
  | Ev.ReviewsApproved => "REVIEWS_APPROVED"
  | Ev.ReviewsPublished => "REVIEWS_PUBLISHED"
  | Ev.FinalPreflightAccepted => "FINAL_PREFLIGHT_ACCEPTED"
  | Ev.RequestChanges => "REQUEST_CHANGES"
  | Ev.Ready => "READY"
  | Ev.ReturnToBuild => "RETURN_TO_BUILD"
  | Ev.ReturnToReview => "RETURN_TO_REVIEW"
  | Ev.WaitForIssueCreator => "WAIT_FOR_ISSUE_CREATOR"
  | Ev.HumanMerged => "HUMAN_MERGED"
  | Ev.PrerequisiteResolved => "PREREQUISITE_RESOLVED"
  | Ev.BlockedUnexpectedModel => "BLOCKED_UNEXPECTED_MODEL"
  | Ev.MergeStarted => "MERGE_STARTED"
  | Ev.MergeVerified => "MERGE_VERIFIED"
  | Ev.HumanTookOver => "HUMAN_TOOK_OVER"
  | Ev.AuthorizationRemoved => "AUTHORIZATION_REMOVED"
  | Ev.OperationalBoundReached => "OPERATIONAL_BOUND_REACHED"
  | Ev.HumanResumed => "HUMAN_RESUMED"
  | Ev.HumanAbandoned => "HUMAN_ABANDONED"
  end.

Definition Event_from_str (value : string) : result ParseDomainValueError Event :=
  if String.eqb value "PLAN_RECORDED" then Ok Ev.PlanRecorded
  else if String.eqb value "PROCEED" then Ok Ev.Proceed
  else if String.eqb value "WAITING_FOR_ISSUE_CREATOR" then Ok Ev.WaitingForIssueCreator
  else if String.eqb value "NEEDS_HUMAN_SCOPE_DECISION" then Ok Ev.NeedsHumanScopeDecision
  else if String.eqb value "ROOT_CAUSE_DIFFERENT_SCOPE" then Ok Ev.RootCauseDifferentScope
  else if String.eqb value "CROSS_REPO_DEPENDENCY" then Ok Ev.CrossRepoDependency
  else if String.eqb value "ALREADY_FIXED" then Ok Ev.AlreadyFixed
  else if String.eqb value "NOT_REPRODUCIBLE" then Ok Ev.NotReproducible
  else if String.eqb value "DUPLICATE" then Ok Ev.Duplicate
  else if String.eqb value "ABANDON" then Ok Ev.Abandon
  else if String.eqb value "HUMAN_NARROWED_SCOPE" then Ok Ev.HumanNarrowedScope
  else if String.eqb value "HUMAN_APPROVED_STALE_BASE" then Ok Ev.HumanApprovedStaleBase
  else if String.eqb value "HUMAN_CLARIFIED" then Ok Ev.HumanClarified
  else if String.eqb value "HUMAN_FEEDBACK_RECEIVED" then Ok Ev.HumanFeedbackReceived
  else if String.eqb value "BUILDER_DISPATCHED" then Ok Ev.BuilderDispatched
  else if String.eqb value "NATIVE_REVIEW_RETRY_AUTHORIZED" then Ok Ev.NativeReviewRetryAuthorized
  else if String.eqb value "REVIEW_COORDINATION_RECOVERY_AUTHORIZED" then Ok Ev.ReviewCoordinationRecoveryAuthorized
  else if String.eqb value "INFRASTRUCTURE_RECOVERY_AUTHORIZED" then Ok Ev.InfrastructureRecoveryAuthorized
  else if String.eqb value "REMEDIATION_BUDGET_EXTENDED" then Ok Ev.RemediationBudgetExtended
  else if String.eqb value "FOLLOW_UP_RECOVERY_AUTHORIZED" then Ok Ev.FollowUpRecoveryAuthorized
  else if String.eqb value "PUBLICATION_RETRY_AUTHORIZED" then Ok Ev.PublicationRetryAuthorized
  else if String.eqb value "BUILD_RECORDED" then Ok Ev.BuildRecorded
  else if String.eqb value "REVIEW_READY" then Ok Ev.ReviewReady
  else if String.eqb value "RETURN_TO_PLANNING" then Ok Ev.ReturnToPlanning
  else if String.eqb value "BLOCKED" then Ok Ev.Blocked
  else if String.eqb value "HUMAN_REAFFIRMED_SCOPE" then Ok Ev.HumanReaffirmedScope
  else if String.eqb value "CI_ACCEPTED" then Ok Ev.CiAccepted
  else if String.eqb value "CI_FAILED" then Ok Ev.CiFailed
  else if String.eqb value "REVIEW_RECORDED" then Ok Ev.ReviewRecorded
  else if String.eqb value "REVIEWS_APPROVED" then Ok Ev.ReviewsApproved
  else if String.eqb value "REVIEWS_PUBLISHED" then Ok Ev.ReviewsPublished
  else if String.eqb value "FINAL_PREFLIGHT_ACCEPTED" then Ok Ev.FinalPreflightAccepted
  else if String.eqb value "REQUEST_CHANGES" then Ok Ev.RequestChanges
  else if String.eqb value "READY" then Ok Ev.Ready
  else if String.eqb value "RETURN_TO_BUILD" then Ok Ev.ReturnToBuild
  else if String.eqb value "RETURN_TO_REVIEW" then Ok Ev.ReturnToReview
  else if String.eqb value "WAIT_FOR_ISSUE_CREATOR" then Ok Ev.WaitForIssueCreator
  else if String.eqb value "HUMAN_MERGED" then Ok Ev.HumanMerged
  else if String.eqb value "PREREQUISITE_RESOLVED" then Ok Ev.PrerequisiteResolved
  else if String.eqb value "BLOCKED_UNEXPECTED_MODEL" then Ok Ev.BlockedUnexpectedModel
  else if String.eqb value "MERGE_STARTED" then Ok Ev.MergeStarted
  else if String.eqb value "MERGE_VERIFIED" then Ok Ev.MergeVerified
  else if String.eqb value "HUMAN_TOOK_OVER" then Ok Ev.HumanTookOver
  else if String.eqb value "AUTHORIZATION_REMOVED" then Ok Ev.AuthorizationRemoved
  else if String.eqb value "OPERATIONAL_BOUND_REACHED" then Ok Ev.OperationalBoundReached
  else if String.eqb value "HUMAN_RESUMED" then Ok Ev.HumanResumed
  else if String.eqb value "HUMAN_ABANDONED" then Ok Ev.HumanAbandoned
  else Err {| parse_kind := "event"; parse_value := value |}.

(** [TransitionContext] and its default. *)
Record TransitionContext := {
  remediation_round : Z;
  max_remediation_rounds : Z;
  merge_mode : MergeMode;
  resume_target : option CaseState;
}.

Definition default_context : TransitionContext := {|
  remediation_round := 0;
  max_remediation_rounds := 3;
  merge_mode := Shadow;
  resume_target := None;
|}.

Record TransitionDecision := { next_state : CaseState; effects : list Effect }.

Inductive TransitionError :=
| InvalidLoopBound
| TerminalState (s : CaseState)
| InvalidTransition (s : CaseState) (e : Event).

(** [decision]. *)
Definition decision (s : CaseState) (fx : list Effect)
  : result TransitionError TransitionDecision :=
  Ok {| next_state := s; effects := fx |}.

(** [matches!(state, Escalated | Blocked | WaitingHuman)]. *)
Definition parked (s : CaseState) : bool :=
  match s with State.Escalated | State.Blocked | State.WaitingHuman => true | _ => false end.

(** The final [match (state, event)] of [transition]; [exhausted] is the guard
    [remediation_round >= max_remediation_rounds] its arms share. *)
Definition transition_table (state : CaseState) (event : Event) (context : TransitionContext)
  : result TransitionError TransitionDecision :=
  let exhausted := max_remediation_rounds context <=? remediation_round context in
  match state, event with
  | (State.Planning | State.WaitingHuman | State.ReadyToBuild | State.WaitingCi
     | State.Reviewing | State.Remediating | State.FinalReview | State.ShadowReady),
    Ev.HumanFeedbackReceived =>
    if exhausted then decision State.Escalated [Fx.Escalate]
    else decision State.Planning [Fx.DispatchPlanner]
  | State.Planning, Ev.PlanRecorded => decision State.Planning [Fx.PublishPlan]
  | State.Planning, Ev.Proceed => decision State.ReadyToBuild [Fx.DispatchBuilder]
  | State.Planning,
    (Ev.WaitingForIssueCreator | Ev.NeedsHumanScopeDecision | Ev.RootCauseDifferentScope) =>
    decision State.WaitingHuman [Fx.HoldForHuman]
  | State.Planning, (Ev.CrossRepoDependency | Ev.Blocked) =>
    decision State.Blocked [Fx.RecordBlock]
  | State.Planning, (Ev.AlreadyFixed | Ev.NotReproducible | Ev.Duplicate) =>
    decision State.Completed [Fx.RecordCompletion]
  | State.Planning, Ev.Abandon => decision State.Abandoned [Fx.RecordAbandonment]
  | State.Planning, (Ev.HumanNarrowedScope | Ev.HumanApprovedStaleBase)
  | (State.WaitingHuman | State.Escalated), Ev.HumanClarified =>
    decision State.Planning [Fx.DispatchPlanner]
  | State.ReadyToBuild, Ev.BuilderDispatched => decision State.Building []
  | State.Escalated, Ev.NativeReviewRetryAuthorized =>
    decision State.WaitingCi [Fx.ObserveCi]
  | (State.Reviewing | State.Escalated), Ev.ReviewCoordinationRecoveryAuthorized =>
    decision State.WaitingCi [Fx.ObserveCi]
  | State.Escalated, Ev.RemediationBudgetExtended =>
    decision State.WaitingCi [Fx.ObserveCi]
  | (State.Escalated | State.Blocked), Ev.InfrastructureRecoveryAuthorized =>
    if remediation_round context <? max_remediation_rounds context
    then decision State.Remediating [Fx.DispatchBuilder]
    else Err (InvalidTransition state event)
  | (State.WaitingCi | State.Reviewing | State.FinalReview), Ev.PublicationRetryAuthorized =>
    decision State.Building [Fx.PublishDraftPullRequest]
  | (State.Building | State.Remediating), Ev.BuildRecorded =>
    decision state [Fx.PublishDraftPullRequest]
  | (State.Building | State.Remediating), Ev.ReviewReady =>
    decision State.WaitingCi [Fx.ObserveCi]
  | (State.Building | State.Remediating), Ev.ReturnToPlanning =>
    decision State.Planning [Fx.DispatchPlanner]
  | State.Building, Ev.HumanReaffirmedScope =>
    decision State.ReadyToBuild [Fx.DispatchBuilder]
  | State.WaitingCi, Ev.CiAccepted => decision State.Reviewing [Fx.DispatchReviewers]
  | State.WaitingCi, Ev.CiFailed =>
    if exhausted then decision State.Escalated [Fx.Escalate]
    else decision State.Remediating [Fx.DispatchBuilder]
  | State.Reviewing, Ev.ReviewRecorded => decision State.Reviewing []
  | State.Reviewing, Ev.ReviewsApproved => decision State.FinalReview [Fx.PublishReviews]
  | State.FinalReview, Ev.ReviewsPublished =>
    decision State.FinalReview [Fx.ObserveFinalPreflight]
  | State.Remediating, Ev.ReviewsPublished =>
    decision State.Remediating [Fx.DispatchBuilder]
  | State.FinalReview, Ev.FinalPreflightAccepted =>
    decision State.FinalReview [Fx.DispatchFinalReviewer]
  | State.Reviewing, Ev.RequestChanges =>
    if exhausted then decision State.Escalated [Fx.PublishReviews; Fx.Escalate]
    else decision State.Remediating [Fx.PublishReviews]
  | State.FinalReview, Ev.Ready =>
    match merge_mode context with
    | Shadow => decision State.ShadowReady [Fx.NotifyShadowReady]
    | Guarded => decision State.ReadyToMerge [Fx.BeginMerge]
    end
  | State.FinalReview, Ev.ReturnToBuild =>
    if exhausted then decision State.Escalated [Fx.Escalate]
    else decision State.Remediating [Fx.DispatchBuilder]
  | State.FinalReview, Ev.ReturnToReview =>
    if exhausted then decision State.Escalated [Fx.Escalate]
    else decision State.Reviewing [Fx.DispatchReviewers]
  | State.FinalReview, Ev.ReturnToPlanning =>
    if exhausted then decision State.Escalated [Fx.Escalate]
    else decision State.Planning [Fx.DispatchPlanner]
  | State.FinalReview, Ev.WaitForIssueCreator =>
    if exhausted then decision State.Escalated [Fx.Escalate]
    else decision State.WaitingHuman [Fx.HoldForHuman]
  | State.ShadowReady, Ev.HumanMerged => decision State.Completed [Fx.RecordCompletion]
  | State.ReadyToMerge, Ev.MergeStarted =>
    match merge_mode context with
    | Guarded => decision State.Merging [Fx.ExecuteMerge]
    | Shadow => Err (InvalidTransition state event)
    end
  | State.Merging, Ev.MergeVerified =>
    match merge_mode context with
    | Guarded => decision State.Completed [Fx.RecordCompletion]
    | Shadow => Err (InvalidTransition state event)
    end
  | State.Blocked, Ev.PrerequisiteResolved => decision State.Planning [Fx.DispatchPlanner]
  | (State.Building | State.WaitingCi | State.Reviewing | State.Remediating
     | State.FinalReview | State.ShadowReady | State.ReadyToMerge | State.Merging),
    Ev.Blocked => decision State.Blocked [Fx.RecordBlock]
  | (State.Building | State.Remediating | State.FinalReview), Ev.Abandon =>
    decision State.Abandoned [Fx.RecordAbandonment]
  | _, _ => Err (InvalidTransition state event)
  end.

(** [transition]: the guards before the table, in source order. *)
Definition transition (state : CaseState) (event : Event) (context : TransitionContext)
  : result TransitionError TransitionDecision :=
  if max_remediation_rounds context =? 0 then Err InvalidLoopBound
  else if bool_decide (state = State.TakenOver) && bool_decide (event = Ev.HumanMerged) then
    decision State.Completed [Fx.RecordCompletion]
  else if bool_decide (state = State.TakenOver)
          && bool_decide (event = Ev.FollowUpRecoveryAuthorized) then
    decision State.Planning [Fx.DispatchPlanner]
  else if is_terminal state then Err (TerminalState state)
  else if bool_decide (event = Ev.HumanTookOver) then
    decision State.TakenOver [Fx.RecordTakeover]
  else if bool_decide (event = Ev.AuthorizationRemoved) then
    decision State.Abandoned [Fx.RecordAbandonment]
  else if bool_decide (event = Ev.BlockedUnexpectedModel) then
    decision State.Blocked [Fx.RecordBlock]
  else if bool_decide (event = Ev.OperationalBoundReached) then
    decision State.Escalated [Fx.Escalate]
  else if bool_decide (event = Ev.HumanAbandoned) && parked state then
    decision State.Abandoned [Fx.RecordAbandonment]
  else if bool_decide (event = Ev.HumanResumed) && parked state then
    match resume_target context with
    | Some State.Planning => decision State.Planning [Fx.DispatchPlanner]
    | Some ((State.ReadyToBuild | State.Remediating) as target) =>
      decision target [Fx.DispatchBuilder]
    | Some State.WaitingCi => decision State.WaitingCi [Fx.ObserveCi]
    | _ => Err (InvalidTransition state event)
    end
  else transition_table state event context.

(** ** The abstract contract of the workflow

    A run is a sequence of accepted transitions; every step keeps the context
    it was evaluated in, so that a run may mix contexts. *)

Inductive run (s : CaseState) : list (Event * TransitionContext * TransitionDecision) -> CaseState -> Prop :=
| run_start : run s [] s
| run_step l m e c d : run s l m -> transition m e c = Ok d -> run s (l ++ [(e, c, d)]) (next_state d).

(** The events of a run, and the effects it emitted. *)
Definition events_of (l : list (Event * TransitionContext * TransitionDecision)) : list Event :=
  (fun x => x.1.1) <$> l.
Definition effects_of (l : list (Event * TransitionContext * TransitionDecision)) : list Effect :=
  l ≫= fun x => effects x.2.

(** Events that can occur between acceptance of CI and of the reviews, and
    between acceptance of the reviews and readiness. *)
Definition cohort_event (e : Event) : bool :=
  match e with
  | Ev.ReviewRecorded | Ev.ReviewsApproved | Ev.ReviewsPublished
  | Ev.FinalPreflightAccepted | Ev.ReturnToReview => true
  | _ => false
  end.
Definition final_event (e : Event) : bool :=
  match e with Ev.ReviewsPublished | Ev.FinalPreflightAccepted => true | _ => false end.

Definition merge_state (s : CaseState) : bool :=
  match s with State.ReadyToMerge | State.Merging => true | _ => false end.
Definition merge_effect (f : Effect) : bool :=
  match f with Fx.BeginMerge | Fx.ExecuteMerge => true | _ => false end.

(** The stage in which an effect is meaningful. *)
Definition effect_stage (f : Effect) (s : CaseState) : bool :=
  match f, s with
  | (Fx.DispatchPlanner | Fx.PublishPlan), State.Planning
  | Fx.DispatchBuilder, (State.ReadyToBuild | State.Remediating)
  | Fx.PublishDraftPullRequest, (State.Building | State.Remediating)
  | Fx.ObserveCi, State.WaitingCi
  | Fx.DispatchReviewers, State.Reviewing
  | Fx.PublishReviews, (State.FinalReview | State.Remediating | State.Escalated)
  | (Fx.ObserveFinalPreflight | Fx.DispatchFinalReviewer), State.FinalReview
  | Fx.HoldForHuman, State.WaitingHuman
  | Fx.NotifyShadowReady, State.ShadowReady
  | Fx.BeginMerge, State.ReadyToMerge
  | Fx.ExecuteMerge, State.Merging
  | Fx.RecordCompletion, State.Completed
  | Fx.RecordAbandonment, State.Abandoned
  | Fx.RecordBlock, State.Blocked
  | Fx.RecordTakeover, State.TakenOver
  | Fx.Escalate, State.Escalated => true
  | _, _ => false
  end.

Definition worker_dispatch (f : Effect) : bool :=
  match f with
  | Fx.DispatchPlanner | Fx.DispatchBuilder | Fx.DispatchReviewers | Fx.DispatchFinalReviewer => true
  | _ => false
  end.

(** ** Deciding properties of the transition table

    [transition] looks at its context only through the exhausted budget, the
    merge mode and the resume target, so a decidable property of all accepted
    transitions is settled by evaluating it on the finite table. *)

Definition context_of (x : bool) (m : MergeMode) (t : option CaseState) : TransitionContext := {|
  remediation_round := if x then 1 else 0;
  max_remediation_rounds := 1;
  merge_mode := m;
  resume_target := t;
|}.

Definition exhausted (c : TransitionContext) : bool :=
  max_remediation_rounds c <=? remediation_round c.

Definition all_states : list CaseState := [
  State.Planning; State.WaitingHuman; State.ReadyToBuild; State.Building; State.WaitingCi;
  State.Reviewing; State.Remediating; State.FinalReview; State.ShadowReady; State.ReadyToMerge;
  State.Merging; State.Completed; State.Blocked; State.Escalated; State.Abandoned;
  State.TakenOver].

Definition check_transitions
  (P : CaseState -> Event -> TransitionContext -> TransitionDecision -> bool) : bool :=
  forallb (fun s => forallb (fun e => forallb (fun x => forallb (fun m => forallb (fun t =>
    match transition s e (context_of x m t) with
    | Ok d => P s e (context_of x m t) d
    | Err _ => true
    end)
    (None :: map Some all_states)) [Shadow; Guarded]) [true; false]) Event_ALL) all_states.

Lemma transition_nonzero s e c d :
  transition s e c = Ok d -> max_remediation_rounds c <> 0.
Proof. intros H Hm. unfold transition in H. by rewrite Hm in H. Qed.

Lemma transition_context_of s e c :
  max_remediation_rounds c <> 0 ->
  transition s e c = transition s e (context_of (exhausted c) (merge_mode c) (resume_target c)).
Proof.
  intros Hm. unfold transition, transition_table, context_of, exhausted.
  cbn [merge_mode resume_target].
  rewrite (proj2 (Z.eqb_neq _ _) Hm), (Z.ltb_antisym (max_remediation_rounds c)).
  destruct (max_remediation_rounds c <=? remediation_round c); reflexivity.
Qed.

Lemma all_states_complete s : s ∈ all_states.
Proof. by destruct s; apply (bool_decide_unpack _); vm_compute. Qed.

Lemma all_events_complete e : e ∈ Event_ALL.
Proof. by destruct e; apply (bool_decide_unpack _); vm_compute. Qed.

Lemma check_transitions_ok P s e c d :
  check_transitions P = true -> transition s e c = Ok d ->
  P s e (context_of (exhausted c) (merge_mode c) (resume_target c)) d = true.
Proof.
  intros Hc Ht. rewrite transition_context_of in Ht by eauto using transition_nonzero.
  unfold check_transitions in Hc.
  apply (forallb_elem _ _ s) in Hc; [|apply all_states_complete].
  apply (forallb_elem _ _ e) in Hc; [|apply all_events_complete].
  apply (forallb_elem _ _ (exhausted c)) in Hc; [|destruct (exhausted c); set_solver].
  apply (forallb_elem _ _ (merge_mode c)) in Hc; [|destruct (merge_mode c); set_solver].
  apply (forallb_elem _ _ (resume_target c)) in Hc.
  - cbv beta in Hc. by rewrite Ht in Hc.
  - destruct (resume_target c); [right|left].
    apply list_elem_of_In, in_map, list_elem_of_In, all_states_complete.
Qed.

(** Settle a property of the accepted transition [H] by evaluation. *)
Ltac check_table H P :=
  apply (check_transitions_ok P) in H; [cbv beta in H; bools | vm_compute; reflexivity].

(** ** Facts about single transitions *)

Lemma into_reviewing s e c d :
  transition s e c = Ok d -> next_state d = State.Reviewing ->
  (s, e) ∈ [(State.WaitingCi, Ev.CiAccepted); (State.Reviewing, Ev.ReviewRecorded);
            (State.FinalReview, Ev.ReturnToReview)].
Proof.
  intros H Hn.
  check_table H (fun s e (_ : TransitionContext) d => bool_decide (next_state d = State.Reviewing ->
    (s, e) ∈ [(State.WaitingCi, Ev.CiAccepted); (State.Reviewing, Ev.ReviewRecorded);
              (State.FinalReview, Ev.ReturnToReview)])). auto.
Qed.

Lemma into_final_review s e c d :
  transition s e c = Ok d -> next_state d = State.FinalReview ->
  (s = State.Reviewing /\ e = Ev.ReviewsApproved)
  \/ (s = State.FinalReview /\ final_event e = true).
Proof.
  intros H Hn.
  check_table H (fun s e (_ : TransitionContext) d => bool_decide (next_state d = State.FinalReview ->
    (s = State.Reviewing /\ e = Ev.ReviewsApproved)
    \/ (s = State.FinalReview /\ final_event e = true))). auto.
Qed.

Lemma into_ready s e c d :
  transition s e c = Ok d -> next_state d = State.ShadowReady \/ next_state d = State.ReadyToMerge ->
  s = State.FinalReview /\ e = Ev.Ready.
Proof.
  intros H Hn.
  check_table H (fun s e (_ : TransitionContext) d =>
    bool_decide (next_state d = State.ShadowReady \/ next_state d = State.ReadyToMerge ->
      s = State.FinalReview /\ e = Ev.Ready)). auto.
Qed.

(** A new remediation round starts only within the budget, unless a human
    resumed the case there. *)
Lemma into_remediating s e c d :
  transition s e c = Ok d -> next_state d = State.Remediating ->
  s <> State.Remediating -> e <> Ev.HumanResumed ->
  remediation_round c < max_remediation_rounds c.
Proof.
  intros H Hn Hs He.
  check_table H (fun s e c d => bool_decide (next_state d = State.Remediating ->
    s <> State.Remediating -> e <> Ev.HumanResumed -> exhausted c = false)).
  specialize (H Hn Hs He). unfold exhausted, context_of in H; simpl in H.
  destruct (max_remediation_rounds c <=? remediation_round c) eqn:E; [done|].
  by apply Z.leb_gt in E.
Qed.

(** ** Theorems *)

(** Wire names of states round trip: a text parses to a state exactly when it
    is that state's rendering. *)
Theorem CaseState_wire_roundtrip (v : string) (s : CaseState) :
  CaseState_from_str v = Ok s <-> v = CaseState_to_string s.
Proof.
  split.
  - unfold CaseState_from_str. repeat case_match; intros; simplify_eq;
      match goal with H : String.eqb _ _ = true |- _ => by apply String.eqb_eq in H end.
  - intros ->. by destruct s.
Qed.

(** Wire names of events round trip: a text parses to an event exactly when it
    is that event's rendering. *)
Theorem Event_wire_roundtrip (v : string) (e : Event) :
  Event_from_str v = Ok e <-> v = Event_to_string e.
Proof.
  split.
  - unfold Event_from_str. repeat case_match; intros; simplify_eq;
      match goal with H : String.eqb _ _ = true |- _ => by apply String.eqb_eq in H end.
  - intros ->. by destruct e.
Qed.

(** Terminal states are final: from [Completed] and [Abandoned] no transition is
    accepted, and from [TakenOver] only the two audited corrections are, to
    [Completed] by a proven human merge and to [Planning] by an authorized
    follow-up recovery. *)
Theorem terminal_states_final (s : CaseState) (e : Event) (c : TransitionContext)
    (d : TransitionDecision) :
  is_terminal s = true ->
  transition s e c = Ok d <->
    max_remediation_rounds c <> 0 /\ s = State.TakenOver /\
    ((e = Ev.HumanMerged /\ d = {| next_state := State.Completed; effects := [Fx.RecordCompletion] |})
     \/ (e = Ev.FollowUpRecoveryAuthorized
         /\ d = {| next_state := State.Planning; effects := [Fx.DispatchPlanner] |})).
Proof.
  intros Hs. unfold transition. destruct (Z.eqb_spec (max_remediation_rounds c) 0) as [|Hm].
  - naive_solver.
  - destruct s; try done; simpl; unfold decision; [naive_solver..|].
    repeat case_bool_decide; simpl; naive_solver.
Qed.

Lemma terminal_states_final_witness :
  transition State.TakenOver Ev.HumanMerged default_context
  = Ok {| next_state := State.Completed; effects := [Fx.RecordCompletion] |}.
Proof.
  apply terminal_states_final; [reflexivity|]. split_and!; [done..|]. by left.
Defined.

Lemma review_evidence_invariant l s :
  run State.Planning l s ->
  (s = State.Reviewing -> exists l1 l2,
      events_of l = l1 ++ Ev.CiAccepted :: l2 /\ Forall (fun e => cohort_event e = true) l2)
  /\ (s = State.FinalReview -> exists l1 l2 l3,
      events_of l = l1 ++ Ev.CiAccepted :: l2 ++ Ev.ReviewsApproved :: l3
      /\ Forall (fun e => cohort_event e = true) l2
      /\ Forall (fun e => final_event e = true) l3).
Proof.
  induction 1 as [|l m e c d Hr [IH1 IH2] Ht]; [done|].
  unfold events_of in *. rewrite fmap_app. simpl. split; intros Hn.
  - apply (into_reviewing _ _ _ _ Ht) in Hn.
    apply list_elem_of_In in Hn as [[= <- <-]|[[= <- <-]|[[= <- <-]|[]]]].
    + eexists _, []. done.
    + destruct IH1 as (l1 & l2 & -> & Hl2); [done|]. exists l1, (l2 ++ [Ev.ReviewRecorded]).
      split; [by rewrite <-app_assoc|]. apply Forall_app. auto.
    + destruct IH2 as (l1 & l2 & l3 & -> & Hl2 & Hl3); [done|].
      exists l1, (l2 ++ Ev.ReviewsApproved :: l3 ++ [Ev.ReturnToReview]).
      split; [by simplify_list_eq|]. apply Forall_app; split; [done|]. constructor; [done|].
      apply Forall_app; split; [|auto]. eapply Forall_impl; [done|]. by intros [].
  - apply (into_final_review _ _ _ _ Ht) in Hn as [[-> ->]|[-> He]].
    + destruct IH1 as (l1 & l2 & -> & Hl2); [done|]. exists l1, l2, []. by simplify_list_eq.
    + destruct IH2 as (l1 & l2 & l3 & -> & Hl2 & Hl3); [done|]. exists l1, l2, (l3 ++ [e]).
      split_and!; [by simplify_list_eq|done|]. apply Forall_app; auto.
Qed.

(** C4: Readiness needs fresh evidence: any run from planning that has just become
    shadow-ready or ready to merge ends with an accepted CI observation,
    followed by an approved review cohort and the final reviewer's verdict, with
    no build, publication, CI failure or replanning in between. *)
Theorem readiness_needs_fresh_ci_and_reviews
    (l : list (Event * TransitionContext * TransitionDecision)) (m : CaseState) (e : Event)
    (c : TransitionContext) (d : TransitionDecision) :
  run State.Planning l m -> transition m e c = Ok d ->
  next_state d = State.ShadowReady \/ next_state d = State.ReadyToMerge ->
  exists l1 l2 l3,
    events_of (l ++ [(e, c, d)])
    = l1 ++ Ev.CiAccepted :: l2 ++ Ev.ReviewsApproved :: l3 ++ [Ev.Ready]
    /\ Forall (fun e => cohort_event e = true) l2
    /\ Forall (fun e => final_event e = true) l3.
Proof.
  intros Hr Ht Hn. apply (into_ready _ _ _ _ Ht) in Hn as [-> ->].
  apply review_evidence_invariant in Hr as [_ Hr].
  destruct Hr as (l1 & l2 & l3 & He & Hl2 & Hl3); [done|]. exists l1, l2, l3.
  unfold events_of in *. rewrite fmap_app, He. by simplify_list_eq.
Qed.

(** The happy path of a case, as the list of its events. *)
Definition happy_path : list Event :=
  [Ev.PlanRecorded; Ev.Proceed; Ev.BuilderDispatched; Ev.BuildRecorded; Ev.ReviewReady;
   Ev.CiAccepted; Ev.ReviewRecorded; Ev.ReviewsApproved; Ev.ReviewsPublished;
   Ev.FinalPreflightAccepted].

(** Evaluate a list of events in one context. *)
Fixpoint steps (c : TransitionContext) (s : CaseState) (l : list Event)
  : option (list (Event * TransitionContext * TransitionDecision) * CaseState) :=
  match l with
  | [] => Some ([], s)
  | e :: l =>
    match transition s e c with
    | Ok d => '(l, s) ← steps c (next_state d) l; Some ((e, c, d) :: l, s)
    | Err _ => None
    end
  end.

Lemma run_cons s e c d l s' :
  transition s e c = Ok d -> run (next_state d) l s' -> run s ((e, c, d) :: l) s'.
Proof.
  intros Ht. induction 1 as [|l m e' c' d' _ IH Ht'].
  - apply (run_step s [] s); [constructor|done].
  - eapply (run_step s ((e, c, d) :: l)); done.
Qed.

Lemma steps_run c s l l' s' : steps c s l = Some (l', s') -> run s l' s'.
Proof.
  revert s l'. induction l as [|e l IH]; intros s l' H; simpl in H.
  - simplify_eq. constructor.
  - destruct (transition s e c) as [d|] eqn:Ht; [|done].
    apply bind_Some in H as ([l2 s2] & H2 & [= <- <-]). eauto using run_cons.
Qed.

Lemma readiness_needs_fresh_ci_and_reviews_witness :
  exists l d l1 l2 l3, run State.Planning l State.FinalReview
    /\ transition State.FinalReview Ev.Ready default_context = Ok d
    /\ events_of (l ++ [(Ev.Ready, default_context, d)])
       = l1 ++ Ev.CiAccepted :: l2 ++ Ev.ReviewsApproved :: l3 ++ [Ev.Ready].
Proof.
  destruct (steps default_context State.Planning happy_path) as [[l s]|] eqn:E; [|discriminate E].
  assert (Hs : s = State.FinalReview) by (vm_compute in E; congruence). subst s.
  apply steps_run in E as Hr.
  destruct (readiness_needs_fresh_ci_and_reviews l State.FinalReview Ev.Ready default_context
    {| next_state := State.ShadowReady; effects := [Fx.NotifyShadowReady] |} Hr eq_refl
    (or_introl eq_refl)) as (l1 & l2 & l3 & H & _).
  by exists l, {| next_state := State.ShadowReady; effects := [Fx.NotifyShadowReady] |}, l1, l2, l3.
Defined.

(** C40: Shadow mode never merges: a run whose every step is evaluated in shadow
    merge mode, started outside the merging states, neither reaches a merging
    state nor emits a merge effect. *)
Theorem shadow_mode_never_merges
    (s s' : CaseState) (l : list (Event * TransitionContext * TransitionDecision)) :
  merge_state s = false -> run s l s' ->
  Forall (fun x => merge_mode x.1.2 = Shadow) l ->
  merge_state s' = false /\ Forall (fun f => merge_effect f = false) (effects_of l).
Proof.
  intros Hs Hr Hl. induction Hr as [|l m e c d Hr IH Ht]; [done|].
  apply Forall_app in Hl as [Hl Hc]. apply Forall_cons in Hc as [Hc _]. simpl in Hc.
  destruct IH as [Hm Hf]; [done|].
  check_table Ht (fun s (_ : Event) c d => bool_decide (merge_state s = false -> merge_mode c = Shadow ->
    merge_state (next_state d) = false /\ Forall (fun f => merge_effect f = false) (effects d))).
  destruct (Ht Hm Hc) as [? ?]. split; [done|].
  unfold effects_of. rewrite bind_app. simpl. rewrite app_nil_r. by apply Forall_app.
Qed.

Lemma shadow_mode_never_merges_witness :
  forallb (fun f => negb (merge_effect f))
    (effects_of [(Ev.PlanRecorded, default_context,
                  {| next_state := State.Planning; effects := [Fx.PublishPlan] |})]) = true
  /\ merge_state State.Planning = false.
Proof.
  destruct (shadow_mode_never_merges State.Planning State.Planning
    [(Ev.PlanRecorded, default_context,
      {| next_state := State.Planning; effects := [Fx.PublishPlan] |})]) as [H _].
  - reflexivity.
  - apply (run_step _ [] State.Planning); [constructor | reflexivity].
  - by repeat constructor.
  - by split.
Defined.

(** Effects follow the state: every effect a transition emits belongs to the
    stage the case enters, and a transition starts at most one kind of worker
    job. *)
Theorem effects_match_next_state (s : CaseState) (e : Event) (c : TransitionContext)
    (d : TransitionDecision) :
  transition s e c = Ok d ->
  Forall (fun f => effect_stage f (next_state d) = true) (effects d)
  /\ (length (filter (fun f => worker_dispatch f = true) (effects d)) <= 1)%nat.
Proof.
  intros H.
  check_table H (fun (_ : CaseState) (_ : Event) (_ : TransitionContext) d => bool_decide (
    Forall (fun f => effect_stage f (next_state d) = true) (effects d)
    /\ (length (filter (fun f => worker_dispatch f = true) (effects d)) <= 1)%nat)). done.
Qed.

Lemma effects_match_next_state_witness :
  Forall (fun f => effect_stage f State.Escalated = true) [Fx.PublishReviews; Fx.Escalate].
Proof.
  destruct (effects_match_next_state State.Reviewing Ev.RequestChanges
    (context_of true Shadow None)
    {| next_state := State.Escalated; effects := [Fx.PublishReviews; Fx.Escalate] |} eq_refl)
    as [H _]. exact H.
Defined.

(** Human control is never refused: in every live state takeover, revocation and
    an operational bound are accepted with their fixed outcome, and a parked case
    can be abandoned or resumed to any of the four resume targets. *)
Theorem human_control_always_accepted (s : CaseState) (c : TransitionContext) :
  is_terminal s = false -> max_remediation_rounds c <> 0 ->
  transition s Ev.HumanTookOver c = decision State.TakenOver [Fx.RecordTakeover]
  /\ transition s Ev.AuthorizationRemoved c = decision State.Abandoned [Fx.RecordAbandonment]
  /\ transition s Ev.OperationalBoundReached c = decision State.Escalated [Fx.Escalate]
  /\ (parked s = true ->
      transition s Ev.HumanAbandoned c = decision State.Abandoned [Fx.RecordAbandonment]
      /\ forall t, resume_target c = Some t ->
         t ∈ [State.Planning; State.ReadyToBuild; State.Remediating; State.WaitingCi] ->
         next_state <$> transition s Ev.HumanResumed c = Ok t).
Proof.
  intros Hs Hm. unfold transition. rewrite (proj2 (Z.eqb_neq _ _) Hm), Hs.
  destruct (bool_decide (s = State.TakenOver)) eqn:E; bools; [by subst|]. simpl.
  split_and!; [done..|]. intros Hp. rewrite Hp. simpl. split; [done|].
  intros t Ht Hin. rewrite Ht. unfold decision.
  apply list_elem_of_In in Hin as [<-|[<-|[<-|[<-|[]]]]]; done.
Qed.

Lemma human_control_always_accepted_witness :
  next_state <$> transition State.Blocked Ev.HumanResumed (context_of true Shadow (Some State.WaitingCi))
  = Ok State.WaitingCi.
Proof.
  destruct (human_control_always_accepted State.Blocked
    (context_of true Shadow (Some State.WaitingCi)) eq_refl) as (_ & _ & _ & H); [done|].
  destruct (H eq_refl) as [_ H']. apply (H' State.WaitingCi); [done|]. set_solver.
Defined.
