(* ===== verification/Revision.v ===== *)
(** * Revision: command evaluation (crates/pip-core/src/revision.rs)

    [evaluate_case_command] checks a command against a snapshot and the accepted
    policy, in source order, before it evaluates the state machine. *)

From S2P Require Import Prelude Text Domain StateMachine.
Open Scope Z_scope.

Record CasePolicy := {
  cp_revision : Z;
  cp_merge_mode : MergeMode;
  cp_max_remediation_rounds : Z;
}.

Record CaseSnapshot := {
  cs_case_id : CaseId;
  cs_state : CaseState;
  cs_state_revision : Z;
  cs_policy_revision : Z;
  cs_remediation_round : Z;
}.

Record CaseCommand := {
  cc_case_id : CaseId;
  cc_event_id : string;
  cc_observed_at : Z;
  cc_expected_state_revision : Z;
  cc_accepted_policy_revision : Z;
  cc_event : Event;
  cc_resume_target : option CaseState;
}.

Record CaseCommandDecision := {
  cd_case_id : CaseId;
  cd_event_id : string;
  cd_observed_at : Z;
  cd_from_revision : Z;
  cd_to_revision : Z;
  cd_transition : TransitionDecision;
}.

Inductive CommandError :=
| CaseMismatch
| StaleStateRevision (expected actual : Z)
| CommandPolicyRevisionMismatch
| PolicyRevisionUnavailable
| StateRevisionExhausted
| CommandInvalidTransition (e : TransitionError).

Definition transition_context (snapshot : CaseSnapshot) (command : CaseCommand) (policy : CasePolicy)
  : TransitionContext := {|
  remediation_round := cs_remediation_round snapshot;
  max_remediation_rounds := cp_max_remediation_rounds policy;
  merge_mode := cp_merge_mode policy;
  resume_target := cc_resume_target command;
|}.

Definition evaluate_case_command (snapshot : CaseSnapshot) (command : CaseCommand)
    (policy : CasePolicy) : result CommandError CaseCommandDecision :=
  _ ← err_if (bool_decide (cc_case_id command <> cs_case_id snapshot)) CaseMismatch;
  _ ← err_if (negb (cc_expected_state_revision command =? cs_state_revision snapshot))
        (StaleStateRevision (cc_expected_state_revision command) (cs_state_revision snapshot));
  _ ← err_if (negb (cc_accepted_policy_revision command =? cs_policy_revision snapshot))
        CommandPolicyRevisionMismatch;
  _ ← err_if (negb (cp_revision policy =? cs_policy_revision snapshot)) PolicyRevisionUnavailable;
  to_revision ← ok_or (checked_next (cs_state_revision snapshot)) StateRevisionExhausted;
  t ← map_err CommandInvalidTransition
        (transition (cs_state snapshot) (cc_event command)
           (transition_context snapshot command policy));
  Ok {| cd_case_id := cs_case_id snapshot;
        cd_event_id := cc_event_id command;
        cd_observed_at := cc_observed_at command;
        cd_from_revision := cs_state_revision snapshot;
        cd_to_revision := to_revision;
        cd_transition := t |}.

(** ** Theorems *)

(** A command is accepted exactly when it names the snapshot's case, revision
    and policy, the policy is the case's, the revision has a successor and the
    state machine accepts the event; the decision then carries the snapshot's
    identity, the command's event and the successor revision. *)
Theorem evaluate_case_command_ok (snapshot : CaseSnapshot) (command : CaseCommand)
    (policy : CasePolicy) (d : CaseCommandDecision) :
  1 <= cs_state_revision snapshot <= u64_max ->
  evaluate_case_command snapshot command policy = Ok d <->
  cc_case_id command = cs_case_id snapshot
  /\ cc_expected_state_revision command = cs_state_revision snapshot
  /\ cc_accepted_policy_revision command = cs_policy_revision snapshot
  /\ cp_revision policy = cs_policy_revision snapshot
  /\ cs_state_revision snapshot < u64_max
  /\ transition (cs_state snapshot) (cc_event command)
       (transition_context snapshot command policy) = Ok (cd_transition d)
  /\ d = {| cd_case_id := cs_case_id snapshot; cd_event_id := cc_event_id command;
            cd_observed_at := cc_observed_at command;
            cd_from_revision := cs_state_revision snapshot;
            cd_to_revision := cs_state_revision snapshot + 1;
            cd_transition := cd_transition d |}.
Proof.
  intros Hr. unfold evaluate_case_command. split.
  - intros H. inv_ok. bools.
    match goal with H : checked_next _ = Some _ |- _ =>
      apply checked_next_spec in H as [-> ?]; [|done] end.
    split_and!; try done. by destruct (decide (cc_case_id command = cs_case_id snapshot)).
  - intros (-> & -> & -> & -> & ? & Ht & ->). rewrite !Z.eqb_refl.
    rewrite bool_decide_false by congruence. simpl.
    rewrite (proj2 (checked_next_spec (cs_state_revision snapshot) _ Hr)) by done. simpl.
    by rewrite Ht.
Qed.

Lemma evaluate_case_command_ok_witness :
  let case := {| repository := 1; issue := 7; workflow := 1 |} in
  evaluate_case_command
    {| cs_case_id := case; cs_state := State.WaitingCi; cs_state_revision := 6;
       cs_policy_revision := 2; cs_remediation_round := 0 |}
    {| cc_case_id := case; cc_event_id := "e"; cc_observed_at := 9;
       cc_expected_state_revision := 6; cc_accepted_policy_revision := 2;
       cc_event := Ev.CiFailed; cc_resume_target := None |}
    {| cp_revision := 2; cp_merge_mode := Shadow; cp_max_remediation_rounds := 3 |}
  = Ok {| cd_case_id := case; cd_event_id := "e"; cd_observed_at := 9; cd_from_revision := 6;
          cd_to_revision := 7;
          cd_transition := {| next_state := State.Remediating; effects := [Fx.DispatchBuilder] |} |}.
Proof.
  apply evaluate_case_command_ok; [simpl; unfold u64_max; lia|].
  split_and!; reflexivity.
Defined.
