(* ===== verification/Intake.v ===== *)
(** * Intake: issue eligibility (crates/pip-core/src/policy.rs) *)

From S2P Require Import Prelude Text.
Open Scope Z_scope.

Record IntakePolicy := {
  ip_revision : Z;
  intake_enabled : bool;
  dispatch_enabled : bool;
  global_paused : bool;
  repository_paused : bool;
  required_label : string;
  trusted_actor_ids : gset Z;
  repository_active_limit : Z;
  global_active_limit : Z;
}.

Record IssueObservation := {
  open : bool;
  is_pull_request : bool;
  labels : gset string;
  latest_label_actor_id : option Z;
  excluded : bool;
  held : bool;
  already_owned : bool;
  assigned_to_other : bool;
  repository_active_cases : Z;
  global_active_cases : Z;
}.

Inductive IntakeBlocker :=
| IntakeDisabled
| GlobalPaused
| RepositoryPaused
| DispatchDisabled
| IssueClosed
| PullRequest
| RequiredLabelMissing
| UntrustedLabelActor
| Excluded
| Held
| AlreadyOwned
| AssignedToOther
| RepositoryLimitReached
| GlobalLimitReached.

(** [IntakeBlocker::ALL]. *)
Definition IntakeBlocker_ALL : list IntakeBlocker :=
  [IntakeDisabled; GlobalPaused; RepositoryPaused; DispatchDisabled; IssueClosed; PullRequest;
   RequiredLabelMissing; UntrustedLabelActor; Excluded; Held; AlreadyOwned; AssignedToOther;
   RepositoryLimitReached; GlobalLimitReached].

(** [impl Display for IntakeBlocker]. *)
Definition IntakeBlocker_to_string (b : IntakeBlocker) : string :=
  match b with
  | IntakeDisabled => "INTAKE_DISABLED"
  | GlobalPaused => "GLOBAL_PAUSED"
  | RepositoryPaused => "REPOSITORY_PAUSED"
  | DispatchDisabled => "DISPATCH_DISABLED"
  | IssueClosed => "ISSUE_CLOSED"
  | PullRequest => "PULL_REQUEST"
  | RequiredLabelMissing => "REQUIRED_LABEL_MISSING"
  | UntrustedLabelActor => "UNTRUSTED_LABEL_ACTOR"
  | Excluded => "EXCLUDED"
  | Held => "HELD"
  | AlreadyOwned => "ALREADY_OWNED"
  | AssignedToOther => "ASSIGNED_TO_OTHER"
  | RepositoryLimitReached => "REPOSITORY_LIMIT_REACHED"
  | GlobalLimitReached => "GLOBAL_LIMIT_REACHED"
  end.

Inductive IntakeDecision :=
| Eligible
| Ineligible (blockers : list IntakeBlocker).

(** [block_if]: push the blocker when the condition holds. *)
Definition block_if (condition : bool) (b : IntakeBlocker) (blockers : list IntakeBlocker)
  : list IntakeBlocker :=
  if condition then blockers ++ [b] else blockers.

Definition evaluate_intake (policy : IntakePolicy) (observation : IssueObservation)
  : IntakeDecision :=
  let blockers := [] in
  let blockers := block_if (negb (intake_enabled policy)) IntakeDisabled blockers in
  let blockers := block_if (global_paused policy) GlobalPaused blockers in
  let blockers := block_if (repository_paused policy) RepositoryPaused blockers in
  let blockers := block_if (negb (dispatch_enabled policy)) DispatchDisabled blockers in
  let blockers := block_if (negb (open observation)) IssueClosed blockers in
  let blockers := block_if (is_pull_request observation) PullRequest blockers in
  let label_present := bool_decide (required_label policy ∈ labels observation) in
  let blockers := block_if (negb label_present) RequiredLabelMissing blockers in
  let blockers := block_if
    (label_present
     && match latest_label_actor_id observation with
        | None => true
        | Some actor => negb (bool_decide (actor ∈ trusted_actor_ids policy))
        end) UntrustedLabelActor blockers in
  let blockers := block_if (excluded observation) Excluded blockers in
  let blockers := block_if (held observation) Held blockers in
  let blockers := block_if (already_owned observation) AlreadyOwned blockers in
  let blockers := block_if (assigned_to_other observation) AssignedToOther blockers in
  let blockers := block_if
    (repository_active_limit policy <=? repository_active_cases observation)
    RepositoryLimitReached blockers in
  let blockers := block_if
    (global_active_limit policy <=? global_active_cases observation)
    GlobalLimitReached blockers in
  match blockers with
  | [] => Eligible
  | _ => Ineligible blockers
  end.

(** ** Specification: when each blocker applies *)

Definition blocks (policy : IntakePolicy) (observation : IssueObservation) (b : IntakeBlocker)
  : Prop :=
  match b with
  | IntakeDisabled => intake_enabled policy = false
  | GlobalPaused => global_paused policy = true
  | RepositoryPaused => repository_paused policy = true
  | DispatchDisabled => dispatch_enabled policy = false
  | IssueClosed => open observation = false
  | PullRequest => is_pull_request observation = true
  | RequiredLabelMissing => required_label policy ∉ labels observation
  | UntrustedLabelActor =>
    required_label policy ∈ labels observation
    /\ ~ exists actor, latest_label_actor_id observation = Some actor
                       /\ actor ∈ trusted_actor_ids policy
  | Excluded => excluded observation = true
  | Held => held observation = true
  | AlreadyOwned => already_owned observation = true
  | AssignedToOther => assigned_to_other observation = true
  | RepositoryLimitReached => repository_active_limit policy <= repository_active_cases observation
  | GlobalLimitReached => global_active_limit policy <= global_active_cases observation
  end.

Lemma untrusted_dec (o : option Z) (trusted : gset Z) :
  match o with None => true | Some actor => negb (bool_decide (actor ∈ trusted)) end = true
  <-> ~ exists actor, o = Some actor /\ actor ∈ trusted.
Proof.
  destruct o as [a|]; [|naive_solver]. case_bool_decide; simpl; naive_solver.
Qed.

Lemma block_if_elem c b l x : x ∈ block_if c b l <-> x ∈ l \/ (c = true /\ x = b).
Proof. unfold block_if. destruct c; set_solver. Qed.

Lemma block_if_sublist c b l l' : l `sublist_of` l' -> block_if c b l `sublist_of` l' ++ [b].
Proof.
  intros H. unfold block_if. destruct c; [by apply sublist_app|].
  rewrite <-(app_nil_r l). apply sublist_app; [done|apply sublist_nil_l].
Qed.

(** ** Theorem *)

(** Intake is decided by the fourteen blockers and nothing else: an issue is
    eligible exactly when no blocker applies, and otherwise the reported list
    holds every blocker that applies, no other, in the documented order. *)
Theorem evaluate_intake_exact (policy : IntakePolicy) (observation : IssueObservation) :
  match evaluate_intake policy observation with
  | Eligible => forall b, ~ blocks policy observation b
  | Ineligible bs =>
    bs <> [] /\ (forall b, b ∈ bs <-> blocks policy observation b)
    /\ bs `sublist_of` IntakeBlocker_ALL
  end.
Proof.
  unfold evaluate_intake. set (bs := block_if _ GlobalLimitReached _).
  assert (Hbs : forall b, b ∈ bs <-> blocks policy observation b).
  { subst bs. intros b. rewrite !block_if_elem, !andb_true_iff, untrusted_dec, !negb_true_iff,
      !Z.leb_le, bool_decide_eq_true, bool_decide_eq_false.
    destruct b; simpl; rewrite elem_of_nil; naive_solver. }
  assert (Hs : bs `sublist_of` IntakeBlocker_ALL).
  { assert (exists l, bs `sublist_of` l /\ l = IntakeBlocker_ALL) as (? & ? & <-); [|done].
    eexists. split.
    - subst bs. do 14 eapply block_if_sublist. apply (sublist_nil_l []).
    - reflexivity. }
  clearbody bs. destruct bs as [|b bs]; [|done].
  intros b Hb. apply Hbs in Hb. by apply elem_of_nil in Hb.
Qed.
