(* ===== verification/ExactHead.v ===== *)
(** * ExactHead: the exact-head join (crates/pip-core/src/exact_head.rs)

    Everything accepted about a pull request is bound to one head commit;
    [evaluate_exact_head] reports every way the observation fails to be. *)

From S2P Require Import Prelude Text Domain.
Open Scope Z_scope.

Inductive ReviewRole := General | SecurityPerformance.

#[export] Instance review_role_eq_dec : EqDecision ReviewRole.
Proof. solve_decision. Defined.

(** [FromStr] and [Display] of [ReviewRole]. *)
Definition ReviewRole_from_str (value : string) : result string ReviewRole :=
  if String.eqb value "reviewer-general" then Ok General
  else if String.eqb value "reviewer-secperf" then Ok SecurityPerformance
  else Err "unknown mandatory review role".
Definition ReviewRole_to_string (r : ReviewRole) : string :=
  match r with
  | General => "reviewer-general"
  | SecurityPerformance => "reviewer-secperf"
  end.

Record HeadBinding := {
  case_id : CaseId;
  pr_number : Z;
  plan_version : Z;
  head_sha : string;
}.

Record BuilderEvidence := {
  be_binding : HeadBinding;
  be_ci_head_sha : string;
  be_ci_green : bool;
}.

Record CiEvidence := {
  ci_head_sha : string;
  ci_completed : bool;
  ci_hollow : bool;
  ci_rate_limited : bool;
  ci_required_checks_green : bool;
}.

Record ReviewEvidence := {
  re_binding : HeadBinding;
  re_role : ReviewRole;
  re_approved : bool;
  re_blocking_findings : list string;
}.

Record FindingEvidence := {
  fe_id : string;
  fe_origin : ReviewRole;
  fe_reviewed_head_sha : string;
  fe_resolution_head_sha : option string;
  fe_mandatory : bool;
  fe_origin_confirmed : bool;
}.

Record ExactHeadObservation := {
  expected : HeadBinding;
  builder : BuilderEvidence;
  ci : CiEvidence;
  general_review : ReviewEvidence;
  secperf_review : ReviewEvidence;
  findings : list FindingEvidence;
  open_blocking_threads : Z;
  pip_owned : bool;
  mergeable : bool;
  authorization_valid : bool;
}.

Inductive JoinBlocker :=
| BuilderBindingMismatch
| BuilderHeadMismatch
| BuilderCiHeadMismatch
| BuilderCiNotGreen
| CiHeadMismatch
| CiIncomplete
| CiHollow
| CiRateLimited
| CiNotGreen
| GeneralReviewBindingMismatch
| GeneralReviewRoleMismatch
| GeneralReviewHeadMismatch
| GeneralReviewNotApproved
| GeneralReviewHasBlockingFindings
| SecperfReviewBindingMismatch
| SecperfReviewRoleMismatch
| SecperfReviewHeadMismatch
| SecperfReviewNotApproved
| SecperfReviewHasBlockingFindings
| FindingResolutionMissing
| FindingResolutionHeadMismatch
| FindingNotOriginConfirmed
| BlockingThreadsOpen
| ForeignOwnership
| NotMergeable
| AuthorizationInvalid.

#[export] Instance join_blocker_eq_dec : EqDecision JoinBlocker.
Proof. solve_decision. Defined.

(** [impl Display for JoinBlocker]. *)
Definition JoinBlocker_to_string (b : JoinBlocker) : string :=
  match b with
  | BuilderBindingMismatch => "BUILDER_BINDING_MISMATCH"
  | BuilderHeadMismatch => "BUILDER_HEAD_MISMATCH"
  | BuilderCiHeadMismatch => "BUILDER_CI_HEAD_MISMATCH"
  | BuilderCiNotGreen => "BUILDER_CI_NOT_GREEN"
  | CiHeadMismatch => "CI_HEAD_MISMATCH"
  | CiIncomplete => "CI_INCOMPLETE"
  | CiHollow => "CI_HOLLOW"
  | CiRateLimited => "CI_RATE_LIMITED"
  | CiNotGreen => "CI_NOT_GREEN"
  | GeneralReviewBindingMismatch => "GENERAL_REVIEW_BINDING_MISMATCH"
  | GeneralReviewRoleMismatch => "GENERAL_REVIEW_ROLE_MISMATCH"
  | GeneralReviewHeadMismatch => "GENERAL_REVIEW_HEAD_MISMATCH"
  | GeneralReviewNotApproved => "GENERAL_REVIEW_NOT_APPROVED"
  | GeneralReviewHasBlockingFindings => "GENERAL_REVIEW_HAS_BLOCKING_FINDINGS"
  | SecperfReviewBindingMismatch => "SECPERF_REVIEW_BINDING_MISMATCH"
  | SecperfReviewRoleMismatch => "SECPERF_REVIEW_ROLE_MISMATCH"
  | SecperfReviewHeadMismatch => "SECPERF_REVIEW_HEAD_MISMATCH"
  | SecperfReviewNotApproved => "SECPERF_REVIEW_NOT_APPROVED"
  | SecperfReviewHasBlockingFindings => "SECPERF_REVIEW_HAS_BLOCKING_FINDINGS"
  | FindingResolutionMissing => "FINDING_RESOLUTION_MISSING"
  | FindingResolutionHeadMismatch => "FINDING_RESOLUTION_HEAD_MISMATCH"
  | FindingNotOriginConfirmed => "FINDING_NOT_ORIGIN_CONFIRMED"
  | BlockingThreadsOpen => "BLOCKING_THREADS_OPEN"
  | ForeignOwnership => "FOREIGN_OWNERSHIP"
  | NotMergeable => "NOT_MERGEABLE"
  | AuthorizationInvalid => "AUTHORIZATION_INVALID"
  end.

Record ExactHeadDecision := { ready : bool; blockers : list JoinBlocker }.

Definition same_identity (left right : HeadBinding) : bool :=
  bool_decide (case_id left = case_id right)
  && (pr_number left =? pr_number right)
  && (plan_version left =? plan_version right).

(** [if condition { blockers.push(b); }]. *)
Definition push_if (condition : bool) (b : JoinBlocker) (bs : list JoinBlocker) : list JoinBlocker :=
  if condition then bs ++ [b] else bs.

Definition check_review (expected : HeadBinding) (evidence : ReviewEvidence) (role : ReviewRole)
    (bs : list JoinBlocker) : list JoinBlocker :=
  let '(binding, role_mismatch, head, approval, findings) :=
    match role with
    | General =>
      (GeneralReviewBindingMismatch, GeneralReviewRoleMismatch, GeneralReviewHeadMismatch,
       GeneralReviewNotApproved, GeneralReviewHasBlockingFindings)
    | SecurityPerformance =>
      (SecperfReviewBindingMismatch, SecperfReviewRoleMismatch, SecperfReviewHeadMismatch,
       SecperfReviewNotApproved, SecperfReviewHasBlockingFindings)
    end in
  let bs := push_if (negb (same_identity expected (re_binding evidence))) binding bs in
  let bs := push_if (bool_decide (re_role evidence <> role)) role_mismatch bs in
  let bs := push_if (bool_decide (head_sha (re_binding evidence) <> head_sha expected)) head bs in
  let bs := push_if (negb (re_approved evidence)) approval bs in
  push_if (negb (bool_decide (re_blocking_findings evidence = []))) findings bs.

(** One iteration of the loop over the mandatory findings. *)
Definition check_finding (expected : HeadBinding) (bs : list JoinBlocker) (finding : FindingEvidence)
  : list JoinBlocker :=
  let bs := match fe_resolution_head_sha finding with
            | None => bs ++ [FindingResolutionMissing]
            | Some head =>
              push_if (bool_decide (head <> head_sha expected)) FindingResolutionHeadMismatch bs
            end in
  push_if (negb (fe_origin_confirmed finding)) FindingNotOriginConfirmed bs.

Definition evaluate_exact_head (observation : ExactHeadObservation) : ExactHeadDecision :=
  let e := expected observation in
  let b := builder observation in
  let c := ci observation in
  let bs := [] in
  let bs := push_if (negb (same_identity e (be_binding b))) BuilderBindingMismatch bs in
  let bs := push_if (bool_decide (head_sha (be_binding b) <> head_sha e)) BuilderHeadMismatch bs in
  let bs := push_if (bool_decide (be_ci_head_sha b <> head_sha e)) BuilderCiHeadMismatch bs in
  let bs := push_if (negb (be_ci_green b)) BuilderCiNotGreen bs in
  let bs := push_if (bool_decide (ci_head_sha c <> head_sha e)) CiHeadMismatch bs in
  let bs := push_if (negb (ci_completed c)) CiIncomplete bs in
  let bs := push_if (ci_hollow c) CiHollow bs in
  let bs := push_if (ci_rate_limited c) CiRateLimited bs in
  let bs := push_if (negb (ci_required_checks_green c)) CiNotGreen bs in
  let bs := check_review e (general_review observation) General bs in
  let bs := check_review e (secperf_review observation) SecurityPerformance bs in
  let bs := foldl (check_finding e) bs (List.filter fe_mandatory (findings observation)) in
  let bs := push_if (0 <? open_blocking_threads observation) BlockingThreadsOpen bs in
  let bs := push_if (negb (pip_owned observation)) ForeignOwnership bs in
  let bs := push_if (negb (mergeable observation)) NotMergeable bs in
  let bs := push_if (negb (authorization_valid observation)) AuthorizationInvalid bs in
  {| ready := bool_decide (bs = []); blockers := bs |}.

(** ** Specification of readiness *)

(** The binding names the expected case, pull request, plan and head. *)
Definition bound_to (e b : HeadBinding) : Prop := b = e.

Definition review_accepted (e : HeadBinding) (role : ReviewRole) (r : ReviewEvidence) : Prop :=
  bound_to e (re_binding r) /\ re_role r = role /\ re_approved r = true
  /\ re_blocking_findings r = [].

Definition finding_closed (e : HeadBinding) (f : FindingEvidence) : Prop :=
  fe_resolution_head_sha f = Some (head_sha e) /\ fe_origin_confirmed f = true.

Definition ci_green_at (head : string) (c : CiEvidence) : Prop :=
  ci_head_sha c = head /\ ci_completed c = true /\ ci_hollow c = false
  /\ ci_rate_limited c = false /\ ci_required_checks_green c = true.

Definition exact_head_ready (o : ExactHeadObservation) : Prop :=
  bound_to (expected o) (be_binding (builder o))
  /\ be_ci_head_sha (builder o) = head_sha (expected o) /\ be_ci_green (builder o) = true
  /\ ci_green_at (head_sha (expected o)) (ci o)
  /\ review_accepted (expected o) General (general_review o)
  /\ review_accepted (expected o) SecurityPerformance (secperf_review o)
  /\ (forall f, f ∈ findings o -> fe_mandatory f = true -> finding_closed (expected o) f)
  /\ open_blocking_threads o <= 0
  /\ pip_owned o = true /\ mergeable o = true /\ authorization_valid o = true.

(** ** Lemmas *)

Lemma push_if_nil c b bs : push_if c b bs = [] <-> c = false /\ bs = [].
Proof. unfold push_if. destruct c, bs; naive_solver. Qed.

Lemma same_identity_bound e b :
  negb (same_identity e b) = false -> bool_decide (head_sha b <> head_sha e) = false -> bound_to e b.
Proof.
  unfold same_identity, bound_to. intros. bools.
  destruct e, b; simpl in *; subst. f_equal.
  by destruct (decide (head_sha1 = head_sha0)).
Qed.

Lemma same_identity_refl e : same_identity e e = true.
Proof. unfold same_identity. by rewrite bool_decide_true, !Z.eqb_refl. Qed.

Lemma check_review_nil e r role bs :
  check_review e r role bs = [] <-> review_accepted e role r /\ bs = [].
Proof.
  unfold check_review, review_accepted. destruct role; rewrite !push_if_nil; split.
  1,3: intros (Hf & Ha & Hh & Hr & Hb & ->); split; [|done];
    split; [by apply same_identity_bound|]; bools;
    (split_and!; [by apply dec_stable|done..]).
  all: intros [(-> & Hr & Ha & Hf) ->]; rewrite same_identity_refl, Ha, Hf, Hr;
    split_and!; try done; apply bool_decide_false; congruence.
Qed.

Lemma check_finding_nil e bs f :
  check_finding e bs f = [] <-> finding_closed e f /\ bs = [].
Proof.
  unfold check_finding, finding_closed. rewrite push_if_nil, negb_false_iff.
  destruct (fe_resolution_head_sha f) as [h|].
  - rewrite push_if_nil, bool_decide_eq_false.
    split; [intros (? & Hh & ?) | intros ([[= ->] ?] & ?)]; [|by auto].
    destruct (decide (h = head_sha e)); naive_solver.
  - destruct bs; naive_solver.
Qed.

Lemma check_findings_nil e fs bs :
  foldl (check_finding e) bs fs = [] <-> Forall (finding_closed e) fs /\ bs = [].
Proof.
  revert bs. induction fs as [|f fs IH]; intros bs; simpl; [naive_solver|].
  rewrite IH, check_finding_nil, Forall_cons. naive_solver.
Qed.

(** ** Theorem *)

(** The exact-head join is exact: it reports ready precisely when the build, the
    green CI, both approved reviews and every mandatory finding's confirmed
    resolution are bound to the one expected head, no blocking thread is open,
    and the pull request is owned, mergeable and authorized; ready means the
    empty blocker list. *)
Theorem evaluate_exact_head_ready (o : ExactHeadObservation) :
  (ready (evaluate_exact_head o) = true <-> exact_head_ready o)
  /\ (ready (evaluate_exact_head o) = true <-> blockers (evaluate_exact_head o) = []).
Proof.
  unfold evaluate_exact_head; simpl. split; [|by rewrite bool_decide_eq_true].
  rewrite bool_decide_eq_true, !push_if_nil, check_findings_nil, !check_review_nil, !push_if_nil.
  unfold exact_head_ready, ci_green_at. rewrite !negb_false_iff, Z.ltb_ge, Forall_forall.
  setoid_rewrite list_elem_of_In. setoid_rewrite filter_In. split.
  - intros (Hauth & Hm & Ho & Ht & Hf & Hs & Hg & Hcg & Hr & Hh & Hc & Hch & Hbg & Hbh & Hb & Hid & _).
    split_and!; try done.
    + apply same_identity_bound; [by rewrite Hid|done].
    + bools. by destruct (decide (be_ci_head_sha (builder o) = head_sha (expected o))).
    + bools. by destruct (decide (ci_head_sha (ci o) = head_sha (expected o))).
    + intros f Hin Hmand. apply Hf. auto.
  - intros (Hb & Hbh & Hbg & (Hch & Hc & Hh & Hr & Hcg) & Hg & Hs & Hf & Ht & Ho & Hm & Hauth).
    rewrite Hb, Hbh, Hch, same_identity_refl, !bool_decide_false by congruence.
    split_and!; try done. naive_solver.
Qed.
