(* ===== verification/Contracts.v ===== *)
(** * Contracts: the worker/control-plane boundary (crates/pip-contracts/src/lib.rs)

    Worker results, the binding they must meet, the controller's completion of
    a raw result ([fill_binding]), decoding by declared role, and validation.
    The [serde] derives are written out: a struct encodes to the object of its
    fields and decodes field by field, [flatten]ed common fields first. *)

From S2P Require Import Prelude Text Json Serde.
Open Scope Z_scope.

Definition CONTRACT_VERSION : Z := 2.
Definition MAX_EVIDENCE_BUNDLE_BYTES : Z := 8 * 1024 * 1024.
Definition MAX_EVIDENCE_ARTIFACT_BYTES : Z := 32 * 1024 * 1024.
Definition MAX_WORK_ENVELOPE_BYTES : Z := 12 * 1024 * 1024.

Inductive ContractError :=
| UnsupportedContractVersion
| InvalidIdentity
| WorkflowVersionMismatch
| RoleMismatch
| UnexpectedModel
| InvalidCommit
| InvalidDigest
| InvalidTimestampOrder
| EmptyRequiredField
| InvalidOutcomeEvidence
| CiHeadMismatch
| ApprovalHasBlockingFindings
| ApprovalHasOpenConfirmation
| BindingMismatch.

Inductive WorkerRole := Planner | Builder | ReviewerGeneral | ReviewerSecperf | FinalReviewer.
Inductive ReviewMode := Required | Advisory | ShadowMode.

#[export] Instance worker_role_eq_dec : EqDecision WorkerRole.
Proof. solve_decision. Defined.
#[export] Instance review_mode_eq_dec : EqDecision ReviewMode.
Proof. solve_decision. Defined.

Record CaseIdentity := { repository_id : Z; issue_number : Z; workflow_version : Z }.

#[export] Instance case_identity_eq_dec : EqDecision CaseIdentity.
Proof. solve_decision. Defined.

Record WorkerBinding := {
  wb_case : CaseIdentity;
  wb_task_id : string;
  wb_role : WorkerRole;
  wb_reviewer_id : option string;
  wb_review_mode : option ReviewMode;
  wb_requested_model : string;
  wb_skills_repository_commit : string;
  wb_plan_version : Z;
  wb_pr_number : option Z;
  wb_expected_head_sha : option string;
}.

Record CommonResult := {
  contract_version : Z;
  cr_workflow_version : Z;
  case : CaseIdentity;
  task_id : string;
  role : WorkerRole;
  requested_model : string;
  actual_model : string;
  skills_repository_commit : string;
  started_at_unix : Z;
  completed_at_unix : Z;
  evidence : list (string * Value);
}.

Module PlannerOutcome.
Inductive t :=
| Proceed | AlreadyFixed | NotReproducible | Duplicate | RootCauseDifferentScope
| CrossRepoDependency | WaitingForIssueCreator | NeedsHumanScopeDecision | Abandon | Blocked
| BlockedUnexpectedModel.
End PlannerOutcome.

Inductive SensitiveScope :=
| Cryptography | MlsCgka | KeyHandling | TrustAnchor | MembershipAuthorization
| AdminAuthorization | PushPayloadContext.

Record PlannerResult := {
  pl_common : CommonResult;
  pl_outcome : PlannerOutcome.t;
  pl_plan_version : Z;
  pl_planned_base_sha : string;
  pl_root_cause : string;
  pl_authorized_scope : string;
  pl_sensitive_scope : list SensitiveScope;
  pl_dependencies : list Value;
  pl_open_decisions : list string;
  pl_plan_artifact : string;
}.

Module BuilderOutcome.
Inductive t := ReviewReady | ReturnToPlanning | Blocked | Abandon | BlockedUnexpectedModel.
End BuilderOutcome.

Record FindingResolution := {
  fr_finding_id : string;
  fr_resolution_commit : string;
  fr_resolved_head_sha : string;
  fr_resolution_summary : string;
  fr_tests : list string;
}.

Record BuilderResult := {
  bu_common : CommonResult;
  bu_outcome : BuilderOutcome.t;
  bu_plan_version : Z;
  bu_build_round : Z;
  bu_head_sha : option string;
  bu_local_checks : list string;
  bu_finding_resolutions : list FindingResolution;
}.

Module ReviewOutcome.
Inductive t := Approve | RequestChanges | Blocked | BlockedUnexpectedModel.
End ReviewOutcome.

Record BlockingFinding := {
  bf_id : string;
  bf_summary : string;
  bf_defect : string;
  bf_consequence : string;
  bf_corrective_direction : string;
  bf_required_evidence : list string;
}.

Record Suggestion := { sg_summary : string; sg_rationale : string }.

Inductive ConfirmationStatus := ConfirmedResolved | StillOpen.

Record FindingConfirmation := {
  fc_finding_id : string;
  fc_status : ConfirmationStatus;
  fc_reviewed_fix_sha : string;
  fc_evidence : list string;
}.

Record ReviewResult := {
  rv_common : CommonResult;
  rv_reviewer_id : string;
  rv_outcome : ReviewOutcome.t;
  rv_plan_version : Z;
  rv_review_round : Z;
  rv_pr_number : Z;
  rv_reviewed_head_sha : string;
  rv_blocking_findings : list BlockingFinding;
  rv_suggestions : list Suggestion;
  rv_finding_confirmations : list FindingConfirmation;
}.

Module FinalOutcome.
Inductive t :=
| Ready | ReturnToBuild | ReturnToReview | ReturnToPlanning | WaitForIssueCreator | Blocked
| Abandon | BlockedUnexpectedModel.
End FinalOutcome.

Record FinalResult := {
  fi_common : CommonResult;
  fi_outcome : FinalOutcome.t;
  fi_plan_version : Z;
  fi_final_review_round : Z;
  fi_pr_number : Z;
  fi_reviewed_head_sha : string;
  fi_residual_uncertainties : list string;
  fi_decision_rationale : string;
}.

Inductive WorkerResult :=
| PlannerR (r : PlannerResult)
| BuilderR (r : BuilderResult)
| ReviewR (r : ReviewResult)
| FinalR (r : FinalResult).

#[export] Instance planner_outcome_eq_dec : EqDecision PlannerOutcome.t.
Proof. solve_decision. Defined.
#[export] Instance builder_outcome_eq_dec : EqDecision BuilderOutcome.t.
Proof. solve_decision. Defined.
#[export] Instance review_outcome_eq_dec : EqDecision ReviewOutcome.t.
Proof. solve_decision. Defined.
#[export] Instance final_outcome_eq_dec : EqDecision FinalOutcome.t.
Proof. solve_decision. Defined.
#[export] Instance confirmation_status_eq_dec : EqDecision ConfirmationStatus.
Proof. solve_decision. Defined.

(** ** Wire names of the enums ([rename_all]) *)

Definition role_name (r : WorkerRole) : string :=
  match r with
  | Planner => "planner"
  | Builder => "builder"
  | ReviewerGeneral => "reviewer-general"
  | ReviewerSecperf => "reviewer-secperf"
  | FinalReviewer => "final-reviewer"
  end.

Definition review_mode_name (m : ReviewMode) : string :=
  match m with Required => "required" | Advisory => "advisory" | ShadowMode => "shadow" end.

Definition planner_outcome_name (o : PlannerOutcome.t) : string :=
  match o with
  | PlannerOutcome.Proceed => "PROCEED"
  | PlannerOutcome.AlreadyFixed => "ALREADY_FIXED"
  | PlannerOutcome.NotReproducible => "NOT_REPRODUCIBLE"
  | PlannerOutcome.Duplicate => "DUPLICATE"
  | PlannerOutcome.RootCauseDifferentScope => "ROOT_CAUSE_DIFFERENT_SCOPE"
  | PlannerOutcome.CrossRepoDependency => "CROSS_REPO_DEPENDENCY"
  | PlannerOutcome.WaitingForIssueCreator => "WAITING_FOR_ISSUE_CREATOR"
  | PlannerOutcome.NeedsHumanScopeDecision => "NEEDS_HUMAN_SCOPE_DECISION"
  | PlannerOutcome.Abandon => "ABANDON"
  | PlannerOutcome.Blocked => "BLOCKED"
  | PlannerOutcome.BlockedUnexpectedModel => "BLOCKED_UNEXPECTED_MODEL"
  end.

Definition sensitive_scope_name (s : SensitiveScope) : string :=
  match s with
  | Cryptography => "CRYPTOGRAPHY"
  | MlsCgka => "MLS_CGKA"
  | KeyHandling => "KEY_HANDLING"
  | TrustAnchor => "TRUST_ANCHOR"
  | MembershipAuthorization => "MEMBERSHIP_AUTHORIZATION"
  | AdminAuthorization => "ADMIN_AUTHORIZATION"
  | PushPayloadContext => "PUSH_PAYLOAD_CONTEXT"
  end.

Definition builder_outcome_name (o : BuilderOutcome.t) : string :=
  match o with
  | BuilderOutcome.ReviewReady => "REVIEW_READY"
  | BuilderOutcome.ReturnToPlanning => "RETURN_TO_PLANNING"
  | BuilderOutcome.Blocked => "BLOCKED"
  | BuilderOutcome.Abandon => "ABANDON"
  | BuilderOutcome.BlockedUnexpectedModel => "BLOCKED_UNEXPECTED_MODEL"
  end.

Definition review_outcome_name (o : ReviewOutcome.t) : string :=
  match o with
  | ReviewOutcome.Approve => "APPROVE"
  | ReviewOutcome.RequestChanges => "REQUEST_CHANGES"
  | ReviewOutcome.Blocked => "BLOCKED"
  | ReviewOutcome.BlockedUnexpectedModel => "BLOCKED_UNEXPECTED_MODEL"
  end.

Definition confirmation_name (s : ConfirmationStatus) : string :=
  match s with ConfirmedResolved => "CONFIRMED_RESOLVED" | StillOpen => "STILL_OPEN" end.

Definition final_outcome_name (o : FinalOutcome.t) : string :=
  match o with
  | FinalOutcome.Ready => "READY"
  | FinalOutcome.ReturnToBuild => "RETURN_TO_BUILD"
  | FinalOutcome.ReturnToReview => "RETURN_TO_REVIEW"
  | FinalOutcome.ReturnToPlanning => "RETURN_TO_PLANNING"
  | FinalOutcome.WaitForIssueCreator => "WAIT_FOR_ISSUE_CREATOR"
  | FinalOutcome.Blocked => "BLOCKED"
  | FinalOutcome.Abandon => "ABANDON"
  | FinalOutcome.BlockedUnexpectedModel => "BLOCKED_UNEXPECTED_MODEL"
  end.

Definition all_roles := [Planner; Builder; ReviewerGeneral; ReviewerSecperf; FinalReviewer].
Definition all_planner_outcomes :=
  [PlannerOutcome.Proceed; PlannerOutcome.AlreadyFixed; PlannerOutcome.NotReproducible;
   PlannerOutcome.Duplicate; PlannerOutcome.RootCauseDifferentScope;
   PlannerOutcome.CrossRepoDependency; PlannerOutcome.WaitingForIssueCreator;
   PlannerOutcome.NeedsHumanScopeDecision; PlannerOutcome.Abandon; PlannerOutcome.Blocked;
   PlannerOutcome.BlockedUnexpectedModel].
Definition all_sensitive_scopes :=
  [Cryptography; MlsCgka; KeyHandling; TrustAnchor; MembershipAuthorization; AdminAuthorization;
   PushPayloadContext].
Definition all_builder_outcomes :=
  [BuilderOutcome.ReviewReady; BuilderOutcome.ReturnToPlanning; BuilderOutcome.Blocked;
   BuilderOutcome.Abandon; BuilderOutcome.BlockedUnexpectedModel].
Definition all_review_outcomes :=
  [ReviewOutcome.Approve; ReviewOutcome.RequestChanges; ReviewOutcome.Blocked;
   ReviewOutcome.BlockedUnexpectedModel].
Definition all_final_outcomes :=
  [FinalOutcome.Ready; FinalOutcome.ReturnToBuild; FinalOutcome.ReturnToReview;
   FinalOutcome.ReturnToPlanning; FinalOutcome.WaitForIssueCreator; FinalOutcome.Blocked;
   FinalOutcome.Abandon; FinalOutcome.BlockedUnexpectedModel].

(** ** Encoding ([Serialize]) *)

Definition strs (l : list string) : Value := Array (Str <$> l).

Definition ser_case (c : CaseIdentity) : Value :=
  json_object [("repository_id", Number (repository_id c));
               ("issue_number", Number (issue_number c));
               ("workflow_version", Number (workflow_version c))].

Definition common_fields (c : CommonResult) : list (string * Value) :=
  [("contract_version", Number (contract_version c));
   ("workflow_version", Number (cr_workflow_version c));
   ("case", ser_case (case c));
   ("task_id", Str (task_id c));
   ("role", Str (role_name (role c)));
   ("requested_model", Str (requested_model c));
   ("actual_model", Str (actual_model c));
   ("skills_repository_commit", Str (skills_repository_commit c));
   ("started_at_unix", Number (started_at_unix c));
   ("completed_at_unix", Number (completed_at_unix c));
   ("evidence", Object (evidence c))].

Definition ser_resolution (r : FindingResolution) : Value :=
  json_object [("finding_id", Str (fr_finding_id r));
               ("resolution_commit", Str (fr_resolution_commit r));
               ("resolved_head_sha", Str (fr_resolved_head_sha r));
               ("resolution_summary", Str (fr_resolution_summary r));
               ("tests", strs (fr_tests r))].

Definition ser_finding (f : BlockingFinding) : Value :=
  json_object [("id", Str (bf_id f)); ("summary", Str (bf_summary f));
               ("defect", Str (bf_defect f)); ("consequence", Str (bf_consequence f));
               ("corrective_direction", Str (bf_corrective_direction f));
               ("required_evidence", strs (bf_required_evidence f))].

Definition ser_suggestion (s : Suggestion) : Value :=
  json_object [("summary", Str (sg_summary s)); ("rationale", Str (sg_rationale s))].

Definition ser_confirmation (c : FindingConfirmation) : Value :=
  json_object [("finding_id", Str (fc_finding_id c));
               ("status", Str (confirmation_name (fc_status c)));
               ("reviewed_fix_sha", Str (fc_reviewed_fix_sha c));
               ("evidence", strs (fc_evidence c))].

(** [serde_json::to_value(result)] of the untagged union. *)
Definition encode_result (r : WorkerResult) : Value :=
  json_object match r with
  | PlannerR r => common_fields (pl_common r) ++
    [("outcome", Str (planner_outcome_name (pl_outcome r)));
     ("plan_version", Number (pl_plan_version r));
     ("planned_base_sha", Str (pl_planned_base_sha r));
     ("root_cause", Str (pl_root_cause r));
     ("authorized_scope", Str (pl_authorized_scope r));
     ("sensitive_scope", Array ((fun s => Str (sensitive_scope_name s)) <$> pl_sensitive_scope r));
     ("dependencies", Array (pl_dependencies r));
     ("open_decisions", strs (pl_open_decisions r));
     ("plan_artifact", Str (pl_plan_artifact r))]
  | BuilderR r => common_fields (bu_common r) ++
    [("outcome", Str (builder_outcome_name (bu_outcome r)));
     ("plan_version", Number (bu_plan_version r));
     ("build_round", Number (bu_build_round r))]
    ++ match bu_head_sha r with Some h => [("head_sha", Str h)] | None => [] end ++
    [("local_checks", strs (bu_local_checks r));
     ("finding_resolutions", Array (ser_resolution <$> bu_finding_resolutions r))]
  | ReviewR r => common_fields (rv_common r) ++
    [("reviewer_id", Str (rv_reviewer_id r));
     ("outcome", Str (review_outcome_name (rv_outcome r)));
     ("plan_version", Number (rv_plan_version r));
     ("review_round", Number (rv_review_round r));
     ("pr_number", Number (rv_pr_number r));
     ("reviewed_head_sha", Str (rv_reviewed_head_sha r));
     ("blocking_findings", Array (ser_finding <$> rv_blocking_findings r));
     ("suggestions", Array (ser_suggestion <$> rv_suggestions r));
     ("finding_confirmations", Array (ser_confirmation <$> rv_finding_confirmations r))]
  | FinalR r => common_fields (fi_common r) ++
    [("outcome", Str (final_outcome_name (fi_outcome r)));
     ("plan_version", Number (fi_plan_version r));
     ("final_review_round", Number (fi_final_review_round r));
     ("pr_number", Number (fi_pr_number r));
     ("reviewed_head_sha", Str (fi_reviewed_head_sha r));
     ("residual_uncertainties", strs (fi_residual_uncertainties r));
     ("decision_rationale", Str (fi_decision_rationale r))]
  end.

(** ** Decoding ([Deserialize]) *)

Definition de_case (v : Value) : option CaseIdentity :=
  m ← as_struct ["repository_id"; "issue_number"; "workflow_version"] v;
  r ← field m "repository_id" de_u64;
  i ← field m "issue_number" de_u64;
  w ← field m "workflow_version" de_u32;
  Some {| repository_id := r; issue_number := i; workflow_version := w |}.

Definition de_role (v : Value) : option WorkerRole := de_enum all_roles role_name v.

Definition de_common (m : list (string * Value)) : option CommonResult :=
  cv ← field m "contract_version" de_u32;
  wv ← field m "workflow_version" de_u32;
  c ← field m "case" de_case;
  t ← field m "task_id" as_str;
  r ← field m "role" de_role;
  rm ← field m "requested_model" as_str;
  am ← field m "actual_model" as_str;
  sk ← field m "skills_repository_commit" as_str;
  sa ← field m "started_at_unix" de_u64;
  ca ← field m "completed_at_unix" de_u64;
  ev ← field m "evidence" as_object;
  Some {| contract_version := cv; cr_workflow_version := wv; case := c; task_id := t; role := r;
          requested_model := rm; actual_model := am; skills_repository_commit := sk;
          started_at_unix := sa; completed_at_unix := ca; evidence := ev |}.

Definition de_planner (m : list (string * Value)) : option PlannerResult :=
  c ← de_common m;
  o ← field m "outcome" (de_enum all_planner_outcomes planner_outcome_name);
  pv ← field m "plan_version" de_u32;
  b ← field m "planned_base_sha" as_str;
  rc ← field m "root_cause" as_str;
  sc ← field m "authorized_scope" as_str;
  ss ← field m "sensitive_scope" (de_vec (de_enum all_sensitive_scopes sensitive_scope_name));
  dp ← field m "dependencies" as_array;
  od ← field m "open_decisions" (de_vec as_str);
  pa ← field m "plan_artifact" as_str;
  Some {| pl_common := c; pl_outcome := o; pl_plan_version := pv; pl_planned_base_sha := b;
          pl_root_cause := rc; pl_authorized_scope := sc; pl_sensitive_scope := ss;
          pl_dependencies := dp; pl_open_decisions := od; pl_plan_artifact := pa |}.

Definition de_resolution (v : Value) : option FindingResolution :=
  m ← as_struct ["finding_id"; "resolution_commit"; "resolved_head_sha";
                       "resolution_summary"; "tests"] v;
  i ← field m "finding_id" as_str;
  c ← field m "resolution_commit" as_str;
  h ← field m "resolved_head_sha" as_str;
  s ← field m "resolution_summary" as_str;
  t ← field m "tests" (de_vec as_str);
  Some {| fr_finding_id := i; fr_resolution_commit := c; fr_resolved_head_sha := h;
          fr_resolution_summary := s; fr_tests := t |}.

Definition de_builder (m : list (string * Value)) : option BuilderResult :=
  c ← de_common m;
  o ← field m "outcome" (de_enum all_builder_outcomes builder_outcome_name);
  pv ← field m "plan_version" de_u32;
  br ← field m "build_round" de_u32;
  h ← de_option as_str (map_get "head_sha" m);
  lc ← field m "local_checks" (de_vec as_str);
  fr ← field m "finding_resolutions" (de_vec de_resolution);
  Some {| bu_common := c; bu_outcome := o; bu_plan_version := pv; bu_build_round := br;
          bu_head_sha := h; bu_local_checks := lc; bu_finding_resolutions := fr |}.

Definition de_finding (v : Value) : option BlockingFinding :=
  m ← as_struct ["id"; "summary"; "defect"; "consequence"; "corrective_direction";
                       "required_evidence"] v;
  i ← field m "id" as_str;
  s ← field m "summary" as_str;
  d ← field m "defect" as_str;
  c ← field m "consequence" as_str;
  cd ← field m "corrective_direction" as_str;
  re ← field m "required_evidence" (de_vec as_str);
  Some {| bf_id := i; bf_summary := s; bf_defect := d; bf_consequence := c;
          bf_corrective_direction := cd; bf_required_evidence := re |}.

Definition de_suggestion (v : Value) : option Suggestion :=
  m ← as_struct ["summary"; "rationale"] v;
  s ← field m "summary" as_str;
  r ← field m "rationale" as_str;
  Some {| sg_summary := s; sg_rationale := r |}.

Definition de_confirmation (v : Value) : option FindingConfirmation :=
  m ← as_struct ["finding_id"; "status"; "reviewed_fix_sha"; "evidence"] v;
  i ← field m "finding_id" as_str;
  s ← field m "status" (de_enum [ConfirmedResolved; StillOpen] confirmation_name);
  f ← field m "reviewed_fix_sha" as_str;
  e ← field m "evidence" (de_vec as_str);
  Some {| fc_finding_id := i; fc_status := s; fc_reviewed_fix_sha := f; fc_evidence := e |}.

Definition de_review (m : list (string * Value)) : option ReviewResult :=
  c ← de_common m;
  ri ← field m "reviewer_id" as_str;
  o ← field m "outcome" (de_enum all_review_outcomes review_outcome_name);
  pv ← field m "plan_version" de_u32;
  rr ← field m "review_round" de_u32;
  pr ← field m "pr_number" de_u64;
  h ← field m "reviewed_head_sha" as_str;
  bf ← field m "blocking_findings" (de_vec de_finding);
  sg ← field m "suggestions" (de_vec de_suggestion);
  fc ← field m "finding_confirmations" (de_vec de_confirmation);
  Some {| rv_common := c; rv_reviewer_id := ri; rv_outcome := o; rv_plan_version := pv;
          rv_review_round := rr; rv_pr_number := pr; rv_reviewed_head_sha := h;
          rv_blocking_findings := bf; rv_suggestions := sg; rv_finding_confirmations := fc |}.

Definition de_final (m : list (string * Value)) : option FinalResult :=
  c ← de_common m;
  o ← field m "outcome" (de_enum all_final_outcomes final_outcome_name);
  pv ← field m "plan_version" de_u32;
  fr ← field m "final_review_round" de_u32;
  pr ← field m "pr_number" de_u64;
  h ← field m "reviewed_head_sha" as_str;
  ru ← field m "residual_uncertainties" (de_vec as_str);
  dr ← field m "decision_rationale" as_str;
  Some {| fi_common := c; fi_outcome := o; fi_plan_version := pv; fi_final_review_round := fr;
          fi_pr_number := pr; fi_reviewed_head_sha := h; fi_residual_uncertainties := ru;
          fi_decision_rationale := dr |}.

(** [WorkerResult::decode]: by the declared role; [None] is a serde error. *)
Definition decode (value : Value) : option WorkerResult :=
  r ← de_role (default Null (get value "role"));
  m ← as_object value;
  match r with
  | Planner => PlannerR <$> de_planner m
  | Builder => BuilderR <$> de_builder m
  | ReviewerGeneral | ReviewerSecperf => ReviewR <$> de_review m
  | FinalReviewer => FinalR <$> de_final m
  end.

(** ** Completing a raw result *)

Record BindingFill := {
  binding : WorkerBinding;
  task_body : Value;
  run_times : option (Z * Z);
  now : Z;
  reviewed_head_from_binding : bool;
}.

Definition reviewed_role (r : WorkerRole) : bool :=
  match r with ReviewerGeneral | ReviewerSecperf | FinalReviewer => true | _ => false end.

(** The rounds a role's result reports. *)
Definition role_rounds (r : WorkerRole) : list string :=
  match r with
  | Builder => ["build_round"]
  | ReviewerGeneral | ReviewerSecperf => ["review_round"]
  | FinalReviewer => ["final_review_round"]
  | Planner => []
  end.

(** [Option::filter] after [Value::as_u64]. *)
Definition u64_where (p : Z -> bool) (o : option Value) : option Z :=
  n ← (o ≫= as_u64); if p n then Some n else None.

Definition fill_times (fill : BindingFill) (object : list (string * Value)) : Z * Z :=
  match run_times fill with
  | Some times => times
  | None =>
    let completed := default (now fill)
      (u64_where (fun c => (0 <? c) && (c <=? now fill)) (map_get "completed_at_unix" object)) in
    let started := default completed
      (u64_where (fun s => (0 <? s) && (s <=? completed)) (map_get "started_at_unix" object)) in
    (started, completed)
  end.

(** [if let Some(v) = o { object.insert(k, v.into()) }]. *)
Definition insert_opt (k : string) (o : option Value) (object : list (string * Value)) :=
  match o with Some v => map_insert k v object | None => object end.

(** [object.entry(k).or_insert_with(|| v)]. *)
Definition or_insert (k : string) (v : Value) (object : list (string * Value)) :=
  match map_get k object with Some _ => object | None => map_insert k v object end.

(** The reviewed pull request and head, for review roles. *)
Definition fill_reviewed (fill : BindingFill) (object : list (string * Value)) :=
  let b := binding fill in
  if reviewed_role (wb_role b) then
    let object := insert_opt "pr_number" (Number <$> wb_pr_number b) object in
    if reviewed_head_from_binding fill
    then insert_opt "reviewed_head_sha" (Str <$> wb_expected_head_sha b) object
    else object
  else object.

(** The rounds frozen in the task body. *)
Definition fill_rounds (fill : BindingFill) (object : list (string * Value)) :=
  foldl (fun object key =>
    insert_opt key (Number <$> (get (task_body fill) key ≫= as_u64)) object)
    object (role_rounds (wb_role (binding fill))).

Definition fill_binding (value : Value) (fill : BindingFill) : result ContractError Value :=
  let b := binding fill in
  object ← ok_or (as_object value) RoleMismatch;
  let object := map_insert "contract_version" (Number CONTRACT_VERSION) object in
  let object := map_insert "workflow_version" (Number (workflow_version (wb_case b))) object in
  let object := map_insert "case" (ser_case (wb_case b)) object in
  let object := map_insert "task_id" (Str (wb_task_id b)) object in
  let object := map_insert "role" (Str (role_name (wb_role b))) object in
  let object := map_insert "requested_model" (Str (wb_requested_model b)) object in
  let object := map_insert "actual_model" (Str (wb_requested_model b)) object in
  let object := map_insert "skills_repository_commit" (Str (wb_skills_repository_commit b)) object in
  let object := map_insert "plan_version" (Number (wb_plan_version b)) object in
  let object := or_insert "evidence" (Object []) object in
  let object := fill_reviewed fill object in
  let object := insert_opt "reviewer_id" (Str <$> wb_reviewer_id b) object in
  let object := fill_rounds fill object in
  let '(started, completed) := fill_times fill object in
  let object := map_insert "started_at_unix" (Number started) object in
  let object := map_insert "completed_at_unix" (Number completed) object in
  Ok (Object object).

(** ** Validation *)

Definition is_hex (value : string) (length : Z) : bool := hex_string length value.
Definition not_blank (value : string) : bool := negb (blank value).

(** [CommonResult::validate]. *)
Definition validate_common (c : CommonResult) (expected_role : WorkerRole) : result ContractError () :=
  _ ← err_if (negb (contract_version c =? CONTRACT_VERSION)) UnsupportedContractVersion;
  _ ← err_if ((cr_workflow_version c =? 0) || (repository_id (case c) =? 0)
              || (issue_number (case c) =? 0) || (workflow_version (case c) =? 0)) InvalidIdentity;
  _ ← err_if (negb (workflow_version (case c) =? cr_workflow_version c)) WorkflowVersionMismatch;
  _ ← err_if (bool_decide (role c <> expected_role)) RoleMismatch;
  _ ← err_if (negb (not_blank (task_id c)) || negb (not_blank (requested_model c))
              || negb (not_blank (actual_model c))) EmptyRequiredField;
  _ ← err_if (negb (is_hex (skills_repository_commit c) 40)) InvalidCommit;
  err_if (completed_at_unix c <? started_at_unix c) InvalidTimestampOrder.

(** [PlannerResult::validate]. *)
Definition validate_planner (r : PlannerResult) : result ContractError () :=
  _ ← validate_common (pl_common r) Planner;
  _ ← err_if ((pl_plan_version r =? 0) || negb (is_hex (pl_planned_base_sha r) 40)) InvalidIdentity;
  _ ← err_if (negb (not_blank (pl_authorized_scope r)) || negb (not_blank (pl_plan_artifact r)))
        EmptyRequiredField;
  _ ← err_if (existsb (fun item => negb (is_object item)) (pl_dependencies r)) InvalidOutcomeEvidence;
  err_if (bool_decide (pl_outcome r = PlannerOutcome.Proceed)
          && (negb (bool_decide (pl_dependencies r = []))
              || negb (bool_decide (pl_open_decisions r = [])))) InvalidOutcomeEvidence.

Definition bad_resolution (r : FindingResolution) : bool :=
  negb (is_hex (fr_resolution_commit r) 40) || negb (is_hex (fr_resolved_head_sha r) 40)
  || negb (not_blank (fr_finding_id r)) || negb (not_blank (fr_resolution_summary r))
  || bool_decide (fr_tests r = []) || existsb (fun item => negb (not_blank item)) (fr_tests r).

(** [BuilderResult::validate]. *)
Definition validate_builder (r : BuilderResult) : result ContractError () :=
  _ ← validate_common (bu_common r) Builder;
  _ ← err_if ((bu_plan_version r =? 0) || (bu_build_round r =? 0)) InvalidIdentity;
  _ ← err_if (existsb bad_resolution (bu_finding_resolutions r)) InvalidOutcomeEvidence;
  if bool_decide (bu_outcome r = BuilderOutcome.ReviewReady) then
    match bu_head_sha r with
    | None => Err InvalidOutcomeEvidence
    | Some head => err_if (negb (is_hex head 40)) InvalidOutcomeEvidence
    end
  else err_if (bool_decide (is_Some (bu_head_sha r))) InvalidOutcomeEvidence.

(** [ReviewResult::validate]. *)
Definition validate_review (r : ReviewResult) : result ContractError () :=
  _ ← err_if (negb match role (rv_common r) with
                   | ReviewerGeneral | ReviewerSecperf => true | _ => false end) RoleMismatch;
  _ ← validate_common (rv_common r) (role (rv_common r));
  _ ← err_if ((rv_plan_version r =? 0) || (rv_review_round r =? 0) || (rv_pr_number r =? 0)
              || negb (not_blank (rv_reviewer_id r)) || negb (is_hex (rv_reviewed_head_sha r) 40))
        InvalidIdentity;
  _ ← err_if (bool_decide (rv_outcome r = ReviewOutcome.Approve)
              && negb (Nat.eqb (length (rv_blocking_findings r)) 0)) ApprovalHasBlockingFindings;
  err_if (bool_decide (rv_outcome r = ReviewOutcome.Approve)
          && existsb (fun item => bool_decide (fc_status item <> ConfirmedResolved))
               (rv_finding_confirmations r)) ApprovalHasOpenConfirmation.

(** [FinalResult::validate]. *)
Definition validate_final (r : FinalResult) : result ContractError () :=
  _ ← validate_common (fi_common r) FinalReviewer;
  _ ← err_if ((fi_plan_version r =? 0) || (fi_final_review_round r =? 0) || (fi_pr_number r =? 0)
              || negb (is_hex (fi_reviewed_head_sha r) 40)) InvalidIdentity;
  err_if (negb (not_blank (fi_decision_rationale r))) EmptyRequiredField.

(** [WorkerResult::validate] and [WorkerResult::common]. *)
Definition validate (r : WorkerResult) : result ContractError () :=
  match r with
  | PlannerR r => validate_planner r
  | BuilderR r => validate_builder r
  | ReviewR r => validate_review r
  | FinalR r => validate_final r
  end.

Definition common (r : WorkerResult) : CommonResult :=
  match r with
  | PlannerR r => pl_common r
  | BuilderR r => bu_common r
  | ReviewR r => rv_common r
  | FinalR r => fi_common r
  end.

(** What a result reports of the bound values: plan, pull request, head and
    reviewer. *)
Definition reported (r : WorkerResult) : Z * option Z * option string * option string :=
  match r with
  | PlannerR r => (pl_plan_version r, None, None, None)
  | BuilderR r => (bu_plan_version r, None, bu_head_sha r, None)
  | ReviewR r => (rv_plan_version r, Some (rv_pr_number r), Some (rv_reviewed_head_sha r),
                  Some (rv_reviewer_id r))
  | FinalR r => (fi_plan_version r, Some (fi_pr_number r), Some (fi_reviewed_head_sha r), None)
  end.

(** [Option::is_none_or(|expected| actual == Some(expected))]. *)
Definition none_or_eq {A} `{EqDecision A} (expected actual : option A) : bool :=
  match expected with None => true | Some e => bool_decide (actual = Some e) end.

(** [WorkerResult::validate_binding]. *)
Definition validate_binding (r : WorkerResult) (b : WorkerBinding) : result ContractError () :=
  _ ← validate r;
  let c := common r in
  let '(plan_version, pr_number, head_sha, reviewer_id) := reported r in
  let reviewed_output := match r with ReviewR _ | FinalR _ => true | _ => false end in
  let matched :=
    bool_decide (case c = wb_case b) && String.eqb (task_id c) (wb_task_id b)
    && bool_decide (role c = wb_role b) && bool_decide (reviewer_id = wb_reviewer_id b)
    && Bool.eqb (bool_decide (is_Some (wb_review_mode b))) (bool_decide (is_Some reviewer_id))
    && String.eqb (requested_model c) (wb_requested_model b)
    && String.eqb (skills_repository_commit c) (wb_skills_repository_commit b)
    && (plan_version =? wb_plan_version b)
    && (negb reviewed_output
        || (none_or_eq (wb_pr_number b) pr_number && none_or_eq (wb_expected_head_sha b) head_sha)) in
  if matched then Ok () else Err BindingMismatch.

(** ** Specifications *)

(** The keys the controller writes in [fill_binding] whatever the worker said. *)
Definition controller_keys : list string :=
  ["contract_version"; "workflow_version"; "case"; "task_id"; "role"; "requested_model";
   "actual_model"; "skills_repository_commit"; "plan_version"; "started_at_unix";
   "completed_at_unix"; "pr_number"; "reviewed_head_sha"; "reviewer_id"].

Definition is_reviewer (r : WorkerRole) : bool :=
  match r with ReviewerGeneral | ReviewerSecperf => true | _ => false end.

(** A binding names a reviewer and a review mode exactly for review roles. *)
Definition wf_binding (b : WorkerBinding) : bool :=
  Bool.eqb (bool_decide (is_Some (wb_reviewer_id b))) (is_reviewer (wb_role b))
  && Bool.eqb (bool_decide (is_Some (wb_review_mode b))) (is_reviewer (wb_role b)).

Definition wf_case_identity (c : CaseIdentity) : Prop :=
  is_u64 (repository_id c) /\ is_u64 (issue_number c) /\ is_u32 (workflow_version c).
Definition wf_common (c : CommonResult) : Prop :=
  is_u32 (contract_version c) /\ is_u32 (cr_workflow_version c) /\ wf_case_identity (case c)
  /\ is_u64 (started_at_unix c) /\ is_u64 (completed_at_unix c).

(** Integers within their widths, and the variant of the declared role. *)
Definition wf_result (r : WorkerResult) : Prop :=
  wf_common (common r) /\
  match r with
  | PlannerR p => role (pl_common p) = Planner /\ is_u32 (pl_plan_version p)
  | BuilderR b => role (bu_common b) = Builder /\ is_u32 (bu_plan_version b) /\ is_u32 (bu_build_round b)
  | ReviewR v => is_reviewer (role (rv_common v)) = true /\ is_u32 (rv_plan_version v)
                 /\ is_u32 (rv_review_round v) /\ is_u64 (rv_pr_number v)
  | FinalR f => role (fi_common f) = FinalReviewer /\ is_u32 (fi_plan_version f)
                /\ is_u32 (fi_final_review_round f) /\ is_u64 (fi_pr_number f)
  end.

(** ** Lemmas on encoding *)

#[local] Arguments as_u64 : simpl never.
#[local] Arguments de_u64 : simpl never.
#[local] Arguments de_u32 : simpl never.
#[local] Arguments de_vec : simpl never.
#[local] Arguments de_enum : simpl never.
#[local] Arguments de_role : simpl never.
#[local] Arguments de_case : simpl never.

#[local] Arguments map_get : simpl never.

Lemma de_vec_strs l : de_vec as_str (strs l) = Some l.
Proof. by apply de_vec_fmap. Qed.

Lemma de_role_name r : de_role (Str (role_name r)) = Some r.
Proof. by destruct r. Qed.
Lemma de_planner_outcome_name o :
  de_enum all_planner_outcomes planner_outcome_name (Str (planner_outcome_name o)) = Some o.
Proof. by destruct o. Qed.
Lemma de_builder_outcome_name o :
  de_enum all_builder_outcomes builder_outcome_name (Str (builder_outcome_name o)) = Some o.
Proof. by destruct o. Qed.
Lemma de_review_outcome_name o :
  de_enum all_review_outcomes review_outcome_name (Str (review_outcome_name o)) = Some o.
Proof. by destruct o. Qed.
Lemma de_final_outcome_name o :
  de_enum all_final_outcomes final_outcome_name (Str (final_outcome_name o)) = Some o.
Proof. by destruct o. Qed.

Lemma de_ser_case c : wf_case_identity c -> de_case (ser_case c) = Some c.
Proof.
  intros (Hr & Hi & Hw). unfold de_case, ser_case.
  rewrite as_struct_json_object by done; cbn [mbind option_bind]. fields.
  simpl. rewrite !de_u64_number by done. simpl. rewrite de_u32_number by done.
  by destruct c.
Qed.

Lemma de_ser_resolution r : de_resolution (ser_resolution r) = Some r.
Proof.
  unfold de_resolution, ser_resolution.
  rewrite as_struct_json_object by done; cbn [mbind option_bind]. fields. simpl.
  rewrite de_vec_strs. by destruct r.
Qed.
Lemma de_ser_finding r : de_finding (ser_finding r) = Some r.
Proof.
  unfold de_finding, ser_finding.
  rewrite as_struct_json_object by done; cbn [mbind option_bind]. fields. simpl.
  rewrite de_vec_strs. by destruct r.
Qed.
Lemma de_ser_suggestion r : de_suggestion (ser_suggestion r) = Some r.
Proof.
  unfold de_suggestion, ser_suggestion.
  rewrite as_struct_json_object by done; cbn [mbind option_bind]. fields. by destruct r.
Qed.
Lemma de_ser_confirmation r : de_confirmation (ser_confirmation r) = Some r.
Proof.
  unfold de_confirmation, ser_confirmation.
  rewrite as_struct_json_object by done; cbn [mbind option_bind]. fields. simpl.
  rewrite de_vec_strs. simpl. by destruct r as [? [] ? ?].
Qed.

Lemma de_common_fields c rest :
  bool_decide (NoDup (fst <$> common_fields c ++ rest)) = true -> wf_common c ->
  de_common (map_of (common_fields c ++ rest)) = Some c.
Proof.
  intros Hd (Hcv & Hwv & Hc & Hs & Hco). unfold de_common, field.
  rewrite !map_get_json_object by done. destruct c; cbn [common_fields app map_get].
  repeat (match goal with |- context [String.eqb ?a ?b] =>
    let r := eval vm_compute in (String.eqb a b) in change (String.eqb a b) with r end;
    cbn [map_get]).
  simpl in *. rewrite !de_u32_number by done. simpl.
  rewrite de_ser_case by done. simpl. rewrite de_role_name. simpl.
  rewrite !de_u64_number by done. done.
Qed.

Lemma map_get_role c rest :
  bool_decide (NoDup (fst <$> common_fields c ++ rest)) = true ->
  map_get "role" (map_of (common_fields c ++ rest)) = Some (Str (role_name (role c))).
Proof. intros Hd. by rewrite map_get_json_object. Qed.

#[local] Arguments de_common : simpl never.

(** ** Lemmas on filling *)

Lemma map_get_insert_opt k k' o m :
  map_get k (insert_opt k' o m)
  = if decide (k = k') then match o with Some v => Some v | None => map_get k m end
    else map_get k m.
Proof. destruct o; simpl; [apply map_get_insert|by case_decide]. Qed.

Lemma map_get_or_insert k k' v m :
  map_get k (or_insert k' v m)
  = if decide (k = k') then Some (default v (map_get k m)) else map_get k m.
Proof.
  unfold or_insert. destruct (map_get k' m) eqn:E.
  - case_decide; subst; [by rewrite E|done].
  - rewrite map_get_insert. case_decide; subst; [by rewrite E|done].
Qed.

Lemma map_get_fill_rounds k fill m :
  k ∉ role_rounds (wb_role (binding fill)) -> map_get k (fill_rounds fill m) = map_get k m.
Proof.
  unfold fill_rounds. revert m. induction (role_rounds _) as [|r rs IH]; intros m Hk; [done|].
  simpl. rewrite IH by set_solver. rewrite map_get_insert_opt, decide_False by set_solver. done.
Qed.

Lemma map_get_fill_reviewed k fill m :
  map_get k (fill_reviewed fill m)
  = if decide (k = "pr_number") then
      match (if reviewed_role (wb_role (binding fill)) then wb_pr_number (binding fill) else None) with
      | Some n => Some (Number n) | None => map_get k m end
    else if decide (k = "reviewed_head_sha") then
      match (if reviewed_role (wb_role (binding fill)) && reviewed_head_from_binding fill
             then wb_expected_head_sha (binding fill) else None) with
      | Some h => Some (Str h) | None => map_get k m end
    else map_get k m.
Proof.
  unfold fill_reviewed. destruct (reviewed_role _); [|by repeat case_decide].
  destruct (reviewed_head_from_binding fill); simpl;
    rewrite ?map_get_insert_opt; repeat case_decide; simplify_eq/=;
    rewrite ?map_get_insert_opt; repeat case_decide; simplify_eq/=; try done;
    destruct (wb_pr_number (binding fill)), (wb_expected_head_sha (binding fill)); done.
Qed.

Lemma not_round k r : k ∈ controller_keys \/ k = "evidence" -> k ∉ role_rounds r.
Proof.
  intros Hk Hr. destruct r; simpl in Hr;
    try (apply list_elem_of_singleton in Hr; subst k); try (by apply elem_of_nil in Hr);
    destruct Hk as [Hk|Hk]; try done; by apply (bool_decide_pack _) in Hk.
Qed.

(** Look a key up through the inserts of [fill_binding]. *)
Ltac gets :=
  repeat first
    [ rewrite map_get_insert_eq | rewrite map_get_insert_ne by congruence
    | rewrite map_get_insert_opt, decide_True by done
    | rewrite map_get_insert_opt, decide_False by congruence
    | rewrite map_get_or_insert, decide_True by done
    | rewrite map_get_or_insert, decide_False by congruence
    | rewrite map_get_fill_rounds by (apply not_round; set_solver)
    | rewrite map_get_fill_reviewed ].

Lemma fill_times_ordered fill m s c :
  run_times fill = None -> fill_times fill m = (s, c) -> s <= c <= now fill.
Proof.
  intros H. unfold fill_times. rewrite H. simpl. unfold u64_where. intros [= <- <-].
  destruct (map_get "completed_at_unix" m ≫= as_u64) as [c|]; simpl;
  destruct (map_get "started_at_unix" m ≫= as_u64) as [s|]; simpl;
  repeat case_match; simpl; bools; simplify_eq/=; lia.
Qed.

(** What [fill_binding] leaves under each controller-owned key. *)
Record filled (fill : BindingFill) (m m' : list (string * Value)) : Prop := {
  f_contract : map_get "contract_version" m' = Some (Number CONTRACT_VERSION);
  f_workflow : map_get "workflow_version" m'
    = Some (Number (workflow_version (wb_case (binding fill))));
  f_case : map_get "case" m' = Some (ser_case (wb_case (binding fill)));
  f_task : map_get "task_id" m' = Some (Str (wb_task_id (binding fill)));
  f_role : map_get "role" m' = Some (Str (role_name (wb_role (binding fill))));
  f_requested : map_get "requested_model" m' = Some (Str (wb_requested_model (binding fill)));
  f_actual : map_get "actual_model" m' = Some (Str (wb_requested_model (binding fill)));
  f_skills : map_get "skills_repository_commit" m'
    = Some (Str (wb_skills_repository_commit (binding fill)));
  f_plan : map_get "plan_version" m' = Some (Number (wb_plan_version (binding fill)));
  f_reviewer i : wb_reviewer_id (binding fill) = Some i ->
    map_get "reviewer_id" m' = Some (Str i);
  f_pr n : reviewed_role (wb_role (binding fill)) = true -> wb_pr_number (binding fill) = Some n ->
    map_get "pr_number" m' = Some (Number n);
  f_head h : reviewed_role (wb_role (binding fill)) = true ->
    reviewed_head_from_binding fill = true -> wb_expected_head_sha (binding fill) = Some h ->
    map_get "reviewed_head_sha" m' = Some (Str h);
  f_times : exists s c, map_get "started_at_unix" m' = Some (Number s)
    /\ map_get "completed_at_unix" m' = Some (Number c)
    /\ match run_times fill with Some t => t = (s, c) | None => s <= c <= now fill end;
}.

Lemma fill_binding_filled m fill :
  exists m', fill_binding (Object m) fill = Ok (Object m') /\ filled fill m m'
    /\ (forall k, k ∉ controller_keys -> k <> "evidence" ->
          k ∉ role_rounds (wb_role (binding fill)) -> map_get k m' = map_get k m)
    /\ map_get "evidence" m' = Some (default (Object []) (map_get "evidence" m)).
Proof.
  unfold fill_binding. simpl. set (m1 := fill_rounds _ _).
  destruct (fill_times fill m1) as [st co] eqn:Et. eexists. split; [reflexivity|]. split_and!.
  - split; intros; subst m1; gets; simpl; rewrite ?decide_False by congruence; try done.
    1-3: repeat match goal with H : _ = _ |- _ => rewrite H; clear H end; done.
    exists st, co. split_and!; [done..|]. destruct (run_times fill) eqn:Er.
    + unfold fill_times in Et. by rewrite Er in Et.
    + by eapply fill_times_ordered.
  - intros k Hk He Hr. subst m1. unfold controller_keys in Hk. 
    rewrite !map_get_insert_ne by set_solver. rewrite map_get_fill_rounds by done.
    rewrite map_get_insert_opt, decide_False by set_solver.
    rewrite map_get_fill_reviewed, !decide_False by set_solver.
    rewrite map_get_or_insert, decide_False by done. by rewrite !map_get_insert_ne by set_solver.
  - subst m1. gets. by rewrite !decide_False by congruence.
Qed.

(** What it means for a result to report the values of its binding. *)
Definition meets (r : WorkerResult) (b : WorkerBinding) : Prop :=
  case (common r) = wb_case b /\ task_id (common r) = wb_task_id b
  /\ role (common r) = wb_role b /\ requested_model (common r) = wb_requested_model b
  /\ skills_repository_commit (common r) = wb_skills_repository_commit b
  /\ let '(plan_version, pr_number, head_sha, reviewer_id) := reported r in
     plan_version = wb_plan_version b /\ reviewer_id = wb_reviewer_id b
     /\ (is_Some (wb_review_mode b) <-> is_Some reviewer_id)
     /\ match r with
        | ReviewR _ | FinalR _ =>
          (forall n, wb_pr_number b = Some n -> pr_number = Some n)
          /\ (forall h, wb_expected_head_sha b = Some h -> head_sha = Some h)
        | _ => True
        end.

Lemma none_or_eq_true {A} `{EqDecision A} (e a : option A) :
  none_or_eq e a = true <-> forall x, e = Some x -> a = Some x.
Proof. destruct e; simpl; [rewrite bool_decide_eq_true|]; naive_solver. Qed.

Lemma eqb_is_Some {A B} (x : option A) (y : option B) :
  Bool.eqb (bool_decide (is_Some x)) (bool_decide (is_Some y)) = true
  <-> (is_Some x <-> is_Some y).
Proof.
  rewrite Bool.eqb_true_iff. split.
  - intros H. by rewrite <-(bool_decide_eq_true (is_Some x)), H, bool_decide_eq_true.
  - intros H. by apply bool_decide_ext.
Qed.

Lemma validate_binding_iff r b : validate_binding r b = Ok () <-> validate r = Ok () /\ meets r b.
Proof.
  unfold validate_binding, meets.
  destruct (validate r) as [[]|]; simpl; [|naive_solver].
  destruct (reported r) as [[[pv pr] h] ri].
  match goal with |- context [if ?c then _ else _] =>
    transitivity (c = true); [by destruct c|] end.
  rewrite !andb_true_iff, orb_true_iff, !bool_decide_eq_true, !String.eqb_eq, Z.eqb_eq, eqb_is_Some,
    andb_true_iff, !none_or_eq_true.
  destruct r; simpl; naive_solver.
Qed.

(** Decoding reads the filled keys back. *)
Lemma de_case_ser c c' : de_case (ser_case c) = Some c' -> c' = c.
Proof.
  unfold de_case, ser_case.
  rewrite as_struct_json_object by done; cbn [mbind option_bind]. fields. simpl. intros H.
  destruct (de_u64 (Number (repository_id c))) as [r|] eqn:Hr; [|done]; simpl in H.
  destruct (de_u64 (Number (issue_number c))) as [i|] eqn:Hi; [|done]; simpl in H.
  destruct (de_u32 (Number (workflow_version c))) as [w|] eqn:Hw; [|done]; simpl in H.
  apply as_u64_some in Hr as [[= <-] _], Hi as [[= <-] _].
  unfold de_u32 in Hw. apply bind_Some in Hw as (w' & Hw & Hw'). apply as_u64_some in Hw as [[= <-] _].
  case_match; simplify_eq. by destruct c.
Qed.

Lemma de_u32_inv n m : de_u32 (Number n) = Some m -> m = n.
Proof.
  unfold de_u32. intros (k & Hk & H)%bind_Some. apply as_u64_some in Hk as [[= <-] _].
  by case_match; simplify_eq.
Qed.

Lemma de_common_filled fill m m' c :
  filled fill m m' -> de_common m' = Some c ->
  case c = wb_case (binding fill) /\ task_id c = wb_task_id (binding fill)
  /\ role c = wb_role (binding fill) /\ requested_model c = wb_requested_model (binding fill)
  /\ skills_repository_commit c = wb_skills_repository_commit (binding fill).
Proof.
  intros [] H. unfold de_common, field in H.
  rewrite f_contract0, f_workflow0, f_case0, f_task0, f_role0, f_requested0, f_actual0, f_skills0 in H.
  simpl in H. rewrite de_role_name in H.
  repeat (apply bind_Some in H as (? & ? & H); simpl in H). simplify_eq/=.
  split_and!; try done. by apply de_case_ser.
Qed.

Ltac inv_fields H := repeat (apply bind_Some in H as (? & ? & H); simpl in H); simplify_eq/=.

Lemma de_planner_inv m x :
  de_planner m = Some x ->
  de_common m = Some (pl_common x) /\ map_get "plan_version" m ≫= de_u32 = Some (pl_plan_version x).
Proof. unfold de_planner, field. intros H. by inv_fields H. Qed.

Lemma de_builder_inv m x :
  de_builder m = Some x ->
  de_common m = Some (bu_common x) /\ map_get "plan_version" m ≫= de_u32 = Some (bu_plan_version x).
Proof. unfold de_builder, field. intros H. by inv_fields H. Qed.

Lemma de_review_inv m x :
  de_review m = Some x ->
  de_common m = Some (rv_common x) /\ map_get "plan_version" m ≫= de_u32 = Some (rv_plan_version x)
  /\ map_get "pr_number" m ≫= de_u64 = Some (rv_pr_number x)
  /\ map_get "reviewed_head_sha" m ≫= as_str = Some (rv_reviewed_head_sha x)
  /\ map_get "reviewer_id" m ≫= as_str = Some (rv_reviewer_id x).
Proof. unfold de_review, field. intros H. by inv_fields H. Qed.

Lemma de_final_inv m x :
  de_final m = Some x ->
  de_common m = Some (fi_common x) /\ map_get "plan_version" m ≫= de_u32 = Some (fi_plan_version x)
  /\ map_get "pr_number" m ≫= de_u64 = Some (fi_pr_number x)
  /\ map_get "reviewed_head_sha" m ≫= as_str = Some (fi_reviewed_head_sha x).
Proof. unfold de_final, field. intros H. by inv_fields H. Qed.

Lemma wf_binding_reviewer b :
  wf_binding b = true ->
  (is_Some (wb_reviewer_id b) <-> is_reviewer (wb_role b) = true)
  /\ (is_Some (wb_review_mode b) <-> is_reviewer (wb_role b) = true).
Proof.
  unfold wf_binding. intros H. bools. apply Bool.eqb_prop in H, H0.
  by rewrite <-H at 1; rewrite <-H0, !bool_decide_eq_true.
Qed.

Lemma decode_filled_meets fill m m' r :
  wf_binding (binding fill) = true -> filled fill m m' -> decode (Object m') = Some r ->
  (reviewed_role (wb_role (binding fill)) = true ->
   reviewed_head_from_binding fill = true \/ wb_expected_head_sha (binding fill) = None) ->
  meets r (binding fill).
Proof.
  intros Hwf Hm Hd Hh. apply wf_binding_reviewer in Hwf as [Hri Hrm].
  pose proof (f_role _ _ _ Hm) as Hrole. unfold decode, get in Hd. rewrite Hrole in Hd.
  simpl in Hd. rewrite de_role_name in Hd. simpl in Hd.
  assert (Hpl : forall n, map_get "plan_version" m' ≫= de_u32 = Some n ->
    n = wb_plan_version (binding fill)).
  { intros n. rewrite (f_plan _ _ _ Hm). apply de_u32_inv. }
  assert (Hnone : is_reviewer (wb_role (binding fill)) = false ->
    wb_reviewer_id (binding fill) = None /\ ~ is_Some (wb_review_mode (binding fill))).
  { intros E. rewrite E in Hri, Hrm. split; [apply eq_None_not_Some|]; naive_solver. }
  assert (Hpr : reviewed_role (wb_role (binding fill)) = true -> forall n n',
    wb_pr_number (binding fill) = Some n -> map_get "pr_number" m' ≫= de_u64 = Some n' -> n' = n).
  { intros Hr n n' Hn. rewrite (f_pr _ _ _ Hm n Hr Hn). simpl. intros H. by apply as_u64_some in H as [[= <-] _]. }
  assert (Hhd : reviewed_role (wb_role (binding fill)) = true -> forall h h',
    wb_expected_head_sha (binding fill) = Some h -> map_get "reviewed_head_sha" m' ≫= as_str = Some h' ->
    h' = h).
  { intros Hr h h' He. destruct (Hh Hr) as [Hb|Hb]; [|congruence].
    rewrite (f_head _ _ _ Hm h Hr Hb He). simpl. congruence. }
  destruct (wb_role (binding fill)) eqn:Er; simpl in *;
    apply fmap_Some in Hd as (x & Hd & ->).
  - apply de_planner_inv in Hd as [Hc Hp]. apply (de_common_filled _ _ _ _ Hm) in Hc.
    destruct Hnone; [done|]. unfold meets; simpl. naive_solver.
  - apply de_builder_inv in Hd as [Hc Hp]. apply (de_common_filled _ _ _ _ Hm) in Hc.
    destruct Hnone; [done|]. unfold meets; simpl. naive_solver.
  - apply de_review_inv in Hd as (Hc & Hp & Hn & Hs & Hi). apply (de_common_filled _ _ _ _ Hm) in Hc.
    destruct (wb_reviewer_id (binding fill)) as [i|] eqn:Ei; [|naive_solver].
    rewrite (f_reviewer _ _ _ Hm i Ei) in Hi. unfold meets; simpl. naive_solver.
  - apply de_review_inv in Hd as (Hc & Hp & Hn & Hs & Hi). apply (de_common_filled _ _ _ _ Hm) in Hc.
    destruct (wb_reviewer_id (binding fill)) as [i|] eqn:Ei; [|naive_solver].
    rewrite (f_reviewer _ _ _ Hm i Ei) in Hi. unfold meets; simpl. naive_solver.
  - apply de_final_inv in Hd as (Hc & Hp & Hn & Hs). apply (de_common_filled _ _ _ _ Hm) in Hc.
    destruct Hnone; [done|]. unfold meets; simpl. naive_solver.
Qed.

(** ** Theorems *)

(** Results survive the ledger: encoding a well-formed worker result and
    decoding it by its declared role gives the result back, for every role. *)
Theorem decode_encode_result (r : WorkerResult) :
  wf_result r -> decode (encode_result r) = Some r.
Proof.
  intros [Hc Hr]. unfold decode, encode_result, json_object, get.
  destruct r as [r|[? ? ? ? [h|] ? ?]|r|r]; simpl in Hc, Hr.
  1: destruct Hr as (Hrole & ?). 2,3: destruct Hr as (Hrole & ? & ?).
  4,5: destruct Hr as (Hrole & ? & ? & ?).
  all: rewrite map_get_role by (vm_compute; reflexivity); simpl default; rewrite de_role_name;
    cbn [mbind option_bind as_object].
  - rewrite Hrole. unfold de_planner. rewrite de_common_fields by done. simpl. fields. simpl.
    rewrite de_planner_outcome_name. simpl. rewrite de_u32_number by done. simpl.
    rewrite de_vec_fmap by (by intros []). simpl. rewrite de_vec_strs. by destruct r.
  - rewrite Hrole. unfold de_builder. rewrite de_common_fields by done. simpl. fields. simpl.
    rewrite de_builder_outcome_name. simpl. rewrite !de_u32_number by done. simpl.
    rewrite de_vec_strs. simpl. by rewrite de_vec_fmap by apply de_ser_resolution.
  - rewrite Hrole. unfold de_builder. rewrite de_common_fields by done. simpl. fields. simpl.
    rewrite de_builder_outcome_name. simpl. rewrite !de_u32_number by done. simpl.
    rewrite de_vec_strs. simpl. by rewrite de_vec_fmap by apply de_ser_resolution.
  - set (m := map_of _). assert (ReviewR <$> de_review m = Some (ReviewR r)) as Hd.
    { subst m. unfold de_review. rewrite de_common_fields by done. simpl. fields. simpl.
      rewrite de_review_outcome_name. simpl. rewrite !de_u32_number by done. simpl.
      rewrite de_u64_number by done. simpl. rewrite (de_vec_fmap de_finding) by apply de_ser_finding. simpl.
      rewrite (de_vec_fmap de_suggestion) by apply de_ser_suggestion. simpl.
      rewrite (de_vec_fmap de_confirmation) by apply de_ser_confirmation. by destruct r. }
    by destruct (role (rv_common r)).
  - rewrite Hrole. unfold de_final. rewrite de_common_fields by done. simpl. fields. simpl.
    rewrite de_final_outcome_name. simpl. rewrite !de_u32_number by done. simpl.
    rewrite de_u64_number by done. simpl. rewrite de_vec_strs. by destruct r.
Qed.

Lemma decode_encode_result_witness :
  let c := {| contract_version := 2; cr_workflow_version := 1;
              case := {| repository_id := 5; issue_number := 7; workflow_version := 1 |};
              task_id := "t"; role := Builder; requested_model := "m"; actual_model := "m";
              skills_repository_commit := "s"; started_at_unix := 1; completed_at_unix := 2;
              evidence := [] |} in
  let r := BuilderR {| bu_common := c; bu_outcome := BuilderOutcome.Blocked; bu_plan_version := 1;
                       bu_build_round := 1; bu_head_sha := None; bu_local_checks := ["cargo test"];
                       bu_finding_resolutions := [] |} in
  decode (encode_result r) = Some r.
Proof.
  intros c r. apply decode_encode_result. repeat split; vm_compute; congruence.
Defined.

(** The controller owns the bookkeeping: filling any object succeeds, every
    bound field then holds the binding's value, the times are the measured ones
    or ordered and not in the future, and every key the controller does not own
    keeps what the worker wrote. *)
Theorem fill_binding_owns_bookkeeping (m : list (string * Value)) (fill : BindingFill) :
  exists m', fill_binding (Object m) fill = Ok (Object m') /\ filled fill m m'
    /\ (forall k, k ∉ controller_keys -> k <> "evidence" ->
          k ∉ role_rounds (wb_role (binding fill)) -> map_get k m' = map_get k m)
    /\ map_get "evidence" m' = Some (default (Object []) (map_get "evidence" m)).
Proof. apply fill_binding_filled. Qed.

(** A filled result meets its binding: once the controller has filled a raw
    result against a well-formed binding, whatever decodes and validates also
    passes [validate_binding]; for review roles the head is the binding's when
    the executor verified the checkout itself. *)
Theorem filled_result_meets_binding (value value' : Value) (fill : BindingFill) (r : WorkerResult) :
  wf_binding (binding fill) = true ->
  fill_binding value fill = Ok value' -> decode value' = Some r -> validate r = Ok () ->
  (reviewed_role (wb_role (binding fill)) = true ->
   reviewed_head_from_binding fill = true \/ wb_expected_head_sha (binding fill) = None) ->
  validate_binding r (binding fill) = Ok ().
Proof.
  intros Hwf Hfill Hdec Hval Hhead. apply validate_binding_iff. split; [done|].
  destruct value as [| | | | | |m]; try done.
  destruct (fill_binding_filled m fill) as (m' & Hf & Hm' & _). rewrite Hf in Hfill.
  simplify_eq. clear Hf. eapply decode_filled_meets; eauto.
Qed.

Lemma filled_result_meets_binding_witness :
  let b := {| wb_case := {| repository_id := 5; issue_number := 7; workflow_version := 1 |};
              wb_task_id := "t"; wb_role := FinalReviewer; wb_reviewer_id := None;
              wb_review_mode := None; wb_requested_model := "p/m";
              wb_skills_repository_commit := "0123456789012345678901234567890123456789";
              wb_plan_version := 1; wb_pr_number := Some 9;
              wb_expected_head_sha := Some "abcdefabcdefabcdefabcdefabcdefabcdefabcd" |} in
  let fill := {| binding := b; task_body := json_object [("final_review_round", Number 1)];
                 run_times := None; now := 100; reviewed_head_from_binding := true |} in
  let raw := json_object [("outcome", Str "READY"); ("residual_uncertainties", Array []);
                          ("decision_rationale", Str "fine")] in
  exists r value', fill_binding raw fill = Ok value' /\ decode value' = Some r
    /\ validate_binding r b = Ok ().
Proof.
  intros b fill raw. eexists _, _. split; [reflexivity|]. split; [reflexivity|].
  eapply (filled_result_meets_binding raw _ fill); [reflexivity..|]. by left.
Defined.

(** A result is accepted against its binding exactly when it is valid and reports
    the binding's case, task, role, model, skills, plan and reviewer, and, for
    review roles, the bound pull request and head. *)
Theorem accepted_result_is_bound (r : WorkerResult) (b : WorkerBinding) :
  validate_binding r b = Ok () <-> validate r = Ok () /\ meets r b.
Proof. apply validate_binding_iff. Qed.

(** Outcomes carry their evidence: a valid result has ordered times and the
    supported contract version; a plan that proceeds has no open dependency or
    decision; exactly a review-ready build names a full commit; an approval has
    no blocking finding and only confirmed resolutions. *)
Theorem valid_outcome_has_evidence (r : WorkerResult) :
  validate r = Ok () ->
  contract_version (common r) = CONTRACT_VERSION
  /\ started_at_unix (common r) <= completed_at_unix (common r)
  /\ match r with
     | PlannerR p => pl_outcome p = PlannerOutcome.Proceed ->
                     pl_dependencies p = [] /\ pl_open_decisions p = []
     | BuilderR b => match bu_head_sha b with
                     | Some h => bu_outcome b = BuilderOutcome.ReviewReady /\ is_hex h 40 = true
                     | None => bu_outcome b <> BuilderOutcome.ReviewReady
                     end
     | ReviewR v => is_hex (rv_reviewed_head_sha v) 40 = true
                    /\ (rv_outcome v = ReviewOutcome.Approve ->
                        rv_blocking_findings v = []
                        /\ Forall (fun c => fc_status c = ConfirmedResolved) (rv_finding_confirmations v))
     | FinalR f => is_hex (fi_reviewed_head_sha f) 40 = true
     end.
Proof.
  intros H.
  assert (Hc : contract_version (common r) = CONTRACT_VERSION
    /\ started_at_unix (common r) <= completed_at_unix (common r)).
  { destruct r; simpl in *; [unfold validate_planner in H|unfold validate_builder in H
      |unfold validate_review in H|unfold validate_final in H]; inv_ok;
    match goal with Hv : validate_common _ _ = Ok _ |- _ => unfold validate_common in Hv end;
    inv_ok; bools; done. }
  destruct Hc as [? ?]. split_and!; [done..|]. destruct r as [p|b|v|f]; simpl in H.
  - unfold validate_planner in H. inv_ok. intros Ho. rewrite Ho in *. simpl in *. bools. done.
  - unfold validate_builder in H. inv_ok. case_bool_decide; destruct (bu_head_sha b); inv_ok; by bools.
  - unfold validate_review in H. inv_ok. bools. split; [done|]. intros Ho.
    rewrite Ho in *. simpl in *. split.
    + destruct (rv_blocking_findings v); [done|]. simpl in *. congruence.
    + apply Forall_forall. intros c Hin. apply dec_stable. intros Hne.
      match goal with He : existsb _ _ = false |- _ => apply not_true_iff_false in He; apply He end.
      apply existsb_exists. exists c. rewrite <-list_elem_of_In, bool_decide_eq_true. done.
  - unfold validate_final in H. inv_ok. bools. done.
Qed.

Lemma valid_outcome_has_evidence_witness :
  is_hex "abcdefabcdefabcdefabcdefabcdefabcdefabcd" 40 = true.
Proof.
  refine (proj1 (proj2 (proj2 (valid_outcome_has_evidence (ReviewR {|
    rv_common := {| contract_version := 2; cr_workflow_version := 1;
      case := {| repository_id := 5; issue_number := 7; workflow_version := 1 |};
      task_id := "t"; role := ReviewerSecperf; requested_model := "m"; actual_model := "m";
      skills_repository_commit := "0123456789012345678901234567890123456789";
      started_at_unix := 1; completed_at_unix := 2; evidence := [] |};
    rv_reviewer_id := "r"; rv_outcome := ReviewOutcome.Approve; rv_plan_version := 1;
    rv_review_round := 1; rv_pr_number := 9;
    rv_reviewed_head_sha := "abcdefabcdefabcdefabcdefabcdefabcdefabcd";
    rv_blocking_findings := []; rv_suggestions := []; rv_finding_confirmations := [] |}) _)))).
  reflexivity.
Defined.
