(* ===== verification/Tables.v ===== *)
(** * Tables: the schema of the authoritative ledger

    One record per table of pip-store's migrations, with the columns of the
    current schema version (INTEGER is [Z], TEXT is [string], a nullable column
    an [option], JSON text a [string]); the record [Store] of all tables; and
    for each table an insertion that enforces its PRIMARY KEY, UNIQUE, CHECK and
    REFERENCES clauses.  The append-only tables have no other operation, which
    is what their [_no_update] and [_no_delete] triggers say. *)

From S2P Require Import Prelude Text Json Sql.
Open Scope Z_scope.

(** ** Rows *)

Record PolicyRow := {
  y_repository_id : Z; y_revision : Z; y_payload_json : string; y_payload_sha256 : string;
  y_accepted_at : Z;
}.
Record CaseRow := {
  c_case_key : string; c_repository_id : Z; c_issue_number : Z; c_workflow_version : Z;
  c_state : string; c_state_revision : Z; c_policy_revision : Z; c_remediation_round : Z;
  c_plan_version : Z; c_pr_number : option Z; c_head_sha : option string;
  c_created_at : Z; c_updated_at : Z;
}.
Record EventRow := {
  e_event_id : string; e_case_key : string; e_state_revision : Z; e_observed_at : Z;
  e_event_type : string; e_payload_json : string; e_payload_sha256 : string;
  e_command_sha256 : string; e_previous_state : option string; e_next_state : string;
  e_policy_revision : Z; e_remediation_round : Z; e_plan_version : Z;
  e_pr_number : option Z; e_head_sha : option string;
}.
Record RunRow := {
  r_run_id : string; r_case_key : string; r_event_id : string; r_task_id : string;
  r_role : string; r_payload_json : string; r_payload_sha256 : string; r_accepted_at : Z;
}.
Record EvidenceRow := {
  v_evidence_id : string; v_case_key : string; v_kind : string; v_source : string;
  v_observed_at : Z; v_payload_json : string; v_payload_sha256 : string;
}.
Record FindingRow := {
  f_finding_id : string; f_case_key : string; f_origin_role : string;
  f_reviewed_head_sha : string; f_payload_json : string; f_payload_sha256 : string;
  f_recorded_at : Z; f_event_id : option string;
}.
Record OutboxRow := {
  o_effect_id : string; o_case_key : string; o_state_revision : Z; o_effect_type : string;
  o_payload_json : string; o_payload_sha256 : string; o_created_at : Z;
  o_lease_owner : option string; o_lease_until : option Z; o_delivered_at : option Z;
  o_superseded_at : option Z; o_superseded_by_event_id : option string;
}.
Record ProjectionRow := {
  p_projection_id : string; p_case_key : string; p_effect_id : string; p_board : string;
  p_task_id : option string; p_desired_json : string; p_observed_json : option string;
  p_reconciled_at : option Z;
}.
Record AttemptRow := {
  a_attempt_id : Z; a_effect_id : string; a_case_key : string; a_state_revision : Z;
  a_task_id : string; a_lease_owner : string; a_lease_until : Z; a_started_at : Z;
  a_completed_at : option Z; a_status : string; a_result_json : option string;
  a_result_sha256 : option string; a_error : option string;
}.
Record WebhookRow := {
  w_delivery_id : string; w_repository_id : Z; w_event_name : string; w_action : string;
  w_received_at : Z; w_payload_sha256 : string;
}.
Record RetirementRow := {
  t_case_key : string; t_state_revision : Z; t_worktree_path : string; t_outcome : string;
  t_retired_at : Z;
}.
Record ObservationRow := {
  n_observation_id : string; n_effect_id : string; n_case_key : string; n_task_id : string;
  n_reviewer_id : string; n_role : string; n_review_mode : string; n_plan_version : Z;
  n_review_round : Z; n_pr_number : Z; n_reviewed_head_sha : string; n_payload_json : string;
  n_payload_sha256 : string; n_recorded_at : Z;
}.
Record BatchRow := {
  b_effect_id : string; b_case_key : string; b_state_revision : Z; b_payload_json : string;
  b_payload_sha256 : string; b_frozen_at : Z;
}.
Record CreateRow := {
  d_effect_id : string; d_intent_id : string; d_lease_owner : string; d_lease_until : Z;
  d_attempted_at : Z;
}.
Record CommandRow := {
  k_comment_id : Z; k_repository_id : Z; k_thread_number : Z; k_case_key : option string;
  k_actor_id : Z; k_command : string; k_guidance : string; k_received_at : Z;
  k_status : string; k_outcome : option string; k_resolved_at : option Z;
}.
Record HeartbeatRow := { h_repository_id : Z; h_last_cycle_at : Z; h_running_since : Z }.

#[export] Instance CaseRow_eq_dec : EqDecision CaseRow.
Proof. solve_decision. Defined.
#[export] Instance EventRow_eq_dec : EqDecision EventRow.
Proof. solve_decision. Defined.
#[export] Instance OutboxRow_eq_dec : EqDecision OutboxRow.
Proof. solve_decision. Defined.

(** [pub struct Store]: the open database and whether it may be written.  The
    path is not part of the state. [attempt_seq] is the AUTOINCREMENT counter of
    [direct_attempts]. *)
Record Store := {
  read_only : bool;
  policies : list PolicyRow;
  cases : list CaseRow;
  events : list EventRow;
  runs : list RunRow;
  evidence : list EvidenceRow;
  findings : list FindingRow;
  outbox : list OutboxRow;
  task_projections : list ProjectionRow;
  direct_attempts : list AttemptRow;
  webhook_deliveries : list WebhookRow;
  workspace_retirements : list RetirementRow;
  review_observations : list ObservationRow;
  dispatch_batches : list BatchRow;
  dispatch_create_attempts : list CreateRow;
  control_commands : list CommandRow;
  controller_heartbeats : list HeartbeatRow;
  attempt_seq : Z;
}.

Definition empty_store : Store := {|
  read_only := false;
  policies := [];
  cases := [];
  events := [];
  runs := [];
  evidence := [];
  findings := [];
  outbox := [];
  task_projections := [];
  direct_attempts := [];
  webhook_deliveries := [];
  workspace_retirements := [];
  review_observations := [];
  dispatch_batches := [];
  dispatch_create_attempts := [];
  control_commands := [];
  controller_heartbeats := [];
  attempt_seq := 0;
|}.

(** Replacing one table. *)
Definition set_policies (x : list PolicyRow) (s : Store) : Store :=
  Build_Store
    s.(read_only) x s.(cases) s.(events) s.(runs) s.(evidence) s.(findings) s.(outbox)
    s.(task_projections) s.(direct_attempts) s.(webhook_deliveries)
    s.(workspace_retirements) s.(review_observations) s.(dispatch_batches)
    s.(dispatch_create_attempts) s.(control_commands) s.(controller_heartbeats)
    s.(attempt_seq).
Definition set_cases (x : list CaseRow) (s : Store) : Store :=
  Build_Store
    s.(read_only) s.(policies) x s.(events) s.(runs) s.(evidence) s.(findings) s.(outbox)
    s.(task_projections) s.(direct_attempts) s.(webhook_deliveries)
    s.(workspace_retirements) s.(review_observations) s.(dispatch_batches)
    s.(dispatch_create_attempts) s.(control_commands) s.(controller_heartbeats)
    s.(attempt_seq).
Definition set_events (x : list EventRow) (s : Store) : Store :=
  Build_Store
    s.(read_only) s.(policies) s.(cases) x s.(runs) s.(evidence) s.(findings) s.(outbox)
    s.(task_projections) s.(direct_attempts) s.(webhook_deliveries)
    s.(workspace_retirements) s.(review_observations) s.(dispatch_batches)
    s.(dispatch_create_attempts) s.(control_commands) s.(controller_heartbeats)
    s.(attempt_seq).
Definition set_runs (x : list RunRow) (s : Store) : Store :=
  Build_Store
    s.(read_only) s.(policies) s.(cases) s.(events) x s.(evidence) s.(findings) s.(outbox)
    s.(task_projections) s.(direct_attempts) s.(webhook_deliveries)
    s.(workspace_retirements) s.(review_observations) s.(dispatch_batches)
    s.(dispatch_create_attempts) s.(control_commands) s.(controller_heartbeats)
    s.(attempt_seq).
Definition set_evidence (x : list EvidenceRow) (s : Store) : Store :=
  Build_Store
    s.(read_only) s.(policies) s.(cases) s.(events) s.(runs) x s.(findings) s.(outbox)
    s.(task_projections) s.(direct_attempts) s.(webhook_deliveries)
    s.(workspace_retirements) s.(review_observations) s.(dispatch_batches)
    s.(dispatch_create_attempts) s.(control_commands) s.(controller_heartbeats)
    s.(attempt_seq).
Definition set_findings (x : list FindingRow) (s : Store) : Store :=
  Build_Store
    s.(read_only) s.(policies) s.(cases) s.(events) s.(runs) s.(evidence) x s.(outbox)
    s.(task_projections) s.(direct_attempts) s.(webhook_deliveries)
    s.(workspace_retirements) s.(review_observations) s.(dispatch_batches)
    s.(dispatch_create_attempts) s.(control_commands) s.(controller_heartbeats)
    s.(attempt_seq).
Definition set_outbox (x : list OutboxRow) (s : Store) : Store :=
  Build_Store
    s.(read_only) s.(policies) s.(cases) s.(events) s.(runs) s.(evidence) s.(findings) x
    s.(task_projections) s.(direct_attempts) s.(webhook_deliveries)
    s.(workspace_retirements) s.(review_observations) s.(dispatch_batches)
    s.(dispatch_create_attempts) s.(control_commands) s.(controller_heartbeats)
    s.(attempt_seq).
Definition set_task_projections (x : list ProjectionRow) (s : Store) : Store :=
  Build_Store
    s.(read_only) s.(policies) s.(cases) s.(events) s.(runs) s.(evidence) s.(findings)
    s.(outbox) x s.(direct_attempts) s.(webhook_deliveries) s.(workspace_retirements)
    s.(review_observations) s.(dispatch_batches) s.(dispatch_create_attempts)
    s.(control_commands) s.(controller_heartbeats) s.(attempt_seq).
Definition set_direct_attempts (x : list AttemptRow) (s : Store) : Store :=
  Build_Store
    s.(read_only) s.(policies) s.(cases) s.(events) s.(runs) s.(evidence) s.(findings)
    s.(outbox) s.(task_projections) x s.(webhook_deliveries) s.(workspace_retirements)
    s.(review_observations) s.(dispatch_batches) s.(dispatch_create_attempts)
    s.(control_commands) s.(controller_heartbeats) s.(attempt_seq).
Definition set_webhook_deliveries (x : list WebhookRow) (s : Store) : Store :=
  Build_Store
    s.(read_only) s.(policies) s.(cases) s.(events) s.(runs) s.(evidence) s.(findings)
    s.(outbox) s.(task_projections) s.(direct_attempts) x s.(workspace_retirements)
    s.(review_observations) s.(dispatch_batches) s.(dispatch_create_attempts)
    s.(control_commands) s.(controller_heartbeats) s.(attempt_seq).
Definition set_workspace_retirements (x : list RetirementRow) (s : Store) : Store :=
  Build_Store
    s.(read_only) s.(policies) s.(cases) s.(events) s.(runs) s.(evidence) s.(findings)
    s.(outbox) s.(task_projections) s.(direct_attempts) s.(webhook_deliveries) x
    s.(review_observations) s.(dispatch_batches) s.(dispatch_create_attempts)
    s.(control_commands) s.(controller_heartbeats) s.(attempt_seq).
Definition set_review_observations (x : list ObservationRow) (s : Store) : Store :=
  Build_Store
    s.(read_only) s.(policies) s.(cases) s.(events) s.(runs) s.(evidence) s.(findings)
    s.(outbox) s.(task_projections) s.(direct_attempts) s.(webhook_deliveries)
    s.(workspace_retirements) x s.(dispatch_batches) s.(dispatch_create_attempts)
    s.(control_commands) s.(controller_heartbeats) s.(attempt_seq).
Definition set_dispatch_batches (x : list BatchRow) (s : Store) : Store :=
  Build_Store
    s.(read_only) s.(policies) s.(cases) s.(events) s.(runs) s.(evidence) s.(findings)
    s.(outbox) s.(task_projections) s.(direct_attempts) s.(webhook_deliveries)
    s.(workspace_retirements) s.(review_observations) x s.(dispatch_create_attempts)
    s.(control_commands) s.(controller_heartbeats) s.(attempt_seq).
Definition set_dispatch_create_attempts (x : list CreateRow) (s : Store) : Store :=
  Build_Store
    s.(read_only) s.(policies) s.(cases) s.(events) s.(runs) s.(evidence) s.(findings)
    s.(outbox) s.(task_projections) s.(direct_attempts) s.(webhook_deliveries)
    s.(workspace_retirements) s.(review_observations) s.(dispatch_batches) x
    s.(control_commands) s.(controller_heartbeats) s.(attempt_seq).
Definition set_control_commands (x : list CommandRow) (s : Store) : Store :=
  Build_Store
    s.(read_only) s.(policies) s.(cases) s.(events) s.(runs) s.(evidence) s.(findings)
    s.(outbox) s.(task_projections) s.(direct_attempts) s.(webhook_deliveries)
    s.(workspace_retirements) s.(review_observations) s.(dispatch_batches)
    s.(dispatch_create_attempts) x s.(controller_heartbeats) s.(attempt_seq).
Definition set_controller_heartbeats (x : list HeartbeatRow) (s : Store) : Store :=
  Build_Store
    s.(read_only) s.(policies) s.(cases) s.(events) s.(runs) s.(evidence) s.(findings)
    s.(outbox) s.(task_projections) s.(direct_attempts) s.(webhook_deliveries)
    s.(workspace_retirements) s.(review_observations) s.(dispatch_batches)
    s.(dispatch_create_attempts) s.(control_commands) x s.(attempt_seq).
Definition set_attempt_seq (x : Z) (s : Store) : Store :=
  Build_Store
    s.(read_only) s.(policies) s.(cases) s.(events) s.(runs) s.(evidence) s.(findings)
    s.(outbox) s.(task_projections) s.(direct_attempts) s.(webhook_deliveries)
    s.(workspace_retirements) s.(review_observations) s.(dispatch_batches)
    s.(dispatch_create_attempts) s.(control_commands) s.(controller_heartbeats) x.

(** ** Errors *)

(** [FaultPoint]. *)
Inductive FaultPoint :=
| AfterEvent | AfterRun | AfterEvidence | AfterProjection | AfterOutbox | BetweenTransitions.

(** [StoreError]. *)
Inductive StoreError :=
| Database (e : SqlError)
| Serialization
| InvalidInteger
| InvalidInput (message : string)
| MissingCase (case_key : string)
| StaleRevision (expected actual : Z)
| IdempotencyConflict (id : string)
| InjectedFault (point : FaultPoint)
| LeaseLost (effect : string)
| ReadOnly
| DestinationExists (path : string)
| UnsupportedSchema (version : Z).

#[export] Instance FaultPoint_eq_dec : EqDecision FaultPoint.
Proof. solve_decision. Defined.
#[export] Instance StoreError_eq_dec : EqDecision StoreError.
Proof. solve_decision. Defined.

(** [ApplyResult]. *)
Inductive ApplyResult := Applied | Replayed.
#[export] Instance ApplyResult_eq_dec : EqDecision ApplyResult.
Proof. solve_decision. Defined.

(** [?] on a rusqlite result. *)
Definition db {A} (m : result SqlError A) : result StoreError A := map_err Database m.

(** [?] on a serde_json result. *)
Definition parse_json `{Codec} (text : string) : result StoreError Value :=
  ok_or (from_str text) Serialization.

(** [ensure_writable]. *)
Definition ensure_writable (s : Store) : result StoreError () := err_if s.(read_only) ReadOnly.

(** [inject]. *)
Definition inject (requested : option FaultPoint) (current : FaultPoint) : result StoreError () :=
  err_if (bool_decide (requested = Some current)) (InjectedFault current).

(** [sql_u64], [Option::map(sql_u64).transpose()], [unsigned], and
    [u32::try_from(n).unwrap_or_default()]. *)
Definition sql_u64 (value : Z) : result StoreError Z :=
  if value <=? i64_max then Ok value else Err InvalidInteger.
Definition sql_u64_opt (value : option Z) : result StoreError (option Z) :=
  match value with Some n => Some <$> sql_u64 n | None => Ok None end.
Definition unsigned (value : Z) : Z := Z.max 0 value.
Definition u32_or_default (value : Z) : Z :=
  if (0 <=? value) && (value <=? u32_max) then value else 0.

(** ** Insertions *)

Definition constraint_if {A} (violated : bool) (a : A) : result StoreError A :=
  if violated then Err (Database ConstraintViolation) else Ok a.

Definition case_exists (s : Store) (key : string) : bool :=
  exists_row (fun c => String.eqb c.(c_case_key) key) s.(cases).
Definition event_exists (s : Store) (id : string) : bool :=
  exists_row (fun e => String.eqb e.(e_event_id) id) s.(events).
Definition outbox_exists (s : Store) (id : string) : bool :=
  exists_row (fun o => String.eqb o.(o_effect_id) id) s.(outbox).

Definition insert_policy_row (r : PolicyRow) (s : Store) : result StoreError Store :=
  constraint_if
    (exists_row (fun y => (y.(y_repository_id) =? r.(y_repository_id))
                          && (y.(y_revision) =? r.(y_revision))) s.(policies))
    (set_policies (s.(policies) ++ [r]) s).

Definition case_check (r : CaseRow) : bool :=
  (0 <? r.(c_state_revision)) && (0 <? r.(c_policy_revision))
  && (0 <=? r.(c_remediation_round)) && (0 <=? r.(c_plan_version)).

Definition insert_case_row (r : CaseRow) (s : Store) : result StoreError Store :=
  constraint_if
    (negb (case_check r)
     || case_exists s r.(c_case_key)
     || exists_row (fun c => (c.(c_repository_id) =? r.(c_repository_id))
                             && (c.(c_issue_number) =? r.(c_issue_number))
                             && (c.(c_workflow_version) =? r.(c_workflow_version))) s.(cases))
    (set_cases (s.(cases) ++ [r]) s).

Definition event_check (r : EventRow) : bool :=
  (0 <? r.(e_state_revision)) && (0 <? r.(e_policy_revision))
  && (0 <=? r.(e_remediation_round)) && (0 <=? r.(e_plan_version)).

Definition insert_event_row (r : EventRow) (s : Store) : result StoreError Store :=
  constraint_if
    (negb (event_check r)
     || event_exists s r.(e_event_id)
     || exists_row (fun e => String.eqb e.(e_case_key) r.(e_case_key)
                             && (e.(e_state_revision) =? r.(e_state_revision))) s.(events)
     || negb (case_exists s r.(e_case_key)))
    (set_events (s.(events) ++ [r]) s).

Definition insert_run_row (r : RunRow) (s : Store) : result StoreError Store :=
  constraint_if
    (exists_row (fun x => String.eqb x.(r_run_id) r.(r_run_id)
                          || String.eqb x.(r_event_id) r.(r_event_id)
                          || String.eqb x.(r_task_id) r.(r_task_id)) s.(runs)
     || negb (case_exists s r.(r_case_key))
     || negb (event_exists s r.(r_event_id)))
    (set_runs (s.(runs) ++ [r]) s).

Definition insert_evidence_row (r : EvidenceRow) (s : Store) : result StoreError Store :=
  constraint_if
    (exists_row (fun x => String.eqb x.(v_evidence_id) r.(v_evidence_id)) s.(evidence)
     || negb (case_exists s r.(v_case_key)))
    (set_evidence (s.(evidence) ++ [r]) s).

(** [UNIQUE (case_key, event_id, origin_role, finding_id)], where NULL differs
    from NULL, and the partial index on rows without an event. *)
Definition finding_clash (x r : FindingRow) : bool :=
  String.eqb x.(f_case_key) r.(f_case_key) && String.eqb x.(f_finding_id) r.(f_finding_id)
  && match x.(f_event_id), r.(f_event_id) with
     | Some i, Some j => String.eqb i j && String.eqb x.(f_origin_role) r.(f_origin_role)
     | None, None => true
     | _, _ => false
     end.

Definition insert_finding_row (r : FindingRow) (s : Store) : result StoreError Store :=
  constraint_if
    (exists_row (fun x => finding_clash x r) s.(findings)
     || negb (case_exists s r.(f_case_key))
     || match r.(f_event_id) with Some id => negb (event_exists s id) | None => false end)
    (set_findings (s.(findings) ++ [r]) s).

(** [CHECK ((lease_owner IS NULL) = (lease_until IS NULL))]. *)
Definition outbox_check (r : OutboxRow) : bool :=
  (0 <? r.(o_state_revision)) && Bool.eqb (is_none r.(o_lease_owner)) (is_none r.(o_lease_until)).

Definition insert_outbox_row (r : OutboxRow) (s : Store) : result StoreError Store :=
  constraint_if
    (negb (outbox_check r)
     || outbox_exists s r.(o_effect_id)
     || negb (case_exists s r.(o_case_key)))
    (set_outbox (s.(outbox) ++ [r]) s).

Definition insert_projection_row (r : ProjectionRow) (s : Store) : result StoreError Store :=
  constraint_if
    (exists_row (fun x => String.eqb x.(p_projection_id) r.(p_projection_id)) s.(task_projections)
     || negb (case_exists s r.(p_case_key))
     || negb (outbox_exists s r.(p_effect_id)))
    (set_task_projections (s.(task_projections) ++ [r]) s).

(** The status CHECK of [direct_attempts]. *)
Definition attempt_check (r : AttemptRow) : bool :=
  (0 <? r.(a_state_revision))
  && ((String.eqb r.(a_status) "RUNNING" && is_none r.(a_completed_at)
       && is_none r.(a_result_json) && is_none r.(a_result_sha256) && is_none r.(a_error))
      || (String.eqb r.(a_status) "COMPLETE" && is_some r.(a_completed_at)
          && is_some r.(a_result_json) && is_some r.(a_result_sha256) && is_none r.(a_error))
      || (String.eqb r.(a_status) "FAILED" && is_some r.(a_completed_at)
          && is_none r.(a_result_json) && is_none r.(a_result_sha256) && is_some r.(a_error))).

(** [direct_attempts_one_running] and [direct_attempts_one_complete]. *)
Definition attempt_clash (x r : AttemptRow) : bool :=
  String.eqb x.(a_effect_id) r.(a_effect_id) && String.eqb x.(a_status) r.(a_status)
  && one_of ["RUNNING"; "COMPLETE"] r.(a_status).

(** The rowid of an AUTOINCREMENT table is one above the largest ever used. *)
Definition insert_attempt_row (r : Z -> AttemptRow) (s : Store) : result StoreError (Z * Store) :=
  let id := s.(attempt_seq) + 1 in
  constraint_if
    (negb (attempt_check (r id))
     || exists_row (fun x => attempt_clash x (r id)) s.(direct_attempts)
     || negb (outbox_exists s (r id).(a_effect_id))
     || negb (case_exists s (r id).(a_case_key)))
    (id, set_attempt_seq id (set_direct_attempts (s.(direct_attempts) ++ [r id]) s)).

Definition insert_webhook_row (r : WebhookRow) (s : Store) : result StoreError Store :=
  constraint_if
    (negb (0 <? r.(w_repository_id))
     || exists_row (fun x => String.eqb x.(w_delivery_id) r.(w_delivery_id)) s.(webhook_deliveries))
    (set_webhook_deliveries (s.(webhook_deliveries) ++ [r]) s).

Definition insert_retirement_row (r : RetirementRow) (s : Store) : result StoreError Store :=
  constraint_if
    (negb (0 <? r.(t_state_revision))
     || negb (one_of ["RETIRED"; "ABSENT"] r.(t_outcome))
     || exists_row (fun x => String.eqb x.(t_case_key) r.(t_case_key)
                             && (x.(t_state_revision) =? r.(t_state_revision)))
          s.(workspace_retirements)
     || negb (case_exists s r.(t_case_key)))
    (set_workspace_retirements (s.(workspace_retirements) ++ [r]) s).

Definition insert_observation_row (r : ObservationRow) (s : Store) : result StoreError Store :=
  constraint_if
    (negb (one_of ["advisory"; "shadow"] r.(n_review_mode))
     || negb (0 <? r.(n_plan_version)) || negb (0 <? r.(n_review_round))
     || negb (0 <? r.(n_pr_number))
     || exists_row (fun x => String.eqb x.(n_observation_id) r.(n_observation_id)
                             || String.eqb x.(n_effect_id) r.(n_effect_id)
                             || String.eqb x.(n_task_id) r.(n_task_id)) s.(review_observations)
     || negb (outbox_exists s r.(n_effect_id))
     || negb (case_exists s r.(n_case_key)))
    (set_review_observations (s.(review_observations) ++ [r]) s).

Definition insert_batch_row (r : BatchRow) (s : Store) : result StoreError Store :=
  constraint_if
    (negb (0 <? r.(b_state_revision))
     || exists_row (fun x => String.eqb x.(b_effect_id) r.(b_effect_id)) s.(dispatch_batches)
     || negb (outbox_exists s r.(b_effect_id))
     || negb (case_exists s r.(b_case_key)))
    (set_dispatch_batches (s.(dispatch_batches) ++ [r]) s).

(** ** Facts *)

Lemma db_ok {A} (m : result SqlError A) a : db m = Ok a <-> m = Ok a.
Proof. apply map_err_ok. Qed.

Lemma constraint_if_ok {A} b (a a' : A) :
  constraint_if b a = Ok a' <-> b = false /\ a' = a.
Proof. destruct b; simpl; naive_solver. Qed.

Lemma sql_u64_ok n m : sql_u64 n = Ok m <-> m = n /\ n <= i64_max.
Proof. unfold sql_u64. destruct (Z.leb_spec n i64_max); naive_solver lia. Qed.

Lemma sql_u64_opt_ok o p :
  sql_u64_opt o = Ok p <-> p = o /\ match o with Some n => n <= i64_max | None => True end.
Proof.
  destruct o as [n|]; simpl; [|naive_solver].
  destruct (sql_u64 n) as [m|] eqn:E; simpl.
  - apply sql_u64_ok in E as [-> ?]. naive_solver.
  - unfold sql_u64 in E. destruct (Z.leb_spec n i64_max); naive_solver lia.
Qed.

Lemma inject_ok f p u : inject f p = Ok u <-> f <> Some p.
Proof. unfold inject. rewrite err_if_ok, bool_decide_eq_false. done. Qed.

Lemma ensure_writable_ok s u : ensure_writable s = Ok u <-> s.(read_only) = false.
Proof. apply err_if_ok. Qed.

Lemma unsigned_id n : 0 <= n -> unsigned n = n.
Proof. unfold unsigned. lia. Qed.

Lemma u32_or_default_id n : is_u32 n -> u32_or_default n = n.
Proof.
  unfold is_u32, u32_or_default. intros [??].
  by rewrite (proj2 (Z.leb_le 0 n)), (proj2 (Z.leb_le n u32_max)).
Qed.

(** Inversion of a successful store operation. *)
Ltac open_store :=
  repeat (progress (open_ok;
    repeat match goal with
    | H : db _ = Ok _ |- _ => apply db_ok in H
    | H : constraint_if _ _ = Ok _ |- _ => apply constraint_if_ok in H as [? ?]
    | H : sql_u64 _ = Ok _ |- _ => apply sql_u64_ok in H as [? ?]
    | H : sql_u64_opt _ = Ok _ |- _ => apply sql_u64_opt_ok in H as [? ?]
    | H : inject _ _ = Ok _ |- _ => apply inject_ok in H
    | H : ensure_writable _ = Ok _ |- _ => apply ensure_writable_ok in H
    | x : () |- _ => destruct x
    | H : match ?x with (_, _) => _ end = Ok _ |- _ => is_var x; destruct x
    end)).

(** The same with the equations simplified between the steps. *)
Ltac inv_store :=
  repeat (inv_ok;
    repeat match goal with
    | H : db _ = Ok _ |- _ => apply db_ok in H
    | H : constraint_if _ _ = Ok _ |- _ => apply constraint_if_ok in H as [? ?]
    | H : sql_u64 _ = Ok _ |- _ => apply sql_u64_ok in H as [? ?]
    | H : sql_u64_opt _ = Ok _ |- _ => apply sql_u64_opt_ok in H as [? ?]
    | H : inject _ _ = Ok _ |- _ => apply inject_ok in H
    | H : ensure_writable _ = Ok _ |- _ => apply ensure_writable_ok in H
    end; simplify_eq/=;
    try match goal with
    | x : () |- _ => destruct x
    | H : match ?x with (_, _) => _ end = Ok _ |- _ => is_var x; destruct x
    end).
