(* ===== verification/Inputs.v ===== *)
(** * Inputs: the commands the ledger takes and the records it returns

    The public structs of pip-store's lib.rs.  [ser_*] is the derived
    [Serialize] of a command: an object whose members are the fields in
    declaration order, which [hash_serialized] digests. *)

From S2P Require Import Prelude Text Json Tables.
Open Scope Z_scope.

Record EventInput := { ei_event_id : string; ei_event_type : string; ei_payload : Value }.
Record EffectInput := { fi_effect_id : string; fi_effect_type : string; fi_payload : Value }.
Record RunInput := { ri_run_id : string; ri_task_id : string; ri_role : string; ri_payload : Value }.
Record EvidenceInput := {
  vi_evidence_id : string; vi_kind : string; vi_source : string; vi_payload : Value;
}.
Record FindingInput := {
  ni_finding_id : string; ni_origin_role : string; ni_reviewed_head_sha : string;
  ni_payload : Value;
}.
Record PolicyInput := {
  yi_repository_id : Z; yi_revision : Z; yi_accepted_at : Z; yi_payload : Value;
}.
Record NewCase := {
  nc_case_key : string; nc_repository_id : Z; nc_issue_number : Z; nc_workflow_version : Z;
  nc_policy_revision : Z; nc_initial_state : string; nc_observed_at : Z; nc_event : EventInput;
  nc_effects : list EffectInput;
}.
Record TransitionInput := {
  ti_case_key : string; ti_expected_revision : Z; ti_next_state : string;
  ti_remediation_round : Z; ti_plan_version : Z; ti_pr_number : option Z;
  ti_head_sha : option string; ti_observed_at : Z; ti_event : EventInput;
  ti_run : option RunInput; ti_evidence : list EvidenceInput; ti_findings : list FindingInput;
  ti_effects : list EffectInput;
}.
Record StoredCase := {
  sc_case_key : string; sc_repository_id : Z; sc_issue_number : Z; sc_workflow_version : Z;
  sc_state : string; sc_state_revision : Z; sc_policy_revision : Z; sc_remediation_round : Z;
  sc_plan_version : Z; sc_pr_number : option Z; sc_head_sha : option string;
}.
Record StoredRun := {
  sr_run_id : string; sr_case_key : string; sr_event_id : string; sr_task_id : string;
  sr_role : string; sr_payload : Value; sr_payload_sha256 : string; sr_accepted_at : Z;
}.
Record ClaimedEffect := {
  ce_effect_id : string; ce_case_key : string; ce_state_revision : Z; ce_effect_type : string;
  ce_payload : Value; ce_lease_owner : string; ce_lease_until : Z;
}.
Record TaskProjectionInput := {
  pi_projection_id : string; pi_effect_id : string; pi_board : string; pi_task_id : string;
  pi_desired : Value; pi_observed : Value;
}.

#[export] Instance StoredCase_eq_dec : EqDecision StoredCase.
Proof. solve_decision. Defined.
#[export] Instance EffectInput_eq_dec : EqDecision EffectInput.
Proof. solve_decision. Defined.

(** ** Serialization *)

Definition ser_event (e : EventInput) : Value :=
  Object [("event_id", Str e.(ei_event_id)); ("event_type", Str e.(ei_event_type));
          ("payload", e.(ei_payload))].
Definition ser_effect (e : EffectInput) : Value :=
  Object [("effect_id", Str e.(fi_effect_id)); ("effect_type", Str e.(fi_effect_type));
          ("payload", e.(fi_payload))].
Definition ser_run (r : RunInput) : Value :=
  Object [("run_id", Str r.(ri_run_id)); ("task_id", Str r.(ri_task_id));
          ("role", Str r.(ri_role)); ("payload", r.(ri_payload))].
Definition ser_evidence (e : EvidenceInput) : Value :=
  Object [("evidence_id", Str e.(vi_evidence_id)); ("kind", Str e.(vi_kind));
          ("source", Str e.(vi_source)); ("payload", e.(vi_payload))].
Definition ser_finding (f : FindingInput) : Value :=
  Object [("finding_id", Str f.(ni_finding_id)); ("origin_role", Str f.(ni_origin_role));
          ("reviewed_head_sha", Str f.(ni_reviewed_head_sha)); ("payload", f.(ni_payload))].

Definition ser_new_case (c : NewCase) : Value :=
  Object [("case_key", Str c.(nc_case_key)); ("repository_id", Number c.(nc_repository_id));
          ("issue_number", Number c.(nc_issue_number));
          ("workflow_version", Number c.(nc_workflow_version));
          ("policy_revision", Number c.(nc_policy_revision));
          ("initial_state", Str c.(nc_initial_state)); ("observed_at", Number c.(nc_observed_at));
          ("event", ser_event c.(nc_event)); ("effects", Array (ser_effect <$> c.(nc_effects)))].

Definition ser_transition (t : TransitionInput) : Value :=
  Object [("case_key", Str t.(ti_case_key));
          ("expected_revision", Number t.(ti_expected_revision));
          ("next_state", Str t.(ti_next_state));
          ("remediation_round", Number t.(ti_remediation_round));
          ("plan_version", Number t.(ti_plan_version));
          ("pr_number", opt_number t.(ti_pr_number)); ("head_sha", opt_str t.(ti_head_sha));
          ("observed_at", Number t.(ti_observed_at)); ("event", ser_event t.(ti_event));
          ("run", match t.(ti_run) with Some r => ser_run r | None => Null end);
          ("evidence", Array (ser_evidence <$> t.(ti_evidence)));
          ("findings", Array (ser_finding <$> t.(ti_findings)));
          ("effects", Array (ser_effect <$> t.(ti_effects)))].

(** [hash_serialized]. *)
Definition hash_serialized `{Codec} (v : Value) : string := hash_bytes (to_string v).

(** ** Ranges of the Rust integer types *)

Definition wf_transition (t : TransitionInput) : Prop :=
  is_u64 t.(ti_expected_revision) /\ is_u32 t.(ti_remediation_round)
  /\ is_u32 t.(ti_plan_version) /\ is_u64 t.(ti_observed_at)
  /\ match t.(ti_pr_number) with Some n => is_u64 n | None => True end.
Definition wf_new_case (c : NewCase) : Prop :=
  is_u64 c.(nc_repository_id) /\ is_u64 c.(nc_issue_number) /\ is_u32 c.(nc_workflow_version)
  /\ is_u64 c.(nc_policy_revision) /\ is_u64 c.(nc_observed_at).

(** ** Serialization identifies a command *)

#[export] Instance ser_event_inj : Inj (=) (=) ser_event.
Proof. intros [] [] [=]; by simplify_eq. Qed.
#[export] Instance ser_effect_inj : Inj (=) (=) ser_effect.
Proof. intros [] [] [=]; by simplify_eq. Qed.
#[export] Instance ser_run_inj : Inj (=) (=) ser_run.
Proof. intros [] [] [=]; by simplify_eq. Qed.
#[export] Instance ser_evidence_inj : Inj (=) (=) ser_evidence.
Proof. intros [] [] [=]; by simplify_eq. Qed.
#[export] Instance ser_finding_inj : Inj (=) (=) ser_finding.
Proof. intros [] [] [=]; by simplify_eq. Qed.
#[export] Instance opt_number_inj : Inj (=) (=) opt_number.
Proof. by intros [] [] [=]; simplify_eq. Qed.
#[export] Instance opt_str_inj : Inj (=) (=) opt_str.
Proof. by intros [] [] [=]; simplify_eq. Qed.

#[export] Instance ser_transition_inj : Inj (=) (=) ser_transition.
Proof.
  intros [????????[] ra ???] [????????[] rb ???] H. unfold ser_transition in H; simpl in H.
  simplify_eq. destruct ra as [[]|], rb as [[]|]; by simplify_eq/=.
Qed.
#[export] Instance ser_new_case_inj : Inj (=) (=) ser_new_case.
Proof. intros [???????[] ?] [???????[] ?] H. unfold ser_new_case in H; by simplify_eq/=. Qed.

(** Equal command digests mean the same command, or two texts that collide
    under SHA-256. *)
Definition collision `{Codec} : Prop :=
  exists a b, a <> b /\ hash_bytes a = hash_bytes b.

Lemma hash_serialized_inj `{CodecLaws} v w :
  hash_serialized v = hash_serialized w -> v = w \/ collision.
Proof.
  intros Hh. destruct (decide (to_string v = to_string w)) as [E|E].
  - left. by apply to_string_inj.
  - right. by exists (to_string v), (to_string w).
Qed.
