(* ===== verification/Frozen.v ===== *)
(** * Frozen: dispatch batches and create reservations

    pip-store's dispatch_intents.rs.  Before any queue write the controller
    freezes the resolved batch of intents of a dispatch effect; large evidence
    bundles are stored once under their digest; an output then refers to its
    intent by reference.  A reservation is granted at most once per intent. *)

From S2P Require Import Prelude Text Json Serde Sql Tables Inputs.
Open Scope Z_scope.

Inductive DispatchTransport := Hermes | Direct.
#[export] Instance DispatchTransport_eq_dec : EqDecision DispatchTransport.
Proof. solve_decision. Defined.
Definition transport_name (t : DispatchTransport) : string :=
  match t with Hermes => "hermes" | Direct => "direct" end.

Record DispatchIntent := { intent_id : string; transport : DispatchTransport; desired : Value }.
#[export] Instance DispatchIntent_eq_dec : EqDecision DispatchIntent.
Proof. solve_decision. Defined.

Record FrozenBatch := {
  fb_format : Z; fb_intents : list DispatchIntent; fb_evidence : list (string * Value);
}.
Record IntentReference := {
  ir_schema_version : Z; ir_effect_id : string; ir_intent_id : string; ir_sha256 : string;
}.
Definition REFERENCE : string := "dispatch_intent_ref".

Inductive CreateReservation := Granted | Uncertain.

(** ** Serialization ([to_value] and [from_value]) *)

Definition ser_intent (i : DispatchIntent) : Value :=
  json_object [("intent_id", Str i.(intent_id)); ("transport", Str (transport_name i.(transport)));
               ("desired", i.(desired))].
Definition de_intent (v : Value) : option DispatchIntent :=
  m ← as_struct ["intent_id"; "transport"; "desired"] v;
  i ← field m "intent_id" as_str;
  t ← field m "transport" (de_enum [Hermes; Direct] transport_name);
  d ← map_get "desired" m;
  Some {| intent_id := i; transport := t; desired := d |}.

Definition ser_batch (b : FrozenBatch) : Value :=
  json_object [("format", Number b.(fb_format)); ("intents", Array (ser_intent <$> b.(fb_intents)));
               ("evidence", Object b.(fb_evidence))].
Definition de_batch (v : Value) : option FrozenBatch :=
  m ← as_struct ["format"; "intents"; "evidence"] v;
  f ← field m "format" de_u32;
  i ← field m "intents" (de_vec de_intent);
  e ← field m "evidence" as_object;
  Some {| fb_format := f; fb_intents := i; fb_evidence := e |}.

Definition ser_reference (r : IntentReference) : Value :=
  json_object [("schema_version", Number r.(ir_schema_version)); ("effect_id", Str r.(ir_effect_id));
               ("intent_id", Str r.(ir_intent_id)); ("sha256", Str r.(ir_sha256))].
Definition de_reference (v : Value) : option IntentReference :=
  m ← as_struct ["schema_version"; "effect_id"; "intent_id"; "sha256"] v;
  s ← field m "schema_version" de_u32;
  e ← field m "effect_id" as_str;
  i ← field m "intent_id" as_str;
  h ← field m "sha256" as_str;
  Some {| ir_schema_version := s; ir_effect_id := e; ir_intent_id := i; ir_sha256 := h |}.

(** ** Evidence bundles *)

(** Assignment through [get_mut]: the key is present. *)
Fixpoint map_set (k : string) (v : Value) (m : list (string * Value)) : list (string * Value) :=
  match m with
  | [] => []
  | (k', v') :: m => if String.eqb k k' then (k', v) :: m else (k', v') :: map_set k v m
  end.

(** [desired.get_mut("body").and_then(|b| b.get_mut("immutable_evidence_bundle"))]. *)
Definition bundle_of (d : Value) : option Value :=
  body ← get d "body"; get body "immutable_evidence_bundle".
Definition set_bundle (d bundle : Value) : Value :=
  match d with
  | Object m =>
      match map_get "body" m with
      | Some (Object b) =>
          Object (map_set "body" (Object (map_set "immutable_evidence_bundle" bundle b)) m)
      | _ => d
      end
  | _ => d
  end.

Section frozen.
Context `{Codec}.

Definition digest (v : Value) : string := (payload v).2.

(** One iteration of the loop of [freeze_inputs]. *)
Definition freeze_intent (i : DispatchIntent) (evidence : list (string * Value))
  : result StoreError (DispatchIntent * list (string * Value)) :=
  match bundle_of i.(desired) with
  | None => Ok (i, evidence)
  | Some bundle =>
      err_if (negb (is_object bundle)) (InvalidInput "dispatch evidence must be an object");;
      Ok ({| intent_id := i.(intent_id); transport := i.(transport);
             desired := set_bundle i.(desired) (json_object [("$ref", Str (digest bundle))]) |},
          map_insert (digest bundle) bundle evidence)
  end.
Fixpoint freeze_all (intents : list DispatchIntent) (evidence : list (string * Value))
  : result StoreError (list DispatchIntent * list (string * Value)) :=
  match intents with
  | [] => Ok ([], evidence)
  | i :: intents =>
      '(i, evidence) ← freeze_intent i evidence;
      '(intents, evidence) ← freeze_all intents evidence;
      Ok (i :: intents, evidence)
  end.
Definition freeze_inputs (intents : list DispatchIntent) : result StoreError Value :=
  '(intents, evidence) ← freeze_all intents [];
  Ok (ser_batch {| fb_format := 1; fb_intents := intents; fb_evidence := evidence |}).

(** One iteration of the last loop of [thaw_inputs]. *)
Definition thaw_intent (evidence : list (string * Value)) (i : DispatchIntent)
  : result StoreError DispatchIntent :=
  match bundle_of i.(desired) with
  | None => Ok i
  | Some bundle =>
      d ← ok_or (match bundle with
                 | Object [(k, Str d)] => if String.eqb k "$ref" then Some d else None
                 | _ => None
                 end) (InvalidInput "invalid frozen evidence reference");
      b ← ok_or (map_get d evidence) (InvalidInput "missing frozen dispatch evidence");
      Ok {| intent_id := i.(intent_id); transport := i.(transport);
            desired := set_bundle i.(desired) b |}
  end.
Definition thaw_inputs (value : Value) : result StoreError (list DispatchIntent) :=
  match value with
  | Array l => ok_or (mapM de_intent l) Serialization
  | _ =>
      batch ← ok_or (de_batch value) Serialization;
      err_if (negb (batch.(fb_format) =? 1)) (InvalidInput "unsupported frozen dispatch format");;
      err_if (negb (forallb (fun kv => is_object kv.2 && String.eqb (digest kv.2) kv.1)
                            batch.(fb_evidence)))
             (InvalidInput "frozen dispatch evidence digest differs");;
      try_map (thaw_intent batch.(fb_evidence)) batch.(fb_intents)
  end.

(** ** The batch of an effect *)

Definition read_intents (s : Store) (effect_id : string)
  : result StoreError (option (list DispatchIntent)) :=
  match List.find (fun b => String.eqb b.(b_effect_id) effect_id) s.(dispatch_batches) with
  | None => Ok None
  | Some b =>
      value ← parse_json b.(b_payload_json);
      err_if (negb (String.eqb (payload value).2 b.(b_payload_sha256)))
             (IdempotencyConflict effect_id);;
      Some <$> thaw_inputs value
  end.

Definition encode_output (s : Store) (effect_id : string) (t : DispatchTransport) (d : Value)
  : result StoreError Value :=
  err_if (is_some (get d REFERENCE)) (InvalidInput "dispatch outputs must contain resolved inputs");;
  intents ← read_intents s effect_id;
  match intents with
  | None => Ok d
  | Some intents =>
      i ← ok_or (List.find (fun i => bool_decide (i.(transport) = t)
                                     && bool_decide (i.(desired) = d)) intents)
                (IdempotencyConflict effect_id);
      Ok (json_object [(REFERENCE, ser_reference {|
        ir_schema_version := 1; ir_effect_id := effect_id; ir_intent_id := i.(intent_id);
        ir_sha256 := digest d |})])
  end.

Definition resolve_output (s : Store) (output_effect_id : string) (t : DispatchTransport) (value : Value)
  : result StoreError Value :=
  match get value REFERENCE with
  | None => Ok value
  | Some reference =>
      reference ← ok_or (de_reference reference) Serialization;
      let valid := match as_object value with Some m => Nat.eqb (length m) 1 | None => false end
        && (reference.(ir_schema_version) =? 1)
        && (negb (bool_decide (t = Hermes)) || String.eqb reference.(ir_effect_id) output_effect_id) in
      let same_case := exists_row (fun b => String.eqb b.(b_effect_id) reference.(ir_effect_id)
        && exists_row (fun o => String.eqb o.(o_case_key) b.(b_case_key)
                                && String.eqb o.(o_effect_id) output_effect_id) s.(outbox))
        s.(dispatch_batches) in
      err_if (negb valid || negb same_case)
             (InvalidInput "foreign or invalid frozen dispatch reference");;
      intents ← read_intents s reference.(ir_effect_id);
      i ← ok_or (intents ≫= List.find (fun i => String.eqb i.(intent_id) reference.(ir_intent_id)
                                                && bool_decide (i.(transport) = t)))
                (InvalidInput "missing frozen dispatch intent");
      err_if (negb (String.eqb (digest i.(desired)) reference.(ir_sha256)))
             (InvalidInput "frozen dispatch intent digest differs");;
      Ok i.(desired)
  end.

Definition require_dispatch_claim (s : Store) (claimed : ClaimedEffect) (now : Z)
  : result StoreError () :=
  revision ← sql_u64 claimed.(ce_state_revision);
  until ← sql_u64 claimed.(ce_lease_until);
  now ← sql_u64 now;
  let valid := exists_row (fun o =>
    String.eqb o.(o_effect_id) claimed.(ce_effect_id)
    && String.eqb o.(o_case_key) claimed.(ce_case_key)
    && (o.(o_state_revision) =? revision)
    && String.eqb o.(o_effect_type) claimed.(ce_effect_type)
    && null_eq o.(o_lease_owner) claimed.(ce_lease_owner)
    && null_eq o.(o_lease_until) until && (now <=? until)
    && is_none o.(o_delivered_at) && is_none o.(o_superseded_at)
    && exists_row (fun c => String.eqb c.(c_case_key) o.(o_case_key)
         && (c.(c_state_revision) =? o.(o_state_revision))
         && negb (one_of ["ABANDONED"; "BLOCKED"; "ESCALATED"; "COMPLETED"; "TAKEN_OVER"]
                    c.(c_state))) s.(cases)
    && one_of ["DISPATCH_PLANNER"; "DISPATCH_BUILDER"; "DISPATCH_REVIEWERS";
               "DISPATCH_FINAL_REVIEWER"] o.(o_effect_type)) s.(outbox) in
  err_if (negb valid) (LeaseLost claimed.(ce_effect_id)).

Definition freeze_dispatch_intents (claimed : ClaimedEffect) (intents : list DispatchIntent) (now : Z)
  (s : Store) : result StoreError (ApplyResult * Store) :=
  ensure_writable s;;
  err_if (bool_decide (intents = [])
          || negb (bool_decide (NoDup (intent_id <$> intents)))
          || existsb (fun i => blank i.(intent_id) || (512 <? len i.(intent_id))
                               || negb (is_object i.(desired))) intents)
    (InvalidInput "unique nonempty dispatch intents with object payloads are required");;
  let ordered := order_by (fun a b => str_leb a.(intent_id) b.(intent_id)) intents in
  frozen ← freeze_inputs ordered;
  let '(json, hash) := payload frozen in
  require_dispatch_claim s claimed now;;
  existing ← read_intents s claimed.(ce_effect_id);
  match existing with
  | Some existing =>
      err_if (negb (bool_decide (existing = ordered))) (IdempotencyConflict claimed.(ce_effect_id));;
      Ok (Replayed, s)
  | None =>
      revision ← sql_u64 claimed.(ce_state_revision);
      now ← sql_u64 now;
      s ← insert_batch_row {| b_effect_id := claimed.(ce_effect_id);
            b_case_key := claimed.(ce_case_key); b_state_revision := revision;
            b_payload_json := json; b_payload_sha256 := hash; b_frozen_at := now |} s;
      Ok (Applied, s)
  end.

Definition dispatch_intents (effect_id : string) (s : Store)
  : result StoreError (option (list DispatchIntent)) := read_intents s effect_id.

(** [INSERT ... ON CONFLICT(intent_id) DO NOTHING]; the composite primary key
    cannot clash when the intent is new. *)
Definition reserve_dispatch_create (claimed : ClaimedEffect) (intent : string) (now : Z) (s : Store)
  : result StoreError (CreateReservation * Store) :=
  ensure_writable s;;
  require_dispatch_claim s claimed now;;
  intents ← read_intents s claimed.(ce_effect_id);
  err_if (negb (match intents with
                | Some intents => existsb (fun i => String.eqb i.(intent_id) intent
                                                    && bool_decide (i.(transport) = Hermes)) intents
                | None => false
                end))
    (InvalidInput "create reservation requires a frozen Hermes intent");;
  until ← sql_u64 claimed.(ce_lease_until);
  now ← sql_u64 now;
  if exists_row (fun d => String.eqb d.(d_intent_id) intent) s.(dispatch_create_attempts)
  then Ok (Uncertain, s)
  else
    s ← constraint_if
          (negb (exists_row (fun b => String.eqb b.(b_effect_id) claimed.(ce_effect_id))
                   s.(dispatch_batches)))
          (set_dispatch_create_attempts
             (s.(dispatch_create_attempts) ++
              [{| d_effect_id := claimed.(ce_effect_id); d_intent_id := intent;
                  d_lease_owner := claimed.(ce_lease_owner); d_lease_until := until;
                  d_attempted_at := now |}]) s);
    Ok (Granted, s).
End frozen.

(** ** Replacing a bundle *)

Lemma map_get_set_eq k v w m : map_get k m = Some w -> map_get k (map_set k v m) = Some v.
Proof.
  induction m as [|[k' v'] m IH]; simpl; [done|].
  destruct (String.eqb k k') eqn:E; simpl; rewrite E; auto.
Qed.
Lemma map_set_set k v w m : map_set k v (map_set k w m) = map_set k v m.
Proof.
  induction m as [|[k' v'] m IH]; simpl; [done|].
  destruct (String.eqb k k') eqn:E; simpl; rewrite E; [done|by rewrite IH].
Qed.
Lemma map_set_get k v m : map_get k m = Some v -> map_set k v m = m.
Proof.
  induction m as [|[k' v'] m IH]; simpl; [done|].
  destruct (String.eqb k k') eqn:E; intros; simplify_eq; [done|by rewrite IH].
Qed.

Lemma bundle_of_inv d b :
  bundle_of d = Some b ->
  exists m body, d = Object m /\ map_get "body" m = Some (Object body)
    /\ map_get "immutable_evidence_bundle" body = Some b.
Proof.
  unfold bundle_of, get. destruct d as [| | | | | |m]; try done. simpl.
  destruct (map_get "body" m) as [[]|] eqn:E; try done. simpl. eauto.
Qed.

Lemma bundle_of_set d b c : bundle_of d = Some b -> bundle_of (set_bundle d c) = Some c.
Proof.
  intros (m & body & -> & Hm & Hb)%bundle_of_inv. unfold set_bundle, bundle_of, get.
  rewrite Hm. simpl. erewrite map_get_set_eq by done. simpl. by erewrite map_get_set_eq.
Qed.
Lemma set_bundle_set d b c e :
  bundle_of d = Some b -> set_bundle (set_bundle d c) e = set_bundle d e.
Proof.
  intros (m & body & -> & Hm & Hb)%bundle_of_inv. unfold set_bundle.
  rewrite Hm. erewrite map_get_set_eq by done. by rewrite !map_set_set.
Qed.
Lemma set_bundle_id d b : bundle_of d = Some b -> set_bundle d b = d.
Proof.
  intros (m & body & -> & Hm & Hb)%bundle_of_inv. unfold set_bundle.
  by rewrite Hm, (map_set_get _ _ body), (map_set_get _ _ m).
Qed.

Lemma map_insert_Forall (P : string * Value -> Prop) k v m :
  P (k, v) -> Forall P m -> Forall P (map_insert k v m).
Proof.
  intros Hk. induction 1 as [|[k' v'] m Hv Hm IH]; simpl; [by repeat constructor|].
  destruct (String.compare k k'); by repeat constructor.
Qed.
Lemma map_get_elem k v m : map_get k m = Some v -> (k, v) ∈ m.
Proof.
  induction m as [|[k' v'] m IH]; simpl; [done|].
  destruct (String.eqb_spec k k') as [->|]; intros; simplify_eq; set_solver.
Qed.

#[local] Arguments map_get : simpl never.
#[local] Arguments de_enum : simpl never.
#[local] Arguments de_vec : simpl never.
#[local] Arguments de_u32 : simpl never.

Lemma de_ser_intent i : de_intent (ser_intent i) = Some i.
Proof.
  unfold de_intent, ser_intent.
  rewrite as_struct_json_object by done; cbn [mbind option_bind]. fields. simpl.
  by destruct i as [? [] ?].
Qed.
Lemma de_ser_batch b : is_u32 b.(fb_format) -> de_batch (ser_batch b) = Some b.
Proof.
  intros Hf. unfold de_batch, ser_batch.
  rewrite as_struct_json_object by done; cbn [mbind option_bind]. fields. simpl.
  rewrite de_u32_number, de_vec_fmap by auto using de_ser_intent. by destruct b.
Qed.
Lemma de_ser_reference r : is_u32 r.(ir_schema_version) -> de_reference (ser_reference r) = Some r.
Proof.
  intros Hf. unfold de_reference, ser_reference.
  rewrite as_struct_json_object by done; cbn [mbind option_bind]. fields. simpl.
  rewrite de_u32_number by auto. by destruct r.
Qed.

Section frozen_facts.
Context `{Codec}.

(** The bundles of a batch have distinct digests unless they are equal. *)
Definition distinct_digests (intents : list DispatchIntent) : Prop :=
  forall i j b c, i ∈ intents -> j ∈ intents ->
    bundle_of i.(desired) = Some b -> bundle_of j.(desired) = Some c ->
    digest b = digest c -> b = c.

Context (U : Value -> Prop) (U_inj : forall b c, U b -> U c -> digest b = digest c -> b = c).

Definition stored_bundle (kv : string * Value) : Prop :=
  U kv.2 /\ is_object kv.2 = true /\ digest kv.2 = kv.1.

Lemma freeze_intent_spec i ev i' ev' :
  (forall b, bundle_of i.(desired) = Some b -> U b) ->
  Forall stored_bundle ev -> freeze_intent i ev = Ok (i', ev') ->
  Forall stored_bundle ev'
  /\ (forall d, is_Some (map_get d ev) -> is_Some (map_get d ev'))
  /\ (forall ev2, Forall stored_bundle ev2 ->
        (forall d, is_Some (map_get d ev') -> is_Some (map_get d ev2)) ->
        thaw_intent ev2 i' = Ok i).
Proof.
  intros HU Hev. unfold freeze_intent, thaw_intent.
  destruct (bundle_of (desired i)) as [b|] eqn:Hb; intros Hf; inv_ok.
  - bools. split_and!.
    + apply map_insert_Forall; [|done]. by split_and!; eauto.
    + intros d [w Hw]. rewrite map_get_insert. case_decide; eauto.
    + intros ev2 Hev2 Hsub. erewrite bundle_of_set by done. unfold json_object. simpl.
      destruct (Hsub (digest b)) as [w Hw]; [rewrite map_get_insert_eq; eauto|].
      rewrite Hw. simpl.
      assert (w = b) as ->.
      { apply map_get_elem in Hw. rewrite Forall_forall in Hev2.
        destruct (Hev2 _ Hw) as (HUw & _ & Hd); simpl in *. by apply U_inj; auto. }
      erewrite set_bundle_set, set_bundle_id by done. by destruct i.
  - split_and!; [done|done|]. intros. by rewrite Hb.
Qed.

Lemma freeze_all_spec l ev l' ev' :
  (forall i b, i ∈ l -> bundle_of i.(desired) = Some b -> U b) ->
  Forall stored_bundle ev -> freeze_all l ev = Ok (l', ev') ->
  Forall stored_bundle ev'
  /\ (forall d, is_Some (map_get d ev) -> is_Some (map_get d ev'))
  /\ (forall ev2, Forall stored_bundle ev2 ->
        (forall d, is_Some (map_get d ev') -> is_Some (map_get d ev2)) ->
        try_map (thaw_intent ev2) l' = Ok l).
Proof.
  revert ev l' ev'. induction l as [|i l IH]; intros ev l' ev' HU Hev; simpl.
  - intros [= <- <-]. auto.
  - intros Hf. inv_ok. destruct x as [i' ev1]. inv_ok. destruct x as [l1 ev2]. inv_ok.
    rename select (freeze_intent _ _ = _) into Hi. rename select (freeze_all _ _ = _) into Hl.
    apply freeze_intent_spec in Hi as (Hev1 & Hsub & Hi); [|by eauto using list_elem_of_here|done].
    apply IH in Hl as (Hev' & Hsub' & Hl); [|by eauto using list_elem_of_further|done].
    split_and!; [done|auto|]. intros ev3 Hev3 Hs. by simpl; rewrite Hi, Hl by eauto.
Qed.
End frozen_facts.

(** Freezing loses nothing.  When freezing a batch of dispatch intents
    succeeds, thawing the frozen value gives back exactly the batch, evidence
    bundles included, as long as two different bundles of that batch do not
    have the same digest. *)
Theorem thaw_freeze_inputs `{Codec} (intents : list DispatchIntent) (v : Value)
  (Hdistinct : distinct_digests intents) (Hfreeze : freeze_inputs intents = Ok v) :
  thaw_inputs v = Ok intents.
Proof.
  unfold freeze_inputs in Hfreeze. inv_ok. destruct x as [l ev]. inv_ok.
  apply (freeze_all_spec (fun b => exists i, i ∈ intents /\ bundle_of i.(desired) = Some b))
    in H0 as (Hev & _ & Hl); [|naive_solver|by eauto|done].
  unfold thaw_inputs. set (batch := {| fb_format := 1 |}).
  change (ser_batch batch) with (json_object [("format", Number 1);
    ("intents", Array (ser_intent <$> l)); ("evidence", Object ev)]).
  unfold json_object. cbn iota.
  change (Object (map_of _)) with (ser_batch batch).
  rewrite de_ser_batch by (unfold is_u32, u32_max; simpl; lia). simpl.
  replace (forallb _ ev) with true; [by apply Hl|].
  symmetry. apply forallb_forall. intros kv Hin. rewrite Forall_forall in Hev.
  destruct (Hev kv) as (_ & Ho & Hd); [by apply list_elem_of_In|]. by rewrite Ho, Hd, String.eqb_refl.
Qed.

Lemma thaw_freeze_inputs_witness :
  let bundle := Object [("base", Str "abc")] in
  let intent t name := {| intent_id := name; transport := t;
    desired := Object [("body", Object [("immutable_evidence_bundle", bundle)])] |} in
  let intents := [intent Hermes "a"; intent Direct "b"] in
  exists v, freeze_inputs (H := demo_codec) intents = Ok v
    /\ thaw_inputs (H := demo_codec) v = Ok intents.
Proof.
  intros bundle intent intents.
  destruct (freeze_inputs (H := demo_codec) intents) as [v|] eqn:E; [|by vm_compute in E].
  exists v. split; [done|]. apply (thaw_freeze_inputs (H := demo_codec)); [|exact E].
  intros i j b c _ _ _ _ Heq. by apply (to_string_inj (C := demo_codec)).
Defined.
