(* ===== verification/Recovery.v ===== *)
(** * Recovery: guards on the events that move a held case on

    pip-store's control.rs ([validate_resume]), reauthorization.rs,
    remediation_extension.rs, infrastructure_recovery.rs, follow_up_recovery.rs,
    native_review_retry.rs and review_coordination_recovery.rs.  Each [validate] runs inside the transaction that would
    apply the event, against the rows the case has at that point. *)

From S2P Require Import Prelude Text Json Sql Tables Inputs Frozen.
Open Scope Z_scope.

Definition PARKED_STATES : list string := ["ESCALATED"; "BLOCKED"; "WAITING_HUMAN"].

(** [Value == Option<&str>] and the like, on the accessors' results. *)
Definition same {A} `{EqDecision A} (a b : A) : bool := bool_decide (a = b).

Section recovery.
Context `{Codec}.

(** ** Shared queries *)

(** [SELECT payload_json FROM policies WHERE repository_id=?1 AND revision=?2]. *)
Definition find_policy (s : Store) (repository_id revision : Z) : option PolicyRow :=
  List.find (fun y => (y.(y_repository_id) =? repository_id) && (y.(y_revision) =? revision))
    s.(policies).
Definition policy_payload (s : Store) (repository_id revision : Z) : result StoreError Value :=
  repository_id ← sql_u64 repository_id;
  revision ← sql_u64 revision;
  row ← db (one_row (find_policy s repository_id revision));
  parse_json row.(y_payload_json).

(** [SELECT 1 FROM direct_attempts WHERE case_key=?1 AND status='RUNNING']. *)
Definition running_attempt (s : Store) (key : string) : bool :=
  exists_row (fun a => String.eqb a.(a_case_key) key && String.eqb a.(a_status) "RUNNING")
    s.(direct_attempts).
(** [SELECT 1 FROM outbox WHERE case_key=?1 AND lease_owner IS NOT NULL]. *)
Definition leased_effect (s : Store) (key : string) : bool :=
  exists_row (fun o => String.eqb o.(o_case_key) key && is_some o.(o_lease_owner)) s.(outbox).
(** A lease, or work that is still to be delivered, other than the escalation notice. *)
Definition outstanding_effect (s : Store) (key : string) : bool :=
  exists_row (fun o => String.eqb o.(o_case_key) key
    && (is_some o.(o_lease_owner) || is_some o.(o_lease_until)
        || (is_none o.(o_delivered_at) && is_none o.(o_superseded_at)
            && negb (String.eqb o.(o_effect_type) "ESCALATE")))) s.(outbox).
Definition run_with_role (s : Store) (key role : string) : bool :=
  exists_row (fun r => String.eqb r.(r_case_key) key && String.eqb r.(r_role) role) s.(runs).
Definition event_of_type (s : Store) (key type : string) : bool :=
  exists_row (fun e => String.eqb e.(e_case_key) key && String.eqb e.(e_event_type) type) s.(events).

(** The conditions every operator request shares: it binds the exact case,
    revision, head and event, gives a bounded reason, keeps plan, pull request
    and head, and carries one effect and nothing else. *)
Definition operator_request (current : StoredCase) (input : TransitionInput) (reason : string) : bool :=
  let payload := input.(ti_event).(ei_payload) in
  let request := index payload "request" in
  eq_int (index payload "schema_version") 1
  && eq_int (index payload "operator_uid") 0
  && eq_str (index request "case_key") current.(sc_case_key)
  && same (as_u64 (index request "expected_revision")) (Some current.(sc_state_revision))
  && eq_str (index request "request_id") input.(ti_event).(ei_event_id)
  && same (as_str (index request "expected_head")) current.(sc_head_sha)
  && is_some current.(sc_pr_number) && is_some current.(sc_head_sha)
  && negb (current.(sc_plan_version) =? 0)
  && (input.(ti_plan_version) =? current.(sc_plan_version))
  && same input.(ti_pr_number) current.(sc_pr_number)
  && same input.(ti_head_sha) current.(sc_head_sha)
  && negb (blank reason) && (len reason <=? 2000) && negb (has_control reason)
  && is_none input.(ti_run)
  && same (length input.(ti_evidence)) 0%nat && same (length input.(ti_findings)) 0%nat
  && same (length input.(ti_effects)) 1%nat.

Definition sole_effect (input : TransitionInput) (type : string) : bool :=
  match input.(ti_effects) with e :: _ => String.eqb e.(fi_effect_type) type | [] => false end.
Definition sole_effect_payload (input : TransitionInput) (expected : Value) : bool :=
  match input.(ti_effects) with e :: _ => same e.(fi_payload) expected | [] => false end.

(** The payload of the [OBSERVE_CI] effect a recovery may carry. *)
Definition observe_ci_payload (current : StoredCase) : Value :=
  json_object [("case_key", Str current.(sc_case_key));
    ("state_revision", Number (current.(sc_state_revision) + 1)); ("effect", Str "OBSERVE_CI");
    ("remediation_round", Number current.(sc_remediation_round));
    ("plan_version", Number current.(sc_plan_version));
    ("pr_number", opt_number current.(sc_pr_number)); ("head_sha", opt_str current.(sc_head_sha))].

(** ** control.rs *)

Definition validate_resume (s : Store) (current : StoredCase) (input : TransitionInput)
  : result StoreError Z :=
  let invalid := InvalidInput "invalid human resume" in
  let payload := input.(ti_event).(ei_payload) in
  revision ← ok_or (as_u64 (index payload "policy_revision")) invalid;
  err_if (negb (one_of PARKED_STATES current.(sc_state))
          || (revision <? current.(sc_policy_revision))
          || match as_u64 (index payload "granted_rounds") with
             | Some rounds => 10 <? rounds
             | None => true
             end) invalid;;
  repository ← sql_u64 current.(sc_repository_id);
  row ← sql_u64 revision;
  err_if (is_none (find_policy s repository row)) invalid;;
  Ok revision.

(** ** reauthorization.rs *)

Definition eligible (s : Store) (key : string) (label_id removal_id : Z) : result StoreError bool :=
  label_id ← sql_u64 label_id;
  removal_id ← sql_u64 removal_id;
  db (try_exists (fun c =>
    and_then (String.eqb c.(c_case_key) key && String.eqb c.(c_state) "ABANDONED")
    (try_exists (fun e =>
      and_then (String.eqb e.(e_case_key) c.(c_case_key)
                && (e.(e_state_revision) =? c.(c_state_revision)))
      (withdrawn ←
         and_then (String.eqb e.(e_event_type) "AUTHORIZATION_REMOVED" && is_none c.(c_pr_number)
                   && is_none c.(c_head_sha))
           (blockers ← json_each e.(e_payload_json) ["blockers"];
            Ok (existsb (fun v => sql_eq v (SText "REQUIRED_LABEL_MISSING")
                                  || sql_eq v (SText "LATEST_AUTHORIZATION_REMOVED")) blockers));
       and_then ((withdrawn || String.eqb e.(e_event_type) "HUMAN_ABANDONED")
                 && (removal_id <? label_id))
       (labels ← try_map (fun e => json_extract e.(e_payload_json) ["label_event_id"])
                   (List.filter (fun e => String.eqb e.(e_case_key) key
                      && one_of ["ISSUE_AUTHORIZED"; "ISSUE_REAUTHORIZED"] e.(e_event_type))
                      s.(events));
        let latest := match sql_max labels with SNull => SInt i64_max | v => v end in
        Ok (sql_lt latest (SInt removal_id)
            && negb (running_attempt s key) && negb (leased_effect s key)))))
      s.(events))) s.(cases)).

Definition reauthorization_validate (s : Store) (current : StoredCase) (input : TransitionInput)
  : result StoreError Z :=
  let payload := input.(ti_event).(ei_payload) in
  let number name := ok_or (as_u64 (index payload name))
                           (InvalidInput "missing reauthorization binding") in
  revision ← number "policy_revision";
  label ← number "label_event_id";
  removed ← number "removed_label_event_id";
  fresh ← eligible s current.(sc_case_key) label removed;
  err_if (negb fresh || negb (String.eqb input.(ti_next_state) "PLANNING")
          || negb (input.(ti_plan_version) =? current.(sc_plan_version))
          || negb (input.(ti_remediation_round) =? current.(sc_remediation_round))
          || negb (same input.(ti_pr_number) current.(sc_pr_number))
          || negb (same input.(ti_head_sha) current.(sc_head_sha))
          || is_some input.(ti_run)
          || negb (same (length input.(ti_findings)) 0%nat)
          || negb (same (length input.(ti_evidence)) 0%nat)
          || negb (same (length input.(ti_effects)) 1%nat)
          || negb (sole_effect input "DISPATCH_PLANNER")
          || negb (sole_effect_payload input (json_object
               [("case_key", Str current.(sc_case_key));
                ("state_revision", Number (current.(sc_state_revision) + 1));
                ("effect", Str "DISPATCH_PLANNER")])))
    (InvalidInput "reauthorization requires withdrawn or abandoned work, fresh label evidence and an unleased generation");;
  policy ← policy_payload s current.(sc_repository_id) revision;
  let intake := index policy "intake" in
  err_if (negb (same (index intake "label") (index payload "label"))
          || negb (match as_array (index intake "trusted_actor_ids") with
                   | Some actors => bool_decide (index payload "label_actor_id" ∈ actors)
                   | None => false
                   end))
    (InvalidInput "reauthorization label and actor must match the accepted policy");;
  Ok revision.

(** [SELECT MAX(created_at, COALESCE((SELECT MAX(observed_at) ...), created_at))]. *)
Definition opens_work_window (key : string) (e : EventRow) : result SqlError bool :=
  and_then (String.eqb e.(e_case_key) key)
  (if one_of ["ISSUE_REAUTHORIZED"; "HUMAN_RESUMED"] e.(e_event_type) then Ok true
   else and_then (String.eqb e.(e_event_type) "HUMAN_FEEDBACK_RECEIVED"
                  && null_eq e.(e_previous_state) "SHADOW_READY"
                  && String.eqb e.(e_next_state) "PLANNING"
                  && is_some e.(e_pr_number) && is_some e.(e_head_sha))
        (fresh ← json_is_bool true e.(e_payload_json) ["fresh_work_window"];
         and_then fresh (json_is_bool false e.(e_payload_json) ["bounded"]))).
Definition find_case (s : Store) (key : string) : option CaseRow :=
  List.find (fun c => String.eqb c.(c_case_key) key) s.(cases).
Definition try_u64 (value : Z) : result StoreError Z :=
  if 0 <=? value then Ok value else Err InvalidInteger.
Definition work_started_at (s : Store) (key : string) : result StoreError (option Z) :=
  match find_case s key with
  | None => Ok None
  | Some c =>
      opened ← db (try_filter (opens_work_window key) s.(events));
      let latest := default c.(c_created_at) (max_opt (map e_observed_at opened)) in
      Some <$> try_u64 (Z.max c.(c_created_at) latest)
  end.

(** ** remediation_extension.rs *)

(** [SELECT MAX(json_extract(payload_json,'$.deadline')) FROM events WHERE ...]. *)
Definition infrastructure_recovery_deadline (s : Store) (key : string) : result StoreError (option Z) :=
  deadlines ← db (try_map (fun e => json_extract e.(e_payload_json) ["deadline"])
                    (List.filter (fun e => String.eqb e.(e_case_key) key
                       && String.eqb e.(e_event_type) "INFRASTRUCTURE_RECOVERY_AUTHORIZED")
                       s.(events)));
  value ← db (get_opt_i64 (sql_max deadlines));
  Ok (option_map unsigned value).

Definition remediation_extension_validate (s : Store) (current : StoredCase) (input : TransitionInput)
  : result StoreError (Z * Store) :=
  let invalid := InvalidInput "invalid remediation budget extension" in
  let event := input.(ti_event).(ei_payload) in
  let new := index event "policy" in
  reason ← ok_or (as_str (index (index event "request") "reason")) invalid;
  revision ← ok_or (as_u64 (index new "revision")) invalid;
  new_limit ← ok_or (as_u64 (index new "max_remediation_rounds")) invalid;
  err_if (negb (String.eqb current.(sc_state) "ESCALATED")
          || negb (String.eqb input.(ti_next_state) "WAITING_CI")
          || negb (operator_request current input reason)
          || (revision <=? current.(sc_policy_revision)) || (u32_max <? new_limit)
          || negb (input.(ti_remediation_round) =? current.(sc_remediation_round))
          || negb (sole_effect input "OBSERVE_CI")) invalid;;
  old ← policy_payload s current.(sc_repository_id) current.(sc_policy_revision);
  old_limit ← ok_or (as_u64 (index old "max_remediation_rounds")) invalid;
  let expected := match old with
    | Object m => Object (map_insert "max_remediation_rounds" (Number new_limit)
                            (map_insert "revision" (Number revision) m))
    | v => v
    end in
  err_if (negb (same expected new) || (new_limit <=? old_limit)
          || (current.(sc_remediation_round) <? old_limit)
          || (new_limit <=? current.(sc_remediation_round))) invalid;;
  at_revision ← sql_u64 current.(sc_state_revision);
  observed_at ← sql_u64 input.(ti_observed_at);
  let eligible := exists_row (fun e => String.eqb e.(e_case_key) current.(sc_case_key)
      && (e.(e_state_revision) =? at_revision) && String.eqb e.(e_event_type) "CI_FAILED"
      && null_eq e.(e_previous_state) "WAITING_CI" && String.eqb e.(e_next_state) "ESCALATED"
      && (e.(e_observed_at) <=? observed_at)) s.(events)
    && negb (running_attempt s current.(sc_case_key))
    && negb (leased_effect s current.(sc_case_key)) in
  started ← work_started_at s current.(sc_case_key);
  started ← ok_or started invalid;
  recovery ← infrastructure_recovery_deadline s current.(sc_case_key);
  elapsed ← ok_or (as_u64 (index old "max_case_elapsed_seconds")) invalid;
  let deadline := Z.max (saturating_add u64_max started elapsed) (default 0 recovery) in
  err_if (negb eligible || (deadline <=? input.(ti_observed_at))) invalid;;
  let '(body, hash) := payload new in
  repository ← sql_u64 current.(sc_repository_id);
  row ← sql_u64 revision;
  match find_policy s repository row with
  | Some existing =>
      err_if (negb (String.eqb existing.(y_payload_sha256) hash)) invalid;;
      Ok (revision, s)
  | None =>
      s ← insert_policy_row {| y_repository_id := repository; y_revision := row;
            y_payload_json := body; y_payload_sha256 := hash; y_accepted_at := observed_at |} s;
      Ok (revision, s)
  end.

(** ** infrastructure_recovery.rs *)

Definition infrastructure_recovery_validate (s : Store) (current : StoredCase) (input : TransitionInput)
  : result StoreError () :=
  let invalid := InvalidInput "invalid infrastructure recovery authorization" in
  let payload := input.(ti_event).(ei_payload) in
  reason ← ok_or (as_str (index (index payload "request") "reason")) invalid;
  err_if (negb (one_of ["ESCALATED"; "BLOCKED"] current.(sc_state))
          || negb (String.eqb input.(ti_next_state) "REMEDIATING")
          || negb (operator_request current input reason)
          || negb (same (checked_add u32_max current.(sc_remediation_round) 1)
                        (Some input.(ti_remediation_round)))
          || negb (sole_effect input "DISPATCH_BUILDER")) invalid;;
  at_revision ← sql_u64 current.(sc_state_revision);
  observed_at ← sql_u64 input.(ti_observed_at);
  recoverable ← db (try_exists (fun e =>
    and_then (String.eqb e.(e_case_key) current.(sc_case_key)
              && (e.(e_state_revision) =? at_revision) && (e.(e_observed_at) <=? observed_at))
    (bound ← and_then (String.eqb e.(e_event_type) "OPERATIONAL_BOUND_REACHED"
                       && String.eqb e.(e_next_state) "ESCALATED"
                       && (null_eq e.(e_previous_state) "REVIEWING"
                           || null_eq e.(e_previous_state) "FINAL_REVIEW"))
               (b ← json_extract e.(e_payload_json) ["bound"];
                Ok (sql_eq b (SText "ELAPSED_TIME")));
     if (bound : bool) then Ok true else
     and_then (String.eqb e.(e_event_type) "BLOCKED" && String.eqb e.(e_next_state) "BLOCKED"
               && null_eq e.(e_previous_state) "REMEDIATING")
       (role ← json_extract e.(e_payload_json) ["role"];
        outcome ← json_extract e.(e_payload_json) ["outcome"];
        Ok (sql_eq role (SText "builder") && sql_eq outcome (SText "BLOCKED"))))) s.(events));
  policy ← policy_payload s current.(sc_repository_id) current.(sc_policy_revision);
  duration ← ok_or (match as_u64 (index policy "max_case_elapsed_seconds") with
                    | Some n => if 0 <? n then Some n else None
                    | None => None
                    end) invalid;
  deadline ← ok_or (checked_add u64_max input.(ti_observed_at) duration) invalid;
  max_rounds ← ok_or (as_u64 (index policy "max_remediation_rounds")) invalid;
  err_if (negb recoverable || running_attempt s current.(sc_case_key)
          || negb (run_with_role s current.(sc_case_key) "builder")
          || negb (same (as_u64 (index payload "deadline")) (Some deadline))
          || (max_rounds <? input.(ti_remediation_round))) invalid.

(** ** follow_up_recovery.rs *)

(** The disposition comment that marked the pull request ready for review. *)
Definition ready_comment (t f r : EventRow) (p : PolicyRow) (e : EvidenceRow) : result SqlError bool :=
  let number path := json_extract e.(v_payload_json) path in
  and_then (String.eqb e.(v_case_key) t.(e_case_key)
            && String.eqb e.(v_kind) "GITHUB_DISPOSITION_COMMENT"
            && (r.(e_observed_at) <=? e.(v_observed_at)) && (e.(v_observed_at) <=? f.(e_observed_at)))
  (effect ← number ["effect_type"];
   actor ← number ["actor_id"];
   automation ← json_extract p.(y_payload_json) ["github"; "automation_actor_id"];
   target ← number ["target_number"];
   pr ← number ["ready_for_review"; "pull_request_number"];
   head ← number ["ready_for_review"; "head_sha"];
   mutation ← number ["ready_for_review"; "mutation"];
   Ok (sql_eq effect (SText "NOTIFY_SHADOW_READY") && sql_eq actor automation
       && sql_eq target (sql_int t.(e_pr_number)) && sql_eq pr (sql_int t.(e_pr_number))
       && sql_eq head (sql_text t.(e_head_sha)) && sql_eq mutation (SText "updated"))).

Definition follow_up_recovery_validate (s : Store) (current : StoredCase) (input : TransitionInput)
  : result StoreError () :=
  let invalid := InvalidInput "invalid false-takeover recovery" in
  let key := current.(sc_case_key) in
  reason ← ok_or (as_str (index (index input.(ti_event).(ei_payload) "request") "reason")) invalid;
  err_if (negb (String.eqb current.(sc_state) "TAKEN_OVER")
          || negb (String.eqb input.(ti_next_state) "PLANNING")
          || negb (operator_request current input reason)
          || negb (input.(ti_remediation_round) =? current.(sc_remediation_round))
          || negb (sole_effect input "DISPATCH_PLANNER")) invalid;;
  at_revision ← sql_u64 current.(sc_state_revision);
  repository ← sql_u64 current.(sc_repository_id);
  policy ← sql_u64 current.(sc_policy_revision);
  pr ← sql_u64_opt current.(sc_pr_number);
  let event_at n := List.filter (fun e => String.eqb e.(e_case_key) key
                                          && (e.(e_state_revision) =? n)) s.(events) in
  let takeover t f r p :=
    and_then (String.eqb t.(e_event_type) "HUMAN_TOOK_OVER"
              && null_eq t.(e_previous_state) "PLANNING" && String.eqb t.(e_next_state) "TAKEN_OVER"
              && String.eqb f.(e_event_type) "HUMAN_FEEDBACK_RECEIVED"
              && null_eq f.(e_previous_state) "SHADOW_READY" && String.eqb f.(e_next_state) "PLANNING"
              && String.eqb r.(e_next_state) "SHADOW_READY" && String.eqb r.(e_event_type) "READY"
              && both_eq t.(e_head_sha) f.(e_head_sha) && both_eq f.(e_head_sha) r.(e_head_sha)
              && both_eq t.(e_head_sha) current.(sc_head_sha)
              && both_eq t.(e_pr_number) f.(e_pr_number) && both_eq f.(e_pr_number) r.(e_pr_number)
              && both_eq t.(e_pr_number) pr
              && (t.(e_plan_version) =? f.(e_plan_version))
              && (f.(e_plan_version) =? r.(e_plan_version))
              && (t.(e_policy_revision) =? f.(e_policy_revision))
              && (f.(e_policy_revision) =? r.(e_policy_revision)))
    (blockers ← json_extract t.(e_payload_json) ["blockers"];
     bounded ← json_extract f.(e_payload_json) ["bounded"];
     and_then (sql_eq blockers (SJson (Array [Str "PR_LEFT_DRAFT_STATE"]))
               && sql_eq bounded (SInt 0) && negb (running_attempt s key))
       (try_exists (ready_comment t f r p) s.(evidence))) in
  proven ← db (try_exists (fun t => try_exists (fun f => try_exists (fun r =>
    try_exists (fun p =>
      and_then ((p.(y_repository_id) =? repository) && (p.(y_revision) =? policy))
        (takeover t f r p)) s.(policies))
    (event_at (at_revision - 2))) (event_at (at_revision - 1))) (event_at at_revision));
  err_if (negb proven) invalid.

(** ** native_review_retry.rs *)

(** The join of the stopping event, the failed projection and its dispatch. *)
Definition stopped_review (s : Store) (key : string) (at_revision : Z)
  : result SqlError (list (EventRow * ProjectionRow)) :=
  let stops := List.filter (fun e => String.eqb e.(e_case_key) key
    && (e.(e_state_revision) =? at_revision)
    && String.eqb e.(e_event_type) "OPERATIONAL_BOUND_REACHED"
    && null_eq e.(e_previous_state) "REVIEWING" && String.eqb e.(e_next_state) "ESCALATED")
    s.(events) in
  try_filter (fun '(stop, p) =>
    task ← json_extract stop.(e_payload_json) ["details"; "task_id"];
    bound ← json_extract stop.(e_payload_json) ["bound"];
    source ← json_extract stop.(e_payload_json) ["details"; "source"];
    Ok (String.eqb p.(p_case_key) stop.(e_case_key) && sql_eq (sql_text p.(p_task_id)) task
        && exists_row (fun o => String.eqb o.(o_effect_id) p.(p_effect_id)
             && String.eqb o.(o_case_key) stop.(e_case_key)
             && String.eqb o.(o_effect_type) "DISPATCH_REVIEWERS" && is_some o.(o_delivered_at))
             s.(outbox)
        && sql_eq bound (SText "PROVIDER_FAILURES")
        && sql_eq source (SText "hermes-circuit-breaker")
        && negb (exists_row (fun v => String.eqb v.(v_case_key) key
             && String.eqb v.(v_kind) "HERMES_RESULT" && String.eqb v.(v_source) p.(p_projection_id))
             s.(evidence))
        && negb (exists_row (fun r => String.eqb r.(r_case_key) key
             && null_eq p.(p_task_id) r.(r_task_id)) s.(runs))
        && negb (running_attempt s key) && negb (outstanding_effect s key)
        && negb (event_of_type s key "NATIVE_REVIEW_RETRY_AUTHORIZED")
        && run_with_role s key "planner" && run_with_role s key "builder"))
    (stop ← stops; p ← s.(task_projections); [(stop, p)]).

Definition native_review_retry_validate (s : Store) (current : StoredCase) (input : TransitionInput)
  : result StoreError () :=
  let invalid := InvalidInput "invalid native review retry" in
  reason ← ok_or (as_str (index (index input.(ti_event).(ei_payload) "request") "reason")) invalid;
  err_if (negb (String.eqb current.(sc_state) "ESCALATED")
          || negb (String.eqb input.(ti_next_state) "WAITING_CI")
          || negb (operator_request current input reason)
          || negb (input.(ti_remediation_round) =? current.(sc_remediation_round))
          || negb (sole_effect input "OBSERVE_CI")) invalid;;
  at_revision ← sql_u64 current.(sc_state_revision);
  rows ← db (stopped_review s current.(sc_case_key) at_revision);
  '(stop, p) ← ok_or (head rows) invalid;
  stop ← parse_json stop.(e_payload_json);
  raw ← parse_json p.(p_desired_json);
  desired ← resolve_output s p.(p_effect_id) Hermes raw;
  let body := index desired "body" in
  let details := index stop "details" in
  err_if (negb (eq_str (index body "role") "reviewer-general")
          || negb (eq_str (index body "review_mode") "required")
          || negb (same (as_str (index body "expected_head_sha")) current.(sc_head_sha))
          || negb (same (as_u64 (index body "plan_version")) (Some current.(sc_plan_version)))
          || negb (same (as_u64 (index body "state_revision"))
                     (if 1 <=? current.(sc_state_revision)
                      then Some (current.(sc_state_revision) - 1) else None))
          || negb (same (index details "profile") (index desired "assignee"))
          || negb (same (index details "provider") (index desired "provider"))
          || negb (same (index details "model") (index desired "model"))
          || negb (same (index stop "limit") (index desired "max_retries"))
          || negb (same (index stop "observed") (index stop "limit"))) invalid;;
  err_if (negb (sole_effect_payload input (observe_ci_payload current))) invalid.

(** ** review_coordination_recovery.rs *)

(** An operator-cleared hold on feedback that was already attempted. *)
Definition cleared_feedback_hold (s : Store) (current : StoredCase) (at_revision : Z)
  : result StoreError bool :=
  let row := List.find (fun e => String.eqb e.(e_case_key) current.(sc_case_key)
    && (e.(e_state_revision) =? at_revision)
    && String.eqb e.(e_event_type) "OPERATIONAL_BOUND_REACHED"
    && null_eq e.(e_previous_state) "FINAL_REVIEW" && String.eqb e.(e_next_state) "ESCALATED")
    s.(events) in
  stop ← match row with Some e => parse_json e.(e_payload_json) | None => Ok Null end;
  Ok (eq_str (index stop "reason") "REVIEW_FEEDBACK_ALREADY_ATTEMPTED"
      && same (as_str (index stop "head_sha")) current.(sc_head_sha)
      && same (as_u64 (index stop "pull_request_number")) current.(sc_pr_number)
      && match as_array (index stop "blockers") with
         | Some blockers => negb (same (length blockers) 0%nat)
             && forallb (fun b => match as_str b with
                                  | Some b => starts_with "UNRESOLVED_REVIEW_THREAD:" b
                                  | None => false
                                  end) blockers
         | None => false
         end).

(** A required reviewer job that was superseded by a peer's result before it
    ever started. *)
Definition lost_peer_rows (s : Store) (key : string) : list OutboxRow :=
  List.filter (fun o => String.eqb o.(o_case_key) key
    && String.eqb o.(o_effect_type) "RUN_DIRECT_WORKER"
    && is_none o.(o_delivered_at) && is_some o.(o_superseded_at)
    && exists_row (fun stop => null_eq o.(o_superseded_by_event_id) stop.(e_event_id)
         && String.eqb stop.(e_case_key) o.(o_case_key)
         && String.eqb stop.(e_event_type) "REVIEW_RECORDED") s.(events)
    && exists_row (fun origin => String.eqb origin.(e_case_key) o.(o_case_key)
         && (origin.(e_state_revision) =? o.(o_state_revision))
         && String.eqb origin.(e_next_state) "REVIEWING") s.(events)
    && negb (exists_row (fun a => String.eqb a.(a_effect_id) o.(o_effect_id)) s.(direct_attempts))
    && negb (exists_row (fun e => String.eqb e.(e_case_key) o.(o_case_key)
         && (o.(o_state_revision) <? e.(e_state_revision))
         && negb (String.eqb e.(e_event_type) "REVIEW_RECORDED")) s.(events))) s.(outbox).
Definition lost_peer (s : Store) (current : StoredCase) : result StoreError bool :=
  matches ← try_map (fun o =>
    raw ← parse_json o.(o_payload_json);
    desired ← resolve_output s o.(o_effect_id) Direct raw;
    let body := index desired "body" in
    Ok (match as_str (index body "role") with
        | Some role => one_of ["reviewer-general"; "reviewer-secperf"] role
        | None => false
        end
        && eq_str (index body "review_mode") "required"
        && same (as_str (index body "expected_head_sha")) current.(sc_head_sha)
        && same (as_u64 (index body "plan_version")) (Some current.(sc_plan_version))
        && same (as_u64 (index body "remediation_round")) (Some current.(sc_remediation_round))
        && same (as_u64 (index body "pr_number")) current.(sc_pr_number)))
    (lost_peer_rows s current.(sc_case_key));
  Ok (existsb id matches).

Definition review_coordination_recovery_validate (s : Store) (current : StoredCase)
  (input : TransitionInput) : result StoreError () :=
  let invalid := InvalidInput "invalid review coordination recovery" in
  let key := current.(sc_case_key) in
  reason ← ok_or (as_str (index (index input.(ti_event).(ei_payload) "request") "reason")) invalid;
  err_if (negb (one_of ["REVIEWING"; "ESCALATED"] current.(sc_state))
          || negb (String.eqb input.(ti_next_state) "WAITING_CI")
          || negb (operator_request current input reason)
          || negb (input.(ti_remediation_round) =? current.(sc_remediation_round))
          || negb (sole_effect input "OBSERVE_CI")) invalid;;
  err_if (running_attempt s key || outstanding_effect s key
          || event_of_type s key "REVIEW_COORDINATION_RECOVERY_AUTHORIZED"
          || negb (run_with_role s key "builder")) invalid;;
  recoverable ←
    (if String.eqb current.(sc_state) "ESCALATED" then
       at_revision ← sql_u64 current.(sc_state_revision);
       cleared_feedback_hold s current at_revision
     else lost_peer s current);
  err_if (negb recoverable || negb (sole_effect_payload input (observe_ci_payload current))) invalid.
End recovery.

(** ** Recoveries keep the work they recover *)

Section recovery_facts.
Context `{Codec}.

Lemma operator_request_bindings current input reason :
  operator_request current input reason = true ->
  input.(ti_plan_version) = current.(sc_plan_version)
  /\ input.(ti_pr_number) = current.(sc_pr_number) /\ input.(ti_head_sha) = current.(sc_head_sha)
  /\ input.(ti_run) = None /\ input.(ti_evidence) = [] /\ input.(ti_findings) = []
  /\ length input.(ti_effects) = 1%nat
  /\ as_u64 (index (index input.(ti_event).(ei_payload) "request") "expected_revision")
     = Some current.(sc_state_revision)
  /\ as_str (index (index input.(ti_event).(ei_payload) "request") "expected_head") = current.(sc_head_sha).
Proof.
  unfold operator_request, same. intros Hr. bools.
  repeat match goal with Hx : length ?l = 0%nat |- _ => apply nil_length_inv in Hx end.
  destruct (ti_run input); [done|]. split_and!; done.
Qed.

(** What every operator recovery has in common: a well-formed request that
    keeps the case's bindings, and no attempt still running. *)
Definition recovers (s : Store) (current : StoredCase) (input : TransitionInput) : Prop :=
  (exists reason, operator_request current input reason = true)
  /\ running_attempt s current.(sc_case_key) = false.

Lemma infrastructure_recovers s current input u :
  infrastructure_recovery_validate s current input = Ok u -> recovers s current input.
Proof. unfold infrastructure_recovery_validate. intros. open_ok. bools. split; eauto. Qed.
Lemma coordination_recovers s current input u :
  review_coordination_recovery_validate s current input = Ok u -> recovers s current input.
Proof. unfold review_coordination_recovery_validate. intros. open_ok. bools. split; eauto. Qed.
Lemma extension_recovers s current input r :
  remediation_extension_validate s current input = Ok r -> recovers s current input.
Proof.
  unfold remediation_extension_validate. intros. open_ok. bools. split; eauto.
Qed.
Lemma native_recovers s current input u :
  native_review_retry_validate s current input = Ok u -> recovers s current input.
Proof.
  unfold native_review_retry_validate. intros. open_store. bools. split; [by eauto|].
  rename select (stopped_review _ _ _ = Ok _) into Hrows. rename select (head _ = Some _) into Hh.
  destruct x2 as [|row rows]; [done|]. injection Hh as ->.
  eapply try_filter_elem in Hrows as [_ Hp]; [|apply list_elem_of_here]. inv_store. by bools.
Qed.
Lemma follow_up_recovers s current input u :
  follow_up_recovery_validate s current input = Ok u -> recovers s current input.
Proof.
  unfold follow_up_recovery_validate. intros. open_store. bools. split; [by eauto|].
  rename select (try_exists _ _ = Ok _) into Hp. simplify_eq.
  repeat (apply try_exists_true in Hp as (? & _ & Hp)). apply and_then_true in Hp as [_ Hp].
  apply and_then_true in Hp as [_ Hp]. inv_store.
  rename select (and_then _ _ = Ok true) into Hr. apply and_then_true in Hr as [Hr _]. by bools.
Qed.
End recovery_facts.
