(* ===== verification/StoreCore.v ===== *)
(** * StoreCore: cases, their immutable events, and the transition transaction

    pip-store's lib.rs: [create_case], [apply_transition_batch] with all its
    inserts, the case projection and its reconstruction from history, policies,
    and the queries over a case's history.

    A method that runs one transaction (or one statement) is a function
    [Store -> result StoreError (A * Store)]: [Err] carries no store because
    the transaction is rolled back.  [apply_transition_batch] looks for
    replayed events before it opens its transaction, so it is split into
    [batch_replay], which reads the store as it is at that moment, and
    [batch_transaction], which runs on the store as the transaction finds it;
    the theorems about racing commands quantify over both. *)

From S2P Require Import Prelude Text Json Sql Tables Inputs Frozen Recovery.
Open Scope Z_scope.

Section store_core.
Context `{Codec}.

(** ** Validation and replay *)

Definition validate_common (case_key : string) (event : EventInput) : result StoreError () :=
  err_if (blank case_key || blank event.(ei_event_id) || blank event.(ei_event_type)
          || negb (is_object event.(ei_payload)))
    (InvalidInput "case, event identity, type, and object payload are required").

Definition find_event (s : Store) (id : string) : option EventRow :=
  List.find (fun e => String.eqb e.(e_event_id) id) s.(events).
Definition existing_event (s : Store) (id : string) : option (string * string) :=
  (fun e => (e.(e_case_key), e.(e_command_sha256))) <$> find_event s id.

Definition replay_or_conflict (existing : string * string) (case_key command_hash event_id : string)
  : result StoreError ApplyResult :=
  if String.eqb existing.1 case_key && String.eqb existing.2 command_hash then Ok Replayed
  else Err (IdempotencyConflict event_id).

(** ** The case projection *)

Definition stored_case (c : CaseRow) : StoredCase := {|
  sc_case_key := c.(c_case_key); sc_repository_id := unsigned c.(c_repository_id);
  sc_issue_number := unsigned c.(c_issue_number);
  sc_workflow_version := u32_or_default c.(c_workflow_version); sc_state := c.(c_state);
  sc_state_revision := unsigned c.(c_state_revision);
  sc_policy_revision := unsigned c.(c_policy_revision);
  sc_remediation_round := u32_or_default c.(c_remediation_round);
  sc_plan_version := u32_or_default c.(c_plan_version);
  sc_pr_number := option_map unsigned c.(c_pr_number); sc_head_sha := c.(c_head_sha) |}.
Definition query_case (s : Store) (key : string) : option StoredCase :=
  stored_case <$> find_case s key.

(** [ORDER BY state_revision DESC LIMIT 1] over a selection of events. *)
Definition latest_event (l : list EventRow) : option EventRow :=
  head (order_by (fun a b => b.(e_state_revision) <=? a.(e_state_revision)) l).

Definition case_at_revision_limit (s : Store) (key : string) (revision : option Z)
  : result StoreError (option StoredCase) :=
  revision ← sql_u64_opt revision;
  let rows := List.filter (fun e => String.eqb e.(e_case_key) key
                                    && unless revision e.(e_state_revision)) s.(events) in
  Ok (match latest_event rows, find_case s key with
      | Some e, Some c => Some {|
          sc_case_key := key; sc_repository_id := unsigned c.(c_repository_id);
          sc_issue_number := unsigned c.(c_issue_number);
          sc_workflow_version := u32_or_default c.(c_workflow_version);
          sc_state := e.(e_next_state); sc_state_revision := unsigned e.(e_state_revision);
          sc_policy_revision := unsigned e.(e_policy_revision);
          sc_remediation_round := u32_or_default e.(e_remediation_round);
          sc_plan_version := u32_or_default e.(e_plan_version);
          sc_pr_number := option_map unsigned e.(e_pr_number); sc_head_sha := e.(e_head_sha) |}
      | _, _ => None
      end).
Definition reconstruct_case (key : string) (s : Store) : result StoreError (option StoredCase) :=
  case_at_revision_limit s key None.
Definition case_at_revision (key : string) (revision : Z) (s : Store)
  : result StoreError (option StoredCase) := case_at_revision_limit s key (Some revision).

Definition projection_matches_history (key : string) (s : Store) : result StoreError bool :=
  rebuilt ← reconstruct_case key s;
  Ok (bool_decide (query_case s key = rebuilt)).

(** [UPDATE cases SET ... WHERE p]: the CHECKs apply to every row it writes. *)
Definition update_cases (p : CaseRow -> bool) (f : CaseRow -> CaseRow) (s : Store)
  : result StoreError (Z * Store) :=
  let '(rows, updated) := update_where p f s.(cases) in
  constraint_if (exists_row (fun c => p c && negb (case_check (f c))) s.(cases))
    (updated, set_cases rows s).

Definition repair_case_projection (key : string) (s : Store) : result StoreError (() * Store) :=
  ensure_writable s;;
  rebuilt ← reconstruct_case key s;
  rebuilt ← ok_or rebuilt (MissingCase key);
  revision ← sql_u64 rebuilt.(sc_state_revision);
  policy ← sql_u64 rebuilt.(sc_policy_revision);
  pr ← sql_u64_opt rebuilt.(sc_pr_number);
  '(updated, s) ← update_cases (fun c => String.eqb c.(c_case_key) key)
    (fun c => {| c_case_key := c.(c_case_key); c_repository_id := c.(c_repository_id);
       c_issue_number := c.(c_issue_number); c_workflow_version := c.(c_workflow_version);
       c_state := rebuilt.(sc_state); c_state_revision := revision; c_policy_revision := policy;
       c_remediation_round := rebuilt.(sc_remediation_round);
       c_plan_version := rebuilt.(sc_plan_version); c_pr_number := pr;
       c_head_sha := rebuilt.(sc_head_sha); c_created_at := c.(c_created_at);
       c_updated_at := c.(c_updated_at) |}) s;
  err_if (negb (updated =? 1)) (MissingCase key);;
  Ok ((), s).

(** ** Inserting the rows of a transition *)

Record EventRecord := {
  er_case_key : string; er_revision : Z; er_observed_at : Z; er_event : EventInput;
  er_command_hash : string; er_previous_state : option string; er_next_state : string;
  er_policy_revision : Z; er_remediation_round : Z; er_plan_version : Z;
  er_pr_number : option Z; er_head_sha : option string;
}.

Definition event_row (r : EventRecord) : EventRow := {|
  e_event_id := r.(er_event).(ei_event_id); e_case_key := r.(er_case_key);
  e_state_revision := r.(er_revision); e_observed_at := r.(er_observed_at);
  e_event_type := r.(er_event).(ei_event_type);
  e_payload_json := (payload r.(er_event).(ei_payload)).1;
  e_payload_sha256 := (payload r.(er_event).(ei_payload)).2;
  e_command_sha256 := r.(er_command_hash); e_previous_state := r.(er_previous_state);
  e_next_state := r.(er_next_state); e_policy_revision := r.(er_policy_revision);
  e_remediation_round := r.(er_remediation_round); e_plan_version := r.(er_plan_version);
  e_pr_number := r.(er_pr_number); e_head_sha := r.(er_head_sha) |}.

Definition insert_event (r : EventRecord) (s : Store) : result StoreError Store :=
  sql_u64 r.(er_revision);; sql_u64 r.(er_observed_at);; sql_u64 r.(er_policy_revision);;
  sql_u64_opt r.(er_pr_number);;
  insert_event_row (event_row r) s.

Definition insert_run (case_key event_id : string) (accepted_at : Z) (run : RunInput) (s : Store)
  : result StoreError Store :=
  err_if (blank run.(ri_run_id) || blank run.(ri_task_id) || blank run.(ri_role))
    (InvalidInput "run identity and role are required");;
  accepted_at ← sql_u64 accepted_at;
  let '(payload_json, payload_hash) := payload run.(ri_payload) in
  insert_run_row {| r_run_id := run.(ri_run_id); r_case_key := case_key; r_event_id := event_id;
    r_task_id := run.(ri_task_id); r_role := run.(ri_role); r_payload_json := payload_json;
    r_payload_sha256 := payload_hash; r_accepted_at := accepted_at |} s.

Fixpoint insert_evidence (case_key : string) (observed_at : Z) (items : list EvidenceInput) (s : Store)
  : result StoreError Store :=
  match items with
  | [] => Ok s
  | item :: items =>
      err_if (blank item.(vi_evidence_id) || blank item.(vi_kind) || blank item.(vi_source)
              || negb (is_object item.(vi_payload)))
        (InvalidInput "evidence identity, kind, source, and object payload are required");;
      at_ ← sql_u64 observed_at;
      let '(payload_json, payload_hash) := payload item.(vi_payload) in
      s ← insert_evidence_row {| v_evidence_id := item.(vi_evidence_id); v_case_key := case_key;
            v_kind := item.(vi_kind); v_source := item.(vi_source); v_observed_at := at_;
            v_payload_json := payload_json; v_payload_sha256 := payload_hash |} s;
      insert_evidence case_key observed_at items s
  end.

Fixpoint insert_findings (case_key event_id : string) (recorded_at : Z) (items : list FindingInput)
  (s : Store) : result StoreError Store :=
  match items with
  | [] => Ok s
  | item :: items =>
      err_if (blank item.(ni_finding_id) || blank item.(ni_origin_role)
              || negb (len item.(ni_reviewed_head_sha) =? 40) || negb (is_object item.(ni_payload)))
        (InvalidInput "finding identity, origin, exact head, and object payload are required");;
      at_ ← sql_u64 recorded_at;
      let '(payload_json, payload_hash) := payload item.(ni_payload) in
      s ← insert_finding_row {| f_finding_id := item.(ni_finding_id); f_case_key := case_key;
            f_origin_role := item.(ni_origin_role);
            f_reviewed_head_sha := item.(ni_reviewed_head_sha); f_payload_json := payload_json;
            f_payload_sha256 := payload_hash; f_recorded_at := at_;
            f_event_id := Some event_id |} s;
      insert_findings case_key event_id recorded_at items s
  end.

Definition outbox_row (case_key : string) (state_revision created_at : Z) (e : EffectInput) : OutboxRow := {|
  o_effect_id := e.(fi_effect_id); o_case_key := case_key; o_state_revision := state_revision;
  o_effect_type := e.(fi_effect_type); o_payload_json := (payload e.(fi_payload)).1;
  o_payload_sha256 := (payload e.(fi_payload)).2; o_created_at := created_at;
  o_lease_owner := None; o_lease_until := None; o_delivered_at := None;
  o_superseded_at := None; o_superseded_by_event_id := None |}.

Fixpoint insert_effects (case_key : string) (state_revision created_at : Z) (effects : list EffectInput)
  (s : Store) : result StoreError Store :=
  match effects with
  | [] => Ok s
  | e :: effects =>
      err_if (blank e.(fi_effect_id) || blank e.(fi_effect_type))
        (InvalidInput "effect identity and type are required");;
      sql_u64 state_revision;; sql_u64 created_at;;
      s ← insert_outbox_row (outbox_row case_key state_revision created_at e) s;
      insert_effects case_key state_revision created_at effects s
  end.

(** ** create_case *)

Definition new_case_row (input : NewCase) : CaseRow := {|
  c_case_key := input.(nc_case_key); c_repository_id := input.(nc_repository_id);
  c_issue_number := input.(nc_issue_number); c_workflow_version := input.(nc_workflow_version);
  c_state := input.(nc_initial_state); c_state_revision := 1;
  c_policy_revision := input.(nc_policy_revision); c_remediation_round := 0; c_plan_version := 0;
  c_pr_number := None; c_head_sha := None; c_created_at := input.(nc_observed_at);
  c_updated_at := input.(nc_observed_at) |}.

Definition create_event (input : NewCase) : EventRecord := {|
  er_case_key := input.(nc_case_key); er_revision := 1; er_observed_at := input.(nc_observed_at);
  er_event := input.(nc_event); er_command_hash := hash_serialized (ser_new_case input);
  er_previous_state := None; er_next_state := input.(nc_initial_state);
  er_policy_revision := input.(nc_policy_revision); er_remediation_round := 0;
  er_plan_version := 0; er_pr_number := None; er_head_sha := None |}.

Definition create_case (input : NewCase) (s : Store) : result StoreError (ApplyResult * Store) :=
  ensure_writable s;;
  validate_common input.(nc_case_key) input.(nc_event);;
  match existing_event s input.(nc_event).(ei_event_id) with
  | Some existing =>
      r ← replay_or_conflict existing input.(nc_case_key) (hash_serialized (ser_new_case input))
            input.(nc_event).(ei_event_id);
      Ok (r, s)
  | None =>
      sql_u64 input.(nc_repository_id);; sql_u64 input.(nc_issue_number);;
      sql_u64 input.(nc_policy_revision);; sql_u64 input.(nc_observed_at);;
      s ← insert_case_row (new_case_row input) s;
      s ← insert_event (create_event input) s;
      s ← insert_effects input.(nc_case_key) 1 input.(nc_observed_at) input.(nc_effects) s;
      Ok (Applied, s)
  end.

(** ** apply_transition_batch *)

(** The loop that checks the batch before anything is read. *)
Fixpoint check_batch (case_key : string) (seen : list string) (previous : option Z)
  (inputs : list TransitionInput) : result StoreError () :=
  match inputs with
  | [] => Ok ()
  | i :: inputs =>
      validate_common i.(ti_case_key) i.(ti_event);;
      let invalid := InvalidInput "batch transitions must be unique, consecutive, and for one case" in
      err_if (negb (String.eqb i.(ti_case_key) case_key)
              || bool_decide (i.(ti_event).(ei_event_id) ∈ seen)) invalid;;
      match previous with
      | None => Ok ()
      | Some p =>
          next ← ok_or (checked_add u64_max p 1) InvalidInteger;
          err_if (negb (i.(ti_expected_revision) =? next)) invalid
      end;;
      check_batch case_key (i.(ti_event).(ei_event_id) :: seen) (Some i.(ti_expected_revision)) inputs
  end.

(** Guards that depend on the event: the policy revision the case has
    afterwards, and the store (a budget extension records a policy). *)
Definition authorize_event (s : Store) (current : StoredCase) (input : TransitionInput)
  : result StoreError (Z * Store) :=
  let type := input.(ti_event).(ei_event_type) in
  err_if (one_of ["BUILDER_RETRY_AUTHORIZED"; "REVIEW_RETRY_AUTHORIZED"; "PLANNER_RETRY_AUTHORIZED"] type)
    (InvalidInput "retired operator retry event");;
  (if String.eqb type "INFRASTRUCTURE_RECOVERY_AUTHORIZED"
   then infrastructure_recovery_validate s current input else Ok ());;
  (if String.eqb type "FOLLOW_UP_RECOVERY_AUTHORIZED"
   then follow_up_recovery_validate s current input else Ok ());;
  (if String.eqb type "NATIVE_REVIEW_RETRY_AUTHORIZED"
   then native_review_retry_validate s current input else Ok ());;
  (if String.eqb type "REVIEW_COORDINATION_RECOVERY_AUTHORIZED"
   then review_coordination_recovery_validate s current input else Ok ());;
  if String.eqb type "ISSUE_REAUTHORIZED" then
    revision ← reauthorization_validate s current input; Ok (revision, s)
  else if String.eqb type "REMEDIATION_BUDGET_EXTENDED" then
    remediation_extension_validate s current input
  else if String.eqb type "HUMAN_RESUMED" then
    revision ← validate_resume s current input; Ok (revision, s)
  else Ok (current.(sc_policy_revision), s).

(** The projection update, guarded by the revision it was computed from. *)
Definition advance_case (input : TransitionInput) (next_revision policy_revision : Z) (c : CaseRow)
  : CaseRow := {|
  c_case_key := c.(c_case_key); c_repository_id := c.(c_repository_id);
  c_issue_number := c.(c_issue_number); c_workflow_version := c.(c_workflow_version);
  c_state := input.(ti_next_state); c_state_revision := next_revision;
  c_policy_revision := policy_revision; c_remediation_round := input.(ti_remediation_round);
  c_plan_version := input.(ti_plan_version); c_pr_number := input.(ti_pr_number);
  c_head_sha := input.(ti_head_sha); c_created_at := c.(c_created_at);
  c_updated_at := input.(ti_observed_at) |}.
Definition project_transition (input : TransitionInput) (next_revision policy_revision : Z) (s : Store)
  : result StoreError Store :=
  sql_u64 next_revision;; sql_u64_opt input.(ti_pr_number);; sql_u64 input.(ti_observed_at);;
  sql_u64 input.(ti_expected_revision);; sql_u64 policy_revision;;
  '(updated, s) ← update_cases
    (fun c => String.eqb c.(c_case_key) input.(ti_case_key)
              && (c.(c_state_revision) =? input.(ti_expected_revision)))
    (advance_case input next_revision policy_revision) s;
  err_if (negb (updated =? 1))
    (StaleRevision input.(ti_expected_revision) input.(ti_expected_revision));;
  Ok s.

(** Events that also withdraw the detached comparison observers. *)
Definition observer_stops : list string :=
  ["AUTHORIZATION_REMOVED"; "HUMAN_TOOK_OVER"; "ABANDON"; "BLOCKED"; "BLOCKED_UNEXPECTED_MODEL";
   "OPERATIONAL_BOUND_REACHED"; "HUMAN_MERGED"; "MERGE_VERIFIED"].

(** A recorded review that leaves the case where it was keeps its peers' jobs. *)
Definition keeps_peers (current : StoredCase) (input : TransitionInput) : bool :=
  String.eqb input.(ti_event).(ei_event_type) "REVIEW_RECORDED"
  && String.eqb current.(sc_state) "REVIEWING"
  && String.eqb input.(ti_next_state) current.(sc_state)
  && (input.(ti_plan_version) =? current.(sc_plan_version))
  && (input.(ti_remediation_round) =? current.(sc_remediation_round))
  && bool_decide (input.(ti_pr_number) = current.(sc_pr_number))
  && bool_decide (input.(ti_head_sha) = current.(sc_head_sha)).

(** The outbox rows an event supersedes; [evs] is the events table, the new
    event included. *)
Definition supersedes (evs : list EventRow) (current : StoredCase) (input : TransitionInput)
  (next_revision : Z) (o : OutboxRow) : bool :=
  String.eqb o.(o_case_key) input.(ti_case_key) && (o.(o_state_revision) <? next_revision)
  && (negb (String.eqb o.(o_effect_type) "RUN_DIRECT_OBSERVER")
      || one_of observer_stops input.(ti_event).(ei_event_type))
  && negb (String.eqb o.(o_effect_type) "RUN_DIRECT_WORKER" && keeps_peers current input
           && exists_row (fun e => String.eqb e.(e_case_key) o.(o_case_key)
                && (e.(e_state_revision) =? o.(o_state_revision))
                && String.eqb e.(e_next_state) "REVIEWING") evs
           && negb (exists_row (fun e => String.eqb e.(e_case_key) o.(o_case_key)
                && (o.(o_state_revision) <? e.(e_state_revision))
                && negb (String.eqb e.(e_event_type) "REVIEW_RECORDED")) evs))
  && is_none o.(o_delivered_at) && is_none o.(o_superseded_at).
Definition superseded (observed_at : Z) (event_id : string) (o : OutboxRow) : OutboxRow := {|
  o_effect_id := o.(o_effect_id); o_case_key := o.(o_case_key);
  o_state_revision := o.(o_state_revision); o_effect_type := o.(o_effect_type);
  o_payload_json := o.(o_payload_json); o_payload_sha256 := o.(o_payload_sha256);
  o_created_at := o.(o_created_at); o_lease_owner := None; o_lease_until := None;
  o_delivered_at := o.(o_delivered_at); o_superseded_at := Some observed_at;
  o_superseded_by_event_id := Some event_id |}.
Definition supersede_outbox (current : StoredCase) (input : TransitionInput) (next_revision : Z)
  (s : Store) : Store :=
  set_outbox (update_where (supersedes s.(events) current input next_revision)
                (superseded input.(ti_observed_at) input.(ti_event).(ei_event_id)) s.(outbox)).1 s.

Definition transition_event (input : TransitionInput) (current : StoredCase)
  (next_revision policy_revision : Z) : EventRecord := {|
  er_case_key := input.(ti_case_key); er_revision := next_revision;
  er_observed_at := input.(ti_observed_at); er_event := input.(ti_event);
  er_command_hash := hash_serialized (ser_transition input);
  er_previous_state := Some current.(sc_state); er_next_state := input.(ti_next_state);
  er_policy_revision := policy_revision; er_remediation_round := input.(ti_remediation_round);
  er_plan_version := input.(ti_plan_version); er_pr_number := input.(ti_pr_number);
  er_head_sha := input.(ti_head_sha) |}.

(** One transition of the batch, inside the transaction. *)
Definition apply_one (fault : option FaultPoint) (input : TransitionInput) (s : Store)
  : result StoreError Store :=
  current ← ok_or (query_case s input.(ti_case_key)) (MissingCase input.(ti_case_key));
  err_if (negb (current.(sc_state_revision) =? input.(ti_expected_revision)))
    (StaleRevision input.(ti_expected_revision) current.(sc_state_revision));;
  next_revision ← ok_or (checked_add u64_max input.(ti_expected_revision) 1) InvalidInteger;
  '(policy_revision, s) ← authorize_event s current input;
  s ← insert_event (transition_event input current next_revision policy_revision) s;
  inject fault AfterEvent;;
  s ← match input.(ti_run) with
      | Some run => insert_run input.(ti_case_key) input.(ti_event).(ei_event_id)
                      input.(ti_observed_at) run s
      | None => Ok s
      end;
  inject fault AfterRun;;
  s ← insert_evidence input.(ti_case_key) input.(ti_observed_at) input.(ti_evidence) s;
  s ← insert_findings input.(ti_case_key) input.(ti_event).(ei_event_id) input.(ti_observed_at)
        input.(ti_findings) s;
  inject fault AfterEvidence;;
  s ← project_transition input next_revision policy_revision s;
  inject fault AfterProjection;;
  sql_u64 input.(ti_observed_at);; sql_u64 next_revision;;
  let s := supersede_outbox current input next_revision s in
  s ← insert_effects input.(ti_case_key) next_revision input.(ti_observed_at) input.(ti_effects) s;
  inject fault AfterOutbox;;
  Ok s.

Fixpoint batch_transaction (fault : option FaultPoint) (inputs : list TransitionInput) (s : Store)
  : result StoreError Store :=
  match inputs with
  | [] => Ok s
  | input :: rest =>
      s ← apply_one fault input s;
      (match rest with [] => Ok () | _ => inject fault BetweenTransitions end);;
      batch_transaction fault rest s
  end.

(** Everything before the transaction: [Some r] is an early return. *)
Definition batch_replay (inputs : list TransitionInput) (s : Store)
  : result StoreError (option ApplyResult) :=
  ensure_writable s;;
  first ← ok_or (head inputs) (InvalidInput "at least one consecutive transition is required");
  check_batch first.(ti_case_key) [] None inputs;;
  let existing := map (fun i => existing_event s i.(ti_event).(ei_event_id)) inputs in
  if forallb is_some existing then
    try_map (fun '(i, e) => replay_or_conflict (default ("", "") e) i.(ti_case_key)
                              (hash_serialized (ser_transition i)) i.(ti_event).(ei_event_id))
      (zip inputs existing);;
    Ok (Some Replayed)
  else
    match List.find (fun i => is_some (existing_event s i.(ti_event).(ei_event_id))) inputs with
    | Some i => Err (IdempotencyConflict i.(ti_event).(ei_event_id))
    | None => Ok None
    end.

Definition apply_transition_batch (inputs : list TransitionInput) (fault : option FaultPoint) (s : Store)
  : result StoreError (ApplyResult * Store) :=
  early ← batch_replay inputs s;
  match early with
  | Some r => Ok (r, s)
  | None => s ← batch_transaction fault inputs s; Ok (Applied, s)
  end.

Definition apply_transition (input : TransitionInput) (fault : option FaultPoint) (s : Store)
  : result StoreError (ApplyResult * Store) := apply_transition_batch [input] fault s.

(** ** Policies *)

Definition record_policy (input : PolicyInput) (s : Store) : result StoreError (ApplyResult * Store) :=
  ensure_writable s;;
  err_if ((input.(yi_repository_id) =? 0) || (input.(yi_revision) =? 0)
          || negb (is_object input.(yi_payload)))
    (InvalidInput "policy repository, revision, and object payload are required");;
  let '(payload_json, payload_hash) := payload input.(yi_payload) in
  repository ← sql_u64 input.(yi_repository_id);
  revision ← sql_u64 input.(yi_revision);
  match find_policy s repository revision with
  | Some existing =>
      if String.eqb existing.(y_payload_sha256) payload_hash then Ok (Replayed, s)
      else Err (IdempotencyConflict ("policy:" +:+ show input.(yi_repository_id) +:+ ":"
                                     +:+ show input.(yi_revision)))
  | None =>
      accepted_at ← sql_u64 input.(yi_accepted_at);
      s ← insert_policy_row {| y_repository_id := repository; y_revision := revision;
            y_payload_json := payload_json; y_payload_sha256 := payload_hash;
            y_accepted_at := accepted_at |} s;
      Ok (Applied, s)
  end.

Definition accepted_policy (repository_id revision : Z) (s : Store) : result StoreError Value :=
  policy_payload s repository_id revision.

(** The policy a job was frozen under: that of the exact event, never a later one. *)
Definition accepted_policy_at_case_revision (key : string) (state_revision : Z) (s : Store)
  : result StoreError Value :=
  revision ← sql_u64 state_revision;
  '(c, e) ← db (one_row (head (
     e ← List.filter (fun e => String.eqb e.(e_case_key) key && (e.(e_state_revision) =? revision))
           s.(events);
     c ← List.filter (fun c => String.eqb c.(c_case_key) e.(e_case_key)) s.(cases);
     [(c, e)])));
  accepted_policy (unsigned c.(c_repository_id)) (unsigned e.(e_policy_revision)) s.
End store_core.
