(* ===== verification/Outbox.v ===== *)
(** * Outbox: leases on pending effects and their delivery

    pip-store's lib.rs: claiming an effect, acknowledging and releasing it, and
    the three ways of completing it together with what it produced (evidence, a
    review observation, dispatch outputs). *)

From S2P Require Import Prelude Text Json Sql Tables Inputs Frozen StoreCore.
Open Scope Z_scope.

(** The row with another lease, or delivered. *)
Definition with_lease (owner : option string) (until : option Z) (o : OutboxRow) : OutboxRow := {|
  o_effect_id := o.(o_effect_id); o_case_key := o.(o_case_key);
  o_state_revision := o.(o_state_revision); o_effect_type := o.(o_effect_type);
  o_payload_json := o.(o_payload_json); o_payload_sha256 := o.(o_payload_sha256);
  o_created_at := o.(o_created_at); o_lease_owner := owner; o_lease_until := until;
  o_delivered_at := o.(o_delivered_at); o_superseded_at := o.(o_superseded_at);
  o_superseded_by_event_id := o.(o_superseded_by_event_id) |}.
Definition with_delivery (now : Z) (o : OutboxRow) : OutboxRow := {|
  o_effect_id := o.(o_effect_id); o_case_key := o.(o_case_key);
  o_state_revision := o.(o_state_revision); o_effect_type := o.(o_effect_type);
  o_payload_json := o.(o_payload_json); o_payload_sha256 := o.(o_payload_sha256);
  o_created_at := o.(o_created_at); o_lease_owner := None; o_lease_until := None;
  o_delivered_at := Some now; o_superseded_at := o.(o_superseded_at);
  o_superseded_by_event_id := o.(o_superseded_by_event_id) |}.

(** [delivered_at IS NULL AND superseded_at IS NULL]. *)
Definition pending (o : OutboxRow) : bool := is_none o.(o_delivered_at) && is_none o.(o_superseded_at).
(** [lease_until IS NULL OR lease_until < now]. *)
Definition lease_free (now : Z) (o : OutboxRow) : bool :=
  match o.(o_lease_until) with None => true | Some t => t <? now end.
(** [lease_until >= now]. *)
Definition lease_live (now : Z) (o : OutboxRow) : bool :=
  match o.(o_lease_until) with None => false | Some t => now <=? t end.

(** [UPDATE outbox SET ... WHERE p] with the lease CHECK. *)
Definition update_outbox (p : OutboxRow -> bool) (f : OutboxRow -> OutboxRow) (s : Store)
  : result StoreError (Z * Store) :=
  let '(rows, updated) := update_where p f s.(outbox) in
  constraint_if (exists_row (fun o => p o && negb (outbox_check (f o))) s.(outbox))
    (updated, set_outbox rows s).

Definition find_outbox (s : Store) (effect_id : string) : option OutboxRow :=
  List.find (fun o => String.eqb o.(o_effect_id) effect_id) s.(outbox).

Section outbox.
Context `{Codec}.

(** ** Claiming *)

(** The SELECT of [claim_effect_inner]: claimable rows in queue order. *)
Definition claimable (now : Z) (repository_id : option Z) (case_key : option string) (s : Store)
  : list OutboxRow :=
  order_by (fun a b => key_leb (a.(o_created_at), a.(o_effect_id)) (b.(o_created_at), b.(o_effect_id)))
    (List.filter (fun o => pending o && lease_free now o
       && match repository_id with
          | None => true
          | Some r => exists_row (fun c => String.eqb c.(c_case_key) o.(o_case_key)
                                           && (c.(c_repository_id) =? r)) s.(cases)
          end
       && unless case_key o.(o_case_key)) s.(outbox)).

Definition claim_effect_inner (owner : string) (now lease_seconds : Z) (effect_types : option (list string))
  (repository_id : option Z) (case_key : option string) (s : Store)
  : result StoreError (option ClaimedEffect * Store) :=
  ensure_writable s;;
  err_if (blank owner || (lease_seconds =? 0) || null_eq repository_id 0
          || match case_key with Some key => blank key | None => false end)
    (InvalidInput "owner, positive lease and valid repository scope are required");;
  err_if (match effect_types with
          | None => false
          | Some types => bool_decide (types = []) || negb (bool_decide (NoDup types))
                          || existsb blank types
          end)
    (InvalidInput "unique nonempty effect types are required");;
  lease_until ← ok_or (checked_add u64_max now lease_seconds) InvalidInteger;
  now_ ← sql_u64 now;
  repository ← sql_u64_opt repository_id;
  let candidate := List.find (fun o => match effect_types with
                                       | None => true
                                       | Some allowed => one_of allowed o.(o_effect_type)
                                       end) (claimable now_ repository case_key s) in
  match candidate with
  | None => Ok (None, s)
  | Some o =>
      until ← sql_u64 lease_until;
      '(updated, s) ← update_outbox (fun x => String.eqb x.(o_effect_id) o.(o_effect_id)
                                       && pending x && lease_free now_ x)
                        (with_lease (Some owner) (Some until)) s;
      if negb (updated =? 1) then Ok (None, s)
      else
        value ← parse_json o.(o_payload_json);
        err_if (negb (String.eqb (payload value).2 o.(o_payload_sha256)))
          (IdempotencyConflict o.(o_effect_id));;
        value ← (if one_of ["RUN_DIRECT_WORKER"; "RUN_DIRECT_OBSERVER"] o.(o_effect_type)
                 then resolve_output s o.(o_effect_id) Direct value else Ok value);
        Ok (Some {| ce_effect_id := o.(o_effect_id); ce_case_key := o.(o_case_key);
                    ce_state_revision := unsigned o.(o_state_revision);
                    ce_effect_type := o.(o_effect_type); ce_payload := value;
                    ce_lease_owner := owner; ce_lease_until := lease_until |}, s)
  end.

Definition claim_effect (owner : string) (now lease_seconds : Z) :=
  claim_effect_inner owner now lease_seconds None None None.
Definition claim_effect_matching (owner : string) (now lease_seconds : Z) (types : list string) :=
  claim_effect_inner owner now lease_seconds (Some types) None None.
Definition claim_repository_case_effect_matching (repository_id : Z) (case_key : option string)
  (owner : string) (now lease_seconds : Z) (types : list string) :=
  claim_effect_inner owner now lease_seconds (Some types) (Some repository_id) case_key.
Definition claim_repository_effect_matching (repository_id : Z) (owner : string)
  (now lease_seconds : Z) (types : list string) :=
  claim_repository_case_effect_matching repository_id None owner now lease_seconds types.

(** ** Acknowledging and releasing *)

(** [effect_id = ?, lease_owner = ?, lease_until >= now], still pending. *)
Definition holds_lease (effect_id owner : string) (now : Z) (o : OutboxRow) : bool :=
  String.eqb o.(o_effect_id) effect_id && null_eq o.(o_lease_owner) owner && lease_live now o
  && pending o.
Definition owns_pending (effect_id owner : string) (o : OutboxRow) : bool :=
  String.eqb o.(o_effect_id) effect_id && null_eq o.(o_lease_owner) owner && pending o.

Definition acknowledge_effect (effect_id owner : string) (now : Z) (s : Store)
  : result StoreError (() * Store) :=
  ensure_writable s;;
  now ← sql_u64 now;
  '(updated, s) ← update_outbox (holds_lease effect_id owner now) (with_delivery now) s;
  err_if (negb (updated =? 1)) (LeaseLost effect_id);;
  Ok ((), s).

Definition release_effect (effect_id owner : string) (s : Store) : result StoreError (() * Store) :=
  ensure_writable s;;
  err_if (blank effect_id || blank owner) (InvalidInput "effect id and lease owner are required");;
  '(updated, s) ← update_outbox (owns_pending effect_id owner) (with_lease None None) s;
  err_if (negb (updated =? 1)) (LeaseLost effect_id);;
  Ok ((), s).

(** ** Completing with evidence *)

Definition find_evidence (s : Store) (id : string) : option EvidenceRow :=
  List.find (fun v => String.eqb v.(v_evidence_id) id) s.(evidence).

Definition complete_effect_evidence (effect_id owner : string) (now : Z) (e : EvidenceInput) (s : Store)
  : result StoreError (ApplyResult * Store) :=
  ensure_writable s;;
  err_if (blank effect_id || blank owner || blank e.(vi_evidence_id) || blank e.(vi_kind)
          || blank e.(vi_source) || negb (is_object e.(vi_payload)))
    (InvalidInput "effect, owner, and object evidence identity are required");;
  let payload_json := to_string e.(vi_payload) in
  o ← ok_or (find_outbox s effect_id) (LeaseLost effect_id);
  let existing := (fun v => (v.(v_case_key), v.(v_kind), v.(v_source), v.(v_payload_json)))
                    <$> find_evidence s e.(vi_evidence_id) in
  if is_some o.(o_delivered_at) then
    err_if (negb (bool_decide (existing = Some (o.(o_case_key), e.(vi_kind), e.(vi_source), payload_json))))
      (IdempotencyConflict e.(vi_evidence_id));;
    Ok (Replayed, s)
  else
    err_if (is_some o.(o_superseded_at) || is_some existing) (IdempotencyConflict e.(vi_evidence_id));;
    now_ ← sql_u64 now;
    err_if (negb (exists_row (holds_lease effect_id owner now_) s.(outbox))) (LeaseLost effect_id);;
    s ← insert_evidence o.(o_case_key) now [e] s;
    '(updated, s) ← update_outbox (holds_lease effect_id owner now_) (with_delivery now_) s;
    err_if (negb (updated =? 1)) (LeaseLost effect_id);;
    Ok (Applied, s).

(** ** Completing a detached review observation *)

Record ReviewObservationInput := {
  oi_observation_id : string; oi_task_id : string; oi_reviewer_id : string; oi_role : string;
  oi_review_mode : string; oi_plan_version : Z; oi_review_round : Z; oi_pr_number : Z;
  oi_reviewed_head_sha : string; oi_payload : Value;
}.

Definition valid_identifier (value : string) (max : Z) : bool :=
  negb (is_empty value) && (len value <=? max)
  && forallb (fun b => is_ascii_alphanumeric b || (b =? 45) || (b =? 95) || (b =? 46) || (b =? 58))
       (bytes value).
Definition valid_sha256 (value : string) : bool := hex_string 64 value.

Definition valid_observation (o : ReviewObservationInput) : bool :=
  negb (blank o.(oi_observation_id)) && negb (blank o.(oi_task_id))
  && valid_identifier o.(oi_reviewer_id) 128
  && one_of ["reviewer-general"; "reviewer-secperf"] o.(oi_role)
  && one_of ["advisory"; "shadow"] o.(oi_review_mode)
  && negb (o.(oi_plan_version) =? 0) && negb (o.(oi_review_round) =? 0)
  && negb (o.(oi_pr_number) =? 0) && hex_string 40 o.(oi_reviewed_head_sha)
  && is_object o.(oi_payload).

Definition observation_row (i : ReviewObservationInput) (effect_id case_key : string) (now : Z)
  : ObservationRow := {|
  n_observation_id := i.(oi_observation_id); n_effect_id := effect_id; n_case_key := case_key;
  n_task_id := i.(oi_task_id); n_reviewer_id := i.(oi_reviewer_id); n_role := i.(oi_role);
  n_review_mode := i.(oi_review_mode); n_plan_version := i.(oi_plan_version);
  n_review_round := i.(oi_review_round); n_pr_number := i.(oi_pr_number);
  n_reviewed_head_sha := i.(oi_reviewed_head_sha); n_payload_json := (payload i.(oi_payload)).1;
  n_payload_sha256 := (payload i.(oi_payload)).2; n_recorded_at := now |}.

(** Equality in everything but the time of recording. *)
Definition same_observation (a b : ObservationRow) : bool :=
  String.eqb a.(n_observation_id) b.(n_observation_id) && String.eqb a.(n_effect_id) b.(n_effect_id)
  && String.eqb a.(n_case_key) b.(n_case_key) && String.eqb a.(n_task_id) b.(n_task_id)
  && String.eqb a.(n_reviewer_id) b.(n_reviewer_id) && String.eqb a.(n_role) b.(n_role)
  && String.eqb a.(n_review_mode) b.(n_review_mode) && (a.(n_plan_version) =? b.(n_plan_version))
  && (a.(n_review_round) =? b.(n_review_round)) && (a.(n_pr_number) =? b.(n_pr_number))
  && String.eqb a.(n_reviewed_head_sha) b.(n_reviewed_head_sha)
  && String.eqb a.(n_payload_json) b.(n_payload_json)
  && String.eqb a.(n_payload_sha256) b.(n_payload_sha256).

Definition complete_review_observation_effect (effect_id owner : string) (now : Z)
  (i : ReviewObservationInput) (s : Store) : result StoreError (ApplyResult * Store) :=
  ensure_writable s;;
  err_if (blank effect_id || blank owner || negb (valid_observation i))
    (InvalidInput "valid detached review observation identity and payload are required");;
  o ← ok_or (find_outbox s effect_id) (LeaseLost effect_id);
  let conflict := IdempotencyConflict i.(oi_observation_id) in
  if is_some o.(o_delivered_at) then
    sql_u64 i.(oi_pr_number);;
    err_if (negb (exists_row (same_observation (observation_row i effect_id o.(o_case_key) now))
                    s.(review_observations))) conflict;;
    Ok (Replayed, s)
  else
    err_if (negb (String.eqb o.(o_effect_type) "RUN_DIRECT_OBSERVER") || is_some o.(o_superseded_at)
            || exists_row (fun n => String.eqb n.(n_observation_id) i.(oi_observation_id))
                 s.(review_observations)) conflict;;
    err_if (negb (exists_row (owns_pending effect_id owner) s.(outbox))) (LeaseLost effect_id);;
    sql_u64 i.(oi_pr_number);;
    now ← sql_u64 now;
    s ← insert_observation_row (observation_row i effect_id o.(o_case_key) now) s;
    '(updated, s) ← update_outbox (owns_pending effect_id owner) (with_delivery now) s;
    err_if (negb (updated =? 1)) (LeaseLost effect_id);;
    Ok (Applied, s).

(** ** Completing a dispatch with its outputs *)

Definition valid_projection (source : string) (i : TaskProjectionInput) : bool :=
  negb (blank i.(pi_projection_id)) && negb (blank i.(pi_effect_id)) && negb (blank i.(pi_board))
  && negb (blank i.(pi_task_id)) && is_object i.(pi_desired) && is_object i.(pi_observed)
  && String.eqb i.(pi_effect_id) source.
Definition valid_job (source : string) (j : EffectInput) : bool :=
  negb (blank j.(fi_effect_id)) && negb (String.eqb j.(fi_effect_id) source)
  && one_of ["RUN_DIRECT_WORKER"; "RUN_DIRECT_OBSERVER"] j.(fi_effect_type)
  && is_object j.(fi_payload)
  && bool_decide ((get j.(fi_payload) "source_effect_id" ≫= as_str) = Some source).

(** The replay comparison of one projection and of one direct job. *)
Definition same_projection (s : Store) (i : TaskProjectionInput) (observed_json : string)
  : result StoreError bool :=
  match List.find (fun p => String.eqb p.(p_projection_id) i.(pi_projection_id)) s.(task_projections) with
  | None => Ok false
  | Some p =>
      task ← ok_or p.(p_task_id) (Database InvalidColumnType);
      observed ← ok_or p.(p_observed_json) (Database InvalidColumnType);
      if String.eqb p.(p_effect_id) i.(pi_effect_id) && String.eqb p.(p_board) i.(pi_board)
         && String.eqb task i.(pi_task_id) && String.eqb observed observed_json
      then
        raw ← parse_json p.(p_desired_json);
        desired ← resolve_output s p.(p_effect_id) Hermes raw;
        Ok (bool_decide (desired = i.(pi_desired)))
      else Ok false
  end.
Definition same_job (s : Store) (source : OutboxRow) (j : EffectInput) : result StoreError bool :=
  match find_outbox s j.(fi_effect_id) with
  | None => Ok false
  | Some o =>
      value ← parse_json o.(o_payload_json);
      if String.eqb o.(o_case_key) source.(o_case_key)
         && (o.(o_state_revision) =? source.(o_state_revision))
         && String.eqb o.(o_effect_type) j.(fi_effect_type)
         && String.eqb (payload value).2 o.(o_payload_sha256)
      then
        desired ← resolve_output s j.(fi_effect_id) Direct value;
        Ok (bool_decide (desired = j.(fi_payload)))
      else Ok false
  end.

Fixpoint insert_projections (case_key : string) (now : Z) (l : list (TaskProjectionInput * string * string))
  (s : Store) : result StoreError Store :=
  match l with
  | [] => Ok s
  | (i, desired_json, observed_json) :: l =>
      err_if (exists_row (fun p => String.eqb p.(p_projection_id) i.(pi_projection_id))
                s.(task_projections)) (IdempotencyConflict i.(pi_projection_id));;
      at_ ← sql_u64 now;
      s ← insert_projection_row {| p_projection_id := i.(pi_projection_id); p_case_key := case_key;
            p_effect_id := i.(pi_effect_id); p_board := i.(pi_board);
            p_task_id := Some i.(pi_task_id); p_desired_json := desired_json;
            p_observed_json := Some observed_json; p_reconciled_at := Some at_ |} s;
      insert_projections case_key now l s
  end.

Definition job_row (source : OutboxRow) (j : EffectInput) (json hash : string) (now : Z) : OutboxRow := {|
  o_effect_id := j.(fi_effect_id); o_case_key := source.(o_case_key);
  o_state_revision := source.(o_state_revision); o_effect_type := j.(fi_effect_type);
  o_payload_json := json; o_payload_sha256 := hash; o_created_at := now;
  o_lease_owner := None; o_lease_until := None; o_delivered_at := None;
  o_superseded_at := None; o_superseded_by_event_id := None |}.
Fixpoint insert_jobs (source : OutboxRow) (now : Z) (l : list (EffectInput * string * string))
  (s : Store) : result StoreError Store :=
  match l with
  | [] => Ok s
  | (j, json, hash) :: l =>
      err_if (outbox_exists s j.(fi_effect_id)) (IdempotencyConflict j.(fi_effect_id));;
      at_ ← sql_u64 now;
      s ← insert_outbox_row (job_row source j json hash at_) s;
      insert_jobs source now l s
  end.

(** The comparison with an already delivered dispatch. *)
Definition replay_dispatch (source : OutboxRow) (inputs : list (TaskProjectionInput * string * string))
  (jobs : list (EffectInput * string * string)) (s : Store) : result StoreError () :=
  err_if (negb (count_rows (fun p => String.eqb p.(p_effect_id) source.(o_effect_id))
                  s.(task_projections) =? Z.of_nat (length inputs)))
    (IdempotencyConflict source.(o_effect_id));;
  try_map (fun '(i, _, observed_json) =>
    same ← same_projection s i observed_json;
    err_if (negb same) (IdempotencyConflict i.(pi_projection_id))) inputs;;
  try_map (fun '(j, _, _) =>
    same ← same_job s source j;
    err_if (negb same) (IdempotencyConflict j.(fi_effect_id))) jobs;;
  Ok ().

Definition complete_dispatch_outputs (source : string) (inputs : list TaskProjectionInput)
  (jobs : list EffectInput) (owner : string) (now : Z) (fault : option FaultPoint) (s : Store)
  : result StoreError (ApplyResult * Store) :=
  ensure_writable s;;
  err_if ((bool_decide (length inputs = 0%nat) && bool_decide (length jobs = 0%nat)) || blank source
          || negb (bool_decide (NoDup (pi_projection_id <$> inputs)))
          || negb (bool_decide (NoDup (fi_effect_id <$> jobs))) || blank owner
          || negb (forallb (valid_projection source) inputs) || negb (forallb (valid_job source) jobs))
    (InvalidInput "unique dispatch projections or bound direct jobs and an owner are required");;
  serialized ← try_map (fun i =>
    desired ← encode_output s source Hermes i.(pi_desired);
    Ok (i, to_string desired, to_string i.(pi_observed))) inputs;
  serialized_jobs ← try_map (fun j =>
    desired ← encode_output s source Direct j.(fi_payload);
    let '(json, hash) := payload desired in Ok (j, json, hash)) jobs;
  o ← ok_or (find_outbox s source) (LeaseLost source);
  if is_some o.(o_delivered_at) then
    replay_dispatch o serialized serialized_jobs s;;
    Ok (Replayed, s)
  else
    err_if (is_some o.(o_superseded_at)) (LeaseLost source);;
    now_ ← sql_u64 now;
    err_if (negb (exists_row (holds_lease source owner now_) s.(outbox))
            || exists_row (fun p => String.eqb p.(p_effect_id) source) s.(task_projections))
      (LeaseLost source);;
    s ← insert_projections o.(o_case_key) now serialized s;
    inject fault AfterProjection;;
    s ← insert_jobs o now serialized_jobs s;
    inject fault AfterOutbox;;
    '(updated, s) ← update_outbox (holds_lease source owner now_) (with_delivery now_) s;
    err_if (negb (updated =? 1)) (LeaseLost source);;
    Ok (Applied, s).

Definition complete_task_projections (inputs : list TaskProjectionInput) (owner : string) (now : Z)
  (fault : option FaultPoint) (s : Store) : result StoreError (ApplyResult * Store) :=
  first ← ok_or (head inputs) (InvalidInput "at least one task projection is required");
  complete_dispatch_outputs first.(pi_effect_id) inputs [] owner now fault s.
Definition complete_task_projection (input : TaskProjectionInput) (owner : string) (now : Z)
  (fault : option FaultPoint) (s : Store) : result StoreError (ApplyResult * Store) :=
  complete_task_projections [input] owner now fault s.
End outbox.
