(* ===== verification/Attempts.v ===== *)
(** * Attempts: direct worker attempts, outages and failure budgets

    pip-store's lib.rs, from [begin_direct_attempt] to
    [failed_direct_attempt_count_for_case], and the live-attempt counters of
    case_activity.rs. *)

From S2P Require Import Prelude Text Json Sql Tables Inputs Recovery StoreCore Outbox.
Open Scope Z_scope.

Definition with_outcome (completed_at : Z) (status : string) (result_json result_sha256 error : option string)
  (a : AttemptRow) : AttemptRow := {|
  a_attempt_id := a.(a_attempt_id); a_effect_id := a.(a_effect_id); a_case_key := a.(a_case_key);
  a_state_revision := a.(a_state_revision); a_task_id := a.(a_task_id);
  a_lease_owner := a.(a_lease_owner); a_lease_until := a.(a_lease_until);
  a_started_at := a.(a_started_at); a_completed_at := Some completed_at; a_status := status;
  a_result_json := result_json; a_result_sha256 := result_sha256; a_error := error |}.

(** The triggers [direct_attempts_terminal_no_update] and
    [direct_attempts_running_transition_only]. *)
Definition attempt_update_allowed (old new : AttemptRow) : bool :=
  String.eqb old.(a_status) "RUNNING" && one_of ["COMPLETE"; "FAILED"] new.(a_status)
  && String.eqb new.(a_effect_id) old.(a_effect_id) && String.eqb new.(a_case_key) old.(a_case_key)
  && (new.(a_state_revision) =? old.(a_state_revision))
  && String.eqb new.(a_task_id) old.(a_task_id)
  && String.eqb new.(a_lease_owner) old.(a_lease_owner)
  && (new.(a_lease_until) =? old.(a_lease_until)) && (new.(a_started_at) =? old.(a_started_at)).

(** [UPDATE direct_attempts SET ... WHERE p] with triggers, CHECK and the
    partial unique indexes. *)
Definition update_attempts (p : AttemptRow -> bool) (f : AttemptRow -> AttemptRow) (s : Store)
  : result StoreError (Z * Store) :=
  let '(rows, updated) := update_where p f s.(direct_attempts) in
  constraint_if
    (exists_row (fun a => p a && (negb (attempt_update_allowed a (f a)) || negb (attempt_check (f a))
       || exists_row (fun x => negb (x.(a_attempt_id) =? a.(a_attempt_id)) && attempt_clash x (f a))
            rows)) s.(direct_attempts))
    (updated, set_direct_attempts rows s).

(** [attempt_id = ? AND lease_owner = ? AND status = 'RUNNING' AND started_at <= ?]. *)
Definition running_own (attempt_id : Z) (owner : string) (at_ : Z) (a : AttemptRow) : bool :=
  (a.(a_attempt_id) =? attempt_id) && String.eqb a.(a_lease_owner) owner
  && String.eqb a.(a_status) "RUNNING" && (a.(a_started_at) <=? at_).

Definition unavailable_id (attempt_id : Z) : string := "direct-unavailable:" +:+ show attempt_id.
Definition attempt_label (attempt_id : Z) : string := "direct-attempt:" +:+ show attempt_id.
Definition LEASE_EXPIRED_ERROR : string := "worker lease expired before completion".

Section attempts.
Context `{Codec}.

Definition outage_evidence (attempt_id : Z) (source cause error : string) (retry_at : Z) : EvidenceInput := {|
  vi_evidence_id := unavailable_id attempt_id; vi_kind := "DIRECT_RUNTIME_UNAVAILABLE";
  vi_source := source;
  vi_payload := json_object [("attempt_id", Number attempt_id); ("cause", Str cause);
                             ("error", Str error); ("retry_at", Number retry_at)] |}.

(** ** Starting *)

(** The loop over the expired attempts: each becomes an outage. *)
Fixpoint record_expired (effect_id : string) (started_at : Z) (expired : list AttemptRow) (s : Store)
  : result StoreError Store :=
  match expired with
  | [] => Ok s
  | a :: expired =>
      s ← insert_evidence a.(a_case_key) started_at
            [outage_evidence a.(a_attempt_id) effect_id "LEASE_EXPIRED" LEASE_EXPIRED_ERROR started_at] s;
      record_expired effect_id started_at expired s
  end.

Definition begin_direct_attempt (claimed : ClaimedEffect) (task_id : string) (started_at : Z) (s : Store)
  : result StoreError (Z * Store) :=
  ensure_writable s;;
  err_if (blank task_id || blank claimed.(ce_effect_id) || blank claimed.(ce_case_key)
          || blank claimed.(ce_lease_owner) || (claimed.(ce_lease_until) <? started_at))
    (InvalidInput "a valid leased effect, task id, and start time are required");;
  revision ← sql_u64 claimed.(ce_state_revision);
  until ← sql_u64 claimed.(ce_lease_until);
  at_ ← sql_u64 started_at;
  err_if (negb (exists_row (fun o => String.eqb o.(o_effect_id) claimed.(ce_effect_id)
            && String.eqb o.(o_case_key) claimed.(ce_case_key) && (o.(o_state_revision) =? revision)
            && null_eq o.(o_lease_owner) claimed.(ce_lease_owner) && null_eq o.(o_lease_until) until
            && lease_live at_ o && pending o) s.(outbox)))
    (LeaseLost claimed.(ce_effect_id));;
  let expired a := String.eqb a.(a_effect_id) claimed.(ce_effect_id)
                   && String.eqb a.(a_status) "RUNNING" && (a.(a_lease_until) <? at_) in
  let rows := List.filter expired s.(direct_attempts) in
  '(_, s) ← update_attempts expired
    (with_outcome at_ "FAILED" None None (Some LEASE_EXPIRED_ERROR)) s;
  s ← record_expired claimed.(ce_effect_id) started_at rows s;
  insert_attempt_row (fun id => {| a_attempt_id := id; a_effect_id := claimed.(ce_effect_id);
    a_case_key := claimed.(ce_case_key); a_state_revision := revision; a_task_id := task_id;
    a_lease_owner := claimed.(ce_lease_owner); a_lease_until := until; a_started_at := at_;
    a_completed_at := None; a_status := "RUNNING"; a_result_json := None;
    a_result_sha256 := None; a_error := None |}) s.

(** ** Ending *)

Definition complete_direct_attempt (attempt_id : Z) (owner : string) (completed_at : Z) (r : Value)
  (s : Store) : result StoreError (() * Store) :=
  ensure_writable s;;
  err_if ((attempt_id =? 0) || blank owner || negb (is_object r))
    (InvalidInput "attempt, owner, and object result are required");;
  let '(result_json, result_sha256) := payload r in
  err_if (4 * 1024 * 1024 <? len result_json) (InvalidInput "direct result is too large");;
  at_ ← sql_u64 completed_at;
  id ← sql_u64 attempt_id;
  '(updated, s) ← update_attempts (running_own id owner at_)
    (with_outcome at_ "COMPLETE" (Some result_json) (Some result_sha256) None) s;
  err_if (negb (updated =? 1)) (LeaseLost (attempt_label attempt_id));;
  Ok ((), s).

Definition fail_direct_attempt (attempt_id : Z) (owner : string) (completed_at : Z) (error : string)
  (s : Store) : result StoreError (() * Store) :=
  ensure_writable s;;
  let error := trim error in
  err_if ((attempt_id =? 0) || blank owner || is_empty error || (4096 <? len error))
    (InvalidInput "attempt, owner, and bounded error are required");;
  at_ ← sql_u64 completed_at;
  id ← sql_u64 attempt_id;
  '(updated, s) ← update_attempts (running_own id owner at_)
    (with_outcome at_ "FAILED" None None (Some error)) s;
  err_if (negb (updated =? 1)) (LeaseLost (attempt_label attempt_id));;
  Ok ((), s).

Definition find_attempt (s : Store) (id : Z) : option AttemptRow :=
  List.find (fun a => a.(a_attempt_id) =? id) s.(direct_attempts).

(** [UPDATE outbox SET lease_until = ? WHERE effect_id = ? AND lease_owner = ?]. *)
Definition hold_until (effect_id owner : string) (retry_at : Z) : Store -> result StoreError (Z * Store) :=
  update_outbox (owns_pending effect_id owner)
    (fun o => with_lease o.(o_lease_owner) (Some retry_at) o).

Definition fail_direct_attempt_with_cooldown (attempt_id : Z) (owner : string) (completed_at : Z)
  (error : string) (cooldown : Z) (s : Store) : result StoreError (Z * Store) :=
  ensure_writable s;;
  let error := trim error in
  err_if ((attempt_id =? 0) || blank owner || is_empty error || (4096 <? len error))
    (InvalidInput "attempt, owner, and bounded error are required");;
  retry_at ← ok_or (checked_add u64_max completed_at cooldown) InvalidInteger;
  let lost := LeaseLost (attempt_label attempt_id) in
  id ← sql_u64 attempt_id;
  a ← ok_or (find_attempt s id) lost;
  at_ ← sql_u64 completed_at;
  '(updated, s) ← update_attempts (running_own id owner at_)
    (with_outcome at_ "FAILED" None None (Some error)) s;
  err_if (negb (updated =? 1)) lost;;
  retry ← sql_u64 retry_at;
  '(updated, s) ← hold_until a.(a_effect_id) owner retry s;
  err_if (negb (updated =? 1)) lost;;
  Ok (retry_at, s).

(** [(60 * (1 << outages.min(6))).min(3600)]. *)
Definition outage_delay (outages : Z) : Z := Z.min (60 * Z.shiftl 1 (Z.min outages 6)) 3600.

Definition record_direct_unavailability_with_cause (attempt_id : Z) (owner : string) (now : Z)
  (error cause : string) (s : Store) : result StoreError (Z * Store) :=
  ensure_writable s;;
  err_if (is_empty cause || negb (forallb (fun b => is_ascii_uppercase b || (b =? 95)) (bytes cause)))
    (InvalidInput "stable unavailability cause required");;
  err_if ((attempt_id =? 0) || blank owner || blank error || (4096 <? len error))
    (InvalidInput "bounded runtime failure required");;
  let id := unavailable_id attempt_id in
  row ← sql_u64 attempt_id;
  a ← db (one_row (find_attempt s row));
  err_if (negb (String.eqb a.(a_lease_owner) owner)) (LeaseLost id);;
  match find_evidence s id with
  | Some previous =>
      previous ← parse_json previous.(v_payload_json);
      err_if (negb (bool_decide (as_str (index previous "error") = Some error)))
        (IdempotencyConflict id);;
      retry_at ← ok_or (as_u64 (index previous "retry_at")) (InvalidInput "invalid cooldown");
      Ok (retry_at, s)
  | None =>
      let outages := count_rows (fun v => String.eqb v.(v_kind) "DIRECT_RUNTIME_UNAVAILABLE"
                                          && String.eqb v.(v_source) a.(a_effect_id)) s.(evidence) in
      retry_at ← ok_or (checked_add u64_max now (outage_delay outages)) InvalidInteger;
      at_ ← sql_u64 now;
      '(updated, s) ← update_attempts (running_own row owner at_)
        (with_outcome at_ "FAILED" None None (Some error)) s;
      err_if (negb (updated =? 1)) (LeaseLost id);;
      s ← insert_evidence a.(a_case_key) now
            [outage_evidence attempt_id a.(a_effect_id) cause error retry_at] s;
      retry ← sql_u64 retry_at;
      '(updated, s) ← hold_until a.(a_effect_id) owner retry s;
      err_if (negb (updated =? 1)) (LeaseLost id);;
      Ok (retry_at, s)
  end.

Definition record_direct_unavailability (attempt_id : Z) (owner : string) (now : Z) (error : string) :=
  record_direct_unavailability_with_cause attempt_id owner now error "PROVIDER_UNAVAILABLE".

(** ** Reading *)

Inductive DirectAttemptStatus := Running | Complete | Failed.
Record StoredDirectAttempt := {
  sa_attempt_id : Z; sa_effect_id : string; sa_case_key : string; sa_state_revision : Z;
  sa_task_id : string; sa_lease_owner : string; sa_lease_until : Z; sa_started_at : Z;
  sa_completed_at : option Z; sa_status : DirectAttemptStatus; sa_result : option Value;
  sa_result_sha256 : option string; sa_error : option string;
}.

Definition direct_attempt_from_row (a : AttemptRow) : result SqlError StoredDirectAttempt :=
  r ← match a.(a_result_json) with
      | None => Ok None
      | Some text => Some <$> ok_or (from_str text) FromSqlConversionFailure
      end;
  status ← (if String.eqb a.(a_status) "RUNNING" then Ok Running
            else if String.eqb a.(a_status) "COMPLETE" then Ok Complete
            else if String.eqb a.(a_status) "FAILED" then Ok Failed
            else Err InvalidQuery);
  Ok {| sa_attempt_id := unsigned a.(a_attempt_id); sa_effect_id := a.(a_effect_id);
        sa_case_key := a.(a_case_key); sa_state_revision := unsigned a.(a_state_revision);
        sa_task_id := a.(a_task_id); sa_lease_owner := a.(a_lease_owner);
        sa_lease_until := unsigned a.(a_lease_until); sa_started_at := unsigned a.(a_started_at);
        sa_completed_at := option_map unsigned a.(a_completed_at); sa_status := status;
        sa_result := r; sa_result_sha256 := a.(a_result_sha256); sa_error := a.(a_error) |}.

Definition completed_direct_attempt (effect_id : string) (s : Store)
  : result StoreError (option StoredDirectAttempt) :=
  err_if (blank effect_id) (InvalidInput "effect id is required");;
  match List.find (fun a => String.eqb a.(a_effect_id) effect_id
                            && String.eqb a.(a_status) "COMPLETE") s.(direct_attempts) with
  | None => Ok None
  | Some a =>
      stored ← db (direct_attempt_from_row a);
      r ← ok_or stored.(sa_result) (InvalidInput "completed attempt has no result");
      err_if (negb (bool_decide (stored.(sa_result_sha256) = Some (payload r).2)))
        (IdempotencyConflict (attempt_label stored.(sa_attempt_id)));;
      Ok (Some stored)
  end.

Definition direct_attempt (attempt_id : Z) (s : Store) : result StoreError (option StoredDirectAttempt) :=
  err_if (attempt_id =? 0) (InvalidInput "attempt id is required");;
  id ← sql_u64 attempt_id;
  match find_attempt s id with
  | None => Ok None
  | Some a => Some <$> db (direct_attempt_from_row a)
  end.

(** An attempt that ended because its runtime was not available. *)
Definition is_outage (s : Store) (attempt_id : Z) : bool :=
  exists_row (fun v => String.eqb v.(v_evidence_id) (unavailable_id attempt_id)
                       && String.eqb v.(v_kind) "DIRECT_RUNTIME_UNAVAILABLE") s.(evidence).

(** Pending direct work of a case; observers never count. *)
Definition stage_effect (key : string) (o : OutboxRow) : bool :=
  String.eqb o.(o_case_key) key && negb (String.eqb o.(o_effect_type) "RUN_DIRECT_OBSERVER")
  && pending o.
Definition effect_failures (s : Store) (effect_id : string) : Z :=
  count_rows (fun a => String.eqb a.(a_effect_id) effect_id && String.eqb a.(a_status) "FAILED"
                       && negb (is_outage s a.(a_attempt_id))) s.(direct_attempts).

Definition direct_stage_failure_count (key : string) (s : Store) : result StoreError Z :=
  err_if (blank key) (InvalidInput "case key is required");;
  let failures := map (fun o => effect_failures s o.(o_effect_id))
                    (List.filter (stage_effect key) s.(outbox)) in
  Ok (default 0 (option_map unsigned (max_opt failures))).

Definition failed_direct_attempt_count_for_case (key : string) (s : Store) : result StoreError Z :=
  err_if (blank key) (InvalidInput "case key is required");;
  Ok (unsigned (count_rows (fun a => String.eqb a.(a_case_key) key && String.eqb a.(a_status) "FAILED"
    && exists_row (fun o => String.eqb o.(o_effect_id) a.(a_effect_id)
         && negb (String.eqb o.(o_effect_type) "RUN_DIRECT_OBSERVER")) s.(outbox)
    && negb (exists_row (fun v => String.eqb v.(v_evidence_id) (unavailable_id a.(a_attempt_id))
         && String.eqb v.(v_kind) "DIRECT_RUNTIME_UNAVAILABLE"
         && String.eqb v.(v_case_key) a.(a_case_key)) s.(evidence))) s.(direct_attempts))).

Record DirectOutage := { do_effect_id : string; do_since : Z; do_cause : string; do_error : string }.

(** The start of the latest attempt that actually ran. *)
Definition last_run_start (s : Store) (effect_id : string) : Z :=
  default 0 (max_opt (map a_started_at
    (List.filter (fun a => String.eqb a.(a_effect_id) effect_id && negb (is_outage s a.(a_attempt_id)))
       s.(direct_attempts)))).

Definition direct_stage_outage (key : string) (s : Store) : result StoreError (option DirectOutage) :=
  err_if (blank key) (InvalidInput "case key is required");;
  let rows := order_by (fun a b => key_leb (a.(v_observed_at), a.(v_evidence_id))
                                           (b.(v_observed_at), b.(v_evidence_id)))
    (List.filter (fun v => String.eqb v.(v_case_key) key
       && String.eqb v.(v_kind) "DIRECT_RUNTIME_UNAVAILABLE"
       && exists_row (fun o => String.eqb o.(o_effect_id) v.(v_source)
            && negb (String.eqb o.(o_effect_type) "RUN_DIRECT_OBSERVER") && pending o
            && (last_run_start s o.(o_effect_id) <? v.(v_observed_at))) s.(outbox)) s.(evidence)) in
  match rows with
  | [] => Ok None
  | first :: _ =>
      let latest := default "" (v_payload_json <$>
        List.find (fun v => String.eqb v.(v_source) first.(v_source)) (reverse rows)) in
      latest ← parse_json latest;
      Ok (Some {| do_effect_id := first.(v_source); do_since := unsigned first.(v_observed_at);
                  do_cause := default "PROVIDER_UNAVAILABLE" (as_str (index latest "cause"));
                  do_error := default "" (as_str (index latest "error")) |})
  end.

Definition builder_dispatched_before (key : string) (state_revision : Z) (s : Store)
  : result StoreError bool :=
  err_if (blank key) (InvalidInput "case key is required");;
  revision ← sql_u64 state_revision;
  Ok (exists_row (fun o => String.eqb o.(o_case_key) key
        && String.eqb o.(o_effect_type) "DISPATCH_BUILDER" && (o.(o_state_revision) <? revision))
        s.(outbox)).

Definition running_direct_attempts_for_case (key : string) (s : Store) : Z :=
  count_rows (fun a => String.eqb a.(a_case_key) key && String.eqb a.(a_status) "RUNNING")
    s.(direct_attempts).
Definition live_direct_attempts_for_case (key : string) (now : Z) (s : Store) : result StoreError Z :=
  now ← sql_u64 now;
  Ok (count_rows (fun a => String.eqb a.(a_case_key) key && String.eqb a.(a_status) "RUNNING"
                           && (now <=? a.(a_lease_until))) s.(direct_attempts)).
Definition live_direct_attempts (now : Z) (s : Store) : result StoreError Z :=
  now ← sql_u64 now;
  Ok (count_rows (fun a => String.eqb a.(a_status) "RUNNING" && (now <=? a.(a_lease_until)))
        s.(direct_attempts)).
End attempts.
