(* ===== verification/Control.v ===== *)
(** * Control: human commands, parked cases and the controller heartbeat

    pip-store's control.rs, except [validate_resume], which is in Recovery. *)

From S2P Require Import Prelude Text Json Sql Tables Inputs Recovery StoreCore Outbox.
Open Scope Z_scope.

Definition CONTROLLER_GAP_SECONDS : Z := 10 * 60.
Definition MAX_GUIDANCE_BYTES : Z := 8 * 1024.

Record ControlCommandInput := {
  ki_comment_id : Z; ki_repository_id : Z; ki_thread_number : Z; ki_case_key : option string;
  ki_actor_id : Z; ki_command : string; ki_guidance : string; ki_received_at : Z;
}.
Inductive ControlCommandStatus := CommandPending | CommandApplied | CommandIgnored.
#[export] Instance ControlCommandStatus_eq_dec : EqDecision ControlCommandStatus.
Proof. solve_decision. Defined.
Definition command_status_str (s : ControlCommandStatus) : string :=
  match s with CommandPending => "PENDING" | CommandApplied => "APPLIED" | CommandIgnored => "IGNORED" end.
Record ControlCommand := {
  kc_comment_id : Z; kc_repository_id : Z; kc_thread_number : Z; kc_case_key : option string;
  kc_actor_id : Z; kc_command : string; kc_guidance : string; kc_received_at : Z;
  kc_status : ControlCommandStatus;
}.
Record ParkingEvent := {
  pe_event_type : string; pe_previous_state : string; pe_state_revision : Z; pe_observed_at : Z;
  pe_payload : Value;
}.

(** The CHECKs and the foreign key of [control_commands]. *)
Definition command_check (k : CommandRow) : bool :=
  (0 <? k.(k_comment_id)) && (0 <? k.(k_repository_id)) && (0 <? k.(k_thread_number))
  && (0 <? k.(k_actor_id)) && one_of ["RESUME"; "REPLAN"; "ABANDON"] k.(k_command)
  && one_of ["PENDING"; "APPLIED"; "IGNORED"] k.(k_status).

(** [INSERT OR IGNORE]: a row that would break the primary key or a CHECK is
    skipped; a broken foreign key is an error all the same. *)
Definition insert_or_ignore_command (k : CommandRow) (s : Store) : result StoreError (Z * Store) :=
  if negb (command_check k)
     || exists_row (fun x => x.(k_comment_id) =? k.(k_comment_id)) s.(control_commands)
  then Ok (0, s)
  else constraint_if (match k.(k_case_key) with Some key => negb (case_exists s key) | None => false end)
         (1, set_control_commands (s.(control_commands) ++ [k]) s).

Definition record_control_command (i : ControlCommandInput) (s : Store)
  : result StoreError (ApplyResult * Store) :=
  ensure_writable s;;
  err_if ((i.(ki_comment_id) =? 0) || (i.(ki_repository_id) =? 0) || (i.(ki_thread_number) =? 0)
          || (i.(ki_actor_id) =? 0) || negb (one_of ["RESUME"; "REPLAN"; "ABANDON"] i.(ki_command))
          || (MAX_GUIDANCE_BYTES <? len i.(ki_guidance))) (InvalidInput "invalid control command");;
  comment ← sql_u64 i.(ki_comment_id);
  repository ← sql_u64 i.(ki_repository_id);
  thread ← sql_u64 i.(ki_thread_number);
  actor ← sql_u64 i.(ki_actor_id);
  received ← sql_u64 i.(ki_received_at);
  '(inserted, s) ← insert_or_ignore_command {| k_comment_id := comment;
    k_repository_id := repository; k_thread_number := thread; k_case_key := i.(ki_case_key);
    k_actor_id := actor; k_command := i.(ki_command); k_guidance := i.(ki_guidance);
    k_received_at := received; k_status := "PENDING"; k_outcome := None;
    k_resolved_at := None |} s;
  Ok (if inserted =? 1 then Applied else Replayed, s).

Definition command_of_row (k : CommandRow) : ControlCommand := {|
  kc_comment_id := unsigned k.(k_comment_id); kc_repository_id := unsigned k.(k_repository_id);
  kc_thread_number := unsigned k.(k_thread_number); kc_case_key := k.(k_case_key);
  kc_actor_id := unsigned k.(k_actor_id); kc_command := k.(k_command);
  kc_guidance := k.(k_guidance); kc_received_at := unsigned k.(k_received_at);
  kc_status := CommandPending |}.
Definition command_order (a b : CommandRow) : bool :=
  (a.(k_received_at) <? b.(k_received_at))
  || ((a.(k_received_at) =? b.(k_received_at)) && (a.(k_comment_id) <=? b.(k_comment_id))).
Definition pending_control_commands (repository_id : Z) (case_key : option string) (s : Store)
  : result StoreError (list ControlCommand) :=
  repository ← sql_u64 repository_id;
  Ok (map command_of_row (order_by command_order
    (List.filter (fun k => (k.(k_repository_id) =? repository) && String.eqb k.(k_status) "PENDING"
       && match case_key with None => true | Some key => null_eq k.(k_case_key) key end)
       s.(control_commands)))).

Definition resolved_command (status outcome : string) (now : Z) (k : CommandRow) : CommandRow := {|
  k_comment_id := k.(k_comment_id); k_repository_id := k.(k_repository_id);
  k_thread_number := k.(k_thread_number); k_case_key := k.(k_case_key);
  k_actor_id := k.(k_actor_id); k_command := k.(k_command); k_guidance := k.(k_guidance);
  k_received_at := k.(k_received_at); k_status := status; k_outcome := Some outcome;
  k_resolved_at := Some now |}.
Definition resolve_control_command (comment_id : Z) (status : ControlCommandStatus) (outcome : string)
  (now : Z) (s : Store) : result StoreError (() * Store) :=
  ensure_writable s;;
  err_if (bool_decide (status = CommandPending) || blank outcome)
    (InvalidInput "a resolved status and outcome are required");;
  now ← sql_u64 now;
  comment ← sql_u64 comment_id;
  let '(rows, updated) := update_where
    (fun k => (k.(k_comment_id) =? comment) && String.eqb k.(k_status) "PENDING")
    (resolved_command (command_status_str status) outcome now) s.(control_commands) in
  err_if (negb (updated =? 1)) (InvalidInput "control command is not pending");;
  Ok ((), set_control_commands rows s).

Section control.
Context `{Codec}.

(** [previous_state IS NOT next_state]. *)
Definition entered (e : EventRow) : bool := negb (bool_decide (e.(e_previous_state) = Some e.(e_next_state))).

Definition parking_event (key : string) (s : Store) : result StoreError (option ParkingEvent) :=
  case ← ok_or (query_case s key) (MissingCase key);
  if negb (one_of PARKED_STATES case.(sc_state)) then Ok None
  else
    match latest_event (List.filter (fun e => String.eqb e.(e_case_key) key
            && String.eqb e.(e_next_state) case.(sc_state) && entered e) s.(events)) with
    | None => Ok None
    | Some e =>
        p ← parse_json e.(e_payload_json);
        Ok (Some {| pe_event_type := e.(e_event_type);
                    pe_previous_state := default "" e.(e_previous_state);
                    pe_state_revision := unsigned e.(e_state_revision);
                    pe_observed_at := unsigned e.(e_observed_at); pe_payload := p |})
    end.

Definition granted_remediation_rounds (key : string) (s : Store) : result StoreError Z :=
  values ← db (try_map (fun e => json_extract e.(e_payload_json) ["granted_rounds"])
    (List.filter (fun e => String.eqb e.(e_case_key) key
                           && String.eqb e.(e_event_type) "HUMAN_RESUMED") s.(events)));
  sum ← db (sql_sum values);
  value ← db (get_i64 (match sum with SNull => SInt 0 | v => v end));
  if (0 <=? value) && (value <=? u32_max) then Ok value else Err InvalidInteger.
End control.

(** [MAX] over the union of four columns; NULL columns do not count. *)
Definition last_case_activity (key : string) (s : Store) : Z :=
  default 0 (option_map unsigned (max_opt (
    map e_observed_at (List.filter (fun e => String.eqb e.(e_case_key) key) s.(events))
    ++ map a_started_at (List.filter (fun a => String.eqb a.(a_case_key) key) s.(direct_attempts))
    ++ omap p_reconciled_at (List.filter (fun p => String.eqb p.(p_case_key) key) s.(task_projections))
    ++ map v_observed_at (List.filter (fun v => String.eqb v.(v_case_key) key) s.(evidence))))).

Definition find_heartbeat (s : Store) (repository : Z) : option HeartbeatRow :=
  List.find (fun h => h.(h_repository_id) =? repository) s.(controller_heartbeats).

Definition record_controller_cycle (repository_id now : Z) (s : Store) : result StoreError (Z * Store) :=
  ensure_writable s;;
  repository ← sql_u64 repository_id;
  let running_since := match find_heartbeat s repository with
    | Some h => if saturating_sub now (unsigned h.(h_last_cycle_at)) <=? CONTROLLER_GAP_SECONDS
                then unsigned h.(h_running_since) else now
    | None => now
    end in
  at_ ← sql_u64 now;
  since ← sql_u64 running_since;
  let row := {| h_repository_id := repository; h_last_cycle_at := at_; h_running_since := since |} in
  s ← constraint_if (negb (0 <? repository))
        (set_controller_heartbeats
           (match find_heartbeat s repository with
            | Some _ => map (fun h => if h.(h_repository_id) =? repository then row else h)
                          s.(controller_heartbeats)
            | None => s.(controller_heartbeats) ++ [row]
            end) s);
  Ok (running_since, s).

Definition controller_running_since (repository_id : Z) (s : Store) : result StoreError (option Z) :=
  repository ← sql_u64 repository_id;
  Ok (unsigned ∘ h_running_since <$> find_heartbeat s repository).

Definition pending_effect_types (key : string) (s : Store) : list string :=
  order_by str_leb (remove_dups (map o_effect_type
    (List.filter (fun o => String.eqb o.(o_case_key) key && pending o) s.(outbox)))).

Definition finding_window_start (key : string) (s : Store) : Z :=
  default 0 (option_map unsigned (max_opt (map e_observed_at
    (List.filter (fun e => String.eqb e.(e_case_key) key
       && (String.eqb e.(e_event_type) "HUMAN_RESUMED" || String.eqb e.(e_next_state) "PLANNING"))
       s.(events))))).
