(* ===== verification/Records.v ===== *)
(** * Records: deliveries, retirements, runs and retained results

    The remaining ledger methods: webhook deliveries and workspace retirements
    (lib.rs), the run queries (lib.rs), the case times (reauthorization.rs) and
    retained native results (task_results.rs). *)

From S2P Require Import Prelude Text Json Sql Tables Inputs Recovery StoreCore Outbox Control.
Open Scope Z_scope.

Record WebhookDeliveryInput := {
  wi_delivery_id : string; wi_repository_id : Z; wi_event_name : string; wi_action : string;
  wi_received_at : Z; wi_payload_sha256 : string;
}.

Definition record_webhook_delivery (i : WebhookDeliveryInput) (s : Store)
  : result StoreError (ApplyResult * Store) :=
  ensure_writable s;;
  err_if (negb (valid_identifier i.(wi_delivery_id) 128) || (i.(wi_repository_id) =? 0)
          || negb (valid_identifier i.(wi_event_name) 64) || negb (valid_identifier i.(wi_action) 64)
          || negb (valid_sha256 i.(wi_payload_sha256)))
    (InvalidInput "valid webhook delivery identity, repository, event, action, and digest are required");;
  match List.find (fun w => String.eqb w.(w_delivery_id) i.(wi_delivery_id)) s.(webhook_deliveries) with
  | Some w =>
      if (unsigned w.(w_repository_id) =? i.(wi_repository_id))
         && String.eqb w.(w_event_name) i.(wi_event_name) && String.eqb w.(w_action) i.(wi_action)
         && String.eqb w.(w_payload_sha256) i.(wi_payload_sha256)
      then Ok (Replayed, s)
      else Err (IdempotencyConflict ("webhook:" +:+ i.(wi_delivery_id)))
  | None =>
      repository ← sql_u64 i.(wi_repository_id);
      received ← sql_u64 i.(wi_received_at);
      s ← insert_webhook_row {| w_delivery_id := i.(wi_delivery_id); w_repository_id := repository;
            w_event_name := i.(wi_event_name); w_action := i.(wi_action);
            w_received_at := received; w_payload_sha256 := i.(wi_payload_sha256) |} s;
      Ok (Applied, s)
  end.

(** ** Workspace retirement *)

Inductive WorkspaceRetirementOutcome := Retired | Absent.
Definition outcome_str (o : WorkspaceRetirementOutcome) : string :=
  match o with Retired => "RETIRED" | Absent => "ABSENT" end.
Record WorkspaceRetirementInput := {
  xi_case_key : string; xi_state_revision : Z; xi_worktree_path : string;
  xi_outcome : WorkspaceRetirementOutcome; xi_retired_at : Z;
}.
Record WorkspaceRetirementCandidate := {
  xc_case_key : string; xc_repository_id : Z; xc_issue_number : Z; xc_workflow_version : Z;
  xc_state_revision : Z; xc_updated_at : Z;
}.

Definition finished_states : list string := ["COMPLETED"; "ABANDONED"; "TAKEN_OVER"].

Definition retirable (repository cutoff : Z) (s : Store) (c : CaseRow) : bool :=
  (c.(c_repository_id) =? repository) && one_of finished_states c.(c_state)
  && (c.(c_updated_at) <=? cutoff)
  && negb (exists_row (fun w => String.eqb w.(t_case_key) c.(c_case_key)
       && (w.(t_state_revision) =? c.(c_state_revision))) s.(workspace_retirements))
  && negb (exists_row (fun d => String.eqb d.(a_case_key) c.(c_case_key)
       && String.eqb d.(a_status) "RUNNING") s.(direct_attempts)).
Definition candidate_of (c : CaseRow) : WorkspaceRetirementCandidate := {|
  xc_case_key := c.(c_case_key); xc_repository_id := unsigned c.(c_repository_id);
  xc_issue_number := unsigned c.(c_issue_number);
  xc_workflow_version := u32_or_default c.(c_workflow_version);
  xc_state_revision := unsigned c.(c_state_revision); xc_updated_at := unsigned c.(c_updated_at) |}.
Definition terminal_workspace_candidates (repository_id updated_before_or_at lim : Z) (s : Store)
  : result StoreError (list WorkspaceRetirementCandidate) :=
  err_if ((repository_id =? 0) || (lim =? 0) || (1000 <? lim))
    (InvalidInput "repository, retention cutoff, and bounded candidate limit are required");;
  repository ← sql_u64 repository_id;
  cutoff ← sql_u64 updated_before_or_at;
  Ok (map candidate_of (limit lim (order_by
    (fun a b => key_leb (a.(c_updated_at), a.(c_case_key)) (b.(c_updated_at), b.(c_case_key)))
    (List.filter (retirable repository cutoff s) s.(cases))))).

(** [Path::is_absolute] on a Unix path. *)
Definition is_absolute (path : string) : bool := starts_with "/" path.

Definition record_workspace_retirement (i : WorkspaceRetirementInput) (s : Store)
  : result StoreError (ApplyResult * Store) :=
  ensure_writable s;;
  err_if (blank i.(xi_case_key) || (i.(xi_state_revision) =? 0)
          || negb (is_absolute i.(xi_worktree_path)) || (4096 <? len i.(xi_worktree_path))
          || has_control i.(xi_worktree_path))
    (InvalidInput "valid workspace retirement identity and absolute path are required");;
  revision ← sql_u64 i.(xi_state_revision);
  match List.find (fun w => String.eqb w.(t_case_key) i.(xi_case_key)
                            && (w.(t_state_revision) =? revision)) s.(workspace_retirements) with
  | Some w =>
      if (unsigned w.(t_state_revision) =? i.(xi_state_revision))
         && String.eqb w.(t_worktree_path) i.(xi_worktree_path)
         && String.eqb w.(t_outcome) (outcome_str i.(xi_outcome))
         && (unsigned w.(t_retired_at) =? i.(xi_retired_at))
      then Ok (Replayed, s)
      else Err (IdempotencyConflict ("workspace-retirement:" +:+ i.(xi_case_key)))
  | None =>
      c ← ok_or (find_case s i.(xi_case_key)) (MissingCase i.(xi_case_key));
      err_if (negb (one_of finished_states c.(c_state)))
        (InvalidInput "workspace retirement requires a terminal case");;
      let actual := unsigned c.(c_state_revision) in
      err_if (negb (actual =? i.(xi_state_revision))) (StaleRevision i.(xi_state_revision) actual);;
      retired ← sql_u64 i.(xi_retired_at);
      s ← insert_retirement_row {| t_case_key := i.(xi_case_key); t_state_revision := revision;
            t_worktree_path := i.(xi_worktree_path); t_outcome := outcome_str i.(xi_outcome);
            t_retired_at := retired |} s;
      Ok (Applied, s)
  end.

Section records.
Context `{Codec}.

(** ** Runs *)

Definition parse_stored_run (r : RunRow) : result StoreError StoredRun :=
  p ← parse_json r.(r_payload_json);
  Ok {| sr_run_id := r.(r_run_id); sr_case_key := r.(r_case_key); sr_event_id := r.(r_event_id);
        sr_task_id := r.(r_task_id); sr_role := r.(r_role); sr_payload := p;
        sr_payload_sha256 := r.(r_payload_sha256); sr_accepted_at := unsigned r.(r_accepted_at) |}.
Definition run_order (a b : RunRow) : bool :=
  key_leb (a.(r_accepted_at), a.(r_run_id)) (b.(r_accepted_at), b.(r_run_id)).

Definition run_by_task_id (task_id : string) (s : Store) : result StoreError (option StoredRun) :=
  match List.find (fun r => String.eqb r.(r_task_id) task_id) s.(runs) with
  | None => Ok None
  | Some r => Some <$> parse_stored_run r
  end.
Definition runs_for_case (key : string) (s : Store) : result StoreError (list StoredRun) :=
  try_map parse_stored_run
    (order_by run_order (List.filter (fun r => String.eqb r.(r_case_key) key) s.(runs))).

(** The revision at which the current review cohort began: the latest entry
    into CI observation or review. *)
Definition cohort_start (key : string) (s : Store) : Z :=
  default 0 (max_opt (map e_state_revision (List.filter (fun e => String.eqb e.(e_case_key) key
    && one_of ["WAITING_CI"; "REVIEWING"] e.(e_next_state) && entered e) s.(events)))).
Definition current_review_rows (key : string) (s : Store) : list RunRow :=
  List.filter (fun r => String.eqb r.(r_case_key) key
    && one_of ["reviewer-general"; "reviewer-secperf"] r.(r_role)
    && exists_row (fun e => String.eqb e.(e_event_id) r.(r_event_id)
         && String.eqb e.(e_case_key) r.(r_case_key)
         && (cohort_start key s <? e.(e_state_revision))) s.(events)) s.(runs).
Definition current_review_runs_for_case (key : string) (s : Store) : result StoreError (list StoredRun) :=
  try_map parse_stored_run (order_by run_order (current_review_rows key s)).

Definition latest_event_type (key : string) (s : Store) : option string :=
  e_event_type <$> latest_event (List.filter (fun e => String.eqb e.(e_case_key) key) s.(events)).

(** ** Times *)

Definition case_created_at (key : string) (s : Store) : result StoreError (option Z) :=
  match find_case s key with
  | None => Ok None
  | Some c => Some <$> try_u64 c.(c_created_at)
  end.
Definition case_authorized_at (key : string) (s : Store) : result StoreError (option Z) :=
  match find_case s key with
  | None => Ok None
  | Some c => Some <$> try_u64 (default c.(c_created_at) (max_opt (map e_observed_at
      (List.filter (fun e => String.eqb e.(e_case_key) key
         && String.eqb e.(e_event_type) "ISSUE_REAUTHORIZED") s.(events)))))
  end.
Definition case_work_started_at (key : string) (s : Store) : result StoreError (option Z) :=
  work_started_at s key.
Definition can_reauthorize (key : string) (label_id removal_id : Z) (s : Store) : result StoreError bool :=
  eligible s key label_id removal_id.
Definition case_task_ids (key : string) (s : Store) : list string :=
  order_by str_leb (omap p_task_id
    (List.filter (fun p => String.eqb p.(p_case_key) key) s.(task_projections))).

(** ** Retained native results *)

Definition result_id (task_id : string) : string := "hermes-result-" +:+ task_id.

Definition retained_task_result (task_id : string) (s : Store) : result StoreError (option Value) :=
  match List.find (fun v => exists_row (fun p => String.eqb p.(p_projection_id) v.(v_source)
            && null_eq p.(p_task_id) task_id) s.(task_projections)
          && String.eqb v.(v_kind) "HERMES_RESULT"
          && String.eqb v.(v_evidence_id) (result_id task_id)) s.(evidence) with
  | None => Ok None
  | Some v =>
      value ← parse_json v.(v_payload_json);
      err_if (negb (String.eqb (payload value).2 v.(v_payload_sha256)))
        (InvalidInput "retained task result digest differs");;
      Ok (Some value)
  end.

Definition retain_task_result (task_id : string) (value : Value) (now : Z) (s : Store)
  : result StoreError (ApplyResult * Store) :=
  ensure_writable s;;
  err_if (negb (is_object value) || (4 * 1024 * 1024 <? len (to_string value)))
    (InvalidInput "task result must be a bounded object");;
  existing ← retained_task_result task_id s;
  match existing with
  | Some existing =>
      if bool_decide (existing = value) then Ok (Replayed, s) else Err (IdempotencyConflict task_id)
  | None =>
      '(case_key, projection_id) ← db (one_row (head (
         p ← List.filter (fun p => null_eq p.(p_task_id) task_id) s.(task_projections);
         o ← List.filter (fun o => String.eqb o.(o_effect_id) p.(p_effect_id)) s.(outbox);
         [(o.(o_case_key), p.(p_projection_id))])));
      s ← insert_evidence case_key now
            [{| vi_evidence_id := result_id task_id; vi_kind := "HERMES_RESULT";
                vi_source := projection_id; vi_payload := value |}] s;
      Ok (Applied, s)
  end.
End records.
