(* ===== verification/Status.v ===== *)
(** * Status: the read-only report of the ledger

    [Store::status] of crates/pip-store/src/lib.rs: the cases in order and the
    counts of every table. *)

From S2P Require Import Prelude Text Json Sql Tables Inputs StoreCore Outbox.
Open Scope Z_scope.

Record LedgerStatus := {
  ls_dispatch_batches : Z; ls_dispatch_create_attempts : Z; ls_schema_version : Z;
  ls_cases : list StoredCase; ls_events : Z; ls_runs : Z; ls_evidence : Z; ls_findings : Z;
  ls_outbox_total : Z; ls_outbox_pending : Z; ls_outbox_leased : Z; ls_outbox_delivered : Z;
  ls_outbox_superseded : Z; ls_task_projections : Z; ls_direct_attempts_running : Z;
  ls_direct_attempts_complete : Z; ls_direct_attempts_failed : Z; ls_webhook_deliveries : Z;
  ls_workspace_retirements : Z; ls_review_observations : Z;
}.

(** [MIGRATIONS.len()]: the version [Store::open] leaves and insists on. *)
Definition SCHEMA_VERSION : Z := 14.

Definition count {R} (l : list R) : Z := Z.of_nat (length l).

(** [ORDER BY repository_id, issue_number, workflow_version]. *)
Definition case_order (a b : CaseRow) : bool :=
  (a.(c_repository_id) <? b.(c_repository_id))
  || ((a.(c_repository_id) =? b.(c_repository_id))
      && ((a.(c_issue_number) <? b.(c_issue_number))
          || ((a.(c_issue_number) =? b.(c_issue_number))
              && (a.(c_workflow_version) <=? b.(c_workflow_version))))).

Definition status_cases (s : Store) : list StoredCase :=
  stored_case <$> order_by case_order s.(cases).

Definition attempts_in (status : string) (s : Store) : Z :=
  count_rows (fun a => String.eqb a.(a_status) status) s.(direct_attempts).

Definition status (now : Z) (s : Store) : result StoreError LedgerStatus :=
  now ← sql_u64 now;
  Ok {|
    ls_dispatch_batches := count s.(dispatch_batches);
    ls_dispatch_create_attempts := count s.(dispatch_create_attempts);
    ls_schema_version := SCHEMA_VERSION;
    ls_cases := status_cases s;
    ls_events := count s.(events);
    ls_runs := count s.(runs);
    ls_evidence := count s.(evidence);
    ls_findings := count s.(findings);
    ls_outbox_total := count s.(outbox);
    ls_outbox_pending := count_rows pending s.(outbox);
    ls_outbox_leased := count_rows (fun o => pending o
      && match o.(o_lease_until) with Some until => now <=? until | None => false end) s.(outbox);
    ls_outbox_delivered := count_rows (fun o => is_some o.(o_delivered_at)) s.(outbox);
    ls_outbox_superseded := count_rows (fun o => is_some o.(o_superseded_at)) s.(outbox);
    ls_task_projections := count s.(task_projections);
    ls_direct_attempts_running := attempts_in "RUNNING" s;
    ls_direct_attempts_complete := attempts_in "COMPLETE" s;
    ls_direct_attempts_failed := attempts_in "FAILED" s;
    ls_webhook_deliveries := count s.(webhook_deliveries);
    ls_workspace_retirements := count s.(workspace_retirements);
    ls_review_observations := count s.(review_observations);
  |}.

(** Every case is reported once, and nothing else. *)
Lemma status_cases_elem c s : c ∈ status_cases s <-> exists r, r ∈ s.(cases) /\ c = stored_case r.
Proof.
  unfold status_cases. rewrite list_elem_of_fmap. split.
  - intros (r & -> & Hr%order_by_elem). eauto.
  - intros (r & Hr & ->). exists r. split; [done|]. by apply order_by_elem.
Qed.
