(* ===== verification/ProjectionRetry.v ===== *)
(** * ProjectionRetry: board tasks and their retries

    crates/pip-store/src/projection_retry.rs, and the task projection queries of
    crates/pip-store/src/lib.rs.  A rejected result of a board task is retried by
    a fresh projection of the same frozen job, without a ledger transition. *)

From S2P Require Import Prelude Text Json Sql Tables Inputs Frozen StoreCore.
Open Scope Z_scope.

Definition RETRY_OF : string := "pip_retry_of".
Definition MAX_RETRY_ERROR_BYTES : Z := 4096.

Inductive ProjectionRejection :=
| Retry (projection_id : string) (attempt : Z)
| Exhausted (attempts : Z).

Record PendingProjection := {
  pp_projection_id : string; pp_effect_id : string; pp_board : string; pp_desired : Value;
}.

(** The longest prefix of whole characters within [max] bytes. *)
Fixpoint take_bytes (max : Z) (l : list (Z * string)) : string :=
  match l with
  | [] => ""
  | c :: l => if len c.2 <=? max then c.2 +:+ take_bytes (max - len c.2) l else ""
  end.
Definition bounded (text : string) : string := take_bytes MAX_RETRY_ERROR_BYTES (chars text).

Definition find_projection (s : Store) (id : string) : option ProjectionRow :=
  List.find (fun p => String.eqb p.(p_projection_id) id) s.(task_projections).

(** [as_u64().and_then(|attempt| u32::try_from(attempt).ok())]. *)
Definition retry_attempt (desired : Value) : option Z :=
  n ← as_u64 (index desired "attempt"); if n <=? u32_max then Some n else None.

(** The job a projection stands for, and which attempt at it the projection is. *)
Definition root_attempt (projection_id : string) (desired : Value) : result StoreError (string * Z) :=
  match get desired RETRY_OF ≫= as_str with
  | Some root =>
      attempt ← ok_or (retry_attempt desired) (InvalidInput "invalid retry projection");
      Ok (root, attempt)
  | None => Ok (projection_id, 1)
  end.

(** [attempt + 1] on [u32] in the release profile. *)
Definition next_attempt (attempt : Z) : Z := (attempt + 1) mod (u32_max + 1).
Definition retry_id (root : string) (attempt : Z) : string :=
  root +:+ ":attempt:" +:+ show (next_attempt attempt).
Definition rejection_id (projection_id : string) : string := "projection-rejected:" +:+ projection_id.

Definition rejected_evidence (projection_id task_id root reason : string) (attempt : Z) : EvidenceInput := {|
  vi_evidence_id := rejection_id projection_id; vi_kind := "WORKER_RESULT_REJECTED";
  vi_source := root;
  vi_payload := json_object [("projection_id", Str projection_id); ("task_id", Str task_id);
                             ("attempt", Number attempt); ("reason", Str reason)] |}.
Definition retry_desired (root reason : string) (attempt not_before : Z) : Value :=
  json_object [(RETRY_OF, Str root); ("attempt", Number (next_attempt attempt));
               ("previous_result_error", Str reason); ("not_before", Number not_before)].

Section projections.
Context `{Codec}.

(** The writes of a first rejection. *)
Definition record_rejection (p : ProjectionRow) (task_id root reason : string)
    (attempt max_attempts now cooldown : Z) (s : Store) : result StoreError Store :=
  s ← insert_evidence p.(p_case_key) now
        [rejected_evidence p.(p_projection_id) task_id root reason attempt] s;
  if attempt <? max_attempts then
    not_before ← ok_or (checked_add u64_max now cooldown) InvalidInteger;
    at_ ← sql_u64 now;
    insert_projection_row {| p_projection_id := retry_id root attempt;
      p_case_key := p.(p_case_key); p_effect_id := p.(p_effect_id); p_board := p.(p_board);
      p_task_id := None; p_desired_json := to_string (retry_desired root reason attempt not_before);
      p_observed_json := None; p_reconciled_at := Some at_ |} s
  else Ok s.

Definition reject_task_projection (projection_id : string) (now : Z) (reason : string)
    (max_attempts cooldown : Z) (s : Store) : result StoreError (ProjectionRejection * Store) :=
  ensure_writable s;;
  let reason := bounded (trim reason) in
  err_if (blank projection_id || is_empty reason || (max_attempts =? 0))
    (InvalidInput "projection, reason, and attempt budget are required");;
  p ← ok_or (find_projection s projection_id) (InvalidInput "unknown task projection");
  task_id ← ok_or p.(p_task_id) (InvalidInput "projection has no task yet");
  desired ← parse_json p.(p_desired_json);
  '(root, attempt) ← root_attempt projection_id desired;
  let already := exists_row (fun v => String.eqb v.(v_evidence_id) (rejection_id projection_id))
                   s.(evidence) in
  s ← (if already then Ok s
       else record_rejection p task_id root reason attempt max_attempts now cooldown s);
  Ok (if is_some (find_projection s (retry_id root attempt))
      then Retry (retry_id root attempt) (next_attempt attempt)
      else Exhausted attempt, s).

Definition projection_attempt (projection_id : string) (s : Store) : result StoreError Z :=
  p ← ok_or (find_projection s projection_id) (InvalidInput "unknown task projection");
  desired ← parse_json p.(p_desired_json);
  if is_none (get desired RETRY_OF) then Ok 1
  else ok_or (retry_attempt desired) (InvalidInput "invalid retry projection").

(** [":attempt:{attempt}"] appended to one text member of the job. *)
Definition retag (attempt : Z) (key : string) (m : list (string * Value))
  : option (list (string * Value)) :=
  value ← (map_get key m ≫= as_str);
  Some (map_insert key (Str (value +:+ ":attempt:" +:+ show attempt)) m).

Definition resolve_projection_desired (s : Store) (effect_id : string) (desired : Value)
  : result StoreError Value :=
  let invalid := InvalidInput "invalid retry projection" in
  match get desired RETRY_OF ≫= as_str with
  | None => resolve_output s effect_id Hermes desired
  | Some root =>
      attempt ← ok_or (as_u64 (index desired "attempt")) invalid;
      error ← ok_or (as_str (index desired "previous_result_error")) invalid;
      p ← ok_or (find_projection s root) invalid;
      root_desired ← parse_json p.(p_desired_json);
      err_if (negb (String.eqb p.(p_effect_id) effect_id) || is_some (get root_desired RETRY_OF)) invalid;;
      resolved ← resolve_output s effect_id Hermes root_desired;
      object ← ok_or (as_object resolved) invalid;
      object ← ok_or (retag attempt "projection_key" object) invalid;
      object ← ok_or (retag attempt "effect_id" object) invalid;
      body ← ok_or (map_get "body" object ≫= as_object) invalid;
      Ok (Object (map_insert "body"
            (Object (map_insert "previous_result_error" (Str error) body)) object))
  end.

(** [a <= b] used as a condition. *)
Definition sql_le (a b : SqlVal) : bool :=
  match a, b with SNull, _ | _, SNull => false | _, _ => negb (sql_lt b a) end.

(** The scope of a query: a repository, or one of its cases. *)
Definition in_scope (repository : option Z) (case_key : option string) (c : CaseRow) : bool :=
  match repository with Some r => c.(c_repository_id) =? r | None => true end
  && match case_key with Some k => String.eqb c.(c_case_key) k | None => true end.

(** [ORDER BY p.reconciled_at, p.projection_id], NULL first. *)
Definition projection_order (a b : ProjectionRow) : bool :=
  match a.(p_reconciled_at), b.(p_reconciled_at) with
  | None, None => str_leb a.(p_projection_id) b.(p_projection_id)
  | None, Some _ => true
  | Some _, None => false
  | Some m, Some n => key_leb (m, a.(p_projection_id)) (n, b.(p_projection_id))
  end.

Definition due_retry (repository now : Z) (case_key : option string) (s : Store) (p : ProjectionRow)
  : result SqlError bool :=
  and_then (is_none p.(p_task_id)
            && exists_row (fun c => String.eqb c.(c_case_key) p.(p_case_key)
                                    && in_scope (Some repository) case_key c) s.(cases))
    (root ← json_extract p.(p_desired_json) [RETRY_OF];
     at_ ← json_extract p.(p_desired_json) ["not_before"%string];
     Ok (match root with SNull => false | _ => true end && sql_le at_ (SInt now))).

Definition pending_projection_retries (repository_id : Z) (case_key : option string) (now : Z) (s : Store)
  : result StoreError (list PendingProjection) :=
  repository ← sql_u64 repository_id;
  at_ ← sql_u64 now;
  rows ← db (try_filter (due_retry repository at_ case_key s) s.(task_projections));
  try_map (fun p =>
    raw ← parse_json p.(p_desired_json);
    desired ← resolve_projection_desired s p.(p_effect_id) raw;
    Ok {| pp_projection_id := p.(p_projection_id); pp_effect_id := p.(p_effect_id);
          pp_board := p.(p_board); pp_desired := desired |}) (order_by projection_order rows).

(** [UPDATE task_projections SET ... WHERE]: the table has no triggers, and the
    new columns carry no constraint. *)
Definition bind_task (task_id observed : string) (at_ : Z) (p : ProjectionRow) : ProjectionRow := {|
  p_projection_id := p.(p_projection_id); p_case_key := p.(p_case_key);
  p_effect_id := p.(p_effect_id); p_board := p.(p_board); p_task_id := Some task_id;
  p_desired_json := p.(p_desired_json); p_observed_json := Some observed;
  p_reconciled_at := Some at_ |}.
Definition unbound (projection_id : string) (p : ProjectionRow) : bool :=
  String.eqb p.(p_projection_id) projection_id && is_none p.(p_task_id).

Definition record_projection_task (projection_id task_id : string) (observed : Value) (now : Z) (s : Store)
  : result StoreError (() * Store) :=
  ensure_writable s;;
  err_if (blank projection_id || blank task_id) (InvalidInput "projection and task are required");;
  at_ ← sql_u64 now;
  let '(rows, updated) := update_where (unbound projection_id) (bind_task task_id (to_string observed) at_)
                            s.(task_projections) in
  if updated =? 1 then Ok ((), set_task_projections rows s)
  else
    match find_projection s projection_id with
    | Some p =>
        if bool_decide (p.(p_task_id) = Some task_id) then Ok ((), set_task_projections rows s)
        else Err (IdempotencyConflict ("projection:" +:+ projection_id))
    | None => Err (InvalidInput "unknown task projection")
    end.

(** ** Queries of the projections *)

Definition task_projection (projection_id : string) (s : Store)
  : result StoreError (option TaskProjectionInput) :=
  match find_projection s projection_id with
  | None => Ok None
  | Some p =>
      observed ← ok_or p.(p_observed_json) (Database InvalidColumnType);
      task ← ok_or p.(p_task_id) (Database InvalidColumnType);
      raw ← parse_json p.(p_desired_json);
      desired ← resolve_output s p.(p_effect_id) Hermes raw;
      observed ← parse_json observed;
      Ok (Some {| pi_projection_id := p.(p_projection_id); pi_effect_id := p.(p_effect_id);
                  pi_board := p.(p_board); pi_task_id := task; pi_desired := desired;
                  pi_observed := observed |})
  end.

(** A bound projection with neither a run nor a rejection. *)
Definition unconsumed (repository : option Z) (case_key : option string) (s : Store) (p : ProjectionRow) : bool :=
  match p.(p_task_id) with
  | None => false
  | Some task => negb (exists_row (fun r => String.eqb r.(r_task_id) task) s.(runs))
  end
  && negb (exists_row (fun v => String.eqb v.(v_evidence_id) (rejection_id p.(p_projection_id))) s.(evidence))
  && exists_row (fun o => String.eqb o.(o_effect_id) p.(p_effect_id)
       && exists_row (fun c => String.eqb c.(c_case_key) o.(o_case_key) && in_scope repository case_key c)
            s.(cases)) s.(outbox).

Definition unconsumed_task_projections_inner (repository_id : option Z) (case_key : option string) (s : Store)
  : result StoreError (list TaskProjectionInput) :=
  repository ← sql_u64_opt repository_id;
  try_map (fun p =>
    task ← ok_or p.(p_task_id) (Database InvalidColumnType);
    observed ← ok_or p.(p_observed_json) (Database InvalidColumnType);
    raw ← parse_json p.(p_desired_json);
    desired ← resolve_projection_desired s p.(p_effect_id) raw;
    observed ← parse_json observed;
    Ok {| pi_projection_id := p.(p_projection_id); pi_effect_id := p.(p_effect_id);
          pi_board := p.(p_board); pi_task_id := task; pi_desired := desired;
          pi_observed := observed |})
    (order_by projection_order (List.filter (unconsumed repository case_key s) s.(task_projections))).

Definition unconsumed_task_projections (s : Store) : result StoreError (list TaskProjectionInput) :=
  unconsumed_task_projections_inner None None s.
Definition unconsumed_task_projections_in (repository_id : Z) (case_key : option string) (s : Store)
  : result StoreError (list TaskProjectionInput) :=
  err_if ((repository_id =? 0) || match case_key with Some k => blank k | None => false end)
    (InvalidInput "valid repository and case scope required");;
  unconsumed_task_projections_inner (Some repository_id) case_key s.
End projections.

(** ** Facts *)

Lemma find_app_some {A} (f : A -> bool) l k x :
  List.find f l = Some x -> List.find f (l ++ k) = Some x.
Proof. induction l as [|y l IH]; simpl; [done|]. by destruct (f y). Qed.
Lemma find_app_none {A} (f : A -> bool) l k :
  List.find f l = None -> List.find f (l ++ k) = List.find f k.
Proof. induction l as [|y l IH]; simpl; [done|]. by destruct (f y). Qed.

Section facts.
Context `{Codec}.

Lemma insert_projection_row_inv r s s' :
  insert_projection_row r s = Ok s' ->
  s' = set_task_projections (s.(task_projections) ++ [r]) s
  /\ find_projection s r.(p_projection_id) = None.
Proof.
  unfold insert_projection_row, constraint_if, find_projection. intros Hi.
  destruct (exists_row _ (task_projections s)) eqn:E; [done|]. simpl in Hi. case_match; [done|].
  simplify_eq. split; [done|]. destruct (List.find _ _) as [q|] eqn:Hf; [|done].
  apply find_some in Hf as [Hq%list_elem_of_In Hid].
  rewrite exists_row_false, Forall_forall in E. specialize (E q Hq). simpl in E. congruence.
Qed.

(** What a rejection leaves: the evidence of it, and the projections, to which
    a first rejection within the budget adds the next attempt. *)
Lemma record_rejection_inv p task root reason attempt max now cooldown s s' :
  record_rejection p task root reason attempt max now cooldown s = Ok s' ->
  s'.(read_only) = s.(read_only)
  /\ exists_row (fun v => String.eqb v.(v_evidence_id) (rejection_id p.(p_projection_id))) s'.(evidence) = true
  /\ if attempt <? max then exists row not_before,
       s'.(task_projections) = s.(task_projections) ++ [row]
       /\ find_projection s (retry_id root attempt) = None
       /\ row.(p_projection_id) = retry_id root attempt /\ row.(p_effect_id) = p.(p_effect_id)
       /\ row.(p_case_key) = p.(p_case_key) /\ row.(p_task_id) = None
       /\ row.(p_desired_json) = to_string (retry_desired root reason attempt not_before)
       /\ not_before = now + cooldown /\ not_before <= u64_max
     else s'.(task_projections) = s.(task_projections).
Proof.
  unfold record_rejection. intros Hr. apply bind_ok in Hr as (s0 & He & Hr).
  assert (s0.(read_only) = s.(read_only) /\ s0.(task_projections) = s.(task_projections)
    /\ exists_row (fun v => String.eqb v.(v_evidence_id) (rejection_id p.(p_projection_id)))
         s0.(evidence) = true) as (Hro & Htp & Hin).
  { simpl in He. unfold insert_evidence_row in He. inv_store. split_and!; [done..|].
    unfold exists_row. simpl. rewrite existsb_app. simpl. by rewrite String.eqb_refl, orb_true_r. }
  destruct (attempt <? max); [|by simplify_eq].
  apply bind_ok in Hr as (at0 & Hadd & Hr). apply bind_ok in Hr as (at1 & _ & Hr).
  apply insert_projection_row_inv in Hr as [-> Hnone]. unfold find_projection in Hnone.
  rewrite Htp in Hnone. apply ok_or_ok in Hadd. unfold checked_add in Hadd. case_match; simplify_eq.
  split_and!; [done..|]. eexists _, (now + cooldown). simpl. rewrite Htp. split_and!; try done. lia.
Qed.

Lemma next_attempt_range n : 0 <= next_attempt n <= u32_max.
Proof. unfold next_attempt. pose proof (Z.mod_pos_bound (n + 1) (u32_max + 1)). unfold u32_max in *. lia. Qed.

(** The stored attempt of a scheduled retry reads back. *)
Lemma retry_desired_parses `{!CodecLaws _} root reason attempt not_before :
  0 <= not_before <= u64_max ->
  parse_json (to_string (retry_desired root reason attempt not_before))
  = Ok (retry_desired root reason attempt not_before).
Proof.
  intros Hn. unfold parse_json. rewrite from_to_string; [done|].
  assert (0 <= next_attempt attempt <= u32_max) by (apply next_attempt_range).
  simpl. unfold i64_max, u64_max, u32_max in *.
  rewrite !(proj2 (Z.leb_le _ _)) by lia. done.
Qed.

Definition rejected (id : string) (s : Store) : bool :=
  exists_row (fun v => String.eqb v.(v_evidence_id) (rejection_id id)) s.(evidence).
Definition answer (s : Store) (root : string) (attempt : Z) : ProjectionRejection :=
  if is_some (find_projection s (retry_id root attempt))
  then Retry (retry_id root attempt) (next_attempt attempt) else Exhausted attempt.

Lemma reject_inv id now reason budget wait s r s1 :
  reject_task_projection id now reason budget wait s = Ok (r, s1) <->
  s.(read_only) = false /\ blank id = false /\ bounded (trim reason) <> ""%string /\ budget <> 0
  /\ exists p task desired root attempt,
    find_projection s id = Some p /\ p.(p_task_id) = Some task
    /\ parse_json p.(p_desired_json) = Ok desired /\ root_attempt id desired = Ok (root, attempt)
    /\ (if rejected id s then s1 = s
        else record_rejection p task root (bounded (trim reason)) attempt budget now wait s = Ok s1)
    /\ r = answer s1 root attempt.
Proof.
  unfold reject_task_projection. fold (rejected id s). split.
  - intros Hr. apply bind_ok in Hr as ([] & Hw & Hr). apply ensure_writable_ok in Hw.
    apply bind_ok in Hr as ([] & Hi & Hr). apply err_if_ok in Hi. bools.
    apply bind_ok in Hr as (p & Hp & Hr). apply bind_ok in Hr as (task & Ht & Hr).
    apply bind_ok in Hr as (d & Hd & Hr). apply bind_ok in Hr as ([root n] & Hn & Hr).
    apply bind_ok in Hr as (s2 & Hs & [= <- <-]). apply ok_or_ok in Hp, Ht.
    split_and!; try done.
    + intros Hb. rewrite Hb in *. done.
    + exists p, task, d, root, n. split_and!; try done. by destruct (rejected id s); [simplify_eq|].
  - intros (Hw & Hid & Hreason & Hb & p & task & d & root & n & Hp & Ht & Hd & Hn & Hs & ->).
    rewrite (proj2 (ensure_writable_ok s ()) Hw). simpl. rewrite Hid. simpl.
    destruct (bounded (trim reason)); [done|]. simpl. rewrite (proj2 (Z.eqb_neq _ _) Hb). simpl.
    rewrite Hp. simpl. rewrite Ht. simpl. rewrite Hd. simpl. rewrite Hn. simpl.
    destruct (rejected id s); [by subst|]. by rewrite Hs.
Qed.

Lemma record_rejection_find p task root reason n budget now wait s s1 id q :
  record_rejection p task root reason n budget now wait s = Ok s1 ->
  find_projection s id = Some q -> find_projection s1 id = Some q.
Proof.
  intros (_ & _ & Hp)%record_rejection_inv Hf. unfold find_projection in *.
  case_match; [destruct Hp as (row & t & -> & _)|by rewrite Hp]. by apply find_app_some.
Qed.

(** ** Theorems *)

(** A rejection counts once.  Once a rejection of a board task is recorded,
    rejecting the same projection again, at any time, for any reason and with any
    budget, gives the same answer and changes nothing. *)
Theorem rejection_counts_once (id reason reason' : string) (now now' budget budget' wait wait' : Z)
  (s s1 : Store) (r : ProjectionRejection)
  (Hfirst : reject_task_projection id now reason budget wait s = Ok (r, s1))
  (Hreason : bounded (trim reason') <> ""%string) (Hbudget : budget' <> 0) :
  reject_task_projection id now' reason' budget' wait' s1 = Ok (r, s1).
Proof.
  apply reject_inv in Hfirst as (Hw & Hid & _ & _ & p & task & d & root & n & Hp & Ht & Hd & Hn & Hs & ->).
  apply find_some in Hp as Hpid. destruct Hpid as [_ Hpid%String.eqb_eq].
  apply reject_inv. destruct (rejected id s) eqn:Hrej.
  - subst s1. split_and!; try done. exists p, task, d, root, n. by rewrite Hrej.
  - pose proof (record_rejection_find _ _ _ _ _ _ _ _ _ _ _ _ Hs Hp) as Hp1.
    apply record_rejection_inv in Hs as (Hw1 & Hev & _). rewrite Hpid in Hev.
    split_and!; try done; [congruence|]. exists p, task, d, root, n. unfold rejected. by rewrite Hev.
Qed.

(** Retries stay within the budget.  A first rejection of the [n]-th attempt
    at a job schedules attempt [n + 1] of the same job, not due before the wait is
    over and not yet bound to a task, exactly when the budget allows more than [n]
    attempts; otherwise no projection is added. *)
Theorem rejection_within_budget `{!CodecLaws _} (id reason root : string) (now budget wait n : Z)
  (s s1 : Store) (r : ProjectionRejection) (p : ProjectionRow) (desired : Value)
  (Hreject : reject_task_projection id now reason budget wait s = Ok (r, s1))
  (Hfresh : rejected id s = false) (Hp : find_projection s id = Some p)
  (Hdesired : parse_json p.(p_desired_json) = Ok desired)
  (Hroot : root_attempt id desired = Ok (root, n)) (Hn : 0 <= n) (Hbudget : budget <= u32_max)
  (Htime : 0 <= now + wait) :
  if n <? budget then
    exists next row, r = Retry next (n + 1) /\ find_projection s next = None
      /\ find_projection s1 next = Some row /\ s1.(task_projections) = s.(task_projections) ++ [row]
      /\ row.(p_effect_id) = p.(p_effect_id) /\ row.(p_task_id) = None
      /\ projection_attempt next s1 = Ok (n + 1)
      /\ parse_json row.(p_desired_json) = Ok (retry_desired root (bounded (trim reason)) n (now + wait))
  else s1.(task_projections) = s.(task_projections).
Proof.
  apply reject_inv in Hreject as (_ & _ & _ & _ & p' & t & d' & root' & n' & Hp' & _ & Hd' & Hr' & Hs & ->).
  rewrite Hp in Hp'. simplify_eq. rewrite Hdesired in Hd'. simplify_eq. rewrite Hroot in Hr'. simplify_eq.
  rewrite Hfresh in Hs. apply record_rejection_inv in Hs as (_ & _ & Hs).
  destruct (Z.ltb_spec n' budget) as [Hlt|]; [|done].
  destruct Hs as (row & nb & Htp & Hnone & Hid & Heff & _ & Htask & Hj & -> & Hmax).
  assert (next_attempt n' = n' + 1) as Hnext.
  { unfold next_attempt. apply Z.mod_small. unfold u32_max in *. lia. }
  assert (find_projection s1 (retry_id root' n') = Some row) as Hfind.
  { unfold find_projection in *. rewrite Htp, find_app_none by done. simpl. by rewrite Hid, String.eqb_refl. }
  pose proof (retry_desired_parses root' (bounded (trim reason)) n' (now + wait)) as Hparse.
  exists (retry_id root' n'), row. unfold answer. rewrite Hfind. simpl. rewrite Hnext.
  split_and!; try done.
  - unfold projection_attempt. rewrite Hfind. simpl. rewrite Hj, Hparse by lia. simpl.
    unfold retry_attempt. simpl. rewrite Hnext. unfold u32_max, u64_max in *.
    rewrite !(proj2 (Z.leb_le _ _)) by lia. simpl. by rewrite !(proj2 (Z.leb_le _ _)) by lia.
  - rewrite Hj. apply Hparse. lia.
Qed.
End facts.

(** ** An execution: a reviewer's first result is rejected. *)

Definition demo_projected : Store :=
  set_task_projections [{| p_projection_id := "p"; p_case_key := "repo:1#2@3"; p_effect_id := "x";
    p_board := "board"; p_task_id := Some "t1"%string;
    p_desired_json := to_string (Codec := demo_codec) (Object []);
    p_observed_json := None; p_reconciled_at := Some 100 |}]
  (set_outbox [{| o_effect_id := "x"; o_case_key := "repo:1#2@3"; o_state_revision := 1;
    o_effect_type := "DISPATCH_REVIEWERS"; o_payload_json := ""; o_payload_sha256 := "";
    o_created_at := 90; o_lease_owner := None; o_lease_until := None; o_delivered_at := Some 100;
    o_superseded_at := None; o_superseded_by_event_id := None |}]
  (set_cases [{| c_case_key := "repo:1#2@3"; c_repository_id := 1; c_issue_number := 2;
    c_workflow_version := 3; c_state := "REVIEWING"; c_state_revision := 1; c_policy_revision := 1;
    c_remediation_round := 0; c_plan_version := 1; c_pr_number := None; c_head_sha := None;
    c_created_at := 80; c_updated_at := 80 |}] empty_store)).
Definition demo_rejected : Store :=
  match reject_task_projection (H := demo_codec) "p" 110 "malformed" 2 60 demo_projected with
  | Ok (_, s) => s | Err _ => empty_store
  end.

Lemma rejection_counts_once_witness :
  reject_task_projection (H := demo_codec) "p" 500 "again" 9 0 demo_rejected
  = Ok (Retry "p:attempt:2" 2, demo_rejected).
Proof.
  apply (rejection_counts_once (H := demo_codec) "p" "malformed" "again" 110 500 2 9 60 0
           demo_projected demo_rejected (Retry "p:attempt:2" 2)); by vm_compute.
Defined.

Lemma rejection_within_budget_witness :
  exists next row, Retry "p:attempt:2" 2 = Retry next (1 + 1)
    /\ find_projection demo_rejected next = Some row /\ row.(p_task_id) = None.
Proof.
  destruct (rejection_within_budget (H := demo_codec) "p" "malformed" "p" 110 2 60 1
              demo_projected demo_rejected (Retry "p:attempt:2" 2)
              (default {| p_projection_id := ""; p_case_key := ""; p_effect_id := ""; p_board := "";
                          p_task_id := None; p_desired_json := ""; p_observed_json := None;
                          p_reconciled_at := None |} (find_projection demo_projected "p")) (Object []))
    as (next & row & Hr & _ & Hf & _ & _ & Ht & _); try by vm_compute.
  by exists next, row.
Defined.
