(* ===== verification/History.v ===== *)
(** * History: the case projection and the event history agree

    The invariant that ties the mutable [cases] table to the immutable [events]
    table, and that the two operations that write both maintain it. *)

From S2P Require Import Prelude Text Json Sql Tables Inputs Frozen Recovery StoreCore.
Open Scope Z_scope.

(** The row a case has right after an event. *)
Definition projects (e : EventRow) (c : CaseRow) : Prop :=
  c.(c_state) = e.(e_next_state) /\ c.(c_policy_revision) = e.(e_policy_revision)
  /\ c.(c_remediation_round) = e.(e_remediation_round) /\ c.(c_plan_version) = e.(e_plan_version)
  /\ c.(c_pr_number) = e.(e_pr_number) /\ c.(c_head_sha) = e.(e_head_sha).

(** Where an event stands: its case and revision. *)
Definition slot (e : EventRow) : string * Z := (e.(e_case_key), e.(e_state_revision)).

(** The columns of an event as the Rust types bound them. *)
Definition event_ranges (e : EventRow) : Prop :=
  1 <= e.(e_policy_revision) /\ is_u32 e.(e_remediation_round) /\ is_u32 e.(e_plan_version)
  /\ match e.(e_pr_number) with Some n => 0 <= n | None => True end.

Record ledger_inv (cs : list CaseRow) (es : list EventRow) : Prop := {
  (* case keys and event identifiers are unique *)
  inv_keys : NoDup (c_case_key <$> cs);
  inv_ids : NoDup (e_event_id <$> es);
  inv_slots : NoDup (slot <$> es);
  (* revisions 1 .. state_revision of a case are exactly its events *)
  inv_event_case : forall e, e ∈ es -> exists c, c ∈ cs /\ c.(c_case_key) = e.(e_case_key)
    /\ 1 <= e.(e_state_revision) <= c.(c_state_revision);
  inv_events : forall c n, c ∈ cs -> 1 <= n <= c.(c_state_revision) ->
    exists e, e ∈ es /\ slot e = (c.(c_case_key), n);
  inv_positive : forall c, c ∈ cs -> 1 <= c.(c_state_revision);
  (* the projection is the last event *)
  inv_projects : forall c e, c ∈ cs -> e ∈ es -> slot e = (c.(c_case_key), c.(c_state_revision)) ->
    projects e c;
  (* each event starts where the one before it ended *)
  inv_chain : forall e, e ∈ es ->
    match e.(e_previous_state) with
    | None => e.(e_state_revision) = 1
    | Some p => exists e', e' ∈ es /\ slot e' = (e.(e_case_key), e.(e_state_revision) - 1)
                           /\ e'.(e_next_state) = p
    end;
  inv_ranges : forall e, e ∈ es -> event_ranges e;
}.

Definition store_inv (s : Store) : Prop := ledger_inv s.(cases) s.(events).

Lemma ledger_inv_empty : ledger_inv [] [].
Proof. split; try constructor; set_solver. Qed.

Lemma key_unique cs c c' :
  NoDup (c_case_key <$> cs) -> c ∈ cs -> c' ∈ cs -> c.(c_case_key) = c'.(c_case_key) -> c = c'.
Proof.
  intros Hnd (i & Hi)%list_elem_of_lookup (j & Hj)%list_elem_of_lookup Hk.
  assert (i = j) as ->; [|congruence].
  eapply (NoDup_lookup _ i j (c_case_key c) Hnd); rewrite list_lookup_fmap, ?Hi, ?Hj; simpl; congruence.
Qed.
Lemma slot_unique es e e' :
  NoDup (slot <$> es) -> e ∈ es -> e' ∈ es -> slot e = slot e' -> e = e'.
Proof.
  intros Hnd (i & Hi)%list_elem_of_lookup (j & Hj)%list_elem_of_lookup Hk.
  assert (i = j) as ->; [|congruence].
  eapply (NoDup_lookup _ i j (slot e) Hnd); rewrite list_lookup_fmap, ?Hi, ?Hj; simpl; congruence.
Qed.

Lemma NoDup_snoc {A} (l : list A) x : NoDup l -> x ∉ l -> NoDup (l ++ [x]).
Proof. intros. apply NoDup_app. split_and!; [done|set_solver|apply NoDup_singleton]. Qed.

Lemma elem_of_snoc {A} (l : list A) x y : x ∈ l ++ [y] <-> x ∈ l \/ x = y.
Proof. set_solver. Qed.

(** A new case with its first event. *)
Lemma ledger_inv_create cs es c e :
  ledger_inv cs es ->
  c.(c_case_key) ∉ c_case_key <$> cs -> e.(e_event_id) ∉ e_event_id <$> es ->
  c.(c_state_revision) = 1 -> slot e = (c.(c_case_key), 1) -> e.(e_previous_state) = None ->
  projects e c -> event_ranges e ->
  ledger_inv (cs ++ [c]) (es ++ [e]).
Proof.
  intros [Hk Hi Hs Hec Hev Hpos Hpr Hch Hra] Hkey Hid Hrev Hslot Hprev Hproj Hrng.
  assert (Hfresh : forall e', e' ∈ es -> e'.(e_case_key) <> c.(c_case_key)).
  { intros e' He' Heq. destruct (Hec e' He') as (c' & Hc' & Hck & _).
    apply Hkey. apply list_elem_of_fmap. exists c'. split; [congruence|done]. }
  assert (He : e.(e_case_key) = c.(c_case_key) /\ e.(e_state_revision) = 1)
    by (unfold slot in Hslot; naive_solver).
  split.
  - rewrite fmap_app. by apply NoDup_snoc.
  - rewrite fmap_app. by apply NoDup_snoc.
  - rewrite fmap_app. apply NoDup_snoc; [done|]. rewrite list_elem_of_fmap.
    intros (e' & Heq & He'). apply (Hfresh e' He'). rewrite Hslot in Heq.
    unfold slot in Heq. naive_solver.
  - intros e' [He'| ->]%elem_of_snoc.
    + destruct (Hec e' He') as (c' & ? & ? & ?). exists c'. set_solver.
    + exists c. destruct He.
      split_and!; [set_solver|congruence|lia|lia].
  - intros c' n [Hc'| ->]%elem_of_snoc Hn.
    + destruct (Hev c' n Hc' Hn) as (e' & ? & ?). exists e'. set_solver.
    + exists e. split; [set_solver|].
      rewrite Hslot. f_equal. lia.
  - intros c' [Hc'| ->]%elem_of_snoc; [auto|]. lia.
  - intros c' e' [Hc'| ->]%elem_of_snoc [He'| ->]%elem_of_snoc Hsl.
    + by apply Hpr.
    + exfalso. apply Hkey.
      rewrite Hslot in Hsl. apply list_elem_of_fmap. exists c'. split; [congruence|done].
    + exfalso. apply (Hfresh e' He').
      unfold slot in Hsl. naive_solver.
    + done.
  - intros e' [He'| ->]%elem_of_snoc.
    + specialize (Hch e' He'). destruct (e_previous_state e') as [p|]; [|done].
      destruct Hch as (e2 & ? & ? & ?). exists e2. set_solver.
    + rewrite Hprev. naive_solver.
  - intros e' [He'| ->]%elem_of_snoc; auto.
Qed.

(** Updating the one row of a case. *)
Definition update_row (p : CaseRow -> bool) (f : CaseRow -> CaseRow) (cs : list CaseRow) : list CaseRow :=
  map (fun x => if p x then f x else x) cs.

Section update_row.
Context (cs : list CaseRow) (p : CaseRow -> bool) (f : CaseRow -> CaseRow) (c : CaseRow).
Context (Hkeys : NoDup (c_case_key <$> cs)) (Hc : c ∈ cs).
Context (Hp : forall x, x ∈ cs -> p x = true <-> x = c).

Lemma update_row_inv x :
  x ∈ update_row p f cs -> x = f c \/ (x ∈ cs /\ x.(c_case_key) <> c.(c_case_key)).
Proof.
  unfold update_row. rewrite list_elem_of_In, in_map_iff. intros (y & Hy & Hin%list_elem_of_In).
  destruct (p y) eqn:E; [left|right].
  - apply Hp in E; [|done]. congruence.
  - subst y. split; [done|]. intros Heq. apply not_true_iff_false in E. apply E, Hp; [done|].
    by eapply key_unique.
Qed.
Lemma update_row_keep x : x ∈ cs -> x <> c -> x ∈ update_row p f cs.
Proof.
  intros Hx Hne. unfold update_row. rewrite list_elem_of_In, in_map_iff. exists x.
  split; [|by apply list_elem_of_In]. destruct (p x) eqn:E; [|done]. by apply Hp in E.
Qed.
Lemma update_row_new : f c ∈ update_row p f cs.
Proof.
  unfold update_row. rewrite list_elem_of_In, in_map_iff. exists c. split; [|by apply list_elem_of_In].
  by rewrite (proj2 (Hp c Hc) eq_refl).
Qed.
Lemma update_row_keys :
  (f c).(c_case_key) = c.(c_case_key) -> c_case_key <$> update_row p f cs = c_case_key <$> cs.
Proof.
  intros Hf. clear Hkeys Hc. induction cs as [|x l IH]; [done|]. csimpl. f_equal.
  - destruct (p x) eqn:E; [|done]. apply Hp in E as ->; [done|set_solver].
  - apply IH. intros. apply Hp. set_solver.
Qed.
End update_row.

(** The next event of an existing case. *)
Lemma ledger_inv_advance cs es p f c e :
  ledger_inv cs es -> c ∈ cs -> (forall x, x ∈ cs -> p x = true <-> x = c) ->
  (f c).(c_case_key) = c.(c_case_key) ->
  (f c).(c_state_revision) = c.(c_state_revision) + 1 ->
  e.(e_event_id) ∉ e_event_id <$> es ->
  slot e = (c.(c_case_key), c.(c_state_revision) + 1) ->
  e.(e_previous_state) = Some c.(c_state) -> projects e (f c) -> event_ranges e ->
  ledger_inv (update_row p f cs) (es ++ [e]).
Proof.
  intros [Hk Hi Hs Hec Hev Hpos Hpr Hch Hra] Hc Hp Hfk Hfr Hid Hslot Hprev Hproj Hrng.
  pose proof (update_row_inv cs p f c Hk Hc Hp) as Hmap.
  pose proof (update_row_keep cs p f c Hp) as Hkeep.
  pose proof (update_row_new cs p f c Hc Hp) as Hnew.
  pose proof (Hpos c Hc) as Hpc.
  assert (Hes : forall e', e' ∈ es -> slot e' <> (c.(c_case_key), c.(c_state_revision) + 1)).
  { intros e' He' [= Hek Her]. destruct (Hec e' He') as (c' & Hc' & Hck & Hr).
    assert (c' = c) as -> by (eapply key_unique; eauto; congruence). lia. }
  split.
  - by rewrite (update_row_keys cs p f c).
  - rewrite fmap_app. by apply NoDup_snoc.
  - rewrite fmap_app. apply NoDup_snoc; [done|]. rewrite list_elem_of_fmap.
    intros (e' & Heq & He'). apply (Hes e' He'). congruence.
  - intros e' [He'| ->]%elem_of_snoc.
    + destruct (Hec e' He') as (c' & Hc' & Hck & Hr). destruct (decide (c' = c)) as [->|]; [|eauto].
      exists (f c). split_and!; [done|congruence|lia|lia].
    + exists (f c). injection Hslot as ? ?. split_and!; [done|congruence|lia|lia].
  - intros x n Hx Hn. destruct (Hmap x Hx) as [->|[Hin Hne]].
    + rewrite Hfk. destruct (decide (n = c.(c_state_revision) + 1)) as [->|]; [set_solver|].
      destruct (Hev c n Hc) as (e' & ? & ?); [lia|]. set_solver.
    + destruct (Hev x n Hin Hn) as (e' & ? & ?). set_solver.
  - intros x Hx. destruct (Hmap x Hx) as [->|[Hin _]]; [lia|auto].
  - intros x e' Hx [He'| ->]%elem_of_snoc Hsl;
      destruct (Hmap x Hx) as [->|[Hin Hne]]; [|by apply Hpr|done|].
    + exfalso. apply (Hes e' He'). rewrite Hsl. congruence.
    + exfalso. apply Hne. congruence.
  - intros e' [He'| ->]%elem_of_snoc.
    + specialize (Hch e' He'). case_match; [set_solver|done].
    + rewrite Hprev. destruct (Hev c (c.(c_state_revision)) Hc) as (e2 & He2 & Hs2); [lia|].
      exists e2. split_and!; [set_solver| |by destruct (Hpr c e2 Hc He2 Hs2) as [-> _]].
      rewrite Hs2. injection Hslot as -> ->. f_equal. lia.
  - intros e' [He'| ->]%elem_of_snoc; auto.
Qed.
