(* ===== verification/Frames.v ===== *)
(** * Frames: what each building block of a transaction writes

    Every insertion and update of the store as an equation between stores, and
    the complete effect of one applied transition. *)

From S2P Require Import Prelude Text Json Sql Tables Inputs Frozen Recovery StoreCore History.
Open Scope Z_scope.


(** ** Rows of the queue

    The constraints of [outbox] and [direct_attempts], as an invariant. *)
Record queue_inv (s : Store) : Prop := {
  q_ids : NoDup (o_effect_id <$> s.(outbox));
  q_check : forall o, o ∈ s.(outbox) -> outbox_check o = true;
  q_attempt_ids : NoDup (a_attempt_id <$> s.(direct_attempts));
  q_seq : 0 <= s.(attempt_seq);
  q_attempt_seq : forall a, a ∈ s.(direct_attempts) -> 1 <= a.(a_attempt_id) <= s.(attempt_seq);
  q_attempt_check : forall a, a ∈ s.(direct_attempts) -> attempt_check a = true;
  q_one : forall a b, a ∈ s.(direct_attempts) -> b ∈ s.(direct_attempts) ->
    attempt_clash a b = true -> a = b;
}.

Lemma queue_inv_empty : queue_inv empty_store.
Proof. split; simpl; try constructor; set_solver. Qed.

Lemma queue_inv_ext s s' :
  s'.(outbox) = s.(outbox) -> s'.(direct_attempts) = s.(direct_attempts) ->
  s'.(attempt_seq) = s.(attempt_seq) -> queue_inv s -> queue_inv s'.
Proof. intros Ho Ha Hs []. split; rewrite ?Ho, ?Ha, ?Hs; done. Qed.

(** Replacing the outbox. *)
Lemma queue_inv_outbox s rows :
  NoDup (o_effect_id <$> rows) -> (forall o, o ∈ rows -> outbox_check o = true) ->
  queue_inv s -> queue_inv (set_outbox rows s).
Proof. intros ?? []. split; done. Qed.

Lemma fmap_update {A B} (g : A -> B) (p : A -> bool) f l :
  (forall x, p x = true -> g (f x) = g x) -> g <$> (update_where p f l).1 = g <$> l.
Proof.
  intros Hg. simpl. induction l as [|x l IH]; [done|]. csimpl. f_equal; [|done].
  destruct (p x) eqn:E; auto.
Qed.
Lemma elem_update {A} (p : A -> bool) f l y :
  y ∈ (update_where p f l).1 -> exists x, x ∈ l /\ y = if p x then f x else x.
Proof.
  simpl. rewrite list_elem_of_In, in_map_iff. intros (x & <- & Hx%list_elem_of_In). eauto.
Qed.

Lemma queue_inv_update_outbox s p f :
  (forall o, p o = true -> (f o).(o_effect_id) = o.(o_effect_id)) ->
  (forall o, o ∈ s.(outbox) -> p o = true -> outbox_check (f o) = true) ->
  queue_inv s -> queue_inv (set_outbox (update_where p f s.(outbox)).1 s).
Proof.
  intros Hid Hck Hq. apply queue_inv_outbox; [|..|done].
  - rewrite fmap_update by done. apply Hq.
  - intros o (x & Hx & ->)%elem_update. destruct (p x) eqn:E; [by apply Hck|by apply Hq].
Qed.

Lemma insert_outbox_row_queue r s s' : insert_outbox_row r s = Ok s' -> queue_inv s -> queue_inv s'.
Proof.
  unfold insert_outbox_row, outbox_exists. intros Hi Hq. inv_store. bools.
  apply queue_inv_outbox; [|..|done].
  - rewrite fmap_app. apply NoDup_snoc; [apply Hq|].
    rename select (exists_row _ _ = false) into Hno. by apply exists_row_fresh in Hno.
  - intros o [Ho| ->]%elem_of_snoc; [by apply Hq|done].
Qed.

Section frames.
Context `{Codec}.

Lemma insert_effects_queue key rev at_ fx s s' :
  insert_effects key rev at_ fx s = Ok s' -> queue_inv s -> queue_inv s'.
Proof.
  revert s. induction fx as [|e fx IH]; intros s Hi Hq; simpl in Hi; [by inv_ok|].
  inv_ok. eapply IH; [done|]. by eapply insert_outbox_row_queue.
Qed.

Lemma set_outbox_id s : set_outbox (s.(outbox) ++ []) s = s.
Proof. rewrite app_nil_r. by destruct s. Qed.
Lemma set_evidence_id s : set_evidence (s.(evidence) ++ []) s = s.
Proof. rewrite app_nil_r. by destruct s. Qed.
Lemma set_findings_id s : set_findings (s.(findings) ++ []) s = s.
Proof. rewrite app_nil_r. by destruct s. Qed.
Lemma set_policies_id s : set_policies (s.(policies) ++ []) s = s.
Proof. rewrite app_nil_r. by destruct s. Qed.
Lemma set_runs_id s : set_runs (s.(runs) ++ []) s = s.
Proof. rewrite app_nil_r. by destruct s. Qed.

Lemma insert_effects_eq key rev at_ fx s s' :
  insert_effects key rev at_ fx s = Ok s' ->
  s' = set_outbox (s.(outbox) ++ (outbox_row key rev at_ <$> fx)) s.
Proof.
  revert s. induction fx as [|e fx IH]; intros s Hi; simpl in Hi.
  - inv_ok. by rewrite set_outbox_id.
  - unfold insert_outbox_row in Hi. inv_store.
    rename select (insert_effects _ _ _ _ _ = _) into Hr. apply IH in Hr as ->. simpl.
    by rewrite <-app_assoc.
Qed.

Definition evidence_row (key : string) (at_ : Z) (i : EvidenceInput) : EvidenceRow := {|
  v_evidence_id := i.(vi_evidence_id); v_case_key := key; v_kind := i.(vi_kind);
  v_source := i.(vi_source); v_observed_at := at_; v_payload_json := (payload i.(vi_payload)).1;
  v_payload_sha256 := (payload i.(vi_payload)).2 |}.
Definition finding_row (key event_id : string) (at_ : Z) (i : FindingInput) : FindingRow := {|
  f_finding_id := i.(ni_finding_id); f_case_key := key; f_origin_role := i.(ni_origin_role);
  f_reviewed_head_sha := i.(ni_reviewed_head_sha); f_payload_json := (payload i.(ni_payload)).1;
  f_payload_sha256 := (payload i.(ni_payload)).2; f_recorded_at := at_;
  f_event_id := Some event_id |}.
Definition run_row (key event_id : string) (at_ : Z) (r : RunInput) : RunRow := {|
  r_run_id := r.(ri_run_id); r_case_key := key; r_event_id := event_id; r_task_id := r.(ri_task_id);
  r_role := r.(ri_role); r_payload_json := (payload r.(ri_payload)).1;
  r_payload_sha256 := (payload r.(ri_payload)).2; r_accepted_at := at_ |}.

Lemma insert_evidence_eq key at_ l s s' :
  insert_evidence key at_ l s = Ok s' ->
  s' = set_evidence (s.(evidence) ++ (evidence_row key at_ <$> l)) s.
Proof.
  revert s. induction l as [|e l IH]; intros s Hi; simpl in Hi.
  - inv_ok. by rewrite set_evidence_id.
  - unfold insert_evidence_row in Hi. inv_store.
    rename select (insert_evidence _ _ _ _ = _) into Hr. apply IH in Hr as ->. simpl.
    by rewrite <-app_assoc.
Qed.
Lemma insert_findings_eq key id at_ l s s' :
  insert_findings key id at_ l s = Ok s' ->
  s' = set_findings (s.(findings) ++ (finding_row key id at_ <$> l)) s.
Proof.
  revert s. induction l as [|e l IH]; intros s Hi; simpl in Hi.
  - inv_ok. by rewrite set_findings_id.
  - unfold insert_finding_row in Hi. inv_store.
    rename select (insert_findings _ _ _ _ _ = _) into Hr. apply IH in Hr as ->. simpl.
    by rewrite <-app_assoc.
Qed.
Lemma insert_run_eq key id at_ r s s' :
  insert_run key id at_ r s = Ok s' -> s' = set_runs (s.(runs) ++ [run_row key id at_ r]) s.
Proof. unfold insert_run, insert_run_row. intros. by inv_store. Qed.
Lemma insert_event_eq r s s' :
  insert_event r s = Ok s' ->
  s' = set_events (s.(events) ++ [event_row r]) s
  /\ event_exists s r.(er_event).(ei_event_id) = false
  /\ case_exists s r.(er_case_key) = true /\ event_check (event_row r) = true
  /\ r.(er_revision) <= i64_max /\ r.(er_observed_at) <= i64_max.
Proof. unfold insert_event, insert_event_row. intros. inv_store. bools. done. Qed.

(** Only a budget extension writes before the event: it records its policy. *)
Lemma authorize_event_eq s current input rev s' :
  authorize_event s current input = Ok (rev, s') ->
  exists ys, s' = set_policies (s.(policies) ++ ys) s.
Proof.
  unfold authorize_event. intros Ha. apply bind_ok in Ha as (_ & _ & Ha).
  do 4 apply bind_ok in Ha as ([] & _ & Ha).
  destruct (String.eqb _ _); [|destruct (String.eqb _ _); [|destruct (String.eqb _ _)]].
  - inv_store. exists []. by rewrite set_policies_id.
  - unfold remediation_extension_validate in Ha. open_store. destruct (payload _). open_store.
    destruct (find_policy _ _ _); open_store; simplify_eq.
    + exists []. by rewrite set_policies_id.
    + unfold insert_policy_row in *. open_store. simplify_eq. eauto.
  - inv_store. exists []. by rewrite set_policies_id.
  - inv_store. exists []. by rewrite set_policies_id.
Qed.

Lemma project_transition_eq input next policy s s' :
  project_transition input next policy s = Ok s' ->
  s' = set_cases (update_row
    (fun x => String.eqb x.(c_case_key) input.(ti_case_key)
              && (x.(c_state_revision) =? input.(ti_expected_revision)))
    (advance_case input next policy) s.(cases)) s.
Proof. unfold project_transition, update_cases. intros. by inv_store. Qed.

(** Replace each write by the store it leaves. *)
Ltac open_frames :=
  repeat match goal with
  | Hx : insert_event _ _ = Ok _ |- _ => apply insert_event_eq in Hx as (-> & Hfresh & _ & Hcheck & _)
  | Hx : insert_evidence _ _ _ _ = Ok _ |- _ => apply insert_evidence_eq in Hx as ->
  | Hx : insert_findings _ _ _ _ _ = Ok _ |- _ => apply insert_findings_eq in Hx as ->
  | Hx : insert_effects _ _ _ _ _ = Ok _ |- _ => apply insert_effects_eq in Hx as ->
  | Hx : project_transition _ _ _ _ = Ok _ |- _ => apply project_transition_eq in Hx as ->
  end.

(** The complete effect of one applied transition. *)
Record applied (input : TransitionInput) (s s' : Store) (c : CaseRow) (policy : Z) : Prop := {
  ap_case : find_case s input.(ti_case_key) = Some c;
  ap_revision : unsigned c.(c_state_revision) = input.(ti_expected_revision);
  ap_cases : s'.(cases) = update_row
    (fun x => String.eqb x.(c_case_key) input.(ti_case_key)
              && (x.(c_state_revision) =? input.(ti_expected_revision)))
    (advance_case input (input.(ti_expected_revision) + 1) policy) s.(cases);
  ap_events : s'.(events) = s.(events) ++ [event_row (transition_event input (stored_case c)
                (input.(ti_expected_revision) + 1) policy)];
  ap_check : event_check (event_row (transition_event input (stored_case c)
                (input.(ti_expected_revision) + 1) policy)) = true;
  ap_fresh : event_exists s input.(ti_event).(ei_event_id) = false;
  ap_outbox : s'.(outbox) = (update_where
      (supersedes s'.(events) (stored_case c) input (input.(ti_expected_revision) + 1))
      (superseded input.(ti_observed_at) input.(ti_event).(ei_event_id)) s.(outbox)).1
    ++ (outbox_row input.(ti_case_key) (input.(ti_expected_revision) + 1) input.(ti_observed_at)
          <$> input.(ti_effects));
  ap_runs : s'.(runs) = s.(runs) ++ (match input.(ti_run) with
      | Some r => [run_row input.(ti_case_key) input.(ti_event).(ei_event_id) input.(ti_observed_at) r]
      | None => [] end);
  ap_evidence : s'.(evidence) = s.(evidence)
    ++ (evidence_row input.(ti_case_key) input.(ti_observed_at) <$> input.(ti_evidence));
  ap_findings : s'.(findings) = s.(findings) ++ (finding_row input.(ti_case_key)
      input.(ti_event).(ei_event_id) input.(ti_observed_at) <$> input.(ti_findings));
  ap_policies : exists ys, s'.(policies) = s.(policies) ++ ys;
  ap_authorized : exists s1, authorize_event s (stored_case c) input = Ok (policy, s1);
  ap_queue : queue_inv s -> queue_inv s';
  ap_rest : s' = set_cases s'.(cases) (set_events s'.(events) (set_outbox s'.(outbox)
    (set_runs s'.(runs) (set_evidence s'.(evidence) (set_findings s'.(findings)
      (set_policies s'.(policies) s))))));
}.

Lemma apply_one_queue fault input s s' : apply_one fault input s = Ok s' -> queue_inv s -> queue_inv s'.
Proof.
  unfold apply_one. intros Ha Hq. inv_store.
  rename select (insert_effects _ _ _ _ _ = _) into Hfx. eapply insert_effects_queue; [exact Hfx|].
  clear Hfx. match goal with |- queue_inv (supersede_outbox _ _ _ ?x) => assert (queue_inv x) as Hx end.
  - match goal with Hx : authorize_event _ _ _ = _ |- _ => apply authorize_event_eq in Hx as [ys ->] end.
    open_frames.
    match goal with Hx : match ti_run input with Some _ => _ | None => _ end = Ok _ |- _ =>
      destruct (ti_run input); [apply insert_run_eq in Hx as ->|injection Hx as <-] end;
    by eapply queue_inv_ext, Hq.
  - apply queue_inv_update_outbox; [done| |done]. intros o Ho _.
    pose proof (q_check _ Hx o Ho) as Hck. unfold outbox_check in *. simpl. bools.
    by rewrite andb_true_r, (proj2 (Z.ltb_lt _ _)).
Qed.

Lemma apply_one_applied fault input s s' :
  apply_one fault input s = Ok s' -> exists c policy, applied input s s' c policy.
Proof.
  intros Ha. pose proof (apply_one_queue _ _ _ _ Ha) as Hqueue.
  unfold apply_one in Ha. apply bind_ok in Ha as (current & Hcur & Ha). inv_ok.
  unfold query_case in Hcur. apply fmap_Some in Hcur as (c & Hc & ->).
  inv_store. rename select (authorize_event _ _ _ = _) into Hauth.
  bools. destruct (authorize_event_eq _ _ _ _ _ Hauth) as [ys ->].
  open_frames.
  match goal with Hx : match ti_run input with Some _ => _ | None => _ end = _ |- _ =>
    rename Hx into Hrun end.
  match type of Hauth with _ = Ok (?z, _) => exists c, z end. destruct (ti_run input) as [r|] eqn:Er.
  - apply insert_run_eq in Hrun as ->. split; simpl; rewrite ?Er; eauto.
  - injection Hrun as <-. split; simpl; rewrite ?Er, ?app_nil_r; eauto.
Qed.
End frames.
