(* ===== verification/Steps.v ===== *)
(** * Steps: every way the ledger changes, and what no change can do

    [store_step] has one constructor per public method that writes; [reachable]
    is what the methods can build from a fresh database.  [evolves] is the
    contract of the schema's immutability rules: append-only tables only grow,
    an outbox row is settled (delivered or superseded) at most once, a terminal
    attempt and a resolved command never change, a case keeps its identity, and
    the constraints on queue rows stay true. *)

From S2P Require Import Prelude Text Json Sql Tables Inputs Frozen Recovery StoreCore Outbox.
From S2P Require Import Attempts Control Records ProjectionRetry History Frames.
From stdpp Require Import relations.
Open Scope Z_scope.

(** ** The step relation

    A command's integers are in the ranges of their Rust types ([wf_*]). *)

Section steps.
Context `{Codec}.

Inductive store_step (s s' : Store) : Prop :=
| step_record_policy i r : record_policy i s = Ok (r, s') -> store_step s s'
| step_record_webhook i r : record_webhook_delivery i s = Ok (r, s') -> store_step s s'
| step_record_retirement i r : record_workspace_retirement i s = Ok (r, s') -> store_step s s'
| step_create_case i r : wf_new_case i -> create_case i s = Ok (r, s') -> store_step s s'
| step_apply l f r :
    Forall wf_transition l -> apply_transition_batch l f s = Ok (r, s') -> store_step s s'
| step_repair k u : repair_case_projection k s = Ok (u, s') -> store_step s s'
| step_claim o n l t r c e : claim_effect_inner o n l t r c s = Ok (e, s') -> store_step s s'
| step_acknowledge e o n u : acknowledge_effect e o n s = Ok (u, s') -> store_step s s'
| step_release e o u : release_effect e o s = Ok (u, s') -> store_step s s'
| step_evidence e o n i r : complete_effect_evidence e o n i s = Ok (r, s') -> store_step s s'
| step_observation e o n i r :
    complete_review_observation_effect e o n i s = Ok (r, s') -> store_step s s'
| step_dispatch e ps js o n f r :
    complete_dispatch_outputs e ps js o n f s = Ok (r, s') -> store_step s s'
| step_begin c t n a : begin_direct_attempt c t n s = Ok (a, s') -> store_step s s'
| step_complete a o n v u : complete_direct_attempt a o n v s = Ok (u, s') -> store_step s s'
| step_fail a o n e u : fail_direct_attempt a o n e s = Ok (u, s') -> store_step s s'
| step_cooldown a o n e d t :
    fail_direct_attempt_with_cooldown a o n e d s = Ok (t, s') -> store_step s s'
| step_unavailable a o n e c t :
    record_direct_unavailability_with_cause a o n e c s = Ok (t, s') -> store_step s s'
| step_freeze c l n r : freeze_dispatch_intents c l n s = Ok (r, s') -> store_step s s'
| step_reserve c i n r : reserve_dispatch_create c i n s = Ok (r, s') -> store_step s s'
| step_command i r : record_control_command i s = Ok (r, s') -> store_step s s'
| step_resolve k st o n u : resolve_control_command k st o n s = Ok (u, s') -> store_step s s'
| step_cycle r n t : record_controller_cycle r n s = Ok (t, s') -> store_step s s'
| step_retain t v n r : retain_task_result t v n s = Ok (r, s') -> store_step s s'
| step_reject p n e m c r : reject_task_projection p n e m c s = Ok (r, s') -> store_step s s'
| step_bind p t v n u : record_projection_task p t v n s = Ok (u, s') -> store_step s s'.

Definition reachable (s : Store) : Prop := rtc store_step empty_store s.
End steps.

(** ** The contract of one change *)

(** The old rows, each possibly changed as [R] allows, and new rows after them. *)
Definition grows {A} (R : relation A) (l l' : list A) : Prop :=
  exists kept added, l' = kept ++ added /\ Forall2 R l kept.

Definition case_evolves (c c' : CaseRow) : Prop :=
  c'.(c_case_key) = c.(c_case_key) /\ c'.(c_repository_id) = c.(c_repository_id)
  /\ c'.(c_issue_number) = c.(c_issue_number) /\ c'.(c_workflow_version) = c.(c_workflow_version)
  /\ c'.(c_created_at) = c.(c_created_at).

Definition settled (o : OutboxRow) : Prop := is_Some o.(o_delivered_at) \/ is_Some o.(o_superseded_at).

Definition outbox_evolves (o o' : OutboxRow) : Prop :=
  o'.(o_effect_id) = o.(o_effect_id) /\ o'.(o_case_key) = o.(o_case_key)
  /\ o'.(o_state_revision) = o.(o_state_revision) /\ o'.(o_effect_type) = o.(o_effect_type)
  /\ o'.(o_payload_json) = o.(o_payload_json) /\ o'.(o_payload_sha256) = o.(o_payload_sha256)
  /\ o'.(o_created_at) = o.(o_created_at) /\ (settled o -> o' = o).

Definition attempt_evolves (a a' : AttemptRow) : Prop :=
  a'.(a_attempt_id) = a.(a_attempt_id) /\ a'.(a_effect_id) = a.(a_effect_id)
  /\ a'.(a_case_key) = a.(a_case_key) /\ a'.(a_lease_owner) = a.(a_lease_owner)
  /\ a'.(a_started_at) = a.(a_started_at) /\ (a.(a_status) <> "RUNNING"%string -> a' = a).

Definition command_evolves (k k' : CommandRow) : Prop :=
  k'.(k_comment_id) = k.(k_comment_id) /\ k'.(k_command) = k.(k_command)
  /\ k'.(k_guidance) = k.(k_guidance) /\ k'.(k_actor_id) = k.(k_actor_id)
  /\ (k.(k_status) <> "PENDING"%string -> k' = k).

(** A board projection keeps its job; a task, once bound, stays. *)
Definition projection_evolves (p p' : ProjectionRow) : Prop :=
  p'.(p_projection_id) = p.(p_projection_id) /\ p'.(p_case_key) = p.(p_case_key)
  /\ p'.(p_effect_id) = p.(p_effect_id) /\ p'.(p_board) = p.(p_board)
  /\ p'.(p_desired_json) = p.(p_desired_json) /\ (is_Some p.(p_task_id) -> p' = p).

Record evolves (s s' : Store) : Prop := {
  ev_read_only : s'.(read_only) = s.(read_only);
  ev_policies : s.(policies) `prefix_of` s'.(policies);
  ev_cases : grows case_evolves s.(cases) s'.(cases);
  ev_events : s.(events) `prefix_of` s'.(events);
  ev_runs : s.(runs) `prefix_of` s'.(runs);
  ev_evidence : s.(evidence) `prefix_of` s'.(evidence);
  ev_findings : s.(findings) `prefix_of` s'.(findings);
  ev_outbox : grows outbox_evolves s.(outbox) s'.(outbox);
  ev_projections : grows projection_evolves s.(task_projections) s'.(task_projections);
  ev_attempts : grows attempt_evolves s.(direct_attempts) s'.(direct_attempts);
  ev_webhooks : s.(webhook_deliveries) `prefix_of` s'.(webhook_deliveries);
  ev_retirements : s.(workspace_retirements) `prefix_of` s'.(workspace_retirements);
  ev_observations : s.(review_observations) `prefix_of` s'.(review_observations);
  ev_batches : s.(dispatch_batches) `prefix_of` s'.(dispatch_batches);
  ev_creates : s.(dispatch_create_attempts) `prefix_of` s'.(dispatch_create_attempts);
  ev_commands : grows command_evolves s.(control_commands) s'.(control_commands);
  ev_queue : queue_inv s -> queue_inv s';
}.

(** ** [evolves] is a preorder *)

#[export] Instance case_evolves_preorder : PreOrder case_evolves.
Proof. split; red; unfold case_evolves; [naive_solver|]. intros; naive_solver congruence. Qed.
#[export] Instance outbox_evolves_preorder : PreOrder outbox_evolves.
Proof.
  split; red; unfold outbox_evolves; [naive_solver|].
  intros x y z (?&?&?&?&?&?&?&Hxy) (?&?&?&?&?&?&?&Hyz). split_and!; try congruence.
  intros Hs. pose proof (Hxy Hs). subst y. auto.
Qed.
#[export] Instance attempt_evolves_preorder : PreOrder attempt_evolves.
Proof.
  split; red; unfold attempt_evolves; [naive_solver|].
  intros x y z (?&?&?&?&?&Hxy) (?&?&?&?&?&Hyz). split_and!; try congruence.
  intros Hs. pose proof (Hxy Hs). subst y. auto.
Qed.
#[export] Instance projection_evolves_preorder : PreOrder projection_evolves.
Proof.
  split; red; unfold projection_evolves; [naive_solver|].
  intros x y z (?&?&?&?&?&Hxy) (?&?&?&?&?&Hyz). split_and!; try congruence.
  intros Hs. pose proof (Hxy Hs). subst y. auto.
Qed.
#[export] Instance command_evolves_preorder : PreOrder command_evolves.
Proof.
  split; red; unfold command_evolves; [naive_solver|].
  intros x y z (?&?&?&?&Hxy) (?&?&?&?&Hyz). split_and!; try congruence.
  intros Hs. pose proof (Hxy Hs). subst y. auto.
Qed.

#[export] Instance grows_preorder {A} (R : relation A) `{!PreOrder R} : PreOrder (grows R).
Proof.
  split.
  - intros l. exists l, []. by rewrite app_nil_r.
  - intros l m n (k & x & -> & Hk) (k' & x' & -> & Hk').
    apply Forall2_app_inv_l in Hk' as (k1 & x1 & Hk1 & Hx1 & ->).
    exists k1, (x1 ++ x'). split; [by rewrite app_assoc|]. by etrans.
Qed.
Lemma grows_app {A} (R : relation A) `{!Reflexive R} l k : grows R l (l ++ k).
Proof. exists l, k. done. Qed.
Lemma grows_update {A} (R : relation A) `{!Reflexive R} (p : A -> bool) f l :
  (forall x, p x = true -> R x (f x)) -> grows R l (update_where p f l).1.
Proof.
  intros Hf. exists ((update_where p f l).1), []. split; [by rewrite app_nil_r|]. simpl.
  induction l as [|x l IH]; simpl; constructor; [|done]. destruct (p x) eqn:E; auto.
Qed.

#[export] Instance evolves_preorder : PreOrder evolves.
Proof.
  split.
  - intros s. split; done.
  - intros a b c [] []. split; try (by etrans); auto; congruence.
Qed.

(** A change that leaves cases and events alone. *)
Definition quiet (s s' : Store) : Prop :=
  evolves s s' /\ s'.(cases) = s.(cases) /\ s'.(events) = s.(events).
#[export] Instance quiet_preorder : PreOrder quiet.
Proof.
  split; red; unfold quiet.
  - intros. split; done.
  - intros a b c (Hab & ? & ?) (Hbc & ? & ?). split_and!; [by etrans|congruence|congruence].
Qed.

(** ** Each primitive write *)

Ltac evolves_set :=
  match goal with |- quiet _ _ => split; [|split; reflexivity] | _ => idtac end;
  split; simpl; try reflexivity; try (by apply queue_inv_ext); eauto using prefix_app_r, grows_app with typeclass_instances.

Lemma pending_not_settled o : pending o = true -> ~ settled o.
Proof.
  unfold pending, settled. destruct (o_delivered_at o), (o_superseded_at o); simpl; try done.
  intros _ [[? [=]]|[? [=]]].
Qed.
Lemma lease_evolves owner until o : pending o = true -> outbox_evolves o (with_lease owner until o).
Proof. intros Hp%pending_not_settled. by split_and!. Qed.
Lemma delivery_evolves now o : pending o = true -> outbox_evolves o (with_delivery now o).
Proof. intros Hp%pending_not_settled. by split_and!. Qed.

Lemma evolves_outbox s rows :
  grows outbox_evolves s.(outbox) rows -> (queue_inv s -> queue_inv (set_outbox rows s)) ->
  quiet s (set_outbox rows s).
Proof. intros. evolves_set. Qed.

Lemma update_outbox_evolves p f s n s' :
  (forall o, p o = true -> outbox_evolves o (f o)) ->
  update_outbox p f s = Ok (n, s') -> quiet s s'.
Proof.
  intros Hf Hu. unfold update_outbox in Hu. simpl in Hu. inv_store.
  rename select (exists_row _ _ = false) into Hok. rewrite exists_row_false, Forall_forall in Hok.
  apply evolves_outbox; [by apply grows_update|]. apply queue_inv_update_outbox.
  - intros o Ho. by apply Hf.
  - intros o Hin Hp. specialize (Hok o Hin). simpl in Hok. rewrite Hp in Hok. simpl in Hok. by bools.
Qed.

Lemma attempt_clash_sym a b : attempt_clash a b = attempt_clash b a.
Proof.
  unfold attempt_clash. rewrite (String.eqb_sym (a_effect_id a)), (String.eqb_sym (a_status a)).
  destruct (String.eqb_spec (a_status b) (a_status a)) as [->|]; [done|]. by rewrite !andb_false_r.
Qed.
Lemma attempt_unique s a b :
  queue_inv s -> a ∈ s.(direct_attempts) -> b ∈ s.(direct_attempts) ->
  a.(a_attempt_id) = b.(a_attempt_id) -> a = b.
Proof.
  intros Hq (i & Hi)%list_elem_of_lookup (j & Hj)%list_elem_of_lookup Hk.
  assert (i = j) as ->; [|congruence].
  eapply (NoDup_lookup _ i j (a_attempt_id a) (q_attempt_ids _ Hq));
    rewrite list_lookup_fmap, ?Hi, ?Hj; simpl; congruence.
Qed.

(** What an accepted update of attempts guarantees. *)
Definition attempts_accepted (p : AttemptRow -> bool) (f : AttemptRow -> AttemptRow) (l : list AttemptRow) : Prop :=
  forall a, a ∈ l -> p a = true -> attempt_update_allowed a (f a) = true /\ attempt_check (f a) = true
    /\ forall x, x ∈ (update_where p f l).1 -> attempt_clash x (f a) = true ->
         x.(a_attempt_id) = a.(a_attempt_id).

Lemma update_attempts_inv p f s n s' :
  update_attempts p f s = Ok (n, s') ->
  s' = set_direct_attempts (update_where p f s.(direct_attempts)).1 s
  /\ attempts_accepted p f s.(direct_attempts) /\ n = count_rows p s.(direct_attempts).
Proof.
  unfold update_attempts. simpl. intros Hu. inv_store. split_and!; [done| |done].
  rename select (exists_row _ _ = false) into Hok. rewrite exists_row_false, Forall_forall in Hok.
  intros a Ha Hp. specialize (Hok a Ha). simpl in Hok. rewrite Hp in Hok. simpl in Hok. bools.
  rename select (exists_row _ _ = false) into Hno. rewrite exists_row_false, Forall_forall in Hno.
  split_and!; [done..|]. intros x Hx Hc. specialize (Hno x Hx). simpl in Hno.
  rewrite Hc, andb_true_r in Hno. by bools.
Qed.

Lemma queue_inv_update_attempts p f s :
  (forall a, (f a).(a_attempt_id) = a.(a_attempt_id)) -> attempts_accepted p f s.(direct_attempts) ->
  queue_inv s -> queue_inv (set_direct_attempts (update_where p f s.(direct_attempts)).1 s).
Proof.
  intros Hid Hok Hq. set (s1 := set_direct_attempts _ s).
  assert (Hids : NoDup (a_attempt_id <$> s1.(direct_attempts))).
  { change (direct_attempts s1) with (update_where p f s.(direct_attempts)).1. rewrite (fmap_update a_attempt_id p f) by done. apply Hq. }
  split; [apply Hq|apply Hq|done|apply Hq|..].
  - intros a (x & Hx & ->)%elem_update. pose proof (q_attempt_seq _ Hq x Hx).
    destruct (p x); rewrite ?Hid; done.
  - intros a (x & Hx & ->)%elem_update. destruct (p x) eqn:E; [by apply (Hok x)|by apply Hq].
  - intros a b Ha Hb Hc.
    assert (forall y z, y ∈ s1.(direct_attempts) -> z ∈ s1.(direct_attempts) ->
      a_attempt_id y = a_attempt_id z -> y = z) as Huniq.
    { intros y z (i & Hi)%list_elem_of_lookup (j & Hj)%list_elem_of_lookup Hk.
      assert (i = j) as ->; [|congruence].
      eapply (NoDup_lookup _ i j (a_attempt_id y) Hids); rewrite list_lookup_fmap, ?Hi, ?Hj; simpl; congruence. }
    pose proof (elem_update _ _ _ _ Ha) as (x & Hx & Eax). pose proof (elem_update _ _ _ _ Hb) as (y & Hy & Eby).
    apply Huniq; [done..|]. destruct (p y) eqn:Ey.
    + destruct (Hok y Hy Ey) as (_ & _ & Hu). rewrite Eby in Hc |- *. rewrite Hid. by apply Hu.
    + destruct (p x) eqn:Ex.
      * destruct (Hok x Hx Ex) as (_ & _ & Hu). rewrite Eax in Hc |- *. rewrite Hid. symmetry.
        apply Hu; [done|]. by rewrite attempt_clash_sym.
      * subst. f_equal. by apply (q_one _ Hq).
Qed.

Lemma update_attempts_evolves p f s n s' :
  (forall a, (f a).(a_attempt_id) = a.(a_attempt_id)) ->
  update_attempts p f s = Ok (n, s') -> quiet s s'.
Proof.
  intros Hid (-> & Hok & _)%update_attempts_inv. evolves_set; [|by apply queue_inv_update_attempts].
  exists (update_where p f s.(direct_attempts)).1, []. rewrite app_nil_r. split; [done|].
  apply Forall2_fmap_r, Forall_Forall2_diag, Forall_forall. intros a Ha.
  change (attempt_evolves a (if p a then f a else a)).
  destruct (p a) eqn:E; [|done]. destruct (Hok a Ha E) as (Hallow & _).
  unfold attempt_update_allowed in Hallow. bools.
  repeat match goal with Hx : String.eqb _ _ = true |- _ => apply String.eqb_eq in Hx end.
  split_and!; auto; congruence.
Qed.

Lemma insert_attempt_row_evolves r s a s' :
  (forall id, (r id).(a_attempt_id) = id) -> insert_attempt_row r s = Ok (a, s') -> quiet s s'.
Proof.
  unfold insert_attempt_row. intros Hr Hi. inv_store. evolves_set. intros Hq. bools.
  rename select (exists_row _ _ = false) into Hno. rewrite exists_row_false, Forall_forall in Hno.
  set (new := r (attempt_seq s + 1)) in *. assert (a_attempt_id new = attempt_seq s + 1) as Hnew by apply Hr.
  split; simpl; [apply Hq|apply Hq|..].
  - rewrite fmap_app. apply NoDup_snoc; [apply Hq|]. rewrite list_elem_of_fmap.
    intros (x & Hx & Hin). pose proof (q_attempt_seq _ Hq x Hin). lia.
  - pose proof (q_seq _ Hq). lia.
  - intros a [Ha| ->]%elem_of_snoc; [pose proof (q_attempt_seq _ Hq a Ha); lia|].
    rewrite Hnew. pose proof (q_seq _ Hq). lia.
  - intros a [Ha| ->]%elem_of_snoc; [by apply Hq|done].
  - intros a b [Ha| ->]%elem_of_snoc [Hb| ->]%elem_of_snoc Hc; [by apply (q_one _ Hq)|..|done].
    + by rewrite (Hno a Ha) in Hc.
    + rewrite attempt_clash_sym in Hc. by rewrite (Hno b Hb) in Hc.
Qed.

#[local] Arguments insert_evidence : simpl never.
#[local] Arguments insert_effects : simpl never.
#[local] Arguments insert_projections : simpl never.
#[local] Arguments insert_jobs : simpl never.
#[local] Arguments record_expired : simpl never.

Section evolution.
Context `{Codec}.

Lemma insert_evidence_evolves key at_ l s s' : insert_evidence key at_ l s = Ok s' -> quiet s s'.
Proof. intros ->%insert_evidence_eq. evolves_set. Qed.
Lemma insert_effects_evolves key rev at_ l s s' :
  insert_effects key rev at_ l s = Ok s' -> quiet s s'.
Proof. intros Hi. pose proof (insert_effects_queue _ _ _ _ _ _ Hi). apply insert_effects_eq in Hi as ->. evolves_set. Qed.

Lemma update_row_grows p f cs :
  (forall c, case_evolves c (f c)) -> grows case_evolves cs (update_row p f cs).
Proof. intros. apply (grows_update case_evolves p f cs). auto. Qed.

Lemma supersedes_pending evs current input next o :
  supersedes evs current input next o = true -> pending o = true.
Proof. unfold supersedes, pending. intros. bools. apply andb_true_iff. done. Qed.

Lemma applied_evolves input s s' c policy : applied input s s' c policy -> evolves s s'.
Proof.
  intros [_ _ Hcs Hes _ _ Ho Hr Hv Hf [ys Hy] _ Hq Hrest]. split; [..|exact Hq]; rewrite Hrest; simpl; try done.
  - rewrite Hy. by apply prefix_app_r.
  - rewrite Hcs. by apply update_row_grows.
  - rewrite Hes. by apply prefix_app_r.
  - rewrite Hr. by apply prefix_app_r.
  - rewrite Hv. by apply prefix_app_r.
  - rewrite Hf. by apply prefix_app_r.
  - rewrite Ho. etrans; [|apply grows_app; apply _]. apply grows_update; [apply _|].
    intros o Hs%supersedes_pending%pending_not_settled. by split_and!.
Qed.

Lemma batch_transaction_rel (R : relation Store) `{!PreOrder R} fault l s s' :
  (forall i s s' c p, i ∈ l -> applied i s s' c p -> R s s') ->
  batch_transaction fault l s = Ok s' -> R s s'.
Proof.
  revert s. induction l as [|i l IH]; intros s HR Hb; simpl in Hb; [by inv_ok|].
  apply bind_ok in Hb as (s1 & Ha & Hb). apply bind_ok in Hb as (_ & _ & Hb).
  apply apply_one_applied in Ha as (c & p & Ha). etrans.
  - eapply HR; [|done]. set_solver.
  - apply IH; [|done]. intros; eapply HR; [|done]; set_solver.
Qed.

Lemma apply_transition_batch_rel (R : relation Store) `{!PreOrder R} l fault s r s' :
  (forall i s s' c p, i ∈ l -> applied i s s' c p -> R s s') ->
  apply_transition_batch l fault s = Ok (r, s') -> R s s'.
Proof.
  unfold apply_transition_batch. intros HR Ha. inv_ok. case_match; inv_ok; [done|].
  by eapply batch_transaction_rel.
Qed.

Lemma create_case_evolves i s r s' : create_case i s = Ok (r, s') -> evolves s s'.
Proof.
  unfold create_case. intros Hc. inv_store. case_match; inv_store; [done|].
  unfold insert_case_row in *. inv_store.
  rename select (insert_event _ _ = _) into He. apply insert_event_eq in He as (-> & _).
  rename select (insert_effects _ _ _ _ _ = _) into Hf.
  etrans; [|eapply insert_effects_evolves, Hf]. evolves_set.
Qed.

Lemma repair_evolves k s u s' : repair_case_projection k s = Ok (u, s') -> evolves s s'.
Proof.
  unfold repair_case_projection, update_cases. simpl. intros Hr. inv_store. evolves_set.
  by apply (grows_update case_evolves).
Qed.

Lemma holds_lease_pending e o n x : holds_lease e o n x = true -> pending x = true.
Proof. unfold holds_lease. intros. by bools. Qed.
Lemma owns_pending_pending e o x : owns_pending e o x = true -> pending x = true.
Proof. unfold owns_pending. intros. by bools. Qed.
Lemma hold_until_evolves e o t s n s' : hold_until e o t s = Ok (n, s') -> quiet s s'.
Proof.
  apply update_outbox_evolves. intros x Hx. apply lease_evolves. by eapply owns_pending_pending.
Qed.

Lemma insert_projections_evolves key now l s s' : insert_projections key now l s = Ok s' -> quiet s s'.
Proof.
  revert s. induction l as [|[[i d] o] l IH]; intros s Hi; unfold insert_projections in Hi; fold insert_projections in Hi; [by inv_ok|].
  unfold insert_projection_row in Hi. inv_store.
  etrans; [|by apply IH]. evolves_set.
Qed.
Lemma insert_outbox_row_evolves r s s' : insert_outbox_row r s = Ok s' -> quiet s s'.
Proof.
  intros Hi. pose proof (insert_outbox_row_queue _ _ _ Hi) as Hq. unfold insert_outbox_row in Hi.
  inv_store. evolves_set.
Qed.
Lemma insert_jobs_evolves o now l s s' : insert_jobs o now l s = Ok s' -> quiet s s'.
Proof.
  revert s. induction l as [|[[j d] h] l IH]; intros s Hi; unfold insert_jobs in Hi; fold insert_jobs in Hi; [by inv_ok|].
  inv_store. etrans; [eapply insert_outbox_row_evolves; done|by apply IH].
Qed.
Lemma record_expired_evolves e at_ l s s' : record_expired e at_ l s = Ok s' -> quiet s s'.
Proof.
  revert s. induction l as [|a l IH]; intros s Hi; unfold record_expired in Hi; fold record_expired in Hi; [by inv_ok|].
  apply bind_ok in Hi as (s1 & Hi & Hr). apply insert_evidence_evolves in Hi.
  etrans; [done|by apply IH].
Qed.

(** Chain the writes of a method, last write first. *)
Ltac evolve :=
  repeat match goal with
  | |- quiet ?s ?s => reflexivity
  | Hx : update_outbox _ _ _ = Ok (_, ?s') |- quiet _ ?s' =>
      etrans; [|eapply update_outbox_evolves; [|exact Hx]]; clear Hx
  | Hx : update_attempts _ _ _ = Ok (_, ?s') |- quiet _ ?s' =>
      etrans; [|eapply update_attempts_evolves; [|exact Hx]; done]; clear Hx
  | Hx : hold_until _ _ _ _ = Ok (_, ?s') |- quiet _ ?s' =>
      etrans; [|eapply hold_until_evolves, Hx]; clear Hx
  | Hx : insert_evidence _ _ _ _ = Ok ?s' |- quiet _ ?s' =>
      etrans; [|eapply insert_evidence_evolves, Hx]; clear Hx
  | Hx : insert_projections _ _ _ _ = Ok ?s' |- quiet _ ?s' =>
      etrans; [|eapply insert_projections_evolves, Hx]; clear Hx
  | Hx : insert_jobs _ _ _ _ = Ok ?s' |- quiet _ ?s' =>
      etrans; [|eapply insert_jobs_evolves, Hx]; clear Hx
  | Hx : record_expired _ _ _ _ = Ok ?s' |- quiet _ ?s' =>
      etrans; [|eapply record_expired_evolves, Hx]; clear Hx
  | |- forall o, holds_lease _ _ _ o = true -> _ =>
      intros ? ?%holds_lease_pending; by apply delivery_evolves
  | |- forall o, owns_pending _ _ o = true -> _ =>
      intros ? ?%owns_pending_pending; first [by apply delivery_evolves | by apply lease_evolves]
  end; try solve [evolves_set].

Lemma claim_evolves o n l t r c s e s' :
  claim_effect_inner o n l t r c s = Ok (e, s') -> quiet s s'.
Proof.
  unfold claim_effect_inner. intros Hc. inv_store. case_match; inv_store; [|done].
  repeat case_match; inv_store; evolve; intros row Hrow; simpl in Hrow; bools; by apply lease_evolves.
Qed.
Lemma complete_evidence_evolves e o n i s r s' :
  complete_effect_evidence e o n i s = Ok (r, s') -> quiet s s'.
Proof. unfold complete_effect_evidence. intros Hc. inv_store. case_match; inv_store; evolve. Qed.
Lemma complete_observation_evolves e o n i s r s' :
  complete_review_observation_effect e o n i s = Ok (r, s') -> quiet s s'.
Proof.
  unfold complete_review_observation_effect. intros Hc. inv_store. case_match; inv_store; evolve.
  unfold insert_observation_row in *. inv_store. evolves_set.
Qed.
Lemma complete_dispatch_evolves e ps js o n f s r s' :
  complete_dispatch_outputs e ps js o n f s = Ok (r, s') -> quiet s s'.
Proof. unfold complete_dispatch_outputs. intros Hc. inv_store. case_match; inv_store; evolve. Qed.
Lemma begin_evolves c t n s a s' : begin_direct_attempt c t n s = Ok (a, s') -> quiet s s'.
Proof.
  unfold begin_direct_attempt. intros Hc. inv_store.
  rename select (insert_attempt_row _ _ = _) into Hi. apply insert_attempt_row_evolves in Hi; [|done].
  etrans; [|exact Hi]. evolve.
Qed.
Lemma unavailable_evolves a o n e c s t s' :
  record_direct_unavailability_with_cause a o n e c s = Ok (t, s') -> quiet s s'.
Proof.
  unfold record_direct_unavailability_with_cause. intros Hc. inv_store. case_match; inv_store; evolve.
Qed.

Lemma complete_attempt_evolves a o n v s u s' : complete_direct_attempt a o n v s = Ok (u, s') -> quiet s s'.
Proof. unfold complete_direct_attempt. simpl. intros Hc. inv_store. evolve. Qed.
Lemma fail_evolves a o n e s u s' : fail_direct_attempt a o n e s = Ok (u, s') -> quiet s s'.
Proof. unfold fail_direct_attempt. intros Hc. inv_store. evolve. Qed.
Lemma cooldown_evolves a o n e d s t s' : fail_direct_attempt_with_cooldown a o n e d s = Ok (t, s') -> quiet s s'.
Proof. unfold fail_direct_attempt_with_cooldown. intros Hc. inv_store. evolve. Qed.

Lemma record_policy_evolves i s r s' : record_policy i s = Ok (r, s') -> quiet s s'.
Proof.
  unfold record_policy, insert_policy_row. simpl. intros Hc. inv_store.
  case_match; [case_match|]; inv_store; evolve.
Qed.
Lemma record_webhook_evolves i s r s' : record_webhook_delivery i s = Ok (r, s') -> quiet s s'.
Proof.
  unfold record_webhook_delivery, insert_webhook_row. intros Hc. inv_store.
  case_match; [case_match|]; inv_store; evolve.
Qed.
Lemma record_command_evolves i s r s' : record_control_command i s = Ok (r, s') -> quiet s s'.
Proof.
  unfold record_control_command, insert_or_ignore_command. intros Hc. inv_store. case_match; inv_store; evolve.
Qed.
Lemma resolve_command_evolves k st o n s u s' : resolve_control_command k st o n s = Ok (u, s') -> quiet s s'.
Proof.
  unfold resolve_control_command. simpl. intros Hc. inv_store. evolves_set.
  apply (grows_update command_evolves). intros row Hrow. simpl in Hrow. bools.
  rename select (String.eqb _ _ = true) into Hp. apply String.eqb_eq in Hp. by split_and!.
Qed.
Lemma record_cycle_evolves r n s t s' : record_controller_cycle r n s = Ok (t, s') -> quiet s s'.
Proof. unfold record_controller_cycle. intros Hc. inv_store. evolve. Qed.
Lemma acknowledge_evolves e o n s u s' : acknowledge_effect e o n s = Ok (u, s') -> quiet s s'.
Proof. unfold acknowledge_effect. intros Hc. inv_store. evolve. Qed.
Lemma release_evolves e o s u s' : release_effect e o s = Ok (u, s') -> quiet s s'.
Proof. unfold release_effect. intros Hc. inv_store. evolve. Qed.
Lemma retain_evolves t v n s r s' : retain_task_result t v n s = Ok (r, s') -> quiet s s'.
Proof. unfold retain_task_result. intros Hc. inv_store. case_match; [case_match|]; inv_store; evolve. Qed.
Lemma freeze_evolves c l n s r s' : freeze_dispatch_intents c l n s = Ok (r, s') -> quiet s s'.
Proof.
  unfold freeze_dispatch_intents, insert_batch_row. simpl. intros Hc. inv_store. case_match; inv_store; evolve.
Qed.
Lemma reserve_evolves c i n s r s' : reserve_dispatch_create c i n s = Ok (r, s') -> quiet s s'.
Proof. unfold reserve_dispatch_create. intros Hc. inv_store. case_match; inv_store; evolve. Qed.
Lemma reject_evolves p n e m c s r s' : reject_task_projection p n e m c s = Ok (r, s') -> quiet s s'.
Proof.
  unfold reject_task_projection, record_rejection. intros Hc. inv_store. case_match; inv_store; [done|].
  case_match; unfold insert_projection_row in *; inv_store; [|evolve].
  etrans; [eapply insert_evidence_evolves; eassumption|]. evolves_set.
Qed.
Lemma bind_evolves p t v n s u s' : record_projection_task p t v n s = Ok (u, s') -> quiet s s'.
Proof.
  unfold record_projection_task. simpl. intros Hc. inv_store.
  assert (quiet s (set_task_projections
    (update_where (unbound p) (bind_task t (to_string v) n) s.(task_projections)).1 s)) as Hq.
  { evolves_set. apply (grows_update projection_evolves). intros row Hrow. unfold unbound in Hrow. bools.
    split_and!; try done. by destruct (p_task_id row). }
  repeat case_match; inv_store; done.
Qed.
Lemma retirement_evolves i s r s' : record_workspace_retirement i s = Ok (r, s') -> quiet s s'.
Proof.
  unfold record_workspace_retirement, insert_retirement_row. intros Hc. inv_store.
  case_match; [case_match|]; inv_store; evolve.
Qed.

(** Every method but three leaves cases and events alone. *)
Lemma step_cases s s' :
  store_step s s' ->
  quiet s s' \/ (exists i r, wf_new_case i /\ create_case i s = Ok (r, s'))
  \/ (exists l f r, Forall wf_transition l /\ apply_transition_batch l f s = Ok (r, s'))
  \/ (exists k u, repair_case_projection k s = Ok (u, s')).
Proof.
  intros [];
    try match goal with
    | Hx : create_case _ _ = _ |- _ => right; left; by eauto
    | Hx : apply_transition_batch _ _ _ = _ |- _ => right; right; left; by eauto
    | Hx : repair_case_projection _ _ = _ |- _ => right; right; right; by eauto
    end; left.
  - by eapply record_policy_evolves.
  - by eapply record_webhook_evolves.
  - by eapply retirement_evolves.
  - by eapply claim_evolves.
  - by eapply acknowledge_evolves.
  - by eapply release_evolves.
  - by eapply complete_evidence_evolves.
  - by eapply complete_observation_evolves.
  - by eapply complete_dispatch_evolves.
  - by eapply begin_evolves.
  - by eapply complete_attempt_evolves.
  - by eapply fail_evolves.
  - by eapply cooldown_evolves.
  - by eapply unavailable_evolves.
  - by eapply freeze_evolves.
  - by eapply reserve_evolves.
  - by eapply record_command_evolves.
  - by eapply resolve_command_evolves.
  - by eapply record_cycle_evolves.
  - by eapply retain_evolves.
  - by eapply reject_evolves.
  - by eapply bind_evolves.
Qed.

(** Every method keeps the contract. *)
Lemma step_evolves s s' : store_step s s' -> evolves s s'.
Proof.
  intros [[? _]|[(i & r & _ & Hc)|[(l & f & r & _ & Ha)|(k & u & Hr)]]]%step_cases.
  - done.
  - by eapply create_case_evolves.
  - eapply (apply_transition_batch_rel evolves); [|done]. eauto using applied_evolves.
  - by eapply repair_evolves.
Qed.
End evolution.
