(* ===== verification/Invariants.v ===== *)
(** * Invariants: what holds of every reachable ledger

    The theorems about the event history, its projection, replay and racing
    commands, and about supersession of stale work. *)

From S2P Require Import Prelude Text Json Sql Tables Inputs Frozen Recovery StoreCore Outbox.
From S2P Require Import Attempts Control Records History Frames Steps.
From stdpp Require Import relations sorting.
Open Scope Z_scope.

#[local] Arguments reconstruct_case : simpl never.

Section invariants.
Context `{Codec}.

Lemma find_case_elem s k c : find_case s k = Some c -> c ∈ s.(cases) /\ c.(c_case_key) = k.
Proof.
  intros [Hin Hk]%find_some. split; [by apply list_elem_of_In|]. by apply String.eqb_eq.
Qed.
Lemma find_event_elem s i e : find_event s i = Some e -> e ∈ s.(events) /\ e.(e_event_id) = i.
Proof.
  intros [Hin Hk]%find_some. split; [by apply list_elem_of_In|]. by apply String.eqb_eq.
Qed.
(** ** The history invariant is preserved *)

Lemma create_case_inv i s r s' :
  wf_new_case i -> create_case i s = Ok (r, s') -> store_inv s -> store_inv s'.
Proof.
  unfold create_case. intros (_ & _ & _ & Hpol & _) Hc Hinv. inv_store. case_match; inv_store; [done|].
  unfold insert_case_row in *. inv_store.
  rename select (insert_event _ _ = _) into He. apply insert_event_eq in He as (-> & Hf & _ & Hck & _).
  rename select (insert_effects _ _ _ _ _ = _) into Hx. apply insert_effects_eq in Hx as ->.
  unfold store_inv; simpl. bools. unfold event_check in Hck. simpl in Hck. bools.
  apply ledger_inv_create; try done.
  - rename select (case_exists _ _ = false) into Hk. by apply exists_row_fresh in Hk.
  - by apply exists_row_fresh in Hf.
  - split_and!; simpl; try done; lia.
Qed.

Lemma applied_case_row input s s' c policy :
  store_inv s -> applied input s s' c policy ->
  c ∈ s.(cases) /\ c.(c_case_key) = input.(ti_case_key)
  /\ c.(c_state_revision) = input.(ti_expected_revision).
Proof.
  intros Hinv Ha. destruct (find_case_elem _ _ _ (ap_case _ _ _ _ _ Ha)) as [Hin Hk].
  split_and!; [done..|]. pose proof (inv_positive _ _ Hinv c Hin).
  rewrite <-(ap_revision _ _ _ _ _ Ha), unsigned_id by lia. done.
Qed.

Lemma applied_inv input s s' c policy :
  wf_transition input -> applied input s s' c policy -> store_inv s -> store_inv s'.
Proof.
  intros (_ & Hround & Hplan & _ & Hpr) Ha Hinv.
  destruct (applied_case_row _ _ _ _ _ Hinv Ha) as (Hin & Hk & Hrev).
  unfold store_inv. rewrite (ap_cases _ _ _ _ _ Ha), (ap_events _ _ _ _ _ Ha).
  pose proof (ap_check _ _ _ _ _ Ha) as Hck. unfold event_check in Hck. simpl in Hck. bools.
  eapply (ledger_inv_advance _ _ _ _ c); try done; simpl.
  - intros x Hx. rewrite andb_true_iff, String.eqb_eq, Z.eqb_eq. split; [|naive_solver].
    intros [??]. eapply key_unique; [apply Hinv|..]; congruence.
  - lia.
  - pose proof (ap_fresh _ _ _ _ _ Ha) as Hf. by apply exists_row_fresh in Hf.
  - unfold slot. simpl. f_equal; [done|lia].
  - split_and!; simpl; try done; [lia|]. destruct (ti_pr_number input); [apply Hpr|done].
Qed.

Lemma batch_transaction_inv fault l s s' :
  Forall wf_transition l -> batch_transaction fault l s = Ok s' -> store_inv s -> store_inv s'.
Proof.
  intros Hwf. assert (PreOrder (fun a b => store_inv a -> store_inv b)) by (split; red; auto).
  apply (batch_transaction_rel (fun a b => store_inv a -> store_inv b)).
  intros i s1 s2 c p Hi Ha. rewrite Forall_forall in Hwf. by eapply applied_inv; eauto.
Qed.

Lemma apply_batch_inv l fault s r s' :
  Forall wf_transition l -> apply_transition_batch l fault s = Ok (r, s') -> store_inv s -> store_inv s'.
Proof.
  unfold apply_transition_batch. intros Hwf Ha Hinv. inv_ok. case_match; inv_ok; [done|].
  by eapply batch_transaction_inv.
Qed.

(** ** The last event *)

Lemma latest_event_spec l e :
  latest_event l = Some e -> e ∈ l /\ Forall (fun x => x.(e_state_revision) <= e.(e_state_revision)) l.
Proof.
  unfold latest_event, order_by. set (R := fun a b : EventRow => Is_true (e_state_revision b <=? e_state_revision a)).
  intros Hh. assert (StronglySorted R (merge_sort R l)) as Hs.
  { apply StronglySorted_merge_sort; unfold R.
    - intros x y z ?%Is_true_true ?%Is_true_true. apply Is_true_true. bools. apply Z.leb_le. lia.
    - intros x y. rewrite !Is_true_true, !Z.leb_le. lia. }
  pose proof (merge_sort_Permutation R l) as Hp.
  destruct (merge_sort R l) as [|x rest]; [done|]. injection Hh as ->.
  apply StronglySorted_inv in Hs as [_ Hf]. rewrite <-Hp. split; [set_solver|].
  constructor; [lia|]. eapply Forall_impl; [exact Hf|]. unfold R. intros y Hy%Is_true_true. bools. lia.
Qed.
Lemma latest_event_nonempty l e : e ∈ l -> is_Some (latest_event l).
Proof.
  unfold latest_event, order_by. intros He.
  match goal with |- context [merge_sort ?R l] => pose proof (merge_sort_Permutation R l) as Hp end.
  destruct (merge_sort _ l); [|simpl; eauto]. apply Permutation_nil_l in Hp. subst. set_solver.
Qed.

(** The row that reconstruction computes for a case. *)
Definition case_of_event (c : CaseRow) (e : EventRow) : StoredCase := {|
  sc_case_key := c.(c_case_key); sc_repository_id := unsigned c.(c_repository_id);
  sc_issue_number := unsigned c.(c_issue_number);
  sc_workflow_version := u32_or_default c.(c_workflow_version);
  sc_state := e.(e_next_state); sc_state_revision := unsigned e.(e_state_revision);
  sc_policy_revision := unsigned e.(e_policy_revision);
  sc_remediation_round := u32_or_default e.(e_remediation_round);
  sc_plan_version := u32_or_default e.(e_plan_version);
  sc_pr_number := option_map unsigned e.(e_pr_number); sc_head_sha := e.(e_head_sha) |}.

Lemma projects_stored e c :
  projects e c -> e.(e_state_revision) = c.(c_state_revision) -> stored_case c = case_of_event c e.
Proof.
  intros (Hs & Hp & Hr & Hv & Hn & Hh) Hrev. unfold stored_case, case_of_event.
  by rewrite Hs, Hp, Hr, Hv, Hn, Hh, Hrev.
Qed.

(** In a ledger with the invariant, the last event of a case is the event at
    its revision. *)
Lemma reconstruct_last s k c :
  store_inv s -> find_case s k = Some c ->
  exists e, e ∈ s.(events) /\ slot e = (k, c.(c_state_revision)) /\ projects e c
    /\ reconstruct_case k s = Ok (Some (case_of_event c e)).
Proof.
  intros Hinv Hc. destruct (find_case_elem _ _ _ Hc) as [Hin <-].
  pose proof (inv_positive _ _ Hinv c Hin) as Hpos.
  destruct (inv_events _ _ Hinv c (c.(c_state_revision)) Hin) as (e0 & He0 & Hs0); [lia|].
  unfold reconstruct_case, case_at_revision_limit. simpl. rewrite Hc.
  set (rows := List.filter _ s.(events)).
  assert (Hrows : forall x, x ∈ rows <-> x ∈ s.(events) /\ x.(e_case_key) = c.(c_case_key)).
  { intros x. unfold rows. rewrite list_elem_of_In, filter_In, <-list_elem_of_In, andb_true_r, String.eqb_eq. done. }
  destruct (latest_event_nonempty rows e0) as [e He]; [apply Hrows; unfold slot in Hs0; naive_solver|].
  rewrite He. destruct (latest_event_spec _ _ He) as [Hel Hmax]. apply Hrows in Hel as [Hel Hek].
  assert (slot e = (c.(c_case_key), c.(c_state_revision))) as Hslot.
  { unfold slot. rewrite Hek. f_equal.
    destruct (inv_event_case _ _ Hinv e Hel) as (c' & Hc' & Hck & Hle).
    assert (c' = c) as -> by (eapply key_unique; [apply Hinv|..]; congruence).
    rewrite Forall_forall in Hmax. unfold slot in Hs0. injection Hs0 as Hk0 Hr0.
    specialize (Hmax e0). rewrite Hr0 in Hmax.
    assert (c_state_revision c <= e_state_revision e) by (apply Hmax, Hrows; done). lia. }
  exists e. split_and!; [done|done|by eapply inv_projects|done].
Qed.

(** ** Repair *)

Definition repaired (b : StoredCase) (c : CaseRow) : CaseRow := {|
  c_case_key := c.(c_case_key); c_repository_id := c.(c_repository_id);
  c_issue_number := c.(c_issue_number); c_workflow_version := c.(c_workflow_version);
  c_state := b.(sc_state); c_state_revision := b.(sc_state_revision);
  c_policy_revision := b.(sc_policy_revision); c_remediation_round := b.(sc_remediation_round);
  c_plan_version := b.(sc_plan_version); c_pr_number := b.(sc_pr_number);
  c_head_sha := b.(sc_head_sha); c_created_at := c.(c_created_at);
  c_updated_at := c.(c_updated_at) |}.

Lemma repair_eq k s u s' :
  repair_case_projection k s = Ok (u, s') ->
  exists b, reconstruct_case k s = Ok (Some b)
    /\ s' = set_cases (update_row (fun c => String.eqb c.(c_case_key) k) (repaired b) s.(cases)) s.
Proof.
  unfold repair_case_projection, update_cases. simpl. intros Hr. inv_store.
  eexists. split; [|done]. unfold reconstruct_case, case_at_revision_limit. simpl. congruence.
Qed.

Lemma find_case_update s k p f :
  (forall c, (f c).(c_case_key) = c.(c_case_key)) ->
  find_case (set_cases (update_row p f s.(cases)) s) k
  = (fun c => if p c then f c else c) <$> find_case s k.
Proof.
  intros Hf. unfold find_case. simpl. induction (cases s) as [|c l IH]; [done|]. simpl.
  assert (c_case_key (if p c then f c else c) = c_case_key c) as Hk by (destruct (p c); auto).
  rewrite Hk. destruct (String.eqb (c_case_key c) k); [done|]. apply IH.
Qed.

Lemma repair_inv k s u s' : repair_case_projection k s = Ok (u, s') -> store_inv s -> store_inv s'.
Proof.
  intros (b & Hb & ->)%repair_eq Hinv. unfold store_inv. simpl.
  replace (update_row _ _ _) with s.(cases); [done|]. symmetry.
  unfold update_row. rewrite <-(map_id (cases s)) at 2. apply map_ext_in.
  intros c Hin%list_elem_of_In. destruct (String.eqb_spec (c_case_key c) k) as [<-|]; [|done].
  destruct (find_case s (c_case_key c)) as [c'|] eqn:Hc.
  - destruct (find_case_elem _ _ _ Hc) as [Hin' Hk'].
    assert (c' = c) as -> by (eapply key_unique; [apply Hinv|..]; congruence).
    destruct (reconstruct_last s _ c Hinv Hc) as (e & He & Hsl & Hpr & Hrec).
    rewrite Hb in Hrec. injection Hrec as ->.
    destruct (inv_ranges _ _ Hinv e He) as (Hpol & Hround & Hplan & Hpn).
    pose proof (inv_positive _ _ Hinv c Hin) as Hpos. unfold slot in Hsl. injection Hsl as Hk2 Hr2.
    destruct Hpr as (H1 & H2 & H3 & H4 & H5 & H6). destruct c; unfold repaired; simpl in *. subst.
    rewrite !u32_or_default_id, !unsigned_id by (done || lia). f_equal.
    destruct (e_pr_number e); simpl; [by rewrite unsigned_id|done].
  - apply list_elem_of_In in Hin. apply (find_none _ _ Hc) in Hin. by rewrite String.eqb_refl in Hin.
Qed.

(** ** Every reachable ledger *)

Lemma step_store_inv s s' : store_step s s' -> store_inv s -> store_inv s'.
Proof.
  intros [(_ & Hc & He)|[(i & r & Hwf & Hc)|[(l & f & r & Hwf & Ha)|(k & u & Hr)]]]%step_cases Hinv.
  - unfold store_inv. by rewrite Hc, He.
  - by eapply create_case_inv.
  - by eapply apply_batch_inv.
  - by eapply repair_inv.
Qed.
Lemma steps_store_inv s s' : rtc store_step s s' -> store_inv s -> store_inv s'.
Proof. induction 1; eauto using step_store_inv. Qed.
Lemma reachable_inv s : reachable s -> store_inv s.
Proof. intros Hr. eapply steps_store_inv; [done|]. apply ledger_inv_empty. Qed.
Lemma steps_evolve s s' : rtc store_step s s' -> evolves s s'.
Proof. induction 1; [done|]. etrans; [by apply step_evolves|done]. Qed.

(** ** Applied batches *)

Lemma event_unique s e e' :
  store_inv s -> e ∈ s.(events) -> e' ∈ s.(events) -> e.(e_event_id) = e'.(e_event_id) -> e = e'.
Proof.
  intros Hinv (i & Hi)%list_elem_of_lookup (j & Hj)%list_elem_of_lookup Hk.
  assert (i = j) as ->; [|congruence].
  eapply (NoDup_lookup _ i j (e_event_id e) (inv_ids _ _ Hinv));
    rewrite list_lookup_fmap, ?Hi, ?Hj; simpl; congruence.
Qed.
Lemma prefix_elem {A} (l k : list A) x : l `prefix_of` k -> x ∈ l -> x ∈ k.
Proof. intros [m ->] ?. set_solver. Qed.

Lemma apply_applied_inv l fault s s' :
  apply_transition_batch l fault s = Ok (Applied, s') ->
  batch_replay l s = Ok None /\ batch_transaction fault l s = Ok s'.
Proof.
  unfold apply_transition_batch. intros (early & He & Ha)%bind_ok. destruct early as [r|].
  - injection Ha as -> <-. unfold batch_replay in He.
    apply bind_ok in He as (_ & _ & (first & _ & (_ & _ & He)%bind_ok)%bind_ok).
    case_match; [|by case_match]. by inv_ok.
  - by apply bind_ok in Ha as (s1 & Hb & [= <-]).
Qed.

(** The event a transition of a batch leaves behind. *)
Definition leaves (i : TransitionInput) (s : Store) : Prop :=
  exists e, e ∈ s.(events) /\ e.(e_event_id) = i.(ti_event).(ei_event_id)
    /\ slot e = (i.(ti_case_key), i.(ti_expected_revision) + 1)
    /\ e.(e_command_sha256) = hash_serialized (ser_transition i).

Lemma leaves_evolves i s s' : evolves s s' -> leaves i s -> leaves i s'.
Proof.
  intros Hev (e & He & Hrest). exists e. split; [|done].
  eapply prefix_elem; [apply Hev|done].
Qed.
Lemma batch_transaction_evolves fault l s s' : batch_transaction fault l s = Ok s' -> evolves s s'.
Proof. apply (batch_transaction_rel evolves). eauto using applied_evolves. Qed.
Lemma batch_transaction_leaves fault l s s' i :
  batch_transaction fault l s = Ok s' -> i ∈ l -> leaves i s'.
Proof.
  revert s. induction l as [|j l IH]; intros s Hb Hi; [set_solver|]. simpl in Hb.
  apply bind_ok in Hb as (s1 & Ha & Hb). apply bind_ok in Hb as (_ & _ & Hb).
  apply elem_of_cons in Hi as [->|Hi]; [|by eapply IH].
  apply apply_one_applied in Ha as (c & p & Ha).
  eapply leaves_evolves; [by eapply batch_transaction_evolves|].
  eexists. rewrite (ap_events _ _ _ _ _ Ha). split; [apply elem_of_snoc; by right|]. done.
Qed.

(** A left event replays its command. *)
Lemma leaves_existing i s :
  store_inv s -> leaves i s ->
  existing_event s i.(ti_event).(ei_event_id)
  = Some (i.(ti_case_key), hash_serialized (ser_transition i)).
Proof.
  intros Hinv (e & He & Hid & Hslot & Hcmd). unfold existing_event.
  destruct (find_event s (ei_event_id (ti_event i))) as [e'|] eqn:Hf.
  - destruct (find_event_elem _ _ _ Hf) as [He' Hid'].
    assert (e' = e) as -> by (eapply event_unique; eauto; congruence).
    unfold slot in Hslot. injection Hslot as Hk _. simpl. congruence.
  - apply list_elem_of_In in He. apply (find_none _ _ Hf) in He. rewrite Hid in He.
    by rewrite String.eqb_refl in He.
Qed.

(** The events of a case carry exactly the revisions up to its current one. *)
Lemma case_revisions s c n :
  store_inv s -> c ∈ s.(cases) ->
  (exists e, e ∈ s.(events) /\ slot e = (c.(c_case_key), n)) <-> 1 <= n <= c.(c_state_revision).
Proof.
  intros Hinv Hc. split; [|by apply Hinv]. intros (e & He & Hs). unfold slot in Hs. injection Hs as Hk Hn.
  destruct (inv_event_case _ _ Hinv e He) as (c' & Hc' & Hk' & Hr).
  assert (c' = c) as -> by (eapply key_unique; [apply Hinv|..]; congruence). by subst n.
Qed.

Lemma replay_all l s :
  store_inv s -> (forall i, i ∈ l -> leaves i s) ->
  forallb is_some (map (fun i => existing_event s i.(ti_event).(ei_event_id)) l) = true
  /\ try_map (fun '(i, e) => replay_or_conflict (default ("", "") e) i.(ti_case_key)
        (hash_serialized (ser_transition i)) i.(ti_event).(ei_event_id))
       (zip l (map (fun i => existing_event s i.(ti_event).(ei_event_id)) l))
     = Ok (replicate (length l) Replayed).
Proof.
  intros Hinv Hl. induction l as [|i l IH]; [done|].
  destruct IH as [IH1 IH2]; [set_solver|]. simpl.
  rewrite (leaves_existing i s), IH1 by set_solver. split; [done|]. simpl.
  assert (forall a b c, replay_or_conflict (a, b) a b c = Ok Replayed) as ->; [|simpl; by rewrite IH2].
  intros. unfold replay_or_conflict. by rewrite !String.eqb_refl.
Qed.

(** ** Theorems *)

(** C3: Reconstruction agrees with the projection.  In every ledger that the
    public methods can produce from an empty database, the mutable row of a
    case equals the case rebuilt from its immutable events, for every key
    (absent cases included). *)
Theorem reachable_projection_matches_history (k : string) (s : Store) (Hreach : reachable s) :
  projection_matches_history k s = Ok true.
Proof.
  apply reachable_inv in Hreach as Hinv. unfold projection_matches_history.
  destruct (find_case s k) as [c|] eqn:Hc.
  - destruct (reconstruct_last s k c Hinv Hc) as (e & He & Hsl & Hpr & ->). simpl.
    rewrite bool_decide_true; [done|]. unfold query_case. rewrite Hc. simpl. f_equal.
    apply projects_stored; [done|]. unfold slot in Hsl. naive_solver.
  - unfold query_case, reconstruct_case, case_at_revision_limit. simpl. rewrite Hc. simpl.
    by destruct (latest_event _).
Qed.

(** History is complete and chained.  In every reachable ledger the events
    of a case carry exactly the revisions 1 to its current one, no two events
    share an identifier or a revision of a case, and every event but the first
    starts in the state the event before it entered. *)
Theorem reachable_history_is_complete (s : Store) (c : CaseRow) (Hreach : reachable s)
  (Hc : c ∈ s.(cases)) :
  (forall n, (exists e, e ∈ s.(events) /\ slot e = (c.(c_case_key), n)) <-> 1 <= n <= c.(c_state_revision))
  /\ NoDup (e_event_id <$> s.(events)) /\ NoDup (slot <$> s.(events))
  /\ (forall e, e ∈ s.(events) -> e.(e_case_key) = c.(c_case_key) ->
       (e.(e_previous_state) = None -> e.(e_state_revision) = 1)
       /\ (forall p, e.(e_previous_state) = Some p ->
            exists e', e' ∈ s.(events) /\ slot e' = (c.(c_case_key), e.(e_state_revision) - 1)
              /\ e'.(e_next_state) = p)).
Proof.
  apply reachable_inv in Hreach as Hinv. split_and!; [|apply Hinv|apply Hinv|].
  - intros n. by apply case_revisions.
  - intros e He Hk. pose proof (inv_chain _ _ Hinv e He) as Hch.
    destruct (e_previous_state e); split; try done. intros q [= <-]. by rewrite <-Hk.
Qed.

(** C39: The ledger is append-only.  Whatever sequence of public methods runs,
    policies, events, runs, evidence, findings, deliveries, retirements,
    observations, dispatch batches and create reservations only gain rows at
    the end; a board projection keeps its job and, once bound, its task; an
    outbox row keeps its identity and payload and
    never changes again once delivered or superseded; a terminal attempt and a
    resolved command never change; a case keeps its identity. *)
Theorem ledger_append_only (s s' : Store) (Hsteps : rtc store_step s s') : evolves s s'.
Proof. by apply steps_evolve. Qed.

(** An applied batch replays.  Once a batch of transitions was applied to a
    reachable ledger, submitting the same batch again, after any further
    sequence of methods and with any fault request, reports [Replayed] and
    changes nothing. *)
Theorem applied_batch_replays (l : list TransitionInput) (fault fault' : option FaultPoint)
  (s s1 s2 : Store) (Hreach : reachable s) (Hwf : Forall wf_transition l)
  (Happly : apply_transition_batch l fault s = Ok (Applied, s1)) (Hsteps : rtc store_step s1 s2) :
  apply_transition_batch l fault' s2 = Ok (Replayed, s2).
Proof.
  apply reachable_inv in Hreach as Hinv.
  pose proof (steps_store_inv _ _ Hsteps (apply_batch_inv _ _ _ _ _ Hwf Happly Hinv)) as Hinv2.
  pose proof (steps_evolve _ _ Hsteps) as Hev2.
  apply apply_applied_inv in Happly as [Hearly Hb].
  pose proof (batch_transaction_evolves _ _ _ _ Hb) as Hev1.
  unfold batch_replay in Hearly. apply bind_ok in Hearly as (? & Hw & Hearly).
  apply bind_ok in Hearly as (first & Hfirst & Hearly). apply bind_ok in Hearly as ([] & Hcheck & _).
  destruct (replay_all l s2 Hinv2) as [Hall Hreplay].
  { intros i Hi. eapply leaves_evolves; [done|]. by eapply batch_transaction_leaves. }
  unfold apply_transition_batch, batch_replay, ensure_writable in *.
  rewrite (ev_read_only _ _ Hev2), (ev_read_only _ _ Hev1), Hw. simpl.
  rewrite Hfirst. simpl. rewrite Hcheck. simpl. rewrite Hall, Hreplay. done.
Qed.

(** A replayed batch left the events of exactly its own commands. *)
Lemma replayed_existing l fault s s' i :
  apply_transition_batch l fault s = Ok (Replayed, s') -> i ∈ l ->
  exists e, e ∈ s.(events) /\ e.(e_event_id) = i.(ti_event).(ei_event_id)
    /\ e.(e_command_sha256) = hash_serialized (ser_transition i).
Proof.
  unfold apply_transition_batch. intros Ha Hi. apply bind_ok in Ha as (early & He & Ha).
  destruct early as [r|]; [|by inv_ok]. unfold batch_replay in He.
  apply bind_ok in He as (_ & _ & (first & _ & (_ & _ & He)%bind_ok)%bind_ok).
  case_match eqn:Hall; [|by case_match].
  apply bind_ok in He as (out & Ht & _).
  pose proof (forallb_elem _ _ (existing_event s (ei_event_id (ti_event i))) Hall) as Hsome.
  destruct (try_map_elem _ _ _ (i, existing_event s (ei_event_id (ti_event i))) Ht) as (r' & Hr & _).
  { apply (zip_map_elem (fun i => existing_event s (ei_event_id (ti_event i)))). done. }
  unfold existing_event in *. destruct (find_event s _) as [e|] eqn:Hf; simpl in *.
  - unfold replay_or_conflict in Hr. case_match eqn:E; [|done]. simpl in E. bools.
    destruct (find_event_elem _ _ _ Hf). exists e. split_and!; [done..|]. by apply String.eqb_eq.
  - discriminate Hsome. apply list_elem_of_In, in_map_iff. exists i. rewrite Hf.
    split; [done|by apply list_elem_of_In].
Qed.


(** C5: Of two racing commands at most one is applied.  Once a batch whose first
    transition expects revision [n] of a case was applied to a reachable ledger,
    then after any further methods the transaction of every other batch that
    starts from revision [n] of that case fails as stale, whatever its own
    replay check had read before, and reports the newer revision. *)
Theorem racing_command_is_stale (i1 i2 : TransitionInput) (l1 l2 : list TransitionInput)
  (f1 f2 : option FaultPoint) (s s1 s2 : Store) (Hreach : reachable s)
  (Hwf : Forall wf_transition (i1 :: l1))
  (Happly : apply_transition_batch (i1 :: l1) f1 s = Ok (Applied, s1))
  (Hsteps : rtc store_step s1 s2) (Hkey : i2.(ti_case_key) = i1.(ti_case_key))
  (Hrev : i2.(ti_expected_revision) = i1.(ti_expected_revision)) :
  exists actual, i2.(ti_expected_revision) < actual
    /\ batch_transaction f2 (i2 :: l2) s2 = Err (StaleRevision i2.(ti_expected_revision) actual).
Proof.
  apply reachable_inv in Hreach as Hinv.
  pose proof (steps_store_inv _ _ Hsteps (apply_batch_inv _ _ _ _ _ Hwf Happly Hinv)) as Hinv2.
  apply apply_applied_inv in Happly as [_ Hb].
  assert (leaves i1 s2) as (e & He & _ & Hslot & _).
  { eapply leaves_evolves; [by apply steps_evolve|]. eapply batch_transaction_leaves; [done|set_solver]. }
  destruct (inv_event_case _ _ Hinv2 e He) as (c & Hc & Hk & Hle).
  unfold slot in Hslot. injection Hslot as Hek Her.
  assert (find_case s2 i2.(ti_case_key) = Some c) as Hfind.
  { destruct (find_case s2 (ti_case_key i2)) as [c'|] eqn:Hf.
    - destruct (find_case_elem _ _ _ Hf). f_equal. eapply key_unique; [apply Hinv2|..]; congruence.
    - apply list_elem_of_In in Hc. apply (find_none _ _ Hf) in Hc. simpl in Hc.
      by rewrite Hk, Hek, Hkey, String.eqb_refl in Hc. }
  exists c.(c_state_revision). split; [lia|]. simpl. unfold apply_one, query_case. rewrite Hfind. simpl.
  rewrite unsigned_id by lia. rewrite (proj2 (Z.eqb_neq _ _)) by lia. done.
Qed.

(** A transition withdraws stale work.  After a transition is applied, work
    of an earlier revision of the case that is still pending is either a
    detached comparison observer (and the event is not one that stops the
    case), or the job of another reviewer of the same cohort: the event records
    a review that keeps the case in review, and nothing but reviews was
    recorded since the job's revision. *)
Theorem transition_supersedes_stale_work (i : TransitionInput) (fault : option FaultPoint)
  (s s' : Store) (o : OutboxRow) (Happly : apply_transition i fault s = Ok (Applied, s'))
  (Ho : o ∈ s'.(outbox)) (Hkey : o.(o_case_key) = i.(ti_case_key)) (Hpending : pending o = true)
  (Hstale : o.(o_state_revision) <= i.(ti_expected_revision)) :
  (o.(o_effect_type) = "RUN_DIRECT_OBSERVER"%string
   /\ one_of observer_stops i.(ti_event).(ei_event_type) = false)
  \/ (o.(o_effect_type) = "RUN_DIRECT_WORKER"%string
      /\ i.(ti_event).(ei_event_type) = "REVIEW_RECORDED"%string
      /\ i.(ti_next_state) = "REVIEWING"%string
      /\ forall e, e ∈ s'.(events) -> e.(e_case_key) = i.(ti_case_key) ->
           o.(o_state_revision) < e.(e_state_revision) ->
           e.(e_event_type) = "REVIEW_RECORDED"%string).
Proof.
  apply apply_applied_inv in Happly as [_ Hb]. simpl in Hb. apply bind_ok in Hb as (s1 & Ha & [= <-]).
  apply apply_one_applied in Ha as (c & policy & Ha). rewrite (ap_outbox _ _ _ _ _ Ha) in Ho.
  apply elem_of_app in Ho as [Ho|Ho].
  2: { apply list_elem_of_fmap in Ho as (e & -> & _). simpl in Hstale. lia. }
  simpl in Ho. apply list_elem_of_In, in_map_iff in Ho as (x & <- & _).
  destruct (supersedes _ _ _ _ x) eqn:E.
  { unfold pending in Hpending. simpl in Hpending. by rewrite andb_false_r in Hpending. }
  unfold supersedes in E. unfold pending in Hpending. apply andb_true_iff in Hpending as [Hd Hs].
  rewrite Hkey, String.eqb_refl in E.
  rewrite (proj2 (Z.ltb_lt _ _)) in E by lia. simpl in E.
  rewrite Hd, Hs, !andb_true_r in E.
  apply andb_false_iff in E as [E|E].
  - apply orb_false_iff in E as [E1 E2]. apply negb_false_iff, String.eqb_eq in E1. by left.
  - right. bools. unfold keeps_peers in *. bools.
    rename select (exists_row _ _ = false) into Hno. rewrite exists_row_false, Forall_forall in Hno.
    repeat match goal with Hx : String.eqb _ _ = true |- _ => apply String.eqb_eq in Hx end.
    split_and!; [done|done|congruence|]. intros e He Hek Hlt. specialize (Hno e He). simpl in Hno.
    rewrite Hek, String.eqb_refl, (proj2 (Z.ltb_lt _ _)) in Hno by done. simpl in Hno. bools.
    by apply String.eqb_eq.
Qed.

(** The operator events that resume a held case. *)
Definition operator_recoveries : list string :=
  ["INFRASTRUCTURE_RECOVERY_AUTHORIZED"; "FOLLOW_UP_RECOVERY_AUTHORIZED";
   "NATIVE_REVIEW_RETRY_AUTHORIZED"; "REVIEW_COORDINATION_RECOVERY_AUTHORIZED";
   "REMEDIATION_BUDGET_EXTENDED"].

Lemma authorize_recovers s current input r :
  authorize_event s current input = Ok r ->
  one_of operator_recoveries input.(ti_event).(ei_event_type) = true -> recovers s current input.
Proof.
  unfold authorize_event, one_of. intros Ha Ht%bool_decide_eq_true.
  apply bind_ok in Ha as (_ & _ & Ha).
  apply bind_ok in Ha as (u1 & H1 & (u2 & H2 & (u3 & H3 & (u4 & H4 & Ha)%bind_ok)%bind_ok)%bind_ok).
  unfold operator_recoveries in Ht. rewrite !elem_of_cons in Ht.
  destruct Ht as [Ht|[Ht|[Ht|[Ht|[Ht|Ht]]]]]; [..|set_solver]; rewrite Ht in H1, H2, H3, H4, Ha; simpl in *.
  - by eapply infrastructure_recovers.
  - by eapply follow_up_recovers.
  - by eapply native_recovers.
  - by eapply coordination_recovers.
  - by eapply extension_recovers.
Qed.

(** An operator recovery cannot smuggle anything in.  When one of the five
    operator recovery events is applied, the case keeps its plan version, pull
    request and head, the request names the exact revision and head it recovers,
    no run, evidence or finding rides along, exactly one effect is queued, and
    no direct attempt of the case was still running. *)
Theorem operator_recovery_keeps_bindings (input : TransitionInput) (fault : option FaultPoint)
  (s s' : Store) (Happly : apply_transition input fault s = Ok (Applied, s'))
  (Htype : one_of operator_recoveries input.(ti_event).(ei_event_type) = true) :
  exists current, query_case s input.(ti_case_key) = Some current
    /\ input.(ti_plan_version) = current.(sc_plan_version)
    /\ input.(ti_pr_number) = current.(sc_pr_number) /\ input.(ti_head_sha) = current.(sc_head_sha)
    /\ as_u64 (index (index input.(ti_event).(ei_payload) "request") "expected_revision")
       = Some input.(ti_expected_revision)
    /\ as_str (index (index input.(ti_event).(ei_payload) "request") "expected_head")
       = current.(sc_head_sha)
    /\ s'.(runs) = s.(runs) /\ s'.(evidence) = s.(evidence) /\ s'.(findings) = s.(findings)
    /\ length input.(ti_effects) = 1%nat
    /\ running_attempt s input.(ti_case_key) = false.
Proof.
  apply apply_applied_inv in Happly as [_ Hb]. simpl in Hb. apply bind_ok in Hb as (s1 & Ha & [= <-]).
  apply apply_one_applied in Ha as (c & policy & Ha). exists (stored_case c).
  destruct (ap_authorized _ _ _ _ _ Ha) as [s2 Hauth].
  destruct (authorize_recovers _ _ _ _ Hauth Htype) as [[reason Hreq] Hrun].
  destruct (find_case_elem _ _ _ (ap_case _ _ _ _ _ Ha)) as [_ Hk].
  apply operator_request_bindings in Hreq as (Hplan & Hpr & Hhead & Hr & Hev & Hf & Hfx & Hrev & Hh).
  rewrite (ap_runs _ _ _ _ _ Ha), (ap_evidence _ _ _ _ _ Ha), (ap_findings _ _ _ _ _ Ha), Hr, Hev, Hf.
  simpl. rewrite !app_nil_r. unfold query_case. rewrite (ap_case _ _ _ _ _ Ha).
  pose proof (ap_revision _ _ _ _ _ Ha) as Hexp. simpl in *. rewrite Hk in Hrun.
  split_and!; try done. congruence.
Qed.

(** Repair restores the projection.  Whatever the mutable row of a case
    held, after a successful repair it equals the case rebuilt from history. *)
Theorem repair_restores_projection (k : string) (s s' : Store) (u : ())
  (Hrepair : repair_case_projection k s = Ok (u, s')) : projection_matches_history k s' = Ok true.
Proof.
  apply repair_eq in Hrepair as (b & Hb & ->).
  unfold projection_matches_history, query_case, reconstruct_case, case_at_revision_limit in *.
  simpl in *. injection Hb as Hb. rewrite find_case_update by done.
  destruct (latest_event _) as [e|]; [|done]. destruct (find_case s k) as [c|] eqn:Hc; [|done].
  injection Hb as <-. destruct (find_case_elem _ _ _ Hc) as [_ Hk]. simpl.
  rewrite bool_decide_true; [done|]. f_equal. rewrite Hk, String.eqb_refl.
  unfold stored_case, repaired; simpl. rewrite Hk.
  assert (forall n, unsigned (unsigned n) = unsigned n) as Hu by (unfold unsigned; lia).
  assert (forall n, u32_or_default (u32_or_default n) = u32_or_default n) as Hd.
  { intros n. unfold u32_or_default. destruct ((0 <=? n) && (n <=? u32_max)) eqn:E; [by rewrite E|done]. }
  rewrite !Hu, !Hd. f_equal. destruct (e_pr_number e); simpl; by rewrite ?Hu.
Qed.
End invariants.

(** ** An execution

    A case is created with its planner dispatch and a detached observer job,
    and the plan is recorded. *)

Definition demo_event (id type : string) : EventInput :=
  {| ei_event_id := id; ei_event_type := type; ei_payload := Object [] |}.
Definition demo_effect (id type : string) : EffectInput :=
  {| fi_effect_id := id; fi_effect_type := type; fi_payload := Object [] |}.
Definition demo_case : NewCase := {|
  nc_case_key := "1:2:3"; nc_repository_id := 1; nc_issue_number := 2; nc_workflow_version := 3;
  nc_policy_revision := 1; nc_initial_state := "PLANNING"; nc_observed_at := 100;
  nc_event := demo_event "e1" "ISSUE_AUTHORIZED";
  nc_effects := [demo_effect "plan" "DISPATCH_PLANNER"; demo_effect "observe" "RUN_DIRECT_OBSERVER"] |}.
Definition demo_transition : TransitionInput := {|
  ti_case_key := "1:2:3"; ti_expected_revision := 1; ti_next_state := "READY_TO_BUILD";
  ti_remediation_round := 0; ti_plan_version := 1; ti_pr_number := None; ti_head_sha := None;
  ti_observed_at := 110; ti_event := demo_event "e2" "PLAN_READY"; ti_run := None;
  ti_evidence := []; ti_findings := []; ti_effects := [demo_effect "build" "DISPATCH_BUILDER"] |}.

(** The store a successful method leaves. *)
Definition after {A} (m : result StoreError (A * Store)) : Store :=
  match m with Ok (_, s) => s | Err _ => empty_store end.
Definition demo_store1 : Store := after (create_case (H := demo_codec) demo_case empty_store).
Definition demo_store2 : Store :=
  after (apply_transition_batch (H := demo_codec) [demo_transition] None demo_store1).

Lemma demo_case_wf : wf_new_case demo_case.
Proof. by split_and!. Qed.
Lemma demo_transition_wf : Forall wf_transition [demo_transition].
Proof. repeat constructor; done. Qed.
Lemma demo_create : create_case (H := demo_codec) demo_case empty_store = Ok (Applied, demo_store1).
Proof. by vm_compute. Qed.
Lemma demo_apply :
  apply_transition_batch (H := demo_codec) [demo_transition] None demo_store1 = Ok (Applied, demo_store2).
Proof. by vm_compute. Qed.
Lemma demo_reachable1 : reachable (H := demo_codec) demo_store1.
Proof.
  eapply rtc_l; [|reflexivity]. eapply (step_create_case (H := demo_codec)); [apply demo_case_wf|].
  apply demo_create.
Qed.
Lemma demo_reachable2 : reachable (H := demo_codec) demo_store2.
Proof.
  eapply rtc_r; [apply demo_reachable1|].
  eapply (step_apply (H := demo_codec)); [apply demo_transition_wf|]. apply demo_apply.
Qed.

Lemma reachable_projection_matches_history_witness :
  projection_matches_history "1:2:3" demo_store2 = Ok true.
Proof. apply (reachable_projection_matches_history (H := demo_codec)). apply demo_reachable2. Defined.

Lemma reachable_history_is_complete_witness :
  exists e, e ∈ demo_store2.(events) /\ slot e = ("1:2:3"%string, 2).
Proof.
  destruct (find_case demo_store2 "1:2:3") as [c|] eqn:Hc; [|by vm_compute in Hc].
  destruct (find_case_elem _ _ _ Hc) as [Hin Hk].
  assert (c_state_revision c = 2) as Hr by (vm_compute in Hc; by injection Hc as <-).
  destruct (reachable_history_is_complete (H := demo_codec) demo_store2 c demo_reachable2 Hin) as [He _].
  rewrite <-Hk. apply He. lia.
Defined.

Lemma ledger_append_only_witness : evolves demo_store1 demo_store2.
Proof.
  apply (ledger_append_only (H := demo_codec)). eapply rtc_l; [|reflexivity].
  eapply (step_apply (H := demo_codec)); [apply demo_transition_wf|apply demo_apply].
Defined.

Lemma applied_batch_replays_witness :
  apply_transition_batch (H := demo_codec) [demo_transition] None demo_store2 = Ok (Replayed, demo_store2).
Proof.
  eapply (applied_batch_replays (H := demo_codec) [demo_transition] None None demo_store1).
  - apply demo_reachable1.
  - apply demo_transition_wf.
  - apply demo_apply.
  - reflexivity.
Defined.


Lemma racing_command_is_stale_witness :
  exists actual, 1 < actual
    /\ batch_transaction (H := demo_codec) None [demo_transition] demo_store2 = Err (StaleRevision 1 actual).
Proof.
  apply (racing_command_is_stale (H := demo_codec) demo_transition demo_transition [] [] None None
           demo_store1 demo_store2 demo_store2).
  - apply demo_reachable1.
  - apply demo_transition_wf.
  - apply demo_apply.
  - reflexivity.
  - reflexivity.
  - reflexivity.
Defined.

Lemma transition_supersedes_stale_work_witness :
  exists o, o ∈ demo_store2.(outbox) /\ pending o = true /\ o.(o_state_revision) = 1
    /\ o.(o_effect_type) = "RUN_DIRECT_OBSERVER"%string.
Proof.
  destruct (find_outbox demo_store2 "observe") as [o|] eqn:Ho; [|by vm_compute in Ho].
  assert (pending o = true /\ o_state_revision o = 1 /\ o_case_key o = "1:2:3"%string) as (Hp & Hr & Hk)
    by (vm_compute in Ho; by injection Ho as <-).
  assert (o ∈ demo_store2.(outbox)) as Hin by (apply find_some in Ho as [? _]; by apply list_elem_of_In).
  exists o. split_and!; [done..|].
  destruct (transition_supersedes_stale_work (H := demo_codec) demo_transition None
              demo_store1 demo_store2 o demo_apply Hin Hk Hp) as [[Ht _]|(_ & Hev & _)].
  - rewrite Hr. by vm_compute.
  - exact Ht.
  - by vm_compute in Hev.
Defined.

Lemma repair_restores_projection_witness :
  projection_matches_history "1:2:3"
    (after (repair_case_projection "1:2:3" demo_store2)) = Ok true.
Proof. apply (repair_restores_projection "1:2:3" demo_store2 _ ()). by vm_compute. Defined.

(** A case that ran out of remediation rounds, and the operator's extension. *)
Definition demo_policy (rounds revision : Z) : Value :=
  json_object [("max_case_elapsed_seconds", Number 1000); ("max_remediation_rounds", Number rounds);
               ("revision", Number revision)].
Definition demo_failed_ci : TransitionInput := {|
  ti_case_key := "1:2:3"; ti_expected_revision := 1; ti_next_state := "ESCALATED";
  ti_remediation_round := 2; ti_plan_version := 1; ti_pr_number := Some 7; ti_head_sha := Some "h"%string;
  ti_observed_at := 110; ti_event := demo_event "e2" "CI_FAILED"; ti_run := None;
  ti_evidence := []; ti_findings := []; ti_effects := [] |}.
Definition demo_extension : TransitionInput := {|
  ti_case_key := "1:2:3"; ti_expected_revision := 2; ti_next_state := "WAITING_CI";
  ti_remediation_round := 2; ti_plan_version := 1; ti_pr_number := Some 7; ti_head_sha := Some "h"%string;
  ti_observed_at := 120;
  ti_event := {| ei_event_id := "e3"; ei_event_type := "REMEDIATION_BUDGET_EXTENDED";
    ei_payload := json_object [("schema_version", Number 1); ("operator_uid", Number 0);
      ("policy", demo_policy 3 2);
      ("request", json_object [("case_key", Str "1:2:3"); ("expected_revision", Number 2);
         ("expected_head", Str "h"); ("request_id", Str "e3"); ("reason", Str "one more round")])] |};
  ti_run := None; ti_evidence := []; ti_findings := [];
  ti_effects := [demo_effect "observe-ci" "OBSERVE_CI"] |}.
Definition demo_escalated : Store :=
  let s := after (record_policy (H := demo_codec) {| yi_repository_id := 1; yi_revision := 1;
             yi_accepted_at := 90; yi_payload := demo_policy 2 1 |} empty_store) in
  let s := after (create_case (H := demo_codec) {| nc_case_key := "1:2:3"; nc_repository_id := 1;
             nc_issue_number := 2; nc_workflow_version := 3; nc_policy_revision := 1;
             nc_initial_state := "WAITING_CI"; nc_observed_at := 100;
             nc_event := demo_event "e1" "ISSUE_AUTHORIZED"; nc_effects := [] |} s) in
  after (apply_transition (H := demo_codec) demo_failed_ci None s).

Lemma operator_recovery_keeps_bindings_witness :
  exists current, query_case demo_escalated "1:2:3" = Some current
    /\ demo_extension.(ti_head_sha) = current.(sc_head_sha).
Proof.
  destruct (operator_recovery_keeps_bindings (H := demo_codec) demo_extension None demo_escalated
    (after (apply_transition (H := demo_codec) demo_extension None demo_escalated)))
    as (current & Hc & _ & _ & Hh & _).
  - by vm_compute.
  - by vm_compute.
  - by exists current.
Defined.
