(* ===== verification/Conversations.v ===== *)
(** * Conversations: the durable queue of GitHub conversations

    crates/pip-store/src/conversations.rs.  A message is answered by a board job
    and published once; every stage leaves evidence that is never overwritten.
    The table lives in the same database as the ledger: [Db] is the two together. *)

From S2P Require Import Prelude Text Json Sql Tables Inputs StoreCore Outbox History Frames Steps Invariants.
From stdpp Require Import relations.
Open Scope Z_scope.

(** ** The table *)

Record ConversationRow := {
  m_message_key : string; m_repository_id : Z; m_thread_number : Z; m_actor_id : Z;
  m_case_key : option string; m_received_at : Z; m_payload_json : string;
  m_payload_sha256 : string; m_state : string; m_spec_json : option string;
  m_task_id : option string; m_answer_json : option string; m_reply_id : option Z;
  m_reply_body : option string;
}.
Record Db := { ledger : Store; conversation_rows : list ConversationRow }.
Definition set_rows (l : list ConversationRow) (d : Db) : Db :=
  {| ledger := d.(ledger); conversation_rows := l |}.

Record ConversationInput := {
  vc_key : string; vc_repository_id : Z; vc_thread_number : Z; vc_actor_id : Z;
  vc_case_key : option string; vc_received_at : Z; vc_payload : Value;
}.
#[export] Instance ConversationInput_eq_dec : EqDecision ConversationInput.
Proof. solve_decision. Defined.

Record Conversation := {
  cv_input : ConversationInput; cv_state : string; cv_spec : option Value;
  cv_task_id : option string; cv_answer : option Value; cv_reply_body : option string;
}.

Definition conversation_states : list string :=
  ["PENDING"; "CREATING"; "QUEUED"; "ANSWERED"; "PUBLISHED"; "IGNORED"; "FAILED"].
Definition closed (state : string) : bool := one_of ["PUBLISHED"; "IGNORED"; "FAILED"] state.

(** The trigger [conversations_input_immutable]: the input never changes and
    evidence is written once. *)
Definition kept {A} `{EqDecision A} (old new : option A) : bool :=
  is_none old || bool_decide (new = old).
Definition conversation_update_allowed (o n : ConversationRow) : bool :=
  String.eqb n.(m_message_key) o.(m_message_key) && (n.(m_repository_id) =? o.(m_repository_id))
  && (n.(m_thread_number) =? o.(m_thread_number)) && (n.(m_actor_id) =? o.(m_actor_id))
  && bool_decide (n.(m_case_key) = o.(m_case_key)) && (n.(m_received_at) =? o.(m_received_at))
  && String.eqb n.(m_payload_json) o.(m_payload_json)
  && String.eqb n.(m_payload_sha256) o.(m_payload_sha256)
  && kept o.(m_spec_json) n.(m_spec_json) && kept o.(m_task_id) n.(m_task_id)
  && kept o.(m_answer_json) n.(m_answer_json) && kept o.(m_reply_id) n.(m_reply_id)
  && kept o.(m_reply_body) n.(m_reply_body).

(** [task_id TEXT UNIQUE]. *)
Definition task_clash (x r : ConversationRow) : bool :=
  negb (String.eqb x.(m_message_key) r.(m_message_key))
  && match r.(m_task_id) with Some t => null_eq x.(m_task_id) t | None => false end.

Definition find_conversation (d : Db) (key : string) : option ConversationRow :=
  List.find (fun r => String.eqb r.(m_message_key) key) d.(conversation_rows).

Section conversations.
Context `{Codec}.

(** [json_valid]. *)
Definition json_valid (text : string) : bool := is_some (from_str text).
Definition json_valid_opt (o : option string) : bool :=
  match o with Some t => json_valid t | None => true end.
Definition conversation_check (r : ConversationRow) : bool :=
  one_of conversation_states r.(m_state) && json_valid r.(m_payload_json)
  && json_valid_opt r.(m_spec_json) && json_valid_opt r.(m_answer_json).

Definition insert_conversation_row (r : ConversationRow) (d : Db) : result StoreError Db :=
  constraint_if
    (negb (conversation_check r) || is_some (find_conversation d r.(m_message_key))
     || exists_row (fun x => task_clash x r) d.(conversation_rows)
     || match r.(m_case_key) with Some k => negb (case_exists d.(ledger) k) | None => false end)
    (set_rows (d.(conversation_rows) ++ [r]) d).

(** [UPDATE conversations SET ... WHERE p]. *)
Definition update_conversations (p : ConversationRow -> bool) (f : ConversationRow -> ConversationRow)
    (d : Db) : result StoreError (Z * Db) :=
  let '(rows, updated) := update_where p f d.(conversation_rows) in
  constraint_if
    (exists_row (fun r => p r && (negb (conversation_update_allowed r (f r))
       || negb (conversation_check (f r)) || exists_row (fun x => task_clash x (f r)) rows))
       d.(conversation_rows))
    (updated, set_rows rows d).

(** ** Reading *)

Definition parse_opt (o : option string) : result StoreError (option Value) :=
  match o with None => Ok None | Some t => Some <$> parse_json t end.

Definition read_conversation (r : ConversationRow) : result StoreError Conversation :=
  value ← parse_json r.(m_payload_json);
  err_if (negb (String.eqb (payload value).2 r.(m_payload_sha256)))
    (InvalidInput "conversation digest differs");;
  spec ← parse_opt r.(m_spec_json);
  answer ← parse_opt r.(m_answer_json);
  Ok {| cv_input := {| vc_key := r.(m_message_key); vc_repository_id := unsigned r.(m_repository_id);
                       vc_thread_number := unsigned r.(m_thread_number);
                       vc_actor_id := unsigned r.(m_actor_id); vc_case_key := r.(m_case_key);
                       vc_received_at := unsigned r.(m_received_at); vc_payload := value |};
        cv_state := r.(m_state); cv_spec := spec; cv_task_id := r.(m_task_id);
        cv_answer := answer; cv_reply_body := r.(m_reply_body) |}.

Definition conversation (key : string) (d : Db) : result StoreError (option Conversation) :=
  match find_conversation d key with
  | None => Ok None
  | Some r => Some <$> read_conversation r
  end.

Definition conversations (repository_id lim : Z) (d : Db) : result StoreError (list Conversation) :=
  repository ← sql_u64 repository_id;
  try_map (fun r => c ← conversation r.(m_message_key) d; ok_or c (InvalidInput "missing conversation"))
    (limit (Z.min lim 100) (order_by
      (fun a b => key_leb (a.(m_received_at), a.(m_message_key)) (b.(m_received_at), b.(m_message_key)))
      (List.filter (fun r => (r.(m_repository_id) =? repository) && negb (closed r.(m_state)))
         d.(conversation_rows)))).

Definition has_pending_conversation (repository_id : Z) (case_key : option string) (d : Db)
  : result StoreError bool :=
  repository ← sql_u64 repository_id;
  Ok (exists_row (fun r => (r.(m_repository_id) =? repository)
        && match case_key with Some k => null_eq r.(m_case_key) k | None => true end
        && negb (closed r.(m_state))) d.(conversation_rows)).

(** ** Writing *)

(** [replay.received_at = existing.input.received_at]. *)
Definition received_at (t : Z) (i : ConversationInput) : ConversationInput := {|
  vc_key := i.(vc_key); vc_repository_id := i.(vc_repository_id);
  vc_thread_number := i.(vc_thread_number); vc_actor_id := i.(vc_actor_id);
  vc_case_key := i.(vc_case_key); vc_received_at := t; vc_payload := i.(vc_payload) |}.

Definition record_conversation (i : ConversationInput) (d : Db) : result StoreError (ApplyResult * Db) :=
  ensure_writable d.(ledger);;
  err_if (negb (valid_identifier i.(vc_key) 256) || (i.(vc_repository_id) =? 0)
          || (i.(vc_thread_number) =? 0) || (i.(vc_actor_id) =? 0) || (i.(vc_received_at) =? 0)
          || negb (is_object i.(vc_payload)) || (256 * 1024 <? len (to_string i.(vc_payload))))
    (InvalidInput "invalid conversation");;
  existing ← conversation i.(vc_key) d;
  match existing with
  | Some c =>
      if bool_decide (c.(cv_input) = received_at c.(cv_input).(vc_received_at) i)
      then Ok (Replayed, d) else Err (IdempotencyConflict i.(vc_key))
  | None =>
      let '(body, hash) := payload i.(vc_payload) in
      repository ← sql_u64 i.(vc_repository_id);
      thread ← sql_u64 i.(vc_thread_number);
      actor ← sql_u64 i.(vc_actor_id);
      received ← sql_u64 i.(vc_received_at);
      d ← insert_conversation_row {| m_message_key := i.(vc_key); m_repository_id := repository;
            m_thread_number := thread; m_actor_id := actor; m_case_key := i.(vc_case_key);
            m_received_at := received; m_payload_json := body; m_payload_sha256 := hash;
            m_state := "PENDING"; m_spec_json := None; m_task_id := None; m_answer_json := None;
            m_reply_id := None; m_reply_body := None |} d;
      Ok (Applied, d)
  end.

(** The columns the updates set. *)
Definition moved (state : string) (spec task answer : option string) (reply_id : option Z)
    (body : option string) (r : ConversationRow) : ConversationRow := {|
  m_message_key := r.(m_message_key); m_repository_id := r.(m_repository_id);
  m_thread_number := r.(m_thread_number); m_actor_id := r.(m_actor_id);
  m_case_key := r.(m_case_key); m_received_at := r.(m_received_at);
  m_payload_json := r.(m_payload_json); m_payload_sha256 := r.(m_payload_sha256);
  m_state := state; m_spec_json := spec; m_task_id := task; m_answer_json := answer;
  m_reply_id := reply_id; m_reply_body := body |}.
Definition in_state (key state : string) (r : ConversationRow) : bool :=
  String.eqb r.(m_message_key) key && String.eqb r.(m_state) state.

Definition reserve_conversation (key : string) (spec : Value) (d : Db) : result StoreError (bool * Db) :=
  ensure_writable d.(ledger);;
  err_if (negb (is_object spec) || (512 * 1024 <? len (to_string spec)))
    (InvalidInput "invalid conversation job");;
  '(n, d) ← update_conversations (in_state key "PENDING")
    (fun r => moved "CREATING" (Some (payload spec).1) r.(m_task_id) r.(m_answer_json)
                r.(m_reply_id) r.(m_reply_body) r) d;
  Ok (n =? 1, d).

(** One row changed, or the conversation already is as asked. *)
Definition settle (key : string) (n : Z) (same : Conversation -> bool) (d : Db)
  : result StoreError (() * Db) :=
  if n =? 1 then Ok ((), d)
  else
    c ← conversation key d;
    if match c with Some c => same c | None => false end then Ok ((), d)
    else Err (IdempotencyConflict key).

Definition bind_conversation_task (key task : string) (d : Db) : result StoreError (() * Db) :=
  ensure_writable d.(ledger);;
  err_if (negb (valid_identifier task 256)) (InvalidInput "invalid task");;
  '(n, d) ← update_conversations (in_state key "CREATING")
    (fun r => moved "QUEUED" r.(m_spec_json) (Some task) r.(m_answer_json)
                r.(m_reply_id) r.(m_reply_body) r) d;
  settle key n (fun c => bool_decide (c.(cv_task_id) = Some task)) d.

Definition answer_conversation (key : string) (answer : Value) (d : Db) : result StoreError (() * Db) :=
  ensure_writable d.(ledger);;
  err_if (negb (is_object answer) || (16 * 1024 <? len (to_string answer)))
    (InvalidInput "invalid conversation answer");;
  '(n, d) ← update_conversations (in_state key "QUEUED")
    (fun r => moved "ANSWERED" r.(m_spec_json) r.(m_task_id) (Some (payload answer).1)
                r.(m_reply_id) r.(m_reply_body) r) d;
  settle key n (fun c => bool_decide (c.(cv_answer) = Some answer)) d.

Definition prepare_conversation_reply (key body : string) (d : Db) : result StoreError (() * Db) :=
  ensure_writable d.(ledger);;
  err_if (blank body || (16 * 1024 <? len body)) (InvalidInput "invalid reply");;
  '(n, d) ← update_conversations (fun r => in_state key "ANSWERED" r && is_none r.(m_reply_body))
    (fun r => moved r.(m_state) r.(m_spec_json) r.(m_task_id) r.(m_answer_json)
                r.(m_reply_id) (Some body) r) d;
  settle key n (fun c => bool_decide (c.(cv_reply_body) = Some body)) d.

Definition finish_conversation (key state : string) (reply_id : option Z) (d : Db)
  : result StoreError (() * Db) :=
  ensure_writable d.(ledger);;
  err_if (negb (closed state)
          || (String.eqb state "PUBLISHED" && match reply_id with Some n => n =? 0 | None => true end))
    (InvalidInput "invalid conversation disposition");;
  id ← sql_u64_opt reply_id;
  '(n, d) ← update_conversations
    (fun r => String.eqb r.(m_message_key) key && negb (closed r.(m_state))
              && (negb (String.eqb state "PUBLISHED") || String.eqb r.(m_state) "ANSWERED"))
    (fun r => moved state r.(m_spec_json) r.(m_task_id) r.(m_answer_json) id r.(m_reply_body) r) d;
  let replay := match find_conversation d key with
                | Some r => String.eqb r.(m_state) state && bool_decide (r.(m_reply_id) = id)
                | None => false
                end in
  if (n =? 1) || replay then Ok ((), d) else Err (IdempotencyConflict key).
End conversations.

(** ** The step relation *)

Section steps.
Context `{Codec}.

Inductive db_step (d d' : Db) : Prop :=
| db_ledger s' : store_step d.(ledger) s' ->
    d' = {| ledger := s'; conversation_rows := d.(conversation_rows) |} -> db_step d d'
| db_record i r : record_conversation i d = Ok (r, d') -> db_step d d'
| db_reserve k v b : reserve_conversation k v d = Ok (b, d') -> db_step d d'
| db_bind k t u : bind_conversation_task k t d = Ok (u, d') -> db_step d d'
| db_answer k v u : answer_conversation k v d = Ok (u, d') -> db_step d d'
| db_prepare k b u : prepare_conversation_reply k b d = Ok (u, d') -> db_step d d'
| db_finish k st n u : finish_conversation k st n d = Ok (u, d') -> db_step d d'.

Definition fresh_db : Db := {| ledger := empty_store; conversation_rows := [] |}.
Definition db_reachable (d : Db) : Prop := rtc db_step fresh_db d.
End steps.

(** ** What a step may do to a conversation *)

Definition stage (state : string) : Z :=
  if String.eqb state "PENDING" then 0 else if String.eqb state "CREATING" then 1
  else if String.eqb state "QUEUED" then 2 else if String.eqb state "ANSWERED" then 3 else 4.

Definition keeps_value {A} (old new : option A) : Prop := is_Some old -> new = old.

Record row_evolves (r r' : ConversationRow) : Prop := {
  re_key : r'.(m_message_key) = r.(m_message_key);
  re_payload : r'.(m_payload_json) = r.(m_payload_json);
  re_stage : stage r.(m_state) <= stage r'.(m_state);
  re_spec : keeps_value r.(m_spec_json) r'.(m_spec_json);
  re_task : keeps_value r.(m_task_id) r'.(m_task_id);
  re_answer : keeps_value r.(m_answer_json) r'.(m_answer_json);
  re_reply : keeps_value r.(m_reply_body) r'.(m_reply_body);
  re_closed : closed r.(m_state) = true -> r' = r;
}.
#[export] Instance row_evolves_preorder : PreOrder row_evolves.
Proof.
  split; [by split|]. intros x y z Hxy Hyz.
  assert (forall A (a b c : option A), keeps_value a b -> keeps_value b c -> keeps_value a c) as Hk.
  { intros A a b c Hab Hbc Ha. pose proof (Hab Ha). subst b. auto. }
  destruct Hxy, Hyz. split; try congruence; try lia; eauto.
  intros Hc. pose proof (re_closed0 Hc). subst y. auto.
Qed.

(** What the stage of a conversation says about its evidence. *)
Record row_ok (r : ConversationRow) : Prop := {
  ok_state : r.(m_state) ∈ conversation_states;
  ok_spec : 1 <= stage r.(m_state) <= 3 -> is_Some r.(m_spec_json);
  ok_task : 2 <= stage r.(m_state) <= 3 -> is_Some r.(m_task_id);
  ok_answer : stage r.(m_state) = 3 -> is_Some r.(m_answer_json);
  ok_published : r.(m_state) = "PUBLISHED"%string ->
    is_Some r.(m_spec_json) /\ is_Some r.(m_task_id) /\ is_Some r.(m_answer_json)
    /\ exists n, r.(m_reply_id) = Some n /\ n <> 0;
  ok_reply : is_Some r.(m_reply_body) -> is_Some r.(m_answer_json);
}.
Record db_inv (d : Db) : Prop := {
  di_keys : NoDup (m_message_key <$> d.(conversation_rows));
  di_rows : forall r, r ∈ d.(conversation_rows) -> row_ok r;
}.

(** ** Each write *)

Section writes.
Context `{Codec}.

Lemma kept_keeps {A} `{EqDecision A} (o n : option A) : kept o n = true -> keeps_value o n.
Proof. unfold kept, keeps_value. destruct o; simpl; [by intros ?%bool_decide_eq_true|by intros _ [? ?]]. Qed.

(** An accepted update changed rows as the trigger allows. *)
Lemma update_conversations_inv p f d n d' :
  update_conversations p f d = Ok (n, d') ->
  d' = set_rows (update_where p f d.(conversation_rows)).1 d
  /\ n = count_rows p d.(conversation_rows)
  /\ forall r, r ∈ d.(conversation_rows) -> p r = true ->
       conversation_update_allowed r (f r) = true /\ conversation_check (f r) = true.
Proof.
  unfold update_conversations. simpl. unfold constraint_if. intros Hu.
  destruct (exists_row _ _) eqn:E; [done|]. simplify_eq. split_and!; [done..|].
  rewrite exists_row_false, Forall_forall in E. intros r Hr Hp. specialize (E r Hr).
  simpl in E. rewrite Hp in E. simpl in E. bools. done.
Qed.

Lemma allowed_evolves r r' :
  conversation_update_allowed r r' = true -> closed r.(m_state) = false ->
  stage r.(m_state) <= stage r'.(m_state) -> row_evolves r r'.
Proof.
  unfold conversation_update_allowed. intros Ha Hc Hs. bools.
  repeat match goal with Hx : String.eqb _ _ = true |- _ => apply String.eqb_eq in Hx end.
  split; try done; try (by apply kept_keeps). congruence.
Qed.

(** An update that moves open conversations forward keeps the contract. *)
Lemma update_evolves p f d n d' :
  (forall r, p r = true -> closed r.(m_state) = false /\ stage r.(m_state) <= stage (f r).(m_state)) ->
  update_conversations p f d = Ok (n, d') -> Forall2 row_evolves d.(conversation_rows) d'.(conversation_rows).
Proof.
  intros Hf (-> & _ & Hok)%update_conversations_inv. simpl. apply Forall2_fmap_r.
  apply Forall_Forall2_diag, Forall_forall. intros r Hr. simpl. destruct (p r) eqn:Hp; [|done].
  destruct (Hf r Hp). destruct (Hok r Hr Hp). by apply allowed_evolves.
Qed.

Lemma Forall2_keys l l' :
  Forall2 row_evolves l l' -> m_message_key <$> l' = m_message_key <$> l.
Proof. induction 1 as [|r r' l l' Hr _ IH]; simpl; [done|]. f_equal; [apply Hr|apply IH]. Qed.

Lemma update_inv p f d n d' :
  (forall r, p r = true -> closed r.(m_state) = false /\ stage r.(m_state) <= stage (f r).(m_state)) ->
  (forall r, p r = true -> row_ok r -> row_ok (f r)) ->
  update_conversations p f d = Ok (n, d') -> db_inv d -> db_inv d'.
Proof.
  intros Hf Hok Hu [Hk Hr]. pose proof (update_evolves _ _ _ _ _ Hf Hu) as He.
  apply update_conversations_inv in Hu as (-> & _ & _). split; [by rewrite (Forall2_keys _ _ He)|].
  intros r (x & Hx & ->)%elem_update. destruct (p x) eqn:Hp; auto.
Qed.

(** ** Each operation *)

(** The rows an operation updates are open, and what they become is well formed. *)
Definition forward (p : ConversationRow -> bool) (f : ConversationRow -> ConversationRow) : Prop :=
  forall r, p r = true ->
    closed r.(m_state) = false /\ stage r.(m_state) <= stage (f r).(m_state)
    /\ (row_ok r -> row_ok (f r)).

Lemma in_state_eq key st r : in_state key st r = true -> r.(m_message_key) = key /\ r.(m_state) = st.
Proof. unfold in_state. intros. bools. split; by apply String.eqb_eq. Qed.

(** [row_ok] of a row whose state is known. *)
Definition row_needs (state : string) (r : ConversationRow) : Prop :=
  let n := stage state in
  (if (1 <=? n) && (n <=? 3) then is_Some r.(m_spec_json) else True)
  /\ (if (2 <=? n) && (n <=? 3) then is_Some r.(m_task_id) else True)
  /\ (if n =? 3 then is_Some r.(m_answer_json) else True)
  /\ (if String.eqb state "PUBLISHED" then
         is_Some r.(m_spec_json) /\ is_Some r.(m_task_id) /\ is_Some r.(m_answer_json)
         /\ exists n, r.(m_reply_id) = Some n /\ n <> 0 else True)
  /\ (is_Some r.(m_reply_body) -> is_Some r.(m_answer_json)).
Lemma row_ok_needs r : row_ok r <-> r.(m_state) ∈ conversation_states /\ row_needs r.(m_state) r.
Proof.
  unfold row_needs. split.
  - intros []. split; [done|]. split_and!; try done.
    + case_match; [|done]. apply ok_spec0. lia.
    + case_match; [|done]. apply ok_task0. lia.
    + case_match; [|done]. apply ok_answer0. lia.
    + case_match; [|done]. apply ok_published0. by apply String.eqb_eq.
  - intros (Hst & H1 & H2 & H3 & H4 & H5). split; try done.
    + intros Hs. rewrite (proj2 (Z.leb_le 1 _)), (proj2 (Z.leb_le _ 3)) in H1 by lia. done.
    + intros Hs. rewrite (proj2 (Z.leb_le 2 _)), (proj2 (Z.leb_le _ 3)) in H2 by lia. done.
    + intros Hs. rewrite (proj2 (Z.eqb_eq _ 3)) in H3 by lia. done.
    + intros Hs. by rewrite Hs in H4.
Qed.

Lemma reserve_forward key text :
  forward (in_state key "PENDING") (fun r => moved "CREATING" (Some text) r.(m_task_id) r.(m_answer_json)
    r.(m_reply_id) r.(m_reply_body) r).
Proof.
  intros r [_ Hs]%in_state_eq. rewrite !row_ok_needs, Hs. simpl. split_and!; [done..|].
  intros (_ & _ & _ & _ & _ & Hb). split; [by apply (bool_decide_unpack _)|].
  unfold row_needs; simpl. split_and!; naive_solver.
Qed.
Lemma bind_forward key task :
  forward (in_state key "CREATING") (fun r => moved "QUEUED" r.(m_spec_json) (Some task)
    r.(m_answer_json) r.(m_reply_id) r.(m_reply_body) r).
Proof.
  intros r [_ Hs]%in_state_eq. rewrite !row_ok_needs, Hs. simpl. split_and!; [done..|].
  intros (_ & H1 & _ & _ & _ & Hb). split; [by apply (bool_decide_unpack _)|].
  unfold row_needs; simpl. split_and!; naive_solver.
Qed.
Lemma answer_forward key text :
  forward (in_state key "QUEUED") (fun r => moved "ANSWERED" r.(m_spec_json) r.(m_task_id)
    (Some text) r.(m_reply_id) r.(m_reply_body) r).
Proof.
  intros r [_ Hs]%in_state_eq. rewrite !row_ok_needs, Hs. simpl. split_and!; [done..|].
  intros (_ & H1 & H2 & _ & _ & Hb). split; [by apply (bool_decide_unpack _)|].
  unfold row_needs; simpl. split_and!; naive_solver.
Qed.
Lemma prepare_forward key body :
  forward (fun r => in_state key "ANSWERED" r && is_none r.(m_reply_body))
    (fun r => moved r.(m_state) r.(m_spec_json) r.(m_task_id) r.(m_answer_json)
                r.(m_reply_id) (Some body) r).
Proof.
  intros r [[_ Hs]%in_state_eq _]%andb_true_iff. rewrite !row_ok_needs. simpl. rewrite Hs.
  split_and!; [done..|]. intros (_ & H1 & H2 & H3 & _ & _). split; [by apply (bool_decide_unpack _)|].
  unfold row_needs; simpl. split_and!; naive_solver.
Qed.
Lemma closed_stage st : closed st = true -> stage st = 4 /\ st ∈ conversation_states.
Proof.
  unfold closed, one_of. intros Hc%bool_decide_eq_true. unfold conversation_states.
  repeat (apply elem_of_cons in Hc as [->|Hc]); [split; [done|set_solver]..|set_solver].
Qed.
Lemma stage_le st : stage st <= 4.
Proof. unfold stage. repeat case_match; lia. Qed.
Lemma finish_forward key state reply_id id :
  closed state = true ->
  String.eqb state "PUBLISHED" && match reply_id with Some n => n =? 0 | None => true end = false ->
  id = reply_id ->
  forward (fun r => String.eqb r.(m_message_key) key && negb (closed r.(m_state))
              && (negb (String.eqb state "PUBLISHED") || String.eqb r.(m_state) "ANSWERED"))
    (fun r => moved state r.(m_spec_json) r.(m_task_id) r.(m_answer_json) id r.(m_reply_body) r).
Proof.
  intros Hc Hr -> r Hp. apply andb_true_iff in Hp as [Hp Hans]. apply andb_true_iff in Hp as [_ Ho].
  apply negb_true_iff in Ho. destruct (closed_stage _ Hc) as [Hst Hin].
  split_and!; [done|simpl; rewrite Hst; apply stage_le|]. rewrite !row_ok_needs. simpl.
  intros (_ & H1 & H2 & H3 & _ & H5). split; [done|].
  unfold row_needs. rewrite Hst. simpl. split_and!; [done..| |done].
  destruct (String.eqb state "PUBLISHED"); [|done]. simpl in *. apply String.eqb_eq in Hans.
  rewrite Hans in H1, H2, H3. simpl in *. split_and!; try done.
  destruct reply_id as [n|]; [|done]. exists n. split; [done|]. by apply Z.eqb_neq.
Qed.

Lemma forward_step p f d n d' :
  forward p f -> update_conversations p f d = Ok (n, d') ->
  Forall2 row_evolves d.(conversation_rows) d'.(conversation_rows) /\ d'.(ledger) = d.(ledger)
  /\ (db_inv d -> db_inv d').
Proof.
  intros Hf Hu. split_and!.
  - eapply update_evolves; [|done]. intros r Hp. by destruct (Hf r Hp) as (? & ? & _).
  - by apply update_conversations_inv in Hu as (-> & _).
  - eapply update_inv; [..|done]; intros r Hp; by destruct (Hf r Hp) as (? & ? & ?).
Qed.

(** An operation on conversations either leaves everything alone or is an
    update that moves conversations forward. *)
Definition forward_move (d d' : Db) : Prop :=
  exists p f n, forward p f /\ update_conversations p f d = Ok (n, d').

Lemma settle_eq key n same d u d' : settle key n same d = Ok (u, d') -> d' = d.
Proof.
  unfold settle. intros Hs. case_match; [by simplify_eq|].
  apply bind_ok in Hs as (c & _ & Hs). case_match; by simplify_eq.
Qed.

Lemma reserve_move k v d b d' : reserve_conversation k v d = Ok (b, d') -> forward_move d d'.
Proof.
  unfold reserve_conversation. intros Hr. inv_ok. case_match.
  inv_ok. eexists _, _, _. split; [apply reserve_forward|done].
Qed.
Lemma bind_move k t d u d' : bind_conversation_task k t d = Ok (u, d') -> forward_move d d'.
Proof.
  unfold bind_conversation_task. intros Hr. inv_ok. case_match.
  rename select (settle _ _ _ _ = _) into Hs. apply settle_eq in Hs as ->.
  eexists _, _, _. split; [apply bind_forward|done].
Qed.
Lemma answer_move k v d u d' : answer_conversation k v d = Ok (u, d') -> forward_move d d'.
Proof.
  unfold answer_conversation. intros Hr. inv_ok. case_match.
  rename select (settle _ _ _ _ = _) into Hs. apply settle_eq in Hs as ->.
  eexists _, _, _. split; [apply answer_forward|done].
Qed.
Lemma prepare_move k b d u d' : prepare_conversation_reply k b d = Ok (u, d') -> forward_move d d'.
Proof.
  unfold prepare_conversation_reply. intros Hr. inv_ok. case_match.
  rename select (settle _ _ _ _ = _) into Hs. apply settle_eq in Hs as ->.
  eexists _, _, _. split; [apply prepare_forward|done].
Qed.
Lemma finish_move k st n d u d' : finish_conversation k st n d = Ok (u, d') -> forward_move d d'.
Proof.
  unfold finish_conversation. intros Hr. inv_ok. case_match.
  rename select (negb (closed st) || _ = false) into Hv. apply orb_false_iff in Hv as [Hc Hp].
  apply negb_false_iff in Hc. rename select (sql_u64_opt n = _) into Hn.
  apply sql_u64_opt_ok in Hn as [-> _].
  match goal with Hd : (if ?b then _ else _) = Ok _ |- _ => destruct b; inv_ok end.
  eexists _, _, _. split; [by eapply (finish_forward k st n n)|done].
Qed.

Lemma record_move i d r d' :
  record_conversation i d = Ok (r, d') ->
  d' = d \/ exists row, d'.(conversation_rows) = d.(conversation_rows) ++ [row]
    /\ find_conversation d row.(m_message_key) = None /\ row_ok row.
Proof.
  unfold record_conversation. intros Hr. open_ok. case_match.
  { case_match; open_ok. left; congruence. }
  simpl in *. open_ok. right. subst.
  rename select (insert_conversation_row _ _ = _) into Hi. unfold insert_conversation_row, constraint_if in Hi.
  destruct (find_conversation d _) eqn:Hf in Hi; [by rewrite orb_true_r in Hi|].
  case_match; [done|]. injection Hi as <-. eexists. split_and!; [done..|].
  apply row_ok_needs. simpl. split; [by apply (bool_decide_unpack _)|]. unfold row_needs. simpl.
  split_and!; done.
Qed.

Lemma fresh_keys d row :
  NoDup (m_message_key <$> d.(conversation_rows)) -> find_conversation d row.(m_message_key) = None ->
  NoDup (m_message_key <$> d.(conversation_rows) ++ [row]).
Proof.
  intros Hnd Hf. rewrite fmap_app. apply NoDup_app. split_and!; [done| |apply NoDup_singleton].
  intros k (r & -> & Hr)%list_elem_of_fmap Hk%list_elem_of_singleton.
  unfold find_conversation in Hf. apply list_elem_of_In, (find_none _ _ Hf) in Hr.
  by rewrite Hk, String.eqb_refl in Hr.
Qed.

Lemma db_step_evolves d d' :
  db_step d d' -> grows row_evolves d.(conversation_rows) d'.(conversation_rows) /\ (db_inv d -> db_inv d').
Proof.
  intros Hs. assert (d'.(conversation_rows) = d.(conversation_rows) \/ forward_move d d'
    \/ exists row, d'.(conversation_rows) = d.(conversation_rows) ++ [row]
         /\ find_conversation d row.(m_message_key) = None /\ row_ok row) as [Heq|[Hf|Hnew]].
  { destruct Hs as [? _ ->| i r Hr | | | | | ].
    1: by left.
    1: apply record_move in Hr as [->|?]; eauto.
    all: right; left; eauto using reserve_move, bind_move, answer_move, prepare_move, finish_move. }
  - rewrite Heq. split; [done|]. intros [Hk Hr]. by split; rewrite Heq.
  - destruct Hf as (p & f & n & Hf & Hu). destruct (forward_step _ _ _ _ _ Hf Hu) as (He & _ & Hi).
    split; [|done]. eexists _, []. rewrite app_nil_r. eauto.
  - destruct Hnew as (row & Hrows & Hf & Hok). split; [rewrite Hrows; by apply grows_app, _|].
    intros [Hk Hr]. split; rewrite Hrows; [by apply fresh_keys|].
    intros r [Hin| ->]%elem_of_snoc; auto.
Qed.

Lemma db_steps_evolve d d' : rtc db_step d d' -> grows row_evolves d.(conversation_rows) d'.(conversation_rows).
Proof. induction 1; [done|]. etrans; [by apply db_step_evolves|done]. Qed.
Lemma db_steps_inv d d' : rtc db_step d d' -> db_inv d -> db_inv d'.
Proof. induction 1; [done|]. intros ?. apply IHrtc. by eapply (proj2 (db_step_evolves _ _ ltac:(eassumption))). Qed.
Lemma db_reachable_inv d : db_reachable d -> db_inv d.
Proof. intros Hr. eapply db_steps_inv; [done|]. split; [apply NoDup_nil_2|]. by intros r ?%not_elem_of_nil. Qed.

(** ** One conversation over time *)

Lemma find_conversation_elem d k r :
  find_conversation d k = Some r -> r ∈ d.(conversation_rows) /\ r.(m_message_key) = k.
Proof. intros [Hin Hk]%find_some. split; [by apply list_elem_of_In|]. by apply String.eqb_eq. Qed.
Lemma conversation_unique d r r' :
  db_inv d -> r ∈ d.(conversation_rows) -> r' ∈ d.(conversation_rows) ->
  r.(m_message_key) = r'.(m_message_key) -> r = r'.
Proof.
  intros Hinv (i & Hi)%list_elem_of_lookup (j & Hj)%list_elem_of_lookup Hk.
  assert (i = j) as ->; [|congruence].
  eapply (NoDup_lookup _ i j (m_message_key r) (di_keys _ Hinv));
    rewrite list_lookup_fmap, ?Hi, ?Hj; simpl; congruence.
Qed.
Lemma find_conversation_in d r :
  db_inv d -> r ∈ d.(conversation_rows) -> find_conversation d r.(m_message_key) = Some r.
Proof.
  intros Hinv Hr. destruct (find_conversation d _) as [x|] eqn:Hf.
  - apply find_conversation_elem in Hf as [Hx Hk]. f_equal. by eapply conversation_unique.
  - unfold find_conversation in Hf. apply list_elem_of_In, (find_none _ _ Hf) in Hr.
    by rewrite String.eqb_refl in Hr.
Qed.

(** A later look at a conversation finds it, evolved. *)
Lemma find_later d d' k r :
  db_inv d -> rtc db_step d d' -> find_conversation d k = Some r ->
  exists r', find_conversation d' k = Some r' /\ row_evolves r r'.
Proof.
  intros Hinv Hs [Hr Hk]%find_conversation_elem. pose proof (db_steps_inv _ _ Hs Hinv) as Hinv'.
  destruct (db_steps_evolve _ _ Hs) as (kept & added & Hrows & Hall).
  destruct (Forall2_elem_l _ _ _ _ Hall Hr) as (r' & Hr' & He).
  exists r'. split; [|done]. rewrite <-Hk, <-(re_key _ _ He). apply find_conversation_in; [done|].
  rewrite Hrows. set_solver.
Qed.

(** A selection of one conversation: whether it is selected, and the rest. *)
Lemma count_one p d k n :
  db_inv d -> (forall r, p r = true -> r.(m_message_key) = k) ->
  count_rows p d.(conversation_rows) = n ->
  match find_conversation d k with
  | Some r => if p r then n = 1 else n = 0
  | None => n = 0
  end.
Proof.
  intros Hinv Hp <-. unfold count_rows.
  assert (forall l, NoDup (m_message_key <$> l) ->
    match List.find (fun r => String.eqb r.(m_message_key) k) l with
    | Some r => length (List.filter p l) = if p r then 1%nat else 0%nat
    | None => length (List.filter p l) = 0%nat end) as Hl.
  { induction l as [|r l IH]; intros Hnd; simpl; [done|]. apply NoDup_cons in Hnd as [Hn Hnd].
    specialize (IH Hnd). destruct (String.eqb_spec (m_message_key r) k) as [Hk|Hk].
    - assert (List.filter p l = []) as Hnil.
      { destruct (List.filter p l) as [|x t] eqn:E; [done|]. exfalso. apply Hn. rewrite Hk.
        assert (x ∈ List.filter p l) as Hx by (rewrite E; set_solver).
        apply list_elem_of_In, filter_In in Hx as [Hx Hpx]. apply list_elem_of_fmap. exists x.
        split; [symmetry; by apply Hp|by apply list_elem_of_In]. }
      destruct (p r); simpl; by rewrite Hnil.
    - destruct (p r) eqn:E; [by apply Hp in E|]. done. }
  specialize (Hl _ (di_keys _ Hinv)). unfold find_conversation. case_match; [case_match|]; lia.
Qed.

(** An update of one conversation. *)
Lemma update_one p f d k n d1 :
  db_inv d -> forward p f -> (forall r, p r = true -> r.(m_message_key) = k) ->
  update_conversations p f d = Ok (n, d1) ->
  match find_conversation d k with
  | Some r => find_conversation d1 k = Some (if p r then f r else r) /\ n = if p r then 1 else 0
  | None => n = 0
  end.
Proof.
  intros Hinv Hf Hp Hu. destruct (forward_step _ _ _ _ _ Hf Hu) as (_ & _ & Hi). specialize (Hi Hinv).
  pose proof (update_conversations_inv _ _ _ _ _ Hu) as (Hd & Hn & Hok).
  pose proof (count_one p d k n Hinv Hp (eq_sym Hn)) as Hc.
  destruct (find_conversation d k) as [r|] eqn:Hr; [|done]. split; [|by case_match].
  apply find_conversation_elem in Hr as [Hin Hk].
  assert ((if p r then f r else r).(m_message_key) = k) as Hk'.
  { destruct (p r) eqn:E; [|done]. destruct (Hok r Hin E) as [Ha _].
    unfold conversation_update_allowed in Ha. bools.
    repeat match goal with Hx : String.eqb _ _ = true |- _ => apply String.eqb_eq in Hx end. congruence. }
  rewrite <-Hk'. apply find_conversation_in; [done|]. rewrite Hd. simpl.
  apply list_elem_of_In, (in_map (fun r => if p r then f r else r)). by apply list_elem_of_In.
Qed.

(** An update that selects nothing changes nothing. *)
Lemma update_unselected p f d n d1 :
  update_conversations p f d = Ok (n, d1) -> n = 0 -> d1 = d.
Proof.
  intros (-> & -> & _)%update_conversations_inv Hn. unfold count_rows in Hn.
  assert (Forall (fun r => p r = false) d.(conversation_rows)) as Hall.
  { apply Forall_forall. intros r Hr. destruct (p r) eqn:E; [|done].
    assert (r ∈ List.filter p d.(conversation_rows)) as Hin.
    { apply list_elem_of_In, filter_In. split; [by apply list_elem_of_In|done]. }
    destruct (List.filter p _); [set_solver|]. simpl in Hn. lia. }
  unfold set_rows. rewrite (update_none _ _ _ Hall). by destruct d.
Qed.

Lemma reserve_inv k v d b d1 :
  db_inv d -> reserve_conversation k v d = Ok (b, d1) ->
  match find_conversation d k with
  | Some r => b = String.eqb r.(m_state) "PENDING"
      /\ exists r1, find_conversation d1 k = Some r1 /\ (b = true -> r1.(m_state) = "CREATING"%string)
  | None => b = false
  end /\ (b = false -> d1 = d).
Proof.
  unfold reserve_conversation. intros Hinv Hr. inv_ok. case_match. inv_ok.
  rename select (update_conversations _ _ _ = _) into Hu.
  pose proof (update_one _ _ _ k _ _ Hinv (reserve_forward k (to_string v))
    (fun r Hr => proj1 (in_state_eq _ _ _ Hr)) Hu) as Hone. split.
  - destruct (find_conversation d k) as [r|] eqn:Hf; [|by subst].
    apply find_conversation_elem in Hf as [_ Hk]. unfold in_state in Hone. rewrite Hk, String.eqb_refl in Hone.
    simpl in Hone. destruct Hone as [Hf1 ->]. destruct (String.eqb (m_state r) "PENDING"); simpl.
    + split; [done|]. by eexists.
    + split; [done|]. eexists. by split.
  - intros Hn. eapply update_unselected; [done|]. apply Z.eqb_neq in Hn.
    destruct (find_conversation d k); [|done]. destruct Hone as [_ ->]. by case_match.
Qed.

Lemma read_conversation_body r c : read_conversation r = Ok c -> c.(cv_reply_body) = r.(m_reply_body).
Proof. unfold read_conversation. intros Hr. open_ok. by subst. Qed.
Lemma settle_body k n body d u d1 :
  settle k n (fun c => bool_decide (c.(cv_reply_body) = Some body)) d = Ok (u, d1) -> n <> 1 ->
  exists r, find_conversation d k = Some r /\ r.(m_reply_body) = Some body.
Proof.
  unfold settle, conversation. intros Hs Hn. rewrite (proj2 (Z.eqb_neq _ _) Hn) in Hs.
  apply bind_ok in Hs as (c & Hc & Hs). destruct (find_conversation d k) as [r|]; [|by simplify_eq].
  exists r. split; [done|]. destruct (read_conversation r) as [x|] eqn:Hx; simpl in Hc; simplify_eq.
  case_match; [|done]. rewrite <-(read_conversation_body _ _ Hx). by eapply bool_decide_eq_true_1.
Qed.

(** After a reply is prepared it is the recorded one; if one was there already
    nothing changes. *)
Lemma prepare_inv k body d u d1 :
  db_inv d -> prepare_conversation_reply k body d = Ok (u, d1) ->
  (exists r, find_conversation d1 k = Some r /\ r.(m_reply_body) = Some body)
  /\ (forall r, find_conversation d k = Some r -> is_Some r.(m_reply_body) -> d1 = d).
Proof.
  unfold prepare_conversation_reply. intros Hinv Hr. inv_ok. case_match.
  rename select (settle _ _ _ _ = _) into Hs. pose proof (settle_eq _ _ _ _ _ _ Hs) as ->.
  rename select (update_conversations _ _ _ = _) into Hu.
  pose proof (update_one _ _ _ k _ _ Hinv (prepare_forward k body)
    (fun r Hr => proj1 (in_state_eq _ _ _ (proj1 (proj1 (andb_true_iff _ _) Hr)))) Hu) as Hone. split.
  - destruct (decide (z = 1)) as [Hz|Hz]; [|by eapply settle_body].
    destruct (find_conversation d k) as [r|] eqn:Hf; [|lia]. destruct Hone as [Hf1 Hn].
    case_match; [|lia]. by eexists.
  - intros r Hf [y Hy]. rewrite Hf in Hone. destruct Hone as [_ Hn]. rewrite Hy in Hn. simpl in Hn.
    rewrite andb_false_r in Hn. by eapply update_unselected.
Qed.

(** ** Theorems *)

(** A conversation's job is created at most once.  After a reservation has
    been granted, whatever else happens to the database, no later reservation of
    the same message is granted, and it changes nothing. *)
Theorem conversation_created_once (k : string) (spec spec' : Value) (d d1 d2 d3 : Db) (b : bool)
  (Hreach : db_reachable d) (Hfirst : reserve_conversation k spec d = Ok (true, d1))
  (Hsteps : rtc db_step d1 d2) (Hsecond : reserve_conversation k spec' d2 = Ok (b, d3)) :
  b = false /\ d3 = d2.
Proof.
  apply db_reachable_inv in Hreach as Hinv.
  assert (db_inv d1) as Hinv1 by (eapply db_steps_inv; [by eapply rtc_once, db_reserve|done]).
  destruct (reserve_inv _ _ _ _ _ Hinv Hfirst) as [Hf _].
  destruct (find_conversation d k); [|done]. destruct Hf as (_ & r1 & Hf1 & Hst).
  destruct (find_later _ _ _ _ Hinv1 Hsteps Hf1) as (r2 & Hf2 & He).
  pose proof (re_stage _ _ He) as Hle. rewrite Hst in Hle by done.
  destruct (reserve_inv _ _ _ _ _ (db_steps_inv _ _ Hsteps Hinv1) Hsecond) as [Hs Hsame].
  rewrite Hf2 in Hs. destruct Hs as (Hb & _). assert (b = false) as ->; [|auto].
  destruct (String.eqb_spec (m_state r2) "PENDING") as [E|]; [|done]. rewrite E in Hle. by vm_compute in Hle.
Qed.

(** A prepared reply is frozen, and only an answered message is published.
    Preparing a reply again later succeeds only with the same bytes and changes
    nothing; and in every database the methods can build, a published message has
    its job, its task, its answer and a non-zero reply identity. *)
Theorem conversation_reply_frozen (k body body' : string) (d d1 d2 d3 : Db) (u u' : ())
  (Hreach : db_reachable d) (Hfirst : prepare_conversation_reply k body d = Ok (u, d1))
  (Hsteps : rtc db_step d1 d2) (Hsecond : prepare_conversation_reply k body' d2 = Ok (u', d3)) :
  body' = body /\ d3 = d2
  /\ forall r, r ∈ d2.(conversation_rows) -> r.(m_state) = "PUBLISHED"%string ->
       is_Some r.(m_spec_json) /\ is_Some r.(m_task_id) /\ is_Some r.(m_answer_json)
       /\ exists n, r.(m_reply_id) = Some n /\ n <> 0.
Proof.
  apply db_reachable_inv in Hreach as Hinv.
  assert (db_inv d1) as Hinv1 by (eapply db_steps_inv; [by eapply rtc_once, db_prepare|done]).
  pose proof (db_steps_inv _ _ Hsteps Hinv1) as Hinv2.
  destruct (prepare_inv _ _ _ _ _ Hinv Hfirst) as [(r1 & Hf1 & Hb1) _].
  destruct (find_later _ _ _ _ Hinv1 Hsteps Hf1) as (r2 & Hf2 & He).
  assert (r2.(m_reply_body) = Some body) as Hb2.
  { rewrite (re_reply _ _ He); [done|by eexists]. }
  destruct (prepare_inv _ _ _ _ _ Hinv2 Hsecond) as [(r3 & Hf3 & Hb3) Hsame].
  assert (d3 = d2) as -> by (eapply Hsame; [done|by eexists]).
  split; [congruence|]. split; [done|]. intros r Hr. by apply (di_rows _ Hinv2 r Hr).
Qed.
End writes.

(** ** An execution: a question is queued, answered and published. *)

Definition demo_message : ConversationInput := {|
  vc_key := "comment:1"; vc_repository_id := 1; vc_thread_number := 2; vc_actor_id := 9;
  vc_case_key := None; vc_received_at := 100; vc_payload := Object [] |}.
Definition next_db {A} (m : result StoreError (A * Db)) : Db :=
  match m with Ok (_, d) => d | Err _ => fresh_db end.
Definition demo_asked : Db := next_db (record_conversation (H := demo_codec) demo_message fresh_db).
Definition demo_created : Db := next_db (reserve_conversation (H := demo_codec) "comment:1" (Object []) demo_asked).
Definition demo_queued : Db := next_db (bind_conversation_task (H := demo_codec) "comment:1" "task-1" demo_created).
Definition demo_answered : Db := next_db (answer_conversation (H := demo_codec) "comment:1" (Object []) demo_queued).
Definition demo_prepared : Db := next_db (prepare_conversation_reply (H := demo_codec) "comment:1" "yes" demo_answered).
Definition demo_published : Db := next_db (finish_conversation (H := demo_codec) "comment:1" "PUBLISHED" (Some 5) demo_prepared).

Lemma demo_asked_reachable : db_reachable (H := demo_codec) demo_asked.
Proof. eapply rtc_once, (db_record (H := demo_codec) _ _ demo_message Applied). by vm_compute. Qed.
Lemma demo_answered_reachable : db_reachable (H := demo_codec) demo_answered.
Proof.
  eapply rtc_r; [eapply rtc_r; [eapply rtc_r; [apply demo_asked_reachable|]|]|].
  - apply (db_reserve (H := demo_codec) _ _ "comment:1" (Object []) true). by vm_compute.
  - apply (db_bind (H := demo_codec) _ _ "comment:1" "task-1" ()). by vm_compute.
  - apply (db_answer (H := demo_codec) _ _ "comment:1" (Object []) ()). by vm_compute.
Qed.

Lemma conversation_created_once_witness :
  exists b d3, reserve_conversation (H := demo_codec) "comment:1" (Object []) demo_created = Ok (b, d3)
    /\ b = false /\ d3 = demo_created.
Proof.
  exists false, demo_created. split; [by vm_compute|].
  apply (conversation_created_once (H := demo_codec) "comment:1" (Object []) (Object []) demo_asked
           demo_created demo_created demo_created false demo_asked_reachable);
    [by vm_compute|reflexivity|by vm_compute].
Defined.

Lemma conversation_reply_frozen_witness :
  "yes"%string = "yes"%string /\ demo_published = demo_published
  /\ exists r, r ∈ demo_published.(conversation_rows) /\ is_Some r.(m_answer_json).
Proof.
  destruct (conversation_reply_frozen (H := demo_codec) "comment:1" "yes" "yes" demo_answered
              demo_prepared demo_published demo_published () () demo_answered_reachable)
    as (Hb & Hd & Hp).
  - by vm_compute.
  - apply rtc_once, (db_finish (H := demo_codec) _ _ "comment:1" "PUBLISHED" (Some 5) ()). by vm_compute.
  - by vm_compute.
  - split; [exact Hb|]. split; [exact Hd|].
    destruct (find_conversation demo_published "comment:1") as [r|] eqn:Hf; [|by vm_compute in Hf].
    apply find_conversation_elem in Hf as Hin. exists r. split; [apply Hin|].
    apply (Hp r (proj1 Hin)). clear -Hf. vm_compute in Hf. by simplify_eq.
Defined.
