(* ===== verification/CaseHistory.v ===== *)
(** * CaseHistory: the immutable record of a case

    [immutable_history_for_case] and [review_observations_for_case] of
    crates/pip-store/src/lib.rs: everything the ledger keeps about a case, in
    order, as it is exported to workers. *)

From S2P Require Import Prelude Text Json Sql Tables Inputs Recovery StoreCore Records History Steps.
From S2P Require Import Invariants.
From stdpp Require Import relations sorting.
Open Scope Z_scope.

Record StoredEvent := {
  se_event_id : string; se_state_revision : Z; se_observed_at : Z; se_event_type : string;
  se_payload : Value; se_payload_sha256 : string;
}.
Record StoredEvidence := {
  sv_evidence_id : string; sv_kind : string; sv_source : string; sv_observed_at : Z;
  sv_payload : Value; sv_payload_sha256 : string;
}.
Record StoredFinding := {
  sf_finding_id : string; sf_origin_role : string; sf_reviewed_head_sha : string;
  sf_payload : Value; sf_payload_sha256 : string; sf_recorded_at : Z;
}.
Record StoredReviewObservation := {
  so_observation_id : string; so_effect_id : string; so_case_key : string; so_task_id : string;
  so_reviewer_id : string; so_role : string; so_review_mode : string; so_plan_version : Z;
  so_review_round : Z; so_pr_number : Z; so_reviewed_head_sha : string; so_payload : Value;
  so_payload_sha256 : string; so_recorded_at : Z;
}.
Record ImmutableCaseHistory := {
  ih_events : list StoredEvent; ih_runs : list StoredRun; ih_evidence : list StoredEvidence;
  ih_findings : list StoredFinding; ih_review_observations : list StoredReviewObservation;
}.

(** ** Orders *)

Definition event_order (a b : EventRow) : bool :=
  key_leb (a.(e_state_revision), a.(e_event_id)) (b.(e_state_revision), b.(e_event_id)).
Definition evidence_order (a b : EvidenceRow) : bool :=
  key_leb (a.(v_observed_at), a.(v_evidence_id)) (b.(v_observed_at), b.(v_evidence_id)).
Definition observation_order (a b : ObservationRow) : bool :=
  key_leb (a.(n_recorded_at), a.(n_observation_id)) (b.(n_recorded_at), b.(n_observation_id)).
(** [ORDER BY recorded_at, finding_id, origin_role, reviewed_head_sha, event_id],
    with NULL first. *)
Definition then_by (c d : comparison) : comparison := match c with Eq => d | _ => c end.
Definition null_compare (a b : option string) : comparison :=
  match a, b with
  | None, None => Eq
  | None, Some _ => Lt
  | Some _, None => Gt
  | Some a, Some b => String.compare a b
  end.
Definition finding_order (a b : FindingRow) : bool :=
  match then_by (Z.compare a.(f_recorded_at) b.(f_recorded_at))
          (then_by (String.compare a.(f_finding_id) b.(f_finding_id))
            (then_by (String.compare a.(f_origin_role) b.(f_origin_role))
              (then_by (String.compare a.(f_reviewed_head_sha) b.(f_reviewed_head_sha))
                (null_compare a.(f_event_id) b.(f_event_id))))) with
  | Gt => false | _ => true
  end.

Section history.
Context `{Codec}.

Definition parse_event (e : EventRow) : result StoreError StoredEvent :=
  p ← parse_json e.(e_payload_json);
  Ok {| se_event_id := e.(e_event_id); se_state_revision := unsigned e.(e_state_revision);
        se_observed_at := unsigned e.(e_observed_at); se_event_type := e.(e_event_type);
        se_payload := p; se_payload_sha256 := e.(e_payload_sha256) |}.
Definition parse_evidence (v : EvidenceRow) : result StoreError StoredEvidence :=
  p ← parse_json v.(v_payload_json);
  Ok {| sv_evidence_id := v.(v_evidence_id); sv_kind := v.(v_kind); sv_source := v.(v_source);
        sv_observed_at := unsigned v.(v_observed_at); sv_payload := p;
        sv_payload_sha256 := v.(v_payload_sha256) |}.
Definition parse_finding (f : FindingRow) : result StoreError StoredFinding :=
  p ← parse_json f.(f_payload_json);
  Ok {| sf_finding_id := f.(f_finding_id); sf_origin_role := f.(f_origin_role);
        sf_reviewed_head_sha := f.(f_reviewed_head_sha); sf_payload := p;
        sf_payload_sha256 := f.(f_payload_sha256); sf_recorded_at := unsigned f.(f_recorded_at) |}.

(** [u32::try_from(i64)]. *)
Definition try_u32 (n : Z) : result StoreError Z :=
  if (0 <=? n) && (n <=? u32_max) then Ok n else Err InvalidInteger.
Definition parse_observation (n : ObservationRow) : result StoreError StoredReviewObservation :=
  plan ← try_u32 n.(n_plan_version);
  round ← try_u32 n.(n_review_round);
  p ← parse_json n.(n_payload_json);
  Ok {| so_observation_id := n.(n_observation_id); so_effect_id := n.(n_effect_id);
        so_case_key := n.(n_case_key); so_task_id := n.(n_task_id);
        so_reviewer_id := n.(n_reviewer_id); so_role := n.(n_role);
        so_review_mode := n.(n_review_mode); so_plan_version := plan; so_review_round := round;
        so_pr_number := unsigned n.(n_pr_number); so_reviewed_head_sha := n.(n_reviewed_head_sha);
        so_payload := p; so_payload_sha256 := n.(n_payload_sha256);
        so_recorded_at := unsigned n.(n_recorded_at) |}.

Definition review_observations_for_case (key : string) (s : Store)
  : result StoreError (list StoredReviewObservation) :=
  err_if (blank key) (InvalidInput "case identity is required");;
  try_map parse_observation (order_by observation_order
    (List.filter (fun n => String.eqb n.(n_case_key) key) s.(review_observations))).

Definition immutable_history_for_case (key : string) (s : Store)
  : result StoreError ImmutableCaseHistory :=
  err_if (blank key) (InvalidInput "case identity is required");;
  events ← try_map parse_event
    (order_by event_order (List.filter (fun e => String.eqb e.(e_case_key) key) s.(events)));
  runs ← runs_for_case key s;
  evidence ← try_map parse_evidence
    (order_by evidence_order (List.filter (fun v => String.eqb v.(v_case_key) key) s.(evidence)));
  findings ← try_map parse_finding
    (order_by finding_order (List.filter (fun f => String.eqb f.(f_case_key) key) s.(findings)));
  observations ← review_observations_for_case key s;
  Ok {| ih_events := events; ih_runs := runs; ih_evidence := evidence; ih_findings := findings;
        ih_review_observations := observations |}.
End history.

(** ** [serde_json::to_value] of the history *)

Definition ser_stored_event (e : StoredEvent) : Value :=
  json_object [("event_id", Str e.(se_event_id)); ("state_revision", Number e.(se_state_revision));
    ("observed_at", Number e.(se_observed_at)); ("event_type", Str e.(se_event_type));
    ("payload", e.(se_payload)); ("payload_sha256", Str e.(se_payload_sha256))].
Definition ser_stored_run (r : StoredRun) : Value :=
  json_object [("run_id", Str r.(sr_run_id)); ("case_key", Str r.(sr_case_key));
    ("event_id", Str r.(sr_event_id)); ("task_id", Str r.(sr_task_id)); ("role", Str r.(sr_role));
    ("payload", r.(sr_payload)); ("payload_sha256", Str r.(sr_payload_sha256));
    ("accepted_at", Number r.(sr_accepted_at))].
Definition ser_stored_evidence (v : StoredEvidence) : Value :=
  json_object [("evidence_id", Str v.(sv_evidence_id)); ("kind", Str v.(sv_kind));
    ("source", Str v.(sv_source)); ("observed_at", Number v.(sv_observed_at));
    ("payload", v.(sv_payload)); ("payload_sha256", Str v.(sv_payload_sha256))].
Definition ser_stored_finding (f : StoredFinding) : Value :=
  json_object [("finding_id", Str f.(sf_finding_id)); ("origin_role", Str f.(sf_origin_role));
    ("reviewed_head_sha", Str f.(sf_reviewed_head_sha)); ("payload", f.(sf_payload));
    ("payload_sha256", Str f.(sf_payload_sha256)); ("recorded_at", Number f.(sf_recorded_at))].
Definition ser_stored_observation (o : StoredReviewObservation) : Value :=
  json_object [("observation_id", Str o.(so_observation_id)); ("effect_id", Str o.(so_effect_id));
    ("case_key", Str o.(so_case_key)); ("task_id", Str o.(so_task_id));
    ("reviewer_id", Str o.(so_reviewer_id)); ("role", Str o.(so_role));
    ("review_mode", Str o.(so_review_mode)); ("plan_version", Number o.(so_plan_version));
    ("review_round", Number o.(so_review_round)); ("pr_number", Number o.(so_pr_number));
    ("reviewed_head_sha", Str o.(so_reviewed_head_sha)); ("payload", o.(so_payload));
    ("payload_sha256", Str o.(so_payload_sha256)); ("recorded_at", Number o.(so_recorded_at))].
Definition ser_history (h : ImmutableCaseHistory) : Value :=
  json_object [("events", Array (ser_stored_event <$> h.(ih_events)));
    ("runs", Array (ser_stored_run <$> h.(ih_runs)));
    ("evidence", Array (ser_stored_evidence <$> h.(ih_evidence)));
    ("findings", Array (ser_stored_finding <$> h.(ih_findings)));
    ("review_observations", Array (ser_stored_observation <$> h.(ih_review_observations)))].

(** ** The history is whole *)

Lemma seqZ_sorted n m : StronglySorted Z.le (seqZ n m).
Proof.
  apply Sorted_StronglySorted; [intros x y z; lia|].
  destruct (Z_le_gt_dec 0 m) as [Hm|]; [|by rewrite seqZ_nil by lia; constructor].
  revert n. pattern m. apply natlike_ind; [by constructor| |done]. intros k Hk IH n.
  rewrite seqZ_cons by lia. constructor; [by replace (Z.pred (Z.succ k)) with k by lia; apply IH|].
  replace (Z.pred (Z.succ k)) with k by lia. destruct (decide (k = 0)) as [->|]; [constructor|].
  rewrite seqZ_cons by lia. constructor. lia.
Qed.

Lemma events_in_order l :
  StronglySorted Z.le (e_state_revision <$> order_by event_order l).
Proof.
  pose proof (order_by_sorted event_order l) as Hs. unfold event_order at 1 2 3 4 5 in Hs.
  specialize (Hs (fun a b c => key_leb_trans _ _ _) (fun a b => key_leb_total _ _)).
  induction Hs as [|e es Hs IH Hall]; simpl; constructor; [done|]. apply Forall_fmap.
  eapply Forall_impl; [exact Hall|]. intros x Hx%Is_true_true. unfold event_order, key_leb in Hx. simpl in *.
  apply orb_true_iff in Hx as [Hx|Hx]; [lia|]. bools. lia.
Qed.

Section whole.
Context `{Codec}.

Lemma parse_events_revisions l out :
  try_map parse_event l = Ok out -> (forall e, e ∈ l -> 0 <= e.(e_state_revision)) ->
  se_state_revision <$> out = e_state_revision <$> l.
Proof.
  revert out. induction l as [|e l IH]; intros out Ht Hl; simpl in Ht; [by simplify_eq|].
  open_ok. subst. unfold parse_event in *. open_ok. subst. simpl. f_equal.
  - apply unsigned_id. apply Hl. set_solver.
  - apply IH; [done|]. intros x Hx. apply Hl. set_solver.
Qed.

(** The exported history of a case is whole.  In every ledger the public
    methods can produce, whenever the immutable history of a case is read, its
    events carry exactly the revisions from the first to the case's current one,
    once each and in order. *)
Theorem immutable_history_is_whole (s : Store) (c : CaseRow) (h : ImmutableCaseHistory)
  (Hreach : reachable s) (Hc : c ∈ s.(cases))
  (Hread : immutable_history_for_case c.(c_case_key) s = Ok h) :
  se_state_revision <$> h.(ih_events) = seqZ 1 c.(c_state_revision).
Proof.
  unfold immutable_history_for_case in Hread. open_ok. subst. simpl.
  apply reachable_inv in Hreach as Hinv.
  set (l := List.filter (fun e => String.eqb e.(e_case_key) c.(c_case_key)) s.(events)) in *.
  assert (forall e, e ∈ l <-> e ∈ s.(events) /\ e.(e_case_key) = c.(c_case_key)) as Hl.
  { intros e. unfold l. by rewrite list_elem_of_In, filter_In, <-list_elem_of_In, String.eqb_eq. }
  assert (forall n, (exists e, e ∈ l /\ e.(e_state_revision) = n) <-> 1 <= n <= c.(c_state_revision)) as Hrev.
  { intros n. rewrite <-(case_revisions s c n Hinv Hc). unfold slot. setoid_rewrite Hl. naive_solver congruence. }
  rename select (try_map parse_event _ = _) into Ht. rewrite (parse_events_revisions _ _ Ht).
  2: { intros e He. rewrite order_by_elem in He. assert (1 <= e.(e_state_revision) <= c.(c_state_revision)) by (apply Hrev; eauto). lia. }
  apply (Sorted_unique Z.le); [apply StronglySorted_Sorted, events_in_order|apply StronglySorted_Sorted, seqZ_sorted|].
  apply NoDup_Permutation; [|apply NoDup_seqZ|].
  - unfold order_by. rewrite (merge_sort_Permutation _ l). apply (NoDup_fmap_2_strong _ l).
    + intros a b Hx%Hl Hy%Hl Hxy. eapply slot_unique; [apply Hinv|apply Hx|apply Hy|].
      unfold slot. f_equal; [|done]. by rewrite (proj2 Hx), (proj2 Hy).
    + unfold l. apply NoDup_ListNoDup, List.NoDup_filter, NoDup_ListNoDup.
      eapply NoDup_fmap_1. apply Hinv.
  - intros n. rewrite elem_of_seqZ. rewrite list_elem_of_fmap. setoid_rewrite order_by_elem.
    split.
    + intros (e & -> & He). assert (1 <= e.(e_state_revision) <= c.(c_state_revision)) by (apply Hrev; eauto). lia.
    + intros Hn. destruct (proj2 (Hrev n)) as (e & He & Hen); [lia|]. by exists e.
Qed.
End whole.

Lemma immutable_history_is_whole_witness :
  exists c h, c ∈ demo_store2.(cases)
    /\ immutable_history_for_case (H := demo_codec) "1:2:3" demo_store2 = Ok h
    /\ se_state_revision <$> h.(ih_events) = seqZ 1 c.(c_state_revision).
Proof.
  destruct (find_case demo_store2 "1:2:3") as [c|] eqn:Hc; [|by vm_compute in Hc].
  destruct (immutable_history_for_case (H := demo_codec) "1:2:3" demo_store2) as [h|] eqn:Hh;
    [|by vm_compute in Hh].
  apply find_case_elem in Hc as [Hin Hk]. exists c, h. split; [done|]. split; [done|].
  apply (immutable_history_is_whole (H := demo_codec) demo_store2 c h demo_reachable2 Hin).
  by rewrite Hk.
Defined.
