(* ===== verification/Delivery.v ===== *)
(** * Delivery: leases, at-most-once delivery, attempts and reservations

    Theorems about the outbox and the direct attempts of reachable ledgers. *)

From S2P Require Import Prelude Text Json Sql Tables Inputs Frozen Recovery StoreCore Outbox.
From S2P Require Import Attempts Control Records History Frames Steps Invariants.
From stdpp Require Import relations.
Open Scope Z_scope.

(** The rows a claim may take: pending, not leased past [now], in the
    repository and case asked for, of an allowed type. *)
Definition in_scope (now : Z) (types : option (list string)) (repository : option Z)
  (key : option string) (s : Store) (o : OutboxRow) : bool :=
  pending o && lease_free now o
  && match repository with
     | None => true
     | Some r => exists_row (fun c => String.eqb c.(c_case_key) o.(o_case_key)
                                      && (c.(c_repository_id) =? r)) s.(cases)
     end
  && unless key o.(o_case_key)
  && match types with None => true | Some allowed => one_of allowed o.(o_effect_type) end.

(** The queue position of a row. *)
Definition queue_leb (a b : OutboxRow) : bool :=
  key_leb (a.(o_created_at), a.(o_effect_id)) (b.(o_created_at), b.(o_effect_id)).

Section delivery.
Context `{Codec}.

Lemma steps_queue_inv s s' : rtc store_step s s' -> queue_inv s -> queue_inv s'.
Proof. intros Hs. apply (ev_queue _ _ (steps_evolve _ _ Hs)). Qed.
Lemma reachable_queue_inv s : reachable s -> queue_inv s.
Proof. intros Hr. eapply steps_queue_inv; [done|]. apply queue_inv_empty. Qed.

Lemma outbox_unique s a b :
  queue_inv s -> a ∈ s.(outbox) -> b ∈ s.(outbox) -> a.(o_effect_id) = b.(o_effect_id) -> a = b.
Proof.
  intros Hq (i & Hi)%list_elem_of_lookup (j & Hj)%list_elem_of_lookup Hk.
  assert (i = j) as ->; [|congruence].
  eapply (NoDup_lookup _ i j (o_effect_id a) (q_ids _ Hq));
    rewrite list_lookup_fmap, ?Hi, ?Hj; simpl; congruence.
Qed.

Lemma claimable_elem now repo key types s o :
  o ∈ claimable now repo key s /\ match types with None => true | Some l => one_of l o.(o_effect_type) end = true
  <-> o ∈ s.(outbox) /\ in_scope now types repo key s o = true.
Proof.
  unfold claimable, in_scope. rewrite order_by_elem, list_elem_of_In, filter_In, <-list_elem_of_In.
  rewrite !andb_true_iff. tauto.
Qed.

(** A claimed effect has a pending row. *)
Lemma claim_pending owner now secs types repo key s e s' :
  claim_effect_inner owner now secs types repo key s = Ok (Some e, s') ->
  exists o, o ∈ s.(outbox) /\ o.(o_effect_id) = e.(ce_effect_id) /\ pending o = true.
Proof.
  unfold claim_effect_inner. intros Hclaim.
  apply bind_ok in Hclaim as (_ & _ & (_ & _ & (_ & _ & Hclaim)%bind_ok)%bind_ok).
  apply bind_ok in Hclaim as (until & Huntil & Hclaim). apply bind_ok in Hclaim as (n & Hn & Hclaim).
  apply bind_ok in Hclaim as (re & Hre & Hclaim).
  destruct (List.find _ _) as [o|] eqn:Hfind; [|by inv_ok].
  assert (o ∈ outbox s /\ in_scope n types re key s o = true) as [Ho Hs].
  { apply claimable_elem. apply find_some in Hfind as [Hin Ht]. by rewrite list_elem_of_In. }
  exists o. unfold in_scope in Hs. bools. split_and!; [done| |done].
  inv_store. match goal with Hx : (if negb ?b then _ else _) = _ |- _ => destruct b end; by inv_store.
Qed.

(** A claim leases the oldest eligible effect and nothing else.  On a
    reachable ledger, when a claim returns an effect, its row was pending, not
    under a live lease, in the requested repository and case and of a requested
    type, and no eligible row is ahead of it in (creation time, id) order;
    afterwards exactly that row carries the owner's lease until [now] plus the
    lease time and everything else is unchanged.  When it returns nothing, no
    row was eligible and nothing changed. *)
Theorem claim_takes_oldest (owner : string) (now secs : Z) (types : option (list string))
  (repo : option Z) (key : option string) (s s' : Store) (r : option ClaimedEffect)
  (Hreach : reachable s)
  (Hclaim : claim_effect_inner owner now secs types repo key s = Ok (r, s')) :
  match r with
  | None => s' = s /\ forall o, o ∈ s.(outbox) -> in_scope now types repo key s o = false
  | Some e => exists o, o ∈ s.(outbox) /\ in_scope now types repo key s o = true
      /\ e.(ce_effect_id) = o.(o_effect_id) /\ e.(ce_lease_owner) = owner
      /\ e.(ce_lease_until) = now + secs
      /\ (forall x, x ∈ s.(outbox) -> in_scope now types repo key s x = true -> queue_leb o x = true)
      /\ s' = set_outbox (map (fun x => if String.eqb x.(o_effect_id) o.(o_effect_id)
                 then with_lease (Some owner) (Some (now + secs)) x else x) s.(outbox)) s
  end.
Proof.
  apply reachable_queue_inv in Hreach as Hq. unfold claim_effect_inner in Hclaim.
  apply bind_ok in Hclaim as (_ & _ & (_ & _ & (_ & _ & Hclaim)%bind_ok)%bind_ok).
  apply bind_ok in Hclaim as (until & Huntil & Hclaim). apply bind_ok in Hclaim as (n & Hn & Hclaim).
  apply bind_ok in Hclaim as (re & Hre & Hclaim). inv_store.
  destruct (List.find _ _) as [o|] eqn:Hfind.
  - destruct (find_order_by queue_leb _ _ o (fun a b c => key_leb_trans _ _ _)
      (fun a b => key_leb_total _ _) Hfind) as (Hin & Htype & Hmin).
    assert (Hsc : o ∈ s.(outbox) /\ in_scope now types repo key s o = true).
    { apply claimable_elem. split; [by apply order_by_elem|done]. }
    destruct Hsc as [Hel Hsc].
    set (p := fun x => String.eqb x.(o_effect_id) o.(o_effect_id) && pending x && lease_free now x) in *.
    assert (Hp : forall x, x ∈ s.(outbox) -> p x = String.eqb x.(o_effect_id) o.(o_effect_id)).
    { intros x Hx. unfold p. destruct (String.eqb_spec (o_effect_id x) (o_effect_id o)) as [E|]; [|done].
      assert (x = o) as -> by (by eapply outbox_unique). unfold in_scope in Hsc. bools.
      by apply andb_true_iff. }
    apply bind_ok in Hclaim as (t & Ht & Hclaim). apply sql_u64_ok in Ht as [-> Ht].
    apply bind_ok in Hclaim as ([upd s1] & Hupd & Hclaim).
    unfold update_outbox in Hupd. simpl in Hupd. apply constraint_if_ok in Hupd as [_ [= -> ->]].
    rewrite (count_rows_one p _ o) in Hclaim;
      [|by eapply NoDup_fmap_1, Hq|done|rewrite Hp by done; apply String.eqb_refl|].
    2: { intros y Hy Hpy. rewrite Hp in Hpy by done. by eapply outbox_unique, String.eqb_eq. }
    simpl in Hclaim. inv_store. exists o. simpl. split_and!; try done.
    + intros row Hx Hxs. assert (row ∈ claimable now repo key s /\ _) as [Hxc Hxt]
        by (by apply (claimable_elem now repo key types)).
      apply Hmin; [|done]. by apply order_by_elem in Hxc.
    + f_equal. apply map_ext_in. intros row Hx%list_elem_of_In. by rewrite Hp.
  - inv_ok. split; [done|]. intros o Ho. destruct (in_scope now types repo key s' o) eqn:E; [|done].
    assert (o ∈ claimable now repo key s' /\ _) as [Hoc Hot] by (by apply (claimable_elem now repo key types)).
    apply list_elem_of_In in Hoc. by rewrite (find_none _ _ Hfind o Hoc) in Hot.
Qed.

(** ** At most once *)

Lemma settled_forever s s' o x :
  reachable s -> rtc store_step s s' -> o ∈ s.(outbox) -> settled o ->
  x ∈ s'.(outbox) -> x.(o_effect_id) = o.(o_effect_id) -> x = o.
Proof.
  intros Hr Hs Ho Hset Hx Hid. apply reachable_queue_inv in Hr.
  eapply outbox_unique; [by eapply steps_queue_inv|done| |done].
  destruct (ev_outbox _ _ (steps_evolve _ _ Hs)) as (kept & added & -> & Hk).
  apply elem_of_app. left. apply list_elem_of_lookup in Ho as [i Hi].
  destruct (Forall2_lookup_l _ _ _ _ _ Hk Hi) as (y & Hy & Hev).
  apply list_elem_of_lookup. exists i. rewrite Hy. f_equal. by apply Hev.
Qed.

Lemma acknowledge_inv id owner now s u s' :
  acknowledge_effect id owner now s = Ok (u, s') ->
  s' = set_outbox (update_where (holds_lease id owner now) (with_delivery now) s.(outbox)).1 s
  /\ exists o, o ∈ s.(outbox) /\ holds_lease id owner now o = true.
Proof.
  unfold acknowledge_effect, update_outbox. simpl. intros Ha. inv_store. bools. split; [done|].
  apply count_rows_pos. lia.
Qed.


(** An effect has at most one running and at most one completed attempt.
    In every reachable ledger two running attempts of the same effect are the
    same attempt, so are two completed ones, attempt identifiers are unique, and
    every attempt has exactly the columns its status calls for. *)
Theorem attempts_are_exclusive (s : Store) (a b : AttemptRow) (Hreach : reachable s)
  (Ha : a ∈ s.(direct_attempts)) (Hb : b ∈ s.(direct_attempts)) :
  attempt_check a = true
  /\ (a.(a_attempt_id) = b.(a_attempt_id) -> a = b)
  /\ (a.(a_effect_id) = b.(a_effect_id) -> a.(a_status) = b.(a_status) ->
      one_of ["RUNNING"; "COMPLETE"] b.(a_status) = true -> a = b).
Proof.
  apply reachable_queue_inv in Hreach as Hq. split_and!.
  - by apply Hq.
  - by eapply attempt_unique.
  - intros He Hs Ho. apply (q_one _ Hq); [done..|]. unfold attempt_clash.
    by rewrite He, Hs, !String.eqb_refl, Ho.
Qed.

(** A create is granted at most once.  After a create reservation of an
    intent was granted, every later reservation of that intent that succeeds,
    under any claim and at any time, is reported as uncertain. *)
Theorem create_granted_once (claimed claimed' : ClaimedEffect) (intent : string) (now now' : Z)
  (s s1 s2 s3 : Store) (r : CreateReservation)
  (Hgrant : reserve_dispatch_create claimed intent now s = Ok (Granted, s1))
  (Hsteps : rtc store_step s1 s2)
  (Hagain : reserve_dispatch_create claimed' intent now' s2 = Ok (r, s3)) :
  r = Uncertain.
Proof.
  assert (exists_row (fun d => String.eqb d.(d_intent_id) intent) s1.(dispatch_create_attempts) = true) as H1.
  { unfold reserve_dispatch_create in Hgrant. inv_store. case_match; inv_store.
    apply exists_row_true. eexists. split; [apply elem_of_snoc; by right|]. apply String.eqb_refl. }
  apply exists_row_true in H1 as (d & Hd & Hi).
  pose proof (prefix_elem _ _ d (ev_creates _ _ (steps_evolve _ _ Hsteps)) Hd) as Hd2.
  unfold reserve_dispatch_create in Hagain. inv_store. case_match eqn:E; inv_store; [done|].
  rewrite exists_row_false, Forall_forall in E. by rewrite (E d Hd2) in Hi.
Qed.

(** ** Outages and failures *)

Lemma outage_delay_cases n :
  0 <= n -> outage_delay n = if n <? 6 then 60 * 2 ^ n else 3600.
Proof.
  intros Hn. unfold outage_delay. rewrite Z.shiftl_1_l.
  destruct (Z.ltb_spec n 6).
  - rewrite (Z.min_l n 6) by lia. apply Z.min_l.
    assert (2 ^ n <= 2 ^ 5) by (apply Z.pow_le_mono_r; lia). change (2 ^ 5) with 32 in *. lia.
  - rewrite (Z.min_r n 6) by lia. done.
Qed.
Lemma outage_delay_bounds n : 0 <= n -> 60 <= outage_delay n <= 3600.
Proof.
  intros Hn. rewrite outage_delay_cases by done. destruct (Z.ltb_spec n 6); [|lia].
  assert (2 ^ 0 <= 2 ^ n <= 2 ^ 5) by (split; apply Z.pow_le_mono_r; lia).
  change (2 ^ 0) with 1 in *. change (2 ^ 5) with 32 in *. lia.
Qed.

(** The outages recorded so far for an effect. *)
Definition outage_count (s : Store) (effect_id : string) : Z :=
  count_rows (fun v => String.eqb v.(v_kind) "DIRECT_RUNTIME_UNAVAILABLE"
                       && String.eqb v.(v_source) effect_id) s.(evidence).

(** What a first report of an outage does. *)
Record outage_recorded (id : Z) (owner error cause : string) (now : Z) (s s' : Store) (t : Z)
  (a : AttemptRow) : Prop := {
  or_cause : is_empty cause
    || negb (forallb (fun b => is_ascii_uppercase b || (b =? 95)) (bytes cause)) = false;
  or_input : (id =? 0) || blank owner || blank error || (4096 <? len error) = false;
  or_id : id <= i64_max;
  or_attempt : find_attempt s id = Some a;
  or_owner : a.(a_lease_owner) = owner;
  or_time : t = now + outage_delay (outage_count s a.(a_effect_id)) /\ t <= i64_max;
  or_running : exists x, x ∈ s.(direct_attempts) /\ running_own id owner now x = true;
  or_held : exists o, o ∈ s.(outbox) /\ owns_pending a.(a_effect_id) owner o = true;
  or_writable : s.(read_only) = false;
  or_store : s' = set_outbox (update_where (owns_pending a.(a_effect_id) owner)
                    (fun o => with_lease o.(o_lease_owner) (Some t) o) s.(outbox)).1
    (set_evidence (s.(evidence) ++ [evidence_row a.(a_case_key) now
                    (outage_evidence id a.(a_effect_id) cause error t)])
    (set_direct_attempts (update_where (running_own id owner now)
       (with_outcome now "FAILED" None None (Some error)) s.(direct_attempts)).1 s));
}.

#[local] Arguments insert_evidence : simpl never.

Lemma record_unavailability_inv id owner now error cause s t s' :
  record_direct_unavailability_with_cause id owner now error cause s = Ok (t, s') ->
  find_evidence s (unavailable_id id) = None ->
  exists a, outage_recorded id owner error cause now s s' t a.
Proof.
  unfold record_direct_unavailability_with_cause. intros Hr Hnone. rewrite Hnone in Hr.
  unfold hold_until, update_outbox, one_row in Hr. simpl in Hr. inv_store.
  rename select (update_attempts _ _ _ = _) into Hu. apply update_attempts_inv in Hu as (-> & _ & ->).
  rename select (insert_evidence _ _ _ _ = _) into Hi. apply insert_evidence_eq in Hi as ->.
  repeat match goal with Hx : negb (_ =? 1) = false |- _ => apply negb_false_iff, Z.eqb_eq in Hx end.
  rename select (find_attempt _ _ = _) into Hf. rename select (negb _ = false) into Ho.
  apply negb_false_iff, String.eqb_eq in Ho.
  match type of Hf with _ = Some ?a => exists a end. split; try done.
  - apply count_rows_pos. lia.
  - apply count_rows_pos. simpl in *. lia.
Qed.

(** A later report of the same outage reads the first one back. *)
Lemma record_unavailability_replay `{!CodecLaws _} id owner now error cause s s' t a now' :
  is_u64 id -> is_u64 now -> outage_recorded id owner error cause now s s' t a ->
  find_evidence s (unavailable_id id) = None ->
  record_direct_unavailability_with_cause id owner now' error cause s' = Ok (t, s').
Proof.
  intros Hid Hnow [Hc Hin Hidm Ha Ho [Ht Htm] _ _ Hw Hs'] Hnone.
  unfold record_direct_unavailability_with_cause, ensure_writable.
  assert (Hw' : s'.(read_only) = false) by (rewrite Hs'; done).
  rewrite Hw', Hc, Hin. simpl. unfold sql_u64. rewrite (proj2 (Z.leb_le id i64_max) Hidm). simpl.
  assert (Hfa : exists a', find_attempt s' id = Some a' /\ a'.(a_lease_owner) = owner).
  { rewrite Hs'. unfold find_attempt in *. simpl. clear -Ha Ho.
    induction (direct_attempts s) as [|x l IH]; [done|]. simpl in *.
    destruct (running_own id owner now x); simpl; destruct (a_attempt_id x =? id); naive_solver. }
  destruct Hfa as (a' & -> & Ho'). simpl. rewrite Ho', String.eqb_refl. simpl.
  assert (find_evidence s' (unavailable_id id) = Some (evidence_row a.(a_case_key) now
            (outage_evidence id a.(a_effect_id) cause error t))) as ->.
  { rewrite Hs'. unfold find_evidence in *. simpl. clear -Hnone.
    induction (evidence s) as [|v l IH]; simpl in *; [by rewrite String.eqb_refl|].
    destruct (String.eqb (v_evidence_id v) (unavailable_id id)); [done|auto]. }
  simpl. unfold parse_json. assert (Hcnt := count_rows_nonneg (fun v => String.eqb v.(v_kind)
    "DIRECT_RUNTIME_UNAVAILABLE" && String.eqb v.(v_source) a.(a_effect_id)) s.(evidence)).
  pose proof (outage_delay_bounds _ Hcnt). fold (outage_count s (a_effect_id a)) in *.
  unfold is_u64, u64_max, i64_max in *.
  rewrite from_to_string.
  - simpl. rewrite bool_decide_true by done. simpl.
    unfold as_u64. rewrite (proj2 (Z.leb_le 0 t)), (proj2 (Z.leb_le t _)) by (unfold u64_max; lia). done.
  - simpl. rewrite !andb_true_iff, !Z.leb_le. unfold u64_max, i64_max. lia.
Qed.

(** Outages back off and a repeated report changes nothing.  The first
    report of an attempt's runtime outage ends that attempt as failed, holds its
    effect under the owner's lease until [now] plus a delay that starts at one
    minute, doubles with every earlier outage of the effect and never exceeds
    one hour; reporting the same outage again at any time returns the same
    moment and leaves the ledger as it is. *)
Theorem outage_backoff `{!CodecLaws _} (id : Z) (owner : string) (now : Z) (error cause : string)
  (s s' : Store) (t : Z) (Hid : is_u64 id) (Hnow : is_u64 now)
  (Hrecord : record_direct_unavailability_with_cause id owner now error cause s = Ok (t, s'))
  (Hfirst : find_evidence s (unavailable_id id) = None) :
  exists a, find_attempt s id = Some a
    /\ t = now + (let n := outage_count s a.(a_effect_id) in if n <? 6 then 60 * 2 ^ n else 3600)
    /\ now + 60 <= t <= now + 3600
    /\ (exists o, o ∈ s'.(outbox) /\ o.(o_effect_id) = a.(a_effect_id) /\ o.(o_lease_owner) = Some owner
          /\ o.(o_lease_until) = Some t /\ pending o = true)
    /\ (exists x, x ∈ s'.(direct_attempts) /\ x.(a_attempt_id) = id /\ x.(a_status) = "FAILED"%string)
    /\ (forall now', record_direct_unavailability_with_cause id owner now' error cause s' = Ok (t, s')).
Proof.
  destruct (record_unavailability_inv _ _ _ _ _ _ _ _ Hrecord Hfirst) as [a Ho]. exists a.
  pose proof (record_unavailability_replay id owner now error cause s s' t a) as Hreplay.
  destruct Ho as [Hc Hin Hidm Ha Hown [Ht Htm] (x & Hx & Hrun) (o & Hoin & Hop) Hw Hs'] eqn:E. clear E.
  assert (0 <= outage_count s (a_effect_id a)) as Hcnt by apply count_rows_nonneg.
  pose proof (outage_delay_bounds _ Hcnt). rewrite outage_delay_cases in * by done.
  split_and!; [done|done|lia|lia|..].
  - exists (with_lease o.(o_lease_owner) (Some t) o). rewrite Hs'. simpl.
    assert (Hop' := Hop). unfold owns_pending, null_eq in Hop'. bools.
    split_and!; try done; [|by apply String.eqb_eq].
    apply list_elem_of_In, in_map_iff. exists o. rewrite Hop. split; [done|by apply list_elem_of_In].
  - exists (with_outcome now "FAILED" None None (Some error) x). rewrite Hs'. simpl. split_and!; [|..|done].
    + apply list_elem_of_In, in_map_iff. exists x. rewrite Hrun. split; [done|by apply list_elem_of_In].
    + unfold running_own in Hrun. by bools.
  - intros now'. by apply Hreplay.
Qed.

(** Recording the outage of one attempt leaves the others as they were. *)
Lemma is_outage_recorded id owner error cause now s s' t a i :
  outage_recorded id owner error cause now s s' t a -> 0 <= id -> 0 <= i ->
  is_outage s' i = is_outage s i || (i =? id).
Proof.
  intros [_ _ _ _ _ _ _ _ _ ->] Hid Hi. unfold is_outage, exists_row. simpl.
  rewrite existsb_app. f_equal. simpl. rewrite orb_false_r, andb_true_r.
  destruct (Z.eqb_spec i id) as [->|Hne]; [apply String.eqb_refl|].
  apply String.eqb_neq. intros Heq. apply Hne. symmetry.
  apply append_inj_l in Heq. by apply show_inj.
Qed.

(** An outage is not a failure of the work.  Reporting that the runtime of
    an attempt was unavailable, for the first time or again, leaves the number
    of work failures charged to every effect unchanged, although the attempt is
    then recorded as failed. *)
Theorem outages_are_not_failures (id : Z) (owner : string) (now : Z) (error cause : string)
  (s s' : Store) (t : Z) (effect_id : string) (Hreach : reachable s) (Hid : is_u64 id)
  (Hrecord : record_direct_unavailability_with_cause id owner now error cause s = Ok (t, s')) :
  effect_failures s' effect_id = effect_failures s effect_id.
Proof.
  apply reachable_queue_inv in Hreach as Hq.
  destruct (find_evidence s (unavailable_id id)) as [v|] eqn:Hv.
  - unfold record_direct_unavailability_with_cause in Hrecord. rewrite Hv in Hrecord. by inv_store.
  - destruct (record_unavailability_inv _ _ _ _ _ _ _ _ Hrecord Hv) as [a Ho].
    assert (Hatt : s'.(direct_attempts) = map (fun r => if running_own id owner now r
      then with_outcome now "FAILED" None None (Some error) r else r) s.(direct_attempts))
      by (destruct Ho as [_ _ _ _ _ _ _ _ _ ->]; done).
    unfold effect_failures. rewrite Hatt. apply count_rows_map. intros x Hx.
    pose proof (q_attempt_seq _ Hq x Hx). destruct Hid.
    destruct (running_own id owner now x) eqn:Er.
    + unfold running_own in Er. bools. simpl.
      rewrite (is_outage_recorded _ _ _ _ _ _ _ _ _ _ Ho), (proj2 (Z.eqb_eq _ _)), orb_true_r by lia.
      rename select (String.eqb (a_status x) "RUNNING" = true) into Hs. apply String.eqb_eq in Hs.
      rewrite Hs. simpl. by rewrite !andb_false_r.
    + rewrite (is_outage_recorded _ _ _ _ _ _ _ _ _ _ Ho) by lia.
      destruct (Z.eqb_spec x.(a_attempt_id) id) as [E|]; [|by rewrite orb_false_r].
      rewrite orb_true_r. simpl. rewrite andb_false_r. symmetry.
      destruct (or_running _ _ _ _ _ _ _ _ _ Ho) as (y & Hy & Hyr).
      assert (y.(a_attempt_id) = id) by (unfold running_own in Hyr; by bools).
      assert (x = y) as -> by (eapply attempt_unique; eauto; congruence). congruence.
Qed.

(** Failing one running attempt that had no outage charges its effect once. *)
Lemma charge_one s id owner now error row rows effect_id :
  queue_inv s -> row ∈ s.(direct_attempts) -> running_own id owner now row = true ->
  is_outage s id = false ->
  effect_failures (set_outbox rows (set_direct_attempts (map (fun r => if running_own id owner now r
      then with_outcome now "FAILED" None None (Some error) r else r) s.(direct_attempts)) s)) effect_id
  = effect_failures s effect_id + (if String.eqb row.(a_effect_id) effect_id then 1 else 0).
Proof.
  intros Hq Hrow Hrun Hout. assert (Hnd := q_attempt_ids _ Hq).
  assert (Hid : row.(a_attempt_id) = id) by (unfold running_own in Hrun; by bools).
  assert (Hst : row.(a_status) = "RUNNING"%string)
    by (unfold running_own in Hrun; bools; by apply String.eqb_eq).
  assert (Huniq : forall x, x ∈ s.(direct_attempts) -> running_own id owner now x = true -> x = row).
  { intros x Hx Hr. eapply attempt_unique; [done..|]. unfold running_own in Hr. bools. congruence. }
  unfold effect_failures. set (p := fun a => _ && negb (is_outage s (a_attempt_id a))).
  change (count_rows _ (direct_attempts (set_outbox _ _))) with (count_rows p (map (fun r =>
    if running_own id owner now r then with_outcome now "FAILED" None None (Some error) r else r)
    s.(direct_attempts))).
  apply list_elem_of_split in Hrow as (l1 & l2 & Hl). rewrite Hl in Hnd, Huniq |- *.
  rewrite map_app. simpl. rewrite Hrun, !count_rows_app.
  apply NoDup_fmap_1 in Hnd. apply NoDup_app in Hnd as (_ & Hn1 & Hn2). apply NoDup_cons in Hn2 as [Hn2 _].
  assert (Hsame : forall l, (forall x, x ∈ l -> x ∈ l1 ++ row :: l2 /\ x <> row) ->
    count_rows p (map (fun r => if running_own id owner now r
      then with_outcome now "FAILED" None None (Some error) r else r) l) = count_rows p l).
  { intros l Hin. apply count_rows_map. intros x Hx. destruct (Hin x Hx) as [Hx1 Hx2].
    destruct (running_own id owner now x) eqn:E; [|done]. by apply Huniq in E. }
  rewrite (Hsame l1) by (intros x Hx; split; [set_solver|intros ->; apply (Hn1 row Hx); set_solver]).
  change (?r :: ?l) with ([r] ++ l). rewrite !count_rows_app.
  rewrite (Hsame l2) by (intros x Hx; split; [set_solver|congruence]).
  assert (count_rows p [row] = 0) as ->.
  { apply count_rows_none. intros x ->%list_elem_of_singleton. unfold p. rewrite Hst. simpl.
    by rewrite andb_false_r. }
  assert (count_rows p [with_outcome now "FAILED" None None (Some error) row]
          = if String.eqb row.(a_effect_id) effect_id then 1 else 0) as ->; [|lia].
  unfold count_rows, p. simpl. rewrite Hid, Hout. by destruct (String.eqb (a_effect_id row) effect_id).
Qed.

(** A failed work attempt is charged once.  Failing a running attempt with a
    cooldown raises the failure count of its effect by exactly one (when no
    outage was recorded for the attempt), leaves every other effect's count
    alone, and keeps the effect leased until the cooldown has passed. *)
Theorem work_failure_is_charged (id : Z) (owner : string) (now cooldown : Z) (error : string)
  (s s' : Store) (t : Z) (a : AttemptRow) (effect_id : string) (Hreach : reachable s)
  (Hfail : fail_direct_attempt_with_cooldown id owner now error cooldown s = Ok (t, s'))
  (Ha : find_attempt s id = Some a) (Hout : is_outage s id = false) :
  t = now + cooldown
  /\ effect_failures s' effect_id = effect_failures s effect_id
       + (if String.eqb a.(a_effect_id) effect_id then 1 else 0)
  /\ (exists o, o ∈ s'.(outbox) /\ o.(o_effect_id) = a.(a_effect_id)
        /\ o.(o_lease_owner) = Some owner /\ o.(o_lease_until) = Some t /\ pending o = true).
Proof.
  apply reachable_queue_inv in Hreach as Hq.
  unfold fail_direct_attempt_with_cooldown, hold_until, update_outbox in Hfail. simpl in Hfail. inv_store.
  rename select (update_attempts _ _ _ = _) into Hu. apply update_attempts_inv in Hu as (-> & _ & ->).
  repeat match goal with Hx : negb (_ =? 1) = false |- _ => apply negb_false_iff, Z.eqb_eq in Hx end.
  simpl in *. rename select (find_attempt _ _ = Some _) into Ha.
  match type of Ha with _ = Some ?r => rename r into row end.
  destruct (count_rows_pos (running_own id owner now) s.(direct_attempts)) as (x & Hx & Hrun); [lia|].
  destruct (count_rows_pos (owns_pending row.(a_effect_id) owner) s.(outbox)) as (o & Hoin & Hop); [lia|].
  assert (x = row) as ->.
  { apply find_some in Ha as [Hain%list_elem_of_In Hid]. unfold running_own in Hrun. bools.
    eapply attempt_unique; eauto; congruence. }
  split_and!; [done| |].
  - by apply charge_one.
  - exists (with_lease o.(o_lease_owner) (Some (now + cooldown)) o). simpl.
    assert (Hop' := Hop). unfold owns_pending, null_eq in Hop'. bools.
    split_and!; try done; [|by apply String.eqb_eq].
    apply list_elem_of_In, in_map_iff. exists o. rewrite Hop. split; [done|by apply list_elem_of_In].
Qed.
End delivery.

(** ** An execution, continued

    A worker claims the builder dispatch, and either acknowledges it, or runs a
    direct attempt that fails or finds its runtime unavailable, or freezes the
    dispatch and reserves its create. *)

Definition demo_claimed : ClaimedEffect := {|
  ce_effect_id := "build"; ce_case_key := "1:2:3"; ce_state_revision := 2;
  ce_effect_type := "DISPATCH_BUILDER"; ce_payload := Object []; ce_lease_owner := "w";
  ce_lease_until := 180 |}.
Definition demo_store3 : Store :=
  after (claim_effect_inner (H := demo_codec) "w" 120 60 (Some ["DISPATCH_BUILDER"]) None None demo_store2).
Definition demo_acked : Store := after (acknowledge_effect "build" "w" 130 demo_store3).
Definition demo_running : Store := after (begin_direct_attempt (H := demo_codec) demo_claimed "task" 121 demo_store3).
Definition demo_failed : Store :=
  after (fail_direct_attempt_with_cooldown 1 "w" 125 "bad" 300 demo_running).
Definition demo_down : Store :=
  after (record_direct_unavailability_with_cause (H := demo_codec) 1 "w" 125 "down" "PROVIDER_UNAVAILABLE"
           demo_running).
Definition demo_intent : DispatchIntent := {| intent_id := "i1"; transport := Hermes; desired := Object [] |}.
Definition demo_frozen : Store :=
  after (freeze_dispatch_intents (H := demo_codec) demo_claimed [demo_intent] 122 demo_store3).
Definition demo_reserved : Store :=
  after (reserve_dispatch_create (H := demo_codec) demo_claimed "i1" 123 demo_frozen).

Lemma demo_claim : claim_effect_inner (H := demo_codec) "w" 120 60 (Some ["DISPATCH_BUILDER"]) None None
  demo_store2 = Ok (Some demo_claimed, demo_store3).
Proof. by vm_compute. Qed.
Lemma demo_begin : begin_direct_attempt (H := demo_codec) demo_claimed "task" 121 demo_store3
  = Ok (1, demo_running).
Proof. by vm_compute. Qed.
Lemma demo_reachable3 : reachable (H := demo_codec) demo_store3.
Proof. eapply rtc_r; [apply demo_reachable2|]. eapply (step_claim (H := demo_codec)), demo_claim. Qed.
Lemma demo_reachable_running : reachable (H := demo_codec) demo_running.
Proof. eapply rtc_r; [apply demo_reachable3|]. eapply (step_begin (H := demo_codec)), demo_begin. Qed.

Lemma claim_takes_oldest_witness :
  exists o, o ∈ demo_store2.(outbox) /\ demo_claimed.(ce_effect_id) = o.(o_effect_id).
Proof.
  destruct (claim_takes_oldest (H := demo_codec) "w" 120 60 (Some ["DISPATCH_BUILDER"]) None None
              demo_store2 demo_store3 (Some demo_claimed) demo_reachable2 demo_claim)
    as (o & Ho & _ & Hid & _). by exists o.
Defined.


Lemma attempts_are_exclusive_witness :
  exists a, a ∈ demo_running.(direct_attempts) /\ attempt_check a = true.
Proof.
  destruct (find_attempt demo_running 1) as [a|] eqn:Ha; [|by vm_compute in Ha].
  apply find_some in Ha as [Hin%list_elem_of_In _]. exists a. split; [done|].
  apply (attempts_are_exclusive (H := demo_codec) demo_running a a demo_reachable_running Hin Hin).
Defined.

Lemma create_granted_once_witness :
  exists r s3, reserve_dispatch_create (H := demo_codec) demo_claimed "i1" 124 demo_reserved = Ok (r, s3)
    /\ r = Uncertain.
Proof.
  exists Uncertain, demo_reserved. split; [by vm_compute|].
  eapply (create_granted_once (H := demo_codec) demo_claimed demo_claimed "i1" 123 124
            demo_frozen demo_reserved demo_reserved demo_reserved).
  - by vm_compute.
  - reflexivity.
  - by vm_compute.
Defined.

Lemma outage_backoff_witness :
  exists a, find_attempt demo_running 1 = Some a
    /\ 185 = 125 + (let n := outage_count demo_running a.(a_effect_id) in if n <? 6 then 60 * 2 ^ n else 3600).
Proof.
  destruct (outage_backoff (H := demo_codec) 1 "w" 125 "down" "PROVIDER_UNAVAILABLE" demo_running demo_down 185)
    as (a & Ha & Ht & _).
  - by vm_compute.
  - by vm_compute.
  - by vm_compute.
  - by vm_compute.
  - by exists a.
Defined.

Lemma outages_are_not_failures_witness :
  effect_failures demo_down "build" = effect_failures demo_running "build".
Proof.
  apply (outages_are_not_failures (H := demo_codec) 1 "w" 125 "down" "PROVIDER_UNAVAILABLE"
           demo_running demo_down 185 "build" demo_reachable_running).
  - by vm_compute.
  - by vm_compute.
Defined.

Lemma work_failure_is_charged_witness :
  effect_failures demo_failed "build" = effect_failures demo_running "build" + 1.
Proof.
  destruct (find_attempt demo_running 1) as [a|] eqn:Ha; [|by vm_compute in Ha].
  assert (a_effect_id a = "build"%string) as He by (vm_compute in Ha; by injection Ha as <-).
  destruct (work_failure_is_charged (H := demo_codec) 1 "w" 125 300 "bad" demo_running demo_failed 425 a
              "build" demo_reachable_running) as (_ & Hc & _).
  - by vm_compute.
  - exact Ha.
  - by vm_compute.
  - rewrite He in Hc. exact Hc.
Defined.
