(* ===== verification/Batches.v ===== *)
(** * Batches: a batch of transitions is its transitions one by one

    [apply_transition_batch] against [apply_transition] in a loop, and what a
    single accepted transition consists of. *)

From S2P Require Import Prelude Text Json Sql Tables Inputs Frozen Recovery StoreCore.
From S2P Require Import History Frames Steps Invariants.
Open Scope Z_scope.

Section batches.
Context `{Codec}.

(** The reference: each transition in its own transaction, all of them new. *)
Inductive applied_each : list TransitionInput -> Store -> Store -> Prop :=
| applied_none s : applied_each [] s s
| applied_next i l s s1 s' :
    apply_transition i None s = Ok (Applied, s1) -> applied_each l s1 s' ->
    applied_each (i :: l) s s'.

Lemma check_batch_inv key l : forall seen prev u,
  check_batch key seen prev l = Ok u ->
  Forall (fun i => validate_common i.(ti_case_key) i.(ti_event) = Ok ()) l
  /\ NoDup ((fun i => i.(ti_event).(ei_event_id)) <$> l)
  /\ forall i, i ∈ l -> i.(ti_event).(ei_event_id) ∉ seen.
Proof.
  induction l as [|i l IH]; intros seen prev u Hc; simpl in Hc.
  { split_and!; [constructor..|set_solver]. }
  open_ok. bools. rename select (check_batch _ _ _ _ = _) into Hl.
  apply IH in Hl as (Hv & Hnd & Hseen). destruct x. split_and!.
  - by constructor.
  - simpl. constructor; [|done]. intros (j & Hj & Hin)%list_elem_of_fmap.
    apply (Hseen j Hin). rewrite <-Hj. set_solver.
  - intros j [->|Hj]%elem_of_cons; [done|]. specialize (Hseen j Hj). set_solver.
Qed.

Lemma batch_replay_none l s :
  batch_replay l s = Ok None <->
  s.(read_only) = false
  /\ (exists first, head l = Some first /\ check_batch first.(ti_case_key) [] None l = Ok ())
  /\ forall i, i ∈ l -> existing_event s i.(ti_event).(ei_event_id) = None.
Proof.
  unfold batch_replay. split.
  - intros Hr. apply bind_ok in Hr as ([] & Hw & Hr). apply ensure_writable_ok in Hw.
    apply bind_ok in Hr as (first & Hf & Hr). apply ok_or_ok in Hf.
    apply bind_ok in Hr as ([] & Hc & Hr). case_match.
    { by apply bind_ok in Hr as (? & _ & ?). }
    destruct (List.find _ l) eqn:Hfind; [done|]. split_and!; [done|by eauto|].
    intros i Hi%list_elem_of_In. apply (find_none _ _ Hfind) in Hi.
    by destruct (existing_event s _).
  - intros (Hw & (first & Hf & Hc) & Hnone). rewrite (proj2 (ensure_writable_ok s ()) Hw). simpl.
    rewrite Hf. simpl. rewrite Hc. simpl. destruct l as [|i l]; [done|]. simpl.
    rewrite (Hnone i) by set_solver. simpl.
    destruct (List.find _ l) as [j|] eqn:Hfind; [|done].
    apply find_some in Hfind as [Hj%list_elem_of_In Hsome].
    by rewrite (Hnone j) in Hsome by set_solver.
Qed.

Lemma batch_applied l s s' :
  apply_transition_batch l None s = Ok (Applied, s') <->
  batch_replay l s = Ok None /\ batch_transaction None l s = Ok s'.
Proof.
  split; [apply apply_applied_inv|]. intros [Hr Hb]. unfold apply_transition_batch.
  rewrite Hr. simpl. by rewrite Hb.
Qed.

Lemma apply_transition_applied i s s1 :
  apply_transition i None s = Ok (Applied, s1) <->
  s.(read_only) = false /\ validate_common i.(ti_case_key) i.(ti_event) = Ok ()
  /\ existing_event s i.(ti_event).(ei_event_id) = None /\ apply_one None i s = Ok s1.
Proof.
  unfold apply_transition. rewrite batch_applied, batch_replay_none. split.
  - intros [(Hw & (first & [= <-] & Hc) & Hnone) Hb].
    destruct (check_batch_inv _ _ _ _ _ Hc) as (Hv & _). apply Forall_cons in Hv as [Hv _].
    simpl in Hb. split_and!; [done|done|apply Hnone; set_solver|]. by destruct (apply_one _ _ _) eqn:E; simplify_eq/=.
  - intros (Hw & Hv & Hnone & Hone). split_and!.
    + done.
    + exists i. split; [done|]. simpl.
      rewrite Hv, String.eqb_refl. done.
    + intros j ->%list_elem_of_singleton. done.
    + simpl. by rewrite Hone.
Qed.

(** Applying a transition adds its event and nothing else to the events. *)
Lemma apply_one_existing i s s1 id :
  apply_one None i s = Ok s1 ->
  existing_event s1 id = None <-> existing_event s id = None /\ id <> i.(ti_event).(ei_event_id).
Proof.
  intros (c & p & Ha)%apply_one_applied. unfold existing_event, find_event.
  rewrite (ap_events _ _ _ _ _ Ha), !fmap_None. clear Ha.
  induction (events s) as [|e l IH]; simpl.
  - destruct (String.eqb_spec i.(ti_event).(ei_event_id) id); naive_solver.
  - destruct (String.eqb (e_event_id e) id); [naive_solver|]. apply IH.
Qed.
Lemma apply_one_writable i s s1 : apply_one None i s = Ok s1 -> s1.(read_only) = s.(read_only).
Proof. intros (c & p & Ha)%apply_one_applied. by rewrite (ap_rest _ _ _ _ _ Ha). Qed.

Lemma applied_each_inv l : forall s s',
  applied_each l s s' ->
  batch_transaction None l s = Ok s'
  /\ forall i, i ∈ l -> existing_event s i.(ti_event).(ei_event_id) = None.
Proof.
  induction l as [|i l IH]; intros s s' He; inversion He as [|? ? ? s1 ? Hi Hl]; subst.
  { split; [done|set_solver]. }
  apply apply_transition_applied in Hi as (_ & _ & Hnone & Hone). apply IH in Hl as [Hb Hex].
  split.
  - simpl. rewrite Hone. simpl. by destruct l.
  - intros j [->|Hj]%elem_of_cons; [done|]. by apply (apply_one_existing i s s1), Hex.
Qed.

Lemma batch_applied_each l : forall s s',
  s.(read_only) = false -> Forall (fun i => validate_common i.(ti_case_key) i.(ti_event) = Ok ()) l ->
  NoDup ((fun i => i.(ti_event).(ei_event_id)) <$> l) ->
  (forall i, i ∈ l -> existing_event s i.(ti_event).(ei_event_id) = None) ->
  batch_transaction None l s = Ok s' -> applied_each l s s'.
Proof.
  induction l as [|i l IH]; intros s s' Hw Hv Hnd Hnone Hb; simpl in Hb; [simplify_eq; constructor|].
  apply bind_ok in Hb as (s1 & Hone & Hb). apply bind_ok in Hb as (_ & _ & Hb).
  apply Forall_cons in Hv as [Hvi Hv]. apply NoDup_cons in Hnd as [Hni Hnd].
  apply (applied_next i l s s1).
  - apply apply_transition_applied. split_and!; [done..| |done]. apply Hnone. set_solver.
  - apply IH; try done; [by rewrite (apply_one_writable _ _ _ Hone)|].
    intros j Hj. eapply apply_one_existing; [done|]. split; [apply Hnone; set_solver|].
    intros Heq. apply Hni. rewrite <-Heq. by apply (list_elem_of_fmap_2 (fun i => i.(ti_event).(ei_event_id))).
Qed.

(** ** Theorems *)

(** A batch is its transitions one by one, all or nothing.  For a well-formed
    batch (one case, distinct events, consecutive revisions) the batch is applied
    and leaves a ledger exactly when applying its transitions singly, each as a
    new command, succeeds throughout and leaves the same ledger. *)
Theorem batch_is_sequential (i : TransitionInput) (l : list TransitionInput) (s s' : Store)
  (Hcheck : check_batch i.(ti_case_key) [] None (i :: l) = Ok ()) :
  apply_transition_batch (i :: l) None s = Ok (Applied, s') <-> applied_each (i :: l) s s'.
Proof.
  rewrite batch_applied, batch_replay_none. destruct (check_batch_inv _ _ _ _ _ Hcheck) as (Hv & Hnd & _).
  split.
  - intros [(Hw & _ & Hnone) Hb]. by apply batch_applied_each.
  - intros He. destruct (applied_each_inv _ _ _ He) as [Hb Hnone].
    inversion He as [|? ? ? s1 ? Hi _]; subst. apply apply_transition_applied in Hi as (Hw & _).
    split_and!; eauto.
Qed.
End batches.

Definition demo_next : TransitionInput := {|
  ti_case_key := "1:2:3"; ti_expected_revision := 2; ti_next_state := "BUILDING";
  ti_remediation_round := 0; ti_plan_version := 1; ti_pr_number := None; ti_head_sha := None;
  ti_observed_at := 120; ti_event := demo_event "e3" "BUILDER_DISPATCHED"; ti_run := None;
  ti_evidence := []; ti_findings := []; ti_effects := [] |}.
Definition demo_batch : list TransitionInput := [demo_transition; demo_next].

Lemma batch_is_sequential_witness :
  exists s', applied_each (H := demo_codec) demo_batch demo_store1 s'
    /\ length s'.(events) = 3%nat.
Proof.
  exists (after (apply_transition_batch (H := demo_codec) demo_batch None demo_store1)).
  split; [|by vm_compute].
  apply (batch_is_sequential (H := demo_codec) demo_transition [demo_next]); by vm_compute.
Defined.
