(* ===== verification/RolePolicy.v ===== *)
(** * RolePolicy: which worker runs which role

    The policy half of crates/pip-controller/src/scheduling.rs: [RolePolicy],
    the checked construction of [WorkflowPolicy] and its lookups. *)

From S2P Require Import Prelude Text Contracts.
From Stdlib Require Import Ascii.
Open Scope Z_scope.

Inductive ExecutionKind := Hermes | Direct.
#[export] Instance execution_kind_eq_dec : EqDecision ExecutionKind.
Proof. solve_decision. Defined.

Record RolePolicy := {
  rp_role : WorkerRole;
  rp_reviewer_id : option string;
  rp_review_mode : option ReviewMode;
  rp_profile : string;
  rp_execution : ExecutionKind;
  rp_provider : string;
  rp_model : string;
  rp_max_runtime : string;
  rp_priority : Z;
  rp_skills : list string;
}.

Record WorkflowPolicy := {
  wp_board : string;
  wp_workspace : string;
  wp_branch_prefix : string;
  wp_sensitive_scope_categories : list string;
  wp_max_provider_failures : Z;
  wp_max_hermes_attempts : option Z;
  wp_hermes_scratch_root : option string;
  wp_isolated_reviews : bool;
  wp_cargo_jobs : option Z;
  wp_roles : list RolePolicy;
}.

Inductive DispatchError :=
| InvalidPolicy
| InvalidEffectId
| MissingPlan
| MissingPullRequest
| MissingExactHead
| WrongExecutor
| InvalidStoredCase
| InvalidEvidenceBundle
| EvidenceBundleTooLarge (bytes limit : Z)
| StaleEffect
| UnsupportedEffect.

(** ** Text checks *)

Definition id_byte (b : Z) : bool :=
  is_ascii_alphanumeric b || (b =? 45) || (b =? 95) || (b =? 46).
Definition valid_id (value : string) : bool :=
  negb (is_empty value) && forallb id_byte (bytes value).
Definition valid_opaque (value : string) (max_len : Z) : bool :=
  negb (is_empty value) && (len value <=? max_len)
  && forallb (fun c => negb (is_control c.1) && negb (is_whitespace c.1)) (chars value).
Definition valid_text (value : string) (max_len : Z) : bool :=
  negb (blank value) && (len value <=? max_len) && negb (has_control value).
Definition valid_branch_prefix (value : string) : bool :=
  ends_with_char "/" value && (len value <=? 128)
  && forallb valid_id (split_on "/" (trim_end_char "/" value)).

(** [Path::components] of a Unix path: whether it is rooted, and its parts
    without empty ones; [.] only counts at the start of a relative path. *)
Definition components (path : string) : bool * list string :=
  let rooted := starts_with_char "/" path in
  let parts := List.filter (fun p => negb (is_empty p)) (split_on "/" path) in
  let plain := List.filter (fun p => negb (String.eqb p ".")) in
  (rooted, match rooted, parts with
           | false, p :: rest => p :: plain rest
           | _, _ => plain parts
           end).
(** [Path::starts_with]. *)
Definition path_starts_with (path base : string) : bool :=
  let '(r, p) := components path in
  let '(r', b) := components base in
  Bool.eqb r r' && bool_decide (b `prefix_of` p).

(** ** Roles *)

Definition is_reviewer (r : WorkerRole) : bool :=
  match r with ReviewerGeneral | ReviewerSecperf => true | _ => false end.
Definition role_skill_name (r : WorkerRole) : string :=
  match r with
  | Planner => "planner"
  | Builder => "builder"
  | ReviewerGeneral => "reviewer-general"
  | ReviewerSecperf => "reviewer-secperf"
  | FinalReviewer => "final-reviewer"
  end.

Definition valid_role_policy (r : RolePolicy) : bool :=
  let cursor := String.eqb r.(rp_provider) "cursor" in
  let direct := bool_decide (r.(rp_execution) = Direct) in
  let execution_valid :=
    match r.(rp_role) with
    | Builder => direct && cursor
    | Planner | FinalReviewer => negb direct && negb cursor
    | ReviewerGeneral | ReviewerSecperf => if direct then cursor else negb cursor
    end in
  let review_binding_valid :=
    if is_reviewer r.(rp_role) then
      match r.(rp_reviewer_id) with Some id => valid_id id | None => false end
      && bool_decide (is_Some r.(rp_review_mode))
      && (bool_decide (r.(rp_review_mode) = Some Required) || direct)
    else bool_decide (r.(rp_reviewer_id) = None) && bool_decide (r.(rp_review_mode) = None) in
  let model := to_ascii_lowercase r.(rp_model) in
  execution_valid && review_binding_valid
  && valid_id r.(rp_profile) && valid_id r.(rp_provider) && valid_id r.(rp_model)
  && negb (one_of ["auto"; "default"; "latest"] model)
  && valid_id r.(rp_max_runtime)
  && (Nat.eqb (length r.(rp_skills)) 2) && forallb valid_id r.(rp_skills)
  && existsb (fun skill => String.eqb skill "workflow-contract") r.(rp_skills)
  && existsb (fun skill => String.eqb skill (role_skill_name r.(rp_role))
                           || (bool_decide (r.(rp_role) = Builder)
                               && String.eqb skill "builder-grok")) r.(rp_skills).

(** ** WorkflowPolicy *)

Definition count_role (roles : list RolePolicy) (p : RolePolicy -> bool) : nat :=
  length (List.filter p roles).

Definition valid_roles (roles : list RolePolicy) : bool :=
  let fixed_valid := forallb (fun expected =>
      Nat.eqb (count_role roles (fun r => bool_decide (r.(rp_role) = expected))) 1)
    [Planner; Builder; FinalReviewer] in
  let reviewer_ids := remove_dups (omap rp_reviewer_id roles) in
  let reviewer_count := count_role roles (fun r => is_reviewer r.(rp_role)) in
  let required_lanes := forallb (fun expected =>
      existsb (fun r => bool_decide (r.(rp_role) = expected)
                        && bool_decide (r.(rp_review_mode) = Some Required)) roles)
    [ReviewerGeneral; ReviewerSecperf] in
  fixed_valid && Nat.leb 2 reviewer_count && Nat.eqb (length reviewer_ids) reviewer_count
  && required_lanes.

Definition new (board workspace branch_prefix : string) (roles : list RolePolicy)
  : result DispatchError WorkflowPolicy :=
  err_if (negb (valid_id board) || negb (starts_with_char "/" workspace)
          || negb (valid_text workspace 4096) || negb (valid_branch_prefix branch_prefix)
          || negb (valid_roles roles) || negb (forallb valid_role_policy roles)) InvalidPolicy;;
  Ok {| wp_board := board; wp_workspace := workspace; wp_branch_prefix := branch_prefix;
        wp_sensitive_scope_categories := []; wp_max_provider_failures := 1;
        wp_max_hermes_attempts := None; wp_hermes_scratch_root := None;
        wp_isolated_reviews := false; wp_cargo_jobs := None; wp_roles := roles |}.

Definition with_isolated_reviews (p : WorkflowPolicy) : WorkflowPolicy := {|
  wp_board := p.(wp_board); wp_workspace := p.(wp_workspace);
  wp_branch_prefix := p.(wp_branch_prefix);
  wp_sensitive_scope_categories := p.(wp_sensitive_scope_categories);
  wp_max_provider_failures := p.(wp_max_provider_failures);
  wp_max_hermes_attempts := p.(wp_max_hermes_attempts);
  wp_hermes_scratch_root := p.(wp_hermes_scratch_root); wp_isolated_reviews := true;
  wp_cargo_jobs := p.(wp_cargo_jobs); wp_roles := p.(wp_roles) |}.

Definition with_cargo_jobs (jobs : Z) (p : WorkflowPolicy) : result DispatchError WorkflowPolicy :=
  err_if (negb ((1 <=? jobs) && (jobs <=? 8))) InvalidPolicy;;
  Ok {| wp_board := p.(wp_board); wp_workspace := p.(wp_workspace);
        wp_branch_prefix := p.(wp_branch_prefix);
        wp_sensitive_scope_categories := p.(wp_sensitive_scope_categories);
        wp_max_provider_failures := p.(wp_max_provider_failures);
        wp_max_hermes_attempts := p.(wp_max_hermes_attempts);
        wp_hermes_scratch_root := p.(wp_hermes_scratch_root);
        wp_isolated_reviews := p.(wp_isolated_reviews); wp_cargo_jobs := Some jobs;
        wp_roles := p.(wp_roles) |}.

Definition with_max_provider_failures (n : Z) (p : WorkflowPolicy)
  : result DispatchError WorkflowPolicy :=
  err_if (n =? 0) InvalidPolicy;;
  Ok {| wp_board := p.(wp_board); wp_workspace := p.(wp_workspace);
        wp_branch_prefix := p.(wp_branch_prefix);
        wp_sensitive_scope_categories := p.(wp_sensitive_scope_categories);
        wp_max_provider_failures := n; wp_max_hermes_attempts := p.(wp_max_hermes_attempts);
        wp_hermes_scratch_root := p.(wp_hermes_scratch_root);
        wp_isolated_reviews := p.(wp_isolated_reviews); wp_cargo_jobs := p.(wp_cargo_jobs);
        wp_roles := p.(wp_roles) |}.

Definition with_max_hermes_attempts (n : Z) (p : WorkflowPolicy)
  : result DispatchError WorkflowPolicy :=
  err_if (n =? 0) InvalidPolicy;;
  Ok {| wp_board := p.(wp_board); wp_workspace := p.(wp_workspace);
        wp_branch_prefix := p.(wp_branch_prefix);
        wp_sensitive_scope_categories := p.(wp_sensitive_scope_categories);
        wp_max_provider_failures := p.(wp_max_provider_failures);
        wp_max_hermes_attempts := Some n; wp_hermes_scratch_root := p.(wp_hermes_scratch_root);
        wp_isolated_reviews := p.(wp_isolated_reviews); wp_cargo_jobs := p.(wp_cargo_jobs);
        wp_roles := p.(wp_roles) |}.

Definition with_hermes_scratch_root (root : string) (p : WorkflowPolicy)
  : result DispatchError WorkflowPolicy :=
  let '(rooted, parts) := components root in
  err_if (negb rooted || ends_with_char "/" root || negb (valid_text root 4096)
          || existsb (fun part => String.eqb part ".." || String.eqb part ".") parts
          || path_starts_with root p.(wp_workspace) || path_starts_with p.(wp_workspace) root)
    InvalidPolicy;;
  Ok {| wp_board := p.(wp_board); wp_workspace := p.(wp_workspace);
        wp_branch_prefix := p.(wp_branch_prefix);
        wp_sensitive_scope_categories := p.(wp_sensitive_scope_categories);
        wp_max_provider_failures := p.(wp_max_provider_failures);
        wp_max_hermes_attempts := p.(wp_max_hermes_attempts);
        wp_hermes_scratch_root := Some root; wp_isolated_reviews := p.(wp_isolated_reviews);
        wp_cargo_jobs := p.(wp_cargo_jobs); wp_roles := p.(wp_roles) |}.

Definition with_sensitive_scope_categories (categories : list string) (p : WorkflowPolicy)
  : result DispatchError WorkflowPolicy :=
  err_if (bool_decide (categories = []) || negb (bool_decide (NoDup categories))
          || existsb (fun c => negb (valid_text c 128)) categories) InvalidPolicy;;
  Ok {| wp_board := p.(wp_board); wp_workspace := p.(wp_workspace);
        wp_branch_prefix := p.(wp_branch_prefix); wp_sensitive_scope_categories := categories;
        wp_max_provider_failures := p.(wp_max_provider_failures);
        wp_max_hermes_attempts := p.(wp_max_hermes_attempts);
        wp_hermes_scratch_root := p.(wp_hermes_scratch_root);
        wp_isolated_reviews := p.(wp_isolated_reviews); wp_cargo_jobs := p.(wp_cargo_jobs);
        wp_roles := p.(wp_roles) |}.

(** ** Lookups *)

Definition role_binding (p : WorkflowPolicy) (r : WorkerRole) : result DispatchError RolePolicy :=
  ok_or (List.find (fun b => bool_decide (b.(rp_role) = r) && bool_decide (b.(rp_reviewer_id) = None))
           p.(wp_roles)) InvalidPolicy.
Definition reviewers (p : WorkflowPolicy) : list RolePolicy :=
  List.filter (fun r => is_reviewer r.(rp_role)) p.(wp_roles).
Definition required_reviewers (p : WorkflowPolicy) : list RolePolicy :=
  List.filter (fun r => bool_decide (r.(rp_review_mode) = Some Required)) (reviewers p).
Definition reviewer (p : WorkflowPolicy) (reviewer_id : string) : result DispatchError RolePolicy :=
  ok_or (List.find (fun b => bool_decide (b.(rp_reviewer_id) = Some reviewer_id)) (reviewers p))
    InvalidPolicy.
