(* ===== verification/Scheduling.v ===== *)
(** * Scheduling: the jobs a dispatch effect stands for

    The dispatch half of crates/pip-controller/src/scheduling.rs.  A claimed
    dispatch effect becomes one job per worker: its identity, its body with the
    exact bindings of the case, the evidence it may read and where it runs. *)

From S2P Require Import Prelude Text Json Domain StateMachine Contracts RolePolicy.
From S2P Require Import Sql Tables Inputs StoreCore CaseHistory.
From Stdlib Require Import Ascii.
Open Scope Z_scope.

Record DispatchContext := {
  dc_case_id : CaseId;
  dc_state_revision : Z;
  dc_plan_version : option Z;
  dc_remediation_round : Z;
  dc_pr_number : option Z;
  dc_head_sha : option string;
  dc_skills_repository_commit : string;
  dc_immutable_evidence_bundle : Value;
}.

Record WorkflowDispatch := {
  wd_role : WorkerRole;
  wd_worker_projection_key : string;
  wd_worker_body : Value;
  wd_worker_effect_id : string;
  wd_worker_title : string;
  wd_source_effect_id : string;
  wd_profile : string;
  wd_workspace : string;
  wd_direct_workspace : string;
  wd_execution : ExecutionKind;
  wd_skills : list string;
  wd_provider : string;
  wd_model : string;
  wd_max_runtime : string;
  wd_max_retries : Z;
  wd_priority : Z;
  wd_board : string;
}.

Record TaskCreateSpec := {
  tc_board : string; tc_effect_id : string; tc_projection_key : string; tc_title : string;
  tc_body : Value; tc_assignee : string; tc_workspace : string; tc_skills : list string;
  tc_provider : string; tc_model : string; tc_max_runtime : string; tc_max_retries : Z;
  tc_priority : Z; tc_parent_task_ids : list string;
}.
Record DirectTaskSpec := {
  dt_schema_version : Z; dt_source_effect_id : string; dt_task_id : string; dt_title : string;
  dt_body : Value; dt_role : WorkerRole; dt_profile : string; dt_workspace : string;
  dt_skills : list string; dt_provider : string; dt_model : string; dt_max_runtime : string;
  dt_priority : Z;
}.

(** ** Tasks of a dispatch *)

Definition hermes_task (d : WorkflowDispatch) : result DispatchError TaskCreateSpec :=
  err_if (negb (bool_decide (d.(wd_execution) = Hermes))) WrongExecutor;;
  Ok {| tc_board := d.(wd_board); tc_effect_id := d.(wd_worker_effect_id);
        tc_projection_key := d.(wd_worker_projection_key); tc_title := d.(wd_worker_title);
        tc_body := d.(wd_worker_body); tc_assignee := d.(wd_profile);
        tc_workspace := "dir:" +:+ d.(wd_workspace); tc_skills := d.(wd_skills);
        tc_provider := d.(wd_provider); tc_model := d.(wd_model);
        tc_max_runtime := d.(wd_max_runtime); tc_max_retries := d.(wd_max_retries);
        tc_priority := d.(wd_priority); tc_parent_task_ids := [] |}.
Definition direct_task (d : WorkflowDispatch) : result DispatchError DirectTaskSpec :=
  err_if (negb (bool_decide (d.(wd_execution) = Direct))) WrongExecutor;;
  Ok {| dt_schema_version := 1; dt_source_effect_id := d.(wd_source_effect_id);
        dt_task_id := d.(wd_worker_projection_key); dt_title := d.(wd_worker_title);
        dt_body := d.(wd_worker_body); dt_role := d.(wd_role); dt_profile := d.(wd_profile);
        dt_workspace := d.(wd_direct_workspace); dt_skills := d.(wd_skills);
        dt_provider := d.(wd_provider); dt_model := d.(wd_model);
        dt_max_runtime := d.(wd_max_runtime); dt_priority := d.(wd_priority) |}.

(** ** Evidence focus *)

(** A position in the exported records; [BTreeSet<(&str, usize)>]. *)
Definition pos_compare (a b : string * Z) : comparison := then_by (String.compare a.1 b.1) (Z.compare a.2 b.2).
Fixpoint pos_insert (p : string * Z) (l : list (string * Z)) : list (string * Z) :=
  match l with
  | [] => [p]
  | q :: l' =>
      match pos_compare p q with
      | Lt => p :: l
      | Eq => l
      | Gt => q :: pos_insert p l'
      end
  end.

(** [iter().rposition(p)]. *)
Fixpoint rposition_from {A} (p : A -> bool) (i : Z) (l : list A) : option Z :=
  match l with
  | [] => None
  | x :: l =>
      match rposition_from p (i + 1) l with
      | Some j => Some j
      | None => if p x then Some i else None
      end
  end.
Definition rposition {A} (p : A -> bool) (l : list A) : option Z := rposition_from p 0 l.
(** [iter().enumerate()]. *)
Definition enumerate {A} (l : list A) : list (Z * A) := imap (fun i x => (Z.of_nat i, x)) l.

Definition rows (c : DispatchContext) (kind : string) : list Value :=
  default [] (as_array (index (index c.(dc_immutable_evidence_bundle) "records") kind)).

Definition latest (c : DispatchContext) (kind : string) (p : Value -> bool)
    (selected : list (string * Z)) : list (string * Z) :=
  match rposition p (rows c kind) with
  | Some i => pos_insert (kind, i) selected
  | None => selected
  end.
Definition select (c : DispatchContext) (kind : string) (p : Value -> bool)
    (selected : list (string * Z)) : list (string * Z) :=
  foldl (fun s row => if p row.2 then pos_insert (kind, row.1) s else s) selected
    (enumerate (rows c kind)).

(** The latest review of this head per reviewer, newest first. *)
Definition select_reviews (c : DispatchContext) (mine : string -> bool) (selected : list (string * Z))
  : list (string * Z) :=
  (foldl (fun acc row =>
     let '(s, reviewers) := acc in
     match as_str (index (index row.2 "payload") "reviewer_id") with
     | None => (s, reviewers)
     | Some reviewer =>
         if is_some c.(dc_head_sha)
            && bool_decide (as_str (index (index row.2 "payload") "reviewed_head_sha") = c.(dc_head_sha))
            && mine reviewer && negb (one_of reviewers reviewer)
         then (pos_insert ("runs"%string, row.1) s, reviewer :: reviewers)
         else (s, reviewers)
     end) (selected, []) (rev (enumerate (rows c "runs")))).1.

Definition independent_review (r : WorkerRole) : bool :=
  match r with ReviewerGeneral | ReviewerSecperf => true | _ => false end.

Definition focus (c : DispatchContext) (b : RolePolicy) : list (string * Z) :=
  let role := b.(rp_role) in
  let not_planner := negb (bool_decide (role = Planner)) in
  let at_head path row := is_some c.(dc_head_sha) && bool_decide (as_str (path row) = c.(dc_head_sha)) in
  let when (p : bool) (f : list (string * Z) -> list (string * Z)) s := if p then f s else s in
  let s := latest c "events" (fun row => match as_str (index row "event_type") with
             | Some t => one_of ["ISSUE_AUTHORIZED"; "ISSUE_REAUTHORIZED"] t | None => false end) [] in
  let s := latest c "runs" (fun row => eq_str (index row "role") "planner"
             && bool_decide (as_u64 (index (index row "payload") "plan_version") = c.(dc_plan_version))) s in
  let s := when (bool_decide (role = Builder)) (latest c "events" (fun row =>
             eq_str (index row "event_type") "INFRASTRUCTURE_RECOVERY_AUTHORIZED")) s in
  let s := when not_planner (latest c "runs" (fun row => eq_str (index row "role") "builder"
             && at_head (fun row => index (index row "payload") "head_sha") row)) s in
  let s := when not_planner (latest c "evidence" (fun row => eq_str (index row "kind") "GITHUB_CI"
             && at_head (fun row => index (index (index row "payload") "pull_request") "head_sha") row)) s in
  let s := when (bool_decide (role = FinalReviewer)) (latest c "evidence" (fun row =>
             eq_str (index row "kind") "GITHUB_FINAL_PREFLIGHT")) s in
  let s := when (bool_decide (role = Builder)) (latest c "evidence" (fun row =>
             eq_str (index row "kind") "GITHUB_REVIEW_FEEDBACK")) s in
  let s := select c "evidence" (fun row => eq_str (index row "kind") "HUMAN_DISCUSSION") s in
  let s := select c "findings" (fun row => negb (independent_review role)
             || bool_decide (as_str (index row "origin_role") = b.(rp_reviewer_id))) s in
  when not_planner (select_reviews c (fun reviewer => negb (independent_review role)
             || bool_decide (Some reviewer = b.(rp_reviewer_id)))) s.

Definition evidence_focus (c : DispatchContext) (b : RolePolicy) : Value :=
  json_object [("schema_version", Number 1); ("records", Array (map (fun p =>
    json_object [("pointer", Str ("/records/" +:+ p.1 +:+ "/" +:+ show p.2));
                 ("payload_sha256", index (nth (Z.to_nat p.2) (rows c p.1) Null) "payload_sha256")])
    (focus c b)))].

(** ** Paths *)

Fixpoint join_on (c : ascii) (l : list string) : string :=
  match l with
  | [] => ""
  | [x] => x
  | x :: l => x +:+ String c (join_on c l)
  end.
Fixpoint drop_last_while {A} (p : A -> bool) (l : list A) : list A :=
  match l with
  | [] => []
  | x :: l => match drop_last_while p l with
              | [] => if p x then [] else [x]
              | l' => x :: l'
              end
  end.
(** [Path::parent] and [Path::file_name] of an absolute path that ends in a
    normal component: empty and [.] components before it are dropped. *)
Definition parent (path : string) : string :=
  let parts := split_on "/" path in
  let kept := drop_last_while (fun p => is_empty p || String.eqb p ".") (removelast parts) in
  match join_on "/" kept with "" => "/" | d => d end.
Definition file_name (path : string) : string := List.last (split_on "/" path) "".
(** [Path::join] with a relative path. *)
Definition path_join (base part : string) : string :=
  if ends_with_char "/" base then base +:+ part else base +:+ "/" +:+ part.

Section scheduling.
Context `{Codec}.

Definition review_snapshot (source projection_key head : string) : Value :=
  let root := path_join (path_join (path_join (parent source) ".reviews") (file_name source))
                (hash_bytes projection_key) in
  json_object [("schema_version", Number 1); ("source", Str source); ("root", Str root);
               ("head_sha", Str head); ("projection_key", Str projection_key)].

(** ** One job *)

(** [version.get() + 1] on [u32] in the release profile. *)
Definition next_version (o : option Z) : Z :=
  match o with Some v => (v + 1) mod (u32_max + 1) | None => 1 end.
Definition review_round (c : DispatchContext) : Z := saturating_add u32_max c.(dc_remediation_round) 1.
Definition job_round (c : DispatchContext) (r : WorkerRole) : Z :=
  match r with Planner => next_version c.(dc_plan_version) | _ => review_round c end.
Definition worker_id (b : RolePolicy) : string := default (role_name b.(rp_role)) b.(rp_reviewer_id).
Definition projection_key (c : DispatchContext) (b : RolePolicy) : string :=
  case_key c.(dc_case_id) +:+ ":" +:+ worker_id b +:+ ":round:" +:+ show (job_round c b.(rp_role))
  +:+ ":revision:" +:+ show c.(dc_state_revision) +:+ ":worker".
Definition case_workspace (p : WorkflowPolicy) (id : CaseId) : string :=
  trim_end_char "/" p.(wp_workspace) +:+ "/repo-" +:+ show (repository id) +:+ "-issue-"
  +:+ show (issue id) +:+ "-workflow-" +:+ show (workflow id).
Definition result_plan_version (c : DispatchContext) (r : WorkerRole) : Z :=
  if bool_decide (r = Planner) then next_version c.(dc_plan_version) else default 0 c.(dc_plan_version).
Definition execution_name (e : ExecutionKind) : string :=
  match e with Hermes => "hermes" | Direct => "direct" end.

Definition when (b : bool) (l : list (string * Value)) : list (string * Value) := if b then l else [].
Definition when_some {A} (o : option A) (f : A -> list (string * Value)) : list (string * Value) :=
  match o with Some a => f a | None => [] end.

(** The review snapshot of an isolated review. *)
Definition snapshot_of (c : DispatchContext) (b : RolePolicy) (p : WorkflowPolicy)
  : result DispatchError (option Value) :=
  if p.(wp_isolated_reviews) && reviewed_role b.(rp_role) then
    head ← ok_or c.(dc_head_sha) InvalidPolicy;
    Ok (Some (review_snapshot (case_workspace p c.(dc_case_id)) (projection_key c b) head))
  else Ok None.

(** The inserts that bind a review. *)
Definition review_members (c : DispatchContext) (b : RolePolicy)
  : result DispatchError (list (string * Value)) :=
  if independent_review b.(rp_role) then
    mode ← ok_or b.(rp_review_mode) InvalidPolicy;
    Ok [("review_round", Number (review_round c)); ("reviewer_id", Str (worker_id b));
        ("review_mode", Str (review_mode_name mode))]
  else Ok [].

(** Where a board worker keeps its scratch files. *)
Definition storage_members (c : DispatchContext) (b : RolePolicy) (p : WorkflowPolicy) (workspace : string)
  : result DispatchError (list (string * Value)) :=
  match b.(rp_execution), p.(wp_hermes_scratch_root) with
  | Hermes, Some scratch =>
      let root := scratch +:+ "/" +:+ String.substring 0 16 (hash_bytes (projection_key c b)) in
      err_if (56 <? len (root +:+ "/t")) InvalidPolicy;;
      Ok [("projection_key", Str (projection_key c b));
          ("immutable_evidence_ref", json_object [("schema_version", Number 1);
             ("path", Str (root +:+ "/immutable-evidence.json"));
             ("sha256", Str (hash_bytes (to_string c.(dc_immutable_evidence_bundle))))]);
          ("storage", json_object [("schema_version", Number 3); ("root", Str root);
             ("source", Str workspace); ("cargo_target", Str (root +:+ "/disposable/target"));
             ("cargo_home", Str (root +:+ "/disposable/cargo-home"));
             ("temporary", Str (root +:+ "/t")); ("results", Str (root +:+ "/results"))])]
  | _, _ => Ok []
  end.

(** The members of the body, in the order they are inserted. *)
Definition body_members (c : DispatchContext) (b : RolePolicy) (p : WorkflowPolicy)
    (review storage : list (string * Value)) (snapshot : option Value) : list (string * Value) :=
  let id := c.(dc_case_id) in
  let role := b.(rp_role) in
  let plan := result_plan_version c role in
  [("case_key", Str (case_key id)); ("repository_id", Number (repository id));
   ("issue_number", Number (issue id)); ("workflow_version", Number (workflow id));
   ("state_revision", Number c.(dc_state_revision)); ("role", Str (role_name role));
   ("remediation_round", Number c.(dc_remediation_round))]
  ++ when (0 <? plan) [("plan_version", Number plan)]
  ++ when_some c.(dc_pr_number) (fun n => [("pr_number", Number n)])
  ++ when_some c.(dc_head_sha) (fun h => [("expected_head_sha", Str h)])
  ++ review
  ++ when (bool_decide (role = FinalReviewer)) [("final_review_round", Number (review_round c))]
  ++ when (bool_decide (role = Planner) && negb (bool_decide (p.(wp_sensitive_scope_categories) = [])))
       [("sensitive_scope_categories", Array (map Str p.(wp_sensitive_scope_categories)))]
  ++ when (bool_decide (role = Builder))
       [("build_round", Number (job_round c role));
        ("assigned_branch", Str (p.(wp_branch_prefix) +:+ "repo-" +:+ show (repository id)
           +:+ "/issue-" +:+ show (issue id) +:+ "/workflow-" +:+ show (workflow id)));
        ("assigned_worktree", Str (case_workspace p id))]
  ++ [("execution", Str (execution_name b.(rp_execution))); ("provider", Str b.(rp_provider));
      ("model", Str b.(rp_model)); ("requested_model", Str (b.(rp_provider) +:+ "/" +:+ b.(rp_model)));
      ("skills_repository_commit", Str c.(dc_skills_repository_commit));
      ("immutable_evidence_bundle", c.(dc_immutable_evidence_bundle));
      ("evidence_focus", evidence_focus c b)]
  ++ when_some p.(wp_cargo_jobs) (fun n => [("cargo_jobs", Number n)])
  ++ when_some snapshot (fun v => [("review_snapshot", v)])
  ++ storage.

Definition dispatch (effect_id source_effect_id : string) (b : RolePolicy) (c : DispatchContext)
    (p : WorkflowPolicy) : result DispatchError WorkflowDispatch :=
  err_if (negb (is_object c.(dc_immutable_evidence_bundle))) InvalidEvidenceBundle;;
  snapshot ← snapshot_of c b p;
  let workspace := match snapshot with
                   | Some v => default "" (as_str (index v "root")) +:+ "/source"
                   | None => case_workspace p c.(dc_case_id)
                   end in
  review ← review_members c b;
  storage ← storage_members c b p workspace;
  Ok {| wd_role := b.(rp_role); wd_worker_projection_key := projection_key c b;
        wd_worker_body := json_object (body_members c b p review storage snapshot);
        wd_worker_effect_id := effect_id +:+ ":worker";
        wd_worker_title := "Run " +:+ worker_id b +:+ " for " +:+ case_key c.(dc_case_id);
        wd_source_effect_id := source_effect_id; wd_profile := b.(rp_profile);
        wd_workspace := workspace; wd_direct_workspace := workspace;
        wd_execution := b.(rp_execution); wd_skills := b.(rp_skills);
        wd_provider := b.(rp_provider); wd_model := b.(rp_model);
        wd_max_runtime := b.(rp_max_runtime);
        wd_max_retries := default p.(wp_max_provider_failures) p.(wp_max_hermes_attempts);
        wd_priority := b.(rp_priority); wd_board := p.(wp_board) |}.

(** ** The jobs of an effect *)

Definition require_review_binding (c : DispatchContext) : result DispatchError () :=
  ok_or c.(dc_plan_version) MissingPlan;;
  ok_or c.(dc_pr_number) MissingPullRequest;;
  ok_or c.(dc_head_sha) MissingExactHead;;
  Ok ().

Definition schedule_role (effect_id : string) (r : WorkerRole) (c : DispatchContext) (p : WorkflowPolicy)
  : result DispatchError (list WorkflowDispatch) :=
  b ← role_binding p r;
  d ← dispatch effect_id effect_id b c p;
  Ok [d].

Definition schedule_effect (effect_id : string) (e : Effect) (c : DispatchContext) (p : WorkflowPolicy)
  : result DispatchError (list WorkflowDispatch) :=
  err_if (negb (valid_opaque effect_id 512)) InvalidEffectId;;
  match e with
  | Fx.DispatchPlanner => schedule_role effect_id Planner c p
  | Fx.DispatchBuilder => ok_or c.(dc_plan_version) MissingPlan;; schedule_role effect_id Builder c p
  | Fx.DispatchReviewers =>
      require_review_binding c;;
      try_map (fun b =>
        id ← ok_or b.(rp_reviewer_id) InvalidPolicy;
        dispatch (effect_id +:+ ":" +:+ id) effect_id b c p) (reviewers p)
  | Fx.DispatchFinalReviewer => require_review_binding c;; schedule_role effect_id FinalReviewer c p
  | _ => Ok []
  end.

(** ** The evidence a job carries *)

(** The payload of an accepted result is kept once, with its run. *)
Definition reference_run (runs : list StoredRun) (event : Value) : result DispatchError Value :=
  event_id ← ok_or (as_str (index event "event_id")) InvalidEvidenceBundle;
  match List.find (fun r => String.eqb r.(sr_event_id) event_id) (rev runs) with
  | Some run =>
      if bool_decide (as_str (index event "payload_sha256") = Some run.(sr_payload_sha256))
         && bool_decide (index event "payload" = run.(sr_payload))
      then
        m ← ok_or (as_object event) InvalidEvidenceBundle;
        Ok (Object (map_insert "payload_ref"
              (json_object [("run_id", Str run.(sr_run_id)); ("payload_sha256", Str run.(sr_payload_sha256))])
              (map_remove "payload" m)))
      else Ok event
  | None => Ok event
  end.

Definition immutable_evidence_bundle (s : Store) (c : StoredCase) : result DispatchError Value :=
  history ← map_err (fun _ => InvalidEvidenceBundle) (immutable_history_for_case c.(sc_case_key) s);
  err_if (negb (bool_decide ((se_state_revision <$> last history.(ih_events))
                             = Some c.(sc_state_revision)))) InvalidEvidenceBundle;;
  records ← ok_or (as_object (ser_history history)) InvalidEvidenceBundle;
  events ← ok_or (as_array (index (Object records) "events")) InvalidEvidenceBundle;
  events ← try_map (reference_run history.(ih_runs)) events;
  let unsigned := map_of [("schema_version", Number 2); ("case_key", Str c.(sc_case_key));
    ("bound_state_revision", Number c.(sc_state_revision));
    ("records", Object (map_insert "events" (Array events) records))] in
  let bundle := map_insert "sha256" (Str (hash_bytes (to_string (Object unsigned)))) unsigned in
  let bytes := len (to_string (Object bundle)) in
  err_if (MAX_EVIDENCE_BUNDLE_BYTES <? bytes) (EvidenceBundleTooLarge bytes MAX_EVIDENCE_BUNDLE_BYTES);;
  Ok (Object bundle).

Definition dispatch_effect (effect_type : string) : option Effect :=
  if String.eqb effect_type "DISPATCH_PLANNER" then Some Fx.DispatchPlanner
  else if String.eqb effect_type "DISPATCH_BUILDER" then Some Fx.DispatchBuilder
  else if String.eqb effect_type "DISPATCH_REVIEWERS" then Some Fx.DispatchReviewers
  else if String.eqb effect_type "DISPATCH_FINAL_REVIEWER" then Some Fx.DispatchFinalReviewer
  else None.

(** [head_sha.as_deref().map(GitSha::from_str).transpose()]. *)
Definition stored_head (c : StoredCase) : result DispatchError (option string) :=
  match c.(sc_head_sha) with
  | None => Ok None
  | Some text => map_err (fun _ => InvalidStoredCase) (Some <$> GitSha_from_str text)
  end.

Definition schedule_claimed_dispatch (claimed : ClaimedEffect) (c : StoredCase) (s : Store)
    (p : WorkflowPolicy) (skills : string) : result DispatchError (list WorkflowDispatch) :=
  err_if (negb (String.eqb claimed.(ce_case_key) c.(sc_case_key))
          || negb (claimed.(ce_state_revision) =? c.(sc_state_revision))) StaleEffect;;
  r ← ok_or (nonzero c.(sc_repository_id)) InvalidStoredCase;
  i ← ok_or (nonzero c.(sc_issue_number)) InvalidStoredCase;
  w ← ok_or (nonzero c.(sc_workflow_version)) InvalidStoredCase;
  let id := {| repository := r; issue := i; workflow := w |} in
  err_if (negb (String.eqb (case_key id) c.(sc_case_key))) InvalidStoredCase;;
  e ← ok_or (dispatch_effect claimed.(ce_effect_type)) UnsupportedEffect;
  revision ← ok_or (nonzero c.(sc_state_revision)) InvalidStoredCase;
  head ← stored_head c;
  bundle ← immutable_evidence_bundle s c;
  schedule_effect claimed.(ce_effect_id) e {|
    dc_case_id := id; dc_state_revision := revision;
    dc_plan_version := nonzero c.(sc_plan_version);
    dc_remediation_round := c.(sc_remediation_round);
    dc_pr_number := c.(sc_pr_number) ≫= nonzero; dc_head_sha := head;
    dc_skills_repository_commit := skills; dc_immutable_evidence_bundle := bundle |} p.
End scheduling.
