(* ===== verification/Jobs.v ===== *)
(** * Jobs: what scheduling guarantees about its jobs

    Identities of jobs, the bindings in their bodies, the independence of
    reviewers, and one job per reviewer. *)

From S2P Require Import Prelude Text Json Serde Domain StateMachine Contracts RolePolicy.
From S2P Require Import Sql Tables Inputs StoreCore CaseHistory Scheduling.
From Stdlib Require Import Ascii.
Open Scope Z_scope.

(** ** Texts without a separator *)

Fixpoint free (c : ascii) (s : string) : bool :=
  match s with EmptyString => true | String a s => negb (Ascii.eqb a c) && free c s end.

Lemma sep_inj c a b s t :
  free c a = true -> free c b = true ->
  a +:+ String c s = b +:+ String c t -> a = b /\ s = t.
Proof.
  revert b. induction a as [|x a IH]; intros [|y b] Ha Hb Heq; simpl in *; bools.
  - by injection Heq.
  - injection Heq as -> _. by rewrite Ascii.eqb_refl in *.
  - injection Heq as -> _. by rewrite Ascii.eqb_refl in *.
  - injection Heq as -> Heq. apply IH in Heq as [-> ->]; done.
Qed.
Lemma free_app c a b : free c (a +:+ b) = free c a && free c b.
Proof. induction a as [|x a IH]; simpl; [done|]. by rewrite IH, andb_assoc. Qed.
Lemma digits_free c s : is_ascii_digit (byte_of c) = false -> all_digits s = true -> free c s = true.
Proof.
  intros Hc. induction s as [|x s IH]; simpl; [done|]. intros Hs. bools. rewrite IH, andb_true_r by done.
  destruct (Ascii.eqb_spec x c); [congruence|done].
Qed.
Lemma show_free n : free ":" (show n) = true.
Proof. apply digits_free; [done|apply show_digits]. Qed.

(** Worker identities contain no separator. *)
Lemma valid_id_free s : valid_id s = true -> free ":" s = true.
Proof.
  unfold valid_id. intros [_ Hb]%andb_true_iff. induction s as [|x s IH]; simpl in *; [done|].
  apply andb_true_iff in Hb as [Hx Hb]. rewrite IH, andb_true_r by done.
  destruct (Ascii.eqb_spec x ":"); [by subst|done].
Qed.
Lemma role_name_free r : free ":" (role_name r) = true.
Proof. by destruct r. Qed.

(** ** Identities *)

(** The ranges of a context and the identity of a worker. *)
Definition wf_context (c : DispatchContext) : Prop :=
  wf_case_id c.(dc_case_id) /\ 1 <= c.(dc_state_revision) <= u64_max
  /\ is_u32 c.(dc_remediation_round)
  /\ match c.(dc_plan_version) with Some v => 1 <= v <= u32_max | None => True end.

Lemma worker_id_free b : valid_role_policy b = true -> free ":" (worker_id b) = true.
Proof.
  unfold valid_role_policy, worker_id. intros Hv. bools.
  destruct (rp_reviewer_id b) as [id|] eqn:E; [|apply role_name_free]. simpl.
  destruct (is_reviewer (rp_role b)); bools; by apply valid_id_free.
Qed.
Lemma job_round_range c r : wf_context c -> 0 <= job_round c r.
Proof.
  intros (_ & _ & [Hr _] & _). assert (0 <= review_round c).
  { unfold review_round, saturating_add, u32_max. lia. }
  destruct r; simpl; try done. unfold next_version. case_match; [|lia].
  apply Z.mod_pos_bound. unfold u32_max. lia.
Qed.

(** The part of a case key after [repo:]. *)
Definition case_tail (id : CaseId) : string :=
  show (repository id) +:+ String "#" (show (issue id) +:+ String "@" (show (workflow id))).
Lemma case_key_tail id t : case_key id +:+ t = "repo:" +:+ (case_tail id +:+ t).
Proof. by rewrite <-append_assoc. Qed.
Lemma case_tail_free id : free ":" (case_tail id) = true.
Proof.
  unfold case_tail. rewrite free_app, show_free. simpl. rewrite free_app, show_free. simpl. apply show_free.
Qed.
Lemma case_tail_inj a b : wf_case_id a -> wf_case_id b -> case_tail a = case_tail b -> a = b.
Proof.
  intros Ha Hb Heq. apply case_key_inj; [done..|]. unfold case_key. fold (case_tail a) (case_tail b).
  by rewrite Heq.
Qed.

(** A projection key identifies a job.  Two jobs of valid workers have the
    same key only if they are for the same case, worker, round and revision. *)
Theorem projection_key_identifies_job (c1 c2 : DispatchContext) (b1 b2 : RolePolicy)
  (Hc1 : wf_context c1) (Hc2 : wf_context c2) (Hb1 : valid_role_policy b1 = true)
  (Hb2 : valid_role_policy b2 = true) (Hkey : projection_key c1 b1 = projection_key c2 b2) :
  c1.(dc_case_id) = c2.(dc_case_id) /\ worker_id b1 = worker_id b2
  /\ job_round c1 b1.(rp_role) = job_round c2 b2.(rp_role)
  /\ c1.(dc_state_revision) = c2.(dc_state_revision).
Proof.
  pose proof Hc1 as (Hi1 & Hr1 & _). pose proof Hc2 as (Hi2 & Hr2 & _). pose proof (worker_id_free _ Hb1).
  pose proof (worker_id_free _ Hb2). unfold projection_key in Hkey. rewrite !case_key_tail in Hkey.
  apply append_inj_l in Hkey. apply sep_inj in Hkey as [Hid Hkey]; [|apply case_tail_free..].
  apply sep_inj in Hkey as [Hw Hkey]; [|done..].
  apply (append_inj_l "round:") in Hkey. apply sep_inj in Hkey as [Hround Hkey]; [|apply show_free..].
  apply (append_inj_l "revision:") in Hkey. apply sep_inj in Hkey as [Hrev _]; [|apply show_free..].
  split_and!; [by apply case_tail_inj|done| |apply show_inj in Hrev; lia].
  apply show_inj in Hround; [done|by apply job_round_range..].
Qed.

(** ** Reading a body *)

Fixpoint last_get (k : string) (l : list (string * Value)) : option Value :=
  match l with
  | [] => None
  | (k', v) :: l =>
      match last_get k l with Some w => Some w | None => if String.eqb k k' then Some v else None end
  end.
Lemma last_get_app k l m :
  last_get k (l ++ m) = match last_get k m with Some w => Some w | None => last_get k l end.
Proof.
  induction l as [|[k' v] l IH]; simpl; [by destruct (last_get k m)|]. rewrite IH. by destruct (last_get k m).
Qed.
Lemma map_get_map_of k l : map_get k (map_of l) = last_get k l.
Proof.
  unfold map_of. assert (forall m, map_get k (foldl (fun m kv => map_insert kv.1 kv.2 m) m l)
    = match last_get k l with Some w => Some w | None => map_get k m end) as Hf.
  { induction l as [|[k' v] l IH]; intros m; simpl; [done|]. rewrite IH, map_get_insert.
    destruct (last_get k l); [done|]. case_decide; destruct (String.eqb_spec k k'); congruence. }
  rewrite Hf. by destruct (last_get k l).
Qed.
Lemma last_get_when k b l : last_get k (when b l) = if b then last_get k l else None.
Proof. by destruct b. Qed.
Lemma last_get_when_some {A} k (o : option A) f :
  last_get k (when_some o f) = match o with Some a => last_get k (f a) | None => None end.
Proof. by destruct o. Qed.
Lemma last_get_when_none k b l : last_get k l = None -> last_get k (when b l) = None.
Proof. by destruct b. Qed.
Lemma last_get_when_some_none {A} k (o : option A) f :
  (forall a, last_get k (f a) = None) -> last_get k (when_some o f) = None.
Proof. destruct o; simpl; auto. Qed.

Section bodies.
Context `{Codec}.

Definition member (d : WorkflowDispatch) (k : string) : Value := index d.(wd_worker_body) k.

(** What every job body binds. *)
Record bound_job (c : DispatchContext) (b : RolePolicy) (d : WorkflowDispatch) : Prop := {
  bj_key : d.(wd_worker_projection_key) = projection_key c b;
  bj_role : d.(wd_role) = b.(rp_role);
  bj_case : member d "case_key" = Str (case_key c.(dc_case_id));
  bj_revision : member d "state_revision" = Number c.(dc_state_revision);
  bj_round : member d "remediation_round" = Number c.(dc_remediation_round);
  bj_role_name : member d "role" = Str (role_name b.(rp_role));
  bj_plan : member d "plan_version" = (let plan := result_plan_version c b.(rp_role) in
              if 0 <? plan then Number plan else Null);
  bj_pr : member d "pr_number" = opt_number c.(dc_pr_number);
  bj_head : member d "expected_head_sha" = opt_str c.(dc_head_sha);
  bj_model : member d "requested_model" = Str (b.(rp_provider) +:+ "/" +:+ b.(rp_model));
  bj_skills : member d "skills_repository_commit" = Str c.(dc_skills_repository_commit);
  bj_bundle : member d "immutable_evidence_bundle" = c.(dc_immutable_evidence_bundle);
  bj_review : independent_review b.(rp_role) = true ->
    member d "reviewer_id" = Str (worker_id b) /\ member d "review_round" = Number (review_round c)
    /\ exists mode, b.(rp_review_mode) = Some mode /\ member d "review_mode" = Str (review_mode_name mode);
}.

Lemma storage_keys c b p w l k :
  storage_members c b p w = Ok l -> one_of ["projection_key"; "immutable_evidence_ref"; "storage"] k = false ->
  last_get k l = None.
Proof.
  unfold storage_members, one_of. intros Hs Hk%bool_decide_eq_false. repeat case_match; open_ok; subst; try done.
  cbn [last_get]. repeat match goal with |- context [String.eqb k ?x] => destruct (String.eqb_spec k x); [set_solver|] end.
  done.
Qed.

Lemma review_keys c b l k :
  review_members c b = Ok l -> one_of ["review_round"; "reviewer_id"; "review_mode"] k = false ->
  last_get k l = None.
Proof.
  unfold review_members, one_of. intros Hs Hk%bool_decide_eq_false. case_match; open_ok; subst; [|done].
  cbn [last_get]. repeat match goal with |- context [String.eqb k ?x] => destruct (String.eqb_spec k x); [set_solver|] end.
  done.
Qed.

(** Look a literal key up in the members. *)
Ltac body_get :=
  unfold member, wd_worker_body, json_object; rewrite index_object, map_get_map_of; unfold body_members;
  rewrite !last_get_app;
  repeat (match goal with Hx : storage_members _ _ _ _ = Ok ?l |- context [last_get ?k ?l] =>
    rewrite (storage_keys _ _ _ _ _ k Hx) by reflexivity end);
  repeat (match goal with Hx : review_members _ _ = Ok ?l |- context [last_get ?k ?l] =>
    rewrite (review_keys _ _ _ k Hx) by reflexivity end);
  repeat match goal with
  | |- context [last_get ?k (when ?b ?l)] => rewrite (last_get_when_none k b l eq_refl)
  | |- context [last_get ?k (when_some ?o ?f)] => rewrite (last_get_when_some_none k o f (fun _ => eq_refl))
  end;
  rewrite ?last_get_when, ?last_get_when_some; try done.

Lemma dispatch_bound effect source b c p d :
  dispatch effect source b c p = Ok d ->
  bound_job c b d /\ d.(wd_worker_effect_id) = effect +:+ ":worker"
  /\ d.(wd_source_effect_id) = source.
Proof.
  unfold dispatch. intros Hd. open_ok. subst. split; [|done].
  rename select (review_members _ _ = _) into Hr. rename select (storage_members _ _ _ _ = _) into Hs.
  split; try done.
  5: { body_get. by destruct (0 <? result_plan_version c (rp_role b)). }
  5: { body_get. by destruct (dc_pr_number c). }
  5: { body_get. by destruct (dc_head_sha c). }
  1-7: by body_get.
  - intros Hi. unfold review_members in Hr. rewrite Hi in Hr. open_ok. subst.
    split; [body_get|]. split; [body_get|]. eexists. split; [done|]. body_get.
Qed.

(** ** The jobs of an effect *)

Lemma role_binding_role p r b : role_binding p r = Ok b -> b.(rp_role) = r /\ b ∈ p.(wp_roles).
Proof.
  unfold role_binding. intros Hb%ok_or_ok. apply find_some in Hb as [Hin Hb]. bools.
  split; [done|by apply list_elem_of_In].
Qed.
Lemma reviewers_elem p b : b ∈ reviewers p <-> b ∈ p.(wp_roles) /\ is_reviewer b.(rp_role) = true.
Proof. unfold reviewers. by rewrite list_elem_of_In, filter_In, <-list_elem_of_In. Qed.

(** Every job is the dispatch of a worker of the policy; review jobs need the
    plan, the pull request and the head. *)
Lemma schedule_effect_jobs effect e c p ds d :
  schedule_effect effect e c p = Ok ds -> d ∈ ds ->
  exists b id, b ∈ p.(wp_roles) /\ dispatch id effect b c p = Ok d
    /\ (reviewed_role b.(rp_role) = true ->
        is_Some c.(dc_plan_version) /\ is_Some c.(dc_pr_number) /\ is_Some c.(dc_head_sha))
    /\ (b.(rp_role) = Builder -> is_Some c.(dc_plan_version)).
Proof.
  assert (forall r, schedule_role effect r c p = Ok ds -> d ∈ ds ->
    exists b, b.(rp_role) = r /\ b ∈ p.(wp_roles) /\ dispatch effect effect b c p = Ok d) as Hrole.
  { unfold schedule_role. intros r Hr Hin. open_ok. subst. apply list_elem_of_singleton in Hin as ->.
    rename select (role_binding _ _ = _) into Hb. apply role_binding_role in Hb as []. eauto. }
  unfold schedule_effect. intros Hs Hin. open_ok.
  destruct e; open_ok; subst; try by apply not_elem_of_nil in Hin.
  - destruct (Hrole _ ltac:(eassumption) Hin) as (b & Hr & Hp & Hd). exists b, effect. by rewrite Hr.
  - destruct (Hrole _ ltac:(eassumption) Hin) as (b & Hr & Hp & Hd). exists b, effect. rewrite Hr.
    split; [done|]. split; [done|]. split; [done|]. intros _. by eexists.
  - unfold require_review_binding in *. open_ok.
    rename select (try_map _ _ = _) into Ht. apply try_map_Forall2 in Ht.
    destruct (Forall2_elem_r _ _ _ _ Ht Hin) as (b & Hb & Hd). open_ok.
    apply reviewers_elem in Hb as [Hb Hrev]. eexists b, _. split; [done|]. split; [done|].
    split; [intros _; repeat split; by eexists|]. by destruct (rp_role b).
  - unfold require_review_binding in *. open_ok. destruct (Hrole _ ltac:(eassumption) Hin) as (b & Hr & Hp & Hd).
    exists b, effect. split; [done|]. split; [done|]. split; [intros _; repeat split; by eexists|]. by rewrite Hr.
Qed.

(** What a claimed dispatch is scheduled with. *)
Lemma claimed_context claimed sc s p skills ds :
  schedule_claimed_dispatch claimed sc s p skills = Ok ds ->
  claimed.(ce_case_key) = sc.(sc_case_key) /\ claimed.(ce_state_revision) = sc.(sc_state_revision)
  /\ exists e c, schedule_effect claimed.(ce_effect_id) e c p = Ok ds
    /\ dispatch_effect claimed.(ce_effect_type) = Some e
    /\ case_key c.(dc_case_id) = sc.(sc_case_key) /\ c.(dc_state_revision) = sc.(sc_state_revision)
    /\ c.(dc_plan_version) = nonzero sc.(sc_plan_version)
    /\ c.(dc_remediation_round) = sc.(sc_remediation_round)
    /\ c.(dc_pr_number) = (sc.(sc_pr_number) ≫= nonzero) /\ c.(dc_head_sha) = sc.(sc_head_sha)
    /\ c.(dc_skills_repository_commit) = skills
    /\ immutable_evidence_bundle s sc = Ok c.(dc_immutable_evidence_bundle).
Proof.
  unfold schedule_claimed_dispatch. intros Hs. open_ok. bools. subst.
  repeat match goal with Hx : String.eqb _ _ = true |- _ => apply String.eqb_eq in Hx end.
  split_and!; [done..|]. eexists _, _. split; [eassumption|]. simpl. split_and!; try done.
  rename select (stored_head sc = _) into Hh. unfold stored_head in Hh.
  destruct (sc_head_sha sc) as [text|]; [|by simplify_eq]. apply map_err_ok in Hh.
  unfold GitSha_from_str in Hh. case_match; [done|]. by simplify_eq/=.
Qed.
Lemma bundle_bounded s c v :
  immutable_evidence_bundle s c = Ok v -> len (to_string v) <= MAX_EVIDENCE_BUNDLE_BYTES.
Proof. unfold immutable_evidence_bundle. intros Hb. open_ok. subst. bools. done. Qed.

(** A scheduled job is bound to the exact case it was claimed for.  When a
    claimed dispatch is scheduled, the claim and the case agree on identity and
    revision, and every job names that case and revision, its round, pull request
    and head, and carries the case's evidence within the size limit; a review job
    has a plan, a pull request and an exact head. *)
Theorem jobs_bound_to_case (claimed : ClaimedEffect) (sc : StoredCase) (s : Store) (p : WorkflowPolicy)
  (skills : string) (ds : list WorkflowDispatch) (d : WorkflowDispatch)
  (Hsched : schedule_claimed_dispatch claimed sc s p skills = Ok ds) (Hd : d ∈ ds) :
  claimed.(ce_case_key) = sc.(sc_case_key) /\ claimed.(ce_state_revision) = sc.(sc_state_revision)
  /\ member d "case_key" = Str sc.(sc_case_key)
  /\ member d "state_revision" = Number sc.(sc_state_revision)
  /\ member d "remediation_round" = Number sc.(sc_remediation_round)
  /\ member d "pr_number" = opt_number (sc.(sc_pr_number) ≫= nonzero)
  /\ member d "expected_head_sha" = opt_str sc.(sc_head_sha)
  /\ member d "skills_repository_commit" = Str skills
  /\ immutable_evidence_bundle s sc = Ok (member d "immutable_evidence_bundle")
  /\ len (to_string (member d "immutable_evidence_bundle")) <= MAX_EVIDENCE_BUNDLE_BYTES
  /\ (reviewed_role d.(wd_role) = true ->
       is_Some (nonzero sc.(sc_plan_version)) /\ is_Some (sc.(sc_pr_number) ≫= nonzero)
       /\ is_Some sc.(sc_head_sha)).
Proof.
  apply claimed_context in Hsched as (Hk & Hr & e & c & Hs & _ & Hid & Hrev & Hplan & Hround & Hpr & Hh & Hsk & Hb).
  destruct (schedule_effect_jobs _ _ _ _ _ _ Hs Hd) as (b & id & _ & Hdisp & Hrev' & _).
  destruct (dispatch_bound _ _ _ _ _ _ Hdisp) as ([] & _ & _).
  rewrite bj_case0, bj_revision0, bj_round0, bj_pr0, bj_head0, bj_skills0, bj_bundle0, bj_role0.
  rewrite Hid, Hrev, Hround, Hpr, Hh, Hsk. rewrite Hplan, Hpr, Hh in Hrev'.
  split_and!; try done. by eapply bundle_bounded.
Qed.

(** ** One job per reviewer *)

Lemma remove_dups_full {A} `{EqDecision A} (l : list A) : length (remove_dups l) = length l -> NoDup l.
Proof.
  induction l as [|x l IH]; simpl; [constructor|]. assert (length (remove_dups l) <= length l)%nat as Hle.
  { clear. induction l as [|y l IH]; simpl; [done|]. case_decide; simpl; lia. }
  case_decide; simpl; intros Hl; [lia|]. constructor; [|apply IH; lia]. done.
Qed.

(** The identities of a policy's reviewers are present and distinct. *)
Lemma reviewer_ids_distinct p :
  forallb valid_role_policy p.(wp_roles) = true -> valid_roles p.(wp_roles) = true ->
  exists ids, Forall2 (fun b id => b.(rp_reviewer_id) = Some id) (reviewers p) ids /\ NoDup ids
    /\ (2 <= length ids)%nat.
Proof.
  intros Hv Hr. exists (omap rp_reviewer_id p.(wp_roles)). unfold valid_roles in Hr. bools.
  rename select (Nat.eqb _ _ = true) into Hn. apply Nat.eqb_eq in Hn.
  rename select (Nat.leb 2 _ = true) into H2. apply Nat.leb_le in H2. unfold reviewers.
  assert (Forall2 (fun b id => b.(rp_reviewer_id) = Some id)
    (List.filter (fun r => is_reviewer r.(rp_role)) p.(wp_roles)) (omap rp_reviewer_id p.(wp_roles))) as Hall.
  { clear -Hv. induction (wp_roles p) as [|b l IH]; simpl in *; [constructor|].
    apply andb_true_iff in Hv as [Hb Hv]. unfold valid_role_policy in Hb. bools.
    destruct (is_reviewer (rp_role b)); bools.
    - destruct (rp_reviewer_id b) as [id|] eqn:E; [|done]. constructor; auto.
    - destruct (rp_reviewer_id b); [done|]. auto. }
  split; [done|]. pose proof (Forall2_length _ _ _ Hall) as Hlen.
  unfold count_role in Hn, H2. rewrite Hlen in Hn, H2. split; [by apply remove_dups_full|done].
Qed.

Lemma string_length_app (a b : string) : String.length (a +:+ b) = (String.length a + String.length b)%nat.
Proof. induction a as [|x a IH]; [done|]. exact (f_equal S IH). Qed.
Lemma append_inj_r (a b s : string) : a +:+ s = b +:+ s -> a = b.
Proof.
  intros Heq. assert (String.length a = String.length b) as Hl.
  { apply (f_equal String.length) in Heq. rewrite !string_length_app in Heq. lia. }
  revert b Heq Hl. induction a as [|x a IH]; intros [|y b] Heq Hl; try done.
  injection Heq as -> Heq. f_equal. apply IH; [done|]. by injection Hl.
Qed.

Lemma Forall2_elem_impl {A B} (P Q : A -> B -> Prop) l k :
  Forall2 P l k -> (forall x y, x ∈ l -> P x y -> Q x y) -> Forall2 Q l k.
Proof.
  induction 1 as [|x y l k Hxy _ IH]; intros HQ; constructor; [apply HQ; [set_solver|done]|].
  apply IH. intros. apply HQ; [set_solver|done].
Qed.
Lemma reviewer_independent b p : b ∈ reviewers p -> independent_review b.(rp_role) = true.
Proof. intros [_ Hr]%reviewers_elem. by destruct (rp_role b). Qed.

(** The job of each reviewer. *)
Lemma reviewer_jobs effect c p ds :
  schedule_effect effect Fx.DispatchReviewers c p = Ok ds ->
  Forall2 (fun b d => exists id, b.(rp_reviewer_id) = Some id /\ d.(wd_role) = b.(rp_role)
    /\ member d "reviewer_id" = Str id
    /\ d.(wd_worker_effect_id) = (effect +:+ ":" +:+ id) +:+ ":worker"
    /\ d.(wd_worker_projection_key) = case_key c.(dc_case_id) +:+ ":" +:+ id +:+ ":round:"
         +:+ show (review_round c) +:+ ":revision:" +:+ show c.(dc_state_revision) +:+ ":worker")
    (reviewers p) ds.
Proof.
  unfold schedule_effect. intros Hs. open_ok. rename select (try_map _ _ = _) into Ht.
  apply try_map_Forall2 in Ht. eapply Forall2_elem_impl; [exact Ht|].
  intros b d Hb%reviewer_independent Hd. simpl in Hd. open_ok. rename select (_ = Some _) into Hid.
  rename select (dispatch _ _ _ _ _ = _) into Hdisp.
  destruct (dispatch_bound _ _ _ _ _ _ Hdisp) as (Hbj & He & _). eexists. split; [done|].
  destruct (bj_review _ _ _ Hbj Hb) as [Hm _]. unfold worker_id in Hm. rewrite Hid in Hm.
  split_and!; [apply Hbj|done|done|]. rewrite (bj_key _ _ _ Hbj). unfold projection_key, worker_id.
  rewrite Hid. simpl. by destruct (rp_role b).
Qed.

(** Every reviewer gets exactly one job.  Under a policy with valid roles,
    scheduling the reviewers gives one job per configured reviewer, in order, each
    carrying that reviewer's identity; there are at least two, and no two of them
    share a projection key or an effect identity. *)
Theorem one_job_per_reviewer (effect : string) (c : DispatchContext) (p : WorkflowPolicy)
  (ds : list WorkflowDispatch)
  (Hvalid : forallb valid_role_policy p.(wp_roles) = true) (Hroles : valid_roles p.(wp_roles) = true)
  (Hsched : schedule_effect effect Fx.DispatchReviewers c p = Ok ds) :
  Forall2 (fun b d => d.(wd_role) = b.(rp_role)
                      /\ exists id, b.(rp_reviewer_id) = Some id /\ member d "reviewer_id" = Str id)
    (reviewers p) ds
  /\ (2 <= length ds)%nat /\ NoDup (wd_worker_projection_key <$> ds) /\ NoDup (wd_worker_effect_id <$> ds).
Proof.
  destruct (reviewer_ids_distinct p Hvalid Hroles) as (ids & Hids & Hnd & Hlen).
  apply reviewer_jobs in Hsched as Hall. pose proof (Forall2_length _ _ _ Hids). pose proof (Forall2_length _ _ _ Hall).
  split; [|split; [lia|]]; [eapply Forall2_impl; [exact Hall|]; naive_solver|].
  assert (wd_worker_projection_key <$> ds = (fun id => case_key c.(dc_case_id) +:+ ":" +:+ id
      +:+ ":round:" +:+ show (review_round c) +:+ ":revision:" +:+ show c.(dc_state_revision) +:+ ":worker") <$> ids
    /\ wd_worker_effect_id <$> ds = (fun id => (effect +:+ ":" +:+ id) +:+ ":worker") <$> ids) as [-> ->].
  { clear -Hids Hall. revert ds Hall. induction Hids as [|b id bs ids Hb _ IH]; intros ds Hall.
    { apply Forall2_nil_inv_l in Hall as ->. done. }
    apply Forall2_cons_inv_l in Hall as (d & ds' & (id' & Hid & _ & _ & He & Hk) & Hall & ->).
    rewrite Hb in Hid. simplify_eq. destruct (IH ds' Hall) as [IHk IHe]. split; simpl; f_equal; done. }
  split; (apply NoDup_fmap_2; [|done]); intros a b Hab.
  - apply append_inj_l, (append_inj_l ":") in Hab. by apply append_inj_r in Hab.
  - apply append_inj_r, append_inj_l, (append_inj_l ":") in Hab. done.
Qed.
End bodies.

(** ** What a worker is pointed at *)

Lemma pos_compare_eq a b : pos_compare a b = Eq -> a = b.
Proof.
  unfold pos_compare, then_by. destruct (String.compare a.1 b.1) eqn:Hs; try done.
  apply string_compare_eq in Hs. intros Hz%Z.compare_eq. destruct a, b; simpl in *; congruence.
Qed.
Lemma pos_insert_elem p l x : x ∈ pos_insert p l -> x = p \/ x ∈ l.
Proof.
  induction l as [|q l IH]; simpl; [set_solver|]. destruct (pos_compare p q); [set_solver..|].
  intros [->|Hx]%elem_of_cons; [set_solver|]. destruct (IH Hx); set_solver.
Qed.

Section focus.
Context (c : DispatchContext) (P : string -> Value -> Prop).

(** Every selected position is a record that satisfies [P]. *)
Definition points (s : list (string * Z)) : Prop :=
  forall k i, (k, i) ∈ s -> 0 <= i /\ exists row, rows c k !! Z.to_nat i = Some row /\ P k row.

Lemma points_nil : points [].
Proof. by intros k i ?%not_elem_of_nil. Qed.
Lemma points_insert k i s row :
  0 <= i -> rows c k !! Z.to_nat i = Some row -> P k row -> points s -> points (pos_insert (k, i) s).
Proof. intros Hi Hrow HP Hs k' i' [[= -> ->]|Hin]%pos_insert_elem; [eauto|by apply Hs]. Qed.

Lemma rposition_spec {A} (p : A -> bool) (l : list A) i :
  rposition p l = Some i -> 0 <= i /\ exists x, l !! Z.to_nat i = Some x /\ p x = true.
Proof.
  unfold rposition. assert (forall j, rposition_from p j l = Some i ->
    j <= i /\ exists x, l !! Z.to_nat (i - j) = Some x /\ p x = true) as Hl.
  { induction l as [|y l IH]; intros j Hj; simpl in Hj; [done|]. destruct (rposition_from p (j + 1) l) eqn:E.
    - simplify_eq. destruct (IH _ E) as (Hle & x & Hx & Hp). split; [lia|]. exists x. split; [|done].
      replace (Z.to_nat (i - j)) with (S (Z.to_nat (i - (j + 1)))) by lia. done.
    - destruct (p y) eqn:Ey; simplify_eq. split; [lia|]. exists y. by rewrite Z.sub_diag. }
  intros Hi. destruct (Hl 0 Hi) as (? & Hx). rewrite Z.sub_0_r in Hx. done.
Qed.

Lemma latest_points kind p s :
  (forall row, p row = true -> P kind row) -> points s -> points (latest c kind p s).
Proof.
  intros Hp Hs. unfold latest. destruct (rposition p (rows c kind)) as [i|] eqn:E; [|done].
  apply rposition_spec in E as (Hi & row & Hrow & Hpr). eapply points_insert; eauto.
Qed.
Lemma enumerate_elem {A} (l : list A) i x : (i, x) ∈ enumerate l -> 0 <= i /\ l !! Z.to_nat i = Some x.
Proof.
  unfold enumerate. intros (j & y & [= -> ->] & Hy)%elem_of_lookup_imap. split; [lia|]. by rewrite Nat2Z.id.
Qed.
Lemma select_points kind p s :
  (forall row, p row = true -> P kind row) -> points s -> points (select c kind p s).
Proof.
  intros Hp. unfold select. assert (forall l, (forall e, e ∈ l -> e ∈ enumerate (rows c kind)) -> forall s,
    points s -> points (foldl (fun s row => if p row.2 then pos_insert (kind, row.1) s else s) s l)) as Hl.
  { induction l as [|[i row] l IH]; intros Hsub s' Hs; simpl; [done|]. apply IH; [set_solver|].
    destruct (p row) eqn:E; [|done]. destruct (enumerate_elem _ i row (Hsub _ (list_elem_of_here _ _))).
    eapply points_insert; eauto. }
  by apply Hl.
Qed.
Lemma select_reviews_points mine s :
  (forall row r, as_str (index (index row "payload") "reviewer_id") = Some r -> mine r = true ->
     as_str (index (index row "payload") "reviewed_head_sha") = c.(dc_head_sha) -> P "runs" row) ->
  points s -> points (select_reviews c mine s).
Proof.
  intros Hp Hs. unfold select_reviews. set (f := fun acc row => _).
  assert (forall l, (forall e, e ∈ l -> e ∈ enumerate (rows c "runs")) -> forall acc,
    points acc.1 -> points (foldl f acc l).1) as Hl.
  { induction l as [|[i row] l IH]; intros Hsub [s' seen] Ha; simpl; [done|]. apply IH; [set_solver|].
    destruct (enumerate_elem _ i row (Hsub _ (list_elem_of_here _ _))). unfold f. simpl.
    destruct (as_str _) as [r|] eqn:Er; [|done]. case_match; [|done]. bools. simpl.
    eapply points_insert; eauto. }
  apply Hl; [|done]. intros e He. by apply list_elem_of_In, in_rev, list_elem_of_In in He.
Qed.
End focus.

(** Reviewers judge independently.  The reading index of a reviewer's job
    points only at existing records; a finding it points at is the reviewer's own,
    and a run it points at is a plan, a build, or the reviewer's own review of the
    exact head. *)
Theorem reviewer_focus_is_independent (c : DispatchContext) (b : RolePolicy) (kind : string) (i : Z)
  (Hrole : independent_review b.(rp_role) = true) (Hin : (kind, i) ∈ focus c b) :
  0 <= i /\ exists row, rows c kind !! Z.to_nat i = Some row
    /\ (kind = "findings"%string -> as_str (index row "origin_role") = b.(rp_reviewer_id))
    /\ (kind = "runs"%string -> eq_str (index row "role") "planner" = true
         \/ eq_str (index row "role") "builder" = true
         \/ (as_str (index (index row "payload") "reviewer_id") = b.(rp_reviewer_id)
             /\ as_str (index (index row "payload") "reviewed_head_sha") = c.(dc_head_sha))).
Proof.
  revert kind i Hin. change (points c (fun kind row =>
    (kind = "findings"%string -> as_str (index row "origin_role") = b.(rp_reviewer_id))
    /\ (kind = "runs"%string -> eq_str (index row "role") "planner" = true
         \/ eq_str (index row "role") "builder" = true
         \/ (as_str (index (index row "payload") "reviewer_id") = b.(rp_reviewer_id)
             /\ as_str (index (index row "payload") "reviewed_head_sha") = c.(dc_head_sha)))) (focus c b)).
  unfold focus. rewrite Hrole. set (role := rp_role b) in *.
  destruct role; try done; simpl.
  all: repeat first [apply points_nil | apply select_reviews_points | apply select_points | apply latest_points].
  all: try (intros row r Hr Hm Hh); try (intros row Hr); split; try discriminate; intros _; bools; first [assumption | left; assumption | right; left; assumption | idtac].
  all: right; right; split; congruence.
Qed.

(** ** An execution *)

Definition demo_reviewer (r : WorkerRole) (id : string) : RolePolicy := {|
  rp_role := r; rp_reviewer_id := Some id; rp_review_mode := Some Required; rp_profile := id;
  rp_execution := Hermes; rp_provider := "p"; rp_model := "m"; rp_max_runtime := "1h";
  rp_priority := 1; rp_skills := ["workflow-contract"%string; role_skill_name r] |}.
Definition demo_worker (r : WorkerRole) (e : ExecutionKind) (provider : string) : RolePolicy := {|
  rp_role := r; rp_reviewer_id := None; rp_review_mode := None; rp_profile := "profile";
  rp_execution := e; rp_provider := provider; rp_model := "m"; rp_max_runtime := "1h";
  rp_priority := 1; rp_skills := ["workflow-contract"%string; role_skill_name r] |}.
Definition demo_roles : list RolePolicy :=
  [demo_worker Planner Hermes "p"; demo_worker Builder Direct "cursor";
   demo_reviewer ReviewerGeneral "general"; demo_reviewer ReviewerSecperf "secperf";
   demo_worker FinalReviewer Hermes "p"].
Definition demo_policy : WorkflowPolicy := {|
  wp_board := "board"; wp_workspace := "/work"; wp_branch_prefix := "p/";
  wp_sensitive_scope_categories := []; wp_max_provider_failures := 1;
  wp_max_hermes_attempts := None; wp_hermes_scratch_root := None; wp_isolated_reviews := true;
  wp_cargo_jobs := None; wp_roles := demo_roles |}.
Definition demo_finding (reviewer : string) : Value :=
  json_object [("origin_role", Str reviewer); ("payload_sha256", Str "00")].
Definition demo_context : DispatchContext := {|
  dc_case_id := {| repository := 1; issue := 2; workflow := 3 |}; dc_state_revision := 7;
  dc_plan_version := Some 1; dc_remediation_round := 0; dc_pr_number := Some 9;
  dc_head_sha := Some "0123456789abcdef0123456789abcdef01234567"%string;
  dc_skills_repository_commit := "s";
  dc_immutable_evidence_bundle := json_object [("records", json_object [
    ("findings", Array [demo_finding "general"; demo_finding "secperf"])])] |}.

Lemma projection_key_identifies_job_witness :
  dc_case_id demo_context = dc_case_id demo_context
  /\ worker_id (demo_reviewer ReviewerGeneral "general") = "general"%string.
Proof.
  destruct (projection_key_identifies_job demo_context demo_context
              (demo_reviewer ReviewerGeneral "general") (demo_reviewer ReviewerGeneral "general"))
    as (Hid & Hw & _); try reflexivity;
    [by (unfold wf_context, wf_case_id, is_u32, u64_max, u32_max; simpl; lia)..|].
  split; [exact Hid|reflexivity].
Defined.

Lemma one_job_per_reviewer_witness :
  exists ds, schedule_effect (H := demo_codec) "x" Fx.DispatchReviewers demo_context demo_policy = Ok ds
    /\ (2 <= length ds)%nat /\ NoDup (wd_worker_effect_id <$> ds).
Proof.
  assert (Hok : is_ok (schedule_effect (H := demo_codec) "x" Fx.DispatchReviewers demo_context demo_policy)
                = true) by (vm_compute; reflexivity).
  destruct (schedule_effect (H := demo_codec) "x" Fx.DispatchReviewers demo_context demo_policy)
    as [ds|] eqn:Hs; [|discriminate Hok].
  exists ds. split; [reflexivity|].
  destruct (one_job_per_reviewer (H := demo_codec) "x" demo_context demo_policy ds) as (_ & Hl & _ & He);
    [by vm_compute|by vm_compute|exact Hs|]. split; [exact Hl|exact He].
Defined.

Lemma reviewer_focus_is_independent_witness :
  exists row, rows demo_context "findings" !! 1%nat = Some row
    /\ as_str (index row "origin_role") = Some "secperf"%string.
Proof.
  destruct (reviewer_focus_is_independent demo_context (demo_reviewer ReviewerSecperf "secperf")
              "findings" 1) as (_ & row & Hrow & Hf & _); [reflexivity| |].
  - vm_compute. left.
  - exists row. split; [exact Hrow|]. exact (Hf eq_refl).
Defined.

(** The planner of a case just opened. *)
Definition demo_open : Store :=
  match create_case (H := demo_codec) {| nc_case_key := "repo:1#2@3"; nc_repository_id := 1;
    nc_issue_number := 2; nc_workflow_version := 3; nc_policy_revision := 1;
    nc_initial_state := "PLANNING"; nc_observed_at := 100;
    nc_event := {| ei_event_id := "e1"; ei_event_type := "ISSUE_AUTHORIZED"; ei_payload := Object [] |};
    nc_effects := [] |} empty_store with
  | Ok (_, s) => s | Err _ => empty_store
  end.
Definition demo_stored : StoredCase := {|
  sc_case_key := "repo:1#2@3"; sc_repository_id := 1; sc_issue_number := 2; sc_workflow_version := 3;
  sc_state := "PLANNING"; sc_state_revision := 1; sc_policy_revision := 1;
  sc_remediation_round := 0; sc_plan_version := 0; sc_pr_number := None; sc_head_sha := None |}.
Definition demo_claim : ClaimedEffect := {|
  ce_effect_id := "x"; ce_case_key := "repo:1#2@3"; ce_state_revision := 1;
  ce_effect_type := "DISPATCH_PLANNER"; ce_payload := Object []; ce_lease_owner := "w";
  ce_lease_until := 200 |}.

Lemma jobs_bound_to_case_witness :
  exists ds, schedule_claimed_dispatch (H := demo_codec) demo_claim demo_stored demo_open demo_policy "s" = Ok ds
    /\ length ds = 1%nat /\ forall d, d ∈ ds -> member d "case_key" = Str "repo:1#2@3".
Proof.
  assert (Hn : match schedule_claimed_dispatch (H := demo_codec) demo_claim demo_stored demo_open demo_policy "s"
               with Ok ds => length ds | Err _ => 0%nat end = 1%nat) by (vm_compute; reflexivity).
  destruct (schedule_claimed_dispatch (H := demo_codec) demo_claim demo_stored demo_open demo_policy "s")
    as [ds|] eqn:Hs; [|discriminate Hn].
  exists ds. split; [reflexivity|]. split; [exact Hn|]. intros d Hd.
  destruct (jobs_bound_to_case (H := demo_codec) demo_claim demo_stored demo_open demo_policy "s" ds d Hs Hd)
    as (_ & _ & Hk & _). exact Hk.
Defined.
