(* ===== verification/Ledger.v ===== *)
(** * Ledger: pure decisions committed through the ledger

    crates/pip-controller/src/ledger.rs.  A [WorkflowCommand] carries the case
    as its author saw it; the controller checks it against the projection,
    evaluates the pure core and hands the resulting transition, or consecutive
    transitions, to the store. *)

From S2P Require Import Prelude Text Json Domain StateMachine Revision.
From S2P Require Import Sql Tables Inputs StoreCore Control.
Open Scope Z_scope.

Record WorkflowCommand := {
  wc_case_id : CaseId;
  wc_event_id : string;
  wc_observed_at : Z;
  wc_expected_state : CaseState;
  wc_expected_state_revision : Z;
  wc_accepted_policy_revision : Z;
  wc_remediation_round : Z;
  wc_plan_version : option Z;
  wc_pr_number : option Z;
  wc_head_sha : option string;
  wc_event : Event;
  wc_accepted_plan_version : option Z;
  wc_next_pr_number : option Z;
  wc_next_head_sha : option string;
  wc_event_payload : Value;
  wc_run : option RunInput;
  wc_evidence : list EvidenceInput;
  wc_findings : list FindingInput;
}.

Inductive ControllerError :=
| InvalidCommand (message : string)
| CoreError (e : CommandError)
| LedgerError (e : StoreError).

(** [plan_version.map_or(0, PlanVersion::get)]. *)
Definition plan_or_zero (o : option Z) : Z := default 0 o.

Definition effect_name (f : Effect) : string :=
  match f with
  | Fx.DispatchPlanner => "DISPATCH_PLANNER"
  | Fx.PublishPlan => "PUBLISH_PLAN"
  | Fx.DispatchBuilder => "DISPATCH_BUILDER"
  | Fx.PublishDraftPullRequest => "PUBLISH_DRAFT_PULL_REQUEST"
  | Fx.ObserveCi => "OBSERVE_CI"
  | Fx.DispatchReviewers => "DISPATCH_REVIEWERS"
  | Fx.PublishReviews => "PUBLISH_REVIEWS"
  | Fx.ObserveFinalPreflight => "OBSERVE_FINAL_PREFLIGHT"
  | Fx.DispatchFinalReviewer => "DISPATCH_FINAL_REVIEWER"
  | Fx.HoldForHuman => "HOLD_FOR_HUMAN"
  | Fx.NotifyShadowReady => "NOTIFY_SHADOW_READY"
  | Fx.BeginMerge => "BEGIN_MERGE"
  | Fx.ExecuteMerge => "EXECUTE_MERGE"
  | Fx.RecordCompletion => "RECORD_COMPLETION"
  | Fx.RecordAbandonment => "RECORD_ABANDONMENT"
  | Fx.RecordBlock => "RECORD_BLOCK"
  | Fx.RecordTakeover => "RECORD_TAKEOVER"
  | Fx.Escalate => "ESCALATE"
  end.

(** ** Validation *)

Definition validate_workflow_shape (w : WorkflowCommand) : result ControllerError () :=
  err_if (negb (is_object w.(wc_event_payload)))
    (InvalidCommand "workflow event payload must be an object");;
  err_if (xorb (is_some w.(wc_pr_number)) (is_some w.(wc_head_sha))
          || (is_some w.(wc_next_pr_number) && is_none w.(wc_next_head_sha)))
    (InvalidCommand "pull request and exact head bindings must be complete").

(** The stored projection agrees with everything the command was built from. *)
Definition matches_projection (stored : StoredCase) (w : WorkflowCommand) : bool :=
  String.eqb stored.(sc_state) (CaseState_to_string w.(wc_expected_state))
  && (stored.(sc_policy_revision) =? w.(wc_accepted_policy_revision))
  && (stored.(sc_remediation_round) =? w.(wc_remediation_round))
  && (stored.(sc_plan_version) =? plan_or_zero w.(wc_plan_version))
  && bool_decide (stored.(sc_pr_number) = w.(wc_pr_number))
  && bool_decide (stored.(sc_head_sha) = w.(wc_head_sha)).

Definition validate_workflow (s : Store) (w : WorkflowCommand) : result ControllerError () :=
  validate_workflow_shape w;;
  stored ← ok_or (query_case s (case_key w.(wc_case_id))) (InvalidCommand "case is not in the ledger");
  err_if ((stored.(sc_state_revision) =? w.(wc_expected_state_revision))
          && negb (matches_projection stored w))
    (InvalidCommand "workflow command does not match the ledger projection").

Definition validate_consecutive (previous : TransitionInput) (w : WorkflowCommand)
  : result ControllerError () :=
  expected_revision ← ok_or (checked_add u64_max previous.(ti_expected_revision) 1)
                        (InvalidCommand "workflow revision overflow");
  err_if (negb (String.eqb (case_key w.(wc_case_id)) previous.(ti_case_key))
          || negb (w.(wc_expected_state_revision) =? expected_revision)
          || negb (String.eqb (CaseState_to_string w.(wc_expected_state)) previous.(ti_next_state))
          || negb (w.(wc_remediation_round) =? previous.(ti_remediation_round))
          || negb (plan_or_zero w.(wc_plan_version) =? previous.(ti_plan_version))
          || negb (bool_decide (w.(wc_pr_number) = previous.(ti_pr_number)))
          || negb (bool_decide (w.(wc_head_sha) = previous.(ti_head_sha))))
    (InvalidCommand "workflow batch is not consecutive").

(** ** The transition a command stands for *)

Definition resume_target (w : WorkflowCommand) : result ControllerError (option CaseState) :=
  if negb (bool_decide (w.(wc_event) = Ev.HumanResumed)) then Ok None
  else match as_str (index w.(wc_event_payload) "resume_target") with
       | Some text => match CaseState_from_str text with
                      | Ok state => Ok (Some state)
                      | Err _ => Err (InvalidCommand "a resume names its target state")
                      end
       | None => Err (InvalidCommand "a resume names its target state")
       end.

Definition next_plan_version (w : WorkflowCommand) : result ControllerError Z :=
  let current := plan_or_zero w.(wc_plan_version) in
  match w.(wc_accepted_plan_version) with
  | Some accepted =>
      if accepted =? saturating_add u32_max current 1 then Ok accepted
      else Err (InvalidCommand "accepted plan version is not the next version")
  | None =>
      if bool_decide (w.(wc_event) = Ev.Proceed)
      then Err (InvalidCommand "planner proceed requires an accepted plan version")
      else Ok current
  end.

Definition next_head_binding (w : WorkflowCommand)
  : result ControllerError (option Z * option string) :=
  if bool_decide (w.(wc_event) = Ev.ReviewReady) then
    head ← ok_or w.(wc_next_head_sha)
             (InvalidCommand "review-ready builder result requires a new exact head");
    pr ← ok_or (match w.(wc_next_pr_number) with Some n => Some n | None => w.(wc_pr_number) end)
           (InvalidCommand "review-ready builder result requires a pull request");
    err_if (match w.(wc_pr_number) with Some current => negb (current =? pr) | None => false end)
      (InvalidCommand "builder cannot replace the case pull request");;
    Ok (Some pr, Some head)
  else
    err_if (is_some w.(wc_next_pr_number) || is_some w.(wc_next_head_sha))
      (InvalidCommand "only review-ready builder evidence may change the exact head");;
    Ok (w.(wc_pr_number), w.(wc_head_sha)).

(** A round is spent when work returns to the builder, never by a resume. *)
Definition next_remediation_round (w : WorkflowCommand) (next : CaseState)
  : result ControllerError Z :=
  if bool_decide (next = State.Remediating)
     && negb (bool_decide (w.(wc_expected_state) = State.Remediating))
     && negb (bool_decide (w.(wc_event) = Ev.HumanResumed))
  then ok_or (checked_add u32_max w.(wc_remediation_round) 1)
         (InvalidCommand "remediation round exhausted")
  else Ok w.(wc_remediation_round).

Definition snapshot_of (w : WorkflowCommand) : CaseSnapshot := {|
  cs_case_id := w.(wc_case_id);
  cs_state := w.(wc_expected_state);
  cs_state_revision := w.(wc_expected_state_revision);
  cs_policy_revision := w.(wc_accepted_policy_revision);
  cs_remediation_round := w.(wc_remediation_round);
|}.

Definition command_of (w : WorkflowCommand) (target : option CaseState) : CaseCommand := {|
  cc_case_id := w.(wc_case_id);
  cc_event_id := w.(wc_event_id);
  cc_observed_at := w.(wc_observed_at);
  cc_expected_state_revision := w.(wc_expected_state_revision);
  cc_accepted_policy_revision := w.(wc_accepted_policy_revision);
  cc_event := w.(wc_event);
  cc_resume_target := target;
|}.

Definition effect_input (w : WorkflowCommand) (to_revision round plan : Z) (pr : option Z)
    (head : option string) (i : nat) (f : Effect) : EffectInput := {|
  fi_effect_id := "effect-" +:+ w.(wc_event_id) +:+ "-" +:+ to_ascii_lowercase (effect_name f)
                    +:+ "-" +:+ show (Z.of_nat i + 1);
  fi_effect_type := effect_name f;
  fi_payload := json_object [
    ("case_key", Str (case_key w.(wc_case_id))); ("state_revision", Number to_revision);
    ("effect", Str (effect_name f)); ("remediation_round", Number round);
    ("plan_version", Number plan); ("pr_number", opt_number pr); ("head_sha", opt_str head)];
|}.

Definition transition_input (policy : CasePolicy) (w : WorkflowCommand)
  : result ControllerError TransitionInput :=
  target ← resume_target w;
  evaluated ← map_err CoreError (evaluate_case_command (snapshot_of w) (command_of w target) policy);
  plan ← next_plan_version w;
  let next := next_state (cd_transition evaluated) in
  round ← next_remediation_round w next;
  '(pr, head) ← next_head_binding w;
  Ok {| ti_case_key := case_key w.(wc_case_id);
        ti_expected_revision := w.(wc_expected_state_revision);
        ti_next_state := CaseState_to_string next;
        ti_remediation_round := round;
        ti_plan_version := plan;
        ti_pr_number := pr;
        ti_head_sha := head;
        ti_observed_at := w.(wc_observed_at);
        ti_event := {| ei_event_id := w.(wc_event_id);
                       ei_event_type := Event_to_string w.(wc_event);
                       ei_payload := w.(wc_event_payload) |};
        ti_run := w.(wc_run);
        ti_evidence := w.(wc_evidence);
        ti_findings := w.(wc_findings);
        ti_effects := imap (effect_input w (cd_to_revision evaluated) round plan pr head)
                        (effects (cd_transition evaluated)) |}.

(** ** LedgerController *)

Section controller.
Context `{Codec}.

(** The case's budget includes the rounds humans granted on resume. *)
Definition effective_policy (s : Store) (policy : CasePolicy) (w : WorkflowCommand)
  : result ControllerError CasePolicy :=
  granted ← map_err LedgerError (granted_remediation_rounds (case_key w.(wc_case_id)) s);
  rounds ← ok_or (checked_add u32_max policy.(cp_max_remediation_rounds) granted)
             (InvalidCommand "remediation budget overflow");
  Ok {| cp_revision := policy.(cp_revision); cp_merge_mode := policy.(cp_merge_mode);
        cp_max_remediation_rounds := rounds |}.

Fixpoint batch_inputs (policy : CasePolicy) (previous : option TransitionInput)
    (workflows : list WorkflowCommand) : result ControllerError (list TransitionInput) :=
  match workflows with
  | [] => Ok []
  | w :: rest =>
      validate_workflow_shape w;;
      match previous with Some p => validate_consecutive p w | None => Ok () end;;
      input ← transition_input policy w;
      inputs ← batch_inputs policy (Some input) rest;
      Ok (input :: inputs)
  end.

End controller.

Module LedgerController.
Section methods.
Context `{Codec}.

Definition apply (policy : CasePolicy) (w : WorkflowCommand) (s : Store)
  : result ControllerError (ApplyResult * Store) :=
  validate_workflow s w;;
  policy ← effective_policy s policy w;
  input ← transition_input policy w;
  map_err LedgerError (apply_transition input None s).

Definition apply_batch (policy : CasePolicy) (workflows : list WorkflowCommand) (s : Store)
  : result ControllerError (ApplyResult * Store) :=
  first ← ok_or (head workflows) (InvalidCommand "at least one workflow command is required");
  validate_workflow s first;;
  policy ← effective_policy s policy first;
  inputs ← batch_inputs policy None workflows;
  map_err LedgerError (apply_transition_batch inputs None s).
End methods.
End LedgerController.
