(* ===== verification/Results.v ===== *)
(** * Results: ingestion of worker results

    crates/pip-controller/src/results.rs.  A validated result bound to its job
    becomes one ledger transition (two for the first build), whose event is the
    result's outcome; required reviews of one head are joined. *)

From S2P Require Import Prelude Text Json Contracts RolePolicy Domain StateMachine Revision.
From S2P Require Import Sql Tables Inputs StoreCore Records Ledger.
Open Scope Z_scope.

Inductive IngestResult :=
| IngestApplied (transition_count : Z)
| IngestReplayed.

(** The text of a serde error is not modelled. *)
Inductive IngestError :=
| ContractFailed (e : ContractError)
| StoreFailed (e : StoreError)
| ControllerFailed (e : ControllerError)
| InvalidBinding
| InvalidState
| ConflictingRun
| ConflictingReviews
| Serialization.

Record MappedEvent := {
  me_event : Event;
  me_accepted_plan_version : option Z;
  me_next_pr_number : option Z;
  me_next_head_sha : option string;
}.
Definition mapped (event : Event) (plan pr : option Z) (head : option string) : MappedEvent :=
  {| me_event := event; me_accepted_plan_version := plan; me_next_pr_number := pr;
     me_next_head_sha := head |}.

(** ** Bindings *)

Definition validate_review_policy_binding (p : WorkflowPolicy) (b : WorkerBinding)
  : result IngestError () :=
  if negb (is_reviewer b.(wb_role)) then Ok () else
  err_if (negb (bool_decide (b.(wb_review_mode) = Some Required))) InvalidBinding;;
  id ← ok_or b.(wb_reviewer_id) InvalidBinding;
  configured ← map_err (fun _ => InvalidBinding) (reviewer p id);
  err_if (negb (bool_decide (configured.(rp_role) = b.(wb_role)))
          || negb (bool_decide (configured.(rp_review_mode) = b.(wb_review_mode)))
          || negb (String.eqb (configured.(rp_provider) +:+ "/" +:+ configured.(rp_model))
                     b.(wb_requested_model))) InvalidBinding.

Definition validate_case_binding (c : StoredCase) (b : WorkerBinding) (policy : CasePolicy)
  : result IngestError () :=
  err_if (negb (c.(sc_repository_id) =? b.(wb_case).(repository_id))
          || negb (c.(sc_issue_number) =? b.(wb_case).(issue_number))
          || negb (c.(sc_workflow_version) =? b.(wb_case).(workflow_version))
          || negb (c.(sc_policy_revision) =? policy.(cp_revision))) InvalidBinding.

Definition case_id (b : WorkerBinding) : result IngestError CaseId :=
  r ← ok_or (nonzero b.(wb_case).(repository_id)) InvalidBinding;
  i ← ok_or (nonzero b.(wb_case).(issue_number)) InvalidBinding;
  w ← ok_or (nonzero b.(wb_case).(workflow_version)) InvalidBinding;
  Ok {| repository := r; issue := i; workflow := w |}.

(** ** Joining the required reviews of one head *)

Definition same_target (a b : ReviewResult) : bool :=
  (a.(rv_plan_version) =? b.(rv_plan_version)) && (a.(rv_review_round) =? b.(rv_review_round))
  && (a.(rv_pr_number) =? b.(rv_pr_number))
  && String.eqb a.(rv_reviewed_head_sha) b.(rv_reviewed_head_sha).

(** The stored reviews of the same plan, round, pull request and head. *)
Fixpoint matching_reviews (current : ReviewResult) (runs : list StoredRun)
  : result IngestError (list ReviewResult) :=
  match runs with
  | [] => Ok []
  | stored :: runs =>
      parsed ← ok_or (decode stored.(sr_payload)) Serialization;
      rest ← matching_reviews current runs;
      match parsed with
      | ReviewR previous => if same_target previous current then Ok (previous :: rest) else Ok rest
      | _ => Ok rest
      end
  end.

Definition has_outcome (o : ReviewOutcome.t) (r : ReviewResult) : bool :=
  bool_decide (r.(rv_outcome) = o).
Definition joinable (r : ReviewResult) : bool :=
  has_outcome ReviewOutcome.Approve r || has_outcome ReviewOutcome.RequestChanges r.

(** The reviewers whose verdicts the join needs; [None] without a policy means
    that one of the two lanes has not reported. *)
Definition required_ids (policy : option WorkflowPolicy) (matching : list ReviewResult)
  : result IngestError (option (list string)) :=
  match policy with
  | Some p => Some <$> try_map (fun r => ok_or r.(rp_reviewer_id) InvalidBinding) (required_reviewers p)
  | None =>
      match List.find (fun r => bool_decide (Contracts.role r.(rv_common) = ReviewerGeneral)) matching,
            List.find (fun r => bool_decide (Contracts.role r.(rv_common) = ReviewerSecperf)) matching with
      | Some general, Some secperf => Ok (Some [general.(rv_reviewer_id); secperf.(rv_reviewer_id)])
      | _, _ => Ok None
      end
  end.

Definition join_verdict (required : list string) (matching : list ReviewResult)
  : result IngestError Event :=
  let observed := rv_reviewer_id <$> matching in
  if negb (forallb (fun id => one_of observed id) required) then Ok Ev.ReviewRecorded else
  err_if (existsb (fun id => negb (one_of required id)) observed
          || existsb (fun r => negb (joinable r)) matching) ConflictingReviews;;
  Ok (if existsb (has_outcome ReviewOutcome.RequestChanges) matching
      then Ev.RequestChanges else Ev.ReviewsApproved).

(** ** Building the command *)

Definition builder_event (o : BuilderOutcome.t) : Event :=
  match o with
  | BuilderOutcome.ReviewReady => Ev.BuildRecorded
  | BuilderOutcome.ReturnToPlanning => Ev.ReturnToPlanning
  | BuilderOutcome.Blocked => Ev.Blocked
  | BuilderOutcome.Abandon => Ev.Abandon
  | BuilderOutcome.BlockedUnexpectedModel => Ev.BlockedUnexpectedModel
  end.
Definition final_event_of (o : FinalOutcome.t) : Event :=
  match o with
  | FinalOutcome.Ready => Ev.Ready
  | FinalOutcome.ReturnToBuild => Ev.ReturnToBuild
  | FinalOutcome.ReturnToReview => Ev.ReturnToReview
  | FinalOutcome.ReturnToPlanning => Ev.ReturnToPlanning
  | FinalOutcome.WaitForIssueCreator => Ev.WaitForIssueCreator
  | FinalOutcome.Blocked => Ev.Blocked
  | FinalOutcome.Abandon => Ev.Abandon
  | FinalOutcome.BlockedUnexpectedModel => Ev.BlockedUnexpectedModel
  end.

Definition findings_of (r : WorkerResult) : list FindingInput :=
  match r with
  | ReviewR r => map (fun f => {| ni_finding_id := f.(bf_id); ni_origin_role := r.(rv_reviewer_id);
                                  ni_reviewed_head_sha := r.(rv_reviewed_head_sha);
                                  ni_payload := Contracts.ser_finding f |}) r.(rv_blocking_findings)
  | _ => []
  end.

Definition next_binding (pr : option Z) (head : option string) : option (Z * string) :=
  match pr, head with Some pr, Some head => Some (pr, head) | _, _ => None end.

(** [and_then(NonZeroU64::new)]. *)
Definition and_nonzero (o : option Z) : option Z := o ≫= nonzero.
(** [as_deref().map(GitSha::from_str).transpose()]. *)
Definition parse_sha (o : option string) (e : IngestError) : result IngestError (option string) :=
  match o with
  | None => Ok None
  | Some text => map_err (fun _ => e) (Some <$> GitSha_from_str text)
  end.

Definition workflow_command (c : StoredCase) (id : CaseId) (event : Event) (event_id : string)
    (observed_at : Z) (payload : Value) (run : option RunInput) (plan : option Z)
    (next : option (Z * string)) (evidence : list EvidenceInput)
  : result IngestError WorkflowCommand :=
  event_id ← map_err (fun _ => InvalidBinding) (EventId_from_str event_id);
  expected_state ← map_err (fun _ => InvalidState) (CaseState_from_str c.(sc_state));
  revision ← ok_or (nonzero c.(sc_state_revision)) InvalidState;
  policy_revision ← ok_or (nonzero c.(sc_policy_revision)) InvalidState;
  head ← parse_sha c.(sc_head_sha) InvalidState;
  next_head ← parse_sha (snd <$> next) InvalidBinding;
  Ok {| wc_case_id := id; wc_event_id := event_id; wc_observed_at := observed_at;
        wc_expected_state := expected_state; wc_expected_state_revision := revision;
        wc_accepted_policy_revision := policy_revision;
        wc_remediation_round := c.(sc_remediation_round);
        wc_plan_version := nonzero c.(sc_plan_version);
        wc_pr_number := and_nonzero c.(sc_pr_number); wc_head_sha := head; wc_event := event;
        wc_accepted_plan_version := and_nonzero plan;
        wc_next_pr_number := and_nonzero (fst <$> next); wc_next_head_sha := next_head;
        wc_event_payload := payload; wc_run := run; wc_evidence := evidence; wc_findings := [] |}.

Section results.
Context `{Codec}.

Definition join_review (s : Store) (c : StoredCase) (policy : option WorkflowPolicy)
    (current : ReviewResult) : result IngestError Event :=
  stored ← map_err StoreFailed (current_review_runs_for_case c.(sc_case_key) s);
  matching ← matching_reviews current stored;
  err_if (existsb (fun prior => String.eqb prior.(rv_reviewer_id) current.(rv_reviewer_id)) matching)
    ConflictingReviews;;
  let matching := matching ++ [current] in
  required ← required_ids policy matching;
  match required with
  | None => Ok Ev.ReviewRecorded
  | Some required => join_verdict required matching
  end.

Definition map_event (s : Store) (c : StoredCase) (policy : option WorkflowPolicy) (r : WorkerResult)
  : result IngestError MappedEvent :=
  match r with
  | PlannerR r =>
      if String.eqb c.(sc_state) "PLANNING" then
        Ok (mapped (if bool_decide (r.(pl_outcome) = PlannerOutcome.BlockedUnexpectedModel)
                    then Ev.BlockedUnexpectedModel else Ev.PlanRecorded) None None None)
      else Err InvalidState
  | BuilderR r =>
      if one_of ["BUILDING"; "REMEDIATING"] c.(sc_state)
      then Ok (mapped (builder_event r.(bu_outcome)) None None None)
      else Err InvalidState
  | ReviewR r =>
      if String.eqb c.(sc_state) "REVIEWING" then
        event ← match r.(rv_outcome) with
                | ReviewOutcome.Blocked => Ok Ev.Blocked
                | ReviewOutcome.BlockedUnexpectedModel => Ok Ev.BlockedUnexpectedModel
                | ReviewOutcome.Approve | ReviewOutcome.RequestChanges => join_review s c policy r
                end;
        Ok (mapped event None None None)
      else Err InvalidState
  | FinalR r =>
      if String.eqb c.(sc_state) "FINAL_REVIEW"
         && bool_decide (latest_event_type c.(sc_case_key) s = Some "FINAL_PREFLIGHT_ACCEPTED"%string)
      then Ok (mapped (final_event_of r.(fi_outcome)) None None None)
      else Err InvalidState
  end.

(** [result_event_id]: the digest keeps the identifier a slug. *)
Definition result_event_id (kind task_id : string) : string :=
  "event-" +:+ kind +:+ "-" +:+ hash_bytes task_id.

Definition with_findings (w : WorkflowCommand) (f : list FindingInput) : WorkflowCommand := {|
  wc_case_id := w.(wc_case_id); wc_event_id := w.(wc_event_id);
  wc_observed_at := w.(wc_observed_at); wc_expected_state := w.(wc_expected_state);
  wc_expected_state_revision := w.(wc_expected_state_revision);
  wc_accepted_policy_revision := w.(wc_accepted_policy_revision);
  wc_remediation_round := w.(wc_remediation_round); wc_plan_version := w.(wc_plan_version);
  wc_pr_number := w.(wc_pr_number); wc_head_sha := w.(wc_head_sha); wc_event := w.(wc_event);
  wc_accepted_plan_version := w.(wc_accepted_plan_version);
  wc_next_pr_number := w.(wc_next_pr_number); wc_next_head_sha := w.(wc_next_head_sha);
  wc_event_payload := w.(wc_event_payload); wc_run := w.(wc_run);
  wc_evidence := w.(wc_evidence); wc_findings := f |}.

Definition result_run (b : WorkerBinding) (payload : Value) : RunInput := {|
  ri_run_id := "run-" +:+ b.(wb_task_id); ri_task_id := b.(wb_task_id);
  ri_role := role_name b.(wb_role); ri_payload := payload |}.
Definition result_evidence (b : WorkerBinding) (r : WorkerResult) : EvidenceInput := {|
  vi_evidence_id := "evidence-worker-" +:+ b.(wb_task_id); vi_kind := "WORKER_RESULT_EVIDENCE";
  vi_source := b.(wb_task_id); vi_payload := Object (Contracts.evidence (common r)) |}.

Definition result_workflow (s : Store) (c : StoredCase) (id : CaseId)
    (policy : option WorkflowPolicy) (b : WorkerBinding) (r : WorkerResult) (payload : Value)
  : result IngestError WorkflowCommand :=
  m ← map_event s c policy r;
  w ← workflow_command c id m.(me_event) (result_event_id "result" b.(wb_task_id))
        (completed_at_unix (common r)) payload (Some (result_run b payload))
        m.(me_accepted_plan_version) (next_binding m.(me_next_pr_number) m.(me_next_head_sha))
        [result_evidence b r];
  Ok (with_findings w (findings_of r)).

(** The case after the synthetic dispatch of its first build. *)
Definition building (c : StoredCase) (revision : Z) : StoredCase := {|
  sc_case_key := c.(sc_case_key); sc_repository_id := c.(sc_repository_id);
  sc_issue_number := c.(sc_issue_number); sc_workflow_version := c.(sc_workflow_version);
  sc_state := "BUILDING"; sc_state_revision := revision;
  sc_policy_revision := c.(sc_policy_revision); sc_remediation_round := c.(sc_remediation_round);
  sc_plan_version := c.(sc_plan_version); sc_pr_number := c.(sc_pr_number);
  sc_head_sha := c.(sc_head_sha) |}.

Definition is_builder (r : WorkerResult) : bool := match r with BuilderR _ => true | _ => false end.

Definition ingest_worker_result_inner (policy : CasePolicy) (workflow_policy : option WorkflowPolicy)
    (b : WorkerBinding) (r : WorkerResult) (s : Store) : result IngestError (IngestResult * Store) :=
  map_err ContractFailed (validate_binding r b);;
  match workflow_policy with Some p => validate_review_policy_binding p b | None => Ok () end;;
  let payload := encode_result r in
  existing ← map_err StoreFailed (run_by_task_id b.(wb_task_id) s);
  match existing with
  | Some run =>
      id ← case_id b;
      if String.eqb run.(sr_case_key) (case_key id)
         && String.eqb run.(sr_role) (role_name b.(wb_role))
         && bool_decide (run.(sr_payload) = payload)
      then Ok (IngestReplayed, s) else Err ConflictingRun
  | None =>
      id ← case_id b;
      stored ← ok_or (query_case s (case_key id)) InvalidBinding;
      validate_case_binding stored b policy;;
      if is_builder r && String.eqb stored.(sc_state) "READY_TO_BUILD" then
        synthetic ← workflow_command stored id Ev.BuilderDispatched
          (result_event_id "dispatch" b.(wb_task_id)) (started_at_unix (common r))
          (json_object [("task_id", Str b.(wb_task_id)); ("role", Str "builder")])
          None None None [];
        revision ← ok_or (checked_add u64_max stored.(sc_state_revision) 1) InvalidState;
        command ← result_workflow s (building stored revision) id workflow_policy b r payload;
        '(_, s) ← map_err ControllerFailed (LedgerController.apply_batch policy [synthetic; command] s);
        Ok (IngestApplied 2, s)
      else
        command ← result_workflow s stored id workflow_policy b r payload;
        '(_, s) ← map_err ControllerFailed (LedgerController.apply policy command s);
        Ok (IngestApplied 1, s)
  end.

Definition ingest_worker_result (policy : CasePolicy) (b : WorkerBinding) (r : WorkerResult) :=
  ingest_worker_result_inner policy None b r.
Definition ingest_worker_result_with_policy (policy : CasePolicy) (p : WorkflowPolicy)
    (b : WorkerBinding) (r : WorkerResult) := ingest_worker_result_inner policy (Some p) b r.
End results.
