(* ===== verification/System.v ===== *)
(** * System: the controller and the ledger together

    Cases are opened by intake, reopened by a fresh authorization, and moved
    only by the ledger controller; every other method of the store leaves cases
    and events alone.  [system_step] is one such call.  The file shows that the
    event history of the ledger is then a simulation of the pure state machine
    and draws the consequences for the whole program. *)

From S2P Require Import Prelude Text Json Domain StateMachine Revision Sql Tables Inputs.
From S2P Require Import Frozen Recovery StoreCore Outbox Attempts Control Records.
From S2P Require Import History Frames Steps Invariants Ledger.
From stdpp Require Import relations.
Open Scope Z_scope.

(** The ranges of the Rust types of a command. *)
Definition in_opt (lo hi : Z) (o : option Z) : Prop :=
  match o with Some n => lo <= n <= hi | None => True end.
Definition wf_command (w : WorkflowCommand) : Prop :=
  1 <= w.(wc_expected_state_revision) <= u64_max /\ is_u64 w.(wc_observed_at)
  /\ is_u32 w.(wc_remediation_round) /\ in_opt 1 u32_max w.(wc_plan_version)
  /\ in_opt 1 u64_max w.(wc_pr_number) /\ in_opt 1 u32_max w.(wc_accepted_plan_version)
  /\ in_opt 1 u64_max w.(wc_next_pr_number).

Section system.
Context `{Codec}.

Inductive system_step (s s' : Store) : Prop :=
| sys_apply policy w r :
    wf_command w -> LedgerController.apply policy w s = Ok (r, s') -> system_step s s'
| sys_apply_batch policy ws r :
    Forall wf_command ws -> LedgerController.apply_batch policy ws s = Ok (r, s') -> system_step s s'
| sys_intake i r :
    wf_new_case i -> i.(nc_initial_state) = CaseState_to_string State.Planning ->
    i.(nc_event).(ei_event_type) = "ISSUE_AUTHORIZED"%string ->
    create_case i s = Ok (r, s') -> system_step s s'
| sys_reauthorize i r :
    wf_transition i -> i.(ti_event).(ei_event_type) = "ISSUE_REAUTHORIZED"%string ->
    apply_transition i None s = Ok (r, s') -> system_step s s'
| sys_repair k u : repair_case_projection k s = Ok (u, s') -> system_step s s'
| sys_other : store_step s s' -> quiet s s' -> system_step s s'.

Definition system_reachable (s : Store) : Prop := rtc system_step empty_store s.

(** ** What a command decides *)

(** The context in which a command is evaluated. *)
Definition core_context (policy : CasePolicy) (w : WorkflowCommand) (target : option CaseState)
  : TransitionContext := {|
  remediation_round := w.(wc_remediation_round);
  max_remediation_rounds := policy.(cp_max_remediation_rounds);
  merge_mode := policy.(cp_merge_mode);
  StateMachine.resume_target := target;
|}.

Lemma transition_input_inv policy w i :
  transition_input policy w = Ok i ->
  exists target d to round plan pr head,
    resume_target w = Ok target
    /\ transition w.(wc_expected_state) w.(wc_event) (core_context policy w target) = Ok d
    /\ cp_revision policy = w.(wc_accepted_policy_revision)
    /\ next_plan_version w = Ok plan /\ next_remediation_round w (next_state d) = Ok round
    /\ next_head_binding w = Ok (pr, head)
    /\ i = {| ti_case_key := case_key w.(wc_case_id);
              ti_expected_revision := w.(wc_expected_state_revision);
              ti_next_state := CaseState_to_string (next_state d); ti_remediation_round := round;
              ti_plan_version := plan; ti_pr_number := pr; ti_head_sha := head;
              ti_observed_at := w.(wc_observed_at);
              ti_event := {| ei_event_id := w.(wc_event_id);
                             ei_event_type := Event_to_string w.(wc_event);
                             ei_payload := w.(wc_event_payload) |};
              ti_run := w.(wc_run); ti_evidence := w.(wc_evidence); ti_findings := w.(wc_findings);
              ti_effects := imap (effect_input w to round plan pr head) (effects d) |}.
Proof.
  unfold transition_input. intros Ht. open_ok.
  rename select (evaluate_case_command _ _ _ = _) into He. unfold evaluate_case_command in He.
  open_ok. bools. repeat match goal with x : _ * _ |- _ => destruct x end. open_ok.
  simplify_eq/=. by repeat eexists; eauto.
Qed.

(** ** Events as steps of the state machine *)

Definition precedes (e e' : EventRow) : Prop :=
  e.(e_case_key) = e'.(e_case_key) /\ e'.(e_state_revision) = e.(e_state_revision) + 1
  /\ e'.(e_previous_state) = Some e.(e_next_state).

Definition same_head (e e' : EventRow) : Prop :=
  e'.(e_pr_number) = e.(e_pr_number) /\ e'.(e_head_sha) = e.(e_head_sha).

(** [e'] is an accepted transition of the pure core from the state [e] entered;
    only a review-ready build binds a head, and it keeps the pull request. *)
Definition core_step (e e' : EventRow) : Prop :=
  exists st ev ctx d,
    e.(e_next_state) = CaseState_to_string st /\ transition st ev ctx = Ok d
    /\ e'.(e_event_type) = Event_to_string ev
    /\ e'.(e_next_state) = CaseState_to_string (next_state d)
    /\ remediation_round ctx = e.(e_remediation_round)
    /\ (ev <> Ev.ReviewReady -> same_head e e')
    /\ (ev = Ev.ReviewReady -> is_Some e'.(e_pr_number) /\ is_Some e'.(e_head_sha)
         /\ (e.(e_pr_number) = None \/ e'.(e_pr_number) = e.(e_pr_number)))
    /\ (e'.(e_plan_version) = e.(e_plan_version) \/ e'.(e_plan_version) = e.(e_plan_version) + 1)
    /\ (e'.(e_remediation_round) = e.(e_remediation_round)
        \/ (e'.(e_remediation_round) = e.(e_remediation_round) + 1
            /\ next_state d = State.Remediating
            /\ remediation_round ctx < max_remediation_rounds ctx)).

(** A fresh authorization reopens an abandoned case in planning. *)
Definition reopens (e e' : EventRow) : Prop :=
  e'.(e_event_type) = "ISSUE_REAUTHORIZED"%string /\ e.(e_next_state) = "ABANDONED"%string
  /\ e'.(e_next_state) = CaseState_to_string State.Planning /\ same_head e e'
  /\ e'.(e_plan_version) = e.(e_plan_version)
  /\ e'.(e_remediation_round) = e.(e_remediation_round).

Definition opens (e : EventRow) : Prop :=
  e.(e_event_type) = "ISSUE_AUTHORIZED"%string /\ e.(e_state_revision) = 1
  /\ e.(e_next_state) = CaseState_to_string State.Planning /\ e.(e_pr_number) = None
  /\ e.(e_head_sha) = None /\ e.(e_plan_version) = 0 /\ e.(e_remediation_round) = 0.

Definition explained (evs : list EventRow) (e : EventRow) : Prop :=
  opens e \/ exists e0, e0 ∈ evs /\ precedes e0 e /\ (core_step e0 e \/ reopens e0 e).

Definition history_inv (s : Store) : Prop :=
  store_inv s /\ forall e, e ∈ s.(events) -> explained s.(events) e.

Lemma explained_mono evs evs' e : (forall x, x ∈ evs -> x ∈ evs') -> explained evs e -> explained evs' e.
Proof. intros Hsub [?|(e0 & ? & ?)]; [by left|right; eauto]. Qed.

(** The last event of a case, of which its row is the projection. *)
Lemma last_event s c :
  store_inv s -> c ∈ s.(cases) ->
  exists e, e ∈ s.(events) /\ slot e = (c.(c_case_key), c.(c_state_revision))
    /\ projects e c /\ event_ranges e.
Proof.
  intros Hinv Hc. pose proof (inv_positive _ _ Hinv c Hc).
  destruct (inv_events _ _ Hinv c (c_state_revision c) Hc) as (e & He & Hs); [lia|].
  exists e. split_and!; [done..| |]; [by eapply inv_projects|by eapply inv_ranges].
Qed.

(** The projection of a reachable case is read back unchanged. *)
Lemma stored_case_id e c :
  projects e c -> event_ranges e ->
  let sc := stored_case c in
  sc.(sc_state) = e.(e_next_state) /\ sc.(sc_remediation_round) = e.(e_remediation_round)
  /\ sc.(sc_plan_version) = e.(e_plan_version) /\ sc.(sc_pr_number) = e.(e_pr_number)
  /\ sc.(sc_head_sha) = e.(e_head_sha).
Proof.
  intros (Hs & _ & Hr & Hp & Hn & Hh) (_ & Hur & Hup & Hpr). simpl.
  rewrite Hs, Hr, Hp, Hn, Hh, !u32_or_default_id by done. split_and!; try done.
  destruct (e_pr_number e) as [n|]; simpl; [|done]. f_equal. by apply unsigned_id.
Qed.

Lemma applied_history i s s' c p :
  wf_transition i -> applied i s s' c p -> history_inv s ->
  (forall e, e ∈ s.(events) -> projects e c -> event_ranges e ->
     let e' := event_row (transition_event i (stored_case c) (i.(ti_expected_revision) + 1) p) in
     core_step e e' \/ reopens e e') ->
  history_inv s'.
Proof.
  intros Hwf Ha [Hinv Hex] Hstep. split; [by eapply applied_inv|].
  destruct (applied_case_row _ _ _ _ _ Hinv Ha) as (Hin & Hk & Hrev).
  destruct (last_event _ _ Hinv Hin) as (e0 & He0 & Hslot & Hproj & Hrng).
  rewrite (ap_events _ _ _ _ _ Ha). intros e [He| ->]%elem_of_snoc.
  - eapply explained_mono; [|by apply Hex]. set_solver.
  - right. exists e0. split; [set_solver|]. split; [|by apply Hstep].
    unfold slot in Hslot. injection Hslot as Hkey Hr.
    destruct (stored_case_id _ _ Hproj Hrng) as (Hst & _).
    split_and!; simpl; [congruence|lia|by f_equal].
Qed.

(** ** Commands the controller accepts *)

Definition agreed (s : Store) (w : WorkflowCommand) : Prop :=
  forall c, find_case s (case_key w.(wc_case_id)) = Some c ->
    unsigned c.(c_state_revision) = w.(wc_expected_state_revision) ->
    let sc := stored_case c in
    sc.(sc_state) = CaseState_to_string w.(wc_expected_state)
    /\ sc.(sc_remediation_round) = w.(wc_remediation_round)
    /\ sc.(sc_plan_version) = plan_or_zero w.(wc_plan_version)
    /\ sc.(sc_pr_number) = w.(wc_pr_number) /\ sc.(sc_head_sha) = w.(wc_head_sha).

Lemma validate_workflow_agreed s w u : validate_workflow s w = Ok u -> agreed s w.
Proof.
  unfold validate_workflow. intros Hv c Hc Hr. open_ok.
  rename select (query_case _ _ = Some _) into Hq. unfold query_case in Hq. rewrite Hc in Hq.
  injection Hq as <-. rename select (_ && _ = false) into Hm.
  apply andb_false_iff in Hm as [Hm|Hm]; [apply Z.eqb_neq in Hm; contradiction|].
  apply negb_false_iff in Hm. unfold matches_projection in Hm. bools.
  repeat match goal with Hx : String.eqb _ _ = true |- _ => apply String.eqb_eq in Hx end.
  by split_and!.
Qed.

Lemma transition_input_wf policy w i :
  wf_command w -> transition_input policy w = Ok i -> wf_transition i.
Proof.
  intros (Hrev & Hat & Hround & Hplan & Hpr & Hacc & Hnext) Hi.
  apply transition_input_inv in Hi
    as (target & d & to & round & plan & pr & head & _ & _ & _ & Hp & Hr & Hh & ->).
  unfold wf_transition; simpl. split_and!; [unfold is_u64; lia| | |done|].
  - unfold next_remediation_round in Hr. case_match; inv_ok; [|done]. unfold is_u32 in *. lia.
  - unfold next_plan_version in Hp. destruct (wc_accepted_plan_version w); repeat case_match; inv_ok.
    + unfold is_u32, in_opt in *. lia.
    + destruct (wc_plan_version w); unfold is_u32, plan_or_zero, u32_max in *; simpl in *; lia.
  - unfold next_head_binding in Hh. case_match; inv_ok; unfold is_u64.
    + destruct (wc_next_pr_number w), (wc_pr_number w); simplify_eq/=; lia.
    + destruct (wc_pr_number w); simpl in *; lia.
Qed.

(** A command evaluated on the projection it names is a step of the core. *)
Lemma command_core_step policy w i c p e :
  transition_input policy w = Ok i ->
  is_u32 w.(wc_remediation_round) -> in_opt 1 u32_max w.(wc_plan_version) ->
  (let sc := stored_case c in
   sc.(sc_state) = CaseState_to_string w.(wc_expected_state)
   /\ sc.(sc_remediation_round) = w.(wc_remediation_round)
   /\ sc.(sc_plan_version) = plan_or_zero w.(wc_plan_version)
   /\ sc.(sc_pr_number) = w.(wc_pr_number) /\ sc.(sc_head_sha) = w.(wc_head_sha)) ->
  projects e c -> event_ranges e ->
  core_step e (event_row (transition_event i (stored_case c) (i.(ti_expected_revision) + 1) p)).
Proof.
  intros Hi Hround Hplan (Hs & Hr & Hp & Hn & Hh) Hproj Hrng.
  destruct (stored_case_id _ _ Hproj Hrng) as (Es & Er & Ep & En & Eh).
  apply transition_input_inv in Hi
    as (target & d & to & round & plan & pr & head & _ & Ht & _ & Hnp & Hnr & Hnh & ->).
  exists (wc_expected_state w), (wc_event w), (core_context policy w target), d. simpl.
  split_and!; try done; try congruence.
  - intros Hev. unfold next_head_binding in Hnh. rewrite bool_decide_eq_false_2 in Hnh by done.
    inv_ok. split; simpl; congruence.
  - intros Hev. unfold next_head_binding in Hnh. rewrite bool_decide_eq_true_2 in Hnh by done.
    inv_ok. split_and!; [by eexists..|]. rewrite <-En, Hn.
    destruct (wc_pr_number w); [right; bools; congruence|by left].
  - rewrite <-Ep, Hp. unfold next_plan_version in Hnp.
    destruct (wc_accepted_plan_version w); repeat case_match; inv_ok; bools; [|by left].
    unfold saturating_add in *. destruct (wc_plan_version w); unfold plan_or_zero, u32_max in *; simpl in *; lia.
  - rewrite <-Er, Hr. unfold next_remediation_round in Hnr. case_match; inv_ok; bools; [|by left].
    right. split_and!; [done..|]. eapply (into_remediating _ _ _ _ Ht); done.
Qed.

Lemma command_applied policy w i s s' c p :
  wf_command w -> transition_input policy w = Ok i -> agreed s w -> applied i s s' c p ->
  history_inv s -> history_inv s'.
Proof.
  intros Hw Hi Hag Ha Hinv. pose proof (transition_input_wf _ _ _ Hw Hi) as Hwf.
  eapply (applied_history i); [done..|]. intros e He Hproj Hrng. left.
  destruct Hw as (_ & _ & ? & ? & _). eapply command_core_step; try done.
  pose proof (ap_case _ _ _ _ _ Ha) as Hc. pose proof (ap_revision _ _ _ _ _ Ha) as Hr.
  apply transition_input_inv in Hi as (? & ? & ? & ? & ? & ? & ? & _ & _ & _ & _ & _ & _ & ->).
  by apply Hag.
Qed.

(** After a transition, the case is exactly what the transition says. *)
Lemma consecutive_agreed i s s' c p w u :
  store_inv s -> wf_transition i -> applied i s s' c p -> validate_consecutive i w = Ok u ->
  agreed s' w.
Proof.
  intros Hinv Hwf Ha Hv c' Hc' Hr. unfold validate_consecutive in Hv. open_ok. bools.
  repeat match goal with Hx : String.eqb _ _ = true |- _ => apply String.eqb_eq in Hx end.
  assert (Hinv' : store_inv s') by by eapply applied_inv.
  destruct (applied_case_row _ _ _ _ _ Hinv Ha) as (Hin & Hk & Hrev).
  apply find_case_elem in Hc' as [Hin' Hk']. rewrite (ap_cases _ _ _ _ _ Ha) in Hin'.
  eapply (update_row_inv _ _ _ c) in Hin'; [|apply Hinv|done|].
  - destruct Hin' as [-> |[_ Hne]]; [|exfalso; apply Hne; congruence]. simpl.
    destruct Hwf as (_ & ? & ? & _ & Hpr). rewrite !u32_or_default_id by done.
    split_and!; try congruence.
    destruct (ti_pr_number i); simpl; [|congruence]. rewrite unsigned_id by apply Hpr. congruence.
  - intros y Hy. rewrite andb_true_iff, String.eqb_eq, Z.eqb_eq. split; [|naive_solver].
    intros [??]. eapply key_unique; [apply Hinv|..]; congruence.
Qed.

Lemma batch_history policy ws : forall prev inputs s s',
  Forall wf_command ws -> batch_inputs policy prev ws = Ok inputs ->
  batch_transaction None inputs s = Ok s' -> history_inv s ->
  (forall w, head ws = Some w -> match prev with Some i => is_ok (validate_consecutive i w) = true
                                 | None => True end -> agreed s w) ->
  history_inv s'.
Proof.
  induction ws as [|w ws IH]; intros prev inputs s s' Hw Hb Ht Hinv Hag; simpl in Hb; [by inv_ok; inv_ok|].
  apply Forall_cons in Hw as [Hw Hws]. open_ok. subst inputs. simpl in Ht.
  apply bind_ok in Ht as (s1 & Ha & Ht). apply bind_ok in Ht as (_ & _ & Ht).
  apply apply_one_applied in Ha as (c & p & Ha).
  assert (Hagw : agreed s w).
  { apply Hag; [done|]. destruct prev; [|done].
    by match goal with Hx : validate_consecutive _ _ = Ok _ |- _ => rewrite Hx end. }
  eapply IH; [done..|by eapply command_applied|].
  intros w' _ Hok. simpl in Hok. destruct (validate_consecutive x1 w') eqn:Hv; [|done].
  eapply consecutive_agreed; [apply Hinv|by eapply transition_input_wf|done|done].
Qed.

Lemma apply_history policy w s r s' :
  wf_command w -> LedgerController.apply policy w s = Ok (r, s') -> history_inv s -> history_inv s'.
Proof.
  unfold LedgerController.apply. intros Hw Ha Hinv. open_ok.
  rename select (validate_workflow _ _ = _) into Hv. apply validate_workflow_agreed in Hv.
  unfold apply_transition, apply_transition_batch in *. open_ok.
  case_match; open_ok; simplify_eq; [done|].
  rename select (batch_transaction _ _ _ = _) into Hb. simpl in Hb. open_ok. simplify_eq.
  rename select (apply_one _ _ _ = _) into Hone. apply apply_one_applied in Hone as (c & p & Hone).
  by eapply command_applied.
Qed.

Lemma apply_batch_history policy ws s r s' :
  Forall wf_command ws -> LedgerController.apply_batch policy ws s = Ok (r, s') ->
  history_inv s -> history_inv s'.
Proof.
  unfold LedgerController.apply_batch. intros Hw Ha Hinv. open_ok.
  rename select (validate_workflow _ _ = _) into Hv. apply validate_workflow_agreed in Hv.
  unfold apply_transition_batch in *. open_ok. case_match; open_ok; simplify_eq; [done|].
  eapply (batch_history _ ws None); [done..|]. intros w Hhead _.
  assert (w = x) as -> by congruence. done.
Qed.

(** ** Intake, reauthorization and the other methods *)

Lemma create_history i s r s' :
  wf_new_case i -> i.(nc_initial_state) = CaseState_to_string State.Planning ->
  i.(nc_event).(ei_event_type) = "ISSUE_AUTHORIZED"%string ->
  create_case i s = Ok (r, s') -> history_inv s -> history_inv s'.
Proof.
  intros Hwf Hst Hty Hc [Hinv Hex]. split; [by eapply create_case_inv|].
  unfold create_case in Hc. inv_store. case_match; inv_store; [done|].
  unfold insert_case_row in *. inv_store.
  rename select (insert_event _ _ = _) into He. apply insert_event_eq in He as (-> & _).
  rename select (insert_effects _ _ _ _ _ = _) into Hx. apply insert_effects_eq in Hx as ->. simpl.
  intros e [He| ->]%elem_of_snoc.
  - eapply explained_mono; [|by apply Hex]. set_solver.
  - left. by split_and!.
Qed.

Lemma eligible_abandoned s k label removal :
  eligible s k label removal = Ok true ->
  exists c, c ∈ s.(cases) /\ c.(c_case_key) = k /\ c.(c_state) = "ABANDONED"%string.
Proof.
  unfold eligible. intros He. open_store.
  rename select (try_exists _ _ = _) into Hx. apply try_exists_true in Hx as (c & Hc & Hx).
  apply and_then_true in Hx as [Hx _]. apply andb_true_iff in Hx as [Hk Hs].
  apply String.eqb_eq in Hk, Hs. eauto.
Qed.

Lemma reauthorize_history i s r s' :
  wf_transition i -> i.(ti_event).(ei_event_type) = "ISSUE_REAUTHORIZED"%string ->
  apply_transition i None s = Ok (r, s') -> history_inv s -> history_inv s'.
Proof.
  intros Hwf Hty Ha Hinv. unfold apply_transition, apply_transition_batch in Ha. open_ok.
  case_match; open_ok; simplify_eq; [done|].
  rename select (batch_transaction _ _ _ = _) into Hb. simpl in Hb. open_ok. simplify_eq.
  rename select (apply_one _ _ _ = _) into Hone. apply apply_one_applied in Hone as (c & p & Hone).
  eapply (applied_history i); [done..|]. intros e He Hproj Hrng. right.
  destruct (stored_case_id _ _ Hproj Hrng) as (Es & Er & Ep & En & Eh).
  destruct (ap_authorized _ _ _ _ _ Hone) as [s1 Hauth]. unfold authorize_event in Hauth.
  rewrite Hty in Hauth. cbn [String.eqb Ascii.eqb Bool.eqb] in Hauth.
  unfold reauthorization_validate in Hauth. open_ok. bools.
  repeat match goal with Hx : String.eqb _ _ = true |- _ => apply String.eqb_eq in Hx end.
  rename select (eligible _ _ _ _ = _) into Hel. subst.
  apply eligible_abandoned in Hel as (c' & Hc' & Hk' & Hs').
  destruct (find_case_elem _ _ _ (ap_case _ _ _ _ _ Hone)) as [Hin Hk].
  assert (c' = c) as -> by (eapply key_unique; [apply Hinv|done..]).
  unfold same in *. bools. split_and!; simpl in *; try congruence.
  split; simpl; congruence.
Qed.

Lemma system_step_history s s' : system_step s s' -> history_inv s -> history_inv s'.
Proof.
  intros [policy w r|policy ws r|i r|i r|k u|Hs (_ & Hc & He)] Hinv;
    eauto using apply_history, apply_batch_history, create_history, reauthorize_history.
  - split; [eapply repair_inv; [done|apply Hinv]|]. destruct Hinv as [_ Hex].
    match goal with Hx : repair_case_projection _ _ = _ |- _ => apply repair_eq in Hx as (? & _ & ->) end.
    done.
  - destruct Hinv as [Hi Hex]. split; [|by rewrite He]. unfold store_inv. by rewrite Hc, He.
Qed.

Lemma system_steps_history s s' : rtc system_step s s' -> history_inv s -> history_inv s'.
Proof. induction 1; eauto using system_step_history. Qed.
Lemma system_history s : system_reachable s -> history_inv s.
Proof.
  intros Hr. eapply system_steps_history; [done|]. split; [apply ledger_inv_empty|]. intros e He.
  by apply not_elem_of_nil in He.
Qed.

(** ** Windows of a history *)

(** Same pull request, head and remediation round. *)
Definition bound (x y : EventRow) : Prop :=
  same_head x y /\ y.(e_remediation_round) = x.(e_remediation_round).
#[export] Instance bound_equiv : Equivalence bound.
Proof. split; red; unfold bound, same_head; naive_solver congruence. Qed.

(** Every event of the case after [a] and up to [b] satisfies [P] and is bound
    like [b]. *)
Definition spans (evs : list EventRow) (a b : EventRow) (P : Event -> bool) : Prop :=
  forall x, x ∈ evs -> x.(e_case_key) = b.(e_case_key) ->
    a.(e_state_revision) < x.(e_state_revision) <= b.(e_state_revision) ->
    bound x b /\ exists ev, x.(e_event_type) = Event_to_string ev /\ P ev = true.

Lemma spans_refl evs a P : spans evs a a P.
Proof. intros x _ _ Hx. lia. Qed.

Lemma spans_extend s a e0 e P Q ev :
  store_inv s -> e ∈ s.(events) -> precedes e0 e -> bound e0 e ->
  e.(e_event_type) = Event_to_string ev -> Q ev = true -> (forall v, P v = true -> Q v = true) ->
  spans s.(events) a e0 P -> spans s.(events) a e Q.
Proof.
  intros Hinv He (Hk & Hr & _) Hb Hty HQ HPQ Hsp x Hx Hkx Hrx.
  destruct (decide (x.(e_state_revision) = e.(e_state_revision))) as [Heq|Hne].
  - assert (x = e) as ->; [|split; [done|by eauto]].
    eapply slot_unique; [apply Hinv|done..|]. unfold slot. congruence.
  - destruct (Hsp x Hx) as (Hbx & v & Hv & HPv); [congruence|lia|].
    split; [by rewrite Hbx|by eauto].
Qed.

#[export] Instance CaseState_to_string_inj : Inj (=) (=) CaseState_to_string.
Proof. intros [] []; (done || discriminate). Qed.

(** What a core step into a review state keeps. *)
Lemma core_step_bound e0 e :
  core_step e0 e ->
  one_of [CaseState_to_string State.Reviewing; CaseState_to_string State.FinalReview;
          CaseState_to_string State.ShadowReady; CaseState_to_string State.ReadyToMerge]
    e.(e_next_state) = true ->
  bound e0 e /\ exists st ev ctx d,
    e0.(e_next_state) = CaseState_to_string st /\ transition st ev ctx = Ok d
    /\ e.(e_event_type) = Event_to_string ev
    /\ e.(e_next_state) = CaseState_to_string (next_state d).
Proof.
  intros (st & ev & ctx & d & Hs & Ht & Hty & Hn & _ & Hkeep & _ & _ & Hround) Hone.
  unfold one_of in Hone. bools. rewrite Hn in Hone.
  assert (Hnext : next_state d ∈ [State.Reviewing; State.FinalReview; State.ShadowReady; State.ReadyToMerge]).
  { change (CaseState_to_string (next_state d) ∈ CaseState_to_string <$>
      [State.Reviewing; State.FinalReview; State.ShadowReady; State.ReadyToMerge]) in Hone.
    by apply (list_elem_of_fmap_inj_2 CaseState_to_string) in Hone. }
  split; [|by exists st, ev, ctx, d]. split.
  - apply Hkeep. intros ->.
    check_table Ht (fun (s : CaseState) e (c : TransitionContext) d => bool_decide (e = Ev.ReviewReady ->
      next_state d ∉ [State.Reviewing; State.FinalReview; State.ShadowReady; State.ReadyToMerge])).
    by apply Ht.
  - destruct Hround as [?|(_ & Hrem & _)]; [done|]. rewrite Hrem in Hnext. set_solver.
Qed.

(** ** The evidence behind a review state *)

Definition reviewed (s : Store) (e : EventRow) : Prop :=
  exists ci, ci ∈ s.(events) /\ ci.(e_case_key) = e.(e_case_key)
    /\ ci.(e_state_revision) <= e.(e_state_revision)
    /\ ci.(e_event_type) = Event_to_string Ev.CiAccepted /\ bound ci e
    /\ spans s.(events) ci e cohort_event.

Definition approved (s : Store) (e : EventRow) : Prop :=
  exists ci rv, ci ∈ s.(events) /\ rv ∈ s.(events)
    /\ ci.(e_case_key) = e.(e_case_key) /\ rv.(e_case_key) = e.(e_case_key)
    /\ ci.(e_state_revision) < rv.(e_state_revision) <= e.(e_state_revision)
    /\ ci.(e_event_type) = Event_to_string Ev.CiAccepted
    /\ rv.(e_event_type) = Event_to_string Ev.ReviewsApproved
    /\ bound ci e /\ bound rv e
    /\ spans s.(events) ci e cohort_event /\ spans s.(events) rv e final_event.

Lemma final_is_cohort v : final_event v = true -> cohort_event v = true.
Proof. by destruct v. Qed.

Lemma reviewed_extend s e0 e ev :
  store_inv s -> e ∈ s.(events) -> precedes e0 e -> bound e0 e ->
  e.(e_event_type) = Event_to_string ev -> cohort_event ev = true -> reviewed s e0 -> reviewed s e.
Proof.
  intros Hinv He Hp Hb Hty Hev (ci & Hci & Hk & Hr & Hct & Hcb & Hsp). exists ci.
  pose proof Hp as (Hk0 & Hr0 & _).
  split_and!; [done|congruence|lia|done|by rewrite Hcb|]. eapply spans_extend; eauto.
Qed.

Lemma approved_reviewed s e : approved s e -> reviewed s e.
Proof.
  intros (ci & rv & ? & _ & ? & _ & ? & ? & _ & ? & _ & ? & _). exists ci. split_and!; (done || lia).
Qed.

Lemma approved_extend s e0 e ev :
  store_inv s -> e ∈ s.(events) -> precedes e0 e -> bound e0 e ->
  e.(e_event_type) = Event_to_string ev -> final_event ev = true -> approved s e0 -> approved s e.
Proof.
  intros Hinv He Hp Hb Hty Hev (ci & rv & Hci & Hrv & Hk & Hkr & Hr & Hct & Hrt & Hcb & Hrb & Hsp & Hsf).
  exists ci, rv. pose proof Hp as (Hk0 & Hr0 & _).
  split_and!; [done|done|congruence|congruence|lia|lia|done|done|by rewrite Hcb|by rewrite Hrb|..].
  - eapply spans_extend; eauto using final_is_cohort.
  - eapply spans_extend; eauto.
Qed.

Lemma review_evidence s (n : nat) : forall e,
  history_inv s -> e ∈ s.(events) -> e.(e_state_revision) <= Z.of_nat n ->
  (e.(e_next_state) = CaseState_to_string State.Reviewing -> reviewed s e)
  /\ (e.(e_next_state) = CaseState_to_string State.FinalReview -> approved s e).
Proof.
  induction n as [|n IH]; intros e Hinv He Hn.
  { destruct (inv_event_case _ _ (proj1 Hinv) e He) as (_ & _ & _ & ? & _). lia. }
  destruct (proj2 Hinv e He) as [(_ & _ & -> & _)|(e0 & He0 & Hp & [Hcore|(_ & _ & -> & _)])];
    [done| |done].
  pose proof Hp as (Hk & Hr & _).
  destruct (IH e0 Hinv He0) as [IHr IHa]; [lia|]. pose proof (proj1 Hinv) as Hs.
  split; intros Hst; (destruct (core_step_bound _ _ Hcore) as (Hb & st & ev & ctx & d & Hst0 & Ht & Hty & Hnx);
    [by rewrite Hst|]); rewrite Hst in Hnx; apply (inj CaseState_to_string) in Hnx; symmetry in Hnx.
  - apply (into_reviewing _ _ _ _ Ht) in Hnx.
    apply list_elem_of_In in Hnx as [[= <- <-]|[[= <- <-]|[[= <- <-]|[]]]].
    + exists e. split_and!; try done. apply spans_refl.
    + eapply reviewed_extend; eauto.
    + eapply reviewed_extend; eauto using approved_reviewed.
  - apply (into_final_review _ _ _ _ Ht) in Hnx as [[-> ->]|[-> Hev]]; [|by eapply approved_extend; eauto].
    assert (Hrev : reviewed s e) by (eapply reviewed_extend; eauto).
    destruct Hrev as (ci & Hci & Hkc & Hrc & Hct & Hcb & Hsp). exists ci, e.
    split_and!; try done; try apply spans_refl; [].
    destruct (decide (ci.(e_state_revision) = e.(e_state_revision))) as [Heq|]; [|lia].
    assert (ci = e) as -> by (eapply slot_unique; [apply Hs|done..|]; unfold slot; congruence).
    by rewrite Hct in Hty.
Qed.

(** The last event of a case that is ready stands on evidence for its head. *)
Lemma ready_evidence s e :
  history_inv s -> e ∈ s.(events) ->
  one_of ["SHADOW_READY"; "READY_TO_MERGE"]%string e.(e_next_state) = true ->
  e.(e_event_type) = Event_to_string Ev.Ready
  /\ exists e0, precedes e0 e /\ bound e0 e /\ approved s e0.
Proof.
  intros Hinv He Hready. unfold one_of in Hready. bools.
  assert (Hin : e.(e_next_state) ∈ CaseState_to_string <$> [State.ShadowReady; State.ReadyToMerge])
    by done.
  destruct (proj2 Hinv e He) as [(_ & _ & Hx & _)|(e0 & He0 & Hp & [Hcore|(_ & _ & Hx & _)])];
    [rewrite Hx in Hin; set_solver| |rewrite Hx in Hin; set_solver].
  destruct (core_step_bound _ _ Hcore) as (Hb & st & ev & ctx & d & Hst0 & Ht & Hty & Hnx).
  { unfold one_of. apply bool_decide_eq_true. set_solver. }
  rewrite Hnx in Hin. apply (list_elem_of_fmap_inj_2 CaseState_to_string) in Hin.
  destruct (into_ready _ _ _ _ Ht) as [-> ->]; [set_solver|].
  split; [done|]. exists e0. split_and!; [done..|].
  destruct (review_evidence s (Z.to_nat e0.(e_state_revision)) e0 Hinv He0) as [_ Ha]; [lia|auto].
Qed.

(** Consecutive events never lose a pull request, plan or round. *)
Lemma explained_monotone e0 e :
  core_step e0 e \/ reopens e0 e ->
  (forall n, e0.(e_pr_number) = Some n -> e.(e_pr_number) = Some n)
  /\ e0.(e_plan_version) <= e.(e_plan_version) <= e0.(e_plan_version) + 1
  /\ e0.(e_remediation_round) <= e.(e_remediation_round) <= e0.(e_remediation_round) + 1.
Proof.
  intros [(st & ev & ctx & d & _ & _ & _ & _ & _ & Hkeep & Hready & Hplan & Hround)
         |(_ & _ & _ & (Hpr & _) & Hplan & Hround)].
  - split_and!; [|lia..]. intros n Hn. destruct (decide (ev = Ev.ReviewReady)) as [->|Hne].
    + destruct (Hready eq_refl) as (_ & _ & [?|?]); congruence.
    + destruct (Hkeep Hne). congruence.
  - split_and!; [congruence|lia..].
Qed.

Lemma bindings_grow s e1 (n : nat) : forall e2,
  history_inv s -> e1 ∈ s.(events) -> e2 ∈ s.(events) -> e1.(e_case_key) = e2.(e_case_key) ->
  e2.(e_state_revision) = e1.(e_state_revision) + Z.of_nat n ->
  (forall k, e1.(e_pr_number) = Some k -> e2.(e_pr_number) = Some k)
  /\ e1.(e_plan_version) <= e2.(e_plan_version)
  /\ e1.(e_remediation_round) <= e2.(e_remediation_round).
Proof.
  induction n as [|n IH]; intros e2 Hinv He1 He2 Hk Hr; pose proof (proj1 Hinv) as Hs.
  { assert (e1 = e2) as -> by (eapply slot_unique; [apply Hs|done..|]; unfold slot; f_equal; [done|lia]).
    split_and!; [done|lia..]. }
  destruct (inv_event_case _ _ Hs e1 He1) as (_ & _ & _ & Hpos & _).
  destruct (proj2 Hinv e2 He2) as [(_ & Hone & _)|(e0 & He0 & (Hk0 & Hr0 & _) & Hstep)]; [lia|].
  destruct (explained_monotone _ _ Hstep) as (Hp & Hplan & Hround).
  destruct (IH e0 Hinv He1 He0) as (Hp0 & ? & ?); [congruence|lia|]. split_and!; [eauto|lia..].
Qed.

(** The row of the case after a transition. *)
Lemma applied_find_case i s s' c p :
  0 <= c.(c_state_revision) -> applied i s s' c p ->
  find_case s' i.(ti_case_key) = Some (advance_case i (i.(ti_expected_revision) + 1) p c).
Proof.
  intros Hpos Ha. destruct (find_case_elem _ _ _ (ap_case _ _ _ _ _ Ha)) as [_ Hk].
  pose proof (ap_revision _ _ _ _ _ Ha) as Hrev. rewrite unsigned_id in Hrev by done.
  transitivity (find_case (set_cases s'.(cases) s) i.(ti_case_key)); [done|].
  rewrite (ap_cases _ _ _ _ _ Ha), find_case_update, (ap_case _ _ _ _ _ Ha) by done. simpl.
  by rewrite Hk, Hrev, String.eqb_refl, Z.eqb_refl.
Qed.

(** An accepted command moves the case it names by one revision. *)
Lemma apply_applied policy w s s' :
  wf_command w -> LedgerController.apply policy w s = Ok (Applied, s') ->
  exists granted i c p, granted_remediation_rounds (case_key w.(wc_case_id)) s = Ok granted
    /\ policy.(cp_max_remediation_rounds) + granted <= u32_max
    /\ agreed s w
    /\ transition_input {| cp_revision := policy.(cp_revision); cp_merge_mode := policy.(cp_merge_mode);
          cp_max_remediation_rounds := policy.(cp_max_remediation_rounds) + granted |} w = Ok i
    /\ applied i s s' c p.
Proof.
  unfold LedgerController.apply, effective_policy. intros Hw Ha. open_ok.
  rename select (validate_workflow _ _ = _) into Hv. apply validate_workflow_agreed in Hv.
  rename select (apply_transition _ _ _ = _) into Hap.
  unfold apply_transition in Hap. apply apply_applied_inv in Hap as [_ Hb]. simpl in Hb. open_ok.
  subst. rename select (apply_one _ _ _ = _) into Hone.
  apply apply_one_applied in Hone as (c & p & Hone). 
  eexists _, _, c, p. split_and!; eauto.
Qed.

(** ** Theorems *)

(** C2: The ledger simulates the state machine.  In every ledger the controller
    and intake can produce, each event of a case either opens it in planning,
    reopens an abandoned case in planning with its bindings unchanged, or is a
    transition the pure core accepts from the state the preceding event entered:
    its successor state is the core's, only a review-ready build binds a head, it
    never replaces the pull request, the plan version stays or grows by one, and
    the remediation round grows by one exactly when work returns to the builder
    within the budget. *)
Theorem history_simulates_state_machine (s : Store) (e : EventRow)
  (Hreach : system_reachable s) (He : e ∈ s.(events)) : explained s.(events) e.
Proof. by apply (system_history s). Qed.

(** C1: A ready case stands on fresh evidence for its exact head.  In every
    ledger the controller and intake can produce, a case that is shadow-ready or
    ready to merge entered that state with a READY verdict, after CI was accepted
    and later all required reviews approved; from the accepted CI on, every event
    of the case is bound to the pull request, head and remediation round the case
    still has, and none of them is a build, a publication, a CI failure or a
    replanning. *)
Theorem ready_case_has_exact_head_evidence (s : Store) (c : CaseRow)
  (Hreach : system_reachable s) (Hc : c ∈ s.(cases))
  (Hready : one_of ["SHADOW_READY"; "READY_TO_MERGE"]%string c.(c_state) = true) :
  exists ci rv rd,
    ci ∈ s.(events) /\ rv ∈ s.(events) /\ rd ∈ s.(events)
    /\ ci.(e_event_type) = "CI_ACCEPTED"%string /\ rv.(e_event_type) = "REVIEWS_APPROVED"%string
    /\ rd.(e_event_type) = "READY"%string
    /\ slot rd = (c.(c_case_key), c.(c_state_revision))
    /\ ci.(e_case_key) = c.(c_case_key) /\ rv.(e_case_key) = c.(c_case_key)
    /\ ci.(e_state_revision) < rv.(e_state_revision) < rd.(e_state_revision)
    /\ forall x, x ∈ s.(events) -> x.(e_case_key) = c.(c_case_key) ->
         ci.(e_state_revision) <= x.(e_state_revision) <= rd.(e_state_revision) ->
         x.(e_pr_number) = c.(c_pr_number) /\ x.(e_head_sha) = c.(c_head_sha)
         /\ x.(e_remediation_round) = c.(c_remediation_round)
         /\ (ci.(e_state_revision) < x.(e_state_revision) < rd.(e_state_revision) ->
             exists ev, x.(e_event_type) = Event_to_string ev /\ cohort_event ev = true).
Proof.
  apply system_history in Hreach as Hinv. pose proof (proj1 Hinv) as Hs.
  destruct (last_event _ _ Hs Hc) as (e & He & Hslot & (Hst & _ & Hround & _ & Hpr & Hhead) & _).
  rewrite Hst in Hready.
  destruct (ready_evidence _ _ Hinv He Hready) as (Hty & e0 & (Hk & Hr & _) & Hb & Happ).
  destruct Happ as (ci & rv & Hci & Hrv & Hkc & Hkr & Hrev & Hct & Hrt & Hcb & Hrb & Hsp & _).
  exists ci, rv, e. unfold slot in Hslot. injection Hslot as Hke Hre.
  split_and!; try done; try congruence; [unfold slot; congruence|lia|lia|].
  intros x Hx Hkx Hrx.
  assert (Hbx : bound x e /\ (ci.(e_state_revision) < x.(e_state_revision) < e.(e_state_revision) ->
     exists ev, x.(e_event_type) = Event_to_string ev /\ cohort_event ev = true)).
  { destruct (decide (x.(e_state_revision) = ci.(e_state_revision))) as [Heq|].
    { assert (x = ci) as -> by (eapply slot_unique; [apply Hs|done..|]; unfold slot; congruence).
      split; [by rewrite Hcb|lia]. }
    destruct (decide (x.(e_state_revision) = e.(e_state_revision))) as [Heq|].
    { assert (x = e) as -> by (eapply slot_unique; [apply Hs|done..|]; unfold slot; congruence).
      split; [done|lia]. }
    destruct (Hsp x Hx) as (Hb1 & Hev); [congruence|lia|]. split; [by rewrite Hb1|done]. }
  destruct Hbx as [((Hp1 & Hh1) & Hr1) Hev]. split_and!; try congruence. done.
Qed.

(** C10: Bindings only grow.  In every ledger the controller and intake can
    produce, along the events of a case a recorded pull request is never replaced
    or dropped, and neither the plan version nor the remediation round goes
    back. *)
Theorem bindings_are_monotone (s : Store) (e1 e2 : EventRow) (Hreach : system_reachable s)
  (He1 : e1 ∈ s.(events)) (He2 : e2 ∈ s.(events)) (Hkey : e1.(e_case_key) = e2.(e_case_key))
  (Hrev : e1.(e_state_revision) <= e2.(e_state_revision)) :
  (forall n, e1.(e_pr_number) = Some n -> e2.(e_pr_number) = Some n)
  /\ e1.(e_plan_version) <= e2.(e_plan_version)
  /\ e1.(e_remediation_round) <= e2.(e_remediation_round).
Proof.
  apply (bindings_grow s e1 (Z.to_nat (e2.(e_state_revision) - e1.(e_state_revision))));
    [by apply system_history|done..|lia].
Qed.

(** C9: Remediation stays within its budget.  When the controller applies a
    command, the case is in the state, at the revision and in the round the
    command names, and afterwards at the next revision; its round is unchanged,
    or it entered remediation with the next round and that round does not exceed
    the policy's limit plus the rounds humans granted. *)
Theorem remediation_within_budget (policy : CasePolicy) (w : WorkflowCommand) (s s' : Store)
  (Hreach : system_reachable s) (Hw : wf_command w)
  (Happly : LedgerController.apply policy w s = Ok (Applied, s')) :
  exists before after granted,
    query_case s (case_key w.(wc_case_id)) = Some before
    /\ query_case s' (case_key w.(wc_case_id)) = Some after
    /\ granted_remediation_rounds (case_key w.(wc_case_id)) s = Ok granted
    /\ before.(sc_state) = CaseState_to_string w.(wc_expected_state)
    /\ before.(sc_state_revision) = w.(wc_expected_state_revision)
    /\ after.(sc_state_revision) = before.(sc_state_revision) + 1
    /\ (after.(sc_remediation_round) = before.(sc_remediation_round)
        \/ (after.(sc_state) = "REMEDIATING"%string
            /\ after.(sc_remediation_round) = before.(sc_remediation_round) + 1
            /\ after.(sc_remediation_round) <= policy.(cp_max_remediation_rounds) + granted)).
Proof.
  apply apply_applied in Happly as (granted & i & c & p & Hg & Hmax & Hag & Hi & Ha); [|done].
  pose proof (proj1 (system_history _ Hreach)) as Hinv.
  pose proof (transition_input_wf _ _ _ Hw Hi) as (_ & Hround & _).
  apply transition_input_inv in Hi
    as (target & d & to & round & plan & pr & head & _ & Ht & _ & _ & Hnr & _ & ->).
  pose proof (ap_case _ _ _ _ _ Ha) as Hc. pose proof (ap_revision _ _ _ _ _ Ha) as Hr.
  destruct (Hag c Hc Hr) as (Hst & Hrd & _).
  pose proof (inv_positive _ _ Hinv c (proj1 (find_case_elem _ _ _ Hc))) as Hpos.
  assert (0 <= c.(c_state_revision)) as Hpos' by lia.
  pose proof (applied_find_case _ _ _ _ _ Hpos' Ha) as Hafter. simpl in *.
  rewrite unsigned_id in Hr by lia.
  exists (stored_case c). eexists. exists granted. unfold query_case. rewrite Hc, Hafter.
  split; [done|]. split; [done|]. simpl. rewrite !unsigned_id, Hrd, u32_or_default_id by (done || lia).
  split_and!; try done; [lia|].
  unfold next_remediation_round in Hnr. case_match; inv_ok; bools; [|by left].
  right. rename select (next_state d = _) into Hd. rewrite Hd. split_and!; [done..|].
  pose proof (into_remediating _ _ _ _ Ht Hd) as Hlt. simpl in Hlt. assert (wc_remediation_round w < cp_max_remediation_rounds policy + granted) by auto. lia.
Qed.
End system.

(** ** An execution

    A case is opened by intake and driven by the controller through plan, build,
    CI, reviews and preflight until it is shadow-ready. *)

#[export] Instance in_opt_dec lo hi o : Decision (in_opt lo hi o).
Proof. destruct o; apply _. Defined.
#[export] Instance wf_command_dec w : Decision (wf_command w).
Proof. apply _. Defined.

Definition demo_id : CaseId := {| repository := 1; issue := 2; workflow := 3 |}.
Definition demo_budget : CasePolicy :=
  {| cp_revision := 1; cp_merge_mode := Shadow; cp_max_remediation_rounds := 3 |}.
Definition demo_head : string := "0123456789abcdef0123456789abcdef01234567".
Definition demo_opening : NewCase := {|
  nc_case_key := case_key demo_id; nc_repository_id := 1; nc_issue_number := 2;
  nc_workflow_version := 3; nc_policy_revision := 1; nc_initial_state := "PLANNING";
  nc_observed_at := 100; nc_event := demo_event "event-0" "ISSUE_AUTHORIZED"; nc_effects := [] |}.

(** The command for an event, built from the stored case as its author sees it. *)
Definition demo_command (ev : Event) (c : StoredCase) : option WorkflowCommand :=
  match CaseState_from_str c.(sc_state) with
  | Err _ => None
  | Ok state =>
      let ready := bool_decide (ev = Ev.ReviewReady) in
      Some {| wc_case_id := demo_id; wc_event_id := "event-" +:+ show c.(sc_state_revision);
        wc_observed_at := 100 + c.(sc_state_revision); wc_expected_state := state;
        wc_expected_state_revision := c.(sc_state_revision); wc_accepted_policy_revision := 1;
        wc_remediation_round := c.(sc_remediation_round);
        wc_plan_version := nonzero c.(sc_plan_version); wc_pr_number := c.(sc_pr_number);
        wc_head_sha := c.(sc_head_sha); wc_event := ev;
        wc_accepted_plan_version :=
          if bool_decide (ev = Ev.Proceed) then Some (c.(sc_plan_version) + 1) else None;
        wc_next_pr_number := if ready then Some 7 else None;
        wc_next_head_sha := if ready then Some demo_head else None;
        wc_event_payload := Object []; wc_run := None; wc_evidence := []; wc_findings := [] |}
  end.

Definition demo_advance (ev : Event) (s : Store) : option (WorkflowCommand * Store) :=
  w ← (query_case s (case_key demo_id) ≫= demo_command ev);
  if bool_decide (wf_command w) then
    match LedgerController.apply (H := demo_codec) demo_budget w s with
    | Ok (Applied, s') => Some (w, s') | _ => None
    end
  else None.
Fixpoint demo_drive (l : list Event) (s : Store) : option Store :=
  match l with
  | [] => Some s
  | ev :: l => '(_, s') ← demo_advance ev s; demo_drive l s'
  end.

Lemma demo_advance_inv ev s w s' :
  demo_advance ev s = Some (w, s') ->
  wf_command w /\ w.(wc_case_id) = demo_id
  /\ LedgerController.apply (H := demo_codec) demo_budget w s = Ok (Applied, s').
Proof.
  unfold demo_advance. intros (w' & (c & _ & Hc)%bind_Some & Hd)%bind_Some.
  assert (w'.(wc_case_id) = demo_id) as Hid.
  { unfold demo_command in Hc. destruct (CaseState_from_str _); [by simplify_eq|done]. }
  repeat case_match; simplify_eq. by split; [eapply bool_decide_eq_true_1|].
Qed.
Lemma demo_drive_reachable l : forall s s',
  demo_drive l s = Some s' -> system_reachable (H := demo_codec) s ->
  system_reachable (H := demo_codec) s'.
Proof.
  induction l as [|ev l IH]; intros s s' Hd Hs; simpl in Hd; [by simplify_eq|].
  apply bind_Some in Hd as ([w s1] & (Hw & _ & Ha)%demo_advance_inv & Hd). eapply IH; [done|].
  eapply rtc_r; [done|]. by eapply (sys_apply (H := demo_codec)).
Qed.

Definition demo_opened : Store := after (create_case (H := demo_codec) demo_opening empty_store).
Definition demo_run (l : list Event) : Store := default empty_store (demo_drive l demo_opened).
Definition demo_ready : Store := demo_run (happy_path ++ [Ev.Ready]).

Lemma demo_opened_reachable : system_reachable (H := demo_codec) demo_opened.
Proof.
  eapply rtc_r; [reflexivity|]. eapply (sys_intake (H := demo_codec) _ _ demo_opening Applied);
    [by split_and!|done|done|by vm_compute].
Qed.
Lemma demo_run_reachable l :
  is_some (demo_drive l demo_opened) = true -> system_reachable (H := demo_codec) (demo_run l).
Proof.
  unfold demo_run. intros Hs. destruct (demo_drive l demo_opened) eqn:Hd; [|done]. simpl.
  by eapply demo_drive_reachable; [|apply demo_opened_reachable].
Qed.
Lemma demo_ready_reachable : system_reachable (H := demo_codec) demo_ready.
Proof. apply demo_run_reachable. vm_compute. reflexivity. Qed.

Lemma history_simulates_state_machine_witness :
  exists e, e ∈ demo_ready.(events) /\ e.(e_event_type) = "READY"%string
    /\ explained demo_ready.(events) e.
Proof.
  destruct (find_event demo_ready "event-11") as [e|] eqn:Hf; [|by vm_compute in Hf].
  assert (He : e ∈ demo_ready.(events)) by exact (proj1 (find_event_elem _ _ _ Hf)).
  exists e. split; [done|]. split; [vm_compute in Hf; by simplify_eq|].
  by apply (history_simulates_state_machine (H := demo_codec) demo_ready e demo_ready_reachable).
Defined.

Lemma ready_case_has_exact_head_evidence_witness :
  exists c ci, c ∈ demo_ready.(cases) /\ c.(c_state) = "SHADOW_READY"%string
    /\ ci ∈ demo_ready.(events) /\ ci.(e_event_type) = "CI_ACCEPTED"%string.
Proof.
  destruct (find_case demo_ready (case_key demo_id)) as [c|] eqn:Hf; [|by vm_compute in Hf].
  assert (Hc : c ∈ demo_ready.(cases)) by exact (proj1 (find_case_elem _ _ _ Hf)).
  assert (Hst : c.(c_state) = "SHADOW_READY"%string) by (clear -Hf; vm_compute in Hf; by simplify_eq).
  destruct (ready_case_has_exact_head_evidence (H := demo_codec) demo_ready c demo_ready_reachable Hc)
    as (ci & _ & _ & Hci & _ & _ & Hty & _); [by rewrite Hst|].
  exists c, ci. repeat split; assumption.
Defined.

Lemma bindings_are_monotone_witness :
  exists e1 e2, e1 ∈ demo_ready.(events) /\ e2 ∈ demo_ready.(events)
    /\ e1.(e_pr_number) = Some 7 /\ e2.(e_pr_number) = Some 7.
Proof.
  destruct (find_event demo_ready "event-5") as [e1|] eqn:H1; [|by vm_compute in H1].
  destruct (find_event demo_ready "event-11") as [e2|] eqn:H2; [|by vm_compute in H2].
  assert (He1 : e1 ∈ demo_ready.(events)) by exact (proj1 (find_event_elem _ _ _ H1)).
  assert (He2 : e2 ∈ demo_ready.(events)) by exact (proj1 (find_event_elem _ _ _ H2)).
  assert (Hpr : e1.(e_pr_number) = Some 7) by (clear -H1; vm_compute in H1; by simplify_eq).
  destruct (bindings_are_monotone (H := demo_codec) demo_ready e1 e2 demo_ready_reachable He1 He2)
    as [Hgrow _]; [clear -H1 H2; vm_compute in H1, H2; by simplify_eq..|].
  exists e1, e2. repeat split; [assumption..|]. apply Hgrow. assumption.
Defined.

(** Changes requested by a reviewer spend the first round. *)
Definition demo_reviewing : Store := demo_run (take 6 happy_path).

Lemma remediation_within_budget_witness :
  exists w s', demo_advance Ev.RequestChanges demo_reviewing = Some (w, s')
    /\ exists granted, granted_remediation_rounds (H := demo_codec) (case_key demo_id) demo_reviewing = Ok granted.
Proof.
  destruct (demo_advance Ev.RequestChanges demo_reviewing) as [[w s']|] eqn:Hd; [|by vm_compute in Hd].
  pose proof (demo_advance_inv _ _ _ _ Hd) as (Hw & Hid & Ha).
  exists w, s'. split; [reflexivity|].
  destruct (remediation_within_budget (H := demo_codec) demo_budget w demo_reviewing s')
    as (_ & _ & granted & _ & _ & Hg & _); [|assumption..|].
  { apply demo_run_reachable. vm_compute. reflexivity. }
  exists granted. rewrite <-Hid. exact Hg.
Defined.
