(* ===== verification/Ingest.v ===== *)
(** * Ingest: what ingesting a worker result does to the ledger

    Replays, the join of required reviews, and what a result may move. *)

From S2P Require Import Prelude Text Json Contracts RolePolicy Domain StateMachine Revision.
From S2P Require Import Sql Tables Inputs Frozen Recovery StoreCore Outbox Attempts Control Records.
From S2P Require Import History Frames Steps Invariants Ledger Results System.
From stdpp Require Import relations.
Open Scope Z_scope.

Section ingest.
Context `{Codec}.

(** ** Events and the runs recorded with them *)

(** The event was written for a command, and the command's run with it. *)
Definition recorded (s : Store) (e : EventRow) : Prop :=
  (exists i, e.(e_command_sha256) = hash_serialized (ser_transition i)
     /\ forall r, i.(ti_run) = Some r -> exists x, x ∈ s.(runs) /\ x.(r_task_id) = r.(ri_task_id))
  \/ exists n, e.(e_command_sha256) = hash_serialized (ser_new_case n).

Definition recorded_inv (s : Store) : Prop := forall e, e ∈ s.(events) -> recorded s e.

Lemma recorded_mono s s' e : s.(runs) `prefix_of` s'.(runs) -> recorded s e -> recorded s' e.
Proof.
  intros Hp [(i & Hh & Hr)|?]; [left|by right]. exists i. split; [done|].
  intros r Hrun. destruct (Hr r Hrun) as (x & Hx & ?). exists x. split; [|done].
  by eapply prefix_elem.
Qed.

Lemma applied_recorded i s s' c p : applied i s s' c p -> recorded_inv s -> recorded_inv s'.
Proof.
  intros Ha Hinv e He. rewrite (ap_events _ _ _ _ _ Ha) in He. apply elem_of_snoc in He as [He| ->].
  - eapply recorded_mono; [|by apply Hinv]. rewrite (ap_runs _ _ _ _ _ Ha). by eexists.
  - left. exists i. split; [done|]. intros r Hr. rewrite (ap_runs _ _ _ _ _ Ha), Hr.
    eexists. split; [apply elem_of_snoc; by right|done].
Qed.

Lemma create_recorded i s r s' : create_case i s = Ok (r, s') -> recorded_inv s -> recorded_inv s'.
Proof.
  unfold create_case. intros Hc Hinv. inv_store. case_match; inv_store; [done|].
  unfold insert_case_row in *. inv_store.
  rename select (insert_event _ _ = _) into He. apply insert_event_eq in He as (-> & _).
  rename select (insert_effects _ _ _ _ _ = _) into Hx. apply insert_effects_eq in Hx as ->.
  intros e [He| ->]%elem_of_snoc; [by apply Hinv|]. right. by exists i.
Qed.

Lemma step_recorded s s' : store_step s s' -> recorded_inv s -> recorded_inv s'.
Proof.
  intros Hs Hinv. pose proof (ev_runs _ _ (step_evolves _ _ Hs)) as Hruns.
  destruct (step_cases _ _ Hs) as [(_ & _ & He)|[(i & r & _ & Hc)|[(l & f & r & _ & Ha)|(k & u & Hr)]]].
  - intros e. rewrite He. intros Hin. eapply recorded_mono; [done|by apply Hinv].
  - by eapply create_recorded.
  - assert (PreOrder (fun a b => recorded_inv a -> recorded_inv b)) by (split; red; auto).
    eapply (apply_transition_batch_rel (fun a b => recorded_inv a -> recorded_inv b)); [|done|done].
    eauto using applied_recorded.
  - apply repair_eq in Hr as (? & _ & ->). by intros e He; apply Hinv.
Qed.

Lemma reachable_recorded s : reachable s -> recorded_inv s.
Proof.
  assert (forall a b, rtc store_step a b -> recorded_inv a -> recorded_inv b) as Hstep.
  { induction 1; eauto using step_recorded. }
  intros Hr. eapply Hstep; [done|]. by intros e He%not_elem_of_nil.
Qed.

(** ** The transitions an ingestion submits *)

Lemma ingest_applied_inv policy wp b r s n s1 :
  ingest_worker_result_inner policy wp b r s = Ok (IngestApplied n, s1) ->
  validate_binding r b = Ok ()
  /\ run_by_task_id b.(wb_task_id) s = Ok None
  /\ exists id stored a, case_id b = Ok id /\ query_case s (case_key id) = Some stored
    /\ ((exists w, n = 1 /\ result_workflow s stored id wp b r (encode_result r) = Ok w
            /\ LedgerController.apply policy w s = Ok (a, s1))
        \/ (exists w0 rev w, n = 2 /\ is_builder r = true /\ stored.(sc_state) = "READY_TO_BUILD"%string
              /\ workflow_command stored id Ev.BuilderDispatched
                   (result_event_id "dispatch" b.(wb_task_id)) (started_at_unix (common r))
                   (json_object [("task_id", Str b.(wb_task_id)); ("role", Str "builder")])
                   None None None [] = Ok w0
              /\ result_workflow s (building stored rev) id wp b r (encode_result r) = Ok w
              /\ LedgerController.apply_batch policy [w0; w] s = Ok (a, s1))).
Proof.
  unfold ingest_worker_result_inner. intros Hi.
  apply bind_ok in Hi as ([] & Hv & Hi). apply map_err_ok in Hv.
  apply bind_ok in Hi as ([] & _ & Hi). apply bind_ok in Hi as (existing & He & Hi).
  apply map_err_ok in He. split; [done|].
  destruct existing as [run|]; [open_ok; by case_match|]. split; [done|].
  apply bind_ok in Hi as (id & Hid & Hi). apply bind_ok in Hi as (stored & Hst & Hi).
  apply ok_or_ok in Hst. apply bind_ok in Hi as ([] & _ & Hi).
  destruct (is_builder r && _) eqn:Hb.
  - apply andb_true_iff in Hb as [Hb Hs]. apply String.eqb_eq in Hs.
    apply bind_ok in Hi as (w0 & Hw0 & Hi). apply bind_ok in Hi as (rev & _ & Hi).
    apply bind_ok in Hi as (w & Hw & Hi). apply bind_ok in Hi as ([a s2] & Ha & [= <- <-]).
    apply map_err_ok in Ha. exists id, stored, a. split_and!; [done..|]. right. by exists w0, rev, w.
  - apply bind_ok in Hi as (w & Hw & Hi). apply bind_ok in Hi as ([a s2] & Ha & [= <- <-]).
    apply map_err_ok in Ha. exists id, stored, a. split_and!; [done..|]. left. by exists w.
Qed.

(** A join records the review, asks for changes, or approves. *)
Lemma join_review_event s c wp x ev :
  join_review s c wp x = Ok ev -> ev ∈ [Ev.ReviewRecorded; Ev.RequestChanges; Ev.ReviewsApproved].
Proof.
  unfold join_review, join_verdict. intros Hj. open_ok. repeat case_match; open_ok; set_solver.
Qed.

(** What the command of a result carries. *)
Lemma workflow_command_inv c id ev eid at_ pl run plan next evd w :
  workflow_command c id ev eid at_ pl run plan next evd = Ok w ->
  w.(wc_case_id) = id /\ w.(wc_event) = ev /\ w.(wc_event_id) = eid /\ w.(wc_run) = run
  /\ CaseState_from_str c.(sc_state) = Ok w.(wc_expected_state)
  /\ w.(wc_expected_state_revision) = c.(sc_state_revision)
  /\ w.(wc_accepted_plan_version) = and_nonzero plan
  /\ w.(wc_next_pr_number) = and_nonzero (fst <$> next).
Proof.
  unfold workflow_command. intros Hw. open_ok. subst.
  repeat match goal with Hx : nonzero _ = Some _ |- _ => apply nonzero_some in Hx as [-> _] end.
  rename select (EventId_from_str _ = _) into Hid. unfold EventId_from_str, textual_id in Hid.
  case_match; simplify_eq. by split_and!.
Qed.

Lemma map_event_inv s c wp r m :
  map_event s c wp r = Ok m ->
  exists ev, m = mapped ev None None None /\ ev <> Ev.ReviewReady /\ ev <> Ev.Proceed
    /\ match r with
       | PlannerR _ => c.(sc_state) = "PLANNING"%string
       | BuilderR _ => one_of ["BUILDING"; "REMEDIATING"]%string c.(sc_state) = true
       | ReviewR x => c.(sc_state) = "REVIEWING"%string
           /\ (joinable x = true -> join_review s c wp x = Ok ev)
           /\ (joinable x = false -> ev = Ev.Blocked \/ ev = Ev.BlockedUnexpectedModel)
       | FinalR _ => c.(sc_state) = "FINAL_REVIEW"%string
           /\ latest_event_type c.(sc_case_key) s = Some "FINAL_PREFLIGHT_ACCEPTED"%string
       end.
Proof.
  unfold map_event. destruct r as [x|x|x|x].
  - destruct (String.eqb_spec (sc_state c) "PLANNING"); [|done]. intros [= <-].
    eexists. split; [done|]. case_bool_decide; by split_and!.
  - destruct (one_of _ _); [|done]. intros [= <-]. eexists. split; [done|].
    destruct (bu_outcome x); by split_and!.
  - destruct (String.eqb_spec (sc_state c) "REVIEWING") as [Hs|]; [|done]. unfold joinable, has_outcome.
    intros (ev & Hev & [= <-])%bind_ok. exists ev. split; [done|].
    destruct (rv_outcome x); simplify_eq/=; try (split_and!; try done; by eauto);
      pose proof (join_review_event _ _ _ _ _ Hev); split_and!; try done; intros ->; set_solver.
  - destruct (String.eqb_spec (sc_state c) "FINAL_REVIEW"); [|done]. simpl. case_bool_decide; [|done].
    intros [= <-]. eexists. split; [done|]. destruct (fi_outcome x); by split_and!.
Qed.

(** ** The run a batch records *)

Definition run_rows (l : list TransitionInput) : list RunRow :=
  l ≫= fun i => match i.(ti_run) with
                | Some r => [run_row i.(ti_case_key) i.(ti_event).(ei_event_id) i.(ti_observed_at) r]
                | None => []
                end.

Lemma batch_runs l : forall s s',
  batch_transaction None l s = Ok s' -> s'.(runs) = s.(runs) ++ run_rows l.
Proof.
  induction l as [|i l IH]; intros s s' Hb; simpl in Hb; [simplify_eq; by rewrite app_nil_r|].
  apply bind_ok in Hb as (s1 & Ha & Hb). apply bind_ok in Hb as (_ & _ & Hb).
  apply apply_one_applied in Ha as (c & p & Ha).
  rewrite (IH _ _ Hb), (ap_runs _ _ _ _ _ Ha), <-app_assoc. done.
Qed.

Lemma find_run_none s task : run_by_task_id task s = Ok None ->
  forall x, x ∈ s.(runs) -> x.(r_task_id) <> task.
Proof.
  unfold run_by_task_id. intros Hf x Hx%list_elem_of_In Ht.
  destruct (List.find _ (runs s)) as [y|] eqn:Hfind; [by destruct (parse_stored_run y)|].
  apply (find_none _ _ Hfind) in Hx. by rewrite Ht, String.eqb_refl in Hx.
Qed.

Lemma find_new_run l k x task :
  (forall y, y ∈ l -> y.(r_task_id) <> task) -> x.(r_task_id) = task ->
  List.find (fun r => String.eqb r.(r_task_id) task) (l ++ x :: k) = Some x.
Proof.
  intros Hl Hx. induction l as [|y l IH]; simpl.
  - by rewrite Hx, String.eqb_refl.
  - destruct (String.eqb_spec (r_task_id y) task) as [Hy|]; [|apply IH; set_solver].
    by apply (Hl y) in Hy; [|set_solver].
Qed.

(** A replayed command whose run is not in the ledger is a digest collision. *)
Lemma replayed_run `{!CodecLaws _} l s s' i r :
  recorded_inv s -> apply_transition_batch l None s = Ok (Replayed, s') -> i ∈ l ->
  i.(ti_run) = Some r -> (exists x, x ∈ s.(runs) /\ x.(r_task_id) = r.(ri_task_id)) \/ collision.
Proof.
  intros Hrec Ha Hi Hr. destruct (replayed_existing _ _ _ _ i Ha Hi) as (e & He & _ & Hh).
  destruct (Hrec e He) as [(j & Hj & Hrun)|(nc & Hn)].
  - rewrite Hj in Hh. apply hash_serialized_inj in Hh as [Hser|?]; [|by right].
    apply (inj ser_transition) in Hser as <-. left. by apply Hrun.
  - rewrite Hn in Hh. apply hash_serialized_inj in Hh as [Hser|?]; [discriminate Hser|by right].
Qed.

(** The transitions of accepted commands, in order. *)
Lemma batch_inputs_runs policy ws : forall prev inputs,
  batch_inputs policy prev ws = Ok inputs ->
  Forall2 (fun w i => i.(ti_run) = w.(wc_run) /\ i.(ti_case_key) = case_key w.(wc_case_id)) ws inputs.
Proof.
  induction ws as [|w ws IH]; intros prev inputs Hb; simpl in Hb; open_ok; subst; [constructor|].
  constructor; [|by eapply IH].
  rename select (transition_input _ _ = _) into Hi.
  apply transition_input_inv in Hi as (? & ? & ? & ? & ? & ? & ? & _ & _ & _ & _ & _ & _ & ->). done.
Qed.

Lemma apply_inputs policy w s a s1 :
  LedgerController.apply policy w s = Ok (a, s1) ->
  exists l, apply_transition_batch l None s = Ok (a, s1)
    /\ Forall2 (fun w i => i.(ti_run) = w.(wc_run) /\ i.(ti_case_key) = case_key w.(wc_case_id)) [w] l.
Proof.
  unfold LedgerController.apply. intros Ha. open_ok. exists [x1]. split; [done|].
  rename select (transition_input _ _ = _) into Hi.
  apply transition_input_inv in Hi as (? & ? & ? & ? & ? & ? & ? & _ & _ & _ & _ & _ & _ & ->).
  repeat constructor.
Qed.

Lemma apply_batch_inputs policy ws s a s1 :
  LedgerController.apply_batch policy ws s = Ok (a, s1) ->
  exists l, apply_transition_batch l None s = Ok (a, s1)
    /\ Forall2 (fun w i => i.(ti_run) = w.(wc_run) /\ i.(ti_case_key) = case_key w.(wc_case_id)) ws l.
Proof.
  unfold LedgerController.apply_batch. intros Ha. open_ok. eexists. split; [done|].
  by eapply batch_inputs_runs.
Qed.

(** The run of an ingested result. *)
Lemma ingest_run policy wp b r s n s1 :
  ingest_worker_result_inner policy wp b r s = Ok (IngestApplied n, s1) ->
  exists id l i a, case_id b = Ok id /\ apply_transition_batch l None s = Ok (a, s1)
    /\ i ∈ l /\ i.(ti_run) = Some (result_run b (encode_result r)) /\ i.(ti_case_key) = case_key id
    /\ run_rows l = [run_row (case_key id) i.(ti_event).(ei_event_id) i.(ti_observed_at)
                       (result_run b (encode_result r))].
Proof.
  intros (_ & _ & id & stored & a & Hid & _ & Hcmd)%ingest_applied_inv. exists id.
  assert (Hres : forall c w, result_workflow s c id wp b r (encode_result r) = Ok w ->
    w.(wc_run) = Some (result_run b (encode_result r)) /\ w.(wc_case_id) = id).
  { unfold result_workflow. intros c w Hw. open_ok. subst w. simpl.
    rename select (workflow_command _ _ _ _ _ _ _ _ _ _ = _) into Hc.
    apply workflow_command_inv in Hc as (? & _ & _ & ? & _). done. }
  destruct Hcmd as [(w & _ & Hw & Ha)|(w0 & rev & w & _ & _ & _ & Hw0 & Hw & Ha)];
    apply Hres in Hw as [Hrun Hwid].
  - apply apply_inputs in Ha as (l & Ha & Hl). apply Forall2_cons_inv_l in Hl as (i & l' & [Hr Hk] & Hn & ->).
    apply Forall2_nil_inv_l in Hn as ->. exists [i], i, a.
    rewrite Hrun in Hr. rewrite Hwid in Hk. split_and!; [done|done|set_solver|done|done|].
    unfold run_rows; simpl. by rewrite Hr, Hk.
  - apply apply_batch_inputs in Ha as (l & Ha & Hl).
    apply Forall2_cons_inv_l in Hl as (i0 & l0 & [Hr0 _] & Hl & ->).
    apply Forall2_cons_inv_l in Hl as (i & l' & [Hr Hk] & Hn & ->). apply Forall2_nil_inv_l in Hn as ->.
    apply workflow_command_inv in Hw0 as (_ & _ & _ & Hrun0 & _).
    exists [i0; i], i, a. rewrite Hrun0 in Hr0. rewrite Hrun in Hr. rewrite Hwid in Hk.
    split_and!; [done|done|set_solver|done|done|]. unfold run_rows; simpl. by rewrite Hr0, Hr, Hk.
Qed.

(** ** What a result may move *)

(** A command that binds nothing new. *)
Definition keeps (w : WorkflowCommand) : Prop :=
  w.(wc_event) <> Ev.ReviewReady /\ w.(wc_accepted_plan_version) = None.

Lemma transition_input_keeps policy w i :
  keeps w -> transition_input policy w = Ok i ->
  i.(ti_case_key) = case_key w.(wc_case_id) /\ i.(ti_pr_number) = w.(wc_pr_number)
  /\ i.(ti_head_sha) = w.(wc_head_sha) /\ i.(ti_plan_version) = plan_or_zero w.(wc_plan_version).
Proof.
  intros [Hev Hacc] Hi. apply transition_input_inv in Hi
    as (target & d & to & round & plan & pr & head & _ & _ & _ & Hp & _ & Hh & ->). simpl.
  unfold next_plan_version in Hp. rewrite Hacc in Hp. unfold next_head_binding in Hh.
  rewrite bool_decide_eq_false_2 in Hh by done. open_ok. simplify_eq.
  case_match; by simplify_eq.
Qed.

Definition same_bindings (a b : StoredCase) : Prop :=
  b.(sc_pr_number) = a.(sc_pr_number) /\ b.(sc_head_sha) = a.(sc_head_sha)
  /\ b.(sc_plan_version) = a.(sc_plan_version).

(** Reading a column twice changes nothing. *)
Lemma unsigned_twice n : unsigned (unsigned n) = unsigned n.
Proof. unfold unsigned. lia. Qed.
Lemma u32_twice n : u32_or_default (u32_or_default n) = u32_or_default n.
Proof. unfold u32_or_default. destruct ((0 <=? n) && (n <=? u32_max)) eqn:E; [by rewrite E|done]. Qed.

Lemma applied_keeps i s s' c p :
  0 <= c.(c_state_revision) -> applied i s s' c p ->
  i.(ti_pr_number) = (stored_case c).(sc_pr_number) -> i.(ti_head_sha) = (stored_case c).(sc_head_sha) ->
  i.(ti_plan_version) = (stored_case c).(sc_plan_version) ->
  exists c', find_case s' i.(ti_case_key) = Some c' /\ 0 <= c'.(c_state_revision)
    /\ same_bindings (stored_case c) (stored_case c').
Proof.
  intros Hpos Ha Hpr Hh Hp. eexists. split; [by eapply applied_find_case|]. simpl.
  pose proof (ap_revision _ _ _ _ _ Ha) as Hr. rewrite unsigned_id in Hr by done.
  split; [lia|]. unfold same_bindings; simpl. rewrite Hpr, Hh, Hp. simpl. rewrite u32_twice.
  split_and!; try done. destruct (c_pr_number c); simpl; [by rewrite unsigned_twice|done].
Qed.

Lemma command_bindings policy w i s s' c p :
  keeps w -> transition_input policy w = Ok i -> agreed s w -> applied i s s' c p ->
  i.(ti_pr_number) = (stored_case c).(sc_pr_number) /\ i.(ti_head_sha) = (stored_case c).(sc_head_sha)
  /\ i.(ti_plan_version) = (stored_case c).(sc_plan_version).
Proof.
  intros Hk Hi Hag Ha. destruct (transition_input_keeps _ _ _ Hk Hi) as (Hkey & Hpr & Hh & Hp).
  pose proof (ap_case _ _ _ _ _ Ha) as Hc. pose proof (ap_revision _ _ _ _ _ Ha) as Hr.
  assert (Hexp : i.(ti_expected_revision) = w.(wc_expected_state_revision)).
  { by apply transition_input_inv in Hi as (? & ? & ? & ? & ? & ? & ? & _ & _ & _ & _ & _ & _ & ->). }
  destruct (Hag c) as (_ & _ & Ep & En & Eh); [congruence|congruence|]. split_and!; congruence.
Qed.

Lemma applied_command_keeps policy w s a s1 c :
  keeps w -> LedgerController.apply policy w s = Ok (a, s1) ->
  find_case s (case_key w.(wc_case_id)) = Some c -> 0 <= c.(c_state_revision) ->
  exists c', find_case s1 (case_key w.(wc_case_id)) = Some c'
    /\ same_bindings (stored_case c) (stored_case c').
Proof.
  unfold LedgerController.apply. intros Hk Ha Hc Hpos. open_ok.
  rename select (validate_workflow _ _ = _) into Hv. apply validate_workflow_agreed in Hv.
  rename select (transition_input _ _ = _) into Hi.
  unfold apply_transition, apply_transition_batch in *. open_ok.
  case_match; open_ok; simplify_eq; [by exists c|].
  rename select (batch_transaction _ _ _ = _) into Hb. simpl in Hb. open_ok. simplify_eq.
  rename select (apply_one _ _ _ = _) into Hone. apply apply_one_applied in Hone as (c0 & p & Hone).
  destruct (transition_input_keeps _ _ _ Hk Hi) as (Hkey & _).
  pose proof (ap_case _ _ _ _ _ Hone) as Hc0. rewrite Hkey, Hc in Hc0. injection Hc0 as <-.
  destruct (command_bindings _ _ _ _ _ _ _ Hk Hi Hv Hone) as (? & ? & ?).
  rewrite <-Hkey. destruct (applied_keeps _ _ _ _ _ Hpos Hone) as (c' & ? & _ & ?); eauto.
Qed.

Lemma applied_pair_keeps policy w0 w s a s1 c :
  keeps w0 -> keeps w -> w.(wc_case_id) = w0.(wc_case_id) ->
  LedgerController.apply_batch policy [w0; w] s = Ok (a, s1) ->
  find_case s (case_key w0.(wc_case_id)) = Some c -> 0 <= c.(c_state_revision) ->
  exists c', find_case s1 (case_key w0.(wc_case_id)) = Some c'
    /\ same_bindings (stored_case c) (stored_case c').
Proof.
  unfold LedgerController.apply_batch. intros Hk0 Hk Hid Ha Hc Hpos. open_ok.
  rename select (head _ = Some _) into Hh. injection Hh as <-.
  rename select (validate_workflow _ _ = _) into Hv. apply validate_workflow_agreed in Hv.
  rename select (batch_inputs _ _ _ = _) into Hin. simpl in Hin. open_ok. subst.
  rename select (transition_input _ w0 = _) into Hi0. rename select (transition_input _ w = _) into Hi.
  rename select (validate_consecutive _ _ = _) into Hcons.
  destruct (transition_input_keeps _ _ _ Hk0 Hi0) as (Hkey0 & _).
  destruct (transition_input_keeps _ _ _ Hk Hi) as (Hkey & Hpr & Hhd & Hp).
  unfold apply_transition_batch in *. open_ok. case_match; open_ok; simplify_eq; [by exists c|].
  rename select (batch_transaction _ _ _ = _) into Hb. cbn [batch_transaction] in Hb. open_ok. simplify_eq.
  rename select (apply_one _ x3 _ = _) into Hone0. apply apply_one_applied in Hone0 as (c0 & p0 & Hone0).
  rename select (apply_one _ _ _ = _) into Hone. apply apply_one_applied in Hone as (c1 & p1 & Hone).
  pose proof (ap_case _ _ _ _ _ Hone0) as Hc0. rewrite Hkey0, Hc in Hc0. injection Hc0 as <-.
  destruct (command_bindings _ _ _ _ _ _ _ Hk0 Hi0 Hv Hone0) as (Ep & Eh & Epl).
  destruct (applied_keeps _ _ _ _ _ Hpos Hone0) as (c' & Hc' & Hpos' & Hn & Hd & Hl); [done..|].
  pose proof (ap_case _ _ _ _ _ Hone) as Hc1. rewrite Hkey, Hid, <-Hkey0, Hc' in Hc1. injection Hc1 as <-.
  unfold validate_consecutive in Hcons. open_ok. bools.
  destruct (applied_keeps _ _ _ _ _ Hpos' Hone) as (c2 & Hc2 & _ & ? & ? & ?); [congruence..|].
  exists c2. split; [congruence|]. split_and!; congruence.
Qed.

Lemma result_workflow_inv s c id wp b r w :
  result_workflow s c id wp b r (encode_result r) = Ok w ->
  w.(wc_case_id) = id /\ keeps w
  /\ match r with
     | PlannerR _ => c.(sc_state) = "PLANNING"%string
     | BuilderR _ => one_of ["BUILDING"; "REMEDIATING"]%string c.(sc_state) = true
     | ReviewR _ => c.(sc_state) = "REVIEWING"%string
     | FinalR _ => c.(sc_state) = "FINAL_REVIEW"%string
         /\ latest_event_type c.(sc_case_key) s = Some "FINAL_PREFLIGHT_ACCEPTED"%string
     end.
Proof.
  unfold result_workflow. intros Hw. open_ok. subst w.
  rename select (map_event _ _ _ _ = _) into Hm. apply map_event_inv in Hm as (ev & -> & Hev & _ & Hstage).
  rename select (workflow_command _ _ _ _ _ _ _ _ _ _ = _) into Hc.
  apply workflow_command_inv in Hc as (Hid & He & _ & _ & _ & _ & Hacc & _). simpl in *.
  split_and!; [done|split; simpl; [by rewrite He|done]|]. destruct r; naive_solver.
Qed.

Lemma one_of_weaken l k x : (forall y, y ∈ l -> y ∈ k) -> one_of l x = true -> one_of k x = true.
Proof. unfold one_of. rewrite !bool_decide_eq_true. auto. Qed.

(** ** The join of reviews *)

(** A stored review of the same plan, round, pull request and head. *)
Definition prior_review (stored : list StoredRun) (current x : ReviewResult) : Prop :=
  exists run, run ∈ stored /\ Contracts.decode run.(sr_payload) = Some (ReviewR x)
    /\ same_target x current = true.

Lemma matching_reviews_ok current stored :
  (forall run, run ∈ stored -> is_Some (Contracts.decode run.(sr_payload))) <->
  exists l, matching_reviews current stored = Ok l.
Proof.
  induction stored as [|run stored IH]; simpl.
  { split; [eauto|set_solver]. }
  split.
  - intros Hall. destruct (Hall run) as [v Hv]; [set_solver|]. rewrite Hv. simpl.
    destruct (proj1 IH) as [l ->]; [set_solver|]. simpl.
    destruct v; eauto. destruct (same_target _ _); eauto.
  - intros (l & Hl). open_ok. intros run' [->|Hin]%elem_of_cons; [by eexists|].
    apply (proj2 IH); [by eexists|done].
Qed.

Lemma matching_reviews_elem current stored : forall l,
  matching_reviews current stored = Ok l -> forall x, x ∈ l <-> prior_review stored current x.
Proof.
  unfold prior_review. induction stored as [|run stored IH]; intros l Hl x; simpl in Hl.
  { simplify_eq. split; [by intros ?%not_elem_of_nil|]. by intros (? & ?%not_elem_of_nil & _). }
  apply bind_ok in Hl as (v & Hv & Hl). apply ok_or_ok in Hv. apply bind_ok in Hl as (rest & Hrest & Hl).
  assert (Hsplit : x ∈ l <-> (v = ReviewR x /\ same_target x current = true) \/ x ∈ rest).
  { destruct v as [p|p|p|p]; [simplify_eq; naive_solver..| |simplify_eq; naive_solver].
    destruct (same_target p current) eqn:E; simplify_eq.
    - rewrite elem_of_cons. naive_solver.
    - naive_solver congruence. }
  rewrite Hsplit, (IH _ Hrest x). split.
  - intros [[-> ?]|(run' & ? & ?)]; [exists run|exists run']; set_solver.
  - intros (run' & [->|Hin]%elem_of_cons & Hd & Ht); [left|right; eauto]. split; [congruence|done].
Qed.

Lemma matching_reviews_cohort current stored l :
  matching_reviews current stored = Ok l ->
  forall x, x ∈ l ++ [current] <-> x = current \/ prior_review stored current x.
Proof. intros Hl x. rewrite elem_of_snoc, (matching_reviews_elem _ _ _ Hl). naive_solver. Qed.

Lemma reviewer_ids rps :
  (forall rp, rp ∈ rps -> is_Some rp.(rp_reviewer_id)) ->
  exists ids, Forall2 (fun rp id => rp.(rp_reviewer_id) = Some id) rps ids.
Proof.
  induction rps as [|rp rps IH]; intros Hsome; [by exists []|].
  destruct IH as [ids Hids]; [set_solver|]. destruct (Hsome rp) as [id Hid]; [set_solver|].
  exists (id :: ids). by constructor.
Qed.

Lemma required_ids_policy p l out :
  required_ids (Some p) l = Ok out <->
  exists ids, out = Some ids
    /\ Forall2 (fun rp id => rp.(rp_reviewer_id) = Some id) (required_reviewers p) ids.
Proof.
  unfold required_ids.
  assert (Hmap : forall rps ids, try_map (fun r => ok_or r.(rp_reviewer_id) InvalidBinding) rps = Ok ids
    <-> Forall2 (fun rp id => rp.(rp_reviewer_id) = Some id) rps ids).
  { induction rps as [|rp rps IH]; intros ids; simpl.
    - split; [intros [= <-]; constructor|]. by intros ->%Forall2_nil_inv_l.
    - split.
      + intros Ht. open_ok. subst. constructor; [done|]. by apply IH.
      + intros (id & ids' & Hid & Hrest & ->)%Forall2_cons_inv_l. rewrite Hid. simpl.
        by rewrite (proj2 (IH ids') Hrest). }
  destruct (try_map _ _) as [ids|e] eqn:Ht; simpl.
  - split; [intros [= <-]; exists ids; split; [done|by apply Hmap]|].
    intros (ids' & -> & Hf%Hmap). congruence.
  - split; [done|]. intros (ids' & _ & Hf%Hmap). congruence.
Qed.

Lemma join_verdict_approved required matching :
  join_verdict required matching = Ok Ev.ReviewsApproved <->
  (forall id, id ∈ required -> exists x, x ∈ matching /\ x.(rv_reviewer_id) = id)
  /\ (forall x, x ∈ matching -> x.(rv_outcome) = ReviewOutcome.Approve /\ x.(rv_reviewer_id) ∈ required).
Proof.
  unfold join_verdict. destruct (forallb _ required) eqn:Hall; simpl; split.
  - intros Hj. apply bind_ok in Hj as ([] & Hok & Hj). apply err_if_ok in Hok.
    apply orb_false_iff in Hok as [Hids Hjoin]. destruct (existsb (has_outcome _) _) eqn:Hchg; [done|].
    apply exists_row_false in Hids. apply exists_row_false in Hjoin. apply exists_row_false in Hchg.
    rewrite Forall_forall in Hids. rewrite Forall_forall in Hjoin. rewrite Forall_forall in Hchg. split.
    + intros id Hid. eapply forallb_elem in Hall; [|done]. unfold one_of in Hall. bools.
      apply list_elem_of_fmap in Hall as (x & -> & Hx). eauto.
    + intros x Hx. specialize (Hids _ (list_elem_of_fmap_2 rv_reviewer_id _ _ Hx)).
      specialize (Hjoin x Hx). specialize (Hchg x Hx). unfold one_of, joinable, has_outcome in *. bools.
      split; [|done]. destruct (rv_outcome x); simpl in *; congruence.
  - intros [_ Hx]. replace (existsb _ (rv_reviewer_id <$> matching)) with false; [|symmetry].
    2: { apply exists_row_false, Forall_forall. intros id (x & -> & Hin)%list_elem_of_fmap.
         apply negb_false_iff, bool_decide_eq_true. by apply Hx. }
    replace (existsb (fun r => negb (joinable r)) matching) with false; [|symmetry].
    2: { apply exists_row_false, Forall_forall. intros x Hin. destruct (Hx x Hin) as [Ho _].
         unfold joinable, has_outcome. by rewrite Ho. }
    replace (existsb (has_outcome _) matching) with false; [done|symmetry].
    apply exists_row_false, Forall_forall. intros x Hin. destruct (Hx x Hin) as [Ho _].
    unfold has_outcome. by rewrite Ho.
  - done.
  - intros [Hreq _]. exfalso. apply not_true_iff_false in Hall. apply Hall, forallb_forall.
    intros id Hid%list_elem_of_In. destruct (Hreq id Hid) as (x & Hx & <-).
    apply bool_decide_eq_true. by apply list_elem_of_fmap_2.
Qed.

(** ** Theorems *)


(** C7: Reviews are approved exactly when every required reviewer approved.  With
    the workflow policy at hand, the join of a review reports that the reviews are
    approved if and only if all stored runs of the cohort are readable, its author
    had not reported before, each required reviewer of the policy reported on the
    same plan, round, pull request and head, and each of these reports, the new
    one included, is an approval by a required reviewer. *)
Theorem reviews_approved_iff_all_required (s : Store) (c : StoredCase) (p : WorkflowPolicy)
  (current : ReviewResult) (stored : list StoredRun)
  (Hstored : current_review_runs_for_case c.(sc_case_key) s = Ok stored) :
  let cohort x := x = current \/ prior_review stored current x in
  join_review s c (Some p) current = Ok Ev.ReviewsApproved <->
  (forall run, run ∈ stored -> is_Some (Contracts.decode run.(sr_payload)))
  /\ (forall x, prior_review stored current x -> x.(rv_reviewer_id) <> current.(rv_reviewer_id))
  /\ (forall rp, rp ∈ required_reviewers p ->
       exists x, cohort x /\ rp.(rp_reviewer_id) = Some x.(rv_reviewer_id))
  /\ (forall x, cohort x -> x.(rv_outcome) = ReviewOutcome.Approve
       /\ exists rp, rp ∈ required_reviewers p /\ rp.(rp_reviewer_id) = Some x.(rv_reviewer_id)).
Proof.
  intros cohort. unfold join_review. rewrite Hstored. cbn [map_err]. split.
  - intros Hj. apply bind_ok in Hj as (? & [= <-] & Hj). apply bind_ok in Hj as (l & Hl & Hj).
    apply bind_ok in Hj as ([] & Hdup & Hj). apply err_if_ok in Hdup.
    apply bind_ok in Hj as (req & Hreq & Hj). apply required_ids_policy in Hreq as (ids & -> & Hids).
    apply join_verdict_approved in Hj as [Hall Happ].
    pose proof (matching_reviews_elem _ _ _ Hl) as Hel.
    pose proof (matching_reviews_cohort _ _ _ Hl) as Hco.
    split_and!.
    + apply (matching_reviews_ok current). eauto.
    + intros x Hx%Hel. apply exists_row_false in Hdup. rewrite Forall_forall in Hdup.
      specialize (Hdup x Hx). by apply String.eqb_neq.
    + intros rp Hrp. destruct (Forall2_elem_l _ _ _ _ Hids Hrp) as (id & Hid & Hrid).
      destruct (Hall id Hid) as (x & Hx & <-). exists x. split; [by apply Hco|done].
    + intros x Hx%Hco. destruct (Happ x Hx) as [Ho Hin]. split; [done|].
      exact (Forall2_elem_r _ _ _ _ Hids Hin).
  - intros (Hdec & Hdup & Hall & Happ).
    apply (matching_reviews_ok current) in Hdec as [l Hl].
    pose proof (matching_reviews_elem _ _ _ Hl) as Hel.
    pose proof (matching_reviews_cohort _ _ _ Hl) as Hco.
    destruct (reviewer_ids (required_reviewers p)) as [ids Hids].
    { intros rp Hrp. destruct (Hall rp Hrp) as (x & _ & Hx). by eexists. }
    apply bind_ok. exists stored. split; [done|]. apply bind_ok. exists l. split; [done|].
    apply bind_ok. exists (). split.
    { apply err_if_ok, exists_row_false, Forall_forall. intros x Hx%Hel. by apply String.eqb_neq, Hdup. }
    apply bind_ok. exists (Some ids). split; [apply required_ids_policy; eauto|].
    apply join_verdict_approved. split.
    + intros id Hid. destruct (Forall2_elem_r _ _ _ _ Hids Hid) as (rp & Hrp & Hrid).
      destruct (Hall rp Hrp) as (x & Hx & Hxid). exists x. split; [by apply Hco|congruence].
    + intros x Hx%Hco. destruct (Happ x Hx) as [Ho (rp & Hrp & Hrid)]. split; [done|].
      destruct (Forall2_elem_l _ _ _ _ Hids Hrp) as (id & Hid & Hrid'). congruence.
Qed.

(** A result moves only its own stage and binds nothing.  A result that is
    ingested comes from the worker of the stage the case is in (a planner in
    planning; a builder in building or remediation, or ready to build; a reviewer
    in review; the final reviewer in final review right after an accepted
    preflight), and afterwards the case has the same pull request, head and plan
    version: only published builds and plans change those. *)
Theorem ingestion_keeps_bindings (policy : CasePolicy) (wp : option WorkflowPolicy)
  (b : WorkerBinding) (r : WorkerResult) (n : Z) (s s1 : Store) (Hreach : reachable s)
  (Hingest : ingest_worker_result_inner policy wp b r s = Ok (IngestApplied n, s1)) :
  exists id before after,
    case_id b = Ok id /\ query_case s (case_key id) = Some before
    /\ query_case s1 (case_key id) = Some after /\ same_bindings before after
    /\ match r with
       | PlannerR _ => before.(sc_state) = "PLANNING"%string
       | BuilderR _ => one_of ["READY_TO_BUILD"; "BUILDING"; "REMEDIATING"]%string before.(sc_state) = true
       | ReviewR _ => before.(sc_state) = "REVIEWING"%string
       | FinalR _ => before.(sc_state) = "FINAL_REVIEW"%string
           /\ latest_event_type before.(sc_case_key) s = Some "FINAL_PREFLIGHT_ACCEPTED"%string
       end.
Proof.
  apply ingest_applied_inv in Hingest as (_ & _ & id & stored & a & Hid & Hst & Hcmd).
  apply reachable_inv in Hreach as Hinv. unfold query_case in *.
  destruct (find_case s (case_key id)) as [c|] eqn:Hc; [|done]. injection Hst as <-.
  pose proof (inv_positive _ _ Hinv c (proj1 (find_case_elem _ _ _ Hc))) as Hpos.
  assert (0 <= c.(c_state_revision)) as Hpos0 by lia.
  exists id, (stored_case c). pose proof Hc as Hcid.
  destruct Hcmd as [(w & _ & Hw & Ha)|(w0 & rev & w & _ & Hb & Hs & Hw0 & Hw & Ha)];
    apply result_workflow_inv in Hw as (Hwid & Hk & Hstage).
  - rewrite <-Hwid in Hc. destruct (applied_command_keeps _ _ _ _ _ _ Hk Ha Hc Hpos0) as (c' & Hc' & Hsame).
    rewrite Hwid in Hc'. exists (stored_case c'). rewrite Hcid, Hc'. do 4 (split; [done|]).
    destruct r; try done. eapply one_of_weaken; [|done]. set_solver.
  - assert (keeps w0 /\ w0.(wc_case_id) = id) as [Hk0 Hwid0].
    { apply workflow_command_inv in Hw0 as (? & Hev & _ & _ & _ & _ & Hacc & _).
      split; [|done]. by split; [rewrite Hev|]. }
    rewrite <-Hwid0 in Hc. assert (w.(wc_case_id) = w0.(wc_case_id)) as Hids by congruence.
    destruct (applied_pair_keeps _ _ _ _ _ _ _ Hk0 Hk Hids Ha Hc Hpos0) as (c' & Hc' & Hsame).
    rewrite Hwid0 in Hc'. exists (stored_case c'). rewrite Hcid, Hc'. do 4 (split; [done|]).
    destruct r; try done. by rewrite Hs.
Qed.
End ingest.

(** ** An execution

    A plan recorded by its planner, and the two required reviews of one head. *)

Definition demo_commit : string := "abcdefabcdefabcdefabcdefabcdefabcdefabcd".
Definition demo_common (task : string) (r : WorkerRole) : CommonResult := {|
  contract_version := 2; cr_workflow_version := 3;
  case := {| repository_id := 1; issue_number := 2; workflow_version := 3 |};
  task_id := task; role := r; requested_model := "p/m"; actual_model := "p/m";
  skills_repository_commit := demo_commit; started_at_unix := 150; completed_at_unix := 160;
  Contracts.evidence := [] |}.
Definition demo_bound (task : string) (r : WorkerRole) (id : option string) : WorkerBinding := {|
  wb_case := case (demo_common task r); wb_task_id := task; wb_role := r; wb_reviewer_id := id;
  wb_review_mode := (fun _ => Required) <$> id; wb_requested_model := "p/m";
  wb_skills_repository_commit := demo_commit; wb_plan_version := 1;
  wb_pr_number := (fun _ => 7) <$> id; wb_expected_head_sha := (fun _ => demo_head) <$> id |}.

Definition demo_plan : WorkerResult := PlannerR {|
  pl_common := demo_common "plan-1" Planner; pl_outcome := PlannerOutcome.Proceed;
  pl_plan_version := 1; pl_planned_base_sha := demo_head; pl_root_cause := "cause";
  pl_authorized_scope := "scope"; pl_sensitive_scope := []; pl_dependencies := [];
  pl_open_decisions := []; pl_plan_artifact := "plan" |}.
Definition demo_plan_binding : WorkerBinding := demo_bound "plan-1" Planner None.
Definition demo_review (task : string) (r : WorkerRole) (id : string) : ReviewResult := {|
  rv_common := demo_common task r; rv_reviewer_id := id; rv_outcome := ReviewOutcome.Approve;
  rv_plan_version := 1; rv_review_round := 1; rv_pr_number := 7; rv_reviewed_head_sha := demo_head;
  rv_blocking_findings := []; rv_suggestions := []; rv_finding_confirmations := [] |}.

Definition demo_role (r : WorkerRole) (id : string) : RolePolicy := {|
  rp_role := r; rp_reviewer_id := Some id; rp_review_mode := Some Required; rp_profile := id;
  rp_execution := RolePolicy.Hermes; rp_provider := "p"; rp_model := "m"; rp_max_runtime := "1h";
  rp_priority := 1; rp_skills := ["workflow-contract"%string; role_skill_name r] |}.
Definition demo_workflow : WorkflowPolicy := {|
  wp_board := "board"; wp_workspace := "/work"; wp_branch_prefix := "p/";
  wp_sensitive_scope_categories := []; wp_max_provider_failures := 1;
  wp_max_hermes_attempts := None; wp_hermes_scratch_root := None; wp_isolated_reviews := false;
  wp_cargo_jobs := None;
  wp_roles := [demo_role ReviewerGeneral "general"; demo_role ReviewerSecperf "secperf"] |}.

(** The store an ingestion leaves. *)
Definition ingested (m : result IngestError (IngestResult * Store)) : Store :=
  match m with Ok (_, s) => s | Err _ => empty_store end.
Definition applied_one (m : result IngestError (IngestResult * Store)) : bool :=
  match m with Ok (IngestApplied n, _) => n =? 1 | _ => false end.
Lemma applied_one_eq m : applied_one m = true -> m = Ok (IngestApplied 1, ingested m).
Proof. destruct m as [[[n|] s]|]; simpl; try done. by intros ->%Z.eqb_eq. Qed.
Definition demo_planned : Store :=
  ingested (ingest_worker_result_inner (H := demo_codec) demo_budget None demo_plan_binding demo_plan
              demo_opened).
Definition demo_general : ReviewResult := demo_review "review-1" ReviewerGeneral "general".
Definition demo_secperf : ReviewResult := demo_review "review-2" ReviewerSecperf "secperf".
Definition demo_half_reviewed : Store :=
  ingested (ingest_worker_result_with_policy (H := demo_codec) demo_budget demo_workflow
              (demo_bound "review-1" ReviewerGeneral (Some "general"%string)) (ReviewR demo_general)
              demo_reviewing).

Lemma demo_opened_store_reachable : reachable (H := demo_codec) demo_opened.
Proof.
  eapply rtc_l; [|reflexivity].
  eapply (step_create_case (H := demo_codec) _ _ demo_opening Applied); [by split_and!|by vm_compute].
Qed.
Lemma demo_plan_ingested :
  ingest_worker_result_inner (H := demo_codec) demo_budget None demo_plan_binding demo_plan demo_opened
  = Ok (IngestApplied 1, demo_planned).
Proof. apply applied_one_eq. vm_compute. reflexivity. Qed.


Lemma ingestion_keeps_bindings_witness :
  exists before after, query_case demo_opened (case_key demo_id) = Some before
    /\ query_case demo_planned (case_key demo_id) = Some after /\ same_bindings before after.
Proof.
  destruct (ingestion_keeps_bindings (H := demo_codec) demo_budget None demo_plan_binding demo_plan 1
              demo_opened demo_planned demo_opened_store_reachable demo_plan_ingested)
    as (id & before & after & Hid & Hb & Ha & Hs & _).
  assert (id = demo_id) as -> by (clear -Hid; vm_compute in Hid; by simplify_eq).
  exists before, after. split; [assumption|]. split; assumption.
Defined.

Definition demo_case_key : string := case_key demo_id.
Definition demo_seen : StoredCase := {|
  sc_case_key := demo_case_key; sc_repository_id := 1; sc_issue_number := 2;
  sc_workflow_version := 3; sc_state := "REVIEWING"; sc_state_revision := 8;
  sc_policy_revision := 1; sc_remediation_round := 0; sc_plan_version := 1;
  sc_pr_number := Some 7; sc_head_sha := Some demo_head |}.

Lemma reviews_approved_iff_all_required_witness :
  exists stored,
    query_case demo_half_reviewed demo_case_key = Some demo_seen
    /\ current_review_runs_for_case (H := demo_codec) demo_case_key demo_half_reviewed = Ok stored
    /\ length stored = 1%nat
    /\ forall rp, rp ∈ required_reviewers demo_workflow ->
         exists x, (x = demo_secperf \/ prior_review stored demo_secperf x)
           /\ rp.(rp_reviewer_id) = Some x.(rv_reviewer_id).
Proof.
  destruct (current_review_runs_for_case (H := demo_codec) demo_case_key demo_half_reviewed)
    as [stored|] eqn:Hs; [|vm_compute in Hs; discriminate Hs].
  exists stored. split; [vm_compute; reflexivity|]. split; [reflexivity|].
  split; [clear -Hs; vm_compute in Hs; injection Hs as <-; reflexivity|].
  assert (Hj : join_review (H := demo_codec) demo_half_reviewed demo_seen (Some demo_workflow)
                 demo_secperf = Ok Ev.ReviewsApproved) by (vm_compute; reflexivity).
  destruct (proj1 (reviews_approved_iff_all_required (H := demo_codec) demo_half_reviewed demo_seen
              demo_workflow demo_secperf stored Hs) Hj) as (_ & _ & Hreq & _).
  exact Hreq.
Defined.
