(* ===== verification/Policy.v ===== *)
(** * Policy: the versioned policy of a repository (crates/pip-control/src/policy.rs)

    [RepositoryPolicy] with its derived encoding and decoding, the strict
    validation of [load_repository_policy], and what the rest of the program
    derives from a loaded policy.  Where the source calls [expect] on a value
    that validation guarantees, the definition returns [None]. *)

From S2P Require Import Prelude Text Parse Json Serde Contracts RolePolicy StateMachine Revision Intake.
From Stdlib Require Import Ascii.
Open Scope Z_scope.

(** ** Configuration *)

Record RepositoryIdentity := {
  rid_id : Z; rid_owner : string; rid_name : string; rid_default_branch : string;
}.
Definition full_name (r : RepositoryIdentity) : string := rid_owner r +:+ "/" +:+ rid_name r.

Record IntakeConfiguration := {
  ic_enabled : bool; ic_paused : bool; ic_label : string; ic_trusted_actor_ids : list Z;
  ic_excluded_issue_numbers : list Z; ic_held_issue_numbers : list Z;
  ic_repository_active_limit : Z; ic_global_active_limit : Z;
}.
Record ExecutionCapacity := {
  ec_native_sessions : Z; ec_builders : Z; ec_direct_reviewers : Z; ec_ready_plans : Z;
  ec_cargo_jobs : Z;
}.
Record GitHubConfiguration := {
  gc_automation_actor_id : option Z; gc_reviewer_general_actor_id : option Z;
  gc_reviewer_secperf_actor_id : option Z;
}.
Inductive MergeModeConfiguration := ShadowConfigured | GuardedConfigured.
Record MergeConfiguration := {
  mc_mode : MergeModeConfiguration; mc_autonomous : bool; mc_method : string;
}.
Inductive ExecutionConfiguration := HermesExecution | DirectExecution.
Record RoleConfiguration := {
  rc_role : WorkerRole; rc_reviewer_id : option string; rc_review_mode : option ReviewMode;
  rc_profile : string; rc_execution : ExecutionConfiguration; rc_provider : string;
  rc_model : string; rc_reasoning_effort : option string; rc_max_runtime : string;
  rc_priority : Z; rc_skills : list string;
}.
Record WorkspaceStorageConfiguration := {
  ws_require_distinct_filesystem : bool; ws_minimum_free_bytes : Z;
  ws_terminal_retention_seconds : Z;
}.
Record ConversationModel := {
  cm_provider : string; cm_model : string; cm_reasoning_effort : string;
}.
Record RepositoryPolicy := {
  po_conversations_enabled : bool; po_conversation_model : option ConversationModel;
  po_policy_format : Z; po_revision : Z; po_repository : RepositoryIdentity; po_board : string;
  po_workflow_version : Z; po_checkout : string; po_workspace : string; po_artifacts : string;
  po_workspace_storage : WorkspaceStorageConfiguration; po_branch_prefix : string;
  po_github : GitHubConfiguration; po_intake : IntakeConfiguration; po_dispatch_enabled : bool;
  po_execution_capacity : option ExecutionCapacity; po_merge : MergeConfiguration;
  po_max_remediation_rounds : Z; po_max_case_elapsed_seconds : Z; po_max_provider_failures : Z;
  po_max_hermes_attempts : option Z; po_max_outage_seconds : option Z;
  po_max_stall_seconds : option Z; po_hermes_scratch_root : option string;
  po_max_repeated_finding_fingerprint : Z; po_sensitive_scope_categories : list string;
  po_required_ci_contexts : list string; po_roles : list RoleConfiguration;
}.

#[export] Instance merge_mode_configuration_eq_dec : EqDecision MergeModeConfiguration.
Proof. solve_decision. Defined.
#[export] Instance execution_configuration_eq_dec : EqDecision ExecutionConfiguration.
Proof. solve_decision. Defined.
#[export] Instance repository_identity_eq_dec : EqDecision RepositoryIdentity.
Proof. solve_decision. Defined.

(** ** Encoding ([Serialize]) *)

Definition opt_field {A} (k : string) (f : A -> Value) (o : option A) : list (string * Value) :=
  match o with Some a => [(k, f a)] | None => [] end.

Definition ser_identity (r : RepositoryIdentity) : Value :=
  json_object [("id", Number (rid_id r)); ("owner", Str (rid_owner r)); ("name", Str (rid_name r));
               ("default_branch", Str (rid_default_branch r))].
Definition numbers (l : list Z) : Value := Array (Number <$> l).
Definition ser_intake (i : IntakeConfiguration) : Value :=
  json_object [("enabled", Bool (ic_enabled i)); ("paused", Bool (ic_paused i));
               ("label", Str (ic_label i)); ("trusted_actor_ids", numbers (ic_trusted_actor_ids i));
               ("excluded_issue_numbers", numbers (ic_excluded_issue_numbers i));
               ("held_issue_numbers", numbers (ic_held_issue_numbers i));
               ("repository_active_limit", Number (ic_repository_active_limit i));
               ("global_active_limit", Number (ic_global_active_limit i))].
Definition ser_capacity (c : ExecutionCapacity) : Value :=
  json_object [("native_sessions", Number (ec_native_sessions c)); ("builders", Number (ec_builders c));
               ("direct_reviewers", Number (ec_direct_reviewers c));
               ("ready_plans", Number (ec_ready_plans c)); ("cargo_jobs", Number (ec_cargo_jobs c))].
Definition ser_github (g : GitHubConfiguration) : Value :=
  json_object [("automation_actor_id", opt_number (gc_automation_actor_id g));
               ("reviewer_general_actor_id", opt_number (gc_reviewer_general_actor_id g));
               ("reviewer_secperf_actor_id", opt_number (gc_reviewer_secperf_actor_id g))].
Definition merge_mode_name (m : MergeModeConfiguration) : string :=
  match m with ShadowConfigured => "shadow" | GuardedConfigured => "guarded" end.
Definition ser_merge (m : MergeConfiguration) : Value :=
  json_object [("mode", Str (merge_mode_name (mc_mode m))); ("autonomous", Bool (mc_autonomous m));
               ("method", Str (mc_method m))].
Definition execution_name (e : ExecutionConfiguration) : string :=
  match e with HermesExecution => "hermes" | DirectExecution => "direct" end.
Definition ser_role (r : RoleConfiguration) : Value :=
  json_object ([("role", Str (role_name (rc_role r)))]
    ++ opt_field "reviewer_id" Str (rc_reviewer_id r)
    ++ opt_field "review_mode" (fun m => Str (review_mode_name m)) (rc_review_mode r)
    ++ [("profile", Str (rc_profile r)); ("execution", Str (execution_name (rc_execution r)));
        ("provider", Str (rc_provider r)); ("model", Str (rc_model r));
        ("reasoning_effort", opt_str (rc_reasoning_effort r));
        ("max_runtime", Str (rc_max_runtime r)); ("priority", Number (rc_priority r));
        ("skills", strs (rc_skills r))]).
Definition ser_storage (w : WorkspaceStorageConfiguration) : Value :=
  json_object [("require_distinct_filesystem", Bool (ws_require_distinct_filesystem w));
               ("minimum_free_bytes", Number (ws_minimum_free_bytes w));
               ("terminal_retention_seconds", Number (ws_terminal_retention_seconds w))].
Definition ser_conversation_model (c : ConversationModel) : Value :=
  json_object [("provider", Str (cm_provider c)); ("model", Str (cm_model c));
               ("reasoning_effort", Str (cm_reasoning_effort c))].

(** [serde_json::to_value(policy)]. *)
Definition ser_policy (p : RepositoryPolicy) : Value :=
  json_object ((if po_conversations_enabled p then [("conversations_enabled", Bool true)] else [])
    ++ opt_field "conversation_model" ser_conversation_model (po_conversation_model p)
    ++ [("policy_format", Number (po_policy_format p)); ("revision", Number (po_revision p));
        ("repository", ser_identity (po_repository p)); ("board", Str (po_board p));
        ("workflow_version", Number (po_workflow_version p)); ("checkout", Str (po_checkout p));
        ("workspace", Str (po_workspace p)); ("artifacts", Str (po_artifacts p));
        ("workspace_storage", ser_storage (po_workspace_storage p));
        ("branch_prefix", Str (po_branch_prefix p)); ("github", ser_github (po_github p));
        ("intake", ser_intake (po_intake p)); ("dispatch_enabled", Bool (po_dispatch_enabled p))]
    ++ opt_field "execution_capacity" ser_capacity (po_execution_capacity p)
    ++ [("merge", ser_merge (po_merge p));
        ("max_remediation_rounds", Number (po_max_remediation_rounds p));
        ("max_case_elapsed_seconds", Number (po_max_case_elapsed_seconds p));
        ("max_provider_failures", Number (po_max_provider_failures p))]
    ++ opt_field "max_hermes_attempts" Number (po_max_hermes_attempts p)
    ++ opt_field "max_outage_seconds" Number (po_max_outage_seconds p)
    ++ opt_field "max_stall_seconds" Number (po_max_stall_seconds p)
    ++ opt_field "hermes_scratch_root" Str (po_hermes_scratch_root p)
    ++ [("max_repeated_finding_fingerprint", Number (po_max_repeated_finding_fingerprint p));
        ("sensitive_scope_categories", strs (po_sensitive_scope_categories p));
        ("required_ci_contexts", strs (po_required_ci_contexts p));
        ("roles", Array (ser_role <$> po_roles p))]).

(** ** Decoding ([Deserialize], unknown fields denied) *)

Definition as_bool (v : Value) : option bool := match v with Bool b => Some b | _ => None end.
Definition option_field {A} (m : list (string * Value)) (k : string) (de : Value -> option A)
  : option (option A) := de_option de (map_get k m).

Definition de_identity (v : Value) : option RepositoryIdentity :=
  m ← as_struct ["id"; "owner"; "name"; "default_branch"] v;
  i ← field m "id" de_u64;
  o ← field m "owner" as_str;
  n ← field m "name" as_str;
  d ← field m "default_branch" as_str;
  Some {| rid_id := i; rid_owner := o; rid_name := n; rid_default_branch := d |}.
Definition de_intake (v : Value) : option IntakeConfiguration :=
  m ← as_struct ["enabled"; "paused"; "label"; "trusted_actor_ids"; "excluded_issue_numbers";
                 "held_issue_numbers"; "repository_active_limit"; "global_active_limit"] v;
  e ← field m "enabled" as_bool;
  p ← field m "paused" as_bool;
  l ← field m "label" as_str;
  t ← field m "trusted_actor_ids" (de_vec de_u64);
  x ← field m "excluded_issue_numbers" (de_vec de_u64);
  h ← field m "held_issue_numbers" (de_vec de_u64);
  r ← field m "repository_active_limit" de_u32;
  g ← field m "global_active_limit" de_u32;
  Some {| ic_enabled := e; ic_paused := p; ic_label := l; ic_trusted_actor_ids := t;
          ic_excluded_issue_numbers := x; ic_held_issue_numbers := h;
          ic_repository_active_limit := r; ic_global_active_limit := g |}.
Definition de_capacity (v : Value) : option ExecutionCapacity :=
  m ← as_struct ["native_sessions"; "builders"; "direct_reviewers"; "ready_plans"; "cargo_jobs"] v;
  n ← field m "native_sessions" de_u32;
  b ← field m "builders" de_u32;
  d ← field m "direct_reviewers" de_u32;
  r ← field m "ready_plans" de_u32;
  c ← field m "cargo_jobs" de_u32;
  Some {| ec_native_sessions := n; ec_builders := b; ec_direct_reviewers := d; ec_ready_plans := r;
          ec_cargo_jobs := c |}.
Definition de_github (v : Value) : option GitHubConfiguration :=
  m ← as_struct ["automation_actor_id"; "reviewer_general_actor_id"; "reviewer_secperf_actor_id"] v;
  a ← option_field m "automation_actor_id" de_u64;
  g ← option_field m "reviewer_general_actor_id" de_u64;
  s ← option_field m "reviewer_secperf_actor_id" de_u64;
  Some {| gc_automation_actor_id := a; gc_reviewer_general_actor_id := g;
          gc_reviewer_secperf_actor_id := s |}.
Definition de_merge (v : Value) : option MergeConfiguration :=
  m ← as_struct ["mode"; "autonomous"; "method"] v;
  o ← field m "mode" (de_enum [ShadowConfigured; GuardedConfigured] merge_mode_name);
  a ← field m "autonomous" as_bool;
  t ← field m "method" as_str;
  Some {| mc_mode := o; mc_autonomous := a; mc_method := t |}.
Definition de_role_configuration (v : Value) : option RoleConfiguration :=
  m ← as_struct ["role"; "reviewer_id"; "review_mode"; "profile"; "execution"; "provider"; "model";
                 "reasoning_effort"; "max_runtime"; "priority"; "skills"] v;
  r ← field m "role" de_role;
  i ← option_field m "reviewer_id" as_str;
  rm ← option_field m "review_mode" (de_enum [Required; Advisory; ShadowMode] review_mode_name);
  p ← field m "profile" as_str;
  e ← field m "execution" (de_enum [HermesExecution; DirectExecution] execution_name);
  pr ← field m "provider" as_str;
  mo ← field m "model" as_str;
  re ← option_field m "reasoning_effort" as_str;
  mr ← field m "max_runtime" as_str;
  py ← field m "priority" de_u32;
  sk ← field m "skills" (de_vec as_str);
  Some {| rc_role := r; rc_reviewer_id := i; rc_review_mode := rm; rc_profile := p;
          rc_execution := e; rc_provider := pr; rc_model := mo; rc_reasoning_effort := re;
          rc_max_runtime := mr; rc_priority := py; rc_skills := sk |}.
Definition de_storage (v : Value) : option WorkspaceStorageConfiguration :=
  m ← as_struct ["require_distinct_filesystem"; "minimum_free_bytes"; "terminal_retention_seconds"] v;
  r ← field m "require_distinct_filesystem" as_bool;
  f ← field m "minimum_free_bytes" de_u64;
  t ← field m "terminal_retention_seconds" de_u64;
  Some {| ws_require_distinct_filesystem := r; ws_minimum_free_bytes := f;
          ws_terminal_retention_seconds := t |}.
Definition de_conversation_model (v : Value) : option ConversationModel :=
  m ← as_struct ["provider"; "model"; "reasoning_effort"] v;
  p ← field m "provider" as_str;
  o ← field m "model" as_str;
  r ← field m "reasoning_effort" as_str;
  Some {| cm_provider := p; cm_model := o; cm_reasoning_effort := r |}.

Definition policy_fields : list string :=
  ["conversations_enabled"; "conversation_model"; "policy_format"; "revision"; "repository"; "board";
   "workflow_version"; "checkout"; "workspace"; "artifacts"; "workspace_storage"; "branch_prefix";
   "github"; "intake"; "dispatch_enabled"; "execution_capacity"; "merge"; "max_remediation_rounds";
   "max_case_elapsed_seconds"; "max_provider_failures"; "max_hermes_attempts"; "max_outage_seconds";
   "max_stall_seconds"; "hermes_scratch_root"; "max_repeated_finding_fingerprint";
   "sensitive_scope_categories"; "required_ci_contexts"; "roles"].

Definition de_policy (v : Value) : option RepositoryPolicy :=
  m ← as_struct policy_fields v;
  ce ← match map_get "conversations_enabled" m with None => Some false | Some v => as_bool v end;
  cm ← option_field m "conversation_model" de_conversation_model;
  pf ← field m "policy_format" de_u32;
  rv ← field m "revision" de_u64;
  rp ← field m "repository" de_identity;
  bd ← field m "board" as_str;
  wv ← field m "workflow_version" de_u32;
  co ← field m "checkout" as_str;
  wk ← field m "workspace" as_str;
  ar ← field m "artifacts" as_str;
  st ← field m "workspace_storage" de_storage;
  bp ← field m "branch_prefix" as_str;
  gh ← field m "github" de_github;
  it ← field m "intake" de_intake;
  de ← field m "dispatch_enabled" as_bool;
  ec ← option_field m "execution_capacity" de_capacity;
  mg ← field m "merge" de_merge;
  mr ← field m "max_remediation_rounds" de_u32;
  me ← field m "max_case_elapsed_seconds" de_u64;
  mp ← field m "max_provider_failures" de_u32;
  mh ← option_field m "max_hermes_attempts" de_u32;
  mo ← option_field m "max_outage_seconds" de_u64;
  ms ← option_field m "max_stall_seconds" de_u64;
  hs ← option_field m "hermes_scratch_root" as_str;
  mf ← field m "max_repeated_finding_fingerprint" de_u32;
  ss ← field m "sensitive_scope_categories" (de_vec as_str);
  ci ← field m "required_ci_contexts" (de_vec as_str);
  rl ← field m "roles" (de_vec de_role_configuration);
  Some {| po_conversations_enabled := ce; po_conversation_model := cm; po_policy_format := pf;
          po_revision := rv; po_repository := rp; po_board := bd; po_workflow_version := wv;
          po_checkout := co; po_workspace := wk; po_artifacts := ar; po_workspace_storage := st;
          po_branch_prefix := bp; po_github := gh; po_intake := it; po_dispatch_enabled := de;
          po_execution_capacity := ec; po_merge := mg; po_max_remediation_rounds := mr;
          po_max_case_elapsed_seconds := me; po_max_provider_failures := mp;
          po_max_hermes_attempts := mh; po_max_outage_seconds := mo; po_max_stall_seconds := ms;
          po_hermes_scratch_root := hs; po_max_repeated_finding_fingerprint := mf;
          po_sensitive_scope_categories := ss; po_required_ci_contexts := ci; po_roles := rl |}.

(** ** Derived limits and policies *)

Definition DEFAULT_MAX_OUTAGE_SECONDS : Z := 6 * 60 * 60.
Definition outage_limit_seconds (p : RepositoryPolicy) : Z :=
  default DEFAULT_MAX_OUTAGE_SECONDS (po_max_outage_seconds p).

(** [strip_prefix("PT")?.strip_suffix('M')?.parse::<u64>().ok()]. *)
Definition runtime_minutes (text : string) : option Z :=
  t ← strip_prefix "PT" text; t ← strip_suffix_char "M"%char t; parse_u64 t.

(** Release builds wrap: the product and the sum are taken modulo 2^64. *)
Definition stall_limit_seconds (p : RepositoryPolicy) : Z :=
  match po_max_stall_seconds p with
  | Some limit => limit
  | None =>
      let longest := foldr Z.max 0 (omap (fun r => runtime_minutes (rc_max_runtime r)) (po_roles p)) in
      Z.max ((longest * 60 + 2 * 60 * 60) mod (u64_max + 1)) (4 * 60 * 60)
  end.

Definition is_hermes (r : RoleConfiguration) : bool := bool_decide (rc_execution r = HermesExecution).
Definition is_shadow (m : MergeConfiguration) : bool := bool_decide (mc_mode m = ShadowConfigured).

Definition conversation_binding (p : RepositoryPolicy) : option RoleConfiguration :=
  role ← List.find (fun r => bool_decide (rc_role r = Planner) && is_hermes r) (po_roles p);
  Some match po_conversation_model p with
       | Some b => {| rc_role := rc_role role; rc_reviewer_id := rc_reviewer_id role;
                      rc_review_mode := rc_review_mode role; rc_profile := rc_profile role;
                      rc_execution := rc_execution role; rc_provider := cm_provider b;
                      rc_model := cm_model b; rc_reasoning_effort := Some (cm_reasoning_effort b);
                      rc_max_runtime := rc_max_runtime role; rc_priority := rc_priority role;
                      rc_skills := rc_skills role |}
       | None => role
       end.

(** The policy with everything operational set to a fixed value. *)
Definition normalize (p : RepositoryPolicy) : RepositoryPolicy := {|
  po_conversations_enabled := false; po_conversation_model := None;
  po_policy_format := po_policy_format p; po_revision := 1; po_repository := po_repository p;
  po_board := po_board p; po_workflow_version := po_workflow_version p;
  po_checkout := po_checkout p; po_workspace := po_workspace p; po_artifacts := po_artifacts p;
  po_workspace_storage := po_workspace_storage p; po_branch_prefix := po_branch_prefix p;
  po_github := po_github p;
  po_intake := {|
    ic_enabled := ic_enabled (po_intake p); ic_paused := ic_paused (po_intake p);
    ic_label := ic_label (po_intake p); ic_trusted_actor_ids := ic_trusted_actor_ids (po_intake p);
    ic_excluded_issue_numbers := ic_excluded_issue_numbers (po_intake p);
    ic_held_issue_numbers := ic_held_issue_numbers (po_intake p);
    ic_repository_active_limit := 1; ic_global_active_limit := 1 |};
  po_dispatch_enabled := po_dispatch_enabled p; po_execution_capacity := None;
  po_merge := po_merge p; po_max_remediation_rounds := po_max_remediation_rounds p;
  po_max_case_elapsed_seconds := 1; po_max_provider_failures := 1; po_max_hermes_attempts := None;
  po_max_outage_seconds := None; po_max_stall_seconds := None;
  po_hermes_scratch_root := po_hermes_scratch_root p; po_max_repeated_finding_fingerprint := 1;
  po_sensitive_scope_categories := po_sensitive_scope_categories p;
  po_required_ci_contexts := po_required_ci_contexts p; po_roles := po_roles p |}.

Definition with_max_runtime (runtime : string) (r : RoleConfiguration) : RoleConfiguration := {|
  rc_role := rc_role r; rc_reviewer_id := rc_reviewer_id r; rc_review_mode := rc_review_mode r;
  rc_profile := rc_profile r; rc_execution := rc_execution r; rc_provider := rc_provider r;
  rc_model := rc_model r; rc_reasoning_effort := rc_reasoning_effort r; rc_max_runtime := runtime;
  rc_priority := rc_priority r; rc_skills := rc_skills r |}.
Definition with_roles_revision (roles : list RoleConfiguration) (revision : Z) (p : RepositoryPolicy)
  : RepositoryPolicy := {|
  po_conversations_enabled := po_conversations_enabled p;
  po_conversation_model := po_conversation_model p; po_policy_format := po_policy_format p;
  po_revision := revision; po_repository := po_repository p; po_board := po_board p;
  po_workflow_version := po_workflow_version p; po_checkout := po_checkout p;
  po_workspace := po_workspace p; po_artifacts := po_artifacts p;
  po_workspace_storage := po_workspace_storage p; po_branch_prefix := po_branch_prefix p;
  po_github := po_github p; po_intake := po_intake p; po_dispatch_enabled := po_dispatch_enabled p;
  po_execution_capacity := po_execution_capacity p; po_merge := po_merge p;
  po_max_remediation_rounds := po_max_remediation_rounds p;
  po_max_case_elapsed_seconds := po_max_case_elapsed_seconds p;
  po_max_provider_failures := po_max_provider_failures p;
  po_max_hermes_attempts := po_max_hermes_attempts p;
  po_max_outage_seconds := po_max_outage_seconds p; po_max_stall_seconds := po_max_stall_seconds p;
  po_hermes_scratch_root := po_hermes_scratch_root p;
  po_max_repeated_finding_fingerprint := po_max_repeated_finding_fingerprint p;
  po_sensitive_scope_categories := po_sensitive_scope_categories p;
  po_required_ci_contexts := po_required_ci_contexts p; po_roles := roles |}.

(** A builder ceiling between one minute and four hours. *)
Definition builder_minutes (text : string) : option Z :=
  n ← runtime_minutes text; if (1 <=? n) && (n <=? 240) then Some n else None.

(** A longer builder ceiling is replaced by the accepted one; a shorter or
    unreadable one makes the policies incompatible. *)
Definition compatible_role (role old : RoleConfiguration) : option RoleConfiguration :=
  if bool_decide (rc_role role = Builder) && bool_decide (rc_role old = Builder)
     && negb (String.eqb (rc_max_runtime role) (rc_max_runtime old)) then
    new ← builder_minutes (rc_max_runtime role);
    previous ← builder_minutes (rc_max_runtime old);
    if new <=? previous then None else Some (with_max_runtime (rc_max_runtime old) role)
  else Some role.

Definition execution_policy_for (live accepted : RepositoryPolicy) : option RepositoryPolicy :=
  if negb (Nat.eqb (length (po_roles live)) (length (po_roles accepted))) then None else
  roles ← mapM (fun '(role, old) => compatible_role role old) (zip (po_roles live) (po_roles accepted));
  let compatible := with_roles_revision roles (po_revision live) live in
  if negb (bool_decide (ser_policy (normalize compatible) = ser_policy (normalize accepted)))
  then None
  else Some (with_roles_revision roles (po_revision accepted) compatible).

Definition intake_policy (global_paused : bool) (p : RepositoryPolicy) : option IntakePolicy :=
  revision ← nonzero (po_revision p);
  actors ← mapM nonzero (ic_trusted_actor_ids (po_intake p));
  repository_limit ← nonzero (ic_repository_active_limit (po_intake p));
  global_limit ← nonzero (ic_global_active_limit (po_intake p));
  Some {| ip_revision := revision; intake_enabled := ic_enabled (po_intake p);
          dispatch_enabled := po_dispatch_enabled p; global_paused := global_paused;
          repository_paused := ic_paused (po_intake p); required_label := ic_label (po_intake p);
          trusted_actor_ids := list_to_set actors; repository_active_limit := repository_limit;
          global_active_limit := global_limit |}.

Definition case_policy (p : RepositoryPolicy) : option CasePolicy :=
  revision ← nonzero (po_revision p);
  rounds ← nonzero (po_max_remediation_rounds p);
  Some {| cp_revision := revision; cp_merge_mode := if is_shadow (po_merge p) then Shadow else Guarded;
          cp_max_remediation_rounds := rounds |}.

Inductive PolicyError :=
| PolicyMalformed
| PolicyInvalid
| PolicyDispatch (e : DispatchError).

Definition role_policy_of (r : RoleConfiguration) : RolePolicy := {|
  rp_role := rc_role r; rp_reviewer_id := rc_reviewer_id r; rp_review_mode := rc_review_mode r;
  rp_profile := rc_profile r;
  rp_execution := match rc_execution r with HermesExecution => Hermes | DirectExecution => Direct end;
  rp_provider := rc_provider r; rp_model := rc_model r; rp_max_runtime := rc_max_runtime r;
  rp_priority := rc_priority r; rp_skills := rc_skills r |}.

Definition workflow_policy (p : RepositoryPolicy) : result PolicyError WorkflowPolicy :=
  map_err PolicyDispatch (
    w ← new (po_board p) (po_workspace p) (po_branch_prefix p) (role_policy_of <$> po_roles p);
    w ← match po_execution_capacity p with
        | Some capacity => with_cargo_jobs (ec_cargo_jobs capacity) (with_isolated_reviews w)
        | None => Ok w
        end;
    w ← with_sensitive_scope_categories (po_sensitive_scope_categories p) w;
    w ← with_max_provider_failures (po_max_provider_failures p) w;
    w ← match po_max_hermes_attempts p with
        | Some attempts => with_max_hermes_attempts attempts w
        | None => Ok w
        end;
    match po_hermes_scratch_root p with
    | Some root => with_hermes_scratch_root root w
    | None => Ok w
    end).

(** ** Validation *)

Definition valid_reasoning_effort (value : string) : bool :=
  one_of ["none"; "minimal"; "low"; "medium"; "high"; "xhigh"; "max"; "ultra"] value.
Definition valid_absolute_path (value : string) : bool :=
  negb ((4096 <? len value) || negb (String.eqb (trim value) value) || String.eqb value "/")
  && let '(rooted, parts) := components value in
     rooted && forallb (fun part => negb (String.eqb part "..")) parts.
Definition disjoint_paths (left right : string) : bool :=
  negb (bool_decide (components left = components right))
  && negb (path_starts_with left right) && negb (path_starts_with right left).
Definition valid_segment (value : string) : bool :=
  negb (is_empty value) && (len value <=? 256) && forallb id_byte (bytes value).
Definition valid_branch_prefix (value : string) : bool :=
  starts_with "pip/" value && ends_with_char "/" value
  && forallb valid_segment (split_on "/" (trim_end_char "/" value)).
Definition valid_git_ref (value : string) : bool :=
  negb (is_empty value) && negb (starts_with_char "/" value) && negb (ends_with_char "/" value)
  && negb (contains ".." value) && negb (contains "//" value)
  && forallb valid_segment (split_on "/" value).
Definition valid_text (value : string) (max : Z) : bool :=
  negb (blank value) && (len value <=? max) && negb (has_control value).

Definition capacity_valid (c : ExecutionCapacity) : bool :=
  forallb (fun n => (1 <=? n) && (n <=? 8))
    [ec_native_sessions c; ec_builders c; ec_direct_reviewers c; ec_ready_plans c; ec_cargo_jobs c].

(** [is_none_or]. *)
Definition none_or {A} (o : option A) (p : A -> bool) : bool :=
  match o with Some a => p a | None => true end.

Definition valid_conversation_model (b : ConversationModel) : bool :=
  valid_segment (cm_provider b) && negb (blank (cm_model b)) && (len (cm_model b) <=? 200)
  && forallb (fun c => is_ascii_alphanumeric c || bool_decide (c ∈ [45; 46; 95; 47]))
       (bytes (cm_model b))
  && valid_reasoning_effort (cm_reasoning_effort b).

(** All three identities, distinct, or none of them. *)
Definition github_actor_ids (g : GitHubConfiguration) : list (option Z) :=
  [gc_automation_actor_id g; gc_reviewer_general_actor_id g; gc_reviewer_secperf_actor_id g].
Definition github_identities_valid (g : GitHubConfiguration) : bool :=
  let ids := github_actor_ids g in
  let configured := remove_dups (omap id ids) in
  (Nat.eqb (length configured) 0 && forallb (fun o => bool_decide (o = None)) ids)
  || (Nat.eqb (length configured) (length ids) && forallb (fun o => bool_decide (is_Some o)) ids).

Definition reasoning_binding_valid (r : RoleConfiguration) : bool :=
  match rc_execution r with
  | HermesExecution => match rc_reasoning_effort r with Some e => valid_reasoning_effort e | None => false end
  | DirectExecution => bool_decide (rc_reasoning_effort r = None)
  end.

Definition known_scope : list string :=
  ["CRYPTOGRAPHY"; "MLS_CGKA"; "KEY_HANDLING"; "TRUST_ANCHOR"; "MEMBERSHIP_AUTHORIZATION";
   "ADMIN_AUTHORIZATION"; "PUSH_PAYLOAD_CONTEXT"].

(** No repeated element: the set collected from the list is as long as it. *)
Definition distinct {A} `{EqDecision A} (l : list A) : bool := bool_decide (NoDup l).

Definition valid_intake (i : IntakeConfiguration) : bool :=
  valid_segment (ic_label i) && negb (bool_decide (ic_trusted_actor_ids i = []))
  && distinct (ic_trusted_actor_ids i) && forallb (fun n => 0 <? n) (ic_trusted_actor_ids i)
  && distinct (ic_excluded_issue_numbers i) && forallb (fun n => 0 <? n) (ic_excluded_issue_numbers i)
  && distinct (ic_held_issue_numbers i) && forallb (fun n => 0 <? n) (ic_held_issue_numbers i)
  && forallb (fun n => negb (bool_decide (n ∈ ic_held_issue_numbers i))) (ic_excluded_issue_numbers i)
  && (0 <? ic_repository_active_limit i) && (0 <? ic_global_active_limit i).

Definition valid_paths (p : RepositoryPolicy) : bool :=
  valid_absolute_path (po_checkout p) && valid_absolute_path (po_workspace p)
  && valid_absolute_path (po_artifacts p)
  && disjoint_paths (po_checkout p) (po_workspace p) && disjoint_paths (po_checkout p) (po_artifacts p)
  && disjoint_paths (po_workspace p) (po_artifacts p)
  && none_or (po_hermes_scratch_root p) (fun root =>
       valid_absolute_path root && disjoint_paths root (po_checkout p)
       && disjoint_paths root (po_workspace p) && disjoint_paths root (po_artifacts p)).

Definition valid_limits (p : RepositoryPolicy) : bool :=
  (0 <? po_max_remediation_rounds p) && (0 <? po_max_case_elapsed_seconds p)
  && (0 <? po_max_provider_failures p)
  && negb (bool_decide (po_max_hermes_attempts p = Some 0))
  && negb (bool_decide (po_max_outage_seconds p = Some 0))
  && negb (bool_decide (po_max_stall_seconds p = Some 0))
  && (0 <? po_max_repeated_finding_fingerprint p).

Definition valid_policy (p : RepositoryPolicy) : bool :=
  (po_policy_format p =? 2) && none_or (po_conversation_model p) valid_conversation_model
  && (0 <? po_revision p) && (0 <? rid_id (po_repository p))
  && valid_segment (rid_owner (po_repository p)) && valid_segment (rid_name (po_repository p))
  && valid_git_ref (rid_default_branch (po_repository p)) && valid_segment (po_board p)
  && (0 <? po_workflow_version p) && valid_paths p
  && (0 <? ws_minimum_free_bytes (po_workspace_storage p))
  && (0 <? ws_terminal_retention_seconds (po_workspace_storage p))
  && valid_branch_prefix (po_branch_prefix p)
  && forallb (fun n => 0 <? n) (omap id (github_actor_ids (po_github p)))
  && github_identities_valid (po_github p)
  && (negb (po_dispatch_enabled p)
      || forallb (fun o => bool_decide (is_Some o)) (github_actor_ids (po_github p)))
  && valid_intake (po_intake p) && none_or (po_execution_capacity p) capacity_valid
  && is_shadow (po_merge p) && negb (mc_autonomous (po_merge p))
  && one_of ["merge"; "squash"; "rebase"] (mc_method (po_merge p))
  && valid_limits p
  && distinct (po_sensitive_scope_categories p)
  && forallb (one_of known_scope) (po_sensitive_scope_categories p)
  && forallb reasoning_binding_valid (po_roles p)
  && distinct (po_required_ci_contexts p)
  && forallb (fun c => valid_text c 256) (po_required_ci_contexts p).

Definition validate_policy (p : RepositoryPolicy) : result PolicyError () :=
  err_if (negb (valid_policy p)) PolicyInvalid.

Section load.
Context `{Codec}.

(** [from_str] reads a text into a value.  The derived deserializer, which the
    source runs on the text itself, also rejects a repeated key. *)
Definition load_repository_policy (text : string) : result PolicyError RepositoryPolicy :=
  err_if (is_empty text || (1024 * 1024 <? len text)) PolicyInvalid;;
  p ← ok_or (from_str text ≫= de_policy) PolicyMalformed;
  validate_policy p;;
  map_err (fun _ => PolicyInvalid) (workflow_policy p);;
  Ok p.

End load.
