(* ===== verification/PolicyLaws.v ===== *)
(** * PolicyLaws: what loading a policy guarantees

    The encoding and decoding of policies agree, the expectations of the
    program hold of every loaded policy, and a live policy that differs from the
    accepted one runs a case only if nothing the case accepted changed. *)

From S2P Require Import Prelude Text Parse Json Serde Contracts RolePolicy StateMachine Revision Intake.
From S2P Require Import Policy.
Open Scope Z_scope.

(** ** Ranges of the integer fields *)

Definition opt_range (P : Z -> Prop) (o : option Z) : Prop := match o with Some n => P n | None => True end.

Record wf_policy (p : RepositoryPolicy) : Prop := {
  wfp_format : is_u32 (po_policy_format p); wfp_revision : is_u64 (po_revision p);
  wfp_id : is_u64 (rid_id (po_repository p)); wfp_workflow : is_u32 (po_workflow_version p);
  wfp_free : is_u64 (ws_minimum_free_bytes (po_workspace_storage p));
  wfp_retention : is_u64 (ws_terminal_retention_seconds (po_workspace_storage p));
  wfp_automation : opt_range is_u64 (gc_automation_actor_id (po_github p));
  wfp_general : opt_range is_u64 (gc_reviewer_general_actor_id (po_github p));
  wfp_secperf : opt_range is_u64 (gc_reviewer_secperf_actor_id (po_github p));
  wfp_trusted : Forall is_u64 (ic_trusted_actor_ids (po_intake p));
  wfp_excluded : Forall is_u64 (ic_excluded_issue_numbers (po_intake p));
  wfp_held : Forall is_u64 (ic_held_issue_numbers (po_intake p));
  wfp_repository_limit : is_u32 (ic_repository_active_limit (po_intake p));
  wfp_global_limit : is_u32 (ic_global_active_limit (po_intake p));
  wfp_capacity : match po_execution_capacity p with
                 | Some c => is_u32 (ec_native_sessions c) /\ is_u32 (ec_builders c)
                     /\ is_u32 (ec_direct_reviewers c) /\ is_u32 (ec_ready_plans c)
                     /\ is_u32 (ec_cargo_jobs c)
                 | None => True end;
  wfp_rounds : is_u32 (po_max_remediation_rounds p);
  wfp_elapsed : is_u64 (po_max_case_elapsed_seconds p);
  wfp_failures : is_u32 (po_max_provider_failures p);
  wfp_hermes : opt_range is_u32 (po_max_hermes_attempts p);
  wfp_outage : opt_range is_u64 (po_max_outage_seconds p);
  wfp_stall : opt_range is_u64 (po_max_stall_seconds p);
  wfp_fingerprint : is_u32 (po_max_repeated_finding_fingerprint p);
  wfp_roles : Forall (fun r => is_u32 (rc_priority r)) (po_roles p);
}.

(** ** Encoding and decoding agree *)

Lemma map_get_app k l1 l2 :
  map_get k (l1 ++ l2) = match map_get k l1 with Some v => Some v | None => map_get k l2 end.
Proof. induction l1 as [|[k' v] l1 IH]; [done|]. simpl. destruct (String.eqb k k'); auto. Qed.

Lemma map_get_opt_field {A} k k' (f : A -> Value) o :
  map_get k (opt_field k' f o) = if String.eqb k k' then f <$> o else None.
Proof. destruct o; simpl; by destruct (String.eqb k k'). Qed.

Lemma opt_field_keys {A} k (f : A -> Value) o : (fst <$> opt_field k f o) `sublist_of` [k].
Proof. destruct o; simpl; [done|]. apply sublist_nil_l. Qed.

(** An object written from some of the fields of a struct, in their order. *)
Lemma as_struct_fields known l :
  bool_decide (NoDup known) = true -> (fst <$> l) `sublist_of` known ->
  exists m, as_struct known (json_object l) = Some m /\ (forall k, map_get k m = map_get k l).
Proof.
  intros Hnd%bool_decide_eq_true Hsub. exists (map_of l). split.
  - apply as_struct_json_object. unfold deny_unknown. apply forallb_forall. intros [k v] Hkv%list_elem_of_In.
    unfold one_of. apply bool_decide_eq_true. eapply (sublist_subseteq _ _ Hsub).
    apply list_elem_of_fmap. by exists (k, v).
  - intros k. apply map_get_json_object, bool_decide_eq_true. by eapply sublist_NoDup.
Qed.

Lemma de_option_opt {A} (de : Value -> option A) (f : A -> Value) o :
  (forall a, o = Some a -> f a <> Null /\ de (f a) = Some a) ->
  de_option de (f <$> o) = Some o.
Proof.
  destruct o as [a|]; [|done]. intros H. destruct (H a eq_refl) as [Hn Hd].
  unfold de_option. change (f <$> Some a) with (Some (f a)).
  destruct (f a); try done; by rewrite Hd.
Qed.

Lemma de_vec_numbers l : Forall is_u64 l -> de_vec de_u64 (numbers l) = Some l.
Proof.
  intros H. unfold de_vec, numbers. simpl. apply mapM_Some_2, Forall2_fmap_l, Forall_Forall2_diag.
  eapply Forall_impl; [exact H|]. intros n. apply de_u64_number.
Qed.
Lemma de_policy_strs l : de_vec as_str (strs l) = Some l.
Proof. by apply de_vec_fmap. Qed.
Lemma de_option_number (de : Value -> option Z) (P : Z -> Prop) o :
  (forall n, P n -> de (Number n) = Some n) -> opt_range P o -> de_option de (Some (opt_number o)) = Some o.
Proof. intros Hde. destruct o; simpl; [|done]. intros Hp. by rewrite Hde. Qed.

#[local] Arguments opt_field : simpl never.

(** The keys written for a struct are fields of it, in order. *)
Ltac field_keys :=
  cbn [app]; rewrite ?fmap_app;
  repeat match goal with
  | |- _ ++ _ `sublist_of` ?k :: ?ks => apply (sublist_app _ [k] _ ks); [apply opt_field_keys|]
  | |- (fst <$> opt_field _ _ _) `sublist_of` [_] => apply opt_field_keys
  | |- [] `sublist_of` _ => apply sublist_nil_l
  | |- _ `sublist_of` _ => cbn; apply sublist_skip; rewrite ?fmap_app
  end.

Lemma map_get_skip k k' v l : String.eqb k k' = false -> map_get k ((k', v) :: l) = map_get k l.
Proof. simpl. by intros ->. Qed.
Lemma map_get_here k v l : map_get k ((k, v) :: l) = Some v.
Proof. simpl. by rewrite String.eqb_refl. Qed.
Lemma map_get_skip_opt {A} k k' (f : A -> Value) o l :
  String.eqb k k' = false -> map_get k (opt_field k' f o ++ l) = map_get k l.
Proof. intros Hk. by rewrite map_get_app, map_get_opt_field, Hk. Qed.
Lemma map_get_here_opt {A} k (f : A -> Value) o l :
  map_get k l = None -> map_get k (opt_field k f o ++ l) = f <$> o.
Proof. intros Hl. rewrite map_get_app, map_get_opt_field, String.eqb_refl, Hl. by destruct o. Qed.

(** The member a key has in a list written from a struct. *)
Ltac get_field :=
  repeat first
    [ apply map_get_here
    | apply map_get_here_opt
    | rewrite map_get_skip by reflexivity
    | rewrite map_get_skip_opt by reflexivity
    | match goal with |- map_get _ [] = _ => reflexivity end ].

(** Read every field of an encoded struct. *)
Ltac decode known l :=
  let m := fresh "m" in let Hs := fresh "Hs" in let Hg := fresh "Hg" in
  destruct (as_struct_fields known l) as (m & Hs & Hg); [reflexivity | solve [field_keys] |];
  rewrite Hs; cbn [mbind option_bind]; unfold field, option_field; clear Hs;
  repeat match goal with |- context [map_get ?k m] =>
    let Hk := fresh "Hk" in
    eassert (map_get k m = _) as Hk by (rewrite Hg; cbn [app]; get_field);
    rewrite Hk; clear Hk
  end; clear m Hg.

(** The fields of an encoded struct, read back. *)
Ltac decode_struct :=
  match goal with |- context [as_struct ?known (json_object ?l)] => decode known l end;
  cbn [mbind option_bind as_str as_bool fmap option_fmap option_map].

Lemma de_ser_identity r : is_u64 (rid_id r) -> de_identity (ser_identity r) = Some r.
Proof.
  intros H. unfold de_identity, ser_identity. decode_struct.
  rewrite de_u64_number by done. by destruct r.
Qed.
Lemma de_ser_intake i :
  Forall is_u64 (ic_trusted_actor_ids i) -> Forall is_u64 (ic_excluded_issue_numbers i) ->
  Forall is_u64 (ic_held_issue_numbers i) -> is_u32 (ic_repository_active_limit i) ->
  is_u32 (ic_global_active_limit i) -> de_intake (ser_intake i) = Some i.
Proof.
  intros. unfold de_intake, ser_intake. decode_struct.
  rewrite !de_vec_numbers by done. cbn [mbind option_bind]. rewrite !de_u32_number by done.
  by destruct i.
Qed.
Lemma de_ser_capacity c :
  is_u32 (ec_native_sessions c) -> is_u32 (ec_builders c) -> is_u32 (ec_direct_reviewers c) ->
  is_u32 (ec_ready_plans c) -> is_u32 (ec_cargo_jobs c) -> de_capacity (ser_capacity c) = Some c.
Proof.
  intros. unfold de_capacity, ser_capacity. decode_struct.
  rewrite !de_u32_number by done. by destruct c.
Qed.
Lemma de_ser_github g :
  opt_range is_u64 (gc_automation_actor_id g) -> opt_range is_u64 (gc_reviewer_general_actor_id g) ->
  opt_range is_u64 (gc_reviewer_secperf_actor_id g) -> de_github (ser_github g) = Some g.
Proof.
  intros. unfold de_github, ser_github. decode_struct.
  rewrite !(de_option_number _ is_u64) by (done || apply de_u64_number). by destruct g.
Qed.
Lemma de_ser_merge m : de_merge (ser_merge m) = Some m.
Proof. unfold de_merge, ser_merge. decode_struct. by destruct m as [[] ? ?]. Qed.
Lemma de_ser_storage w :
  is_u64 (ws_minimum_free_bytes w) -> is_u64 (ws_terminal_retention_seconds w) ->
  de_storage (ser_storage w) = Some w.
Proof.
  intros. unfold de_storage, ser_storage. decode_struct.
  rewrite !de_u64_number by done. by destruct w.
Qed.
Lemma de_ser_conversation_model c : de_conversation_model (ser_conversation_model c) = Some c.
Proof. unfold de_conversation_model, ser_conversation_model. decode_struct. by destruct c. Qed.
Lemma de_ser_role r : is_u32 (rc_priority r) -> de_role_configuration (ser_role r) = Some r.
Proof.
  intros H. unfold de_role_configuration, ser_role. decode_struct.
  rewrite de_u32_number, de_policy_strs by done. destruct r as [[] i [[]|] ? [] ? ? [] ? ? ?], i; reflexivity.
Qed.

Lemma json_object_not_null l : json_object l <> Null.
Proof. done. Qed.

Lemma de_ser_policy p : wf_policy p -> de_policy (ser_policy p) = Some p.
Proof.
  intros []. unfold de_policy, ser_policy, policy_fields.
  replace (if po_conversations_enabled p then [("conversations_enabled", Bool true)] else [])
    with (opt_field "conversations_enabled" Bool (if po_conversations_enabled p then Some true else None))
    by by destruct (po_conversations_enabled p).
  decode_struct.
  rewrite !de_u32_number, !de_u64_number, !de_policy_strs, de_ser_identity, de_ser_storage, de_ser_github,
    de_ser_intake, de_ser_merge by done.
  rewrite (de_option_opt _ ser_conversation_model)
    by (intros; split; [apply json_object_not_null|apply de_ser_conversation_model]).
  rewrite (de_option_opt _ Str), (de_option_opt de_u32 Number), !(de_option_opt de_u64 Number),
    (de_option_opt _ ser_capacity).
  - cbn [mbind option_bind]. unfold de_vec. cbn [as_array mbind option_bind].
    rewrite (mapM_Some_2 de_role_configuration _ (po_roles p)); [by destruct p as [[]]|].
    apply Forall2_fmap_l, Forall_Forall2_diag. by eapply Forall_impl; [|apply de_ser_role].
  - intros c Hc. rewrite Hc in *. split; [apply json_object_not_null|]. apply de_ser_capacity; tauto.
  - intros n Hn. rewrite Hn in *. by split; [|apply de_u64_number].
  - intros n Hn. rewrite Hn in *. by split; [|apply de_u64_number].
  - intros n Hn. rewrite Hn in *. by split; [|apply de_u32_number].
  - done.
Qed.

(** Decoding only yields integers in the ranges of their types. *)
Lemma de_u64_range v n : de_u64 v = Some n -> is_u64 n.
Proof. intros H. by apply as_u64_some in H as [_ ?]. Qed.
Lemma de_u32_range v n : de_u32 v = Some n -> is_u32 n.
Proof.
  unfold de_u32. intros (m & Hm%de_u64_range & Hn)%bind_Some.
  destruct (m <=? u32_max) eqn:Hle; simplify_eq. apply Z.leb_le in Hle. split; [apply Hm|done].
Qed.
Lemma de_option_range (de : Value -> option Z) (P : Z -> Prop) v o :
  (forall v n, de v = Some n -> P n) -> de_option de v = Some o -> opt_range P o.
Proof.
  intros Hde. destruct v as [[]|]; simpl; intros Ho; simplify_eq/=; try done;
    destruct (de _) eqn:Hd; simplify_eq/=; eauto.
Qed.
Lemma de_vec_range (de : Value -> option Z) (P : Z -> Prop) v l :
  (forall v n, de v = Some n -> P n) -> de_vec de v = Some l -> Forall P l.
Proof.
  intros Hde (vs & _ & Hl%mapM_Some)%bind_Some. apply Forall_forall. intros n Hn.
  eapply Forall2_elem_r in Hl as (? & _ & ?); eauto.
Qed.

(** Take a decoder's result apart. *)
Ltac undecode :=
  repeat match goal with
  | Hx : _ ≫= _ = Some _ |- _ => apply bind_Some in Hx as (? & ? & Hx)
  | Hx : Some _ = Some _ |- _ => injection Hx as <-
  end.

Definition de_option_u64 v o := de_option_range de_u64 is_u64 v o de_u64_range.
Definition de_option_u32 v o := de_option_range de_u32 is_u32 v o de_u32_range.
Definition de_vec_u64 v l := de_vec_range de_u64 is_u64 v l de_u64_range.
Create HintDb decode.
#[local] Hint Resolve de_u64_range de_u32_range de_option_u64 de_option_u32 de_vec_u64 : decode.

Lemma de_identity_range v r : de_identity v = Some r -> is_u64 (rid_id r).
Proof. unfold de_identity, field. intros H. undecode. split_and?; eauto with decode. Qed.
Lemma de_storage_range v w :
  de_storage v = Some w ->
  is_u64 (ws_minimum_free_bytes w) /\ is_u64 (ws_terminal_retention_seconds w).
Proof. unfold de_storage, field. intros H. undecode. split_and?; eauto with decode. Qed.
Lemma de_github_range v g :
  de_github v = Some g ->
  opt_range is_u64 (gc_automation_actor_id g) /\ opt_range is_u64 (gc_reviewer_general_actor_id g)
  /\ opt_range is_u64 (gc_reviewer_secperf_actor_id g).
Proof. unfold de_github, option_field. intros H. undecode. split_and?; eauto with decode. Qed.
Lemma de_intake_range v i :
  de_intake v = Some i ->
  Forall is_u64 (ic_trusted_actor_ids i) /\ Forall is_u64 (ic_excluded_issue_numbers i)
  /\ Forall is_u64 (ic_held_issue_numbers i) /\ is_u32 (ic_repository_active_limit i)
  /\ is_u32 (ic_global_active_limit i).
Proof. unfold de_intake, field. intros H. undecode. split_and!; eauto with decode. Qed.
Lemma de_capacity_range v c :
  de_capacity v = Some c ->
  is_u32 (ec_native_sessions c) /\ is_u32 (ec_builders c) /\ is_u32 (ec_direct_reviewers c)
  /\ is_u32 (ec_ready_plans c) /\ is_u32 (ec_cargo_jobs c).
Proof. unfold de_capacity, field. intros H. undecode. split_and!; eauto with decode. Qed.
Lemma de_role_range v r : de_role_configuration v = Some r -> is_u32 (rc_priority r).
Proof. unfold de_role_configuration, field, option_field. intros H. undecode. split_and?; eauto with decode. Qed.

Lemma de_policy_wf v p : de_policy v = Some p -> wf_policy p.
Proof.
  unfold de_policy, field, option_field. intros H. undecode.
  repeat match goal with
  | Hx : de_storage _ = Some _ |- _ => apply de_storage_range in Hx as []
  | Hx : de_github _ = Some _ |- _ => apply de_github_range in Hx as (? & ? & ?)
  | Hx : de_intake _ = Some _ |- _ => apply de_intake_range in Hx as (? & ? & ? & ? & ?)
  end.
  constructor; simpl; eauto using de_identity_range with decode.
  - match goal with Hx : de_option de_capacity _ = Some ?o |- _ =>
      destruct o; [|done]; destruct (map_get "execution_capacity" _) as [[]|]; simplify_eq/=;
      apply fmap_Some in Hx as (? & ? & ?); simplify_eq; by eapply de_capacity_range end.
  - match goal with Hx : de_vec de_role_configuration _ = Some _ |- _ =>
      apply bind_Some in Hx as (? & _ & Hx%mapM_Some) end.
    apply Forall_forall. intros r Hr.
    match goal with Hx : Forall2 _ _ _ |- _ => eapply Forall2_elem_r in Hx as (? & _ & ?) end;
      eauto using de_role_range.
Qed.

(** A written object is well formed when its members are. *)
Lemma str_ltb_compare a b : str_ltb a b = true <-> String.compare a b = Lt.
Proof. unfold str_ltb. destruct (String.compare a b); naive_solver. Qed.

Lemma map_insert_sorted k v m : sorted_keys m = true -> sorted_keys (map_insert k v m) = true.
Proof.
  induction m as [|[k1 v1] m IH]; [done|]. intros Hm. cbn [map_insert].
  destruct (String.compare k k1) eqn:Hc.
  - apply String.compare_eq_iff in Hc as ->. destruct m as [|[]]; done.
  - cbn [sorted_keys]. apply andb_true_intro. split; [by apply str_ltb_compare|done].
  - assert (str_ltb k1 k = true) as Hk.
    { apply str_ltb_compare. rewrite String.compare_antisym, Hc. done. }
    destruct m as [|[k2 v2] m]; [cbn; by rewrite Hk|].
    cbn [sorted_keys] in Hm. apply andb_prop in Hm as [H12 Hm]. specialize (IH Hm).
    revert IH. cbn [map_insert]. destruct (String.compare k k2); intros IH; cbn [sorted_keys];
      apply andb_true_intro; split; done.
Qed.

Lemma map_insert_wf k v m :
  wf_value v = true -> forallb (fun kv => wf_value kv.2) m = true ->
  forallb (fun kv => wf_value kv.2) (map_insert k v m) = true.
Proof.
  intros Hv. induction m as [|[k1 v1] m IH]; simpl; [by rewrite Hv|]. intros [H1 Hm]%andb_prop.
  destruct (String.compare k k1); simpl; rewrite ?Hv, ?H1, ?Hm; auto.
Qed.

Lemma wf_json_object l : Forall (fun kv => wf_value kv.2 = true) l -> wf_value (json_object l) = true.
Proof.
  intros Hl. unfold json_object, map_of. cbn [wf_value].
  assert (forall m, sorted_keys m = true -> forallb (fun kv => wf_value kv.2) m = true ->
    sorted_keys (foldl (fun m kv => map_insert kv.1 kv.2 m) m l)
    && forallb (fun kv => wf_value kv.2) (foldl (fun m kv => map_insert kv.1 kv.2 m) m l) = true) as Hfold;
    [|by apply Hfold].
  induction Hl as [|[k v] l Hv Hl IH]; intros m Hs Hw; simpl; [by rewrite Hs, Hw|].
  apply IH; [by apply map_insert_sorted|by apply map_insert_wf].
Qed.

Lemma wf_u64 n : is_u64 n -> wf_value (Number n) = true.
Proof. intros [? ?]. simpl. unfold i64_max, u64_max in *. apply andb_true_intro. split; apply Z.leb_le; lia. Qed.
Lemma wf_u32 n : is_u32 n -> wf_value (Number n) = true.
Proof. intros [? ?]. apply wf_u64. split; [done|]. unfold u32_max, u64_max in *. lia. Qed.
Lemma wf_opt_u64 o : opt_range is_u64 o -> wf_value (opt_number o) = true.
Proof. destruct o; [apply wf_u64|done]. Qed.
Lemma wf_opt_str o : wf_value (opt_str o) = true.
Proof. by destruct o. Qed.
Lemma wf_strs l : wf_value (strs l) = true.
Proof. simpl. by induction l. Qed.
Lemma wf_array l : Forall (fun v => wf_value v = true) l -> wf_value (Array l) = true.
Proof. simpl. induction 1 as [|v l Hv _ IH]; [done|]. simpl. by rewrite Hv. Qed.
Lemma wf_numbers l : Forall is_u64 l -> wf_value (numbers l) = true.
Proof. intros H. apply wf_array, Forall_fmap. eapply Forall_impl; [exact H|]. apply wf_u64. Qed.
Lemma Forall_opt_field {A} (P : string * Value -> Prop) k (f : A -> Value) o :
  (forall a, o = Some a -> P (k, f a)) -> Forall P (opt_field k f o).
Proof. destruct o; unfold opt_field; auto. Qed.

(** Every member of a written object is well formed. *)
Ltac wf_members :=
  apply wf_json_object; cbn [app];
  repeat first [apply Forall_nil_2 | apply Forall_cons_2 | apply Forall_app_2 | apply Forall_opt_field];
  cbn [snd]; auto using wf_u64, wf_u32, wf_opt_u64, wf_opt_str, wf_strs, wf_numbers.

Lemma wf_ser_role r : is_u32 (rc_priority r) -> wf_value (ser_role r) = true.
Proof. intros. unfold ser_role. wf_members. Qed.

Lemma wf_ser_policy p : wf_policy p -> wf_value (ser_policy p) = true.
Proof.
  intros []. unfold ser_policy. wf_members.
  - destruct (po_conversations_enabled p); repeat constructor.
  - unfold ser_identity. wf_members.
  - unfold ser_storage. wf_members.
  - unfold ser_github. wf_members.
  - unfold ser_intake. wf_members.
  - intros c Hc. rewrite Hc in *. destruct_and!. unfold ser_capacity. wf_members.
  - intros n Hn. rewrite Hn in *. by apply wf_u32.
  - intros n Hn. rewrite Hn in *. by apply wf_u64.
  - intros n Hn. rewrite Hn in *. by apply wf_u64.
  - apply wf_array, Forall_fmap. eapply Forall_impl; [eassumption|]. apply wf_ser_role.
Qed.

Lemma nonzero_pos n : 0 < n -> nonzero n = Some n.
Proof. unfold nonzero. destruct (Z.eqb_spec n 0); [lia|done]. Qed.
Lemma mapM_nonzero l : Forall (fun n => 0 < n) l -> mapM nonzero l = Some l.
Proof.
  intros Hl. apply mapM_Some_2, Forall_Forall2_diag. eapply Forall_impl; [exact Hl|].
  apply nonzero_pos.
Qed.

Lemma ser_policy_inj p q : wf_policy p -> wf_policy q -> ser_policy p = ser_policy q -> p = q.
Proof. intros Hp%de_ser_policy Hq%de_ser_policy Heq. rewrite Heq in Hp. congruence. Qed.

Lemma wf_normalize p : wf_policy p -> wf_policy (normalize p).
Proof. intros []. by split. Qed.
Lemma wf_with_roles roles revision p :
  wf_policy p -> Forall (fun r => is_u32 (rc_priority r)) roles -> is_u64 revision ->
  wf_policy (with_roles_revision roles revision p).
Proof. intros []. by split. Qed.

Lemma compatible_role_priority role old r : compatible_role role old = Some r -> rc_priority r = rc_priority role.
Proof.
  unfold compatible_role. destruct (_ && _); [|by intros [= <-]].
  intros (? & _ & (? & _ & H)%bind_Some)%bind_Some. destruct (_ <=? _); by simplify_eq.
Qed.

Section laws.
Context `{Codec}.

Lemma load_inv text p :
  load_repository_policy text = Ok p ->
  wf_policy p /\ valid_policy p = true /\ exists w, workflow_policy p = Ok w.
Proof.
  unfold load_repository_policy, validate_policy. intros Hl. open_ok.
  match goal with Hx : _ ≫= de_policy = Some ?q |- _ => apply bind_Some in Hx as (? & _ & Hx%de_policy_wf) end.
  subst. bools. eauto.
Qed.

(** C36: A loaded policy meets every expectation of the program: the policies
    it derives for cases, intake and dispatch exist (no [expect] of the source
    panics and no dispatch policy is refused), and a case policy is always in
    shadow mode. *)
Theorem loaded_policy_is_usable text p (Hload : load_repository_policy text = Ok p) :
  (exists c, case_policy p = Some c /\ cp_merge_mode c = Shadow /\ cp_revision c = po_revision p
             /\ 0 < cp_max_remediation_rounds c)
  /\ (forall paused, is_Some (intake_policy paused p))
  /\ (exists w, workflow_policy p = Ok w).
Proof.
  apply load_inv in Hload as (Hwf & Hv & Hw). unfold valid_policy, valid_limits, valid_intake in Hv. bools.
  split_and!; [|intros paused|exact Hw].
  - unfold case_policy. rewrite !nonzero_pos by done. simpl. eexists. split; [done|]. simpl.
    by match goal with Hx : is_shadow _ = true |- _ => rewrite Hx end.
  - unfold intake_policy. rewrite !nonzero_pos by done. simpl. rewrite mapM_nonzero; [by eexists|].
    apply Forall_forall. intros n Hn. match goal with Hx : forallb _ (ic_trusted_actor_ids _) = true |- _ =>
      rewrite forallb_forall in Hx; by apply Z.ltb_lt, Hx, list_elem_of_In end.
Qed.


(** Running a case under a newer policy changes nothing the case accepted.
    When a live policy yields an execution policy for an accepted one, the
    result has the accepted revision and roles and agrees with the accepted
    policy in everything but capacity, limits and the conversation inbox, which
    are the live ones. *)
Theorem execution_policy_keeps_acceptance t1 t2 live accepted p
  (Hlive : load_repository_policy t1 = Ok live) (Hold : load_repository_policy t2 = Ok accepted)
  (Hexec : execution_policy_for live accepted = Some p) :
  normalize p = normalize accepted /\ po_revision p = po_revision accepted
  /\ po_execution_capacity p = po_execution_capacity live
  /\ ic_repository_active_limit (po_intake p) = ic_repository_active_limit (po_intake live)
  /\ ic_global_active_limit (po_intake p) = ic_global_active_limit (po_intake live)
  /\ po_max_case_elapsed_seconds p = po_max_case_elapsed_seconds live
  /\ po_max_provider_failures p = po_max_provider_failures live
  /\ po_max_hermes_attempts p = po_max_hermes_attempts live
  /\ po_max_outage_seconds p = po_max_outage_seconds live
  /\ po_max_stall_seconds p = po_max_stall_seconds live
  /\ po_max_repeated_finding_fingerprint p = po_max_repeated_finding_fingerprint live.
Proof.
  apply load_inv in Hlive as (Hwl & _), Hold as (Hwa & _).
  unfold execution_policy_for in Hexec. destruct (negb _); [done|].
  apply bind_Some in Hexec as (roles & Hroles & Hp).
  destruct (bool_decide _) eqn:Hb; [|done]. apply bool_decide_eq_true in Hb. simpl in Hp. injection Hp as <-.
  apply ser_policy_inj in Hb; [|apply wf_normalize, wf_with_roles|by apply wf_normalize]; [|done| |apply Hwl].
  - by split_and!.
  - apply Forall_forall. intros r Hr. apply mapM_Some in Hroles.
    eapply Forall2_elem_r in Hroles as ([role old] & Hin & Hc); [|exact Hr].
    apply compatible_role_priority in Hc as ->. apply elem_of_zip_l in Hin.
    by eapply (proj1 (Forall_forall _ _) (wfp_roles _ Hwl)).
Qed.

End laws.

(** ** Witnesses *)

Definition demo_role (role : WorkerRole) (reviewer : option string) (direct : bool) : RoleConfiguration := {|
  rc_role := role; rc_reviewer_id := reviewer;
  rc_review_mode := match reviewer with Some _ => Some Required | None => None end; rc_profile := "worker";
  rc_execution := if direct then DirectExecution else HermesExecution;
  rc_provider := if direct then "cursor" else "openai"; rc_model := "model-1";
  rc_reasoning_effort := if direct then None else Some "high"; rc_max_runtime := "PT60M";
  rc_priority := 1; rc_skills := ["workflow-contract"; role_skill_name role] |}.

Definition demo_policy (revision elapsed : Z) : RepositoryPolicy := {|
  po_conversations_enabled := false; po_conversation_model := None; po_policy_format := 2;
  po_revision := revision;
  po_repository := {| rid_id := 1; rid_owner := "o"; rid_name := "r"; rid_default_branch := "main" |};
  po_board := "b"; po_workflow_version := 3; po_checkout := "/c"; po_workspace := "/w";
  po_artifacts := "/a";
  po_workspace_storage := {| ws_require_distinct_filesystem := false; ws_minimum_free_bytes := 1;
                             ws_terminal_retention_seconds := 1 |};
  po_branch_prefix := "pip/";
  po_github := {| gc_automation_actor_id := Some 1; gc_reviewer_general_actor_id := Some 2;
                  gc_reviewer_secperf_actor_id := Some 3 |};
  po_intake := {| ic_enabled := true; ic_paused := false; ic_label := "pip";
                  ic_trusted_actor_ids := [7]; ic_excluded_issue_numbers := [];
                  ic_held_issue_numbers := []; ic_repository_active_limit := 2;
                  ic_global_active_limit := 2 |};
  po_dispatch_enabled := true; po_execution_capacity := None;
  po_merge := {| mc_mode := ShadowConfigured; mc_autonomous := false; mc_method := "squash" |};
  po_max_remediation_rounds := 3; po_max_case_elapsed_seconds := elapsed;
  po_max_provider_failures := 3; po_max_hermes_attempts := None; po_max_outage_seconds := None;
  po_max_stall_seconds := None; po_hermes_scratch_root := None;
  po_max_repeated_finding_fingerprint := 2; po_sensitive_scope_categories := ["CRYPTOGRAPHY"];
  po_required_ci_contexts := ["ci"];
  po_roles := [demo_role Planner None false; demo_role Builder None true;
               demo_role ReviewerGeneral (Some "g") false; demo_role ReviewerSecperf (Some "s") true;
               demo_role FinalReviewer None false] |}.

Definition policy_text (p : RepositoryPolicy) : string := to_string (Codec := demo_codec) (ser_policy p).

Lemma demo_policy_loads : load_repository_policy (H := demo_codec) (policy_text (demo_policy 1 1000))
  = Ok (demo_policy 1 1000).
Proof. vm_compute. reflexivity. Qed.
Lemma demo_policy_loads2 : load_repository_policy (H := demo_codec) (policy_text (demo_policy 2 500))
  = Ok (demo_policy 2 500).
Proof. vm_compute. reflexivity. Qed.

Lemma loaded_policy_is_usable_witness :
  exists c, case_policy (demo_policy 1 1000) = Some c /\ cp_merge_mode c = Shadow.
Proof.
  destruct (loaded_policy_is_usable (H := demo_codec) _ _ demo_policy_loads) as ((c & Hc & Hm & _) & _).
  exists c. by split.
Defined.


Lemma execution_policy_keeps_acceptance_witness :
  exists p, execution_policy_for (demo_policy 2 500) (demo_policy 1 1000) = Some p
            /\ po_revision p = 1 /\ po_max_case_elapsed_seconds p = 500.
Proof.
  destruct (execution_policy_for (demo_policy 2 500) (demo_policy 1 1000)) as [p|] eqn:Hp;
    [|by vm_compute in Hp].
  destruct (execution_policy_keeps_acceptance (H := demo_codec) _ _ _ _ _ demo_policy_loads2
              demo_policy_loads Hp) as (_ & Hr & _ & _ & _ & He & _).
  exists p. split; [done|]. split; [exact Hr|exact He].
Defined.
