(* ===== verification/Commands.v ===== *)
(** * Commands: workflow commands from stored cases

    crates/pip-control/src/builder_retry.rs and scope.rs.  Every cycle of the
    control plane moves a case with a command built from the case as the ledger
    stores it; [recovery_command] is that construction, and the cycles that
    write the same literal in place use [case_command]. *)

From S2P Require Import Prelude Text Json Serde Domain StateMachine Revision Sql Tables Inputs StoreCore.
From S2P Require Import Outbox Control Ledger RolePolicy Policy.
Open Scope Z_scope.

(** ** Selection of cases (scope.rs) *)

Record RepositoryScope := { rs_policy : RepositoryPolicy; rs_case_key : option string }.

Definition scope_matches (scope : RepositoryScope) (c : StoredCase) : bool :=
  (c.(sc_repository_id) =? rid_id (po_repository (rs_policy scope)))
  && none_or (rs_case_key scope) (fun key => String.eqb key c.(sc_case_key)).

Section commands.
Context `{Codec}.

Definition scope_claim (scope : RepositoryScope) (owner : string) (now lease_seconds : Z)
  (types : list string) (s : Store) : result StoreError (option ClaimedEffect * Store) :=
  claim_repository_case_effect_matching (rid_id (po_repository (rs_policy scope))) (rs_case_key scope)
    owner now lease_seconds types s.

(** The accepted policy of a case, loaded from the ledger. *)
Definition stored_policy (repository_id revision : Z) (s : Store)
  : result StoreError (result PolicyError RepositoryPolicy) :=
  value ← accepted_policy repository_id revision s;
  Ok (load_repository_policy (to_string value)).

Definition execution_policy (policy : RepositoryPolicy) (s : Store) (c : StoredCase) : RepositoryPolicy :=
  if po_revision policy =? c.(sc_policy_revision) then policy else
  match stored_policy c.(sc_repository_id) c.(sc_policy_revision) s with
  | Ok (Ok accepted) => default policy (execution_policy_for policy accepted)
  | _ => policy
  end.

End commands.

(** ** Commands *)

(** [NonZeroU64::new] of the three parts of a case's identity. *)
Definition case_id_of (c : StoredCase) : option CaseId :=
  r ← nonzero c.(sc_repository_id);
  i ← nonzero c.(sc_issue_number);
  w ← nonzero c.(sc_workflow_version);
  Some {| repository := r; issue := i; workflow := w |}.

(** [head_sha.as_deref().map(GitSha::from_str).transpose()]. *)
Definition parse_head (head : option string) : option (option string) :=
  match head with
  | None => Some None
  | Some text => match GitSha_from_str text with Ok sha => Some (Some sha) | Err _ => None end
  end.

(** The command for [event] at [expected_revision], without worker output. *)
Definition case_command (c : StoredCase) (expected_revision : Z) (event_id : string) (event : Event)
  (event_payload : Value) (now : Z) (evidence : list EvidenceInput) : option WorkflowCommand :=
  id ← case_id_of c;
  state ← match CaseState_from_str c.(sc_state) with Ok st => Some st | Err _ => None end;
  revision ← nonzero expected_revision;
  policy ← nonzero c.(sc_policy_revision);
  head ← parse_head c.(sc_head_sha);
  Some {| wc_case_id := id; wc_event_id := event_id; wc_observed_at := now; wc_expected_state := state;
          wc_expected_state_revision := revision; wc_accepted_policy_revision := policy;
          wc_remediation_round := c.(sc_remediation_round);
          wc_plan_version := nonzero c.(sc_plan_version);
          wc_pr_number := c.(sc_pr_number) ≫= nonzero; wc_head_sha := head; wc_event := event;
          wc_accepted_plan_version := None; wc_next_pr_number := None; wc_next_head_sha := None;
          wc_event_payload := event_payload; wc_run := None; wc_evidence := evidence;
          wc_findings := [] |}.

(** ** Offline recoveries (builder_retry.rs) *)

Inductive RecoveryError :=
| Refused (message : string)
| RecoveryStore (e : StoreError)
| RecoveryPolicy (e : PolicyError)
| RecoveryIdentifier (e : IdentifierError)
| RecoveryState (e : ParseDomainValueError)
| RecoveryController (e : ControllerError)
| RecoveryPanic.

Definition recovery_command (c : StoredCase) (expected_revision : Z) (event_id : string) (event : Event)
  (event_payload : Value) (now : Z) : result RecoveryError WorkflowCommand :=
  ok_or (nonzero c.(sc_repository_id)) (Refused "invalid repository");;
  ok_or (nonzero c.(sc_issue_number)) (Refused "invalid issue");;
  ok_or (nonzero c.(sc_workflow_version)) (Refused "invalid workflow");;
  map_err RecoveryState (CaseState_from_str c.(sc_state));;
  ok_or (nonzero expected_revision) (Refused "invalid state revision");;
  ok_or (nonzero c.(sc_policy_revision)) (Refused "invalid policy revision");;
  ok_or (case_command c expected_revision event_id event event_payload now [])
    (Refused "invalid head").

Section recovery.
Context `{Codec}.

Definition recovery_context (s : Store) (paused : RepositoryPolicy) (key : string) (operator_uid : Z)
  : result RecoveryError (StoredCase * RepositoryPolicy) :=
  err_if (negb (operator_uid =? 0)) (Refused "work retry requires root authorization");;
  err_if (ic_enabled (po_intake paused) || negb (ic_paused (po_intake paused)) || po_dispatch_enabled paused)
    (Refused "work retry requires an inert installed policy");;
  c ← ok_or (query_case s key) (Refused "case is missing");
  loaded ← map_err RecoveryStore (stored_policy c.(sc_repository_id) c.(sc_policy_revision) s);
  accepted ← map_err RecoveryPolicy loaded;
  err_if (negb (bool_decide (po_repository paused = po_repository accepted))
          || negb (po_workflow_version paused =? po_workflow_version accepted)
          || negb (String.eqb (po_checkout paused) (po_checkout accepted))
          || negb (String.eqb (po_workspace paused) (po_workspace accepted))
          || negb (bool_decide (Array (ser_role <$> po_roles paused) = Array (ser_role <$> po_roles accepted))))
    (Refused "installed and accepted repository/runtime bindings differ");;
  Ok (c, accepted).

End recovery.
