(* ===== verification/Cycles.v ===== *)
(** * Cycles: what a command built from a stored case does

    Shared laws of the control plane's cycles: a command built by
    [case_command] is a step of the system of System.v, and when it is new it
    moves exactly the case it names, to the state the pure core decides, with
    the bindings of the case unchanged. *)

From S2P Require Import Prelude Text Json Domain StateMachine Revision Sql Tables Inputs StoreCore.
From S2P Require Import Frozen Recovery Outbox Attempts Control Records History Frames Steps Invariants.
From S2P Require Import Ledger Results System Ingest RolePolicy Policy Commands.
From stdpp Require Import relations.
Open Scope Z_scope.

(** [bools], also for comparisons of text. *)
Ltac texts :=
  bools; repeat match goal with
  | H : String.eqb _ _ = true |- _ => apply String.eqb_eq in H
  | H : String.eqb _ _ = false |- _ => apply String.eqb_neq in H
  end.

Section cycles.
Context `{Codec}.

(** The lower bounds that the construction of a command gives. *)
Record command_floor (w : WorkflowCommand) : Prop := {
  fl_revision : 1 <= w.(wc_expected_state_revision);
  fl_observed : 0 <= w.(wc_observed_at);
  fl_round : is_u32 w.(wc_remediation_round);
  fl_plan : in_opt 1 u32_max w.(wc_plan_version);
  fl_pr : match w.(wc_pr_number) with Some n => 1 <= n | None => True end;
  fl_accepted : in_opt 1 u32_max w.(wc_accepted_plan_version);
  fl_next : match w.(wc_next_pr_number) with Some n => 1 <= n | None => True end;
}.

Lemma apply_one_bounds f i s s' :
  apply_one f i s = Ok s' ->
  i.(ti_expected_revision) < i64_max /\ i.(ti_observed_at) <= i64_max
  /\ match i.(ti_pr_number) with Some n => n <= i64_max | None => True end.
Proof.
  unfold apply_one. intros Ha. inv_store. rename select (insert_event _ _ = _) into He.
  unfold insert_event in He. inv_store. split_and!; [lia|lia|done].
Qed.

(** A command from a stored case is a step of the system. *)
Lemma floor_wf policy w i f s s' :
  command_floor w -> transition_input policy w = Ok i -> apply_one f i s = Ok s' -> wf_command w.
Proof.
  intros [] Hi Ha. apply apply_one_bounds in Ha as (Hr & Ho & Hp).
  apply transition_input_inv in Hi as (? & ? & ? & ? & ? & ? & ? & _ & _ & _ & _ & _ & Hh & ->).
  simpl in *. unfold wf_command, is_u64, is_u32, i64_max, u64_max, in_opt in *.
  unfold next_head_binding in Hh. case_bool_decide; open_ok; bools; simplify_eq; split_and!; try done; try lia;
    destruct (wc_pr_number w), (wc_next_pr_number w); simplify_eq/=; bools; try done; lia.
Qed.

Lemma floor_applied_wf policy w s s' :
  command_floor w -> LedgerController.apply policy w s = Ok (Applied, s') -> wf_command w.
Proof.
  intros Hfl Ha. unfold LedgerController.apply in Ha. open_ok. rename select (apply_transition _ _ _ = _) into Hap.
  apply apply_applied_inv in Hap as [_ Hb]. simpl in Hb. open_ok. by eapply floor_wf.
Qed.

Lemma replay_keeps policy w s s' : LedgerController.apply policy w s = Ok (Replayed, s') -> s' = s.
Proof.
  unfold LedgerController.apply. intros Ha. open_ok.
  rename select (apply_transition _ _ _ = _) into Hap. unfold apply_transition, apply_transition_batch in Hap.
  open_ok. case_match; by open_ok; simplify_eq.
Qed.

Lemma command_system_step policy w s r s' :
  command_floor w -> LedgerController.apply policy w s = Ok (r, s') -> rtc system_step s s'.
Proof.
  intros Hw Ha. destruct r.
  - apply rtc_once. eapply sys_apply; [|exact Ha]. by eapply floor_applied_wf.
  - by apply replay_keeps in Ha as ->.
Qed.

(** ** Commands from stored cases *)

Lemma case_command_inv c rev id ev p now evd w :
  case_command c rev id ev p now evd = Some w ->
  case_id_of c = Some w.(wc_case_id) /\ w.(wc_event_id) = id /\ w.(wc_observed_at) = now
  /\ c.(sc_state) = CaseState_to_string w.(wc_expected_state)
  /\ w.(wc_expected_state_revision) = rev /\ rev <> 0
  /\ w.(wc_accepted_policy_revision) = c.(sc_policy_revision)
  /\ w.(wc_remediation_round) = c.(sc_remediation_round)
  /\ w.(wc_plan_version) = nonzero c.(sc_plan_version)
  /\ w.(wc_pr_number) = c.(sc_pr_number) ≫= nonzero /\ w.(wc_event) = ev
  /\ w.(wc_event_payload) = p /\ w.(wc_evidence) = evd /\ w.(wc_accepted_plan_version) = None
  /\ w.(wc_run) = None /\ w.(wc_findings) = [].
Proof.
  unfold case_command. intros Hc. destruct (CaseState_from_str (sc_state c)) as [st|] eqn:Hst;
    [|by apply bind_Some in Hc as (? & _ & Hc)].
  apply bind_Some in Hc as (cid & Hid & Hc). cbn [mbind option_bind] in Hc.
  apply bind_Some in Hc as (r & Hr & (p0 & Hp & (h & Hh & Hw)%bind_Some)%bind_Some). injection Hw as <-.
  apply nonzero_some in Hr as [-> Hr], Hp as [-> Hp]. simpl. split_and!; try done.
  unfold CaseState_from_str in Hst. clear -Hst. repeat case_match; simplify_eq;
    match goal with Hx : String.eqb _ _ = true |- _ => by apply String.eqb_eq in Hx end.
Qed.

(** The ranges of a case as it is read from its row. *)
Record case_ranges (c : StoredCase) : Prop := {
  cr_revision : 0 <= c.(sc_state_revision);
  cr_round : is_u32 c.(sc_remediation_round);
  cr_plan : is_u32 c.(sc_plan_version);
  cr_pr : match c.(sc_pr_number) with Some n => 0 <= n | None => True end;
}.
Lemma u32_or_default_range n : is_u32 (u32_or_default n).
Proof. unfold is_u32, u32_or_default, u32_max. destruct (_ && _) eqn:He; bools; unfold u32_max in *; lia. Qed.
Lemma stored_case_ranges r : case_ranges (stored_case r).
Proof.
  split; simpl; try apply u32_or_default_range; [unfold unsigned; lia|].
  destruct (c_pr_number r); simpl; [unfold unsigned; lia|done].
Qed.
Lemma query_case_ranges s k c : query_case s k = Some c -> case_ranges c.
Proof. intros (r & _ & ->)%fmap_Some. apply stored_case_ranges. Qed.

Lemma query_case_key s k c : query_case s k = Some c -> c.(sc_case_key) = k.
Proof. intros (row & Hr & ->)%fmap_Some. by apply find_case_elem in Hr as [_ ?]. Qed.

Lemma query_row s row :
  store_inv s -> row ∈ s.(cases) ->
  query_case s (stored_case row).(sc_case_key) = Some (stored_case row).
Proof.
  intros Hinv Hrow. unfold query_case. simpl.
  destruct (find_case s (c_case_key row)) as [r|] eqn:Hfc.
  - apply find_case_elem in Hfc as [Hr Hk]. simpl. do 2 f_equal. by eapply key_unique; [apply Hinv|..].
  - eapply find_none in Hfc; [|by apply list_elem_of_In]. simpl in Hfc. by rewrite String.eqb_refl in Hfc.
Qed.

Lemma any_command_floor c rev id ev p now evd w :
  case_ranges c -> 0 <= rev -> 0 <= now ->
  case_command c rev id ev p now evd = Some w -> command_floor w.
Proof.
  intros [] Hrev Hnow Hw. assert (wc_next_pr_number w = None) as Hn.
  { unfold case_command in Hw. repeat (apply bind_Some in Hw as (? & _ & Hw)). by simplify_eq. }
  apply case_command_inv in Hw as (Hid & _ & Ho & _ & Hr & Hr0 & _ & Hrd & Hpl & Hpr & He & _ & _ & Ha & _).
  unfold is_u32 in *. split; rewrite ?Ho, ?Hr, ?Hrd, ?Hpl, ?Hpr, ?He, ?Ha, ?Hn; try done; try lia.
  - unfold nonzero. destruct (Z.eqb_spec (sc_plan_version c) 0); simpl; [done|lia].
  - destruct (sc_pr_number c) as [n|]; simpl; [|done]. unfold nonzero.
    destruct (Z.eqb_spec n 0); simpl; [done|lia].
Qed.

Lemma case_command_floor c rev id ev p now evd w :
  case_ranges c -> 0 <= rev -> 0 <= now -> ev <> Ev.ReviewReady ->
  case_command c rev id ev p now evd = Some w -> command_floor w.
Proof. intros Hc Hr Hn _. by apply any_command_floor. Qed.

(** [s'] is [s] with the case [c] moved by [ev] as the core decides. *)
Definition moved (c : StoredCase) (ev : Event) (s s' : Store) : Prop :=
  exists st ctx d c', c.(sc_state) = CaseState_to_string st /\ transition st ev ctx = Ok d
    /\ query_case s' c.(sc_case_key) = Some c' /\ c'.(sc_state) = CaseState_to_string (next_state d)
    /\ c'.(sc_state_revision) = c.(sc_state_revision) + 1
    /\ c'.(sc_pr_number) = c.(sc_pr_number) /\ c'.(sc_head_sha) = c.(sc_head_sha)
    /\ c'.(sc_plan_version) = c.(sc_plan_version)
    /\ (forall k, k <> c.(sc_case_key) -> query_case s' k = query_case s k).

Lemma fresh_applied policy w s r s' :
  LedgerController.apply policy w s = Ok (r, s') -> find_event s w.(wc_event_id) = None -> r = Applied.
Proof.
  unfold LedgerController.apply. intros Ha Hf. open_ok.
  rename select (transition_input _ _ = _) into Hi.
  apply transition_input_inv in Hi as (? & ? & ? & ? & ? & ? & ? & _ & _ & _ & _ & _ & _ & ->).
  rename select (apply_transition _ _ _ = _) into Hap. unfold apply_transition, apply_transition_batch in Hap.
  open_ok. rename select (batch_replay _ _ = _) into Hb. unfold batch_replay in Hb. open_ok.
  simpl in *. unfold existing_event in *. rewrite Hf in *. simpl in *. open_ok. subst. by open_ok; simplify_eq.
Qed.

(** The other rows of the case table stay as they are. *)
Lemma applied_others i s s' c p k :
  applied i s s' c p -> k <> i.(ti_case_key) -> find_case s' k = find_case s k.
Proof.
  intros Ha Hk. transitivity (find_case (set_cases s'.(cases) s) k); [done|].
  rewrite (ap_cases _ _ _ _ _ Ha), find_case_update by done.
  destruct (find_case s k) as [c0|] eqn:Hc; [|done]. apply find_case_elem in Hc as [_ Hc0]. simpl.
  rewrite Hc0. by apply String.eqb_neq in Hk as ->.
Qed.

(** An applied command moves its case; a replay changes nothing. *)
Lemma command_outcome policy c id ev p now evd w s r s' :
  query_case s c.(sc_case_key) = Some c -> case_key w.(wc_case_id) = c.(sc_case_key) ->
  0 <= now -> ev <> Ev.ReviewReady ->
  case_command c c.(sc_state_revision) id ev p now evd = Some w ->
  LedgerController.apply policy w s = Ok (r, s') ->
  (r = Applied /\ moved c ev s s') \/ (r = Replayed /\ s' = s).
Proof.
  intros Hq Hkey Hnow Hev Hw Ha. pose proof (query_case_ranges _ _ _ Hq) as Hrng.
  destruct (case_command_inv _ _ _ _ _ _ _ _ Hw)
    as (_ & Hid & _ & Hst & Hrev & Hr0 & _ & _ & _ & _ & He & _ & _ & Hacc & _).
  destruct r; [left; split; [done|]|right; split; [done|by eapply replay_keeps]].
  assert (wf_command w) as Hwf.
  { eapply floor_applied_wf; [|exact Ha].
    exact (case_command_floor _ _ _ _ _ _ _ _ Hrng (cr_revision _ Hrng) Hnow Hev Hw). }
  apply apply_applied in Ha as (granted & i & c0 & pol & _ & _ & Hag & Hi & Happ); [|done].
  destruct (command_bindings _ _ _ _ _ _ _ (conj (eq_ind_r (fun e => e <> Ev.ReviewReady) Hev He) Hacc) Hi Hag Happ) as (Hpr & Hh & Hpl).
  apply transition_input_inv in Hi
    as (target & d & to & round & plan & pr & head & _ & Ht & _ & _ & _ & _ & ->). simpl in *.
  pose proof (ap_case _ _ _ _ _ Happ) as Hc0. simpl in Hc0.
  apply fmap_Some in Hq as (c1 & Hc1 & Hceq). rewrite Hkey, Hc1 in Hc0. injection Hc0 as <-.
  rewrite Hceq in *. simpl in *.
  assert (0 <= c_state_revision c1) as Hpos by (unfold unsigned in *; lia).
  pose proof (applied_find_case _ _ _ _ _ Hpos Happ) as Hnew. simpl in Hnew.
  rewrite He in Ht. eexists _, _, d, _. split_and!; [exact Hst|exact Ht|..]; simpl.
  - unfold query_case. rewrite <-Hkey, Hnew. done.
  - done.
  - simpl. rewrite Hrev, (unsigned_id (c_state_revision c1)) by done. apply unsigned_id. lia.
  - simpl. rewrite Hpr. destruct (c_pr_number c1); simpl; [by rewrite unsigned_twice|done].
  - done.
  - simpl. rewrite Hpl. apply u32_twice.
  - intros k Hk. unfold query_case. erewrite applied_others; [done|exact Happ|simpl; congruence].
Qed.

Lemma command_moves policy c id ev p now evd w s r s' :
  query_case s c.(sc_case_key) = Some c -> case_key w.(wc_case_id) = c.(sc_case_key) ->
  0 <= now -> ev <> Ev.ReviewReady ->
  case_command c c.(sc_state_revision) id ev p now evd = Some w ->
  LedgerController.apply policy w s = Ok (r, s') -> find_event s id = None -> moved c ev s s'.
Proof.
  intros Hq Hkey Hnow Hev Hw Ha Hf. destruct (command_outcome _ _ _ _ _ _ _ _ _ _ _ Hq Hkey Hnow Hev Hw Ha)
    as [[_ ?]|[-> _]]; [done|].
  eapply fresh_applied in Ha; [done|]. by destruct (case_command_inv _ _ _ _ _ _ _ _ Hw) as (_ & -> & _).
Qed.

End cycles.
