(* ===== verification/Bounds.v ===== *)
(** * Bounds: operational limits (crates/pip-control/src/bounds.rs)

    A case that runs too long, fails too often, waits too long or repeats itself
    is parked: the first case in key order that exceeds a bound is escalated. *)

From S2P Require Import Prelude Text Json Domain StateMachine Revision Sql Tables Inputs StoreCore.
From S2P Require Import Recovery Outbox Attempts Control Records Status CaseHistory Ledger RolePolicy.
From S2P Require Import History Frames Steps Invariants System Ingest Policy PolicyLaws Commands Cycles.
From stdpp Require Import relations.
Open Scope Z_scope.

Inductive OperationalBound :=
| ElapsedTime | ProviderFailures | RepeatedFindingFingerprint | ProviderUnavailable
| ModelUnavailable | WorkerBlocked | NoProgress | PolicyChanged.

Definition bound_name (b : OperationalBound) : string :=
  match b with
  | ElapsedTime => "ELAPSED_TIME"
  | ProviderFailures => "PROVIDER_FAILURES"
  | RepeatedFindingFingerprint => "REPEATED_FINDING_FINGERPRINT"
  | ProviderUnavailable => "PROVIDER_UNAVAILABLE"
  | ModelUnavailable => "MODEL_UNAVAILABLE"
  | WorkerBlocked => "WORKER_BLOCKED"
  | NoProgress => "NO_PROGRESS"
  | PolicyChanged => "POLICY_CHANGED"
  end.

Record BoundObservation := {
  bo_bound : OperationalBound; bo_observed : Z; bo_limit : Z; bo_details : Value;
}.

Inductive OperationalBoundsCycle :=
| BoundsIdle
| BoundsEscalated (case_key : string) (bound : OperationalBound) (observed limit : Z).

Inductive OperationalBoundsError :=
| BoundsStore (e : StoreError)
| BoundsController (e : ControllerError)
| BoundsInvalidCase
| BoundsPanic.

Definition automated_state (state : string) : bool :=
  one_of ["PLANNING"; "READY_TO_BUILD"; "BUILDING"; "WAITING_CI"; "REVIEWING"; "REMEDIATING";
          "FINAL_REVIEW"; "READY_TO_MERGE"; "MERGING"] state.

Section bounds.
Context `{Codec}.

(** ** Repeated findings *)

(** What identifies a finding raised again: its role and its three statements. *)
Definition fingerprint (f : StoredFinding) : option string :=
  p ← as_object f.(sf_payload);
  Some (hash_bytes (to_string (json_object
    [("origin_role", Str f.(sf_origin_role)); ("defect", default Null (map_get "defect" p));
     ("consequence", default Null (map_get "consequence" p));
     ("corrective_direction", default Null (map_get "corrective_direction" p))]))).

(** The heads on which each fingerprint was raised. *)
Definition finding_heads (l : list StoredFinding) : gmap string (gset string) :=
  foldl (fun m f => match fingerprint f with
                    | Some k => <[k := {[ f.(sf_reviewed_head_sha) ]} ∪ default ∅ (m !! k)]> m
                    | None => m
                    end) ∅ l.

Definition repeated_finding_heads (key : string) (s : Store) : result StoreError Z :=
  let since := finding_window_start key s in
  history ← immutable_history_for_case key s;
  let recent := List.filter (fun f => since <=? f.(sf_recorded_at)) history.(ih_findings) in
  Ok (foldr Z.max 0 ((fun kv => Z.of_nat (size kv.2)) <$> map_to_list (finding_heads recent))).

(** ** Escalation *)

Definition escalate (policy : RepositoryPolicy) (c : StoredCase) (now : Z) (o : BoundObservation) (s : Store)
  : result OperationalBoundsError (OperationalBoundsCycle * Store) :=
  let id := "event-operational-bound-" +:+ show c.(sc_repository_id) +:+ "-" +:+ show c.(sc_issue_number)
            +:+ "-" +:+ show c.(sc_workflow_version) +:+ "-" +:+ show c.(sc_state_revision) in
  event_id ← map_err (fun _ => BoundsInvalidCase) (EventId_from_str id);
  command ← ok_or (case_command c c.(sc_state_revision) event_id Ev.OperationalBoundReached
      (json_object [("bound", Str (bound_name o.(bo_bound))); ("observed", Number o.(bo_observed));
                    ("limit", Number o.(bo_limit)); ("details", o.(bo_details))]) now [])
    BoundsInvalidCase;
  case_policy ← (if c.(sc_policy_revision) =? po_revision policy then ok_or (case_policy policy) BoundsPanic
                 else
                   loaded ← map_err BoundsStore (stored_policy c.(sc_repository_id) c.(sc_policy_revision) s);
                   accepted ← map_err (fun _ => BoundsInvalidCase) loaded;
                   ok_or (case_policy accepted) BoundsPanic);
  '(_, s) ← map_err BoundsController (LedgerController.apply case_policy command s);
  Ok (BoundsEscalated c.(sc_case_key) o.(bo_bound) o.(bo_observed) o.(bo_limit), s).

(** ** The bounds of one case, in order *)

Definition observe (b : OperationalBound) (observed limit : Z) (details : list (string * Value))
  : BoundObservation :=
  {| bo_bound := b; bo_observed := observed; bo_limit := limit; bo_details := json_object details |}.

Definition outage_details (outage : DirectOutage) : list (string * Value) :=
  [("source", Str "direct-worker"); ("cause", Str outage.(do_cause));
   ("effect_id", Str outage.(do_effect_id)); ("since", Number outage.(do_since));
   ("error", Str outage.(do_error))].

(** An outage parks the case when the model is gone or when it persists. *)
Definition outage_bound (policy : RepositoryPolicy) (now : Z) (outage : DirectOutage) : option BoundObservation :=
  if String.eqb outage.(do_cause) "MODEL_UNAVAILABLE"
  then Some (observe ModelUnavailable 1 1 (outage_details outage))
  else
    let seconds := saturating_sub now outage.(do_since) in
    if outage_limit_seconds policy <=? seconds
    then Some (observe ProviderUnavailable seconds (outage_limit_seconds policy) (outage_details outage))
    else None.

Definition case_bound (policy : RepositoryPolicy) (now : Z) (c : StoredCase) (s : Store)
  : result OperationalBoundsError (option BoundObservation) :=
  let key := c.(sc_case_key) in
  if negb (c.(sc_policy_revision) =? po_revision policy)
  then Ok (Some (observe PolicyChanged (po_revision policy) c.(sc_policy_revision)
                   [("source", Str "controller")]))
  else
  running ← map_err BoundsStore (controller_running_since c.(sc_repository_id) s);
  let last_activity := Z.max (last_case_activity key s) (default 0 running) in
  let stalled := saturating_sub now last_activity in
  let pending := pending_effect_types key s in
  queued ← (if existsb (fun e => String.eqb e "RUN_DIRECT_WORKER") pending
            then live ← map_err BoundsStore (live_direct_attempts now s); Ok (0 <? live)
            else Ok false);
  if (stall_limit_seconds policy <=? stalled) && negb queued
  then Ok (Some (observe NoProgress stalled (stall_limit_seconds policy)
                   [("source", Str "controller"); ("since", Number last_activity);
                    ("pending", Array (Str <$> pending))]))
  else
  started ← map_err BoundsStore (case_work_started_at key s);
  work_started_at ← ok_or started BoundsInvalidCase;
  let elapsed := saturating_sub now work_started_at in
  let elapsed_limit := po_max_case_elapsed_seconds policy in
  recovery ← map_err BoundsStore (infrastructure_recovery_deadline s key);
  let deadline := Z.max (saturating_add u64_max work_started_at elapsed_limit) (default 0 recovery) in
  if deadline <=? now
  then Ok (Some (observe ElapsedTime elapsed elapsed_limit [("source", Str "controller")]))
  else
  failures ← map_err BoundsStore (direct_stage_failure_count key s);
  if po_max_provider_failures policy <=? failures
  then Ok (Some (observe ProviderFailures failures (po_max_provider_failures policy)
                   [("source", Str "direct-worker"); ("scope", Str "stage")]))
  else
  outage ← map_err BoundsStore (direct_stage_outage key s);
  match outage ≫= outage_bound policy now with
  | Some o => Ok (Some o)
  | None =>
      repeated ← map_err BoundsStore (repeated_finding_heads key s);
      if po_max_repeated_finding_fingerprint policy <=? repeated
      then Ok (Some (observe RepeatedFindingFingerprint repeated
                       (po_max_repeated_finding_fingerprint policy) [("source", Str "finding-ledger")]))
      else Ok None
  end.

(** A case the controller is responsible for moving. *)
Definition bounded_case (scope : RepositoryScope) (s : Store) (c : StoredCase) : bool :=
  let ready_with_work := String.eqb c.(sc_state) "SHADOW_READY"
                         && negb (bool_decide (pending_effect_types c.(sc_case_key) s = [])) in
  scope_matches scope c && (automated_state c.(sc_state) || ready_with_work).

Fixpoint first_bound (scope : RepositoryScope) (now : Z) (l : list StoredCase) (s : Store)
  : result OperationalBoundsError (option (StoredCase * BoundObservation)) :=
  match l with
  | [] => Ok None
  | c :: l =>
      if bounded_case scope s c then
        found ← case_bound (rs_policy scope) now c s;
        match found with Some o => Ok (Some (c, o)) | None => first_bound scope now l s end
      else first_bound scope now l s
  end.

Definition key_order (a b : StoredCase) : bool := str_leb a.(sc_case_key) b.(sc_case_key).

Definition enforce_operational_bounds (scope : RepositoryScope) (now : Z) (s : Store)
  : result OperationalBoundsError (OperationalBoundsCycle * Store) :=
  report ← map_err BoundsStore (status now s);
  found ← first_bound scope now (order_by key_order report.(ls_cases)) s;
  match found with
  | None => Ok (BoundsIdle, s)
  | Some (c, o) => escalate (rs_policy scope) c now o s
  end.

Definition escalate_case_for_bound (policy : RepositoryPolicy) (key : string) (now : Z)
  (o : BoundObservation) (s : Store) : result OperationalBoundsError (OperationalBoundsCycle * Store) :=
  c ← ok_or (query_case s key) BoundsInvalidCase;
  err_if (negb (c.(sc_repository_id) =? rid_id (po_repository policy)) || negb (automated_state c.(sc_state)))
    BoundsInvalidCase;;
  escalate policy c now o s.

(** ** What the bounds promise *)

(** A case within every bound of its policy. *)
Record within_bounds (policy : RepositoryPolicy) (now : Z) (s : Store) (c : StoredCase) : Prop := {
  wb_policy : c.(sc_policy_revision) = po_revision policy;
  wb_progress : exists running, controller_running_since c.(sc_repository_id) s = Ok running
    /\ (now - Z.max (last_case_activity c.(sc_case_key) s) (default 0 running) < stall_limit_seconds policy
        \/ ("RUN_DIRECT_WORKER"%string ∈ pending_effect_types c.(sc_case_key) s
            /\ exists live, live_direct_attempts now s = Ok live /\ 0 < live));
  wb_elapsed : exists started recovery, case_work_started_at c.(sc_case_key) s = Ok (Some started)
    /\ infrastructure_recovery_deadline s c.(sc_case_key) = Ok recovery
    /\ (now < started + po_max_case_elapsed_seconds policy \/ now < default 0 recovery);
  wb_failures : exists n, direct_stage_failure_count c.(sc_case_key) s = Ok n
    /\ n < po_max_provider_failures policy;
  wb_outage : exists o, direct_stage_outage c.(sc_case_key) s = Ok o
    /\ forall outage, o = Some outage -> outage.(do_cause) <> "MODEL_UNAVAILABLE"%string
         /\ now - outage.(do_since) < outage_limit_seconds policy;
  wb_repeated : exists n, repeated_finding_heads c.(sc_case_key) s = Ok n
    /\ n < po_max_repeated_finding_fingerprint policy;
}.

Lemma saturating_sub_lt a b n : 0 < n -> saturating_sub a b < n <-> a - b < n.
Proof. unfold saturating_sub. lia. Qed.

(** The limits of a loaded policy are positive. *)
Definition positive_limits (p : RepositoryPolicy) : Prop :=
  0 < stall_limit_seconds p /\ 0 < outage_limit_seconds p.

Lemma valid_limits_positive p : valid_limits p = true ->
  (forall n, po_max_stall_seconds p = Some n -> 0 <= n) ->
  (forall n, po_max_outage_seconds p = Some n -> 0 <= n) -> positive_limits p.
Proof.
  unfold valid_limits, positive_limits, stall_limit_seconds, outage_limit_seconds. intros Hv Hs Ho. bools. split.
  - destruct (po_max_stall_seconds p) as [n|]; [|lia].
    specialize (Hs n eq_refl). destruct (Z.eq_dec n 0); [congruence|lia].
  - destruct (po_max_outage_seconds p) as [n|]; simpl; [|unfold DEFAULT_MAX_OUTAGE_SECONDS; lia].
    specialize (Ho n eq_refl). destruct (Z.eq_dec n 0); [congruence|lia].
Qed.

Lemma outage_bound_none policy now outage :
  positive_limits policy -> outage_bound policy now outage = None ->
  outage.(do_cause) <> "MODEL_UNAVAILABLE"%string /\ now - outage.(do_since) < outage_limit_seconds policy.
Proof.
  intros [_ Hp]. unfold outage_bound. destruct (String.eqb_spec (do_cause outage) "MODEL_UNAVAILABLE"); [done|].
  destruct (outage_limit_seconds policy <=? _) eqn:Hle; [done|]. bools. intros _. split; [done|].
  by apply saturating_sub_lt.
Qed.

Lemma case_bound_none policy now c s :
  positive_limits policy -> now <= i64_max -> case_bound policy now c s = Ok None ->
  within_bounds policy now s c.
Proof.
  intros Hpos Hnow. unfold case_bound. destruct (negb _) eqn:Hpol; [done|]. bools. intros Hb. open_ok.
  rename select (controller_running_since _ _ = _) into Hrun.
  destruct (_ && negb _) eqn:Hst; [done|]. open_ok.
  destruct (_ <=? now) eqn:Hdl; [done|]. open_ok.
  destruct (po_max_provider_failures policy <=? _) eqn:Hfl; [done|]. open_ok.
  rename select (direct_stage_outage _ _ = _) into Hout.
  destruct (_ ≫= outage_bound policy now) eqn:Hob; [done|]. open_ok.
  destruct (po_max_repeated_finding_fingerprint policy <=? _) eqn:Hrp; [done|].
  bools. split; eauto.
  - eexists. split; [exact Hrun|]. apply andb_false_iff in Hst as [Hst|Hst]; bools.
    + left. apply saturating_sub_lt; [apply Hpos|done].
    + right. subst. match goal with Hx : (if ?b then _ else _) = Ok true |- _ => destruct b eqn:Hex; [|done] end.
      open_ok. split; [|eexists; split; [done|]; by apply Z.ltb_lt].
      apply existsb_exists in Hex as (e & He & Heq). apply String.eqb_eq in Heq as ->. by apply list_elem_of_In.
  - rename select (case_work_started_at _ _ = _) into Hws.
    rename select (infrastructure_recovery_deadline _ _ = _) into Hrec.
    rename select (_ = Some _) into Hs. rewrite Hs in Hws. eexists _, _. split_and!; [exact Hws|exact Hrec|]. unfold saturating_add, i64_max, u64_max in *. lia.
  - eexists. split; [exact Hout|]. intros outage ->. by apply outage_bound_none.
Qed.

Lemma first_bound_none scope now l s :
  positive_limits (rs_policy scope) -> now <= i64_max -> first_bound scope now l s = Ok None ->
  forall c, c ∈ l -> bounded_case scope s c = true -> within_bounds (rs_policy scope) now s c.
Proof.
  intros Hp Hnow. induction l as [|x l IH]; simpl; [set_solver|]. intros Hf c [->|Hc]%elem_of_cons Hb.
  - rewrite Hb in Hf. open_ok. case_match; [done|]. subst. by apply case_bound_none.
  - apply IH; [|done..]. destruct (bounded_case scope s x); [|done]. open_ok. by case_match.
Qed.

Lemma first_bound_some scope now l s c o :
  first_bound scope now l s = Ok (Some (c, o)) ->
  c ∈ l /\ bounded_case scope s c = true /\ case_bound (rs_policy scope) now c s = Ok (Some o).
Proof.
  induction l as [|x l IH]; simpl; [done|]. destruct (bounded_case scope s x) eqn:Hb.
  - intros Hf. open_ok. case_match; [by simplify_eq; split_and!; [left|..]|].
    destruct IH as (? & ? & ?); [done|]. split_and!; [by right|done..].
  - intros Hf. destruct IH as (? & ? & ?); [done|]. split_and!; [by right|done..].
Qed.

(** An observation is over its limit; a policy change is a difference. *)
Definition exceeded (o : BoundObservation) : Prop :=
  match o.(bo_bound) with
  | PolicyChanged => o.(bo_observed) <> o.(bo_limit)
  | _ => o.(bo_limit) <= o.(bo_observed)
  end.

Ltac over :=
  bools; simplify_eq; unfold exceeded; simpl;
  unfold saturating_sub, saturating_add, i64_max, u64_max in *; first [congruence | lia].

Lemma case_bound_exceeded policy now c s o :
  now <= i64_max -> case_bound policy now c s = Ok (Some o) -> exceeded o.
Proof.
  intros Hnow. unfold case_bound. destruct (negb _) eqn:Hpol; intros Hb; open_ok; [over|].
  destruct (_ && negb _) eqn:Hst; open_ok; [over|].
  destruct (_ <=? now) eqn:Hdl; open_ok; [over|].
  destruct (po_max_provider_failures policy <=? _) eqn:Hfl; open_ok; [over|].
  destruct (_ ≫= outage_bound policy now) eqn:Hob; open_ok.
  - apply bind_Some in Hob as (outage & _ & Hob). unfold outage_bound in Hob.
    destruct (String.eqb _ _); [over|]. case_match; [over|done].
  - destruct (po_max_repeated_finding_fingerprint policy <=? _) eqn:Hrp; [over|done].
Qed.

(** The key of a case is the rendering of its identity. *)
Definition well_keyed (c : StoredCase) : Prop :=
  forall id, case_id_of c = Some id -> case_key id = c.(sc_case_key).

Definition bound_event_id (c : StoredCase) : string :=
  "event-operational-bound-" +:+ show c.(sc_repository_id) +:+ "-" +:+ show c.(sc_issue_number)
  +:+ "-" +:+ show c.(sc_workflow_version) +:+ "-" +:+ show c.(sc_state_revision).

Lemma bound_decision st ctx d :
  transition st Ev.OperationalBoundReached ctx = Ok d -> next_state d = State.Escalated.
Proof. unfold transition, decision. destruct st; simpl; intros; repeat case_match; by simplify_eq/=. Qed.

Lemma textual_id_ok k v x : textual_id k v = Ok x -> x = v.
Proof. unfold textual_id. case_match; intros; by simplify_eq. Qed.

Lemma escalate_moves policy c now o s r s' :
  query_case s c.(sc_case_key) = Some c -> well_keyed c -> 0 <= now ->
  find_event s (bound_event_id c) = None ->
  escalate policy c now o s = Ok (r, s') ->
  r = BoundsEscalated c.(sc_case_key) o.(bo_bound) o.(bo_observed) o.(bo_limit)
  /\ moved c Ev.OperationalBoundReached s s'.
Proof.
  intros Hq Hk Hnow Hf. unfold escalate. intros He. open_ok.
  rename select (EventId_from_str _ = _) into Hid. apply textual_id_ok in Hid.
  repeat match goal with x : _ * _ |- _ => destruct x end. open_ok. simplify_eq. split; [done|].
  rename select (case_command _ _ _ _ _ _ _ = _) into Hc.
  pose proof (case_command_inv _ _ _ _ _ _ _ _ Hc) as (Hcid & _).
  eapply command_moves; eauto.
Qed.

(** Idle bounds mean that every case is within its limits.  When a cycle
    of the bounds reports nothing, the ledger is unchanged and every case of the
    scope that the controller is responsible for made progress (or waits for a
    worker slot others use), is before its deadline, within its failure budget
    and outage window, and has no finding repeated on too many heads. *)
Theorem bounds_idle_within (scope : RepositoryScope) (now : Z) (s s' : Store)
  (Hpos : positive_limits (rs_policy scope))
  (Hidle : enforce_operational_bounds scope now s = Ok (BoundsIdle, s')) :
  s' = s /\ forall row, row ∈ s.(cases) -> bounded_case scope s (stored_case row) = true ->
    within_bounds (rs_policy scope) now s (stored_case row).
Proof.
  unfold enforce_operational_bounds in Hidle. open_ok. rename select (status _ _ = _) into Hst.
  unfold status in Hst. open_ok. rename select (sql_u64 _ = _) into Hn. apply sql_u64_ok in Hn as [_ Hn].
  subst. simpl in *. rename select (first_bound _ _ _ _ = _) into Hf. destruct x0 as [[c o]|].
  - unfold escalate in *. open_ok. repeat match goal with x : _ * _ |- _ => destruct x end. by open_ok.
  - open_ok. simplify_eq. split; [done|]. intros row Hrow. eapply first_bound_none; [done..|].
    apply order_by_elem, status_cases_elem. eauto.
Qed.


End bounds.

(** ** Witnesses *)

Definition demo_scope : RepositoryScope := {| rs_policy := demo_policy 1 1000; rs_case_key := None |}.

Lemma demo_limits_positive : positive_limits (demo_policy 1 1000).
Proof. split; vm_compute; reflexivity. Qed.

Lemma bounds_idle_within_witness :
  exists s', enforce_operational_bounds (H := demo_codec) demo_scope 200 demo_opened = Ok (BoundsIdle, s')
    /\ s' = demo_opened.
Proof.
  destruct (enforce_operational_bounds (H := demo_codec) demo_scope 200 demo_opened) as [[r s']|] eqn:He;
    [|by vm_compute in He].
  destruct r; [|by vm_compute in He]. exists s'. split; [done|].
  exact (proj1 (bounds_idle_within (H := demo_codec) demo_scope 200 demo_opened s' demo_limits_positive He)).
Defined.

