(* ===== verification/Park.v ===== *)
(** * Park: why a case stopped, what its human reads, and where it resumes

    crates/pip-control/src/park.rs, with the prose helpers of
    publication_text.rs: text that a worker reported is escaped before it is
    published. *)

From S2P Require Import Prelude Text Parse Json Domain StateMachine Sql Tables Inputs Recovery StoreCore Control.
From Stdlib Require Import Ascii.
Open Scope Z_scope.

(** ** Prose (publication_text.rs) *)

(** [str::replace(c, with)]. *)
Fixpoint replace_char (c : ascii) (with_ : string) (s : string) : string :=
  match s with
  | EmptyString => EmptyString
  | String a s => if Ascii.eqb a c then with_ +:+ replace_char c with_ s else String a (replace_char c with_ s)
  end.

(** [str::split_whitespace]: the maximal runs of other characters. *)
Fixpoint words_of (current : string) (l : list (Z * string)) : list string :=
  match l with
  | [] => if is_empty current then [] else [current]
  | c :: l => if white c then (if is_empty current then [] else [current]) ++ words_of "" l
              else words_of (current +:+ c.2) l
  end.
Definition split_whitespace (s : string) : list string := words_of "" (chars s).

Definition prose (value : string) : string :=
  replace_char "@" "&#64;" (replace_char ">" "&gt;" (replace_char "<" "&lt;"
    (replace_char "&" "&amp;" (replace_char "]" "\]" (replace_char "[" "\["
      (replace_char "`" "\`" (replace_char "\" "\\" (join " " (split_whitespace value))))))))).

Definition bullets (items : list string) (empty : string) : string :=
  let lines := (fun item => "- " +:+ item)
    <$> List.filter (fun item => negb (is_empty item)) (prose <$> items) in
  match lines with [] => empty | _ => join (String "010" "") lines end.

(** Only explicit human summaries are published. *)
Fixpoint summaries (v : Value) : list string :=
  match v with
  | Str text => [text]
  | Array items => flat_map summaries items
  | Object fields =>
      match omap (fun key => map_get key fields ≫= as_str) ["summary"; "description"; "title"; "assessment"] with
      | text :: _ => [text]
      | [] => []
      end
  | _ => []
  end.

(** ** Where a case resumes *)

Definition resume_target (park : ParkingEvent) : CaseState :=
  let event := park.(pe_event_type) in
  let previous := park.(pe_previous_state) in
  if one_of ["CI_FAILED"; "REQUEST_CHANGES"; "RETURN_TO_BUILD"] event then State.Remediating
  else if String.eqb event "RETURN_TO_REVIEW" then State.WaitingCi
  else if one_of ["RETURN_TO_PLANNING"; "WAIT_FOR_ISSUE_CREATOR"; "HUMAN_FEEDBACK_RECEIVED"] event
  then State.Planning
  else if one_of ["PLANNING"; "WAITING_HUMAN"] previous then State.Planning
  else if one_of ["READY_TO_BUILD"; "BUILDING"] previous then State.ReadyToBuild
  else if String.eqb previous "REMEDIATING" then State.Remediating
  else State.WaitingCi.

Definition round_events : list string :=
  ["CI_FAILED"; "REQUEST_CHANGES"; "RETURN_TO_BUILD"; "RETURN_TO_REVIEW"; "RETURN_TO_PLANNING";
   "WAIT_FOR_ISSUE_CREATOR"; "HUMAN_FEEDBACK_RECEIVED"].
Definition rounds_exhausted (park : ParkingEvent) (state : string) : bool :=
  String.eqb state "ESCALATED" && one_of round_events park.(pe_event_type).

Definition stage (state : string) : string :=
  if one_of ["PLANNING"; "WAITING_HUMAN"] state then "planning"
  else if one_of ["READY_TO_BUILD"; "BUILDING"] state then "building"
  else if String.eqb state "REMEDIATING" then "fixing review or CI feedback"
  else if String.eqb state "WAITING_CI" then "waiting for CI"
  else if String.eqb state "REVIEWING" then "review"
  else if String.eqb state "FINAL_REVIEW" then "final review"
  else if one_of ["SHADOW_READY"; "READY_TO_MERGE"; "MERGING"] state then "readiness checks"
  else "an unknown stage".

(** ** What the human reads *)

Definition duration (seconds : Z) : string :=
  if seconds <? 120 then show seconds +:+ " seconds"
  else if seconds <? 7200 then show (seconds / 60) +:+ " minutes"
  else if seconds <? 172800 then show (seconds / 3600) +:+ " hours"
  else show (seconds / 86400) +:+ " days".

Definition text_of (v : Value) : string := default "" (prose <$> as_str v).
Definition number_of (v : Value) : Z := default 0 (as_u64 v).

(** [details.pending], the effects a stalled case waits on. *)
Definition waiting_on (details : Value) : string :=
  match as_array (index details "pending") with
  | None => ""
  | Some items =>
      let text := join ", " ((fun item => replace_char "_" " " (to_ascii_lowercase item)) <$> omap as_str items) in
      if is_empty text then "" else " Waiting on: " +:+ prose text +:+ "."
  end.

Definition explain_bound (bound : string) (p details : Value) (worker error : string) : string :=
  let with_error sentence := if is_empty error then sentence else sentence +:+ " Last error: " +:+ error in
  let observed := number_of (index p "observed") in
  let limit := number_of (index p "limit") in
  if String.eqb bound "PROVIDER_FAILURES" then
    with_error ("The " +:+ worker +:+ " step failed " +:+ show observed
                +:+ " times in a row without producing a usable result.")
  else if String.eqb bound "PROVIDER_UNAVAILABLE" then
    with_error ("The worker provider has been unavailable for " +:+ duration observed
                +:+ " (limit " +:+ duration limit +:+ ").")
  else if String.eqb bound "MODEL_UNAVAILABLE" then
    with_error "The pinned model is not available to the provider account. Pip never substitutes another model."
  else if String.eqb bound "WORKER_BLOCKED" then
    "The " +:+ worker +:+ " stopped and reported: " +:+ error
  else if String.eqb bound "ELAPSED_TIME" then
    "The case has been open for " +:+ duration observed +:+ " without finishing (limit "
    +:+ duration limit +:+ ")."
  else if String.eqb bound "NO_PROGRESS" then
    "Nothing has happened on this case for " +:+ duration observed +:+ " (limit " +:+ duration limit
    +:+ ")." +:+ waiting_on details
  else if String.eqb bound "POLICY_CHANGED" then
    "Pip's configuration changed (revision " +:+ show limit +:+ " to " +:+ show observed
    +:+ ") in a way this case did not accept, such as a different model or reviewer. Resuming continues under the new configuration."
  else if String.eqb bound "REPEATED_FINDING_FINGERPRINT" then
    "A reviewer raised the same finding on " +:+ show observed
    +:+ " successive revisions; the builder has not resolved it."
  else "Pip reached an operational limit (" +:+ prose bound +:+ ").".

Definition explain (park : ParkingEvent) (c : StoredCase) : string :=
  let details := index park.(pe_payload) "details" in
  let error := text_of (index details "error") in
  let role := text_of (index details "role") in
  let worker := if is_empty role then "worker" else role in
  let event := park.(pe_event_type) in
  if String.eqb event "OPERATIONAL_BOUND_REACHED" then
    explain_bound (default "" (as_str (index park.(pe_payload) "bound"))) park.(pe_payload) details worker error
  else if one_of round_events event && rounds_exhausted park c.(sc_state) then
    "The case used all of its remediation rounds (" +:+ show c.(sc_remediation_round)
    +:+ " so far) without reaching a ready PR."
  else if String.eqb event "WAIT_FOR_ISSUE_CREATOR" then
    "The final reviewer needs input from the issue author before this can be ready."
  else if one_of ["WAITING_FOR_ISSUE_CREATOR"; "NEEDS_HUMAN_SCOPE_DECISION"; "ROOT_CAUSE_DIFFERENT_SCOPE"] event then
    "The planner needs a human decision before work can continue; see its plan comment above."
  else if String.eqb event "CROSS_REPO_DEPENDENCY" then
    "The planner found that the fix depends on another repository; see its plan comment above."
  else if String.eqb event "BLOCKED_UNEXPECTED_MODEL" then
    "A worker reported that it was not running the pinned model."
  else if String.eqb event "BLOCKED" then
    "A worker reported that it could not do its job; see its result for the reason."
  else "The case stopped after `" +:+ prose event +:+ "`.".

Definition newline : string := String "010" "".

Definition comment (park : ParkingEvent) (c : StoredCase) (login : option string) : string :=
  let head := match c.(sc_head_sha) with Some head => " on `" +:+ head +:+ "`" | None => "" end in
  let commands := match login with
    | None => "mention Pip's GitHub account followed by `resume`, `replan` or `abandon`. Lines after the command are passed on as guidance."
    | Some login =>
        "reply to this issue with one of:" +:+ newline +:+ newline
        +:+ "- `@" +:+ login +:+ " resume` to pick up where it stopped (add any guidance on the following lines)" +:+ newline
        +:+ "- `@" +:+ login +:+ " replan` to start again from planning with your guidance" +:+ newline
        +:+ "- `@" +:+ login +:+ " abandon` to stop working on this issue"
    end in
  "## Pip paused this case" +:+ newline +:+ newline +:+ explain park c +:+ newline +:+ newline
  +:+ "Pip stopped during " +:+ stage park.(pe_previous_state) +:+ head +:+ ". To continue, " +:+ commands
  +:+ newline +:+ newline +:+ "Only maintainers trusted to authorize Pip can do this.".

(** ** Published prose is inert *)

(** Every character replaced by a text. *)
Fixpoint flat (f : ascii -> string) (s : string) : string :=
  match s with EmptyString => EmptyString | String a s => f a +:+ flat f s end.

(** What one character of reported text becomes. *)
Definition escape (a : ascii) : string :=
  if Ascii.eqb a "\" then "\\" else if Ascii.eqb a "`" then "\`"
  else if Ascii.eqb a "[" then "\[" else if Ascii.eqb a "]" then "\]"
  else if Ascii.eqb a "&" then "&amp;" else if Ascii.eqb a "<" then "&lt;"
  else if Ascii.eqb a ">" then "&gt;" else if Ascii.eqb a "@" then "&#64;" else String a "".

(** Text in which markup cannot start: an angle bracket or a mention sign never
    occurs, a code or link delimiter only behind its own backslash. *)
Fixpoint inert (s : string) : bool :=
  match s with
  | EmptyString => true
  | String a s' =>
      if Ascii.eqb a "\" then
        match s' with
        | String b s' => bool_decide (b ∈ ["\"; "`"; "["; "]"]%char) && inert s'
        | EmptyString => false
        end
      else negb (bool_decide (a ∈ ["`"; "["; "]"; "<"; ">"; "@"]%char)) && inert s'
  end.

Lemma flat_app f s t : flat f (s +:+ t) = flat f s +:+ flat f t.
Proof. induction s as [|a s IH]; [done|]. simpl. rewrite IH. symmetry. apply append_assoc. Qed.
Lemma flat_flat f g s : flat g (flat f s) = flat (fun a => flat g (f a)) s.
Proof. induction s as [|a s IH]; [done|]. simpl. by rewrite flat_app, IH. Qed.
Lemma flat_ext f g s : (forall a, f a = g a) -> flat f s = flat g s.
Proof. intros Hfg. induction s as [|a s IH]; [done|]. simpl. by rewrite Hfg, IH. Qed.

Definition replacement (c : ascii) (w : string) (a : ascii) : string :=
  if Ascii.eqb a c then w else String a "".
Lemma replace_char_flat c w s : replace_char c w s = flat (replacement c w) s.
Proof.
  induction s as [|a s IH]; [done|]. simpl. rewrite IH. unfold replacement. by destruct (Ascii.eqb a c).
Qed.

(** The eight replacements of the source are one pass over the characters. *)
Lemma prose_escape value : prose value = flat escape (join " " (split_whitespace value)).
Proof.
  unfold prose. rewrite !replace_char_flat, !flat_flat. apply flat_ext.
  intros [[] [] [] [] [] [] [] []]; reflexivity.
Qed.

Lemma inert_escape a t : inert (escape a +:+ t) = inert t.
Proof. destruct a as [[] [] [] [] [] [] [] []]; reflexivity. Qed.

(** Published prose is inert.  Whatever text a worker reported, its
    published form contains no angle bracket and no mention sign, and every
    backtick and square bracket in it is escaped by a backslash of its own. *)
Theorem prose_is_inert (value : string) : inert (prose value) = true.
Proof.
  rewrite prose_escape. induction (join _ _) as [|a s IH]; [done|].
  change (inert (escape a +:+ flat escape s) = true). by rewrite inert_escape.
Qed.
