(* ===== verification/GitHub.v ===== *)
(** * GitHub: evidence read from GitHub and the verdict on CI

    The snapshots of crates/pip-github/src/lib.rs with their serialization, and
    [evaluate_ci].  Only the latest attempt of a check and the latest status of
    a context count. *)

From Stdlib Require Import Sorting.Sorted.
From S2P Require Import Prelude Text Parse Json Sql.
Open Scope Z_scope.

(** ** Errors *)

Inductive GitHubError :=
| InvalidConfiguration | InvalidRepository | InvalidIssueNumber | HttpStatus (status : Z)
| ResponseTooLarge | MalformedJson (error : string) | InvalidIdentity | PaginationLimit | UnsafePaginationUrl
| InvalidMutation | GitHubIdempotencyConflict | DuplicateOwnership | OwnershipConflict
| MutationDisabled | RateLimited (reset : Z) | Transport (message : string).

(** [Display]. *)
Definition github_error_text (e : GitHubError) : string :=
  match e with
  | InvalidConfiguration => "invalid GitHub reader configuration"
  | InvalidRepository => "invalid repository owner or name"
  | InvalidIssueNumber => "issue number must be positive"
  | HttpStatus status => "GitHub returned HTTP " +:+ show status
  | ResponseTooLarge => "GitHub response exceeded the configured bound"
  | MalformedJson error => "malformed GitHub JSON: " +:+ error
  | InvalidIdentity => "GitHub response lacks canonical numeric identity"
  | PaginationLimit => "GitHub pagination limit exceeded"
  | UnsafePaginationUrl => "GitHub pagination attempted to change origin"
  | InvalidMutation => "invalid GitHub mutation request"
  | GitHubIdempotencyConflict => "GitHub idempotency marker conflicts with existing content"
  | DuplicateOwnership => "multiple GitHub objects claim the same Pip ownership"
  | OwnershipConflict => "GitHub object has a Pip marker from an unexpected actor"
  | MutationDisabled => "GitHub mutation is disabled by policy"
  | RateLimited reset => "GitHub rate limit reached until unix time " +:+ show reset
  | Transport message => "GitHub transport failed: " +:+ message
  end.

(** ** Snapshots *)

Record RepositorySnapshot := { rp_id : Z; rp_full_name : string; rp_default_branch : string }.

Record IssueSnapshot := {
  is_id : Z; is_number : Z; is_open : bool; is_pull : bool; is_labels : gset string;
  is_assignee_ids : gset Z;
}.
#[export] Instance issue_snapshot_eq_dec : EqDecision IssueSnapshot.
Proof. solve_decision. Defined.

Definition matches_discovery (self discovery : IssueSnapshot) : bool :=
  (self.(is_id) =? discovery.(is_id)) && (self.(is_number) =? discovery.(is_number))
  && Bool.eqb self.(is_open) discovery.(is_open) && Bool.eqb self.(is_pull) discovery.(is_pull)
  && bool_decide (self.(is_labels) = discovery.(is_labels)).
Definition assigned_to_other (self : IssueSnapshot) (automation : option Z) : bool :=
  existsb (fun id => negb (bool_decide (Some id = automation))) (elements self.(is_assignee_ids)).

Record IssueContentSnapshot := {
  co_author_id : Z; co_title : string; co_body : string; co_created_at : string; co_updated_at : string;
}.
Record LabelEvent := {
  le_id : Z; le_labeled : bool; le_actor_id : Z; le_label : string; le_created_at : string;
}.
Record IssueCommentSnapshot := {
  ct_id : Z; ct_actor_id : Z; ct_issue_number : Z; ct_html_url : string; ct_body : string;
  ct_body_sha256 : string; ct_created_at : string; ct_updated_at : string;
}.
Record IntakeSnapshot := {
  in_repository : RepositorySnapshot; in_issue : IssueSnapshot; in_content : IssueContentSnapshot;
  in_label_events : list LabelEvent; in_comments : list IssueCommentSnapshot;
}.

Inductive CheckStatus := Queued | InProgress | Completed | Waiting | Requested | CheckPending.
Inductive CheckConclusion :=
| ActionRequired | Cancelled | Failure | Neutral | Skipped | Stale | StartupFailure | Success | TimedOut.
#[export] Instance check_status_eq_dec : EqDecision CheckStatus.
Proof. solve_decision. Defined.
#[export] Instance check_conclusion_eq_dec : EqDecision CheckConclusion.
Proof. solve_decision. Defined.

Definition is_failure (c : CheckConclusion) : bool :=
  match c with ActionRequired | Failure | StartupFailure | TimedOut => true | _ => false end.

Record CheckRunSnapshot := {
  ck_id : Z; ck_app_id : Z; ck_details_url : option string; ck_name : string; ck_head_sha : string;
  ck_status : CheckStatus; ck_conclusion : option CheckConclusion; ck_started_at : option string;
  ck_completed_at : option string; ck_check_suite_id : option Z;
}.

Inductive CommitStatusState := StatusError | StatusFailure | StatusPending | StatusSuccess.
#[export] Instance commit_status_state_eq_dec : EqDecision CommitStatusState.
Proof. solve_decision. Defined.
Record CommitStatusSnapshot := {
  st_id : Z; st_creator_id : Z; st_context : string; st_state : CommitStatusState;
  st_created_at : string; st_updated_at : string;
}.

Inductive ReviewState := Approved | ChangesRequested | Commented | Dismissed | ReviewPending.
#[export] Instance review_state_eq_dec : EqDecision ReviewState.
Proof. solve_decision. Defined.
Record ReviewSnapshot := {
  rw_id : Z; rw_actor_id : Z; rw_state : ReviewState; rw_commit_id : option string;
  rw_exact_head : bool; rw_submitted_at : option string; rw_body : string;
}.
Record PullRequestSnapshot := {
  pr_id : Z; pr_number : Z; pr_open : bool; pr_draft : bool; pr_merged : bool;
  pr_merge_commit_sha : option string; pr_mergeable : option bool; pr_mergeable_state : string;
  pr_author_id : Z; pr_head_repository_id : Z; pr_head_repository : string; pr_head_branch : string;
  pr_head_sha : string; pr_base_branch : string; pr_base_sha : string;
}.
Record PullRequestEvidence := {
  pe_pull : PullRequestSnapshot; pe_check_runs : list CheckRunSnapshot;
  pe_commit_status_state : CommitStatusState; pe_commit_statuses : list CommitStatusSnapshot;
  pe_reviews : list ReviewSnapshot;
}.

(** Threads of review comments. *)
Record ReviewCommentAuthor := { au_kind : string }.
Record ReviewThreadComment := {
  tc_id : string; tc_body : string; tc_updated_at : string; tc_url : string; tc_author : option ReviewCommentAuthor;
}.
Record ReviewThreadSnapshot := {
  th_id : string; th_is_resolved : bool; th_is_outdated : bool; th_path : string;
  th_comments : list ReviewThreadComment;
}.

(** ** Serialization *)

Definition check_status_name (s : CheckStatus) : string :=
  match s with
  | Queued => "queued" | InProgress => "in_progress" | Completed => "completed" | Waiting => "waiting"
  | Requested => "requested" | CheckPending => "pending"
  end.
Definition check_conclusion_name (c : CheckConclusion) : string :=
  match c with
  | ActionRequired => "action_required" | Cancelled => "cancelled" | Failure => "failure"
  | Neutral => "neutral" | Skipped => "skipped" | Stale => "stale"
  | StartupFailure => "startup_failure" | Success => "success" | TimedOut => "timed_out"
  end.
Definition commit_status_name (s : CommitStatusState) : string :=
  match s with
  | StatusError => "error" | StatusFailure => "failure" | StatusPending => "pending"
  | StatusSuccess => "success"
  end.
Definition review_state_name (s : ReviewState) : string :=
  match s with
  | Approved => "APPROVED" | ChangesRequested => "CHANGES_REQUESTED" | Commented => "COMMENTED"
  | Dismissed => "DISMISSED" | ReviewPending => "PENDING"
  end.
Definition opt_bool (o : option bool) : Value := match o with Some b => Bool b | None => Null end.
Definition skip_none {A} (k : string) (f : A -> Value) (o : option A) : list (string * Value) :=
  match o with Some a => [(k, f a)] | None => [] end.

Definition ser_check (c : CheckRunSnapshot) : Value :=
  json_object ([("id", Number c.(ck_id)); ("app_id", Number c.(ck_app_id))]
    ++ skip_none "details_url" Str c.(ck_details_url)
    ++ [("name", Str c.(ck_name)); ("head_sha", Str c.(ck_head_sha));
        ("status", Str (check_status_name c.(ck_status)));
        ("conclusion", opt_str (check_conclusion_name <$> c.(ck_conclusion)));
        ("started_at", opt_str c.(ck_started_at)); ("completed_at", opt_str c.(ck_completed_at))]
    ++ skip_none "check_suite_id" Number c.(ck_check_suite_id)).
Definition ser_status (s : CommitStatusSnapshot) : Value :=
  json_object [("id", Number s.(st_id)); ("creator_id", Number s.(st_creator_id));
               ("context", Str s.(st_context)); ("state", Str (commit_status_name s.(st_state)));
               ("created_at", Str s.(st_created_at)); ("updated_at", Str s.(st_updated_at))].
Definition ser_review (r : ReviewSnapshot) : Value :=
  json_object [("id", Number r.(rw_id)); ("actor_id", Number r.(rw_actor_id));
               ("state", Str (review_state_name r.(rw_state))); ("commit_id", opt_str r.(rw_commit_id));
               ("exact_head", Bool r.(rw_exact_head)); ("submitted_at", opt_str r.(rw_submitted_at));
               ("body", Str r.(rw_body))].
Definition ser_pull (p : PullRequestSnapshot) : Value :=
  json_object [("id", Number p.(pr_id)); ("number", Number p.(pr_number)); ("open", Bool p.(pr_open));
               ("draft", Bool p.(pr_draft)); ("merged", Bool p.(pr_merged));
               ("merge_commit_sha", opt_str p.(pr_merge_commit_sha));
               ("mergeable", opt_bool p.(pr_mergeable)); ("mergeable_state", Str p.(pr_mergeable_state));
               ("author_id", Number p.(pr_author_id));
               ("head_repository_id", Number p.(pr_head_repository_id));
               ("head_repository", Str p.(pr_head_repository)); ("head_branch", Str p.(pr_head_branch));
               ("head_sha", Str p.(pr_head_sha)); ("base_branch", Str p.(pr_base_branch));
               ("base_sha", Str p.(pr_base_sha))].
Definition ser_evidence (e : PullRequestEvidence) : Value :=
  json_object [("pull_request", ser_pull e.(pe_pull)); ("check_runs", Array (ser_check <$> e.(pe_check_runs)));
               ("commit_status_state", Str (commit_status_name e.(pe_commit_status_state)));
               ("commit_statuses", Array (ser_status <$> e.(pe_commit_statuses)));
               ("reviews", Array (ser_review <$> e.(pe_reviews)))].

Definition ser_repository (r : RepositorySnapshot) : Value :=
  json_object [("id", Number r.(rp_id)); ("full_name", Str r.(rp_full_name));
               ("default_branch", Str r.(rp_default_branch))].
(** A [BTreeSet] serializes in order. *)
Definition ser_issue (i : IssueSnapshot) : Value :=
  json_object [("id", Number i.(is_id)); ("number", Number i.(is_number)); ("open", Bool i.(is_open));
               ("is_pull_request", Bool i.(is_pull));
               ("labels", Array (Str <$> order_by str_leb (elements i.(is_labels))));
               ("assignee_ids", Array (Number <$> order_by Z.leb (elements i.(is_assignee_ids))))].
Definition ser_content (c : IssueContentSnapshot) : Value :=
  json_object [("author_id", Number c.(co_author_id)); ("title", Str c.(co_title)); ("body", Str c.(co_body));
               ("created_at", Str c.(co_created_at)); ("updated_at", Str c.(co_updated_at))].
Definition ser_comment (c : IssueCommentSnapshot) : Value :=
  json_object [("id", Number c.(ct_id)); ("actor_id", Number c.(ct_actor_id));
               ("issue_number", Number c.(ct_issue_number)); ("html_url", Str c.(ct_html_url));
               ("body", Str c.(ct_body)); ("body_sha256", Str c.(ct_body_sha256));
               ("created_at", Str c.(ct_created_at)); ("updated_at", Str c.(ct_updated_at))].

Definition ser_label_event (e : LabelEvent) : Value :=
  json_object [("id", Number e.(le_id)); ("labeled", Bool e.(le_labeled)); ("actor_id", Number e.(le_actor_id));
               ("label", Str e.(le_label)); ("created_at", Str e.(le_created_at))].
Definition ser_intake_snapshot (i : IntakeSnapshot) : Value :=
  json_object [("repository", ser_repository i.(in_repository)); ("issue", ser_issue i.(in_issue));
               ("issue_content", ser_content i.(in_content));
               ("label_events", Array (ser_label_event <$> i.(in_label_events)));
               ("comments", Array (ser_comment <$> i.(in_comments)))].

Definition ser_author (a : ReviewCommentAuthor) : Value := json_object [("__typename", Str a.(au_kind))].
Definition ser_thread_comment (c : ReviewThreadComment) : Value :=
  json_object ([("id", Str c.(tc_id)); ("body", Str c.(tc_body)); ("updatedAt", Str c.(tc_updated_at));
                ("url", Str c.(tc_url))] ++ skip_none "author" ser_author c.(tc_author)).
Definition ser_thread (t : ReviewThreadSnapshot) : Value :=
  json_object [("id", Str t.(th_id)); ("is_resolved", Bool t.(th_is_resolved));
               ("is_outdated", Bool t.(th_is_outdated)); ("path", Str t.(th_path));
               ("comments", Array (ser_thread_comment <$> t.(th_comments)))].

(** ** The verdict on CI *)

(** [BTreeMap::entry(k).and_modify(..).or_insert(..)] on the sorted entries. *)
Fixpoint upsert {K V} (compare : K -> K -> comparison) (k : K) (modify : V -> V) (insert : V)
  (m : list (K * V)) : list (K * V) :=
  match m with
  | [] => [(k, insert)]
  | (k', v) :: m' =>
      match compare k k' with
      | Lt => (k, insert) :: m
      | Eq => (k', modify v) :: m'
      | Gt => (k', v) :: upsert compare k modify insert m'
      end
  end.

Definition then_compare (c d : comparison) : comparison := match c with Eq => d | _ => c end.
Definition opt_compare (a b : option Z) : comparison :=
  match a, b with
  | None, None => Eq | None, Some _ => Lt | Some _, None => Gt | Some a, Some b => Z.compare a b
  end.

(** A check is identified by its application, its suite and its name. *)
Definition check_key (c : CheckRunSnapshot) : Z * option Z * string :=
  (c.(ck_app_id), c.(ck_check_suite_id), c.(ck_name)).
Definition check_key_compare (a b : Z * option Z * string) : comparison :=
  then_compare (Z.compare a.1.1 b.1.1)
    (then_compare (opt_compare a.1.2 b.1.2) (String.compare a.2 b.2)).

Definition latest_checks (l : list CheckRunSnapshot) : list CheckRunSnapshot :=
  snd <$> foldl (fun m c => upsert check_key_compare (check_key c)
                   (fun current => if current.(ck_id) <? c.(ck_id) then c else current) c m) [] l.

(** [(created_at, id)], compared as a pair. *)
Definition status_newer (s current : CommitStatusSnapshot) : bool :=
  match String.compare current.(st_created_at) s.(st_created_at) with
  | Lt => true
  | Eq => current.(st_id) <? s.(st_id)
  | Gt => false
  end.
Definition latest_statuses (l : list CommitStatusSnapshot) : list CommitStatusSnapshot :=
  snd <$> foldl (fun m s => upsert String.compare s.(st_context)
                   (fun current => if status_newer s current then s else current) s m) [] l.

Inductive CiVerdict := CiAccepted | CiPending | CiFailed.
#[export] Instance ci_verdict_eq_dec : EqDecision CiVerdict.
Proof. solve_decision. Defined.
Record CiEvaluation := { ce_verdict : CiVerdict; ce_blockers : list string }.

Definition push_unique (values : list string) (value : string) : list string :=
  if bool_decide (value ∈ values) then values else values ++ [value].
Definition push_if (b : bool) (value : string) (values : list string) : list string :=
  if b then push_unique values value else values.

Definition failed_check (c : CheckRunSnapshot) : bool :=
  match c.(ck_conclusion) with Some conclusion => is_failure conclusion | None => false end.
Definition failed_status (s : CommitStatusSnapshot) : bool :=
  bool_decide (s.(st_state) = StatusError) || bool_decide (s.(st_state) = StatusFailure).
Definition unfinished (c : CheckRunSnapshot) : bool := negb (bool_decide (c.(ck_status) = Completed)).
Definition status_pending (s : CommitStatusSnapshot) : bool := bool_decide (s.(st_state) = StatusPending).
Definition green_check (c : CheckRunSnapshot) : bool :=
  bool_decide (c.(ck_status) = Completed) && bool_decide (c.(ck_conclusion) = Some Success).

(** One required context: missing is pending, finished without success failed. *)
Definition require_context (checks : list CheckRunSnapshot) (statuses : list CommitStatusSnapshot)
  (acc : list string * list string) (required : string) : list string * list string :=
  let '(failed, pending) := acc in
  let named := List.filter (fun c => String.eqb c.(ck_name) required) checks in
  let status := List.find (fun s => String.eqb s.(st_context) required) statuses in
  if bool_decide (named = []) && is_none status
  then (failed, push_unique pending ("MISSING_REQUIRED_CONTEXT:" +:+ required))
  else
    let on_status p := match status with Some s => p s | None => false end in
    let in_progress := existsb unfinished named || on_status status_pending in
    let green := existsb green_check named || on_status (fun s => bool_decide (s.(st_state) = StatusSuccess)) in
    (push_if (negb green && negb in_progress) ("REQUIRED_CONTEXT_NOT_GREEN:" +:+ required) failed, pending).

Definition evaluate_ci (e : PullRequestEvidence) (expected_head_sha : string) (required : list string)
  : CiEvaluation :=
  let pull := e.(pe_pull) in
  let checks := latest_checks e.(pe_check_runs) in
  let statuses := latest_statuses e.(pe_commit_statuses) in
  let failed := push_if (negb (String.eqb pull.(pr_head_sha) expected_head_sha)) "PR_HEAD_MISMATCH" [] in
  let failed := push_if (negb pull.(pr_open) || pull.(pr_merged)) "PR_NOT_OPEN" failed in
  let failed := foldl (fun f c => push_if (failed_check c) ("CHECK_FAILED:" +:+ c.(ck_name)) f) failed checks in
  let failed := foldl (fun f s => push_if (failed_status s) ("STATUS_FAILED:" +:+ s.(st_context)) f) failed statuses in
  let pending := push_if (existsb unfinished checks || existsb status_pending statuses) "CI_PENDING" [] in
  let pending := push_if (bool_decide (required = []) && bool_decide (e.(pe_check_runs) = [])
                          && bool_decide (e.(pe_commit_statuses) = [])) "CI_HOLLOW" pending in
  let '(failed, pending) := foldl (require_context checks statuses) (failed, pending) required in
  let failed := push_if (existsb (fun c => negb (String.eqb c.(ck_head_sha) expected_head_sha)) e.(pe_check_runs))
                  "CHECK_HEAD_MISMATCH" failed in
  match failed, pending with
  | _ :: _, _ => {| ce_verdict := CiFailed; ce_blockers := failed |}
  | [], _ :: _ => {| ce_verdict := CiPending; ce_blockers := pending |}
  | [], [] => {| ce_verdict := CiAccepted; ce_blockers := [] |}
  end.

(** ** Total orders given by a comparison *)

Class CompareOrder {K} (compare : K -> K -> comparison) : Prop := {
  compare_is_eq a b : compare a b = Eq <-> a = b;
  compare_flip a b : compare b a = CompOpp (compare a b);
  compare_lt_trans a b c : compare a b = Lt -> compare b c = Lt -> compare a c = Lt;
}.

#[export] Instance Z_compare_order : CompareOrder Z.compare.
Proof.
  split; [apply Z.compare_eq_iff|intros; apply Z.compare_antisym|].
  intros a b c Hab Hbc. change (a < b) in Hab. change (b < c) in Hbc. change (a < c). lia.
Qed.
#[export] Instance string_compare_order : CompareOrder String.compare.
Proof.
  split; [split; [apply String.compare_eq_iff|intros ->; by destruct (String.compare b b) eqn:He; [|pose proof (String.compare_antisym b b) as Ha; rewrite He in Ha..]]|intros; apply String.compare_antisym|].
  intros a b c Hab Hbc.
  assert (str_leb a c = true) as Hac
    by (apply str_leb_trans with b; unfold str_leb; [by rewrite Hab|by rewrite Hbc]).
  unfold str_leb in Hac. destruct (String.compare a c) eqn:He; [|done|done].
  apply String.compare_eq_iff in He as ->. rewrite String.compare_antisym, Hbc in Hab. done.
Qed.
#[export] Instance opt_compare_order : CompareOrder opt_compare.
Proof.
  split.
  - intros [a|] [b|]; simpl; try done. rewrite Z.compare_eq_iff. naive_solver.
  - intros [a|] [b|]; simpl; try done. apply Z.compare_antisym.
  - intros [a|] [b|] [c|]; simpl; try done. apply compare_lt_trans.
Qed.

Lemma lex_order {A B K} (ca : A -> A -> comparison) (cb : B -> B -> comparison) (f : K -> A) (g : K -> B) :
  CompareOrder ca -> CompareOrder cb -> (forall x y, f x = f y -> g x = g y -> x = y) ->
  CompareOrder (fun x y => then_compare (ca (f x) (f y)) (cb (g x) (g y))).
Proof.
  intros Ha Hb Hinj. split.
  - intros x y. split; [|intros ->; rewrite (proj2 (compare_is_eq (f y) (f y))) by done; simpl; by apply compare_is_eq].
    destruct (ca (f x) (f y)) eqn:He; simpl; try done. apply compare_is_eq in He.
    intros Hg%compare_is_eq. auto.
  - intros x y. rewrite (compare_flip (f x) (f y)), (compare_flip (g x) (g y)).
    by destruct (ca (f x) (f y)).
  - intros x y z. destruct (ca (f x) (f y)) eqn:Hxy; simpl; try done.
    + apply compare_is_eq in Hxy as ->. destruct (ca (f y) (f z)); simpl; [apply compare_lt_trans|done..].
    + intros _. destruct (ca (f y) (f z)) eqn:Hyz; simpl; try done.
      * apply compare_is_eq in Hyz as <-. by rewrite Hxy.
      * by rewrite (compare_lt_trans _ _ _ Hxy Hyz).
Qed.

#[export] Instance check_key_order : CompareOrder check_key_compare.
Proof.
  apply (lex_order Z.compare (fun x y => then_compare (opt_compare x.1 y.1) (String.compare x.2 y.2))
           (fun k : Z * option Z * string => k.1.1) (fun k => (k.1.2, k.2))); [apply _| |].
  - apply (lex_order opt_compare String.compare fst snd); [apply _..|].
    by intros [] []; simpl; intros -> ->.
  - by intros [[] ?] [[] ?]; simpl; intros -> [= -> ->].
Qed.

(** ** The newest element of each key *)

Section Latest.
Context {K V : Type} (compare : K -> K -> comparison) `{!CompareOrder compare}.

Definition before (a b : K * V) : Prop := compare a.1 b.1 = Lt.

Lemma compare_refl k : compare k k = Eq.
Proof. by apply compare_is_eq. Qed.

Lemma upsert_keys k f (v : V) m k' v' : (k', v') ∈ upsert compare k f v m -> k' = k \/ exists v0 : V, (k', v0) ∈ m.
Proof.
  induction m as [|[k0 v0] m IH]; simpl; [set_solver|].
  destruct (compare k k0); intros H; set_solver.
Qed.

Lemma upsert_mono k f (v : V) m k' v' : (k', v') ∈ m -> exists v0, (k', v0) ∈ upsert compare k f v m.
Proof.
  induction m as [|[k0 v0] m IH]; simpl; [set_solver|].
  destruct (compare k k0); intros H; set_solver.
Qed.
Lemma upsert_key k f (v : V) m : exists v0, (k, v0) ∈ upsert compare k f v m.
Proof.
  induction m as [|[k0 v0] m IH]; simpl; [set_solver|].
  destruct (compare k k0) eqn:Hc; [apply compare_is_eq in Hc as ->|..]; set_solver.
Qed.

Lemma upsert_sorted k f v m : StronglySorted before m -> StronglySorted before (upsert compare k f v m).
Proof.
  induction 1 as [|[k0 v0] m Hs IH Hall]; simpl; [by repeat constructor|].
  rewrite Forall_forall in Hall. destruct (compare k k0) eqn:Hc.
  - constructor; [done|]. rewrite Forall_forall. intros [k' v'] Hin. exact (Hall _ Hin).
  - constructor; [constructor; [done|by rewrite Forall_forall]|]. rewrite Forall_forall.
    intros [k' v'] [[= -> ->]|Hin]%elem_of_cons; [done|].
    exact (compare_lt_trans _ _ _ Hc (Hall _ Hin)).
  - constructor; [done|]. rewrite Forall_forall. intros [k' v'] [->|[v1 Hin]]%upsert_keys.
    + unfold before. simpl. by rewrite (compare_flip k k0), Hc.
    + exact (Hall _ Hin).
Qed.

Lemma before_irrefl k v v' : ~ before (k, v) (k, v').
Proof. unfold before. simpl. by rewrite compare_refl. Qed.

(** What the map holds after [entry(k).and_modify(f).or_insert(v)]. *)
Lemma upsert_elem k f v m k' v' :
  StronglySorted before m ->
  (k', v') ∈ upsert compare k f v m <->
  (k' <> k /\ (k', v') ∈ m)
  \/ (k' = k /\ ((exists v0, (k, v0) ∈ m /\ v' = f v0) \/ ((forall v0, (k, v0) ∉ m) /\ v' = v))).
Proof.
  induction 1 as [|[k0 v0] m Hs IH Hall]; simpl; [set_solver|].
  assert (forall v1, (k0, v1) ∉ m) as Hk0.
  { intros v1 Hin. rewrite Forall_forall in Hall. exact (before_irrefl _ _ _ (Hall _ Hin)). }
  destruct (compare k k0) eqn:Hc.
  - apply compare_is_eq in Hc as <-. set_unfold. naive_solver.
  - assert (forall v1, (k, v1) ∉ (k0, v0) :: m) as Hk.
    { intros v1 [[= -> ->]|Hin]%elem_of_cons; [by rewrite compare_refl in Hc|].
      rewrite Forall_forall in Hall. specialize (Hall _ Hin). unfold before in Hall. simpl in Hall.
      rewrite (compare_flip k k0), Hc in Hall. done. }
    set_unfold. naive_solver.
  - assert (k <> k0) by (intros ->; by rewrite compare_refl in Hc).
    rewrite elem_of_cons, IH. set_unfold. naive_solver.
Qed.

Context (key : V -> K) (newer : V -> V -> bool).

Definition newest (l : list V) (v : V) : Prop :=
  v ∈ l /\ forall w, w ∈ l -> key w = key v -> newer w v = false.

Class NewerOrder (l : list V) : Prop := {
  newer_irrefl v : newer v v = false;
  newer_trans u v w : newer u v = true -> newer v w = true -> newer u w = true;
  newer_total v w : v ∈ l -> w ∈ l -> newer v w = false -> newer w v = false -> v = w;
}.

Definition upsert_newest (m : list (K * V)) (v : V) : list (K * V) :=
  upsert compare (key v) (fun current => if newer v current then v else current) v m.

Lemma newest_fold l :
  NewerOrder l ->
  StronglySorted before (foldl upsert_newest [] l)
  /\ (forall k v, (k, v) ∈ foldl upsert_newest [] l <-> k = key v /\ newest l v)
  /\ forall w, w ∈ l -> exists v, (key w, v) ∈ foldl upsert_newest [] l.
Proof.
  induction l as [|c l IH] using rev_ind; intros [Hirr Htr Htot].
  { split; [constructor|]. unfold newest. set_solver. }
  destruct IH as (Hs & IH & Hkeys); [split; [done..|]; intros; apply Htot; set_solver|].
  rewrite foldl_app. simpl. unfold upsert_newest at 1 3 5. split; [by apply upsert_sorted|].
  split; [|intros w [Hw| ->%list_elem_of_singleton]%elem_of_app; [|apply upsert_key];
            destruct (Hkeys _ Hw) as [v Hv]; exact (upsert_mono _ _ _ _ _ _ Hv)].
  intros k v. rewrite upsert_elem by done.
  assert (forall w, w ∈ l ++ [c] <-> w ∈ l \/ w = c) as Hl by set_solver.
  unfold newest in *. setoid_rewrite Hl. split.
  - intros [[Hne Hin]|[-> [(v0 & Hin & ->)|[Hno ->]]]].
    + apply IH in Hin. naive_solver.
    + apply IH in Hin as [Hk [Hv0 Hmax]]. destruct (newer c v0) eqn:Hn; [|naive_solver].
      split; [done|]. split; [by right|]. intros w [Hw| ->] Hkw; [|done].
      destruct (newer w c) eqn:He; [|done]. rewrite <-(Hmax w); [|done|congruence].
      symmetry. by apply (Htr _ c).
    + split; [done|]. split; [by right|]. intros w [Hw| ->] Hkw; [|done].
      destruct (Hkeys _ Hw) as [v Hv]. rewrite Hkw in Hv. by apply Hno in Hv.
  - intros [-> [[Hin| ->] Hmax]].
    + assert ((key v, v) ∈ foldl upsert_newest [] l) as Hv by (apply IH; naive_solver).
      destruct (compare (key v) (key c)) eqn:Hc.
      * apply compare_is_eq in Hc. right. split; [done|]. left. exists v. rewrite <-Hc. split; [done|].
        by rewrite (Hmax c) by auto.
      * left. split; [|done]. intros He. by rewrite He, compare_refl in Hc.
      * left. split; [|done]. intros He. by rewrite He, compare_refl in Hc.
    + right. split; [done|].
      destruct (existsb (fun w => match compare (key w) (key c) with Eq => true | _ => false end) l) eqn:He.
      * apply existsb_exists in He as (w & Hw & Hk). left.
        destruct (compare (key w) (key c)) eqn:Hc; [|done..]. apply compare_is_eq in Hc.
        apply list_elem_of_In in Hw. destruct (Hkeys _ Hw) as [v0 Hv0]. rewrite Hc in Hv0.
        exists v0. split; [done|]. apply IH in Hv0 as [Hk0 [Hin0 _]].
        destruct (newer c v0) eqn:Hn; [done|]. apply Htot; [set_solver..|done|]. apply Hmax; auto.
      * right. split; [|done]. intros v0 Hv0. apply IH in Hv0 as [Hk0 [Hin0 _]].
        rewrite <-not_true_iff_false, existsb_exists in He. apply He. exists v0.
        split; [by apply list_elem_of_In|]. by rewrite <-Hk0, compare_refl.
Qed.

Lemma newest_values l v : NewerOrder l -> v ∈ snd <$> foldl upsert_newest [] l <-> newest l v.
Proof.
  intros Ho. destruct (newest_fold l Ho) as (_ & He & _). rewrite list_elem_of_fmap. split.
  - intros [[k w] [-> Hin]]. by apply He in Hin as [_ ?].
  - intros Hn. exists (key v, v). split; [done|]. by apply He.
Qed.

Lemma newest_unique l v w : NewerOrder l -> newest l v -> newest l w -> key v = key w -> v = w.
Proof. intros Ho [Hv Hmv] [Hw Hmw] Hk. by apply (newer_total (l := l)); auto. Qed.
End Latest.

(** ** What an accepted verdict says *)

Definition newest_check (e : PullRequestEvidence) : CheckRunSnapshot -> Prop :=
  newest check_key (fun c current => current.(ck_id) <? c.(ck_id)) e.(pe_check_runs).
Definition newest_status (e : PullRequestEvidence) : CommitStatusSnapshot -> Prop :=
  newest st_context status_newer e.(pe_commit_statuses).

(** GitHub identifies a check run and a commit status by its id. *)
Record unique_ids (e : PullRequestEvidence) : Prop := {
  unique_checks a b : a ∈ e.(pe_check_runs) -> b ∈ e.(pe_check_runs) -> a.(ck_id) = b.(ck_id) -> a = b;
  unique_statuses a b :
    a ∈ e.(pe_commit_statuses) -> b ∈ e.(pe_commit_statuses) -> a.(st_id) = b.(st_id) -> a = b;
}.

Record green (e : PullRequestEvidence) (head : string) (required : list string) : Prop := {
  green_head : e.(pe_pull).(pr_head_sha) = head;
  green_open : e.(pe_pull).(pr_open) = true /\ e.(pe_pull).(pr_merged) = false;
  green_runs c : c ∈ e.(pe_check_runs) -> c.(ck_head_sha) = head;
  green_checks c : newest_check e c -> c.(ck_status) = Completed /\ failed_check c = false;
  green_statuses s : newest_status e s -> s.(st_state) = StatusSuccess;
  green_required r : r ∈ required ->
    (exists c, newest_check e c /\ c.(ck_name) = r /\ c.(ck_conclusion) = Some Success)
    \/ (exists s, newest_status e s /\ s.(st_context) = r);
  green_evidence : required <> [] \/ e.(pe_check_runs) <> [] \/ e.(pe_commit_statuses) <> [];
}.

Lemma blocker_if_nil b v l : push_if b v l = [] <-> b = false /\ l = [].
Proof.
  unfold push_if, push_unique. destruct b; [|naive_solver]. case_bool_decide.
  - split; [intros ->; set_solver|naive_solver].
  - split; [by intros [_ ?]%app_nil|naive_solver].
Qed.

Lemma push_fold_nil {A} (p : A -> bool) (name : A -> string) l acc :
  foldl (fun f a => push_if (p a) (name a) f) acc l = [] <-> acc = [] /\ forall a, a ∈ l -> p a = false.
Proof.
  revert acc. induction l as [|a l IH]; intros acc; simpl.
  { split; [by intros ->; split; [|intros a ?%elem_of_nil]|by intros [? _]]. }
  rewrite IH, blocker_if_nil. setoid_rewrite elem_of_cons. naive_solver.
Qed.

(** Whether a required context adds no blocker. *)
Definition context_ok (checks : list CheckRunSnapshot) (statuses : list CommitStatusSnapshot) (r : string) : bool :=
  bool_decide (require_context checks statuses ([], []) r = ([], [])).

Lemma require_context_nil checks statuses f p r :
  require_context checks statuses (f, p) r = ([], []) <->
  (f, p) = ([], []) /\ context_ok checks statuses r = true.
Proof.
  unfold context_ok. rewrite bool_decide_eq_true. unfold require_context.
  assert (forall l v, push_unique l v <> []) as Hne.
  { intros l v He. pose proof (blocker_if_nil true v l) as H. simpl in H. rewrite He in H. naive_solver. }
  destruct (_ && is_none _); [naive_solver|].
  split; intros H; [injection H as Hf ->|destruct H as [[= -> ->] H]; exact H].
  apply blocker_if_nil in Hf as [-> ->]. done.
Qed.

Lemma require_fold_nil checks statuses required acc :
  foldl (require_context checks statuses) acc required = ([], []) <->
  acc = ([], []) /\ forall r, r ∈ required -> context_ok checks statuses r = true.
Proof.
  revert acc. induction required as [|r l IH]; intros [f p]; cbn [foldl].
  { split; [by intros ->; split; [|intros a ?%elem_of_nil]|by intros [? _]]. }
  rewrite IH, require_context_nil. setoid_rewrite elem_of_cons. naive_solver.
Qed.

Lemma existsb_false {A} (p : A -> bool) l : existsb p l = false <-> forall a, a ∈ l -> p a = false.
Proof.
  rewrite <-not_true_iff_false, existsb_exists. setoid_rewrite <-list_elem_of_In. split.
  - intros H a Ha. apply not_true_iff_false. eauto.
  - intros H (a & Ha & Hp). by rewrite H in Hp.
Qed.

(** The verdict as a conjunction of its guards. *)
Lemma evaluate_ci_guards e head required :
  let checks := latest_checks e.(pe_check_runs) in
  let statuses := latest_statuses e.(pe_commit_statuses) in
  (evaluate_ci e head required).(ce_verdict) = CiAccepted <->
  (e.(pe_pull).(pr_head_sha) = head
   /\ (e.(pe_pull).(pr_open) = true /\ e.(pe_pull).(pr_merged) = false)
   /\ (forall c, c ∈ e.(pe_check_runs) -> c.(ck_head_sha) = head))
  /\ ((forall c, c ∈ checks -> failed_check c = false /\ unfinished c = false)
      /\ (forall s, s ∈ statuses -> failed_status s = false /\ status_pending s = false))
  /\ (required <> [] \/ e.(pe_check_runs) <> [] \/ e.(pe_commit_statuses) <> [])
  /\ forall r, r ∈ required -> context_ok checks statuses r = true.
Proof.
  intros checks statuses. unfold evaluate_ci. fold checks statuses.
  match goal with |- context [foldl (require_context _ _) (?f, ?p) required] => set (F := f); set (P := p) end.
  pose proof (require_fold_nil checks statuses required (F, P)) as Hr.
  destruct (foldl (require_context checks statuses) (F, P) required) as [f p] eqn:He.
  match goal with |- context [push_if ?b ?v f] => pose proof (blocker_if_nil b v f) as Hh; set (G := push_if b v f) in * end.
  rewrite existsb_false in Hh. setoid_rewrite negb_false_iff in Hh. setoid_rewrite String.eqb_eq in Hh.
  assert (F = [] <-> e.(pe_pull).(pr_head_sha) = head
            /\ (e.(pe_pull).(pr_open) = true /\ e.(pe_pull).(pr_merged) = false)
            /\ (forall c, c ∈ checks -> failed_check c = false)
            /\ (forall s, s ∈ statuses -> failed_status s = false)) as HF.
  { unfold F. rewrite push_fold_nil, push_fold_nil, blocker_if_nil, blocker_if_nil, negb_false_iff, String.eqb_eq, orb_false_iff, negb_false_iff.
    naive_solver. }
  assert (P = [] <-> (forall c, c ∈ checks -> unfinished c = false)
            /\ (forall s, s ∈ statuses -> status_pending s = false)
            /\ (required <> [] \/ e.(pe_check_runs) <> [] \/ e.(pe_commit_statuses) <> [])) as HP.
  { unfold P. rewrite blocker_if_nil, blocker_if_nil, orb_false_iff, !existsb_false, !andb_false_iff, !bool_decide_eq_false.
    naive_solver. }
  transitivity (G = [] /\ p = []); [by destruct G, p; split; intros; try done; naive_solver|].
  transitivity ((f, p) = ([], []) /\ forall c, c ∈ e.(pe_check_runs) -> c.(ck_head_sha) = head); [naive_solver|].
  rewrite Hr. assert ((F, P) = ([], []) <-> F = [] /\ P = []) as -> by (split; [by intros [= -> ->]|by intros [-> ->]]).
  rewrite HF, HP. clear. split.
  - intros [[[(? & [? ?] & ? & ?) (? & ? & ?)] ?] ?]. split_and!; auto.
  - intros ((? & [? ?] & ?) & (Hc & Hs) & ? & ?). split_and!; auto; intros ? Hin; by (apply Hc in Hin as [? ?] || apply Hs in Hin as [? ?]).
Qed.

Lemma context_settled checks statuses r :
  (forall c, c ∈ checks -> unfinished c = false) -> (forall s, s ∈ statuses -> s.(st_state) = StatusSuccess) ->
  context_ok checks statuses r = true <->
  (exists c, c ∈ checks /\ c.(ck_name) = r /\ c.(ck_conclusion) = Some Success)
  \/ exists s, s ∈ statuses /\ s.(st_context) = r.
Proof.
  intros Hc Hs. unfold context_ok. rewrite bool_decide_eq_true. unfold require_context.
  set (named := List.filter _ checks). set (status := List.find _ statuses).
  assert (existsb green_check named = true <-> exists c, c ∈ checks /\ c.(ck_name) = r /\ c.(ck_conclusion) = Some Success) as Hg.
  { rewrite existsb_exists. unfold named. setoid_rewrite filter_In. setoid_rewrite <-list_elem_of_In.
    setoid_rewrite String.eqb_eq. unfold green_check. setoid_rewrite andb_true_iff. setoid_rewrite bool_decide_eq_true.
    split; [naive_solver|]. intros (c & Hin & Hn & Hco). exists c. split; [done|]. split; [|done].
    specialize (Hc c Hin). unfold unfinished in Hc. by apply negb_false_iff, bool_decide_eq_true in Hc. }
  assert (existsb unfinished named = false) as Hu.
  { apply existsb_false. intros c Hin. apply list_elem_of_In, filter_In in Hin as [Hin _].
    by apply Hc, list_elem_of_In. }
  rewrite <-Hg, Hu. simpl. destruct status as [s|] eqn:Hst.
  - apply find_some in Hst as [Hin Hn]. apply list_elem_of_In in Hin. apply String.eqb_eq in Hn.
    unfold status_pending. rewrite (Hs s Hin), andb_false_r. simpl.
    rewrite orb_true_r. simpl. naive_solver.
  - assert (~ exists s, s ∈ statuses /\ s.(st_context) = r) as Hno.
    { intros (s & Hin & Hn). pose proof (find_none _ _ Hst s (proj1 (list_elem_of_In _ _) Hin)) as Hf. simpl in Hf.
      by apply String.eqb_neq in Hf. }
    rewrite orb_false_r. case_bool_decide as Hnil; simpl.
    + rewrite Hnil in *. simpl. naive_solver.
    + rewrite andb_true_r. destruct (existsb green_check named); simpl; naive_solver.
Qed.

#[export] Instance check_newer_order e :
  unique_ids e -> NewerOrder (fun c current => current.(ck_id) <? c.(ck_id)) e.(pe_check_runs).
Proof.
  intros [Hu _]. split; [intros v; apply Z.ltb_irrefl|intros; lia|]. intros v w Hv Hw H1 H2. apply Hu; [done..|lia].
Qed.
#[export] Instance status_newer_order e : unique_ids e -> NewerOrder status_newer e.(pe_commit_statuses).
Proof.
  intros [_ Hu]. unfold status_newer. split.
  - intros v. rewrite compare_refl by apply _. apply Z.ltb_irrefl.
  - intros u v w Huv Hvw.
    destruct (String.compare v.(st_created_at) u.(st_created_at)) eqn:Hu1; [|clear Huv|done];
      destruct (String.compare w.(st_created_at) v.(st_created_at)) eqn:Hv1; try done;
      repeat match goal with H : String.compare _ _ = Eq |- _ => apply String.compare_eq_iff in H end.
    + rewrite Hv1, Hu1, compare_refl by apply _. lia.
    + by rewrite <-Hu1, Hv1.
    + by rewrite Hv1, Hu1.
    + by rewrite (compare_lt_trans _ _ _ Hv1 Hu1).
  - intros v w Hv Hw H1 H2. rewrite (compare_flip w.(st_created_at)) in H2.
    destruct (String.compare w.(st_created_at) v.(st_created_at)) eqn:He; simpl in *; try done.
    apply Hu; [done..|lia].
Qed.

Lemma evaluate_green e head required :
  unique_ids e -> (evaluate_ci e head required).(ce_verdict) = CiAccepted <-> green e head required.
Proof.
  intros Hu. rewrite evaluate_ci_guards.
  assert (forall c, c ∈ latest_checks e.(pe_check_runs) <-> newest_check e c) as Hc.
  { intros c. apply (newest_values check_key_compare check_key). by apply check_newer_order. }
  assert (forall s, s ∈ latest_statuses e.(pe_commit_statuses) <-> newest_status e s) as Hs.
  { intros s. apply (newest_values String.compare st_context). by apply status_newer_order. }
  assert (forall c, unfinished c = false <-> c.(ck_status) = Completed) as Hunf.
  { intros c. unfold unfinished. by rewrite negb_false_iff, bool_decide_eq_true. }
  assert (forall s, failed_status s = false /\ status_pending s = false <-> s.(st_state) = StatusSuccess) as Hok.
  { intros s. unfold failed_status, status_pending. destruct s.(st_state); simpl; naive_solver. }
  assert ((forall c, newest_check e c -> c.(ck_status) = Completed) ->
          (forall s, newest_status e s -> s.(st_state) = StatusSuccess) -> forall r,
          context_ok (latest_checks e.(pe_check_runs)) (latest_statuses e.(pe_commit_statuses)) r = true <->
          (exists c, newest_check e c /\ c.(ck_name) = r /\ c.(ck_conclusion) = Some Success)
          \/ exists s, newest_status e s /\ s.(st_context) = r) as Hctx.
  { intros Hd Hsu r. rewrite context_settled; [by setoid_rewrite Hc; setoid_rewrite Hs|..].
    - intros c Hin%Hc. by apply Hunf, Hd.
    - intros s Hin%Hs. by apply Hsu. }
  setoid_rewrite Hok. setoid_rewrite Hunf. setoid_rewrite Hc. setoid_rewrite Hs. split.
  - intros ((Hh & Ho & Hr) & (Hck & Hst) & Hev & Hreq).
    split; [done|done|done| |done| |done]; [intros c Hn; split; by apply Hck|].
    intros r Hin. apply Hctx; [intros c Hn; by apply Hck|done|by apply Hreq].
  - intros [Hh Ho Hr Hck Hst Hreq Hev].
    split; [done|]. split; [split; [intros c Hn; split; by apply Hck|done]|]. split; [done|].
    intros r Hin. apply Hctx; [intros c Hn; by apply Hck|done|by apply Hreq].
Qed.

(** C35: The verdict on CI accepts exactly the green evidence: the pull request is open at the expected head,
    every check run is on that head, the newest run of every check is completed and not failed, the
    newest status of every context is a success, every required context is green, and there is
    evidence at all. *)
Theorem ci_accepted_iff_green e head required :
  unique_ids e -> (evaluate_ci e head required).(ce_verdict) = CiAccepted <-> green e head required.
Proof. apply evaluate_green. Qed.

(** A red first attempt, superseded by a green one. *)
Definition demo_check (head name : string) (id : Z) (conclusion : CheckConclusion) : CheckRunSnapshot :=
  {| ck_id := id; ck_app_id := 15368; ck_details_url := None; ck_name := name; ck_head_sha := head;
     ck_status := Completed; ck_conclusion := Some conclusion; ck_started_at := None;
     ck_completed_at := None; ck_check_suite_id := Some 7 |}.
Definition demo_evidence (head name : string) : PullRequestEvidence :=
  {| pe_pull := {| pr_id := 1; pr_number := 7; pr_open := true; pr_draft := true; pr_merged := false;
                   pr_merge_commit_sha := None; pr_mergeable := Some true; pr_mergeable_state := "clean";
                   pr_author_id := 9; pr_head_repository_id := 1; pr_head_repository := "o/r";
                   pr_head_branch := "pip/issue-2"; pr_head_sha := head; pr_base_branch := "main";
                   pr_base_sha := "def" |};
     pe_check_runs := [demo_check head name 10 Failure; demo_check head name 11 Success];
     pe_commit_status_state := StatusSuccess; pe_commit_statuses := []; pe_reviews := [] |}.

Lemma demo_evidence_unique head name : unique_ids (demo_evidence head name).
Proof.
  split; [|intros a b Ha; inversion Ha].
  intros a b [->|[->|Ha]%elem_of_cons]%elem_of_cons [->|[->|Hb]%elem_of_cons]%elem_of_cons; try done;
    exfalso; inversion Ha || inversion Hb.
Qed.

Lemma ci_accepted_iff_green_witness : green (demo_evidence "abc" "test") "abc" ["test"].
Proof.
  apply (ci_accepted_iff_green (demo_evidence "abc" "test") "abc" ["test"]);
    [apply demo_evidence_unique|vm_compute; reflexivity].
Defined.
