(* ===== verification/Ci.v ===== *)
(** * Ci: reconciliation of CI on the exact head

    crates/pip-control/src/ci.rs and the diagnostics of
    crates/pip-github/src/ci_diagnostics.rs.  GitHub is an interface
    ([PullRequestSource]): the cycle is proved for every source. *)

From S2P Require Import Prelude Text Parse Json Domain StateMachine Revision Sql Tables Inputs StoreCore.
From S2P Require Import Status Control History Frames Steps Invariants Ledger System Ingest Policy PolicyLaws Commands Cycles Bounds GitHub.
From stdpp Require Import relations.
From Stdlib Require Import Ascii.
Open Scope Z_scope.

(** ** The source *)

Class PullRequestSource := {
  pull_request (owner repository : string) (repository_id number : Z) : result GitHubError PullRequestEvidence;
  failure_diagnostics (owner repository : string) (e : PullRequestEvidence) : Value;
}.

(** *** Diagnostics of the reader *)

Definition positive_u64 (s : string) : option Z :=
  n ← parse_u64 s;
  if 0 <? n then Some n else None.
(** The run and the job of an Actions log; any other URL is not followed. *)
Definition actions_job (url owner repository : string) : option (Z * Z) :=
  rest ← Parse.strip_prefix ("https://github.com/" +:+ owner +:+ "/" +:+ repository +:+ "/actions/runs/") url;
  match split_on "/"%char rest with
  | [run; kind; job] =>
      if String.eqb kind "job" then
        r ← positive_u64 run;
        j ← positive_u64 job;
        Some (r, j)
      else None
  | _ => None
  end.
Definition has_actions_job (c : CheckRunSnapshot) (owner repository : string) : bool :=
  is_some (ck_details_url c ≫= fun url => actions_job url owner repository).

(** [sort_by_key] on [(!has_actions_job, Reverse(id))]. *)
Definition diagnostics_order (owner repository : string) (a b : CheckRunSnapshot) : bool :=
  match has_actions_job a owner repository, has_actions_job b owner repository with
  | true, false => true
  | false, true => false
  | _, _ => b.(ck_id) <=? a.(ck_id)
  end.
Definition unavailable (c : CheckRunSnapshot) : Value :=
  json_object [("check_id", Number c.(ck_id)); ("name", Str c.(ck_name)); ("availability", Str "unavailable");
               ("reason", Str "Log inaccessible, oversized, unsupported, or binding validation failed")].

(** [read_check_failure] is a request to GitHub. *)
Definition reader_diagnostics
  (read_check_failure : string -> string -> Z -> string -> result GitHubError Value)
  (owner repository : string) (e : PullRequestEvidence) : Value :=
  let failed := order_by (diagnostics_order owner repository)
                  (List.filter failed_check e.(pe_check_runs)) in
  let checks := (fun c => match read_check_failure owner repository c.(ck_id) e.(pe_pull).(pr_head_sha) with
                          | Ok v => v
                          | Err _ => unavailable c
                          end) <$> take 4 failed in
  json_object [("checks", Array checks); ("omitted_checks", Number (saturating_sub (Z.of_nat (length failed)) 4))].

(** ** The cycle *)

Inductive CiCycle :=
| CiIdle
| CiCyclePending (case_key : string) (blockers : list string)
| CiTransitioned (case_key : string) (verdict : string).

Inductive CiCycleError :=
| CiGitHub (e : GitHubError)
| CiStore (e : StoreError)
| CiController (e : ControllerError)
| CiInvalidCase
| RepositoryDrift
| PullRequestDrift
| CiPanic.

Definition ci_verdict_name (v : CiVerdict) : string :=
  match v with CiAccepted => "ACCEPTED" | CiFailed => "FAILED" | CiPending => "PENDING" end.
Definition ci_event (v : CiVerdict) : Event :=
  if bool_decide (v = CiAccepted) then Ev.CiAccepted else Ev.CiFailed.
Definition ci_event_id (c : StoredCase) (event : Event) : string :=
  "event-ci-repo" +:+ show c.(sc_repository_id) +:+ "-issue" +:+ show c.(sc_issue_number)
  +:+ "-workflow" +:+ show c.(sc_workflow_version) +:+ "-revision" +:+ show c.(sc_state_revision)
  +:+ "-" +:+ (if bool_decide (event = Ev.CiAccepted) then "accepted" else "failed").
Definition ci_evidence_id (c : StoredCase) (head : string) : string :=
  "evidence-ci-repo" +:+ show c.(sc_repository_id) +:+ "-issue" +:+ show c.(sc_issue_number)
  +:+ "-workflow" +:+ show c.(sc_workflow_version) +:+ "-revision" +:+ show c.(sc_state_revision)
  +:+ "-head" +:+ head.

Definition ci_workflow (c : StoredCase) (policy : RepositoryPolicy) (observed_at : Z) (event : Event)
  (event_payload : Value) (evidence : EvidenceInput) : result CiCycleError WorkflowCommand :=
  id ← ok_or (case_id_of c) CiInvalidCase;
  err_if (negb (String.eqb (case_key id) c.(sc_case_key))
          || negb (c.(sc_policy_revision) =? po_revision policy)) CiInvalidCase;;
  event_id ← map_err (fun _ => CiInvalidCase) (EventId_from_str (ci_event_id c event));
  ok_or (case_command c c.(sc_state_revision) event_id event event_payload observed_at [evidence]) CiInvalidCase.

(** A confirmed conflict is a failure: GitHub starts no workflow on it. *)
Definition merge_conflict (p : PullRequestSnapshot) : bool :=
  bool_decide (p.(pr_mergeable) = Some false) && String.eqb p.(pr_mergeable_state) "dirty".
Definition evaluation (policy : RepositoryPolicy) (head : string) (e : PullRequestEvidence) : CiEvaluation :=
  if merge_conflict e.(pe_pull)
  then {| ce_verdict := CiFailed; ce_blockers := ["PR_MERGE_CONFLICT"] |}
  else evaluate_ci e head (po_required_ci_contexts policy).

Definition repository_drift (policy : RepositoryPolicy) (p : PullRequestSnapshot) : bool :=
  negb (p.(pr_head_repository_id) =? rid_id (po_repository policy))
  || negb (String.eqb p.(pr_head_repository) (full_name (po_repository policy)))
  || negb (String.eqb p.(pr_base_branch) (rid_default_branch (po_repository policy))).
Definition pull_request_drift (policy : RepositoryPolicy) (number : Z) (head : string) (p : PullRequestSnapshot)
  : bool :=
  negb (p.(pr_number) =? number) || negb (String.eqb p.(pr_head_sha) head)
  || negb (starts_with (po_branch_prefix policy) p.(pr_head_branch)).

(** [value["diagnostics"] = ..] on an object. *)
Definition with_diagnostics (v diagnostics : Value) : Value :=
  match v with Object m => Object (map_insert "diagnostics" diagnostics m) | _ => v end.

Section cycle.
Context `{Codec} {source : PullRequestSource}.

Definition waiting_case (scope : RepositoryScope) (cases : list StoredCase) : option StoredCase :=
  List.find (fun c => scope_matches scope c && String.eqb c.(sc_state) "WAITING_CI") cases.

Definition reconcile_ci_once (scope : RepositoryScope) (observed_at : Z) (s : Store)
  : result CiCycleError (CiCycle * Store) :=
  let policy := rs_policy scope in
  report ← map_err CiStore (status observed_at s);
  match waiting_case scope report.(ls_cases) with
  | None => Ok (CiIdle, s)
  | Some c =>
      number ← ok_or c.(sc_pr_number) CiInvalidCase;
      head ← ok_or c.(sc_head_sha) CiInvalidCase;
      let owner := rid_owner (po_repository policy) in
      let name := rid_name (po_repository policy) in
      e ← map_err CiGitHub (pull_request owner name (rid_id (po_repository policy)) number);
      err_if (repository_drift policy e.(pe_pull)) RepositoryDrift;;
      err_if (pull_request_drift policy number head e.(pe_pull)) PullRequestDrift;;
      let v := evaluation policy head e in
      match v.(ce_verdict) with
      | CiPending => Ok (CiCyclePending c.(sc_case_key) v.(ce_blockers), s)
      | verdict =>
          let evidence_payload :=
            if bool_decide (verdict = CiFailed)
            then with_diagnostics (ser_evidence e) (failure_diagnostics owner name e) else ser_evidence e in
          command ← ci_workflow c policy observed_at (ci_event verdict)
            (json_object [("verdict", Str (ci_verdict_name verdict)); ("head_sha", Str head);
                          ("blockers", Array (Str <$> v.(ce_blockers)));
                          ("pull_request_id", Number e.(pe_pull).(pr_id));
                          ("pull_request_number", Number e.(pe_pull).(pr_number))])
            {| vi_evidence_id := ci_evidence_id c head; vi_kind := "GITHUB_CI";
               vi_source := "github-pr-" +:+ show number; vi_payload := evidence_payload |};
          policy ← ok_or (case_policy policy) CiPanic;
          '(_, s) ← map_err CiController (LedgerController.apply policy command s);
          Ok (CiTransitioned c.(sc_case_key) (ci_verdict_name verdict), s)
      end
  end.
End cycle.

(** ** What a transition on CI means *)

Section laws.
Context `{Codec} {source : PullRequestSource}.

(** GitHub identifies check runs and statuses by their ids. *)
Definition source_unique : Prop :=
  forall owner repository id number e, pull_request owner repository id number = Ok e -> unique_ids e.

(** The evidence is of the pull request and the repository the case is bound to. *)
Record bound_evidence (policy : RepositoryPolicy) (number : Z) (head : string) (e : PullRequestEvidence) : Prop := {
  be_source : pull_request (rid_owner (po_repository policy)) (rid_name (po_repository policy))
                (rid_id (po_repository policy)) number = Ok e;
  be_repository : e.(pe_pull).(pr_head_repository_id) = rid_id (po_repository policy)
    /\ e.(pe_pull).(pr_head_repository) = full_name (po_repository policy)
    /\ e.(pe_pull).(pr_base_branch) = rid_default_branch (po_repository policy);
  be_number : e.(pe_pull).(pr_number) = number;
  be_head : e.(pe_pull).(pr_head_sha) = head;
}.

Lemma bound_evidence_intro policy number head e :
  pull_request (rid_owner (po_repository policy)) (rid_name (po_repository policy))
    (rid_id (po_repository policy)) number = Ok e ->
  repository_drift policy e.(pe_pull) = false -> pull_request_drift policy number head e.(pe_pull) = false ->
  bound_evidence policy number head e.
Proof. unfold repository_drift, pull_request_drift. intros Hs Hr Hp. texts. by split; [|split_and!|..]. Qed.

Lemma ci_workflow_inv c policy now ev p evd w :
  ci_workflow c policy now ev p evd = Ok w ->
  case_key w.(wc_case_id) = c.(sc_case_key)
  /\ case_command c c.(sc_state_revision) (ci_event_id c ev) ev p now [evd] = Some w.
Proof.
  unfold ci_workflow. intros Hw. open_ok. texts. rename select (EventId_from_str _ = _) into Hid.
  apply textual_id_ok in Hid as ->. rename select (case_command _ _ _ _ _ _ _ = _) into Hc.
  pose proof (case_command_inv _ _ _ _ _ _ _ _ Hc) as (Hcid & _). split; [congruence|done].
Qed.

Lemma evaluation_accepted policy head e :
  unique_ids e ->
  (evaluation policy head e).(ce_verdict) = CiAccepted <->
  merge_conflict e.(pe_pull) = false /\ green e head (po_required_ci_contexts policy).
Proof.
  intros Hu. unfold evaluation. destruct (merge_conflict _); [naive_solver|].
  rewrite evaluate_green by done. naive_solver.
Qed.

(** C27: CI moves a case only on evidence of its exact head.  When a cycle on a
    ledger of the system transitions a case, the case was waiting for CI in the scope, the
    evidence is of the pull request, repository and head the ledger binds, the case
    moves with [CI_ACCEPTED] exactly when that evidence is green and free of conflicts, and
    otherwise with [CI_FAILED]; no other case changes. *)
Theorem ci_moves_on_exact_head (scope : RepositoryScope) (now : Z) (s s' : Store) (key verdict : string)
  (Hsource : source_unique) (Hreach : system_reachable s) (Hnow : 0 <= now)
  (Hfresh : forall row v, row ∈ s.(cases) -> find_event s (ci_event_id (stored_case row) (ci_event v)) = None)
  (Hci : reconcile_ci_once scope now s = Ok (CiTransitioned key verdict, s')) :
  exists c number head e, query_case s key = Some c /\ scope_matches scope c = true
    /\ c.(sc_state) = "WAITING_CI"%string /\ c.(sc_pr_number) = Some number /\ c.(sc_head_sha) = Some head
    /\ bound_evidence (rs_policy scope) number head e
    /\ ((verdict = "ACCEPTED"%string /\ green e head (po_required_ci_contexts (rs_policy scope))
         /\ merge_conflict e.(pe_pull) = false /\ moved c Ev.CiAccepted s s')
        \/ (verdict = "FAILED"%string
            /\ (merge_conflict e.(pe_pull) = true \/ ~ green e head (po_required_ci_contexts (rs_policy scope)))
            /\ moved c Ev.CiFailed s s')).
Proof.
  unfold reconcile_ci_once in Hci. open_ok. rename select (status _ _ = _) into Hst.
  destruct (waiting_case _ _) as [c|] eqn:Hw; [|by open_ok]. open_ok.
  apply find_some in Hw as [Hin Hw]. texts. apply list_elem_of_In in Hin.
  unfold status in Hst. open_ok. subst. simpl in Hin. apply status_cases_elem in Hin as (row & Hrow & ->).
  pose proof (query_row _ _ (proj1 (system_history _ Hreach)) Hrow) as Hq.
  rename select (pull_request _ _ _ _ = _) into Hp.
  destruct (ce_verdict _) eqn:Hv; [|by open_ok|];
    open_ok; repeat match goal with x : _ * _ |- _ => destruct x end; open_ok; simplify_eq;
    rename select (ci_workflow _ _ _ _ _ _ = _) into Hwf; apply ci_workflow_inv in Hwf as [Hkey Hcmd];
    (eexists _, _, _, _; split_and!; [exact Hq|done..|by apply bound_evidence_intro|]).
  - left. apply evaluation_accepted in Hv as [Hm Hg]; [|by eapply Hsource].
    split_and!; [done..|]. eapply command_moves; eauto.
  - right. split_and!; [done| |eapply command_moves; eauto].
    destruct (merge_conflict _) eqn:Hm; [by left|right]. intros Hg.
    rewrite (proj2 (evaluation_accepted _ _ _ (Hsource _ _ _ _ _ Hp))) in Hv; done.
Qed.
End laws.

(** ** A case whose checks are green *)

Definition demo_waiting : Store := demo_run (take 5 happy_path).
Definition demo_source : PullRequestSource := {|
  pull_request owner repository id number := Ok (demo_evidence demo_head "ci");
  failure_diagnostics owner repository e := json_object [] |}.

Lemma demo_fresh v row : row ∈ demo_waiting.(cases) ->
  is_none (find_event demo_waiting (ci_event_id (stored_case row) (ci_event v))) = true.
Proof.
  apply (forallb_elem (fun row => is_none (find_event demo_waiting (ci_event_id (stored_case row) (ci_event v))))).
  destruct v; vm_compute; reflexivity.
Qed.

Lemma ci_moves_on_exact_head_witness :
  exists c s', reconcile_ci_once (H := demo_codec) (source := demo_source) demo_scope 200 demo_waiting
      = Ok (CiTransitioned demo_case_key "ACCEPTED", s')
    /\ moved c Ev.CiAccepted demo_waiting s'.
Proof.
  assert (match reconcile_ci_once (H := demo_codec) (source := demo_source) demo_scope 200 demo_waiting with
          | Ok (CiTransitioned k v, _) => String.eqb k demo_case_key && String.eqb v "ACCEPTED"
          | _ => false end = true) as Hk by (vm_compute; reflexivity).
  destruct (reconcile_ci_once (H := demo_codec) (source := demo_source) demo_scope 200 demo_waiting)
    as [[[| |key verdict] s']|] eqn:He; [done..| |done]. texts. subst.
  destruct (ci_moves_on_exact_head (H := demo_codec) (source := demo_source) demo_scope 200 demo_waiting s'
              demo_case_key "ACCEPTED") as (c & n & h & e & _ & _ & _ & _ & _ & _ & [Hok|Hno]).
  - intros owner repository id number e [= <-]. apply demo_evidence_unique.
  - apply demo_run_reachable. vm_compute. reflexivity.
  - lia.
  - intros row v Hrow. pose proof (demo_fresh v row Hrow) as Hf. by destruct (find_event _ _).
  - exact He.
  - exists c, s'. split; [done|]. apply Hok.
  - destruct Hno as [Hno _]. done.
Defined.
