(* ===== verification/World.v ===== *)
(** * World: cycles that write more than once

    A cycle of the control plane commits several transactions and talks to
    GitHub in between.  A failure does not undo what was committed before it,
    so a cycle is a state monad whose error keeps the state.  The state is the
    database and the log of requests that change GitHub.

    [Sound] says that whatever a cycle answers, an error included, the ledger
    moved by steps of the system of System.v; it is proved once per combinator. *)

From S2P Require Import Prelude Text Json Domain StateMachine Revision Sql Tables Inputs StoreCore.
From S2P Require Import Recovery Frozen Outbox Attempts Control Records Status History Frames Steps Invariants Conversations.
From S2P Require Import Ledger Results System RolePolicy Policy Commands Cycles GitHub.
From stdpp Require Import relations sorting.
Open Scope Z_scope.

(** ** Reads of GitHub (shadow.rs [IntakeSource]) *)

Record DiscussionComment := {
  dc_id : Z; dc_actor_id : Z; dc_human : bool; dc_body : string; dc_updated_at : string;
  dc_reply_to : option Z; dc_context : Value;
}.

Class IntakeSource := {
  discover (owner repository label : string) : result GitHubError (list IssueSnapshot);
  intake (owner repository : string) (issue_number : Z) : result GitHubError IntakeSnapshot;
  actor_login (id : Z) : result GitHubError string;
  discussion_comment (owner repository : string) (thread : Z) (kind : string) (id : Z)
    : result GitHubError DiscussionComment;
  (** A write: assigns the issue; its request goes to the log. *)
  claim_issue (owner repository : string) (expected : IssueSnapshot) (actor_id : Z)
    : result GitHubError IssueSnapshot;
}.

(** ** Requests that change GitHub (pip-github's write.rs) *)

Record CommentSpec := {
  cs_owner : string; cs_repository : string; cs_issue_number : Z; cs_effect_id : string;
  cs_expected_actor_id : Z; cs_body : string;
}.

Record PullRequestSpec := {
  ps_owner : string; ps_repository : string; ps_repository_id : Z; ps_effect_id : string; ps_expected_actor_id : Z;
  ps_title : string; ps_body : string; ps_head_branch : string; ps_head_sha : string; ps_base_branch : string;
}.
Record PullRequestReadySpec := {
  rd_owner : string; rd_repository : string; rd_repository_id : Z; rd_pull_request_number : Z;
  rd_expected_actor_id : Z; rd_expected_head_branch : string; rd_expected_head_sha : string;
  rd_expected_base_branch : string; rd_client_mutation_id : string;
}.
Inductive ReviewEvent := Approve | RequestChanges | Comment.
#[export] Instance review_event_eq_dec : EqDecision ReviewEvent.
Proof. solve_decision. Defined.
Record ReviewMutationSpec := {
  rm_owner : string; rm_repository : string; rm_pull_request_number : Z; rm_effect_id : string;
  rm_expected_actor_id : Z; rm_expected_head_sha : string; rm_body : string; rm_event : ReviewEvent;
}.
Module Mutation.
Inductive t := Created (id : Z) | Existing (id : Z) | Updated (id : Z) | Merged (sha : string).
End Mutation.

(** A push of the case's branch (draft_pr.rs). *)
Record BranchPublicationRequest := {
  bp_worktree_root : string; bp_worktree : string; bp_remote : string; bp_expected_remote_url : string;
  bp_branch : string; bp_local_head : string; bp_parent_head : string; bp_target_branch : string;
  bp_expected_remote_head : option string;
}.

(** A command of the board's program (pip-hermes). *)
Record CommandSpec := { cm_program : string; cm_args : list string; cm_timeout : Z; cm_max_output_bytes : Z }.

(** A call of the file system, which other processes use too. *)
Inductive FileOp :=
| ReadDir (path : string) | Stat (path : string) | ReadFile (path : string) | Canonicalize (path : string)
| CreateNew (path : string) (mode : Z) | WriteSync (path bytes : string) | SetMode (path : string) (mode : Z)
| HardLink (original link : string) | RemoveFile (path : string) | RenameFile (from to : string)
| PathExists (path : string) | TryLock (path : string).

Inductive Request :=
| EnsureComment (spec : CommentSpec)
| ClaimIssue (owner repository : string) (expected : IssueSnapshot) (actor_id : Z)
| EnsureReview (spec : ReviewMutationSpec)
| EnsurePullRequest (spec : PullRequestSpec)
| MarkReady (spec : PullRequestReadySpec)
| ResolveThread (spec : PullRequestReadySpec) (thread : ReviewThreadSnapshot)
| PublishBranch (request : BranchPublicationRequest)
| RunCommand (spec : CommandSpec)
| RunDirect (task_id : string) (attempt_id : Z)
| FileCall (op : FileOp)
| ReadClock.

Record World := { w_db : Db; w_log : list Request }.
Definition w_store (w : World) : Store := w.(w_db).(ledger).
Definition with_store (s : Store) (w : World) : World :=
  {| w_db := {| ledger := s; conversation_rows := w.(w_db).(conversation_rows) |}; w_log := w.(w_log) |}.

(** ** The monad *)

Definition Cycle (E A : Type) : Type := World -> result E A * World.

#[export] Instance cycle_ret {E} : MRet (Cycle E) := fun A a w => (Ok a, w).
#[export] Instance cycle_bind {E} : MBind (Cycle E) := fun A B f m w =>
  match m w with (Ok a, w') => f a w' | (Err e, w') => (Err e, w') end.

Definition lift {E A} (r : result E A) : Cycle E A := fun w => (r, w).
Definition raise {E A} (e : E) : Cycle E A := lift (Err e).
(** A query of the ledger. *)
Definition query {E A} (f : Store -> result E A) : Cycle E A := fun w => (f (w_store w), w).
(** A transaction of the ledger: an error is a rollback. *)
Definition transact {E A} (f : Store -> result E (A * Store)) : Cycle E A := fun w =>
  match f (w_store w) with Ok (a, s) => (Ok a, with_store s w) | Err e => (Err e, w) end.
(** The same on the whole database. *)
Definition query_db {E A} (f : Db -> result E A) : Cycle E A := fun w => (f w.(w_db), w).
Definition transact_db {E A} (f : Db -> result E (A * Db)) : Cycle E A := fun w =>
  match f w.(w_db) with Ok (a, d) => (Ok a, {| w_db := d; w_log := w.(w_log) |}) | Err e => (Err e, w) end.
(** A request whose answer is given by the interface. *)
Definition send {E A} (r : Request) (answer : A) : Cycle E A := fun w =>
  (Ok answer, {| w_db := w.(w_db); w_log := w.(w_log) ++ [r] |}).

(** A request whose answer may depend on everything sent before. *)
Definition ask {E A} (r : Request) (answer : list Request -> result E A) : Cycle E A := fun w =>
  (answer w.(w_log), {| w_db := w.(w_db); w_log := w.(w_log) ++ [r] |}).
(** [map_err] and [?] on the way out. *)
Definition within {E E' A} (f : E -> E') (m : Cycle E A) : Cycle E' A := fun w => let '(r, w') := m w in (map_err f r, w').

(** The result of a step as a value: the cycle goes on after a failure. *)
Definition attempt {E E' A} (m : Cycle E A) : Cycle E' (result E A) := fun w => let '(r, w') := m w in (Ok r, w').

(** A [for] loop with an accumulator. *)
Fixpoint fold_cycle {E A B} (f : B -> A -> Cycle E B) (acc : B) (l : list A) : Cycle E B :=
  match l with
  | [] => mret acc
  | a :: l => acc ← f acc a; fold_cycle f acc l
  end.

(** *** Running a cycle *)

Lemma lift_run {E A B} (m : result E A) (k : A -> Cycle E B) w :
  (lift m ≫= k) w = match m with Ok a => k a w | Err e => (Err e, w) end.
Proof. reflexivity. Qed.
Lemma query_run {E A B} (f : Store -> result E A) (k : A -> Cycle E B) w :
  (query f ≫= k) w = match f (w_store w) with Ok a => k a w | Err e => (Err e, w) end.
Proof. reflexivity. Qed.
Lemma transact_run {E A B} (f : Store -> result E (A * Store)) (k : A -> Cycle E B) w :
  (transact f ≫= k) w = match f (w_store w) with Ok (a, s) => k a (with_store s w) | Err e => (Err e, w) end.
Proof. unfold mbind, cycle_bind, transact. by destruct (f (w_store w)) as [[]|]. Qed.

Lemma ret_run {E A B} (a : A) (k : A -> Cycle E B) w : (mret a ≫= k) w = k a w.
Proof. reflexivity. Qed.
Lemma send_run {E A B} q (a : A) (k : A -> Cycle E B) w :
  (send q a ≫= k) w = k a {| w_db := w.(w_db); w_log := w.(w_log) ++ [q] |}.
Proof. reflexivity. Qed.
Lemma bind_run {E A B C} (m : Cycle E A) (k : A -> Cycle E B) (h : B -> Cycle E C) w :
  ((m ≫= k) ≫= h) w = (m ≫= fun a => k a ≫= h) w.
Proof. unfold mbind, cycle_bind. by destruct (m w) as [[]]. Qed.

(** Follow a run step by step; the steps stay as equations. *)
Ltac run_step H :=
  match type of H with
  | (mret _) _ = _ => unfold mret, cycle_ret in H
  | (lift _) _ = _ => unfold lift in H
  | (lift _ ≫= _) _ = _ => rewrite lift_run in H
  | (query _ ≫= _) _ = _ => rewrite query_run in H
  | (transact _ ≫= _) _ = _ => rewrite transact_run in H
  | (mret _ ≫= _) _ = _ => rewrite ret_run in H
  | (send _ _ ≫= _) _ = _ => rewrite send_run in H
  | ((_ ≫= _) ≫= _) _ = _ => rewrite bind_run in H
  | (match ?x with _ => _ end ≫= _) _ = _ => destruct x eqn:?
  | match ?x with _ => _ end = _ => destruct x eqn:?
  | match ?x with _ => _ end _ = _ => destruct x eqn:?
  end.
Ltac run H := repeat run_step H.

(** ** Cycles are made of system steps *)

Section sound.
Context `{Codec}.

Definition Sound {E A} (m : Cycle E A) : Prop :=
  forall w r w', m w = (r, w') -> rtc system_step (w_store w) (w_store w').

Lemma sound_ret {E A} (a : A) : Sound (E := E) (mret a).
Proof. intros w r w' [= <- <-]. reflexivity. Qed.
Lemma sound_lift {E A} (r : result E A) : Sound (lift r).
Proof. intros w r' w' [= <- <-]. reflexivity. Qed.
Lemma sound_query {E A} (f : Store -> result E A) : Sound (query f).
Proof. intros w r w' [= <- <-]. reflexivity. Qed.
Lemma sound_query_db {E A} (f : Db -> result E A) : Sound (query_db f).
Proof. intros w r w' [= <- <-]. reflexivity. Qed.
Lemma sound_send {E A} (q : Request) (a : A) : Sound (E := E) (send q a).
Proof. intros w r w' [= <- <-]. reflexivity. Qed.

Lemma sound_ask {E A} (q : Request) (f : list Request -> result E A) : Sound (ask q f).
Proof. intros w r w' [= <- <-]. reflexivity. Qed.
Lemma sound_within {E E' A} (f : E -> E') (m : Cycle E A) : Sound m -> Sound (within f m).
Proof. intros Hm w r w' Hw. unfold within in Hw. destruct (m w) as [r0 w0] eqn:H0. injection Hw as <- <-. exact (Hm _ _ _ H0). Qed.

Lemma sound_attempt {E E' A} (m : Cycle E A) : Sound m -> Sound (E := E') (attempt m).
Proof. intros Hm w r w' Hw. unfold attempt in Hw. destruct (m w) as [r0 w0] eqn:H0. injection Hw as <- <-. exact (Hm _ _ _ H0). Qed.

Lemma sound_bind {E A B} (m : Cycle E A) (f : A -> Cycle E B) :
  Sound m -> (forall a, Sound (f a)) -> Sound (m ≫= f).
Proof.
  intros Hm Hf w r w' Hb. unfold mbind, cycle_bind in Hb. destruct (m w) as [[a|e] w1] eqn:Hmw.
  - etrans; [exact (Hm _ _ _ Hmw)|exact (Hf a _ _ _ Hb)].
  - injection Hb as <- <-. exact (Hm _ _ _ Hmw).
Qed.

(** A bind whose continuation may use what the query returned. *)
Lemma sound_query_bind {E A B} (f : Store -> result E A) (k : A -> Cycle E B) :
  (forall s a, f s = Ok a -> Sound (k a)) -> Sound (query f ≫= k).
Proof.
  intros Hk w r w' Hb. unfold mbind, cycle_bind, query in Hb.
  destruct (f (w_store w)) as [a|] eqn:Hf; [exact (Hk _ _ Hf _ _ _ Hb)|by injection Hb as <- <-].
Qed.
Lemma sound_lift_bind {E A B} (m : result E A) (k : A -> Cycle E B) :
  (forall a, m = Ok a -> Sound (k a)) -> Sound (lift m ≫= k).
Proof.
  intros Hk w r w' Hb. unfold mbind, cycle_bind, lift in Hb.
  destruct m as [a|] eqn:Hf; [exact (Hk _ eq_refl _ _ _ Hb)|by injection Hb as <- <-].
Qed.

Lemma sound_transact {E A} (f : Store -> result E (A * Store)) :
  (forall s a s', f s = Ok (a, s') -> rtc system_step s s') -> Sound (transact f).
Proof.
  intros Hf w r w' Hb. unfold transact in Hb. destruct (f (w_store w)) as [[a s']|] eqn:He.
  - injection Hb as <- <-. exact (Hf _ _ _ He).
  - by injection Hb as <- <-.
Qed.
Lemma sound_transact_db {E A} (f : Db -> result E (A * Db)) :
  (forall d a d', f d = Ok (a, d') -> d'.(ledger) = d.(ledger)) -> Sound (transact_db f).
Proof.
  intros Hf w r w' Hb. unfold transact_db in Hb. destruct (f w.(w_db)) as [[a d']|] eqn:He.
  - injection Hb as <- <-. unfold w_store. simpl. by rewrite (Hf _ _ _ He).
  - by injection Hb as <- <-.
Qed.

Lemma sound_fold {E A B} (f : B -> A -> Cycle E B) l acc :
  (forall acc a, a ∈ l -> Sound (f acc a)) -> Sound (fold_cycle f acc l).
Proof.
  revert acc. induction l as [|a l IH]; intros acc Hf; simpl; [apply sound_ret|].
  apply sound_bind; [apply Hf; by left|]. intros b. apply IH. intros. apply Hf. by right.
Qed.

(** *** Transactions the cycles use *)

Lemma sound_command {E} (err : ControllerError -> E) policy cmd :
  command_floor cmd -> Sound (transact (fun s => map_err err (LedgerController.apply policy cmd s))).
Proof.
  intros Hw. apply sound_transact. intros s a s' Hs. apply map_err_ok in Hs.
  by eapply command_system_step.
Qed.

(** A method that leaves cases and events alone. *)
Lemma sound_quiet {E A} (f : Store -> result E (A * Store)) :
  (forall s a s', f s = Ok (a, s') -> store_step s s' /\ quiet s s') -> Sound (transact f).
Proof.
  intros Hf. apply sound_transact. intros s a s' Hs. destruct (Hf _ _ _ Hs). by apply rtc_once, sys_other.
Qed.

(** *** Loops over the cases of the ledger *)

Lemma report_ranges now s report leb (p : StoredCase -> bool) c :
  status now s = Ok report -> c ∈ order_by leb (List.filter p report.(ls_cases)) -> case_ranges c.
Proof.
  intros Hst. rewrite order_by_elem, list_elem_of_In, filter_In, <-list_elem_of_In. intros [Hin _].
  unfold status in Hst. open_ok. subst. simpl in Hin. apply status_cases_elem in Hin as (row & _ & ->).
  apply stored_case_ranges.
Qed.

(** The cases a report selects, in any order: each once, as they are stored. *)
Lemma report_selection now s report (leb : StoredCase -> StoredCase -> bool) (p : StoredCase -> bool) :
  status now s = Ok report -> store_inv s ->
  let l := order_by leb (List.filter p report.(ls_cases)) in
  NoDup (sc_case_key <$> l)
  /\ forall c, c ∈ l <-> p c = true /\ query_case s c.(sc_case_key) = Some c.
Proof.
  intros Hst Hinv l. assert (ls_cases report = status_cases s) as Hcs by (unfold status in Hst; by open_ok; subst).
  assert (forall c, c ∈ l <-> c ∈ status_cases s /\ p c = true) as Hl.
  { intros c. unfold l. rewrite Hcs, order_by_elem, list_elem_of_In, filter_In, <-list_elem_of_In. done. }
  split.
  - assert (l ≡ₚ List.filter p (status_cases s)) as -> by (unfold l, order_by; by rewrite Hcs, merge_sort_Permutation).
    assert (NoDup (sc_case_key <$> status_cases s)) as Hnd.
    { unfold status_cases. rewrite <-list_fmap_compose. unfold order_by.
      rewrite merge_sort_Permutation. exact (inv_keys _ _ Hinv). }
    revert Hnd. generalize (status_cases s). induction l0 as [|c l0 IH]; simpl; [done|].
    intros [Hc Hnd]%NoDup_cons. destruct (p c); [|by apply IH]. simpl. apply NoDup_cons. split; [|by apply IH].
    intros (c1 & He & Hin%list_elem_of_In)%list_elem_of_fmap. apply filter_In in Hin as [Hin _].
    apply Hc. rewrite He. apply list_elem_of_fmap_2. by apply list_elem_of_In.
  - intros c. rewrite Hl, status_cases_elem. split.
    + intros [(row & Hrow & ->) Hp]. split; [done|]. by apply query_row.
    + intros [Hp Hq]. split; [|done]. apply fmap_Some in Hq as (row & Hrow & ->).
      apply find_case_elem in Hrow as [Hrow _]. eauto.
Qed.

(** An iteration that touches at most its own case, and changes it as [P] says. *)
Definition touches (P : StoredCase -> Store -> Store -> Prop) (c : StoredCase) (s s' : Store) : Prop :=
  s' = s \/ (P c s s' /\ forall k, k <> c.(sc_case_key) -> query_case s' k = query_case s k).

Lemma fold_touches {E B} (P : StoredCase -> Store -> Store -> Prop) (f : B -> StoredCase -> Cycle E B) l :
  (forall acc c w r w', c ∈ l -> query_case (w_store w) c.(sc_case_key) = Some c -> f acc c w = (r, w') ->
     touches P c (w_store w) (w_store w')) ->
  NoDup (sc_case_key <$> l) -> forall acc w r w',
  (forall c, c ∈ l -> query_case (w_store w) c.(sc_case_key) = Some c) ->
  fold_cycle f acc l w = (r, w') ->
  forall k, query_case (w_store w') k = query_case (w_store w) k
    \/ exists c s1 s2, c ∈ l /\ c.(sc_case_key) = k /\ query_case s1 k = Some c /\ P c s1 s2
         /\ query_case (w_store w') k = query_case s2 k.
Proof.
  induction l as [|c l IH]; intros Hf Hnd acc w r w' Hin Hw k; simpl in Hw.
  { injection Hw as <- <-. by left. }
  apply NoDup_cons in Hnd as [Hc Hnd]. unfold mbind, cycle_bind in Hw.
  destruct (f acc c w) as [[b|e] w1] eqn:Hfc;
    destruct (Hf _ _ _ _ _ ltac:(left) (Hin c ltac:(left)) Hfc) as [Heq|[HP Hoth]].
  - destruct (IH ltac:(by intros; eapply Hf; [right|..]) Hnd b w1 r w') with (k := k)
      as [Hk|(c1 & s1 & s2 & ? & ? & ? & ? & ?)]; [by intros; rewrite Heq; apply Hin; right|done|left|right].
    + by rewrite Hk, Heq.
    + exists c1, s1, s2. split_and!; [by right|done..].
  - destruct (IH ltac:(by intros; eapply Hf; [right|..]) Hnd b w1 r w') with (k := k)
      as [Hk|(c1 & s1 & s2 & ? & ? & ? & ? & ?)]; [|done| |right].
    + intros c1 Hc1. rewrite Hoth; [apply Hin; by right|]. intros He. apply Hc.
      rewrite <-He. by apply list_elem_of_fmap_2.
    + destruct (decide (k = c.(sc_case_key))) as [->|Hne].
      * right. exists c, (w_store w), (w_store w1). split_and!; [left|done|apply Hin; left|done|done].
      * left. by rewrite Hk, Hoth.
    + exists c1, s1, s2. split_and!; [by right|done..].
  - injection Hw as <- <-. left. by rewrite Heq.
  - injection Hw as <- <-. destruct (decide (k = c.(sc_case_key))) as [->|Hne]; [right|left; by apply Hoth].
    exists c, (w_store w), (w_store w1). split_and!; [left|done|apply Hin; left|done|done].
Qed.

End sound.

Ltac sound_step :=
  match goal with
  | |- Sound (mret _) => apply sound_ret
  | |- Sound (lift _) => apply sound_lift
  | |- Sound (raise _) => apply sound_lift
  | |- Sound (query _) => apply sound_query
  | |- Sound (query_db _) => apply sound_query_db
  | |- Sound (send _ _) => apply sound_send
  | |- Sound (lift _ ≫= _) => apply sound_lift_bind; intros ? ?
  | |- Sound (query _ ≫= _) => apply sound_query_bind; intros ? ? ?
  | |- Sound (_ ≫= _) => apply sound_bind; [|intros ?]
  | |- Sound (fold_cycle _ _ _) => apply sound_fold; intros ? ? ?
  | |- Sound (match ?x with _ => _ end) => destruct x eqn:?
  | |- Sound (let '_ := ?x in _) => destruct x eqn:?
  end.
Ltac sound := repeat (sound_step; simpl).
