(* ===== verification/Claims.v ===== *)
(** * Claims: cycles that carry out a claimed effect

    The publishing cycles of the control plane claim one effect, work for it and release
    it on every failure: [or_release] is that pattern.  A publication ends in a
    command, which may accept a plan version or bind a head ([with_plan], [with_head]);
    [command_landed] says where such a command takes its case. *)

From S2P Require Import Prelude Text Json Domain StateMachine Revision Sql Tables Inputs StoreCore.
From S2P Require Import Recovery Frozen Outbox Attempts Control Records Status History Frames Steps Invariants Conversations.
From S2P Require Import Ledger Results System Ingest RolePolicy Policy Commands Cycles Bounds GitHub World.
From stdpp Require Import relations.
Open Scope Z_scope.

(** ** Commands that move a binding *)

Definition with_plan (v : option Z) (w : WorkflowCommand) : WorkflowCommand := {|
  wc_case_id := w.(wc_case_id); wc_event_id := w.(wc_event_id); wc_observed_at := w.(wc_observed_at);
  wc_expected_state := w.(wc_expected_state); wc_expected_state_revision := w.(wc_expected_state_revision);
  wc_accepted_policy_revision := w.(wc_accepted_policy_revision); wc_remediation_round := w.(wc_remediation_round);
  wc_plan_version := w.(wc_plan_version); wc_pr_number := w.(wc_pr_number); wc_head_sha := w.(wc_head_sha);
  wc_event := w.(wc_event); wc_accepted_plan_version := v; wc_next_pr_number := w.(wc_next_pr_number);
  wc_next_head_sha := w.(wc_next_head_sha); wc_event_payload := w.(wc_event_payload); wc_run := w.(wc_run);
  wc_evidence := w.(wc_evidence); wc_findings := w.(wc_findings) |}.
Definition with_head (pr : option Z) (head : option string) (w : WorkflowCommand) : WorkflowCommand := {|
  wc_case_id := w.(wc_case_id); wc_event_id := w.(wc_event_id); wc_observed_at := w.(wc_observed_at);
  wc_expected_state := w.(wc_expected_state); wc_expected_state_revision := w.(wc_expected_state_revision);
  wc_accepted_policy_revision := w.(wc_accepted_policy_revision); wc_remediation_round := w.(wc_remediation_round);
  wc_plan_version := w.(wc_plan_version); wc_pr_number := w.(wc_pr_number); wc_head_sha := w.(wc_head_sha);
  wc_event := w.(wc_event); wc_accepted_plan_version := w.(wc_accepted_plan_version); wc_next_pr_number := pr;
  wc_next_head_sha := head; wc_event_payload := w.(wc_event_payload); wc_run := w.(wc_run);
  wc_evidence := w.(wc_evidence); wc_findings := w.(wc_findings) |}.

(** [prefix repo1-issue2-workflow3-revision4]: the identity of a publication. *)
Definition case_suffix (c : StoredCase) : string :=
  "repo" +:+ show c.(sc_repository_id) +:+ "-issue" +:+ show c.(sc_issue_number)
  +:+ "-workflow" +:+ show c.(sc_workflow_version) +:+ "-revision" +:+ show c.(sc_state_revision).

(** ** Leases *)

Section claims.
Context `{Codec}.

Definition claim {E} (err : StoreError -> E) (scope : RepositoryScope) (owner : string) (now lease_seconds : Z)
  (types : list string) : Cycle E (option ClaimedEffect) :=
  transact (fun s => map_err err (scope_claim scope owner now lease_seconds types s)).
Definition release {E} (err : StoreError -> E) (effect_id owner : string) : Cycle E () :=
  transact (fun s => map_err err (release_effect effect_id owner s)).

(** [Err(error) => { store.release_effect(..)?; return Err(error) }]. *)
Definition or_release {E A} (err : StoreError -> E) (effect_id owner : string) (m : Cycle E A) : Cycle E A :=
  fun w => match m w with
           | (Ok a, w') => (Ok a, w')
           | (Err e, w') => (release err effect_id owner;; raise e) w'
           end.

(** The lookup of the claimed case. *)
Definition claimed_case {E} (missing : E) (key : string) : Cycle E StoredCase :=
  query (fun s => ok_or (query_case s key) missing).

(** [LedgerController::apply] under the budget of the policy. *)
Definition apply_command {E} (panic : E) (err : ControllerError -> E) (policy : RepositoryPolicy) (command : WorkflowCommand)
  : Cycle E ApplyResult :=
  budget ← lift (ok_or (case_policy policy) panic);
  transact (fun s => map_err err (LedgerController.apply budget command s)).

Lemma bind_inv {E A B} (m : Cycle E A) (k : A -> Cycle E B) w r w' :
  (m ≫= k) w = (r, w') ->
  (exists a w1, m w = (Ok a, w1) /\ k a w1 = (r, w')) \/ exists e, m w = (Err e, w') /\ r = Err e.
Proof. unfold mbind, cycle_bind. destruct (m w) as [[a|e] w1]; [eauto|]. intros [= <- <-]. eauto. Qed.

Lemma apply_command_inv {E} (panic : E) err policy command w r w' :
  apply_command panic err policy command w = (r, w') ->
  (w' = w /\ exists e, r = Err e)
  \/ exists budget a s', LedgerController.apply budget command (w_store w) = Ok (a, s') /\ r = Ok a /\ w' = with_store s' w.
Proof.
  unfold apply_command. rewrite lift_run. destruct (case_policy policy) as [budget|]; simpl; [|intros [= <- <-]; eauto].
  unfold transact. destruct (LedgerController.apply _ _ _) as [[a s']|e] eqn:Ha; intros [= <- <-]; eauto 10.
Qed.

(** *** What leases change *)

(** Cases, events and the requests sent stay. *)
Definition still (w w' : World) : Prop :=
  quiet (w_store w) (w_store w') /\ w'.(w_log) = w.(w_log) /\ w'.(w_db).(conversation_rows) = w.(w_db).(conversation_rows).
#[export] Instance still_preorder : PreOrder still.
Proof.
  split; [by intros w|]. intros a b c (? & ? & ?) (? & ? & ?). split_and!; [by etrans|congruence..].
Qed.

Lemma quiet_query s s' k : quiet s s' -> query_case s' k = query_case s k.
Proof. intros (_ & Hc & _). unfold query_case, find_case. by rewrite Hc. Qed.
Lemma still_query w w' k : still w w' -> query_case (w_store w') k = query_case (w_store w) k.
Proof. intros [Hq _]. by apply quiet_query. Qed.

Lemma transact_still {E A} (f : Store -> result E (A * Store)) w r w' :
  (forall s a s', f s = Ok (a, s') -> quiet s s') -> transact f w = (r, w') -> still w w'.
Proof.
  intros Hf Ht. unfold transact in Ht. destruct (f (w_store w)) as [[a s']|] eqn:He; injection Ht as <- <-; [|done].
  split; [by eapply Hf|done].
Qed.
Lemma claim_still {E} (err : StoreError -> E) scope owner now lease types w r w' :
  claim err scope owner now lease types w = (r, w') -> still w w'.
Proof.
  apply transact_still. intros s a s' Hs%map_err_ok. unfold scope_claim, claim_repository_case_effect_matching in Hs.
  open_ok. by eapply claim_evolves.
Qed.
Lemma release_still {E} (err : StoreError -> E) id owner w r w' : release err id owner w = (r, w') -> still w w'.
Proof. apply transact_still. intros s a s' Hs%map_err_ok. by eapply release_evolves. Qed.
Lemma evidence_still {E} (err : StoreError -> E) id owner now e w r w' :
  transact (fun s => map_err err (complete_effect_evidence id owner now e s)) w = (r, w') -> still w w'.
Proof. apply transact_still. intros s a s' Hs%map_err_ok. by eapply complete_evidence_evolves. Qed.

(** A guarded step either succeeds, or the cycle ends with the lease given back. *)
Lemma or_release_inv {E A B} (err : StoreError -> E) id owner (m : Cycle E A) (k : A -> Cycle E B) w r w' :
  (or_release err id owner m ≫= k) w = (r, w') ->
  (exists a w1, m w = (Ok a, w1) /\ k a w1 = (r, w'))
  \/ exists e e' w1, m w = (Err e, w1) /\ r = Err e' /\ still w1 w'.
Proof.
  unfold mbind at 1, cycle_bind at 1, or_release. destruct (m w) as [[a|e] w1] eqn:Hm; [eauto|].
  intros Hr. right. unfold mbind, cycle_bind in Hr.
  destruct (release err id owner w1) as [[[]|e'] w2] eqn:Hl; apply release_still in Hl; cbn in Hr; injection Hr as <- <-; eauto 10.
Qed.
(** A release ends a step without a request. *)
Lemma release_end {E A} (err : StoreError -> E) id owner (k : Cycle E A) w r w' :
  (forall w1 r1 w2, k w1 = (r1, w2) -> w2 = w1) -> (release err id owner;; k) w = (r, w') -> still w w'.
Proof.
  intros Hk Hr. apply bind_inv in Hr as [(? & w1 & Hrl & Hr)|(? & Hrl & _)]; apply release_still in Hrl; [|done].
  by apply Hk in Hr as ->.
Qed.

(** A cycle for a claimed effect either changes nothing or goes on with the case it claimed. *)
Lemma claimed_inv {E A} (err : StoreError -> E) (missing : E) scope owner now lease types (idle : A)
  (k : ClaimedEffect -> StoredCase -> Cycle E A) w r w' :
  (claim err scope owner now lease types ≫= fun claimed =>
     match claimed with
     | None => mret idle
     | Some e => claimed_case missing e.(ce_case_key) ≫= k e
     end) w = (r, w') ->
  still w w' \/ exists e c w1, claim err scope owner now lease types w = (Ok (Some e), w1) /\ still w w1
    /\ query_case (w_store w1) c.(sc_case_key) = Some c /\ query_case (w_store w) c.(sc_case_key) = Some c
    /\ k e c w1 = (r, w').
Proof.
  intros Hr. apply bind_inv in Hr as [(claimed & w1 & Hcl & Hr)|(? & Hcl & _)]; pose proof Hcl as Hs; apply claim_still in Hs; [|by left].
  destruct claimed as [e|]; [|by injection Hr as <- <-; left]. unfold claimed_case in Hr. rewrite query_run in Hr.
  destruct (query_case (w_store w1) _) as [c|] eqn:Hq; simpl in Hr; [|by injection Hr as <- <-; left].
  right. exists e, c, w1. pose proof (query_case_key _ _ _ Hq) as Hk. rewrite <-Hk in Hq.
  split_and!; try done. by rewrite <-(still_query _ _ _ Hs).
Qed.

(** *** Requests *)

(** A part of a cycle that sends [sent] and leaves cases and events alone. *)
Definition emits (w w' : World) (sent : list Request) : Prop :=
  quiet (w_store w) (w_store w') /\ w'.(w_log) = w.(w_log) ++ sent.

Lemma emits_still w w' : still w w' -> emits w w' [].
Proof. intros (? & ? & _). split; [done|]. by rewrite app_nil_r. Qed.
Lemma emits_refl w : emits w w [].
Proof. by apply emits_still. Qed.
Lemma emits_trans a b c l l' : emits a b l -> emits b c l' -> emits a c (l ++ l').
Proof. intros [? Hl] [? Hl']. split; [by etrans|]. by rewrite Hl', Hl, app_assoc. Qed.
Lemma emits_still_r a b c l : emits a b l -> still b c -> emits a c l.
Proof. intros ? ?%emits_still. rewrite <-(app_nil_r l). by eapply emits_trans. Qed.
Lemma emits_still_l a b c l : still a b -> emits b c l -> emits a c l.
Proof. intros ?%emits_still ?. by eapply (emits_trans a b c []). Qed.
Lemma emits_send w q : emits w {| w_db := w.(w_db); w_log := w.(w_log) ++ [q] |} [q].
Proof. done. Qed.

End claims.

(** ** Where a command takes its case *)

Section lands.
Context `{Codec}.

Lemma next_plan_u32 w plan : wf_command w -> next_plan_version w = Ok plan -> is_u32 plan.
Proof.
  intros (_ & _ & _ & Hp & _ & Ha & _) Hn. unfold next_plan_version, plan_or_zero, is_u32, in_opt, u32_max in *.
  destruct (wc_accepted_plan_version w), (wc_plan_version w); repeat case_match; simplify_eq/=; lia.
Qed.
Lemma next_pr_nonneg w pr head :
  wf_command w -> next_head_binding w = Ok (pr, head) -> match pr with Some n => 0 <= n | None => True end.
Proof.
  intros (_ & _ & _ & _ & Hc & _ & Hn) Hb. unfold next_head_binding, in_opt in *.
  destruct (wc_pr_number w), (wc_next_pr_number w); case_bool_decide; open_ok; simplify_eq/=; try done; lia.
Qed.

(** [s'] is [s] with the case [c] moved by [ev] from the state [st], bound to the plan, pull request and head. *)
Definition landed (c : StoredCase) (st : CaseState) (ev : Event) (plan : Z) (pr : option Z) (head : option string)
  (s s' : Store) : Prop :=
  exists ctx d c', transition st ev ctx = Ok d
    /\ query_case s' c.(sc_case_key) = Some c' /\ c'.(sc_state) = CaseState_to_string (next_state d)
    /\ c'.(sc_state_revision) = c.(sc_state_revision) + 1
    /\ c'.(sc_plan_version) = plan /\ c'.(sc_pr_number) = pr /\ c'.(sc_head_sha) = head
    /\ forall k, k <> c.(sc_case_key) -> query_case s' k = query_case s k.

Lemma command_landed policy c w s s' :
  query_case s c.(sc_case_key) = Some c -> case_key w.(wc_case_id) = c.(sc_case_key) ->
  w.(wc_expected_state_revision) = c.(sc_state_revision) -> command_floor w ->
  LedgerController.apply policy w s = Ok (Applied, s') ->
  exists plan pr head, next_plan_version w = Ok plan /\ next_head_binding w = Ok (pr, head)
    /\ (c.(sc_state) = CaseState_to_string w.(wc_expected_state) /\ c.(sc_plan_version) = plan_or_zero w.(wc_plan_version)
        /\ c.(sc_pr_number) = w.(wc_pr_number) /\ c.(sc_head_sha) = w.(wc_head_sha))
    /\ landed c w.(wc_expected_state) w.(wc_event) plan pr head s s'.
Proof.
  intros Hq Hkey Hrev Hfl Ha. pose proof (floor_applied_wf _ _ _ _ Hfl Ha) as Hwf.
  apply apply_applied in Ha as (granted & i & c0 & pol & _ & _ & Hag & Hi & Happ); [|done].
  apply transition_input_inv in Hi
    as (target & d & to & round & plan & pr & head & _ & Ht & _ & Hpl & _ & Hb & ->).
  pose proof (next_plan_u32 _ _ Hwf Hpl) as Hplan. pose proof (next_pr_nonneg _ _ _ Hwf Hb) as Hpr.
  pose proof (ap_case _ _ _ _ _ Happ) as Hc0. simpl in Hc0.
  apply fmap_Some in Hq as (c1 & Hc1 & Hceq). rewrite Hkey, Hc1 in Hc0. injection Hc0 as <-.
  assert (0 <= c_state_revision c1) as Hpos.
  { destruct Hwf as (Hr & _). rewrite Hrev, Hceq in Hr. simpl in Hr. unfold unsigned in *. lia. }
  pose proof (applied_find_case _ _ _ _ _ Hpos Happ) as Hnew. simpl in Hnew.
  destruct (Hag c1) as (? & _ & ? & ? & ?); [by rewrite Hkey|by rewrite Hrev, Hceq|]. rewrite <-Hceq in *.
  exists plan, pr, head. split; [done|]. split; [done|]. split; [by split_and!|]. eexists _, d, _. split_and!; [exact Ht|..].
  - unfold query_case. rewrite <-Hkey, Hnew. done.
  - done.
  - simpl. rewrite Hrev, Hceq. simpl. rewrite (unsigned_id (c_state_revision c1)) by done. apply unsigned_id. lia.
  - simpl. unfold u32_or_default, is_u32 in *. by rewrite (proj2 (andb_true_iff _ _)) by lia.
  - simpl. destruct pr; simpl; [by rewrite unsigned_id|done].
  - done.
  - intros k Hk. unfold query_case. erewrite applied_others; [done|exact Happ|simpl; congruence].
Qed.

(** Leases do not matter to where a case lands. *)
Lemma still_landed w w1 s' c st ev plan pr head :
  still w w1 -> landed c st ev plan pr head (w_store w1) s' -> landed c st ev plan pr head (w_store w) s'.
Proof.
  intros Hs (ctx & d & c' & ? & ? & ? & ? & ? & ? & ? & Ho). exists ctx, d, c'. split_and!; try done.
  intros k Hk. by rewrite Ho, (still_query _ _ _ Hs).
Qed.
Lemma still_moved w w1 s' c ev : still w w1 -> moved c ev (w_store w1) s' -> moved c ev (w_store w) s'.
Proof.
  intros Hs (st & ctx & d & c' & ? & ? & ? & ? & ? & ? & ? & ? & Ho). exists st, ctx, d, c'. split_and!; try done.
  intros k Hk. by rewrite Ho, (still_query _ _ _ Hs).
Qed.
(** A case that differs afterwards is the one that landed. *)
Lemma landed_same c st ev plan pr head s s' k x x' :
  landed c st ev plan pr head s s' -> query_case s c.(sc_case_key) = Some c ->
  query_case s k = Some x -> query_case s' k = Some x' -> x' <> x -> x = c.
Proof.
  intros (? & ? & ? & _ & _ & _ & _ & _ & _ & _ & Ho) Hc Hx Hx' Hne.
  destruct (decide (k = c.(sc_case_key))) as [->|Hk]; [congruence|]. rewrite Ho in Hx' by done. congruence.
Qed.

(** A decidable form of [well_keyed] for every case of a store. *)
Definition keys_match (s : Store) : bool :=
  forallb (fun row => match case_id_of (stored_case row) with
                      | Some id => String.eqb (case_key id) (c_case_key row)
                      | None => true
                      end) s.(cases).
Lemma keys_match_keyed s k c : keys_match s = true -> query_case s k = Some c -> well_keyed c.
Proof.
  intros Hall (row & Hr & ->)%fmap_Some id Hid. apply find_case_elem in Hr as [Hin _].
  unfold keys_match in Hall. rewrite forallb_forall in Hall. apply list_elem_of_In, Hall in Hin.
  rewrite Hid in Hin. by apply String.eqb_eq.
Qed.

(** *** Soundness *)

Lemma sound_lease {E} (err : StoreError -> E) scope owner now lease types : Sound (claim err scope owner now lease types).
Proof.
  apply sound_quiet. intros s a s' Hs%map_err_ok. unfold scope_claim, claim_repository_case_effect_matching in Hs.
  open_ok. split; [by eapply step_claim|by eapply claim_evolves].
Qed.
Lemma sound_release {E} (err : StoreError -> E) id owner : Sound (release err id owner).
Proof. apply sound_quiet. intros s a s' Hs%map_err_ok. split; [by eapply step_release|by eapply release_evolves]. Qed.
Lemma sound_evidence {E} (err : StoreError -> E) id owner now e :
  Sound (transact (fun s => map_err err (complete_effect_evidence id owner now e s))).
Proof. apply sound_quiet. intros s a s' Hs%map_err_ok. split; [by eapply step_evidence|by eapply complete_evidence_evolves]. Qed.
Lemma sound_claimed_command {E} (panic : E) err policy command :
  command_floor command -> Sound (apply_command panic err policy command).
Proof. intros Hf. unfold apply_command. apply sound_lift_bind. intros budget _. by apply sound_command. Qed.
Lemma sound_or_release {E A} (err : StoreError -> E) id owner (m : Cycle E A) : Sound m -> Sound (or_release err id owner m).
Proof.
  intros Hm w r w' Hr. unfold or_release in Hr. destruct (m w) as [[a|e] w1] eqn:Hw.
  - injection Hr as <- <-. exact (Hm _ _ _ Hw).
  - etrans; [exact (Hm _ _ _ Hw)|]. eapply (sound_bind (release err id owner) (fun _ => raise e));
      [apply sound_release|intros; apply sound_lift|exact Hr].
Qed.
(** Binds whose continuation may use what the guarded step returned. *)
Lemma sound_guarded_bind {E A B} (err : StoreError -> E) id owner (m : Cycle E A) (k : A -> Cycle E B) :
  Sound m -> (forall a, (exists w w', m w = (Ok a, w')) -> Sound (k a)) -> Sound (or_release err id owner m ≫= k).
Proof.
  intros Hm Hk w r w' Hr. unfold mbind, cycle_bind in Hr.
  destruct (or_release err id owner m w) as [[a|e] w1] eqn:Ho.
  - etrans; [exact (sound_or_release _ _ _ _ Hm _ _ _ Ho)|]. refine (Hk a _ _ _ _ Hr). exists w.
    unfold or_release in Ho. destruct (m w) as [[a0|e] w2]; [simplify_eq; eauto|].
    unfold mbind, cycle_bind in Ho. by destruct (release err id owner w2) as [[]].
  - injection Hr as <- <-. exact (sound_or_release _ _ _ _ Hm _ _ _ Ho).
Qed.
Lemma sound_guarded_lift {E A B} (err : StoreError -> E) id owner (m : result E A) (k : A -> Cycle E B) :
  (forall a, m = Ok a -> Sound (k a)) -> Sound (or_release err id owner (lift m) ≫= k).
Proof. intros Hk. apply sound_guarded_bind; [apply sound_lift|]. intros a (w & w' & [= Ha _]). by apply Hk. Qed.
Lemma sound_guarded_query {E A B} (err : StoreError -> E) id owner (f : Store -> result E A) (k : A -> Cycle E B) :
  (forall s a, f s = Ok a -> Sound (k a)) -> Sound (or_release err id owner (query f) ≫= k).
Proof. intros Hk. apply sound_guarded_bind; [apply sound_query|]. intros a (w & w' & [= Ha _]). by eapply Hk. Qed.
Lemma sound_send_bind {E A B} (q : Request) (a : A) (k : A -> Cycle E B) : Sound (k a) -> Sound (send q a ≫= k).
Proof. intros Hk w r w'. rewrite send_run. intros Hr. exact (Hk _ _ _ Hr). Qed.
Lemma sound_claimed_case {E B} (missing : E) key (k : StoredCase -> Cycle E B) :
  (forall c, case_ranges c -> Sound (k c)) -> Sound (claimed_case missing key ≫= k).
Proof.
  intros Hk. unfold claimed_case. apply sound_query_bind. intros s c Hc%ok_or_ok. apply Hk. by eapply query_case_ranges.
Qed.
End lands.

(** [Sound], for cycles that hold a lease. *)
Ltac sound_claimed :=
  repeat (first [ apply sound_lease | apply sound_release | apply sound_evidence
                | apply sound_claimed_case; intros ? ? | apply sound_guarded_lift; intros ? ?
                | apply sound_guarded_query; intros ? ? ? | apply sound_send_bind | apply sound_or_release | sound_step ]; simpl).
