(* ===== verification/Takeover.v ===== *)
(** * Takeover: who owns the pull request of a case

    crates/pip-control/src/takeover.rs.  A pull request that a human changed, closed or
    merged is given up: the case ends as taken over, or as completed when the
    human merged the ready head. *)

From S2P Require Import Prelude Text Parse Json Serde Domain StateMachine Revision Sql Tables Inputs StoreCore.
From S2P Require Import Status Control CaseHistory History Frames Steps Invariants Conversations.
From S2P Require Import Ledger System Ingest Policy PolicyLaws Commands Cycles Bounds GitHub Ci World.
From stdpp Require Import relations.
Open Scope Z_scope.

Inductive TakeoverCycle :=
| TakeoverIdle
| TakeoverOwned (case_count : Z)
| TakeoverTransitioned (cases : list string).

Inductive TakeoverError :=
| TakeoverGitHub (e : GitHubError)
| TakeoverStore (e : StoreError)
| TakeoverController (e : ControllerError)
| MissingAutomationActor
| TakeoverInvalidCase
| TakeoverRepositoryDrift
| TakeoverPanic.

(** ** Reading a pull request back from evidence *)

Definition de_pull (v : Value) : option PullRequestSnapshot :=
  m ← as_object v;
  i ← field m "id" de_u64;
  n ← field m "number" de_u64;
  o ← field m "open" as_bool;
  d ← field m "draft" as_bool;
  g ← field m "merged" as_bool;
  mc ← option_field m "merge_commit_sha" as_str;
  mb ← option_field m "mergeable" as_bool;
  ms ← field m "mergeable_state" as_str;
  a ← field m "author_id" de_u64;
  hi ← field m "head_repository_id" de_u64;
  hr ← field m "head_repository" as_str;
  hb ← field m "head_branch" as_str;
  hs ← field m "head_sha" as_str;
  bb ← field m "base_branch" as_str;
  bs ← field m "base_sha" as_str;
  Some {| pr_id := i; pr_number := n; pr_open := o; pr_draft := d; pr_merged := g;
          pr_merge_commit_sha := mc; pr_mergeable := mb; pr_mergeable_state := ms; pr_author_id := a;
          pr_head_repository_id := hi; pr_head_repository := hr; pr_head_branch := hb;
          pr_head_sha := hs; pr_base_branch := bb; pr_base_sha := bs |}.

(** ** Ownership *)

Definition confirmed_merge (p : PullRequestSnapshot) : bool :=
  p.(pr_merged) && negb p.(pr_open) && negb p.(pr_draft)
  && match p.(pr_merge_commit_sha) with Some sha => is_ok (GitSha_from_str sha) | None => false end.

Definition validate_repository_identity (c : StoredCase) (policy : RepositoryPolicy) (p : PullRequestSnapshot)
  : result TakeoverError () :=
  number ← ok_or c.(sc_pr_number) TakeoverInvalidCase;
  err_if (negb (p.(pr_number) =? number)
          || negb (p.(pr_head_repository_id) =? rid_id (po_repository policy))
          || negb (String.eqb p.(pr_head_repository) (full_name (po_repository policy)))
          || negb (String.eqb p.(pr_base_branch) (rid_default_branch (po_repository policy))))
    TakeoverRepositoryDrift.

Definition expected_branch (policy : RepositoryPolicy) (c : StoredCase) : string :=
  po_branch_prefix policy +:+ "repo-" +:+ show c.(sc_repository_id) +:+ "/issue-" +:+ show c.(sc_issue_number)
  +:+ "/workflow-" +:+ show c.(sc_workflow_version).

Definition blocker (b : bool) (name : string) : list string := if b then [name] else [].

Definition takeover_blockers (c : StoredCase) (policy : RepositoryPolicy) (expected_actor : Z)
  (p : PullRequestSnapshot) : result TakeoverError (list string) :=
  foreign_head ← (if one_of ["BUILDING"; "REMEDIATING"] c.(sc_state) then Ok false
                  else head ← ok_or c.(sc_head_sha) TakeoverInvalidCase;
                       Ok (negb (String.eqb p.(pr_head_sha) head)));
  Ok (blocker (negb (p.(pr_author_id) =? expected_actor)) "FOREIGN_PR_AUTHOR"
      ++ blocker (negb (String.eqb p.(pr_head_branch) (expected_branch policy c))) "FOREIGN_HEAD_BRANCH"
      ++ blocker (negb p.(pr_open) || p.(pr_merged)) "PR_DISPOSITION_CHANGED"
      ++ blocker (negb p.(pr_draft) && negb (String.eqb c.(sc_state) "SHADOW_READY")) "PR_LEFT_DRAFT_STATE"
      ++ blocker foreign_head "FOREIGN_HEAD_COMMIT").

Definition takeover_event_id (c : StoredCase) : string :=
  "event-takeover-repo" +:+ show c.(sc_repository_id) +:+ "-issue" +:+ show c.(sc_issue_number)
  +:+ "-workflow" +:+ show c.(sc_workflow_version) +:+ "-revision" +:+ show c.(sc_state_revision).
Definition takeover_evidence_id (c : StoredCase) (revision : Z) : string :=
  "evidence-takeover-repo" +:+ show c.(sc_repository_id) +:+ "-issue" +:+ show c.(sc_issue_number)
  +:+ "-workflow" +:+ show c.(sc_workflow_version) +:+ "-revision" +:+ show revision.

Definition takeover_command (c : StoredCase) (policy : RepositoryPolicy) (observed_at : Z) (event : Event)
  (event_payload : Value) (evidence : EvidenceInput) : result TakeoverError WorkflowCommand :=
  id ← ok_or (case_id_of c) TakeoverInvalidCase;
  err_if (negb (String.eqb (case_key id) c.(sc_case_key))
          || negb (c.(sc_policy_revision) =? po_revision policy)) TakeoverInvalidCase;;
  event_id ← map_err (fun _ => TakeoverInvalidCase) (EventId_from_str (takeover_event_id c));
  ok_or (case_command c c.(sc_state_revision) event_id event event_payload observed_at [evidence])
    TakeoverInvalidCase.

Section takeover.
Context `{Codec} {source : PullRequestSource}.

(** Crate-wide helper of draft_pr.rs: the payload has the recorded digest. *)
Definition payload_matches (v : Value) (expected : string) : bool :=
  String.eqb (hash_bytes (to_string v)) expected.

(** A takeover that only recorded the merge of the ready head, with the case
    as it was ready and the merge commit. *)
Definition legacy_merged_ready_case (c : StoredCase) (policy : RepositoryPolicy) (expected_actor : Z) (s : Store)
  : result TakeoverError (option (StoredCase * string)) :=
  if c.(sc_state_revision) =? 0 then Ok None else
  let revision := c.(sc_state_revision) - 1 in
  found ← map_err TakeoverStore (case_at_revision c.(sc_case_key) revision s);
  match found with
  | None => Ok None
  | Some prior =>
      if negb (String.eqb prior.(sc_state) "SHADOW_READY")
         || negb (bool_decide (prior.(sc_head_sha) = c.(sc_head_sha)))
         || negb (bool_decide (prior.(sc_pr_number) = c.(sc_pr_number)))
         || negb (prior.(sc_policy_revision) =? c.(sc_policy_revision))
      then Ok None else
      history ← map_err TakeoverStore (immutable_history_for_case c.(sc_case_key) s);
      match List.last (map Some history.(ih_events)) None with
      | None => Ok None
      | Some e =>
          if negb (e.(se_state_revision) =? c.(sc_state_revision))
             || negb (String.eqb e.(se_event_type) "HUMAN_TOOK_OVER")
             || negb (bool_decide (index e.(se_payload) "blockers" = Array [Str "PR_DISPOSITION_CHANGED"]))
             || negb (payload_matches e.(se_payload) e.(se_payload_sha256))
          then Ok None else
          match List.find (fun v => String.eqb v.(sv_evidence_id) (takeover_evidence_id c revision)
                                    && String.eqb v.(sv_kind) "GITHUB_TAKEOVER") history.(ih_evidence) with
          | None => Ok None
          | Some record =>
              if negb (payload_matches record.(sv_payload) record.(sv_payload_sha256)) then Ok None else
              match de_pull (index record.(sv_payload) "pull_request") with
              | None => Ok None
              | Some pull =>
                  if confirmed_merge pull && is_ok (validate_repository_identity prior policy pull) then
                    blockers ← takeover_blockers prior policy expected_actor pull;
                    if bool_decide (blockers = ["PR_DISPOSITION_CHANGED"])
                    then sha ← ok_or pull.(pr_merge_commit_sha) TakeoverPanic; Ok (Some (prior, sha))
                    else Ok None
                  else Ok None
              end
          end
      end
  end.

(** The binding a case is judged by, [None] for a takeover that stays one. *)
Definition takeover_binding (c : StoredCase) (policy : RepositoryPolicy) (expected_actor : Z) (s : Store)
  : result TakeoverError (option (StoredCase * option string)) :=
  if String.eqb c.(sc_state) "TAKEN_OVER" then
    ready ← legacy_merged_ready_case c policy expected_actor s;
    Ok (match ready with Some (prior, sha) => Some (prior, Some sha) | None => None end)
  else Ok (Some (c, None)).

Definition human_merged (binding : StoredCase) (corrects : option string) (blockers : list string)
  (p : PullRequestSnapshot) : bool :=
  String.eqb binding.(sc_state) "SHADOW_READY" && bool_decide (blockers = ["PR_DISPOSITION_CHANGED"])
  && confirmed_merge p
  && none_or corrects (fun sha => bool_decide (p.(pr_merge_commit_sha) = Some sha)).

Definition merged_payload (c : StoredCase) (number : Z) (correction : bool) (p : PullRequestSnapshot) : Value :=
  json_object [("pull_request_number", Number number); ("head_sha", Str p.(pr_head_sha));
               ("merge_commit_sha", opt_str p.(pr_merge_commit_sha));
               ("corrects_takeover_revision",
                 if correction then Number c.(sc_state_revision) else Null)].

(** One case of the loop: the count of observed cases and the moved ones. *)
Definition takeover_case (policy : RepositoryPolicy) (expected_actor observed_at : Z)
  (acc : Z * list string) (c : StoredCase) : Cycle TakeoverError (Z * list string) :=
  let '(case_count, transitioned) := acc in
  found ← query (takeover_binding c policy expected_actor);
  match found with
  | None => mret acc
  | Some (binding, corrects) =>
      lift (err_if (negb (c.(sc_policy_revision) =? po_revision policy)) TakeoverInvalidCase);;
      number ← lift (ok_or c.(sc_pr_number) TakeoverInvalidCase);
      e ← lift (map_err TakeoverGitHub
        (pull_request (rid_owner (po_repository policy)) (rid_name (po_repository policy))
           (rid_id (po_repository policy)) number));
      lift (validate_repository_identity c policy e.(pe_pull));;
      blockers ← lift (takeover_blockers binding policy expected_actor e.(pe_pull));
      let completed := human_merged binding corrects blockers e.(pe_pull) in
      if (is_some corrects && negb completed) || bool_decide (blockers = [])
      then mret (case_count + 1, transitioned)
      else
        let event := if completed then Ev.HumanMerged else Ev.HumanTookOver in
        command ← lift (takeover_command c policy observed_at event
          (if completed then merged_payload c number (is_some corrects) e.(pe_pull)
           else json_object [("blockers", Array (Str <$> blockers))])
          {| vi_evidence_id := takeover_evidence_id c c.(sc_state_revision);
             vi_kind := if completed then "GITHUB_HUMAN_MERGE" else "GITHUB_TAKEOVER";
             vi_source := "github-pr-" +:+ show number; vi_payload := ser_evidence e |});
        policy ← lift (ok_or (case_policy policy) TakeoverPanic);
        transact (fun s => map_err TakeoverController (LedgerController.apply policy command s));;
        mret (case_count + 1, transitioned ++ [c.(sc_case_key)])
  end.

Definition issue_order (a b : StoredCase) : bool :=
  (a.(sc_issue_number) <? b.(sc_issue_number))
  || ((a.(sc_issue_number) =? b.(sc_issue_number)) && (a.(sc_workflow_version) <=? b.(sc_workflow_version))).
Definition takeover_candidate (scope : RepositoryScope) (c : StoredCase) : bool :=
  scope_matches scope c && is_some c.(sc_pr_number) && negb (one_of ["COMPLETED"; "ABANDONED"] c.(sc_state)).

Definition reconcile_takeover_once (scope : RepositoryScope) (observed_at : Z)
  : Cycle TakeoverError TakeoverCycle :=
  let policy := rs_policy scope in
  expected_actor ← lift (ok_or (gc_automation_actor_id (po_github policy)) MissingAutomationActor);
  report ← query (fun s => map_err TakeoverStore (status observed_at s));
  let cases := order_by issue_order (List.filter (takeover_candidate scope) report.(ls_cases)) in
  '(case_count, transitioned) ← fold_cycle (takeover_case policy expected_actor observed_at) (0, []) cases;
  mret (if case_count =? 0 then TakeoverIdle
        else if bool_decide (transitioned = []) then TakeoverOwned case_count
        else TakeoverTransitioned transitioned).
End takeover.

(** ** What a takeover means *)

(** The pull request is still the one Pip opened and last pushed to. *)
Record owned (policy : RepositoryPolicy) (actor : Z) (c : StoredCase) (p : PullRequestSnapshot) : Prop := {
  own_author : p.(pr_author_id) = actor;
  own_branch : p.(pr_head_branch) = expected_branch policy c;
  own_open : p.(pr_open) = true /\ p.(pr_merged) = false;
  own_draft : p.(pr_draft) = true \/ c.(sc_state) = "SHADOW_READY"%string;
  own_head : c.(sc_state) = "BUILDING"%string \/ c.(sc_state) = "REMEDIATING"%string
             \/ c.(sc_head_sha) = Some p.(pr_head_sha);
}.

Lemma blocker_nil b n l : blocker b n ++ l = [] <-> b = false /\ l = [].
Proof. destruct b; simpl; naive_solver. Qed.
Lemma blocker_singleton b n m l :
  n <> m -> blocker b n ++ l = [m] <-> b = false /\ l = [m].
Proof. intros Hne. destruct b; simpl; naive_solver. Qed.

Lemma building_states st :
  one_of ["BUILDING"; "REMEDIATING"] st = true <-> st = "BUILDING"%string \/ st = "REMEDIATING"%string.
Proof. unfold one_of. rewrite bool_decide_eq_true. set_solver. Qed.

Lemma takeover_blockers_owned c policy actor p l :
  takeover_blockers c policy actor p = Ok l -> l = [] <-> owned policy actor c p.
Proof.
  unfold takeover_blockers. intros Ht. open_ok. subst.
  assert (x = false <-> c.(sc_state) = "BUILDING"%string \/ c.(sc_state) = "REMEDIATING"%string
                        \/ c.(sc_head_sha) = Some p.(pr_head_sha)) as Hx.
  { destruct (one_of _ _) eqn:Hb; open_ok; subst.
    - apply building_states in Hb. naive_solver.
    - rename select (sc_head_sha c = _) into Hh. rewrite Hh, negb_false_iff, String.eqb_eq.
      assert (~ (c.(sc_state) = "BUILDING"%string \/ c.(sc_state) = "REMEDIATING"%string)) as Hn
        by (rewrite <-building_states, Hb; done). naive_solver. }
  rewrite !blocker_nil. destruct x; simpl.
  { split; [by intros (_ & _ & _ & _ & ?)|]. intros []. by apply Hx in own_head0. }
  rewrite !negb_false_iff, Z.eqb_eq, String.eqb_eq, orb_false_iff, negb_false_iff, andb_false_iff, !negb_false_iff, String.eqb_eq.
  split; [intros (? & ? & ? & ? & _); split; naive_solver|intros []; split_and!; naive_solver].
Qed.

Lemma taken_over_state st ctx d : transition st Ev.HumanTookOver ctx = Ok d -> next_state d = State.TakenOver.
Proof. unfold transition. destruct (_ =? 0); [done|]. destruct st; intros Ht; vm_compute in Ht; by simplify_eq. Qed.
Lemma merged_state st ctx d : transition st Ev.HumanMerged ctx = Ok d -> next_state d = State.Completed.
Proof. unfold transition. destruct (_ =? 0); [done|]. destruct st; intros Ht; vm_compute in Ht; by simplify_eq. Qed.

(** Only the disposition changed: it is still the head the case was ready on. *)
Lemma merged_ready_head c policy actor p :
  takeover_blockers c policy actor p = Ok ["PR_DISPOSITION_CHANGED"] -> c.(sc_state) = "SHADOW_READY"%string ->
  c.(sc_head_sha) = Some p.(pr_head_sha).
Proof.
  unfold takeover_blockers. intros Ht Hst. rewrite Hst in Ht.
  replace (one_of ["BUILDING"; "REMEDIATING"] "SHADOW_READY") with false in Ht by (vm_compute; reflexivity).
  open_ok. subst. rename select (sc_head_sha c = _) into Hh. rewrite Hh. f_equal.
  match goal with |- ?h = _ => destruct (String.eqb_spec (pr_head_sha p) h); [done|] end.
  exfalso. unfold blocker in *. simpl in *. repeat case_match; simplify_eq.
Qed.

Section laws.
Context `{Codec} {source : PullRequestSource}.

Lemma legacy_binding c policy actor s prior sha :
  legacy_merged_ready_case c policy actor s = Ok (Some (prior, sha)) ->
  prior.(sc_state) = "SHADOW_READY"%string /\ prior.(sc_head_sha) = c.(sc_head_sha).
Proof.
  unfold legacy_merged_ready_case. intros Hl. repeat (case_match; open_ok; try done); texts; subst; by simplify_eq.
Qed.

(** What a moved case was judged on. *)
Definition judged (scope : RepositoryScope) (actor : Z) (c : StoredCase) (s s' : Store) : Prop :=
  exists number e, c.(sc_pr_number) = Some number
    /\ pull_request (rid_owner (po_repository (rs_policy scope))) (rid_name (po_repository (rs_policy scope)))
         (rid_id (po_repository (rs_policy scope))) number = Ok e
    /\ ((moved c Ev.HumanTookOver s s' /\ ~ owned (rs_policy scope) actor c e.(pe_pull))
        \/ (moved c Ev.HumanMerged s s' /\ confirmed_merge e.(pe_pull) = true
            /\ c.(sc_head_sha) = Some e.(pe_pull).(pr_head_sha))).

Lemma moved_others c ev s s' : moved c ev s s' -> forall k, k <> c.(sc_case_key) -> query_case s' k = query_case s k.
Proof. by intros (? & ? & ? & ? & _ & _ & _ & _ & _ & _ & _ & _ & ?). Qed.
Lemma moved_state c ev s s' :
  moved c ev s s' -> exists st ctx d c', transition st ev ctx = Ok d
    /\ query_case s' c.(sc_case_key) = Some c' /\ c'.(sc_state) = CaseState_to_string (next_state d).
Proof. intros (st & ctx & d & c' & _ & ? & ? & ? & _). by exists st, ctx, d, c'. Qed.

Lemma takeover_command_inv c policy now ev p evd w :
  takeover_command c policy now ev p evd = Ok w ->
  case_key w.(wc_case_id) = c.(sc_case_key)
  /\ case_command c c.(sc_state_revision) (takeover_event_id c) ev p now [evd] = Some w.
Proof.
  unfold takeover_command. intros Hw. open_ok. texts. rename select (EventId_from_str _ = _) into Hid.
  apply textual_id_ok in Hid as ->. rename select (case_command _ _ _ _ _ _ _ = _) into Hc.
  pose proof (case_command_inv _ _ _ _ _ _ _ _ Hc) as (Hcid & _). split; [congruence|done].
Qed.

Lemma takeover_case_touches scope actor now acc c w r w' :
  0 <= now -> query_case (w_store w) c.(sc_case_key) = Some c ->
  takeover_case (rs_policy scope) actor now acc c w = (r, w') ->
  touches (judged scope actor) c (w_store w) (w_store w').
Proof.
  intros Hnow Hq. unfold takeover_case. intros Hr. destruct acc as [n l]. run Hr; simplify_eq; try by left.
  open_ok. rename select (LedgerController.apply _ _ _ = _) into Ha.
  rename select (takeover_command _ _ _ _ _ _ = _) into Hc. apply takeover_command_inv in Hc as [Hkey Hc].
  rename select (takeover_blockers _ _ _ _ = _) into Hb. rename select (takeover_binding _ _ _ _ = _) into Hbd.
  change (w_store (with_store ?s w)) with s. rename select (_ || _ = false) into Hgo.
  pose proof (fun He => command_outcome _ _ _ _ _ _ _ _ _ _ _ Hq Hkey Hnow He Hc Ha) as Ho.
  destruct Ho as [[_ Hm]|[_ ->]]; [by case_match| |by left].
  right. split; [|exact (moved_others _ _ _ _ Hm)].
  eexists _, _. split_and!; [done|done|]. apply orb_false_iff in Hgo as [Hgo Hne]. apply bool_decide_eq_false in Hne.
  destruct (human_merged _ _ _ _) eqn:Hhm; [right|left]; (split; [exact Hm|]).
  - unfold human_merged in Hhm. texts. subst. split; [done|].
    pose proof (merged_ready_head _ _ _ _ Hb ltac:(done)) as Hh. unfold takeover_binding in Hbd.
    destruct (String.eqb _ "TAKEN_OVER"); open_ok; [|by simplify_eq].
    repeat case_match; simplify_eq. rename select (legacy_merged_ready_case _ _ _ _ = _) into Hl.
    apply legacy_binding in Hl as [_ <-]. done.
  - destruct o; [done|]. unfold takeover_binding in Hbd.
    destruct (String.eqb _ "TAKEN_OVER"); open_ok; [by repeat case_match; simplify_eq|]. simplify_eq.
    intros Ho. by apply Hne, (takeover_blockers_owned _ _ _ _ _ Hb).
Qed.

(** C29: Only a foreign pull request is given up.  Whatever a takeover cycle
    answers, a case of the ledger that it changed was in its scope with an open
    pull request, and either became [TAKEN_OVER] because GitHub shows that pull request
    not to be Pip's own any more, or became [COMPLETED] because a human merged exactly
    the head the case was ready on. *)
Theorem takeover_moves_only_foreign (scope : RepositoryScope) (now : Z) (w w' : World)
  (r : result TakeoverError TakeoverCycle) (key : string) (c c' : StoredCase)
  (Hreach : system_reachable (w_store w)) (Hnow : 0 <= now)
  (Hrun : reconcile_takeover_once scope now w = (r, w'))
  (Hc : query_case (w_store w) key = Some c) (Hc' : query_case (w_store w') key = Some c') (Hne : c' <> c) :
  takeover_candidate scope c = true /\ exists actor number e,
    gc_automation_actor_id (po_github (rs_policy scope)) = Some actor /\ c.(sc_pr_number) = Some number
    /\ pull_request (rid_owner (po_repository (rs_policy scope))) (rid_name (po_repository (rs_policy scope)))
         (rid_id (po_repository (rs_policy scope))) number = Ok e
    /\ ((c'.(sc_state) = "TAKEN_OVER"%string /\ ~ owned (rs_policy scope) actor c e.(pe_pull))
        \/ (c'.(sc_state) = "COMPLETED"%string /\ confirmed_merge e.(pe_pull) = true
            /\ c.(sc_head_sha) = Some e.(pe_pull).(pr_head_sha))).
Proof.
  unfold reconcile_takeover_once in Hrun. run Hrun; simplify_eq; try by congruence. open_ok.
  rename select (status _ _ = _) into Hst.
  destruct (report_selection _ _ _ issue_order (takeover_candidate scope) Hst (proj1 (system_history _ Hreach))) as [Hnd Hsel].
  unfold mbind, cycle_bind in Hrun. destruct (fold_cycle _ _ _ w) as [r1 w1] eqn:Hfold.
  assert (w_store w1 = w_store w') as Hw' by (destruct r1 as [[]|]; by injection Hrun as _ <-).
  rewrite <-Hw' in Hc'.
  pose proof (fun Ht Hq => fold_touches (judged scope a) _ _ Ht Hnd _ _ _ _ Hq Hfold key) as Hft.
  destruct Hft as [Hk|(c1 & s1 & s2 & Hin & <- & Hq1 & Hj & Hq2)].
  { intros acc x v rr v' _ Hq Hr. by eapply takeover_case_touches. }
  { intros x Hx. by apply Hsel. }
  { rewrite Hk in Hc'. congruence. }
  apply Hsel in Hin as [Hcand Hqc]. rewrite Hqc in Hc. injection Hc as <-. split; [done|].
  destruct Hj as (number & e & Hn & He & Hj). exists a, number, e. split_and!; [done..|].
  rewrite Hc' in Hq2. destruct Hj as [[Hm Ho]|(Hm & Hcm & Hh)]; [left|right];
    apply moved_state in Hm as (st & ctx & d & c2 & Ht & Hq3 & Hs); rewrite Hq3 in Hq2; injection Hq2 as ->.
  - apply taken_over_state in Ht. by rewrite Ht in Hs.
  - apply merged_state in Ht. by rewrite Ht in Hs.
Qed.

(** The takeover cycle is made of steps of the system. *)
Lemma takeover_sound scope now : 0 <= now -> Sound (reconcile_takeover_once scope now).
Proof.
  intros Hnow. unfold reconcile_takeover_once. sound. open_ok.
  rename select (status _ _ = _) into Hst. rename select (_ ∈ order_by _ _) into Hin.
  pose proof (report_ranges _ _ _ _ _ _ Hst Hin) as Hrng. unfold takeover_case. sound.
  rename select (takeover_command _ _ _ _ _ _ = _) into Hc. apply takeover_command_inv in Hc as [_ Hc].
  apply sound_command. eapply case_command_floor; [done|apply Hrng|done| |exact Hc]. by case_match.
Qed.
End laws.

(** ** A pull request on a foreign branch *)

Definition demo_world (s : Store) : World :=
  {| w_db := {| ledger := s; conversation_rows := [] |}; w_log := [] |}.
Definition demo_taken : World :=
  (reconcile_takeover_once (H := demo_codec) (source := demo_source) demo_scope 200 (demo_world demo_waiting)).2.
Definition state_in (w : World) : option string := sc_state <$> query_case (w_store w) demo_case_key.

Lemma takeover_moves_only_foreign_witness :
  exists c c', query_case demo_waiting demo_case_key = Some c /\ query_case (w_store demo_taken) demo_case_key = Some c'
    /\ c'.(sc_state) = "TAKEN_OVER"%string /\ takeover_candidate demo_scope c = true.
Proof.
  assert (state_in (demo_world demo_waiting) = Some "WAITING_CI"%string) as Hs by (vm_compute; reflexivity).
  assert (state_in demo_taken = Some "TAKEN_OVER"%string) as Hs' by (vm_compute; reflexivity).
  apply fmap_Some in Hs as (c & Hc & Hst), Hs' as (c' & Hc' & Hst').
  assert (c' <> c) as Hne by (intros ->; rewrite <-Hst in Hst'; discriminate Hst').
  destruct (reconcile_takeover_once (H := demo_codec) (source := demo_source) demo_scope 200 (demo_world demo_waiting))
    as [r w'] eqn:Hrun.
  assert (w' = demo_taken) as -> by (unfold demo_taken; by rewrite Hrun).
  destruct (takeover_moves_only_foreign (H := demo_codec) (source := demo_source) demo_scope 200
              (demo_world demo_waiting) demo_taken r demo_case_key c c') as [Hcand _]; [|lia|exact Hrun|exact Hc|exact Hc'|exact Hne|].
  - apply demo_run_reachable. vm_compute. reflexivity.
  - exists c, c'. by split_and!.
Defined.
