(* ===== verification/Authorization.v ===== *)
(** * Authorization: the label of a trusted human

    crates/pip-control/src/authorization.rs.  Before a case is worked on, its
    issue is read again: it must be open, carry the label, and the label must
    last have been set by a trusted actor.  A withdrawn authorization abandons the
    case; missing evidence neither permits nor revokes. *)

From S2P Require Import Prelude Text Parse Json Domain StateMachine Revision Sql Tables Inputs StoreCore.
From S2P Require Import Status Control History Frames Steps Invariants Conversations.
From S2P Require Import Ledger System Ingest Policy PolicyLaws Commands Cycles Bounds GitHub Ci World Takeover.
From stdpp Require Import relations.
Open Scope Z_scope.

Record AuthorizationBlock := {
  ab_case_key : string; ab_blockers : list string; ab_revoked : bool; ab_error : option string;
}.
Inductive ActiveAuthorization :=
| Authorized (case_count : Z)
| AuthorizationBlocked (cases : list AuthorizationBlock).
Definition is_authorized (a : ActiveAuthorization) : bool :=
  match a with Authorized _ => true | AuthorizationBlocked _ => false end.
Definition has_errors (a : ActiveAuthorization) : bool :=
  match a with Authorized _ => false | AuthorizationBlocked l => existsb (fun b => is_some b.(ab_error)) l end.

Inductive AuthorizationError :=
| AuthorizationStore (e : StoreError)
| AuthorizationController (e : ControllerError)
| AuthorizationInvalidCase
| AuthorizationPanic.

(** ** The latest label event *)

(** [(created_at, id)] of [a] is at most that of [b]. *)
Definition label_leb (a b : LabelEvent) : bool :=
  match String.compare a.(le_created_at) b.(le_created_at) with
  | Lt => true | Eq => a.(le_id) <=? b.(le_id) | Gt => false
  end.
(** [max_by_key]: the last of the greatest. *)
Definition max_by {A} (leb : A -> A -> bool) (l : list A) : option A :=
  foldl (fun best a => match best with
                       | None => Some a
                       | Some b => if leb b a then Some a else Some b
                       end) None l.
Definition latest_label (policy : RepositoryPolicy) (events : list LabelEvent) : option LabelEvent :=
  max_by label_leb (List.filter (fun e => String.eqb e.(le_label) (ic_label (po_intake policy))) events).

(** ** Blockers *)

Definition repository_matches (policy : RepositoryPolicy) (r : RepositorySnapshot) : bool :=
  (r.(rp_id) =? rid_id (po_repository policy)) && String.eqb r.(rp_full_name) (full_name (po_repository policy))
  && String.eqb r.(rp_default_branch) (rid_default_branch (po_repository policy)).

Definition label_blockers (policy : RepositoryPolicy) (e : IntakeSnapshot) : list string :=
  match latest_label policy e.(in_label_events) with
  | None => ["AUTHORIZATION_EVENT_MISSING"]
  | Some event =>
      if negb event.(le_labeled) then ["LATEST_AUTHORIZATION_REMOVED"]
      else blocker (negb (bool_decide (event.(le_actor_id) ∈ ic_trusted_actor_ids (po_intake policy))))
             "UNTRUSTED_LABEL_ACTOR"
  end.

Definition authorization_blockers (policy : RepositoryPolicy) (c : StoredCase) (e : IntakeSnapshot) : list string :=
  blocker (negb (c.(sc_policy_revision) =? po_revision policy)) "POLICY_REVISION_MISMATCH"
  ++ blocker (negb (repository_matches policy e.(in_repository))) "REPOSITORY_IDENTITY_MISMATCH"
  ++ blocker (negb (e.(in_issue).(is_number) =? c.(sc_issue_number))) "ISSUE_IDENTITY_MISMATCH"
  ++ blocker (negb e.(in_issue).(is_open)) "ISSUE_CLOSED"
  ++ blocker e.(in_issue).(is_pull) "ISSUE_BECAME_PULL_REQUEST"
  ++ blocker (assigned_to_other e.(in_issue) (gc_automation_actor_id (po_github policy))) "ASSIGNED_TO_OTHER"
  ++ blocker (bool_decide (c.(sc_issue_number) ∈ ic_excluded_issue_numbers (po_intake policy))) "ISSUE_EXCLUDED"
  ++ blocker (negb (bool_decide (ic_label (po_intake policy) ∈ e.(in_issue).(is_labels)))) "REQUIRED_LABEL_MISSING"
  ++ label_blockers policy e.

Definition structural : list string :=
  ["POLICY_REVISION_MISMATCH"; "REPOSITORY_IDENTITY_MISMATCH"; "ISSUE_IDENTITY_MISMATCH";
   "ISSUE_BECAME_PULL_REQUEST"; "AUTHORIZATION_EVENT_MISSING"].
Definition withdrawn : list string :=
  ["ISSUE_CLOSED"; "ISSUE_EXCLUDED"; "REQUIRED_LABEL_MISSING"; "LATEST_AUTHORIZATION_REMOVED";
   "UNTRUSTED_LABEL_ACTOR"].
Definition revocation_is_authoritative (blockers : list string) : bool :=
  negb (existsb (one_of structural) blockers) && existsb (one_of withdrawn) blockers.

(** ** Commands *)

Definition revocation_suffix (c : StoredCase) : string :=
  "authorization-revoked-repo" +:+ show c.(sc_repository_id) +:+ "-issue" +:+ show c.(sc_issue_number)
  +:+ "-workflow" +:+ show c.(sc_workflow_version) +:+ "-revision" +:+ show c.(sc_state_revision).

Definition revocation_command (c : StoredCase) (policy : RepositoryPolicy) (observed_at : Z)
  (blockers : list string) (evidence : EvidenceInput) : result AuthorizationError WorkflowCommand :=
  id ← ok_or (case_id_of c) AuthorizationInvalidCase;
  err_if (negb (String.eqb (case_key id) c.(sc_case_key))
          || negb (c.(sc_policy_revision) =? po_revision policy)) AuthorizationInvalidCase;;
  event_id ← map_err (fun _ => AuthorizationInvalidCase) (EventId_from_str ("event-" +:+ revocation_suffix c));
  ok_or (case_command c c.(sc_state_revision) event_id Ev.AuthorizationRemoved
           (json_object [("blockers", Array (Str <$> blockers))]) observed_at [evidence])
    AuthorizationInvalidCase.

(** ** The gate *)

Section authorization.
Context `{Codec} {source : IntakeSource}.

Definition authorization_candidate (scope : RepositoryScope) (c : StoredCase) : bool :=
  scope_matches scope c && negb (one_of ["COMPLETED"; "ABANDONED"; "TAKEN_OVER"] c.(sc_state)).
Definition active_cases (scope : RepositoryScope) (s : Store) : result AuthorizationError (list StoredCase) :=
  report ← map_err AuthorizationStore (status 0 s);
  Ok (order_by issue_order (List.filter (authorization_candidate scope) report.(ls_cases))).

Definition observe_case (policy : RepositoryPolicy)
  (record_revocation : StoredCase -> IntakeSnapshot -> list string -> Cycle AuthorizationError bool)
  (blocked : list AuthorizationBlock) (c : StoredCase) : Cycle AuthorizationError (list AuthorizationBlock) :=
  match intake (rid_owner (po_repository policy)) (rid_name (po_repository policy)) c.(sc_issue_number) with
  | Err error =>
      mret (blocked ++ [{| ab_case_key := c.(sc_case_key); ab_blockers := ["EVIDENCE_UNAVAILABLE"];
                           ab_revoked := false; ab_error := Some (github_error_text error) |}])
  | Ok e =>
      let blockers := authorization_blockers policy c e in
      if bool_decide (blockers = []) then mret blocked
      else
        revoked ← record_revocation c e blockers;
        mret (blocked ++ [{| ab_case_key := c.(sc_case_key); ab_blockers := blockers;
                             ab_revoked := revoked; ab_error := None |}])
  end.

Definition observe_authorization (policy : RepositoryPolicy) (cases : list StoredCase)
  (record_revocation : StoredCase -> IntakeSnapshot -> list string -> Cycle AuthorizationError bool)
  : Cycle AuthorizationError ActiveAuthorization :=
  blocked ← fold_cycle (observe_case policy record_revocation) [] cases;
  mret (if bool_decide (length blocked = 0%nat) then Authorized (Z.of_nat (length cases))
        else AuthorizationBlocked blocked).

Definition verify_active_authorization (scope : RepositoryScope) : Cycle AuthorizationError ActiveAuthorization :=
  cases ← query (active_cases scope);
  observe_authorization (rs_policy scope) cases (fun _ _ _ => mret false).

Definition record_revocation (policy : RepositoryPolicy) (observed_at : Z) (c : StoredCase) (e : IntakeSnapshot)
  (blockers : list string) : Cycle AuthorizationError bool :=
  if negb (c.(sc_policy_revision) =? po_revision policy) || negb (revocation_is_authoritative blockers)
  then mret false
  else
    command ← lift (revocation_command c policy observed_at blockers
      {| vi_evidence_id := "evidence-" +:+ revocation_suffix c; vi_kind := "GITHUB_AUTHORIZATION";
         vi_source := "github-issue-" +:+ show c.(sc_issue_number); vi_payload := ser_intake_snapshot e |});
    policy ← lift (ok_or (case_policy policy) AuthorizationPanic);
    transact (fun s => map_err AuthorizationController (LedgerController.apply policy command s));;
    mret true.

Definition reconcile_active_authorization (scope : RepositoryScope) (observed_at : Z)
  : Cycle AuthorizationError ActiveAuthorization :=
  cases ← query (active_cases scope);
  observe_authorization (rs_policy scope) cases (record_revocation (rs_policy scope) observed_at).
End authorization.

(** ** The latest event is the greatest *)

Lemma max_by_app {A} (leb : A -> A -> bool) l a :
  max_by leb (l ++ [a]) = match max_by leb l with
                          | None => Some a
                          | Some b => if leb b a then Some a else Some b
                          end.
Proof. unfold max_by. by rewrite foldl_app. Qed.

Lemma max_by_greatest {A} (leb : A -> A -> bool) l :
  (forall a b c, leb a b = true -> leb b c = true -> leb a c = true) ->
  (forall a b, leb a b = true \/ leb b a = true) ->
  match max_by leb l with
  | None => l = []
  | Some m => m ∈ l /\ forall a, a ∈ l -> leb a m = true
  end.
Proof.
  intros Htr Htot. assert (forall a, leb a a = true) as Hrefl by (intros a; by destruct (Htot a a)).
  induction l as [|a l IH] using rev_ind; [done|]. rewrite max_by_app.
  destruct (max_by leb l) as [m|]; [destruct IH as [Hm Hall]; destruct (leb m a) eqn:Hle|subst].
  - split; [set_solver|]. intros b [Hb| ->%list_elem_of_singleton]%elem_of_app; [|done]. eauto.
  - split; [set_solver|]. intros b [Hb| ->%list_elem_of_singleton]%elem_of_app; [eauto|].
    destruct (Htot m a); [congruence|done].
  - split; [set_solver|]. intros b [Hb%elem_of_nil| ->%list_elem_of_singleton]%elem_of_app; done.
Qed.

Lemma label_leb_total a b : label_leb a b = true \/ label_leb b a = true.
Proof.
  unfold label_leb. rewrite (compare_flip (le_created_at a) (le_created_at b)).
  destruct (String.compare (le_created_at a) (le_created_at b)); simpl; [lia|auto..].
Qed.
Lemma label_leb_trans a b c : label_leb a b = true -> label_leb b c = true -> label_leb a c = true.
Proof.
  unfold label_leb. intros Hab Hbc.
  destruct (String.compare (le_created_at a) (le_created_at b)) eqn:H1; [|clear Hab|done];
    destruct (String.compare (le_created_at b) (le_created_at c)) eqn:H2; try done;
    repeat match goal with H : String.compare _ _ = Eq |- _ => apply String.compare_eq_iff in H end.
  - rewrite H1, H2, string_compare_refl. lia.
  - by rewrite H1, H2.
  - by rewrite <-H2, H1.
  - by rewrite (compare_lt_trans _ _ _ H1 H2).
Qed.

(** The newest event of the intake label. *)
Definition newest_label (policy : RepositoryPolicy) (l : list LabelEvent) (e : LabelEvent) : Prop :=
  e ∈ l /\ e.(le_label) = ic_label (po_intake policy)
  /\ forall e', e' ∈ l -> e'.(le_label) = ic_label (po_intake policy) -> label_leb e' e = true.

Lemma latest_label_newest policy l e : latest_label policy l = Some e -> newest_label policy l e.
Proof.
  unfold latest_label. intros Hm. pose proof (max_by_greatest label_leb (List.filter (fun e => String.eqb e.(le_label) (ic_label (po_intake policy))) l) label_leb_trans label_leb_total) as Hg.
  rewrite Hm in Hg. destruct Hg as [Hin Hall]. apply list_elem_of_In, filter_In in Hin as [Hin He].
  apply String.eqb_eq in He. apply list_elem_of_In in Hin. split_and!; [done..|]. intros e' Hin' He'.
  apply Hall, list_elem_of_In, filter_In. split; [by apply list_elem_of_In|by apply String.eqb_eq].
Qed.

(** ** What authorization means *)

Record authorized (policy : RepositoryPolicy) (c : StoredCase) (e : IntakeSnapshot) : Prop := {
  au_policy : c.(sc_policy_revision) = po_revision policy;
  au_repository : repository_matches policy e.(in_repository) = true;
  au_issue : e.(in_issue).(is_number) = c.(sc_issue_number) /\ e.(in_issue).(is_open) = true
             /\ e.(in_issue).(is_pull) = false;
  au_unassigned : forall id, id ∈ e.(in_issue).(is_assignee_ids) ->
    Some id = gc_automation_actor_id (po_github policy);
  au_included : c.(sc_issue_number) ∉ ic_excluded_issue_numbers (po_intake policy);
  au_label : ic_label (po_intake policy) ∈ e.(in_issue).(is_labels);
  au_trusted : exists event, newest_label policy e.(in_label_events) event /\ event.(le_labeled) = true
    /\ event.(le_actor_id) ∈ ic_trusted_actor_ids (po_intake policy);
}.

Lemma blocker_elem b n l a : a ∈ blocker b n ++ l <-> (b = true /\ a = n) \/ a ∈ l.
Proof. destruct b; simpl; set_solver. Qed.

Lemma no_blockers_authorized policy c e : authorization_blockers policy c e = [] -> authorized policy c e.
Proof.
  unfold authorization_blockers. rewrite !blocker_nil. intros (Hp & Hr & Hn & Ho & Hpl & Has & Hx & Hl & Hev).
  texts. split; auto.
  - intros id Hid. unfold assigned_to_other in Has. rewrite existsb_false in Has.
    specialize (Has id). rewrite elem_of_elements in Has. specialize (Has Hid). by bools.
  - unfold label_blockers in Hev. destruct (latest_label _ _) as [ev|] eqn:Hlt; [|done].
    exists ev. split; [by apply latest_label_newest|]. destruct (le_labeled ev); [|done].
    split; [done|]. simpl in Hev. case_bool_decide; done.
Qed.

(** Only a withdrawal that leaves the identity of the issue intact revokes. *)
Lemma authoritative_withdrawn policy c e :
  revocation_is_authoritative (authorization_blockers policy c e) = true ->
  repository_matches policy e.(in_repository) = true /\ e.(in_issue).(is_number) = c.(sc_issue_number)
  /\ (e.(in_issue).(is_open) = false \/ c.(sc_issue_number) ∈ ic_excluded_issue_numbers (po_intake policy)
      \/ ic_label (po_intake policy) ∉ e.(in_issue).(is_labels)
      \/ exists event, newest_label policy e.(in_label_events) event
           /\ (event.(le_labeled) = false \/ event.(le_actor_id) ∉ ic_trusted_actor_ids (po_intake policy))).
Proof.
  unfold revocation_is_authoritative. intros Hr. apply andb_true_iff in Hr as [Hs Hw].
  apply negb_true_iff in Hs. rewrite existsb_false in Hs.
  unfold authorization_blockers in *.
  split_and!.
  - destruct (repository_matches _ _) eqn:Hm; [done|]. exfalso.
    pose proof (Hs "REPOSITORY_IDENTITY_MISMATCH"%string) as Hf. rewrite !blocker_elem in Hf. specialize (Hf ltac:(auto)).
    done.
  - destruct (Z.eqb_spec (is_number (in_issue e)) (sc_issue_number c)) as [|Hn]; [done|]. exfalso.
    pose proof (Hs "ISSUE_IDENTITY_MISMATCH"%string) as Hf. rewrite !blocker_elem in Hf.
    specialize (Hf ltac:(do 2 right; left; done)). done.
  - apply existsb_exists in Hw as (a & Hin & Ha). apply list_elem_of_In in Hin.
    rewrite !blocker_elem in Hin.
    destruct Hin as [[_ ->]|[[_ ->]|[[_ ->]|[[Ho ->]|[[_ ->]|[[_ ->]|[[Hx ->]|[[Hl ->]|Hev]]]]]]]];
      try (vm_compute in Ha; discriminate Ha); bools; auto.
    right. right. right. unfold label_blockers in Hev. destruct (latest_label _ _) as [ev|] eqn:Hlt.
    + exists ev. split; [by apply latest_label_newest|]. destruct (le_labeled ev); [right|by left]. simpl in Hev.
      case_bool_decide; [by apply elem_of_nil in Hev|done].
    + apply list_elem_of_singleton in Hev as ->. vm_compute in Ha. discriminate Ha.
Qed.

Section laws.
Context `{Codec} {source : IntakeSource}.

(** The snapshot the source gives for the issue of a case. *)
Definition observed (policy : RepositoryPolicy) (c : StoredCase) : result GitHubError IntakeSnapshot :=
  intake (rid_owner (po_repository policy)) (rid_name (po_repository policy)) c.(sc_issue_number).

Lemma observe_fold policy record l : forall blocked w r w',
  fold_cycle (observe_case policy record) blocked l w = (Ok r, w') ->
  (length blocked <= length r)%nat
  /\ (length r = 0%nat -> forall c, c ∈ l -> exists e, observed policy c = Ok e /\ authorization_blockers policy c e = []).
Proof.
  induction l as [|c l IH]; intros blocked w r w' Hf; simpl in Hf.
  { injection Hf as <- <-. split; [done|]. intros _ c Hc. by apply elem_of_nil in Hc. }
  unfold mbind, cycle_bind at 1 in Hf. destruct (observe_case policy record blocked c w) as [[b|] w1] eqn:Hc; [|done].
  destruct (IH _ _ _ _ Hf) as [Hle Hall]. unfold observe_case in Hc.
  unfold observed in *. destruct (intake _ _ _) as [e|] eqn:He.
  - destruct (bool_decide (authorization_blockers policy c e = [])) eqn:Hb.
    + injection Hc as <- <-. split; [done|]. intros Hz c' [->|Hin]%elem_of_cons; [|by apply Hall].
      exists e. split; [done|]. by apply bool_decide_eq_true in Hb.
    + unfold mbind, cycle_bind in Hc. destruct (record c e _ w) as [[rv|] w2]; [|done]. injection Hc as <- <-.
      rewrite length_app in Hle. simpl in Hle. split; lia.
  - injection Hc as <- <-. rewrite length_app in Hle. simpl in Hle. split; lia.
Qed.

(** Without revocation the gate only reads. *)
Lemma observe_reads policy l : forall blocked w r w',
  fold_cycle (observe_case policy (fun _ _ _ => mret false)) blocked l w = (r, w') -> w' = w.
Proof.
  induction l as [|c l IH]; intros blocked w r w' Hf; simpl in Hf; [by injection Hf as <- <-|].
  unfold mbind, cycle_bind at 1, observe_case in Hf.
  destruct (intake _ _ _); [case_bool_decide|]; by apply IH in Hf.
Qed.

(** A verified case carries the label of a trusted human.  When the gate reports
    [Authorized], the ledger is unchanged, and for every live case of the scope GitHub shows the
    issue of that case, open, labelled, assigned to nobody else, not excluded, with a newest label
    event that a trusted actor made, under the policy the case accepted. *)
Theorem verified_cases_are_authorized (scope : RepositoryScope) (w w' : World) (n : Z) (c : StoredCase)
  (Hreach : system_reachable (w_store w)) (Hrun : verify_active_authorization scope w = (Ok (Authorized n), w'))
  (Hc : query_case (w_store w) c.(sc_case_key) = Some c) (Hlive : authorization_candidate scope c = true) :
  w' = w /\ exists e, observed (rs_policy scope) c = Ok e /\ authorized (rs_policy scope) c e.
Proof.
  unfold verify_active_authorization in Hrun. rewrite query_run in Hrun.
  destruct (active_cases scope (w_store w)) as [l|] eqn:Hact; [|done].
  unfold observe_authorization, mbind, cycle_bind in Hrun.
  destruct (fold_cycle _ _ _ w) as [[blocked|] w1] eqn:Hf; [|done].
  assert (w1 = w) as -> by (by eapply observe_reads).
  unfold mret, cycle_ret in Hrun. injection Hrun as Hr <-. split; [done|].
  destruct (observe_fold _ _ _ _ _ _ _ Hf) as [_ Hall]. case_bool_decide as Hz; [|done].
  destruct (Hall Hz c) as (e & He & Hb); [|exists e; split; [done|by apply no_blockers_authorized]].
  unfold active_cases in Hact. open_ok. subst. rename select (status _ _ = _) into Hst.
  by apply (report_selection _ _ _ issue_order (authorization_candidate scope) Hst (proj1 (system_history _ Hreach))).
Qed.

(** ** Revocation *)

Lemma revocation_command_inv c policy now bl evd w :
  revocation_command c policy now bl evd = Ok w ->
  case_key w.(wc_case_id) = c.(sc_case_key) /\ exists p,
  case_command c c.(sc_state_revision) ("event-" +:+ revocation_suffix c) Ev.AuthorizationRemoved p now [evd] = Some w.
Proof.
  unfold revocation_command. intros Hw. open_ok. texts. rename select (EventId_from_str _ = _) into Hid.
  apply textual_id_ok in Hid as ->. rename select (case_command _ _ _ _ _ _ _ = _) into Hc.
  pose proof (case_command_inv _ _ _ _ _ _ _ _ Hc) as (Hcid & _). split; [congruence|eauto].
Qed.

Definition revoked_on (policy : RepositoryPolicy) (c : StoredCase) (s s' : Store) : Prop :=
  moved c Ev.AuthorizationRemoved s s' /\ c.(sc_policy_revision) = po_revision policy
  /\ exists e, observed policy c = Ok e
       /\ revocation_is_authoritative (authorization_blockers policy c e) = true.

Lemma revocation_touches policy now blocked c w r w' :
  0 <= now -> query_case (w_store w) c.(sc_case_key) = Some c ->
  observe_case policy (record_revocation policy now) blocked c w = (r, w') ->
  touches (revoked_on policy) c (w_store w) (w_store w').
Proof.
  intros Hnow Hq. unfold observe_case. intros Hr. unfold observed in *.
  destruct (intake _ _ _) as [e|] eqn:He; [|injection Hr as <- <-; by left].
  case_bool_decide; [injection Hr as <- <-; by left|]. unfold mbind, cycle_bind in Hr.
  destruct (record_revocation _ _ _ _ _ w) as [r1 w1] eqn:Hrec.
  assert (w_store w1 = w_store w') as <- by (destruct r1; by injection Hr as _ <-). clear Hr.
  unfold record_revocation in Hrec. destruct (_ || _) eqn:Hg; [injection Hrec as <- <-; by left|].
  run Hrec; simplify_eq; try by left. open_ok. bools.
  rename select (revocation_command _ _ _ _ _ = _) into Hc. apply revocation_command_inv in Hc as (Hkey & p & Hc).
  rename select (LedgerController.apply _ _ _ = _) into Ha. change (w_store (with_store ?s w)) with s.
  pose proof (fun He => command_outcome _ _ _ _ _ _ _ _ _ _ _ Hq Hkey Hnow He Hc Ha) as Ho.
  destruct Ho as [[_ Hm]|[_ ->]]; [done| |by left].
  right. split; [|exact (moved_others _ _ _ _ Hm)]. split_and!; [done..|]. unfold observed. rewrite He. eauto.
Qed.

Lemma abandoned_state st ctx d :
  transition st Ev.AuthorizationRemoved ctx = Ok d -> next_state d = State.Abandoned.
Proof. unfold transition. destruct (_ =? 0); [done|]. destruct st; intros Ht; vm_compute in Ht; by simplify_eq. Qed.

(** C28: Only a withdrawn authorization abandons a case.  Whatever the gate answers,
    a case of the ledger that it changed was live in the scope and became [ABANDONED], and GitHub shows
    the same issue of the same repository closed, excluded, without the label, or with a
    newest label event that removed it or that an untrusted actor made.  Missing or structurally
    different evidence changes nothing. *)
Theorem revocation_needs_withdrawal (scope : RepositoryScope) (now : Z) (w w' : World)
  (r : result AuthorizationError ActiveAuthorization) (key : string) (c c' : StoredCase)
  (Hreach : system_reachable (w_store w)) (Hnow : 0 <= now)
  (Hrun : reconcile_active_authorization scope now w = (r, w'))
  (Hc : query_case (w_store w) key = Some c) (Hc' : query_case (w_store w') key = Some c') (Hne : c' <> c) :
  authorization_candidate scope c = true /\ c'.(sc_state) = "ABANDONED"%string
  /\ exists e, observed (rs_policy scope) c = Ok e /\ repository_matches (rs_policy scope) e.(in_repository) = true
    /\ e.(in_issue).(is_number) = c.(sc_issue_number)
    /\ (e.(in_issue).(is_open) = false
        \/ c.(sc_issue_number) ∈ ic_excluded_issue_numbers (po_intake (rs_policy scope))
        \/ ic_label (po_intake (rs_policy scope)) ∉ e.(in_issue).(is_labels)
        \/ exists event, newest_label (rs_policy scope) e.(in_label_events) event
             /\ (event.(le_labeled) = false
                 \/ event.(le_actor_id) ∉ ic_trusted_actor_ids (po_intake (rs_policy scope)))).
Proof.
  unfold reconcile_active_authorization in Hrun. rewrite query_run in Hrun.
  destruct (active_cases scope (w_store w)) as [l|] eqn:Hact; [|simplify_eq; congruence].
  unfold active_cases in Hact. open_ok. rename select (status _ _ = _) into Hst.
  destruct (report_selection _ _ _ issue_order (authorization_candidate scope) Hst (proj1 (system_history _ Hreach)))
    as [Hnd Hsel]. subst.
  unfold observe_authorization, mbind, cycle_bind in Hrun. destruct (fold_cycle _ _ _ w) as [r1 w1] eqn:Hfold.
  assert (w_store w1 = w_store w') as Hw' by (destruct r1; by injection Hrun as _ <-). rewrite <-Hw' in Hc'.
  pose proof (fun Ht Hq => fold_touches (revoked_on (rs_policy scope)) _ _ Ht Hnd _ _ _ _ Hq Hfold key) as Hft.
  destruct Hft as [Hk|(c1 & s1 & s2 & Hin & <- & Hq1 & Hj & Hq2)].
  { intros acc y v rr v' _ Hq Hr. by eapply revocation_touches. }
  { intros y Hy. by apply Hsel. }
  { rewrite Hk in Hc'. congruence. }
  apply Hsel in Hin as [Hcand Hqc]. rewrite Hqc in Hc. injection Hc as <-. split; [done|].
  destruct Hj as (Hm & _ & e & He & Hauth). apply moved_state in Hm as (st & ctx & d & c2 & Ht & Hq3 & Hs).
  rewrite Hc', Hq3 in Hq2. injection Hq2 as ->. apply abandoned_state in Ht. rewrite Ht in Hs.
  split; [done|]. exists e. split; [done|]. by apply authoritative_withdrawn.
Qed.

Lemma authorization_sound scope now : 0 <= now -> Sound (reconcile_active_authorization scope now).
Proof.
  intros Hnow. unfold reconcile_active_authorization, observe_authorization. sound.
  unfold active_cases in *. open_ok. subst. rename select (status _ _ = _) into Hst.
  rename select (_ ∈ order_by _ _) into Hin. pose proof (report_ranges _ _ _ _ _ _ Hst Hin) as Hrng.
  unfold observe_case, record_revocation. sound.
  rename select (revocation_command _ _ _ _ _ = _) into Hc. apply revocation_command_inv in Hc as (_ & p & Hc).
  apply sound_command. by eapply case_command_floor; [done|apply Hrng|done| |exact Hc].
Qed.
End laws.

(** ** An authorized issue, and the same issue closed *)

Definition demo_issue (is_open : bool) : IssueSnapshot :=
  {| is_id := 5; is_number := 2; is_open := is_open; is_pull := false; is_labels := {[ "pip"%string ]};
     is_assignee_ids := {[ 1 ]} |}.
Definition demo_intake (is_open : bool) : IntakeSnapshot :=
  {| in_repository := {| rp_id := 1; rp_full_name := "o/r"; rp_default_branch := "main" |};
     in_issue := demo_issue is_open;
     in_content := {| co_author_id := 8; co_title := "t"; co_body := "b"; co_created_at := "2026-01-01T00:00:00Z";
                      co_updated_at := "2026-01-01T00:00:00Z" |};
     in_label_events := [{| le_id := 3; le_labeled := true; le_actor_id := 7; le_label := "pip";
                            le_created_at := "2026-01-01T00:00:00Z" |}];
     in_comments := [] |}.
Definition demo_intake_source (is_open : bool) : IntakeSource := {|
  discover owner repository label := Ok [demo_issue is_open];
  intake owner repository number := Ok (demo_intake is_open);
  actor_login id := Ok "pip-bot"%string;
  discussion_comment owner repository thread kind id := Err InvalidIdentity;
  claim_issue owner repository expected actor := Ok (demo_issue is_open) |}.

Definition demo_stored_case : StoredCase := default demo_seen (query_case demo_waiting demo_case_key).

Lemma verified_cases_are_authorized_witness :
  exists e, authorized (demo_policy 1 1000) demo_stored_case e.
Proof.
  destruct (verify_active_authorization (source := demo_intake_source true) demo_scope
              (demo_world demo_waiting)) as [r w'] eqn:Hrun.
  assert (r = Ok (Authorized 1)) as -> by (change r with (r, w').1; rewrite <-Hrun; vm_compute; reflexivity).
  destruct (verified_cases_are_authorized (H := demo_codec) (source := demo_intake_source true) demo_scope
              (demo_world demo_waiting) w' 1 demo_stored_case) as [_ (e & _ & He)].
  - apply demo_run_reachable. vm_compute. reflexivity.
  - exact Hrun.
  - vm_compute. reflexivity.
  - vm_compute. reflexivity.
  - exists e. exact He.
Defined.

Definition demo_revoked : World :=
  (reconcile_active_authorization (H := demo_codec) (source := demo_intake_source false) demo_scope 200
     (demo_world demo_waiting)).2.

Lemma revocation_needs_withdrawal_witness :
  exists c', query_case (w_store demo_revoked) demo_case_key = Some c' /\ c'.(sc_state) = "ABANDONED"%string.
Proof.
  assert (state_in demo_revoked = Some "ABANDONED"%string) as Hs by (vm_compute; reflexivity).
  apply fmap_Some in Hs as (c' & Hc' & Hst).
  destruct (reconcile_active_authorization (H := demo_codec) (source := demo_intake_source false) demo_scope 200
     (demo_world demo_waiting)) as [r w'] eqn:Hrun.
  assert (w' = demo_revoked) as -> by (unfold demo_revoked; by rewrite Hrun).
  destruct (revocation_needs_withdrawal (H := demo_codec) (source := demo_intake_source false) demo_scope 200
              (demo_world demo_waiting) demo_revoked r demo_case_key demo_stored_case c') as (_ & Hab & _).
  - apply demo_run_reachable. vm_compute. reflexivity.
  - lia.
  - exact Hrun.
  - vm_compute. reflexivity.
  - exact Hc'.
  - intros ->. vm_compute in Hst. discriminate Hst.
  - exists c'. split; [exact Hc'|exact Hab].
Defined.
