(* ===== verification/ActiveIntake.v ===== *)
(** * ActiveIntake: issues become cases

    crates/pip-control/src/intake.rs, and the read-only reconciliation of shadow.rs.  An eligible
    issue is claimed on GitHub and then recorded as a case, or its abandoned case is
    reopened.  Opening and locking the ledger's directory, the HMAC of a webhook and
    the observation that earlier work came to rest are answers the functions take. *)

From S2P Require Import Prelude Text Parse Json Serde Intake Domain StateMachine Revision Sql Tables Inputs StoreCore.
From S2P Require Import Status Control Records History Frames Steps Invariants Conversations.
From S2P Require Import Ledger System Ingest Policy PolicyLaws Commands Cycles Bounds GitHub Ci World Takeover Authorization.
From stdpp Require Import relations sorting.
Open Scope Z_scope.

(** ** Data *)

Record IntakeCandidateResult := {
  icr_issue_number : Z; icr_issue_id : Z; icr_decision : string; icr_blockers : list string;
  icr_case_key : option string;
}.
Record ActiveIntakeReport := {
  air_report_format : Z; air_observed_at : Z; air_repository_id : Z; air_repository : string;
  air_policy_revision : Z; air_mutation_count : Z; air_candidates : list IntakeCandidateResult;
}.
Record WebhookEnvelope := {
  we_delivery_id : string; we_event_name : string; we_signature : string; we_payload : string;
  we_received_at : Z;
}.
Record WebhookIntakeReport := {
  wir_report_format : Z; wir_observed_at : Z; wir_repository_id : Z; wir_repository : string;
  wir_delivery_id : string; wir_delivery : string; wir_mutation_count : Z;
  wir_candidate : option IntakeCandidateResult;
}.

Inductive ShadowError := ShadowDispatchEnabled | ShadowEvidence (error : string) | ShadowRepositoryDrift | DiscoveryDrift.
Inductive ActiveIntakeError :=
| ActivationDisabled
| IntakeEvidence (e : ShadowError)
| IntakeStore (e : StoreError)
| IntakeInvalidIdentity
| InvalidWebhook (message : string)
| Coordination (message : string)
| IntakePanic.

Definition evidence_error (e : GitHubError) : ActiveIntakeError := IntakeEvidence (ShadowEvidence (github_error_text e)).

(** Neither a ready case nor a parked one holds a slot. *)
Definition active_state (state : string) : bool :=
  negb (one_of ["SHADOW_READY"; "COMPLETED"; "ABANDONED"; "TAKEN_OVER"; "ESCALATED"; "BLOCKED"; "WAITING_HUMAN"] state).

Definition intake_case_id (policy : RepositoryPolicy) (issue_number : Z) : result ActiveIntakeError CaseId :=
  r ← ok_or (nonzero (rid_id (po_repository policy))) IntakeInvalidIdentity;
  i ← ok_or (nonzero issue_number) IntakeInvalidIdentity;
  w ← ok_or (nonzero (po_workflow_version policy)) IntakeInvalidIdentity;
  Ok {| repository := r; issue := i; workflow := w |}.

(** The policy without its operational switches. *)
Definition without_conversations (p : RepositoryPolicy) : RepositoryPolicy := {|
  po_conversations_enabled := false; po_conversation_model := None; po_policy_format := po_policy_format p;
  po_revision := po_revision p; po_repository := po_repository p; po_board := po_board p;
  po_workflow_version := po_workflow_version p; po_checkout := po_checkout p; po_workspace := po_workspace p;
  po_artifacts := po_artifacts p; po_workspace_storage := po_workspace_storage p;
  po_branch_prefix := po_branch_prefix p; po_github := po_github p; po_intake := po_intake p;
  po_dispatch_enabled := po_dispatch_enabled p; po_execution_capacity := po_execution_capacity p;
  po_merge := po_merge p; po_max_remediation_rounds := po_max_remediation_rounds p;
  po_max_case_elapsed_seconds := po_max_case_elapsed_seconds p;
  po_max_provider_failures := po_max_provider_failures p; po_max_hermes_attempts := po_max_hermes_attempts p;
  po_max_outage_seconds := po_max_outage_seconds p; po_max_stall_seconds := po_max_stall_seconds p;
  po_hermes_scratch_root := po_hermes_scratch_root p;
  po_max_repeated_finding_fingerprint := po_max_repeated_finding_fingerprint p;
  po_sensitive_scope_categories := po_sensitive_scope_categories p;
  po_required_ci_contexts := po_required_ci_contexts p; po_roles := po_roles p |}.

(** The greatest id of an event that removed the label before the latest one. *)
Definition removed_label (policy : RepositoryPolicy) (latest : option LabelEvent) (events : list LabelEvent) : Z :=
  default 0 (max_opt (map le_id (List.filter (fun e =>
    String.eqb e.(le_label) (ic_label (po_intake policy)) && negb e.(le_labeled)
    && match latest with Some l => e.(le_id) <? l.(le_id) | None => false end) events))).

Definition active_in (repository : option Z) (c : StoredCase) : bool :=
  match repository with Some id => c.(sc_repository_id) =? id | None => true end && active_state c.(sc_state).
Definition count_active (repository : option Z) (l : list StoredCase) : Z :=
  Z.of_nat (length (List.filter (active_in repository) l)).

Definition observation (policy : RepositoryPolicy) (e : IntakeSnapshot) (already_owned : bool) (cases : list StoredCase)
  : IssueObservation := {|
  open := e.(in_issue).(is_open); is_pull_request := e.(in_issue).(is_pull); labels := e.(in_issue).(is_labels);
  latest_label_actor_id :=
    match latest_label policy e.(in_label_events) with
    | Some event => if event.(le_labeled) then nonzero event.(le_actor_id) else None
    | None => None
    end;
  excluded := bool_decide (e.(in_issue).(is_number) ∈ ic_excluded_issue_numbers (po_intake policy));
  held := bool_decide (e.(in_issue).(is_number) ∈ ic_held_issue_numbers (po_intake policy));
  Intake.already_owned := already_owned;
  Intake.assigned_to_other := GitHub.assigned_to_other e.(in_issue) (gc_automation_actor_id (po_github policy));
  repository_active_cases := Z.min u32_max (count_active (Some (rid_id (po_repository policy))) cases);
  global_active_cases := Z.min u32_max (count_active None cases);
|}.

Definition ineligible (issue : IssueSnapshot) (blockers : list string) : IntakeCandidateResult :=
  {| icr_issue_number := issue.(is_number); icr_issue_id := issue.(is_id); icr_decision := "INELIGIBLE";
     icr_blockers := blockers; icr_case_key := None |}.

(** More plans waiting than the lookahead allows. *)
Definition lookahead_full (policy : RepositoryPolicy) (cases : list StoredCase) : bool :=
  match po_execution_capacity policy with
  | None => false
  | Some capacity =>
      ec_ready_plans capacity <? Z.of_nat (length (List.filter (fun c =>
        (c.(sc_repository_id) =? rid_id (po_repository policy))
        && one_of ["PLANNING"; "READY_TO_BUILD"] c.(sc_state)) cases))
  end.

Definition issue_context (observed_at : Z) (e : IntakeSnapshot) (issue : IssueSnapshot) : Value :=
  json_object [("schema_version", Number 1); ("observed_at", Number observed_at);
               ("repository", ser_repository e.(in_repository)); ("issue", ser_issue issue);
               ("issue_content", ser_content e.(in_content)); ("comments", Array (ser_comment <$> e.(in_comments)))].

Definition with_assignees (issue : IssueSnapshot) (ids : gset Z) : IssueSnapshot :=
  {| is_id := issue.(is_id); is_number := issue.(is_number); is_open := issue.(is_open);
     is_pull := issue.(is_pull); is_labels := issue.(is_labels); is_assignee_ids := ids |}.
(** The claimed issue is the observed one, assigned to Pip alone. *)
Definition claim_confirmed (automation : option Z) (issue claimed : IssueSnapshot) : bool :=
  bool_decide (with_assignees claimed issue.(is_assignee_ids) = issue)
  && negb (GitHub.assigned_to_other claimed automation)
  && match automation with Some id => bool_decide (id ∈ claimed.(is_assignee_ids)) | None => false end.

Definition intake_identity (policy : RepositoryPolicy) (issue : IssueSnapshot) (label : LabelEvent) : string :=
  "repo" +:+ show (rid_id (po_repository policy)) +:+ "-issue" +:+ show issue.(is_number)
  +:+ "-workflow" +:+ show (po_workflow_version policy) +:+ "-label" +:+ show label.(le_id).

Definition authorization_payload (policy : RepositoryPolicy) (issue : IssueSnapshot) (label : LabelEvent)
  (context : Value) (more : list (string * Value)) : Value :=
  json_object ([("repository_id", Number (rid_id (po_repository policy))); ("issue_id", Number issue.(is_id));
                ("issue_number", Number issue.(is_number)); ("label", Str (ic_label (po_intake policy)));
                ("label_event_id", Number label.(le_id)); ("label_actor_id", Number label.(le_actor_id));
                ("issue_context", context)] ++ more).

Definition planner_effect (key identity : string) (next_revision : Z) : EffectInput :=
  {| fi_effect_id := "effect-intake-" +:+ identity +:+ "-planner"; fi_effect_type := "DISPATCH_PLANNER";
     fi_payload := json_object [("case_key", Str key); ("state_revision", Number next_revision);
                                ("effect", Str "DISPATCH_PLANNER")] |}.

Definition opening (policy : RepositoryPolicy) (key : string) (issue : IssueSnapshot) (label : LabelEvent)
  (context : Value) (observed_at : Z) : NewCase :=
  let identity := intake_identity policy issue label in
  {| nc_case_key := key; nc_repository_id := rid_id (po_repository policy); nc_issue_number := issue.(is_number);
     nc_workflow_version := po_workflow_version policy; nc_policy_revision := po_revision policy;
     nc_initial_state := CaseState_to_string State.Planning; nc_observed_at := observed_at;
     nc_event := {| ei_event_id := "event-intake-" +:+ identity; ei_event_type := "ISSUE_AUTHORIZED";
                    ei_payload := authorization_payload policy issue label context [] |};
     nc_effects := [planner_effect key identity 1] |}.

Definition reopening (policy : RepositoryPolicy) (c : StoredCase) (issue : IssueSnapshot) (label : LabelEvent)
  (removed : Z) (context : Value) (key : string) (observed_at : Z) : TransitionInput :=
  let identity := intake_identity policy issue label in
  {| ti_case_key := key; ti_expected_revision := c.(sc_state_revision); ti_next_state := "PLANNING";
     ti_remediation_round := c.(sc_remediation_round); ti_plan_version := c.(sc_plan_version);
     ti_pr_number := c.(sc_pr_number); ti_head_sha := c.(sc_head_sha); ti_observed_at := observed_at;
     ti_event := {| ei_event_id := "event-intake-" +:+ identity; ei_event_type := "ISSUE_REAUTHORIZED";
                    ei_payload := authorization_payload policy issue label context
                      [("removed_label_event_id", Number removed); ("policy_revision", Number (po_revision policy))] |};
     ti_run := None; ti_evidence := []; ti_findings := [];
     ti_effects := [planner_effect key identity (c.(sc_state_revision) + 1)] |}.

(** ** The cycle *)

Section intake.
Context `{Codec} {source : IntakeSource}.

Definition record_case_policy (policy : RepositoryPolicy) (observed_at : Z) : Cycle ActiveIntakeError ApplyResult :=
  transact (fun s => map_err IntakeStore (record_policy
    {| yi_repository_id := rid_id (po_repository policy); yi_revision := po_revision policy;
       yi_accepted_at := observed_at; yi_payload := ser_policy (without_conversations policy) |} s)).

Definition applied_count (r : ApplyResult) : Z := match r with Applied => 1 | Replayed => 0 end.

(** The claim, when the automation account is configured. *)
Definition claim (policy : RepositoryPolicy) (issue : IssueSnapshot)
  : Cycle ActiveIntakeError (result GitHubError IssueSnapshot) :=
  match gc_automation_actor_id (po_github policy) with
  | Some actor =>
      if 0 <? actor then
        let owner := rid_owner (po_repository policy) in
        let name := rid_name (po_repository policy) in
        send (ClaimIssue owner name issue actor) (claim_issue owner name issue actor)
      else mret (Err InvalidIdentity)
  | None => mret (Err InvalidIdentity)
  end.

(** An eligible issue: the candidate's line of the report and the mutations made. *)
Definition admit_issue (policy : RepositoryPolicy) (observed_at : Z) (quiescent : list string -> bool)
  (e : IntakeSnapshot) (key : string) (existing : option StoredCase) (reauthorize : bool)
  (latest : option LabelEvent) (removed : Z) (cases : list StoredCase)
  : Cycle ActiveIntakeError (Z * IntakeCandidateResult) :=
  let issue := e.(in_issue) in
  if lookahead_full policy cases then mret (0, ineligible issue ["PLANNING_LOOKAHEAD_FULL"]) else
  busy ← query (fun s => Ok (reauthorize && negb (quiescent (case_task_ids key s))));
  if busy : bool then mret (0, ineligible issue ["PREVIOUS_WORK_NOT_QUIESCENT"]) else
  lift (err_if (256 * 1024 <? len (to_string (issue_context observed_at e issue)))
          (InvalidWebhook "issue context exceeds worker evidence bound"));;
  answer ← claim policy issue;
  match answer with
  | Err _ => mret (0, ineligible issue ["ISSUE_ASSIGNMENT_UNCONFIRMED"])
  | Ok claimed =>
      lift (err_if (negb (claim_confirmed (gc_automation_actor_id (po_github policy)) issue claimed))
              IntakeInvalidIdentity);;
      label ← lift (ok_or (match latest with Some l => if l.(le_labeled) then Some l else None | None => None end)
                      IntakeInvalidIdentity);
      let context := issue_context observed_at e claimed in
      done ← match existing with
             | Some c => transact (fun s => map_err IntakeStore
                 (apply_transition (reopening policy c issue label removed context key observed_at) None s))
             | None => transact (fun s => map_err IntakeStore
                 (create_case (opening policy key issue label context observed_at) s))
             end;
      mret (applied_count done, {| icr_issue_number := issue.(is_number); icr_issue_id := issue.(is_id);
                                   icr_decision := "ELIGIBLE"; icr_blockers := []; icr_case_key := Some key |})
  end.

Definition reconcile_issue (policy : RepositoryPolicy) (observed_at : Z) (global_paused : bool)
  (quiescent : list string -> bool) (acc : Z * list IntakeCandidateResult) (e : IntakeSnapshot)
  : Cycle ActiveIntakeError (Z * list IntakeCandidateResult) :=
  let '(mutation_count, candidates) := acc in
  let latest := latest_label policy e.(in_label_events) in
  id ← lift (intake_case_id policy e.(in_issue).(is_number));
  let key := case_key id in
  existing ← query (fun s => Ok (query_case s key));
  let removed := removed_label policy latest e.(in_label_events) in
  reauthorize ← (if is_some existing
    then query (fun s => map_err IntakeStore (can_reauthorize key (match latest with Some l => l.(le_id) | None => 0 end) removed s))
    else mret false);
  report ← query (fun s => map_err IntakeStore (status observed_at s));
  pol ← lift (ok_or (intake_policy global_paused policy) IntakePanic);
  match evaluate_intake pol (observation policy e (is_some existing && negb reauthorize) report.(ls_cases)) with
  | Ineligible blockers =>
      mret (mutation_count, candidates ++ [ineligible e.(in_issue) (IntakeBlocker_to_string <$> blockers)])
  | Eligible =>
      '(n, candidate) ← admit_issue policy observed_at quiescent e key existing reauthorize latest removed report.(ls_cases);
      mret (mutation_count + n, candidates ++ [candidate])
  end.

Definition reconcile_validated_evidence (admission_lock : result ActiveIntakeError ()) (policy : RepositoryPolicy)
  (observed_at : Z) (global_paused : bool) (evidence : list IntakeSnapshot) (quiescent : list string -> bool)
  : Cycle ActiveIntakeError ActiveIntakeReport :=
  lift admission_lock;;
  recorded ← record_case_policy policy observed_at;
  '(mutation_count, candidates) ←
    fold_cycle (reconcile_issue policy observed_at global_paused quiescent) (applied_count recorded, []) evidence;
  mret {| air_report_format := 1; air_observed_at := observed_at;
          air_repository_id := rid_id (po_repository policy); air_repository := full_name (po_repository policy);
          air_policy_revision := po_revision policy; air_mutation_count := mutation_count;
          air_candidates := candidates |}.

(** Fresh evidence of a discovered issue. *)
Definition validated_issue (policy : RepositoryPolicy) (discovered : IssueSnapshot)
  : result ActiveIntakeError IntakeSnapshot :=
  e ← map_err evidence_error
        (intake (rid_owner (po_repository policy)) (rid_name (po_repository policy)) discovered.(is_number));
  err_if (negb (repository_matches policy e.(in_repository))) (IntakeEvidence ShadowRepositoryDrift);;
  err_if (negb (matches_discovery e.(in_issue) discovered)) (IntakeEvidence DiscoveryDrift);;
  Ok e.

Definition number_order (a b : IssueSnapshot) : bool := a.(is_number) <=? b.(is_number).

Definition reconcile_intake_with_quiescence (admission_lock : result ActiveIntakeError ()) (policy : RepositoryPolicy)
  (observed_at : Z) (global_paused : bool) (quiescent : list string -> bool)
  : Cycle ActiveIntakeError ActiveIntakeReport :=
  lift (err_if (negb (ic_enabled (po_intake policy)) || ic_paused (po_intake policy)
                || negb (po_dispatch_enabled policy) || global_paused) ActivationDisabled);;
  discovered ← lift (map_err evidence_error
    (discover (rid_owner (po_repository policy)) (rid_name (po_repository policy)) (ic_label (po_intake policy))));
  evidence ← lift (try_map (validated_issue policy) (order_by number_order discovered));
  reconcile_validated_evidence admission_lock policy observed_at global_paused evidence quiescent.

(** Without an execution observation no case is reopened. *)
Definition reconcile_intake (admission_lock : result ActiveIntakeError ()) (policy : RepositoryPolicy)
  (observed_at : Z) (global_paused : bool) : Cycle ActiveIntakeError ActiveIntakeReport :=
  reconcile_intake_with_quiescence admission_lock policy observed_at global_paused (fun _ => false).
End intake.

(** ** Intake is made of system steps *)

Section laws.
Context `{Codec} {source : IntakeSource}.

Lemma transition_outcome i s r s' :
  apply_transition i None s = Ok (r, s') -> s' = s \/ (r = Applied /\ exists c p, applied i s s' c p).
Proof.
  destruct r; intros Ha.
  - right. split; [done|]. apply apply_applied_inv in Ha as [_ Hb]. simpl in Hb. open_ok. subst. by eapply apply_one_applied.
  - left. unfold apply_transition, apply_transition_batch in Ha. open_ok. case_match; by open_ok; simplify_eq.
Qed.

Lemma create_outcome i s r s' :
  create_case i s = Ok (r, s') -> s' = s \/ (r = Applied /\ s'.(cases) = s.(cases) ++ [new_case_row i]).
Proof.
  unfold create_case. intros Hc. inv_store. case_match; inv_store; [by left|right]. split; [done|].
  unfold insert_case_row in *. inv_store. rename select (insert_event _ _ = _) into He.
  apply insert_event_eq in He as (-> & _). rename select (insert_effects _ _ _ _ _ = _) into Hf.
  apply insert_effects_evolves in Hf as (_ & -> & _). done.
Qed.

Lemma reopening_step policy c issue label removed context key now s r s' :
  case_ranges c -> 0 <= now ->
  apply_transition (reopening policy c issue label removed context key now) None s = Ok (r, s') ->
  rtc system_step s s'.
Proof.
  intros Hc Hnow Ha. destruct r.
  - apply rtc_once. eapply sys_reauthorize; [| |exact Ha]; [|reflexivity].
    apply apply_applied_inv in Ha as [_ Hb]. simpl in Hb. open_ok. rename select (apply_one _ _ _ = _) into Ho.
    apply apply_one_bounds in Ho as (Hr & Ht & Hp). simpl in *. destruct Hc.
    unfold wf_transition, is_u64, is_u32, i64_max, u64_max in *. simpl. split_and!; try lia.
    destruct (sc_pr_number c); [lia|done].
  - unfold apply_transition, apply_transition_batch in Ha. open_ok. case_match; by open_ok; simplify_eq.
Qed.

Lemma record_case_policy_sound policy now : Sound (record_case_policy policy now).
Proof.
  apply sound_quiet. intros s a s' Hr. open_ok. split; [by eapply step_record_policy|by eapply record_policy_evolves].
Qed.

Lemma sound_claim policy issue : Sound (claim policy issue).
Proof. unfold claim. sound. Qed.

Lemma reconcile_issue_sound policy now paused quiescent acc e :
  wf_policy policy -> is_u64 now -> is_u64 e.(in_issue).(is_number) ->
  Sound (reconcile_issue policy now paused quiescent acc e).
Proof.
  intros Hp Hnow He. unfold reconcile_issue, admit_issue. sound.
  - apply sound_claim.
  - apply sound_transact. intros s3 r s4 Hr. open_ok. eapply reopening_step; [|apply Hnow|eassumption].
    subst. by eapply query_case_ranges.
  - apply sound_transact. intros s3 r s4 Hr. open_ok. apply rtc_once.
    eapply sys_intake; [| | |eassumption]; [|reflexivity..]. by split_and!; try apply Hp.
Qed.

Lemma intake_sound lock policy now paused evidence quiescent :
  wf_policy policy -> is_u64 now -> Forall (fun e => is_u64 e.(in_issue).(is_number)) evidence ->
  Sound (reconcile_validated_evidence lock policy now paused evidence quiescent).
Proof.
  intros Hp Hnow He. unfold reconcile_validated_evidence. sound; [apply record_case_policy_sound|].
  apply reconcile_issue_sound; [done..|]. by eapply (proj1 (Forall_forall _ _) He).
Qed.

(** ** Admission stays within the limits *)

Definition active_rows (repository : option Z) (s : Store) : Z :=
  count_rows (fun r => active_in repository (stored_case r)) s.(cases).

Lemma filter_perm {A} (p : A -> bool) l k : l ≡ₚ k -> List.filter p l ≡ₚ List.filter p k.
Proof.
  induction 1 as [|x l k _ IH|x y l|l k j _ IH1 _ IH2]; simpl; [done| | |by etrans].
  - case_match; [by constructor|done].
  - repeat case_match; try done. constructor.
Qed.

Lemma count_active_rows repository now s report :
  status now s = Ok report -> count_active repository report.(ls_cases) = active_rows repository s.
Proof.
  intros Hst. unfold status in Hst. open_ok. subst. unfold count_active, active_rows, count_rows, status_cases. simpl.
  f_equal. unfold order_by.
  assert (forall l, length (List.filter (active_in repository) (stored_case <$> l))
            = length (List.filter (fun r => active_in repository (stored_case r)) l)) as Hl.
  { induction l as [|r l IH]; [done|]. rewrite fmap_cons. cbn [List.filter]. case_match; cbn [length]; by rewrite IH. }
  rewrite Hl. apply Permutation_length, filter_perm, merge_sort_Permutation; apply _.
Qed.

(** An update of one row changes a count by at most one. *)
Lemma count_update_le (q p : CaseRow -> bool) f l :
  count_rows q (update_row p f l) <= count_rows q l + count_rows p l.
Proof.
  unfold count_rows, update_row. induction l as [|r l IH]; simpl; [lia|].
  destruct (p r), (q r) eqn:Hq, (q (f r)); simpl; rewrite ?Hq; simpl; lia.
Qed.

Lemma one_row_of_key cs k :
  NoDup (c_case_key <$> cs) -> forall q : CaseRow -> bool,
  count_rows (fun x => String.eqb x.(c_case_key) k && q x) cs <= 1.
Proof.
  intros Hnd q. induction cs as [|c cs IH]; [done|]. apply NoDup_cons in Hnd as [Hc Hnd]. specialize (IH Hnd).
  unfold count_rows in *. cbn [List.filter]. destruct (String.eqb (c_case_key c) k && q c) eqn:Hk; [|done].
  apply andb_true_iff in Hk as [<-%String.eqb_eq _].
  rewrite (filter_none _ cs); [done|]. intros r Hr. apply andb_false_iff. left. apply String.eqb_neq.
  intros He. apply Hc. rewrite <-He. by apply list_elem_of_fmap_2.
Qed.

Lemma transition_active repository i s r s' :
  store_inv s -> apply_transition i None s = Ok (r, s') -> active_rows repository s' <= active_rows repository s + 1.
Proof.
  intros Hinv [->|(_ & c & p & Ha)]%transition_outcome; [lia|].
  unfold active_rows. rewrite (ap_cases _ _ _ _ _ Ha). etrans; [apply count_update_le|].
  pose proof (one_row_of_key _ (ti_case_key i) (inv_keys _ _ Hinv) (fun x => x.(c_state_revision) =? i.(ti_expected_revision))).
  lia.
Qed.
Lemma create_active repository i s r s' :
  create_case i s = Ok (r, s') -> active_rows repository s' <= active_rows repository s + 1.
Proof.
  intros [->|[_ Hc]]%create_outcome; [lia|]. unfold active_rows. rewrite Hc, count_rows_app.
  unfold count_rows. simpl. case_match; simpl; lia.
Qed.

Lemma block_if_nil c b l : block_if c b l = [] -> c = false /\ l = [].
Proof. unfold block_if. destruct c; [by intros [_ ?]%app_nil|done]. Qed.

Lemma eligible_within policy o :
  evaluate_intake policy o = Eligible ->
  repository_active_cases o < repository_active_limit policy /\ global_active_cases o < global_active_limit policy.
Proof.
  unfold evaluate_intake. intros He.
  match type of He with match ?l with _ => _ end = _ => assert (l = []) as Hl by (by destruct l) end.
  apply block_if_nil in Hl as [Hg Hl]. apply block_if_nil in Hl as [Hr _]. lia.
Qed.

Definition limit_of (policy : RepositoryPolicy) (repository : option Z) : Z :=
  match repository with Some _ => ic_repository_active_limit (po_intake policy) | None => ic_global_active_limit (po_intake policy) end.

Lemma admitted_within policy now paused pol e owned s report repository n :
  repository = None \/ repository = Some (rid_id (po_repository policy)) -> wf_policy policy ->
  status now s = Ok report -> intake_policy paused policy = Some pol ->
  evaluate_intake pol (observation policy e owned report.(ls_cases)) = Eligible ->
  n <= active_rows repository s + 1 -> n <= Z.max (active_rows repository s) (limit_of policy repository).
Proof.
  intros Hrep Hp Hst Hpol He Hn. apply eligible_within in He as [Hr Hg]. simpl in *.
  rewrite !(count_active_rows _ _ _ _ Hst) in *.
  unfold intake_policy in Hpol. apply bind_Some in Hpol as (rev & _ & (actors & _ & (rl & Hrl & (gl & Hgl & Hpol)%bind_Some)%bind_Some)%bind_Some).
  apply nonzero_some in Hrl as [-> _], Hgl as [-> _]. injection Hpol as <-. simpl in *.
  destruct (wfp_repository_limit _ Hp), (wfp_global_limit _ Hp).
  unfold limit_of. destruct Hrep as [->| ->]; lia.
Qed.

Lemma reconcile_issue_active policy now paused quiescent acc e repository w r w' :
  repository = None \/ repository = Some (rid_id (po_repository policy)) ->
  wf_policy policy -> store_inv (w_store w) -> reconcile_issue policy now paused quiescent acc e w = (r, w') ->
  active_rows repository (w_store w') <= Z.max (active_rows repository (w_store w)) (limit_of policy repository).
Proof.
  intros Hrep Hp Hinv. unfold reconcile_issue, admit_issue, claim. intros Hr. destruct acc as [n l].
  run Hr; simplify_eq; try (unfold w_store; simpl; lia); open_ok;
    (eapply admitted_within; [done|done|eassumption|eassumption|eassumption|]);
    [by eapply transition_active|by eapply create_active].
Qed.

Lemma fold_active policy now paused quiescent evidence repository :
  repository = None \/ repository = Some (rid_id (po_repository policy)) -> wf_policy policy -> is_u64 now ->
  Forall (fun e => is_u64 e.(in_issue).(is_number)) evidence -> forall acc w r w', system_reachable (w_store w) ->
  fold_cycle (reconcile_issue policy now paused quiescent) acc evidence w = (r, w') ->
  active_rows repository (w_store w') <= Z.max (active_rows repository (w_store w)) (limit_of policy repository).
Proof.
  intros Hrep Hp Hnow Hnum. induction Hnum as [|e l He _ IH]; intros acc w r w' Hw Hfold; simpl in Hfold.
  { injection Hfold as <- <-. lia. }
  unfold mbind, cycle_bind in Hfold. destruct (reconcile_issue _ _ _ _ _ _ w) as [r1 w1] eqn:Hiss.
  pose proof (reconcile_issue_active _ _ _ _ _ _ _ _ _ _ Hrep Hp (proj1 (system_history _ Hw)) Hiss) as Hle.
  destruct r1 as [b|]; [|by injection Hfold as <- <-].
  assert (system_reachable (w_store w1)) as Hw1.
  { unfold system_reachable in *. etrans; [exact Hw|].
    exact (reconcile_issue_sound _ _ _ _ _ _ Hp Hnow He _ _ _ Hiss). }
  specialize (IH _ _ _ _ Hw1 Hfold). lia.
Qed.

Lemma record_case_policy_active policy now repository w r w' :
  record_case_policy policy now w = (r, w') -> active_rows repository (w_store w') = active_rows repository (w_store w).
Proof.
  unfold record_case_policy, transact. intros Hrec.
  destruct (map_err IntakeStore _) as [[x s1]|] eqn:Hm in Hrec; injection Hrec as <- <-; [|done]. open_ok.
  rename select (record_policy _ _ = _) into Hp. apply record_policy_evolves in Hp as (_ & Hc & _).
  change (w_store (with_store s1 w)) with s1. unfold active_rows. by rewrite Hc.
Qed.

(** C30: Admission never overfills.  Whatever an intake cycle answers, the cases
    that hold a slot afterwards are no more than the limit, or no more than there were: for the
    repository and for all repositories. *)
Theorem intake_within_limits (lock : result ActiveIntakeError ()) (policy : RepositoryPolicy) (now : Z) (paused : bool)
  (evidence : list IntakeSnapshot) (quiescent : list string -> bool) (w w' : World)
  (r : result ActiveIntakeError ActiveIntakeReport) (repository : option Z)
  (Hpolicy : wf_policy policy) (Hnow : is_u64 now) (Hnum : Forall (fun e => is_u64 e.(in_issue).(is_number)) evidence)
  (Hrep : repository = None \/ repository = Some (rid_id (po_repository policy)))
  (Hreach : system_reachable (w_store w))
  (Hrun : reconcile_validated_evidence lock policy now paused evidence quiescent w = (r, w')) :
  active_rows repository (w_store w') <= Z.max (active_rows repository (w_store w)) (limit_of policy repository).
Proof.
  unfold reconcile_validated_evidence in Hrun. rewrite lift_run in Hrun.
  destruct lock; [|injection Hrun as <- <-; lia]. unfold mbind, cycle_bind at 1 in Hrun.
  destruct (record_case_policy policy now w) as [r1 w1] eqn:Hrec.
  rewrite <-(record_case_policy_active _ _ repository _ _ _ Hrec).
  apply record_case_policy_sound in Hrec.
  destruct r1 as [a1|]; [|injection Hrun as <- <-; lia]. unfold mbind, cycle_bind in Hrun.
  destruct (fold_cycle _ _ _ w1) as [r2 w2] eqn:Hfold.
  assert (w_store w2 = w_store w') as <- by (destruct r2 as [[]|]; by injection Hrun as _ <-).
  eapply fold_active; [exact Hrep|exact Hpolicy|exact Hnow|exact Hnum| |exact Hfold].
  unfold system_reachable in *. etrans; [exact Hreach|exact Hrec].
Qed.
End laws.

(** *** The limit of one, reached *)

Definition demo_admitted : World :=
  (reconcile_validated_evidence (H := demo_codec) (source := demo_intake_source true) (Ok ()) (demo_policy 1 1000) 200 false
     [demo_intake true] (fun _ => false) (demo_world empty_store)).2.

Lemma demo_policy_wf : wf_policy (demo_policy 1 1000).
Proof. apply (de_policy_wf (ser_policy (demo_policy 1 1000))). vm_compute. reflexivity. Qed.

Lemma intake_within_limits_witness :
  active_rows None (w_store demo_admitted) <= 2 /\ active_rows None (w_store demo_admitted) = 1.
Proof.
  split; [|vm_compute; reflexivity].
  destruct (reconcile_validated_evidence (H := demo_codec) (source := demo_intake_source true) (Ok ()) (demo_policy 1 1000)
     200 false [demo_intake true] (fun _ => false) (demo_world empty_store)) as [r w'] eqn:Hrun.
  assert (w' = demo_admitted) as -> by (unfold demo_admitted; by rewrite Hrun).
  refine (intake_within_limits (H := demo_codec) (source := demo_intake_source true) (Ok ()) (demo_policy 1 1000) 200 false
            [demo_intake true] (fun _ => false) (demo_world empty_store) demo_admitted r None demo_policy_wf _ _ _ _ Hrun).
  - split; vm_compute; discriminate.
  - constructor; [split; vm_compute; discriminate|constructor].
  - left. reflexivity.
  - apply rtc_refl.
Defined.
