(* ===== verification/Recoveries.v ===== *)
(** * Recoveries: offline, root-authorized continuations

    crates/pip-control/src/remediation_extension.rs, follow_up_recovery.rs,
    infrastructure_recovery.rs, native_review_retry.rs and publication_retry.rs, with
    [effective_provider_failure_limit] of pip-store's builder_retry.rs and the joins of
    draft_pr.rs that a publication is read back with.  A refused request is an error
    without its text where that is another error's. *)

From S2P Require Import Prelude Text Parse Json Serde Intake Domain StateMachine Revision Contracts Sql Tables Inputs Recovery StoreCore.
From S2P Require Import Status Outbox Attempts Control Records History Frames Steps Invariants Conversations CaseHistory.
From S2P Require Import RolePolicy Ledger System Ingest Policy PolicyLaws Commands Cycles Bounds GitHub Ci World Takeover Authorization ActiveIntake.
From stdpp Require Import relations.
Open Scope Z_scope.

(** ** The provider failure budget (pip-store builder_retry.rs) *)

(** SQLite's [x + 1] on a REAL or a TEXT. *)
Class SqlPlusOne := plus_one : SqlVal -> SqlVal.
Definition sql_plus_one `{SqlPlusOne} (v : SqlVal) : SqlVal :=
  match v with
  | SNull => SNull
  | SInt n => if n =? i64_max then plus_one v else SInt (n + 1)
  | _ => plus_one v
  end.

Definition legacy_grant (key : string) (e : EventRow) : bool :=
  String.eqb e.(e_case_key) key
  && ((String.eqb e.(e_event_type) "BUILDER_RETRY_AUTHORIZED"
       && match e.(e_previous_state) with Some p => one_of ["READY_TO_BUILD"; "ESCALATED"] p | None => false end
       && String.eqb e.(e_next_state) "READY_TO_BUILD")
      || (String.eqb e.(e_event_type) "REVIEW_RETRY_AUTHORIZED" && null_eq e.(e_previous_state) "ESCALATED"
          && String.eqb e.(e_next_state) "WAITING_CI")
      || (String.eqb e.(e_event_type) "PLANNER_RETRY_AUTHORIZED" && null_eq e.(e_previous_state) "ESCALATED"
          && String.eqb e.(e_next_state) "PLANNING")).

(** ** Requests *)

Record PublicationRetryRequest := {
  rq_case_key : string; rq_expected_revision : Z; rq_expected_head : string; rq_request_id : string; rq_reason : string;
}.
#[export] Instance request_eq_dec : EqDecision PublicationRetryRequest.
Proof. solve_decision. Defined.

Definition ser_request (r : PublicationRetryRequest) : Value :=
  json_object [("case_key", Str r.(rq_case_key)); ("expected_revision", Number r.(rq_expected_revision));
               ("expected_head", Str r.(rq_expected_head)); ("request_id", Str r.(rq_request_id));
               ("reason", Str r.(rq_reason))].
Definition de_request (v : Value) : option PublicationRetryRequest :=
  m ← as_struct ["case_key"; "expected_revision"; "expected_head"; "request_id"; "reason"] v;
  k ← field m "case_key" as_str;
  n ← field m "expected_revision" de_u64;
  h ← field m "expected_head" as_str;
  i ← field m "request_id" as_str;
  t ← field m "reason" as_str;
  Some {| rq_case_key := k; rq_expected_revision := n; rq_expected_head := h; rq_request_id := i; rq_reason := t |}.

(** The authorization of a publication retry, as its event keeps it. *)
Record RetryAuthorization := {
  ra_schema_version : Z; ra_operator_uid : Z; ra_request : PublicationRetryRequest;
  ra_build_event_id : string; ra_parent_head : string;
}.
Definition ser_authorization (a : RetryAuthorization) : Value :=
  json_object [("schema_version", Number a.(ra_schema_version)); ("operator_uid", Number a.(ra_operator_uid));
               ("request", ser_request a.(ra_request)); ("build_event_id", Str a.(ra_build_event_id));
               ("parent_head", Str a.(ra_parent_head))].
Definition de_authorization (v : Value) : option RetryAuthorization :=
  m ← as_struct ["schema_version"; "operator_uid"; "request"; "build_event_id"; "parent_head"] v;
  n ← field m "schema_version" de_u32;
  u ← field m "operator_uid" de_u32;
  r ← field m "request" de_request;
  b ← field m "build_event_id" as_str;
  p ← field m "parent_head" as_str;
  Some {| ra_schema_version := n; ra_operator_uid := u; ra_request := r; ra_build_event_id := b; ra_parent_head := p |}.

Definition recorded (request_id : string) (h : ImmutableCaseHistory) : option StoredEvent :=
  List.find (fun e => String.eqb e.(se_event_id) request_id) h.(ih_events).

Definition at_binding (c : StoredCase) (r : PublicationRetryRequest) : bool :=
  (c.(sc_state_revision) =? r.(rq_expected_revision))
  && bool_decide (c.(sc_head_sha) = Some r.(rq_expected_head)).

(** The installed policy with the accepted activation: what an extension proposes. *)
Definition extended_policy (paused accepted : RepositoryPolicy) : RepositoryPolicy := {|
  po_conversations_enabled := false; po_conversation_model := po_conversation_model paused;
  po_policy_format := po_policy_format paused; po_revision := po_revision paused;
  po_repository := po_repository paused; po_board := po_board paused;
  po_workflow_version := po_workflow_version paused; po_checkout := po_checkout paused;
  po_workspace := po_workspace paused; po_artifacts := po_artifacts paused;
  po_workspace_storage := po_workspace_storage paused; po_branch_prefix := po_branch_prefix paused;
  po_github := po_github paused;
  po_intake := {| ic_enabled := ic_enabled (po_intake accepted); ic_paused := ic_paused (po_intake accepted);
                  ic_label := ic_label (po_intake paused);
                  ic_trusted_actor_ids := ic_trusted_actor_ids (po_intake paused);
                  ic_excluded_issue_numbers := ic_excluded_issue_numbers (po_intake paused);
                  ic_held_issue_numbers := ic_held_issue_numbers (po_intake paused);
                  ic_repository_active_limit := ic_repository_active_limit (po_intake paused);
                  ic_global_active_limit := ic_global_active_limit (po_intake paused) |};
  po_dispatch_enabled := po_dispatch_enabled accepted; po_execution_capacity := po_execution_capacity paused;
  po_merge := po_merge paused; po_max_remediation_rounds := po_max_remediation_rounds paused;
  po_max_case_elapsed_seconds := po_max_case_elapsed_seconds paused;
  po_max_provider_failures := po_max_provider_failures paused; po_max_hermes_attempts := po_max_hermes_attempts paused;
  po_max_outage_seconds := po_max_outage_seconds paused; po_max_stall_seconds := po_max_stall_seconds paused;
  po_hermes_scratch_root := po_hermes_scratch_root paused;
  po_max_repeated_finding_fingerprint := po_max_repeated_finding_fingerprint paused;
  po_sensitive_scope_categories := po_sensitive_scope_categories paused;
  po_required_ci_contexts := po_required_ci_contexts paused; po_roles := po_roles paused |}.

Section recoveries.
Context `{Codec} {arith : SqlPlusOne}.

Definition effective_provider_failure_limit (key : string) (base : Z) (s : Store) : result StoreError Z :=
  grants ← db (try_map (fun e => json_extract e.(e_payload_json) ["failed_attempts"])
                 (List.filter (legacy_grant key) s.(events)));
  granted ← db (get_opt_i64 (sql_max (sql_plus_one <$> grants)));
  Ok (Z.max base (default 0 (option_map unsigned granted))).

(** The checks every recovery starts with. *)
Definition recovery_request (paused : RepositoryPolicy) (request : PublicationRetryRequest) (operator_uid : Z) (s : Store)
  : result RecoveryError (StoredCase * RepositoryPolicy * string) :=
  '(c, accepted) ← recovery_context s paused request.(rq_case_key) operator_uid;
  id ← map_err RecoveryIdentifier (EventId_from_str request.(rq_request_id));
  map_err RecoveryIdentifier (GitSha_from_str request.(rq_expected_head));;
  Ok (c, accepted, id).

Definition apply_recovery (c : StoredCase) (accepted : RepositoryPolicy) (request : PublicationRetryRequest)
  (id : string) (event : Event) (event_payload : Value) (now : Z) (s : Store)
  : result RecoveryError (ApplyResult * Store) :=
  command ← recovery_command c request.(rq_expected_revision) id event event_payload now;
  policy ← ok_or (case_policy accepted) RecoveryPanic;
  map_err RecoveryController (LedgerController.apply policy command s).

(** ** remediation_extension.rs *)

Definition authorize_remediation_extension (paused : RepositoryPolicy) (request : PublicationRetryRequest)
  (now operator_uid : Z) (s : Store) : result RecoveryError (ApplyResult * Store) :=
  '(c, accepted, id) ← recovery_request paused request operator_uid s;
  let policy := ser_policy (extended_policy paused accepted) in
  history ← map_err RecoveryStore (immutable_history_for_case c.(sc_case_key) s);
  match recorded request.(rq_request_id) history with
  | Some e =>
      if String.eqb e.(se_event_type) "REMEDIATION_BUDGET_EXTENDED"
         && bool_decide (index e.(se_payload) "request" = ser_request request)
         && bool_decide (index e.(se_payload) "policy" = policy)
         && eq_int (index e.(se_payload) "operator_uid") operator_uid
         && (e.(se_state_revision) =? saturating_add u64_max request.(rq_expected_revision) 1)
      then Ok (Replayed, s)
      else Err (Refused "budget extension conflicts with recorded request")
  | None =>
      let refused := Refused "budget extension requires exact revision/head and stopped work" in
      err_if (negb (at_binding c request)) refused;;
      report ← map_err RecoveryStore (status now s);
      err_if (negb (report.(ls_direct_attempts_running) =? 0)) refused;;
      apply_recovery c accepted request id Ev.RemediationBudgetExtended
        (json_object [("schema_version", Number 1); ("operator_uid", Number operator_uid);
                      ("request", ser_request request); ("policy", policy)]) now s
  end.

(** ** infrastructure_recovery.rs *)

Definition authorize_infrastructure_recovery (paused : RepositoryPolicy) (request : PublicationRetryRequest)
  (now operator_uid : Z) (s : Store) : result RecoveryError (ApplyResult * Store) :=
  '(c, accepted, id) ← recovery_request paused request operator_uid s;
  history ← map_err RecoveryStore (immutable_history_for_case c.(sc_case_key) s);
  match recorded request.(rq_request_id) history with
  | Some e =>
      if String.eqb e.(se_event_type) "INFRASTRUCTURE_RECOVERY_AUTHORIZED"
         && bool_decide (index e.(se_payload) "request" = ser_request request)
         && eq_int (index e.(se_payload) "operator_uid") operator_uid
         && (e.(se_state_revision) =? saturating_add u64_max request.(rq_expected_revision) 1)
      then Ok (Replayed, s)
      else Err (Refused "recovery request conflicts with recorded authorization")
  | None =>
      let refused := Refused "recovery requires exact revision/head and stopped direct work" in
      err_if (negb (at_binding c request)) refused;;
      report ← map_err RecoveryStore (status now s);
      err_if (negb (report.(ls_direct_attempts_running) =? 0)) refused;;
      limit ← map_err RecoveryStore
        (effective_provider_failure_limit c.(sc_case_key) (po_max_provider_failures accepted) s);
      failed ← map_err RecoveryStore (failed_direct_attempt_count_for_case c.(sc_case_key) s);
      err_if (limit <=? failed)
        (Refused "infrastructure recovery does not increase the provider failure budget");;
      deadline ← ok_or (checked_add u64_max now (po_max_case_elapsed_seconds accepted)) (Refused "deadline overflow");
      apply_recovery c accepted request id Ev.InfrastructureRecoveryAuthorized
        (json_object [("schema_version", Number 1); ("operator_uid", Number operator_uid);
                      ("request", ser_request request); ("deadline", Number deadline)]) now s
  end.

(** ** follow_up_recovery.rs and native_review_retry.rs

    The two files check the same things; only the event and the message differ. *)

Definition operator_payload (request : PublicationRetryRequest) (operator_uid : Z) : Value :=
  json_object [("schema_version", Number 1); ("operator_uid", Number operator_uid); ("request", ser_request request)].

Definition authorize (paused : RepositoryPolicy) (request : PublicationRetryRequest) (now operator_uid : Z)
  (recovery_event : Event) (refused : string) (s : Store) : result RecoveryError (ApplyResult * Store) :=
  '(c, accepted, id) ← recovery_request paused request operator_uid s;
  let event_payload := operator_payload request operator_uid in
  history ← map_err RecoveryStore (immutable_history_for_case c.(sc_case_key) s);
  match recorded request.(rq_request_id) history with
  | Some e =>
      if String.eqb e.(se_event_type) (Event_to_string recovery_event)
         && bool_decide (e.(se_payload) = event_payload)
         && bool_decide (Some e.(se_state_revision) = checked_add u64_max request.(rq_expected_revision) 1)
      then Ok (Replayed, s)
      else Err (Refused "recovery request conflicts with recorded authorization")
  | None =>
      started ← map_err RecoveryStore (case_work_started_at c.(sc_case_key) s);
      created ← ok_or started (Refused "missing authorization");
      recovery ← map_err RecoveryStore (infrastructure_recovery_deadline s c.(sc_case_key));
      let deadline := Z.max (saturating_add u64_max created (po_max_case_elapsed_seconds accepted)) (default 0 recovery) in
      limit ← map_err RecoveryStore
        (effective_provider_failure_limit c.(sc_case_key) (po_max_provider_failures accepted) s);
      err_if (negb (at_binding c request) || (deadline <=? now)
              || negb (running_direct_attempts_for_case c.(sc_case_key) s =? 0)) (Refused refused);;
      failed ← map_err RecoveryStore (failed_direct_attempt_count_for_case c.(sc_case_key) s);
      err_if (limit <=? failed) (Refused refused);;
      apply_recovery c accepted request id recovery_event event_payload now s
  end.

Definition authorize_follow_up_recovery (paused : RepositoryPolicy) (request : PublicationRetryRequest)
  (now operator_uid : Z) (s : Store) : result RecoveryError (ApplyResult * Store) :=
  authorize paused request now operator_uid Ev.FollowUpRecoveryAuthorized
    "follow-up recovery requires exact revision/head, stopped work and remaining time/failure budget" s.
Definition authorize_native_review_retry (paused : RepositoryPolicy) (request : PublicationRetryRequest)
  (now operator_uid : Z) (s : Store) : result RecoveryError (ApplyResult * Store) :=
  authorize paused request now operator_uid Ev.NativeReviewRetryAuthorized
    "review recovery requires exact revision/head, stopped work and remaining time/failure budget" s.
Definition authorize_review_coordination_recovery (paused : RepositoryPolicy) (request : PublicationRetryRequest)
  (now operator_uid : Z) (s : Store) : result RecoveryError (ApplyResult * Store) :=
  authorize paused request now operator_uid Ev.ReviewCoordinationRecoveryAuthorized
    "review recovery requires exact revision/head, stopped work and remaining time/failure budget" s.

(** ** Joins of accepted builds (draft_pr.rs) *)

Definition is_null (v : Value) : bool := bool_decide (v = Null).

(** A plan of the case's version, accepted by the planner's run. *)
Definition proceeding_plan (c : StoredCase) (r : StoredRun) : result RecoveryError (option PlannerResult) :=
  match Contracts.decode r.(sr_payload) with
  | None => Err (Refused "serialization")
  | Some (PlannerR plan) =>
      Ok (if bool_decide (plan.(pl_outcome) = PlannerOutcome.Proceed) && (plan.(pl_plan_version) =? c.(sc_plan_version))
             && String.eqb plan.(pl_common).(task_id) r.(sr_task_id)
             && payload_matches r.(sr_payload) r.(sr_payload_sha256) then Some plan else None)
  | Some _ => Ok None
  end.

Definition accepted_plan (history : ImmutableCaseHistory) (c : StoredCase) : result RecoveryError PlannerResult :=
  found ← try_map (proceeding_plan c) (List.filter (fun r => String.eqb r.(sr_role) "planner") history.(ih_runs));
  match omap id found with
  | [plan] => Ok plan
  | _ => Err (Refused "invalid build join")
  end.

Definition planned_base (history : ImmutableCaseHistory) (c : StoredCase) : result RecoveryError string :=
  plan ← accepted_plan history c;
  map_err (fun _ => Refused "invalid build join") (GitSha_from_str plan.(pl_planned_base_sha)).

Definition latest_publication (history : ImmutableCaseHistory) : option StoredEvent :=
  List.find (fun e => String.eqb e.(se_event_type) "REVIEW_READY") (rev history.(ih_events)).

Definition publication_source (history : ImmutableCaseHistory) (c : StoredCase) (signed : bool)
  : result RecoveryError (BuilderResult * string) :=
  let invalid := Refused "invalid build join" in
  event ← ok_or (latest_publication history) invalid;
  let publication := index event.(se_payload) "publication" in
  let signing := index publication "signing" in
  head ← ok_or c.(sc_head_sha) invalid;
  err_if (negb (payload_matches event.(se_payload) event.(se_payload_sha256))
          || negb (bool_decide (as_str (index publication "head_sha") = Some head))
          || negb (bool_decide (as_u64 (index publication "pull_request_number") = c.(sc_pr_number)))
          || (signed && (negb (bool_decide (as_str (index signing "head") = Some head))
                         || negb match as_str (index signing "signer_fingerprint") with
                                 | Some value => starts_with "SHA256:" value && (7 <? len value)
                                 | None => false
                                 end))
          || (negb signed && negb (is_null signing))
          || negb (existsb (fun v => String.eqb v.(sv_kind) "GITHUB_DRAFT_PULL_REQUEST_PUBLICATION"
                              && bool_decide (v.(sv_payload) = publication)
                              && payload_matches v.(sv_payload) v.(sv_payload_sha256)) history.(ih_evidence))) invalid;;
  try_map (fun name => sha ← ok_or (as_str (index signing name)) invalid;
                       map_err (fun _ => invalid) (GitSha_from_str sha))
    (if signed then ["source_head"; "head"; "tree"; "parent"]%string else []);;
  accepted ← ok_or (List.find (fun e => (e.(se_state_revision) <? event.(se_state_revision))
                                        && String.eqb e.(se_event_type) "BUILD_RECORDED")
                      (rev history.(ih_events))) invalid;
  run ← ok_or (List.find (fun r => String.eqb r.(sr_event_id) accepted.(se_event_id)) history.(ih_runs)) invalid;
  err_if (negb (String.eqb run.(sr_case_key) c.(sc_case_key)) || negb (String.eqb run.(sr_role) "builder")
          || negb (bool_decide (as_str (index publication "task_id") = Some run.(sr_task_id)))
          || negb (bool_decide (run.(sr_payload) = index event.(se_payload) "builder_result"))
          || negb (bool_decide (run.(sr_payload) = accepted.(se_payload)))
          || negb (payload_matches run.(sr_payload) run.(sr_payload_sha256))
          || negb (payload_matches accepted.(se_payload) accepted.(se_payload_sha256))) invalid;;
  match Contracts.decode run.(sr_payload) with
  | Some (BuilderR build) =>
      err_if (negb (String.eqb build.(bu_common).(task_id) run.(sr_task_id))
              || negb (build.(bu_plan_version) =? c.(sc_plan_version))
              || negb (bool_decide (build.(bu_outcome) = BuilderOutcome.ReviewReady))
              || (signed && (negb (bool_decide (build.(bu_head_sha) = as_str (index signing "source_head")))
                             || bool_decide (build.(bu_head_sha) = Some head)))
              || (negb signed && negb (bool_decide (build.(bu_head_sha) = Some head)))) invalid;;
      Ok (build, accepted.(se_event_id))
  | _ => Err invalid
  end.

(** ** publication_retry.rs *)

Definition recoverable_source (history : ImmutableCaseHistory) (c : StoredCase)
  : result RecoveryError (BuilderResult * string) :=
  event ← ok_or (latest_publication history) (Refused "missing publication");
  let signing := index (index event.(se_payload) "publication") "signing" in
  err_if (negb (is_null (index signing "integrated_base")))
    (Refused "publication already binds integrated target ancestry");;
  publication_source history c (negb (is_null signing)).

Definition authorize_publication_retry (paused : RepositoryPolicy) (request : PublicationRetryRequest)
  (now operator_uid : Z) (s : Store) : result RecoveryError (ApplyResult * Store) :=
  '(c, accepted, id) ← recovery_request paused request operator_uid s;
  err_if (is_empty (trim request.(rq_reason)) || (2000 <? len request.(rq_reason)) || has_control request.(rq_reason))
    (Refused "publication retry requires a bounded human reason");;
  history ← map_err RecoveryStore (immutable_history_for_case c.(sc_case_key) s);
  match recorded request.(rq_request_id) history with
  | Some e =>
      a ← ok_or (de_authorization e.(se_payload)) (Refused "serialization");
      if String.eqb e.(se_event_type) "PUBLICATION_RETRY_AUTHORIZED" && (a.(ra_schema_version) =? 1)
         && (a.(ra_operator_uid) =? operator_uid) && bool_decide (a.(ra_request) = request)
         && bool_decide (checked_add u64_max request.(rq_expected_revision) 1 = Some e.(se_state_revision))
         && payload_matches e.(se_payload) e.(se_payload_sha256)
      then Ok (Replayed, s)
      else Err (Refused "publication retry request conflicts with recorded authorization")
  | None =>
      err_if (negb (at_binding c request)) (Refused "publication retry requires the exact current revision and head");;
      report ← map_err RecoveryStore (status now s);
      err_if (negb (report.(ls_direct_attempts_running) =? 0)) (Refused "publication retry requires stopped direct attempts");;
      '(_, build_event_id) ← recoverable_source history c;
      parent ← planned_base history c;
      apply_recovery c accepted request id Ev.PublicationRetryAuthorized
        (ser_authorization {| ra_schema_version := 1; ra_operator_uid := operator_uid; ra_request := request;
                              ra_build_event_id := build_event_id; ra_parent_head := parent |}) now s
  end.

(** The build an authorized retry publishes, and the head it is based on. *)
Definition authorized_build (history : ImmutableCaseHistory) (c : StoredCase)
  : result RecoveryError (BuilderResult * string) :=
  event ← ok_or (List.last (Some <$> history.(ih_events)) None) (Refused "missing recovery authorization");
  auth ← ok_or (de_authorization event.(se_payload)) (Refused "serialization");
  err_if (negb (String.eqb event.(se_event_type) "PUBLICATION_RETRY_AUTHORIZED")
          || negb (event.(se_state_revision) =? c.(sc_state_revision))
          || negb (payload_matches event.(se_payload) event.(se_payload_sha256))
          || negb (auth.(ra_schema_version) =? 1) || negb (auth.(ra_operator_uid) =? 0)
          || negb (String.eqb auth.(ra_request).(rq_case_key) c.(sc_case_key))
          || negb (String.eqb auth.(ra_request).(rq_request_id) event.(se_event_id))
          || negb (bool_decide (checked_add u64_max auth.(ra_request).(rq_expected_revision) 1 = Some c.(sc_state_revision)))
          || negb (bool_decide (c.(sc_head_sha) = Some auth.(ra_request).(rq_expected_head))))
    (Refused "invalid publication recovery binding");;
  '(build, event_id) ← recoverable_source history c;
  parent ← planned_base history c;
  err_if (negb (String.eqb event_id auth.(ra_build_event_id)) || negb (String.eqb parent auth.(ra_parent_head)))
    (Refused "publication recovery source changed");;
  Ok (build, parent).
End recoveries.

(** ** What an accepted request means *)

Inductive OperatorRecovery :=
| RemediationExtension | InfrastructureRecovery | FollowUpRecovery | NativeReviewRetry
| ReviewCoordinationRecovery | PublicationRetry.

Definition recovery_event (k : OperatorRecovery) : Event :=
  match k with
  | RemediationExtension => Ev.RemediationBudgetExtended
  | InfrastructureRecovery => Ev.InfrastructureRecoveryAuthorized
  | FollowUpRecovery => Ev.FollowUpRecoveryAuthorized
  | NativeReviewRetry => Ev.NativeReviewRetryAuthorized
  | ReviewCoordinationRecovery => Ev.ReviewCoordinationRecoveryAuthorized
  | PublicationRetry => Ev.PublicationRetryAuthorized
  end.

Section laws.
Context `{Codec} {arith : SqlPlusOne}.

Definition recover (k : OperatorRecovery) : RepositoryPolicy -> PublicationRetryRequest -> Z -> Z -> Store
  -> result RecoveryError (ApplyResult * Store) :=
  match k with
  | RemediationExtension => authorize_remediation_extension
  | InfrastructureRecovery => authorize_infrastructure_recovery
  | FollowUpRecovery => authorize_follow_up_recovery
  | NativeReviewRetry => authorize_native_review_retry
  | ReviewCoordinationRecovery => authorize_review_coordination_recovery
  | PublicationRetry => authorize_publication_retry
  end.

Definition inert (p : RepositoryPolicy) : Prop :=
  ic_enabled (po_intake p) = false /\ ic_paused (po_intake p) = true /\ po_dispatch_enabled p = false.

(** What the operator asked for is exactly what the ledger shows, and nothing is running. *)
Record authorized_request (paused : RepositoryPolicy) (request : PublicationRetryRequest) (uid : Z) (s : Store)
  (c : StoredCase) : Prop := {
  ar_root : uid = 0;
  ar_inert : inert paused;
  ar_case : query_case s request.(rq_case_key) = Some c;
}.

Lemma recovery_request_inv paused request uid s c accepted id :
  recovery_request paused request uid s = Ok (c, accepted, id) ->
  authorized_request paused request uid s c /\ id = request.(rq_request_id)
  /\ stored_policy c.(sc_repository_id) c.(sc_policy_revision) s = Ok (Ok accepted).
Proof.
  unfold recovery_request, recovery_context. intros Hr. open_ok. destruct x as [c1 a1]. open_ok. simplify_eq.
  rename select (EventId_from_str _ = _) into Hid. apply textual_id_ok in Hid as ->.
  bools. split; [split; [done| |done]|]; done.
Qed.

Lemma status_running now s report key :
  status now s = Ok report -> report.(ls_direct_attempts_running) = 0 -> running_direct_attempts_for_case key s = 0.
Proof.
  unfold status. intros Hst. open_ok. subst. simpl. unfold attempts_in, running_direct_attempts_for_case, count_rows.
  induction (direct_attempts s) as [|a l IH]; [done|]. simpl.
  destruct (String.eqb (a_status a) "RUNNING"); simpl; [lia|]. rewrite andb_false_r. apply IH.
Qed.

Lemma apply_recovery_outcome c accepted request id ev p now s r s' :
  query_case s c.(sc_case_key) = Some c -> well_keyed c -> 0 <= now -> ev <> Ev.ReviewReady ->
  at_binding c request = true -> apply_recovery c accepted request id ev p now s = Ok (r, s') ->
  (r = Applied /\ moved c ev s s') \/ (r = Replayed /\ s' = s).
Proof.
  intros Hq Hwk Hnow Hev Hb Ha. unfold apply_recovery, recovery_command in Ha. open_ok.
  rename select (case_command _ _ _ _ _ _ _ = _) into Hc. rename select (LedgerController.apply _ _ _ = _) into Hap.
  unfold at_binding in Hb. bools. rename select (sc_state_revision c = _) into Hrev. rewrite <-Hrev in Hc.
  destruct (case_command_inv _ _ _ _ _ _ _ _ Hc) as (Hcid & _).
  eapply command_outcome; [exact Hq|by apply Hwk|exact Hnow|exact Hev|exact Hc|exact Hap].
Qed.

(** The shape the six functions share. *)
Lemma recover_inv k paused request now uid s r s' :
  recover k paused request now uid s = Ok (r, s') ->
  exists c accepted p, authorized_request paused request uid s c
    /\ ((r = Replayed /\ s' = s)
        \/ (at_binding c request = true /\ running_direct_attempts_for_case c.(sc_case_key) s = 0
            /\ apply_recovery c accepted request request.(rq_request_id) (recovery_event k) p now s = Ok (r, s'))).
Proof.
  unfold recover. destruct k;
    unfold authorize_remediation_extension, authorize_infrastructure_recovery, authorize_follow_up_recovery,
      authorize_native_review_retry, authorize_review_coordination_recovery, authorize, authorize_publication_retry;
    intros Hr; open_ok; destruct x as [[c accepted] id];
    rename select (recovery_request _ _ _ _ = _) into Hreq; apply recovery_request_inv in Hreq as (Hreq & -> & _);
    open_ok; match goal with Hx : match recorded ?i ?h with _ => _ end = _ |- _ => destruct (recorded i h); open_ok end;
    try (case_match; [|done]; open_ok; simplify_eq; exists c, accepted, Null; split; [done|by left]).
  all: repeat match goal with x : BuilderResult * string |- _ => destruct x; open_ok end; bools.
  all: eexists c, accepted, _; split; [exact Hreq|right]; split_and!; [done| |eassumption].
  all: solve [done|by eapply status_running].
Qed.

(** C32: Recoveries are exact.  An accepted recovery request came from root under an
    inert installed policy.  A replayed one changes nothing; an applied one names the
    revision and the head its case is at, finds no running attempt of the case, and moves
    that case and no other by the event of the request. *)
Theorem operator_recovery_exact (k : OperatorRecovery) (paused : RepositoryPolicy) (request : PublicationRetryRequest)
  (now uid : Z) (s s' : Store) (r : ApplyResult) (Hnow : 0 <= now)
  (Hkeyed : forall c, query_case s request.(rq_case_key) = Some c -> well_keyed c)
  (Hrun : recover k paused request now uid s = Ok (r, s')) :
  uid = 0 /\ inert paused
  /\ ((r = Replayed /\ s' = s)
      \/ exists c, r = Applied /\ query_case s request.(rq_case_key) = Some c
           /\ c.(sc_state_revision) = request.(rq_expected_revision)
           /\ c.(sc_head_sha) = Some request.(rq_expected_head)
           /\ running_direct_attempts_for_case c.(sc_case_key) s = 0 /\ moved c (recovery_event k) s s').
Proof.
  apply recover_inv in Hrun as (c & accepted & p & [Hu Hi Hc] & Ho). split_and!; [done..|].
  destruct Ho as [|(Hb & Hrun & Ha)]; [by left|].
  assert (query_case s c.(sc_case_key) = Some c) as Hq.
  { pose proof Hc as (row & Hr & ->)%fmap_Some. apply find_case_elem in Hr as [_ Hk]. simpl. by rewrite Hk. }
  eapply apply_recovery_outcome in Ha; [|exact Hq|by apply Hkeyed|done|by destruct k|done].
  destruct Ha as [[-> Hm]|]; [right|by left]. exists c. unfold at_binding in Hb. bools. by split_and!.
Qed.

(** ** An extension and the conversation model *)

Lemma index_conversation_model p :
  index (ser_policy p) "conversation_model" = from_option ser_conversation_model Null (po_conversation_model p).
Proof.
  unfold ser_policy. destruct p as [[] [cm|] ? ? ? ? ? ? ? ? ? ? ? ? ? [cap|] ? ? ? ? [h|] [o|] [st|] [sc|] ? ? ? ?]; reflexivity.
Qed.

Lemma index_insert k k' v m : k <> k' -> index (Object (map_insert k v m)) k' = index (Object m) k'.
Proof. intros Hne. simpl. rewrite map_get_insert. by rewrite decide_False. Qed.

(** What an applied extension was checked against. *)
Lemma extension_validated c rev id p now policy w s s' k :
  case_command c rev id Ev.RemediationBudgetExtended p now [] = Some w ->
  query_case s k = Some c -> well_keyed c ->
  LedgerController.apply policy w s = Ok (Applied, s') ->
  exists old revision limit, policy_payload s c.(sc_repository_id) c.(sc_policy_revision) = Ok old
    /\ match old with
       | Object m => Object (map_insert "max_remediation_rounds" limit (map_insert "revision" revision m))
       | v => v
       end = index p "policy".
Proof.
  intros Hcc Hq Hwk Ha. pose proof (case_command_inv _ _ _ _ _ _ _ _ Hcc) as (Hid & _ & _ & _ & _ & _ & _ & _ & _ & _ & He & Hp & _).
  pose proof (Hwk _ Hid) as Hkey. pose proof Hq as (row & Hrow & Hceq)%fmap_Some. apply find_case_elem in Hrow as [_ Hk].
  assert (c.(sc_case_key) = k) as Hck by (by rewrite Hceq). rewrite Hck in Hkey.
  unfold LedgerController.apply in Ha. open_ok. rename select (transition_input _ _ = _) into Hi.
  apply transition_input_inv in Hi as (? & d & ? & ? & ? & ? & ? & _ & _ & _ & _ & _ & _ & ->).
  rename select (apply_transition _ _ _ = _) into Hap. apply apply_applied_inv in Hap as [_ Hb]. simpl in Hb. open_ok.
  rename select (apply_one _ _ _ = _) into Ho. unfold apply_one in Ho. simpl in Ho. rewrite Hkey, Hq, He, Hp in Ho. simpl in Ho.
  apply bind_ok in Ho as (u1 & _ & Ho). apply bind_ok in Ho as (u2 & _ & Ho). apply bind_ok in Ho as ([pr s1] & Hau & _).
  unfold authorize_event in Hau. simpl in Hau.
  unfold remediation_extension_validate in Hau. simpl in Hau. open_ok. bools.
  rename select (policy_payload _ _ _ = _) into Hold. eexists _, _, _. split; [exact Hold|].
  rename select (same _ _ = true) into Hs. apply bool_decide_eq_true in Hs. exact Hs.
Qed.

(** C33: An installed conversation model blocks every extension.  Intake records a case's
    policy without the conversation model; the extension proposes the installed policy
    with it, and the ledger requires the two to differ in the revision and the limit only.  So
    while a conversation model is installed no extension is ever applied. *)
Theorem conversation_model_blocks_extension (paused intake_policy : RepositoryPolicy) (request : PublicationRetryRequest)
  (now uid : Z) (s s' : Store) (c : StoredCase) (m : ConversationModel)
  (Hmodel : po_conversation_model paused = Some m)
  (Hc : query_case s request.(rq_case_key) = Some c) (Hkeyed : well_keyed c) (Hnow : 0 <= now)
  (Hrecorded : accepted_policy c.(sc_repository_id) c.(sc_policy_revision) s
               = Ok (ser_policy (without_conversations intake_policy))) :
  authorize_remediation_extension paused request now uid s <> Ok (Applied, s').
Proof.
  unfold authorize_remediation_extension. intros Hr. open_ok. destruct x as [[c0 accepted] id].
  rename select (recovery_request _ _ _ _ = _) into Hreq. apply recovery_request_inv in Hreq as ([_ _ Hq] & -> & _).
  rewrite Hc in Hq. injection Hq as <-. open_ok. case_match; [case_match; by open_ok|]. open_ok.
  rename select (apply_recovery _ _ _ _ _ _ _ _ = _) into Ha. unfold apply_recovery, recovery_command in Ha. open_ok.
  rename select (case_command _ _ _ _ _ _ _ = _) into Hcc. rename select (LedgerController.apply _ _ _ = _) into Hap.
  eapply extension_validated in Hap as (old & revision & limit & Hold & Hsame); [|exact Hcc|exact Hc|exact Hkeyed].
  unfold accepted_policy in Hrecorded. rewrite Hrecorded in Hold. injection Hold as <-.
  apply (f_equal (fun v => index v "conversation_model")) in Hsame.
  assert (forall old a b, index (match old with
      | Object m => Object (map_insert "max_remediation_rounds" a (map_insert "revision" b m)) | _ => old end)
    "conversation_model" = index old "conversation_model") as Hidx by (by intros [] ? ?; rewrite ?index_insert).
  rewrite Hidx, index_conversation_model in Hsame. simpl in Hsame.
  change (Null = index (ser_policy (extended_policy paused accepted)) "conversation_model") in Hsame.
  rewrite index_conversation_model in Hsame. simpl in Hsame. rewrite Hmodel in Hsame. discriminate Hsame.
Qed.
End laws.

(** ** A case that used up its rounds on failing CI *)

Definition demo_failing : list Event := take 5 happy_path ++
  [Ev.CiFailed; Ev.BuildRecorded; Ev.ReviewReady; Ev.CiFailed; Ev.BuildRecorded; Ev.ReviewReady;
   Ev.CiFailed; Ev.BuildRecorded; Ev.ReviewReady; Ev.CiFailed].
Definition demo_recorded : Store :=
  after (record_policy (H := demo_codec)
    {| yi_repository_id := 1; yi_revision := 1; yi_accepted_at := 90;
       yi_payload := ser_policy (without_conversations (demo_policy 1 1000)) |} demo_opened).
Definition demo_exhausted : Store := default empty_store (demo_drive demo_failing demo_recorded).

Definition demo_paused (model : option ConversationModel) : RepositoryPolicy :=
  let p := demo_policy 2 1000 in {|
  po_conversations_enabled := false; po_conversation_model := model; po_policy_format := po_policy_format p;
  po_revision := po_revision p; po_repository := po_repository p; po_board := po_board p;
  po_workflow_version := po_workflow_version p; po_checkout := po_checkout p; po_workspace := po_workspace p;
  po_artifacts := po_artifacts p; po_workspace_storage := po_workspace_storage p;
  po_branch_prefix := po_branch_prefix p; po_github := po_github p;
  po_intake := {| ic_enabled := false; ic_paused := true; ic_label := "pip"; ic_trusted_actor_ids := [7];
                  ic_excluded_issue_numbers := []; ic_held_issue_numbers := []; ic_repository_active_limit := 2;
                  ic_global_active_limit := 2 |};
  po_dispatch_enabled := false; po_execution_capacity := None; po_merge := po_merge p; po_max_remediation_rounds := 5;
  po_max_case_elapsed_seconds := 1000; po_max_provider_failures := 3; po_max_hermes_attempts := None;
  po_max_outage_seconds := None; po_max_stall_seconds := None; po_hermes_scratch_root := None;
  po_max_repeated_finding_fingerprint := 2; po_sensitive_scope_categories := ["CRYPTOGRAPHY"];
  po_required_ci_contexts := ["ci"]; po_roles := po_roles p |}.
Definition demo_request : PublicationRetryRequest := {|
  rq_case_key := demo_case_key; rq_expected_revision := 16; rq_expected_head := demo_head;
  rq_request_id := "recovery-1"; rq_reason := "CI was broken" |}.
Definition demo_model : ConversationModel :=
  {| cm_provider := "p"; cm_model := "m"; cm_reasoning_effort := "high" |}.

#[export] Instance demo_plus_one : SqlPlusOne := fun v => v.
Definition demo_extend (model : option ConversationModel) : result RecoveryError (ApplyResult * Store) :=
  recover (H := demo_codec) RemediationExtension (demo_paused model) demo_request 200 0 demo_exhausted.

(** The key of the only case is the rendering of its identity. *)
Lemma demo_exhausted_keyed c : query_case demo_exhausted demo_case_key = Some c -> well_keyed c.
Proof.
  intros (row & Hr & ->)%fmap_Some id Hid. apply find_case_elem in Hr as [Hin _].
  assert (forallb (fun row => match case_id_of (stored_case row) with
            | Some id => String.eqb (case_key id) (c_case_key row) | None => true end)
            (cases demo_exhausted) = true) as Hall by (vm_compute; reflexivity).
  rewrite forallb_forall in Hall. apply list_elem_of_In, Hall in Hin. rewrite Hid in Hin. by apply String.eqb_eq.
Qed.

Lemma operator_recovery_exact_witness :
  exists c s', query_case demo_exhausted demo_case_key = Some c /\ c.(sc_state_revision) = 16
    /\ moved c Ev.RemediationBudgetExtended demo_exhausted s'.
Proof.
  assert (match demo_extend None with Ok (Applied, _) => true | _ => false end = true) as Hk by (vm_compute; reflexivity).
  destruct (demo_extend None) as [[[] s']|] eqn:He; [|done|done]. unfold demo_extend in He.
  destruct (operator_recovery_exact (H := demo_codec) RemediationExtension (demo_paused None) demo_request 200 0
              demo_exhausted s' Applied ltac:(lia) demo_exhausted_keyed He) as (_ & _ & [[Hr _]|(c & _ & Hq & Hrev & _ & _ & Hm)]);
    [discriminate Hr|]. exists c, s'. split; [exact Hq|]. split; [exact Hrev|exact Hm].
Defined.

Lemma conversation_model_blocks_extension_witness :
  match demo_extend (Some demo_model) with Ok (Applied, _) => False | _ => True end.
Proof.
  assert (is_some (query_case demo_exhausted demo_case_key) = true) as Hs by (vm_compute; reflexivity).
  destruct (query_case demo_exhausted demo_case_key) as [c|] eqn:Hc; [|discriminate Hs].
  assert ((fun c => accepted_policy (H := demo_codec) c.(sc_repository_id) c.(sc_policy_revision) demo_exhausted)
            <$> query_case demo_exhausted demo_case_key
          = Some (Ok (ser_policy (without_conversations (demo_policy 1 1000))))) as Ha by (vm_compute; reflexivity).
  rewrite Hc in Ha. injection Ha as Ha.
  pose proof (fun s' => conversation_model_blocks_extension (H := demo_codec) (demo_paused (Some demo_model))
    (demo_policy 1 1000) demo_request 200 0 demo_exhausted s' c demo_model eq_refl Hc (demo_exhausted_keyed c Hc)
    ltac:(lia) Ha) as Hno.
  unfold demo_extend, recover. destruct (authorize_remediation_extension _ _ _ _ _) as [[[] s']|]; [|exact I|exact I].
  exact (Hno s' eq_refl).
Defined.
