(* ===== verification/Resume.v ===== *)
(** * Resume: a human's commands on a parked case

    crates/pip-control/src/resume.rs.  A recorded control command is applied at
    most once: it is ignored, kept waiting, or it abandons the case or continues
    it at the stage its parking event names.  The acknowledgement on GitHub is a
    request whose answer is dropped. *)

From S2P Require Import Prelude Text Parse Clock Mentions Json Serde Intake Domain StateMachine Revision Sql Tables Inputs StoreCore.
From S2P Require Import Recovery Status Attempts Control Records History Frames Steps Invariants Conversations.
From S2P Require Import Ledger System Ingest Policy PolicyLaws Commands Cycles Bounds Park GitHub Ci World Takeover Authorization ActiveIntake.
From stdpp Require Import relations sorting.
Open Scope Z_scope.

(** ** Data *)

Definition RESUME_GRANTED_ROUNDS : Z := 3.
Definition COMMAND_POLL_SECONDS : Z := 300.

Inductive ResumeCycle :=
| ResumeIdle
| ResumeApplied (case_key : string) (comment_id : Z) (command state : string)
| ResumeIgnored (comment_id : Z) (reason : string)
| ResumeWaiting (comment_id : Z) (reason : string).

(** [Invalid] carries a text; where that is the text of another error, the error
    is kept instead. *)
Inductive ResumeError :=
| ResumeStore (e : StoreError)
| ResumeController (e : ControllerError)
| ResumeIntake (e : ActiveIntakeError)
| ResumeInvalid (message : string)
| ResumePolicyInvalid (e : PolicyError)
| ResumeIdInvalid (e : IdentifierError)
| ResumeCommandInvalid (e : RecoveryError)
| ResumePanic.

(** What the controller's cycle has established for the case. *)
Record ResumeContext := {
  rc_policy : RepositoryPolicy; rc_case_key : string; rc_now : Z; rc_authorized : bool;
}.

Definition command_event_id (command : ControlCommand) (c : StoredCase) : string :=
  "event-control-" +:+ show command.(kc_comment_id) +:+ "-" +:+ show c.(sc_state_revision).

Definition guidance_evidence (command : ControlCommand) : list EvidenceInput :=
  if is_empty (trim command.(kc_guidance)) then [] else
  [{| vi_evidence_id := "evidence-control-" +:+ show command.(kc_comment_id); vi_kind := "HUMAN_DISCUSSION";
      vi_source := "github-comment-" +:+ show command.(kc_comment_id);
      vi_payload := json_object [("kind", Str "control_command"); ("command", Str command.(kc_command));
                                 ("actor_id", Number command.(kc_actor_id));
                                 ("body", Str command.(kc_guidance))] |}].

Definition with_evidence (evidence : list EvidenceInput) (w : WorkflowCommand) : WorkflowCommand := {|
  wc_case_id := w.(wc_case_id); wc_event_id := w.(wc_event_id); wc_observed_at := w.(wc_observed_at);
  wc_expected_state := w.(wc_expected_state); wc_expected_state_revision := w.(wc_expected_state_revision);
  wc_accepted_policy_revision := w.(wc_accepted_policy_revision);
  wc_remediation_round := w.(wc_remediation_round); wc_plan_version := w.(wc_plan_version);
  wc_pr_number := w.(wc_pr_number); wc_head_sha := w.(wc_head_sha); wc_event := w.(wc_event);
  wc_accepted_plan_version := w.(wc_accepted_plan_version); wc_next_pr_number := w.(wc_next_pr_number);
  wc_next_head_sha := w.(wc_next_head_sha); wc_event_payload := w.(wc_event_payload); wc_run := w.(wc_run);
  wc_evidence := evidence; wc_findings := w.(wc_findings) |}.

Section resume.
Context `{Codec} {source : IntakeSource}.

Definition control_payload (policy : RepositoryPolicy) (command : ControlCommand) (target : option CaseState)
  (granted : Z) : Value :=
  json_object [("comment_id", Number command.(kc_comment_id)); ("actor_id", Number command.(kc_actor_id));
               ("command", Str command.(kc_command));
               ("resume_target", opt_str (CaseState_to_string <$> target)); ("granted_rounds", Number granted);
               ("policy_revision", Number (po_revision policy));
               ("guidance_sha256", Str (hash_bytes command.(kc_guidance)))].

Definition control_workflow (ctx : ResumeContext) (c : StoredCase) (command : ControlCommand) (event : Event)
  (target : option CaseState) (granted : Z) : result ResumeError WorkflowCommand :=
  event_id ← map_err ResumeIdInvalid (EventId_from_str (command_event_id command c));
  workflow ← map_err ResumeCommandInvalid
    (recovery_command c c.(sc_state_revision) event_id event
       (control_payload (rc_policy ctx) command target granted) (rc_now ctx));
  Ok (with_evidence (workflow.(wc_evidence) ++ guidance_evidence command) workflow).

Definition accepted_case_policy (c : StoredCase) (s : Store) : result ResumeError RepositoryPolicy :=
  loaded ← map_err ResumeStore (stored_policy c.(sc_repository_id) c.(sc_policy_revision) s);
  map_err ResumePolicyInvalid loaded.

Definition widen {E F A} (err : E -> F) (m : Cycle E A) : Cycle F A := fun w =>
  let '(r, w') := m w in (map_err err r, w').

Definition apply (ctx : ResumeContext) (c : StoredCase) (command : ControlCommand) (event : Event)
  (target : option CaseState) (granted : Z) : Cycle ResumeError () :=
  widen ResumeIntake (record_case_policy (rc_policy ctx) (rc_now ctx));;
  accepted ← query (accepted_case_policy c);
  workflow ← lift (control_workflow ctx c command event target granted);
  policy ← lift (ok_or (case_policy accepted) ResumePanic);
  transact (fun s => map_err ResumeController (LedgerController.apply policy workflow s));;
  mret ().

Definition applied (key : string) (command : ControlCommand) (now : Z) : Cycle ResumeError ResumeCycle :=
  c ← query (fun s => ok_or (query_case s key) (ResumeInvalid "case disappeared"));
  transact (fun s => map_err ResumeStore
    (resolve_control_command command.(kc_comment_id) CommandApplied
       (command.(kc_command) +:+ " -> " +:+ c.(sc_state)) now s));;
  mret (ResumeApplied c.(sc_case_key) command.(kc_comment_id) command.(kc_command) c.(sc_state)).

Definition other_active (key : string) (repository : option Z) (cases : list StoredCase) : Z :=
  Z.of_nat (length (List.filter (fun c => negb (String.eqb c.(sc_case_key) key) && active_in repository c) cases)).
Definition capacity_available (policy : RepositoryPolicy) (key : string) (now : Z) (s : Store)
  : result ResumeError bool :=
  report ← map_err ResumeStore (status now s);
  Ok ((other_active key (Some (rid_id (po_repository policy))) report.(ls_cases)
         <? ic_repository_active_limit (po_intake policy))
      && (other_active key None report.(ls_cases) <? ic_global_active_limit (po_intake policy))).

Definition digest_prefix (message : string) : string := take_bytes 12 (hash_bytes message).

Definition acknowledge (policy : RepositoryPolicy) (command : ControlCommand) (issue_number : Z) (message : string)
  : Cycle ResumeError () :=
  match gc_automation_actor_id (po_github policy) with
  | None => mret ()
  | Some actor =>
      let requester := match actor_login command.(kc_actor_id) with
                       | Ok login => "@" +:+ login +:+ " "
                       | Err _ => ""
                       end in
      send (EnsureComment
        {| cs_owner := rid_owner (po_repository policy); cs_repository := rid_name (po_repository policy);
           cs_issue_number := issue_number;
           cs_effect_id := "control-ack-" +:+ show command.(kc_comment_id) +:+ "-" +:+ digest_prefix message;
           cs_expected_actor_id := actor; cs_body := requester +:+ message |}) ()
  end.

Definition ignore (ctx : ResumeContext) (command : ControlCommand) (reason : string) : Cycle ResumeError ResumeCycle :=
  transact (fun s => map_err ResumeStore
    (resolve_control_command command.(kc_comment_id) CommandIgnored reason (rc_now ctx) s));;
  mret (ResumeIgnored command.(kc_comment_id) reason).

(** The stage a command continues at, and the rounds it grants. *)
Definition target_of (command : ControlCommand) (park : ParkingEvent) : CaseState :=
  if String.eqb command.(kc_command) "REPLAN" then State.Planning else Park.resume_target park.
Definition granted_of (park : ParkingEvent) (state : string) : Z :=
  if rounds_exhausted park state then RESUME_GRANTED_ROUNDS else 0.

Definition abandon (ctx : ResumeContext) (c : StoredCase) (command : ControlCommand) : Cycle ResumeError ResumeCycle :=
  apply ctx c command Ev.HumanAbandoned None 0;;
  acknowledge (rc_policy ctx) command c.(sc_issue_number)
    "Stopped working on this issue. Re-add the authorization label to start over.";;
  applied c.(sc_case_key) command (rc_now ctx).

Definition continue_ (ctx : ResumeContext) (c : StoredCase) (command : ControlCommand) (park : ParkingEvent)
  : Cycle ResumeError ResumeCycle :=
  let target := target_of command park in
  let granted := granted_of park c.(sc_state) in
  apply ctx c command Ev.HumanResumed (Some target) granted;;
  let rounds := if 0 <? granted then " with " +:+ show granted +:+ " more remediation rounds" else "" in
  acknowledge (rc_policy ctx) command c.(sc_issue_number)
    ("Resuming at " +:+ stage (CaseState_to_string target) +:+ rounds +:+ ".");;
  applied c.(sc_case_key) command (rc_now ctx).

Definition apply_command (ctx : ResumeContext) (command : ControlCommand) : Cycle ResumeError ResumeCycle :=
  let policy := rc_policy ctx in
  c ← query (fun s => ok_or (query_case s (rc_case_key ctx)) (ResumeInvalid "control command case is missing"));
  if negb (one_of PARKED_STATES c.(sc_state)) then ignore ctx command "the case is not paused" else
  found ← query (fun s => map_err ResumeStore (parking_event c.(sc_case_key) s));
  park ← lift (ok_or found (ResumeInvalid "parked case has no parking event"));
  if command.(kc_received_at) <? park.(pe_observed_at)
  then ignore ctx command "the command predates the current pause" else
  if String.eqb command.(kc_command) "ABANDON" then abandon ctx c command else
  if negb (rc_authorized ctx)
  then mret (ResumeWaiting command.(kc_comment_id) "issue authorization could not be confirmed") else
  live ← query (fun s => map_err ResumeStore (live_direct_attempts_for_case c.(sc_case_key) (rc_now ctx) s));
  if 0 <? live then mret (ResumeWaiting command.(kc_comment_id) "a previous worker is still running") else
  free ← query (capacity_available policy c.(sc_case_key) (rc_now ctx));
  if negb free then
    acknowledge policy command c.(sc_issue_number)
      "Queued: Pip is at its active-issue limit and will resume this case when a slot frees up.";;
    mret (ResumeWaiting command.(kc_comment_id) "the active-issue limit is reached")
  else continue_ ctx c command park.

Definition apply_control_commands_once (ctx : ResumeContext) : Cycle ResumeError ResumeCycle :=
  pending ← query (fun s => map_err ResumeStore
    (pending_control_commands (rid_id (po_repository (rc_policy ctx))) (Some (rc_case_key ctx)) s));
  match pending with
  | [] => mret ResumeIdle
  | command :: _ => apply_command ctx command
  end.

(** ** Commands the webhook missed *)

Definition poll_comment (policy : RepositoryPolicy) (c : StoredCase) (park : ParkingEvent) (automation : Z)
  (login : string) (recorded : Z) (comment : IssueCommentSnapshot) : Cycle ResumeError Z :=
  match unix_seconds comment.(ct_created_at) with
  | None => mret recorded
  | Some created =>
      if (created <? park.(pe_observed_at)) || negb (String.eqb comment.(ct_created_at) comment.(ct_updated_at))
         || (comment.(ct_actor_id) =? automation)
         || negb (bool_decide (comment.(ct_actor_id) ∈ ic_trusted_actor_ids (po_intake policy)))
      then mret recorded else
      match parse_control_command comment.(ct_body) login with
      | None => mret recorded
      | Some (command, guidance) =>
          result ← transact (fun s => map_err ResumeStore (record_control_command
            {| ki_comment_id := comment.(ct_id); ki_repository_id := rid_id (po_repository policy);
               ki_thread_number := c.(sc_issue_number); ki_case_key := Some c.(sc_case_key);
               ki_actor_id := comment.(ct_actor_id); ki_command := command; ki_guidance := guidance;
               ki_received_at := created |} s));
          mret (recorded + applied_count result)
      end
  end.

Definition poll_control_commands (policy : RepositoryPolicy) (key : string) : Cycle ResumeError Z :=
  let evidence {A} (r : result GitHubError A) := map_err (fun e => ResumeInvalid (github_error_text e)) r in
  found ← query (fun s => Ok (query_case s key));
  match found with
  | None => mret 0
  | Some c =>
      found ← query (fun s => map_err ResumeStore (parking_event key s));
      match found, gc_automation_actor_id (po_github policy) with
      | Some park, Some automation =>
          login ← lift (evidence (actor_login automation));
          snapshot ← lift (evidence
            (intake (rid_owner (po_repository policy)) (rid_name (po_repository policy)) c.(sc_issue_number)));
          fold_cycle (poll_comment policy c park automation login) 0 snapshot.(in_comments)
      | _, _ => mret 0
      end
  end.
End resume.

(** ** What a command does *)

Section laws.
Context `{Codec} {source : IntakeSource}.

Lemma widen_run {E F A B} (err : E -> F) (m : Cycle E A) (k : A -> Cycle F B) w :
  (widen err m ≫= k) w = match m w with (Ok a, w1) => k a w1 | (Err e, w1) => (Err (err e), w1) end.
Proof. unfold mbind, cycle_bind, widen. by destruct (m w) as [[]]. Qed.

Lemma sound_widen {E F A} (err : E -> F) (m : Cycle E A) : Sound m -> Sound (widen err m).
Proof.
  intros Hm w r w' Hw. unfold widen in Hw. destruct (m w) as [r1 w1] eqn:Hr. injection Hw as _ <-.
  exact (Hm _ _ _ Hr).
Qed.

Lemma control_workflow_inv ctx c command event target granted w :
  control_workflow ctx c command event target granted = Ok w ->
  case_id_of c = Some w.(wc_case_id) /\
  case_command c c.(sc_state_revision) (command_event_id command c) event
    (control_payload (rc_policy ctx) command target granted) (rc_now ctx) (guidance_evidence command) = Some w.
Proof.
  unfold control_workflow, recovery_command. intros Hw. open_ok.
  rename select (EventId_from_str _ = _) into Hid. apply textual_id_ok in Hid as ->.
  rename select (case_command _ _ _ _ _ _ _ = _) into Hc.
  assert (case_command c c.(sc_state_revision) (command_event_id command c) event
    (control_payload (rc_policy ctx) command target granted) (rc_now ctx) (guidance_evidence command)
    = Some (with_evidence (guidance_evidence command) x0)) as Hc'.
  { unfold case_command in *. destruct (CaseState_from_str (sc_state c)) as [st|];
      [|by apply bind_Some in Hc as (? & _ & Hc)].
    apply bind_Some in Hc as (cid & -> & Hc). cbn [mbind option_bind] in *.
    apply bind_Some in Hc as (rv & -> & (p0 & -> & (h & -> & Hw)%bind_Some)%bind_Some). by injection Hw as <-. }
  destruct (case_command_inv _ _ _ _ _ _ _ _ Hc) as (Hcid & _ & _ & _ & _ & _ & _ & _ & _ & _ & _ & _ & He & _).
  rewrite He in *. subst. split; done.
Qed.

(** A resumed case is at the stage its command names. *)
Lemma resumed_at policy w s s' c' target :
  wf_command w -> store_inv s -> w.(wc_event) = Ev.HumanResumed ->
  index w.(wc_event_payload) "resume_target" = Str (CaseState_to_string target) ->
  LedgerController.apply policy w s = Ok (Applied, s') ->
  query_case s' (case_key w.(wc_case_id)) = Some c' -> c'.(sc_state) = CaseState_to_string target.
Proof.
  intros Hw Hinv He Hp Ha Hq. apply apply_applied in Ha as (g & i & c & p & _ & _ & _ & Hi & Ha); [|done].
  apply transition_input_inv in Hi as (t & d & to & rd & pl & pr & hd & Hrt & Ht & _ & _ & _ & _ & ->).
  pose proof (proj1 (find_case_elem _ _ _ (ap_case _ _ _ _ _ Ha))) as Hin.
  pose proof (inv_positive _ _ Hinv c Hin) as Hpos.
  assert (0 <= c.(c_state_revision)) as Hpos' by lia.
  pose proof (applied_find_case _ _ _ _ _ Hpos' Ha) as Hnew. simpl in Hnew.
  unfold query_case in Hq. rewrite Hnew in Hq. injection Hq as <-. simpl. f_equal.
  unfold Ledger.resume_target in Hrt. rewrite He, Hp in Hrt. simpl in Hrt.
  replace (CaseState_from_str (CaseState_to_string target)) with (Ok (E := ParseDomainValueError) target) in Hrt
    by (by destruct target). injection Hrt as <-. rewrite He in Ht.
  unfold transition in Ht. destruct (_ =? 0); [done|]. clear -Ht.
  destruct (wc_expected_state w), target; vm_compute in Ht; by simplify_eq.
Qed.


(** Where a command leaves its case. *)
Definition landed (target : option CaseState) (c' : StoredCase) : Prop :=
  match target with
  | None => c'.(sc_state) = "ABANDONED"%string
  | Some t => c'.(sc_state) = CaseState_to_string t
  end.

(** The event and the target a cycle uses together. *)
Definition human_event (ev : Event) (target : option CaseState) : Prop :=
  match target with None => ev = Ev.HumanAbandoned | Some _ => ev = Ev.HumanResumed end.

Lemma same_cases_query s s' k : s'.(cases) = s.(cases) -> query_case s' k = query_case s k.
Proof. intros Hc. unfold query_case, find_case. by rewrite Hc. Qed.

(** Nothing but the case [c] moved, and that one landed. *)
Definition only_lands (c : StoredCase) (target : option CaseState) (s s' : Store) : Prop :=
  s'.(cases) = s.(cases)
  \/ (exists c', query_case s' c.(sc_case_key) = Some c' /\ landed target c')
     /\ forall k, k <> c.(sc_case_key) -> query_case s' k = query_case s k.

Lemma only_lands_after c target s0 s s' s1 :
  s.(cases) = s0.(cases) -> only_lands c target s s' -> s1.(cases) = s'.(cases) -> only_lands c target s0 s1.
Proof.
  intros H0 [Hs|[(c' & Hq & Hl) Ho]] H1; [left; congruence|right]. split.
  - exists c'. by rewrite (same_cases_query s').
  - intros k Hk. by rewrite (same_cases_query s' s1), Ho, (same_cases_query s0 s).
Qed.

Lemma abandoned_by_human st ctx d : transition st Ev.HumanAbandoned ctx = Ok d -> next_state d = State.Abandoned.
Proof. unfold transition. destruct (_ =? 0); [done|]. destruct st; intros Ht; vm_compute in Ht; by simplify_eq. Qed.

Lemma command_lands ctx c command ev target granted policy w s r s' :
  human_event ev target -> store_inv s -> 0 <= rc_now ctx -> well_keyed c ->
  query_case s c.(sc_case_key) = Some c ->
  control_workflow ctx c command ev target granted = Ok w -> LedgerController.apply policy w s = Ok (r, s') ->
  only_lands c target s s'.
Proof.
  unfold only_lands. intros Hev Hinv Hnow Hwk Hq Hw Ha. apply control_workflow_inv in Hw as [Hid Hw].
  assert (case_key w.(wc_case_id) = c.(sc_case_key)) as Hkey by (by apply Hwk).
  assert (ev <> Ev.ReviewReady) as Hne by (unfold human_event in Hev; case_match; by subst).
  destruct (command_outcome _ _ _ _ _ _ _ _ _ _ _ Hq Hkey Hnow Hne Hw Ha) as [[-> Hm]|[_ ->]]; [right|by left].
  split; [|exact (moved_others _ _ _ _ Hm)].
  pose proof (moved_state _ _ _ _ Hm) as (st & cx & d & c' & Ht & Hq' & Hs). exists c'. split; [done|].
  unfold landed, human_event in *. destruct target as [t|]; subst.
  - destruct (case_command_inv _ _ _ _ _ _ _ _ Hw) as (_ & _ & _ & _ & _ & _ & _ & _ & _ & _ & He & Hp & _).
    rewrite <-Hkey in Hq'. pose proof (query_case_ranges _ _ _ Hq) as Hrng. eapply resumed_at; [|done|exact He| |exact Ha|exact Hq'].
    + eapply floor_applied_wf; [|exact Ha].
      exact (case_command_floor _ _ _ _ _ _ _ _ Hrng (cr_revision _ Hrng) Hnow Hne Hw).
    + by rewrite Hp.
  - apply abandoned_by_human in Ht. by rewrite Ht in Hs.
Qed.

(** *** Parts of the cycle that leave the cases alone *)

Lemma record_case_policy_cases policy now w r w' :
  record_case_policy policy now w = (r, w') -> (w_store w').(cases) = (w_store w).(cases).
Proof.
  unfold record_case_policy, transact. intros Hrec.
  destruct (map_err IntakeStore _) as [[x s1]|] eqn:Hm in Hrec; injection Hrec as <- <-; [|done]. open_ok.
  rename select (record_policy _ _ = _) into Hp. by apply record_policy_evolves in Hp as (_ & Hc & _).
Qed.

Lemma resolve_cases id st o now s u s' :
  resolve_control_command id st o now s = Ok (u, s') -> s'.(cases) = s.(cases).
Proof. by intros (_ & Hc & _)%resolve_command_evolves. Qed.

Lemma ignore_cases ctx command reason w r w' :
  ignore ctx command reason w = (r, w') -> (w_store w').(cases) = (w_store w).(cases).
Proof.
  unfold ignore. intros Hr. run Hr; simplify_eq; [|done]. open_ok. by eapply resolve_cases.
Qed.

Lemma acknowledge_store policy command n message w r w' :
  acknowledge policy command n message w = (r, w') -> r = Ok () /\ w_store w' = w_store w.
Proof. unfold acknowledge, send. case_match; by intros [= <- <-]. Qed.

Lemma applied_cases key command now w r w' :
  applied key command now w = (r, w') -> (w_store w').(cases) = (w_store w).(cases).
Proof.
  unfold applied. intros Hr. run Hr; simplify_eq; try done. open_ok. by eapply resolve_cases.
Qed.

Lemma answer_cases policy n message key command now w r w' :
  (acknowledge policy command n message;; applied key command now) w = (r, w') ->
  (w_store w').(cases) = (w_store w).(cases).
Proof.
  unfold mbind, cycle_bind. destruct (acknowledge _ _ _ _ w) as [r1 w1] eqn:Hk.
  apply acknowledge_store in Hk as [-> <-]. apply applied_cases.
Qed.

Lemma apply_lands ctx c command ev target granted w r w' :
  human_event ev target -> system_reachable (w_store w) -> 0 <= rc_now ctx -> well_keyed c ->
  query_case (w_store w) c.(sc_case_key) = Some c ->
  apply ctx c command ev target granted w = (r, w') -> only_lands c target (w_store w) (w_store w').
Proof.
  intros Hev Hreach Hnow Hwk Hq Hr. unfold apply in Hr. rewrite widen_run in Hr.
  destruct (record_case_policy _ _ w) as [[a|] w1] eqn:Hrec; pose proof (record_case_policy_cases _ _ _ _ _ Hrec) as Hc;
    [|injection Hr as <- <-; by left].
  apply record_case_policy_sound in Hrec. run Hr; simplify_eq; try by left. open_ok.
  eapply only_lands_after; [exact Hc| |reflexivity]. eapply command_lands; [done| |done|done| |done|done].
  - apply system_history. unfold system_reachable in *. etrans; [exact Hreach|exact Hrec].
  - by rewrite (same_cases_query (w_store w)).
Qed.

(** A part of the cycle that applies the command and then answers. *)
Lemma answered_lands ctx c command ev target granted message w r w' :
  human_event ev target -> system_reachable (w_store w) -> 0 <= rc_now ctx -> well_keyed c ->
  query_case (w_store w) c.(sc_case_key) = Some c ->
  (apply ctx c command ev target granted;;
   acknowledge (rc_policy ctx) command c.(sc_issue_number) message;;
   applied c.(sc_case_key) command (rc_now ctx)) w = (r, w') ->
  only_lands c target (w_store w) (w_store w').
Proof.
  intros Hev Hreach Hnow Hwk Hq Hr. unfold mbind, cycle_bind at 1 in Hr.
  destruct (apply _ _ _ _ _ _ w) as [r1 w1] eqn:Ha. apply apply_lands in Ha; [|done..].
  destruct r1; [|by injection Hr as <- <-]. eapply only_lands_after; [done|exact Ha|]. by eapply answer_cases.
Qed.

(** What must hold for a command to move its case. *)
Record commanded (ctx : ResumeContext) (s : Store) (c : StoredCase) (target : option CaseState) : Prop := {
  cd_parked : one_of PARKED_STATES c.(sc_state) = true;
  cd_command : exists command rest park,
    pending_control_commands (rid_id (po_repository (rc_policy ctx))) (Some c.(sc_case_key)) s = Ok (command :: rest)
    /\ parking_event c.(sc_case_key) s = Ok (Some park) /\ park.(pe_observed_at) <= command.(kc_received_at)
    /\ target = (if String.eqb command.(kc_command) "ABANDON" then None else Some (target_of command park));
  cd_ready : target <> None ->
    rc_authorized ctx = true /\ live_direct_attempts_for_case c.(sc_case_key) (rc_now ctx) s = Ok 0
    /\ capacity_available (rc_policy ctx) c.(sc_case_key) (rc_now ctx) s = Ok true;
}.

Lemma apply_command_lands ctx command rest w r w' :
  system_reachable (w_store w) -> 0 <= rc_now ctx ->
  (forall c, query_case (w_store w) (rc_case_key ctx) = Some c -> well_keyed c) ->
  pending_control_commands (rid_id (po_repository (rc_policy ctx))) (Some (rc_case_key ctx)) (w_store w)
    = Ok (command :: rest) ->
  apply_command ctx command w = (r, w') ->
  (w_store w').(cases) = (w_store w).(cases)
  \/ exists c target, query_case (w_store w) (rc_case_key ctx) = Some c /\ commanded ctx (w_store w) c target
       /\ only_lands c target (w_store w) (w_store w').
Proof.
  intros Hreach Hnow Hwk Hpend Hr. unfold apply_command in Hr. rewrite query_run in Hr.
  destruct (query_case (w_store w) (rc_case_key ctx)) as [c|] eqn:Hq; simpl in Hr; [|injection Hr as <- <-; by left].
  specialize (Hwk c eq_refl). pose proof (query_case_key _ _ _ Hq) as Hk. rewrite <-Hk in Hq, Hpend.
  destruct (one_of PARKED_STATES c.(sc_state)) eqn:Hparked; simpl in Hr; [|left; by eapply ignore_cases].
  rewrite query_run in Hr. destruct (parking_event _ _) as [[park|]|] eqn:Hpark; simpl in Hr;
    [|by injection Hr as <- <-; left..].
  rewrite lift_run in Hr. simpl in Hr.
  destruct (_ <? _) eqn:Hold in Hr; [left; by eapply ignore_cases|]. apply Z.ltb_ge in Hold.
  destruct (String.eqb (kc_command command) "ABANDON") eqn:Hab.
  - right. exists c, None. split_and!; [done| |].
    + split; [done| |done]. exists command, rest, park. by rewrite Hab.
    + by eapply (answered_lands _ _ _ Ev.HumanAbandoned).
  - destruct (rc_authorized ctx) eqn:Hauth; simpl in Hr; [|injection Hr as <- <-; by left].
    rewrite query_run in Hr. destruct (live_direct_attempts_for_case _ _ _) as [live|] eqn:Hlive; simpl in Hr;
      [|injection Hr as <- <-; by left].
    destruct (0 <? live) eqn:Hl; [injection Hr as <- <-; by left|]. rewrite query_run in Hr.
    destruct (capacity_available _ _ _ _) as [[]|] eqn:Hcap; simpl in Hr; [| |injection Hr as <- <-; by left].
    + right. exists c, (Some (target_of command park)). split_and!; [done| |by eapply (answered_lands _ _ _ Ev.HumanResumed)].
      split; [done| |]; [exists command, rest, park; by rewrite Hab|]. intros _. split_and!; [done| |done].
      rewrite Hlive. f_equal. unfold live_direct_attempts_for_case in Hlive. open_ok. subst. unfold count_rows in *. lia.
    + unfold mbind, cycle_bind in Hr. destruct (acknowledge _ _ _ _ w) as [r1 w1] eqn:Ha.
      apply acknowledge_store in Ha as [-> Hw]. injection Hr as <- <-. left. by rewrite Hw.
Qed.

(** C26: Only a human's fresh command moves a parked case.  Whatever a cycle of
    the control commands answers, a case of the ledger that it changed is the case the
    cycle was given; it was parked, a recorded command for it is no older than its
    parking event, and it was either abandoned by that command or continued at the stage
    the parking event (or a replan) names.  Continuing it needed a confirmed authorization, no
    running builder and a free slot. *)
Theorem only_commands_unpark (ctx : ResumeContext) (w w' : World) (r : result ResumeError ResumeCycle)
  (key : string) (c c' : StoredCase) (Hreach : system_reachable (w_store w)) (Hnow : 0 <= rc_now ctx)
  (Hkeyed : forall c, query_case (w_store w) (rc_case_key ctx) = Some c -> well_keyed c)
  (Hrun : apply_control_commands_once ctx w = (r, w'))
  (Hc : query_case (w_store w) key = Some c) (Hc' : query_case (w_store w') key = Some c') (Hne : c' <> c) :
  key = rc_case_key ctx /\ exists target, commanded ctx (w_store w) c target /\ landed target c'.
Proof.
  unfold apply_control_commands_once in Hrun. rewrite query_run in Hrun.
  destruct (pending_control_commands _ _ _) as [[|command rest]|] eqn:Hp; simpl in Hrun;
    [injection Hrun as <- <-; congruence| |injection Hrun as <- <-; congruence].
  destruct (apply_command_lands _ _ _ _ _ _ Hreach Hnow Hkeyed Hp Hrun) as [Hs|(c0 & target & Hq & Hcmd & Hl)].
  { rewrite (same_cases_query (w_store w)) in Hc' by done. congruence. }
  destruct Hl as [Hs|[(c1 & Hq1 & Hl) Ho]].
  { rewrite (same_cases_query (w_store w)) in Hc' by done. congruence. }
  pose proof (query_case_key _ _ _ Hq) as Hk. rewrite Hk in *.
  destruct (decide (key = rc_case_key ctx)) as [->|Hne']; [|rewrite Ho in Hc' by done; congruence].
  split; [done|]. exists target. split; congruence.
Qed.

(** *** The cycles are made of system steps *)

Lemma sound_resolve id st o now :
  Sound (transact (fun s => map_err ResumeStore (resolve_control_command id st o now s))).
Proof.
  apply sound_quiet. intros s a s' Hr. open_ok. split; [by eapply step_resolve|by eapply resolve_command_evolves].
Qed.

Lemma sound_apply ctx c command ev target granted :
  case_ranges c -> 0 <= rc_now ctx -> ev <> Ev.ReviewReady -> Sound (apply ctx c command ev target granted).
Proof.
  intros Hrng Hnow Hev. unfold apply. apply sound_bind; [apply sound_widen, record_case_policy_sound|]. intros []; sound.
  all: rename select (control_workflow _ _ _ _ _ _ = _) into Hw; apply control_workflow_inv in Hw as [_ Hw];
    apply sound_command; by eapply case_command_floor; [done|apply Hrng|done| |exact Hw].
Qed.

Lemma sound_acknowledge policy command n message : Sound (acknowledge policy command n message).
Proof. unfold acknowledge. sound. Qed.
Lemma sound_applied key command now : Sound (applied key command now).
Proof. unfold applied. sound. apply sound_resolve. Qed.

Lemma commands_sound ctx : 0 <= rc_now ctx -> Sound (apply_control_commands_once ctx).
Proof.
  intros Hnow. unfold apply_control_commands_once, apply_command, ignore, abandon, continue_.
  sound; eauto using sound_resolve, sound_acknowledge, sound_applied.
  all: apply sound_apply; [|done..]; open_ok; by eapply query_case_ranges.
Qed.

Lemma poll_sound policy key : Sound (poll_control_commands policy key).
Proof.
  unfold poll_control_commands, poll_comment. sound. apply sound_quiet. intros ? ? ? Hr. open_ok.
  split; [by eapply step_command|by eapply record_command_evolves].
Qed.
End laws.

(** ** A case parked by a bound, and a trusted comment *)

Definition demo_parked : Store := demo_run (take 5 happy_path ++ [Ev.OperationalBoundReached]).
Definition demo_comment (actor : Z) : IssueCommentSnapshot :=
  {| ct_id := 30; ct_actor_id := actor; ct_issue_number := 2; ct_html_url := ""; ct_body := "@pip-bot resume";
     ct_body_sha256 := ""; ct_created_at := "2026-01-01T00:00:00Z"; ct_updated_at := "2026-01-01T00:00:00Z" |}.
Definition demo_comment_source (actor : Z) : IntakeSource := {|
  discover owner repository label := Ok [demo_issue true];
  intake owner repository number := Ok
    {| in_repository := in_repository (demo_intake true); in_issue := in_issue (demo_intake true);
       in_content := in_content (demo_intake true); in_label_events := in_label_events (demo_intake true);
       in_comments := [demo_comment actor] |};
  actor_login id := Ok "pip-bot"%string;
  discussion_comment owner repository thread kind id := Err InvalidIdentity;
  claim_issue owner repository expected actor := Ok (demo_issue true) |}.

Definition demo_context : ResumeContext :=
  {| rc_policy := demo_policy 1 1000; rc_case_key := demo_case_key; rc_now := 1767225700; rc_authorized := true |}.
Definition demo_polled : World :=
  (poll_control_commands (H := demo_codec) (source := demo_comment_source 7) (demo_policy 1 1000) demo_case_key
     (demo_world demo_parked)).2.
Definition demo_resumed : World :=
  (apply_control_commands_once (H := demo_codec) (source := demo_comment_source 7) demo_context demo_polled).2.

Lemma demo_polled_reachable : system_reachable (H := demo_codec) (w_store demo_polled).
Proof.
  destruct (poll_control_commands (H := demo_codec) (source := demo_comment_source 7) (demo_policy 1 1000) demo_case_key
     (demo_world demo_parked)) as [r w'] eqn:Hp.
  assert (w' = demo_polled) as <- by (unfold demo_polled; by rewrite Hp).
  apply poll_sound in Hp. unfold system_reachable. etrans; [|exact Hp]. apply demo_run_reachable. vm_compute. reflexivity.
Qed.

Lemma only_commands_unpark_witness :
  exists c', query_case (w_store demo_resumed) demo_case_key = Some c'
    /\ exists target, landed target c' /\ c'.(sc_state) = "WAITING_CI"%string.
Proof.
  assert (state_in demo_resumed = Some "WAITING_CI"%string) as Hs by (vm_compute; reflexivity).
  assert (state_in demo_polled = Some "ESCALATED"%string) as Hs0 by (vm_compute; reflexivity).
  apply fmap_Some in Hs as (c' & Hc' & Hst), Hs0 as (c & Hc & Hst0).
  destruct (apply_control_commands_once (H := demo_codec) (source := demo_comment_source 7) demo_context demo_polled)
    as [r w'] eqn:Hrun.
  assert (w' = demo_resumed) as -> by (unfold demo_resumed; by rewrite Hrun).
  destruct (only_commands_unpark (H := demo_codec) (source := demo_comment_source 7) demo_context demo_polled demo_resumed
              r demo_case_key c c') as (_ & target & _ & Hl).
  - exact demo_polled_reachable.
  - vm_compute. discriminate.
  - intros c0 Hc0 id Hid. change (rc_case_key demo_context) with demo_case_key in Hc0.
    rewrite Hc in Hc0. injection Hc0 as <-.
    assert (forallb (fun row => match case_id_of (stored_case row) with
              | Some id => String.eqb (case_key id) (c_case_key row) | None => true end)
              (cases (w_store demo_polled)) = true) as Hall by (vm_compute; reflexivity).
    apply fmap_Some in Hc as (row & Hrow & ->). apply find_case_elem in Hrow as [Hin _].
    rewrite forallb_forall in Hall. apply list_elem_of_In, Hall in Hin. rewrite Hid in Hin. by apply String.eqb_eq.
  - exact Hrun.
  - exact Hc.
  - exact Hc'.
  - intros ->. congruence.
  - exists c'. split; [exact Hc'|]. exists target. split; [exact Hl|exact (eq_sym Hst)].
Defined.
