(* ===== verification/Inbox.v ===== *)
(** * Inbox: what a delivered webhook may do

    crates/pip-control/src/conversations.rs and [ingest_webhook] of intake.rs, with
    [verify_webhook] of crates/pip-github/src/lib.rs.  A delivery counts only with an exact
    signature; a labeled issue goes through the intake of ActiveIntake.v; a comment of a
    trusted human becomes a control command on a parked case or a conversation.
    HMAC-SHA256 is a parameter. *)

From S2P Require Import Prelude Text Parse Mentions Json Serde Intake Domain StateMachine Revision Sql Tables Inputs Recovery StoreCore.
From S2P Require Import Status Control Records History Frames Steps Invariants Conversations.
From S2P Require Import Ledger System Ingest Policy PolicyLaws Commands Cycles Bounds GitHub World Takeover Authorization ActiveIntake.
From Stdlib Require Import Ascii.
From stdpp Require Import relations sorting.
Open Scope Z_scope.

(** ** Signatures (pip-github) *)

(** The tag of a payload under a secret, as bytes (crate [hmac]). *)
Class Mac := hmac_sha256 : string -> string -> list Z.

Definition hex (byte : Z) : option Z :=
  if (48 <=? byte) && (byte <=? 57) then Some (byte - 48)
  else if (97 <=? byte) && (byte <=? 102) then Some (byte - 97 + 10)
  else None.

(** [chunks_exact(2)] with [hex] on both halves: a bad digit stops the loop. *)
Fixpoint hex_pairs (l : list Z) : option (list Z) :=
  match l with
  | a :: b :: l =>
      high ← hex a;
      low ← hex b;
      rest ← hex_pairs l;
      Some (Z.lor (Z.shiftl high 4 mod 256) low :: rest)
  | _ => Some []
  end.

Definition verify_webhook `{Mac} (secret payload signature_header : string) : bool :=
  match Parse.strip_prefix "sha256=" signature_header with
  | None => false
  | Some signature =>
      if negb (len signature =? 64) then false else
      match hex_pairs (bytes signature) with
      | None => false
      | Some tag => bool_decide (tag = hmac_sha256 secret payload)
      end
  end.

(** ** Payloads *)

(** A struct that ignores other keys. *)
Definition open_struct (fields : list string) (v : Value) : option (list (string * Value)) :=
  match v with
  | Object m => Some m
  | Array l => if bool_decide (length l = length fields) then Some (zip fields l) else None
  | _ => None
  end.

Record WebhookRepository := { wr_id : Z; wr_full_name : string }.
Record WebhookIssue := { wis_id : Z; wis_number : Z }.
Record IssuesWebhook := {
  iw_action : string; iw_repository : WebhookRepository; iw_issue : WebhookIssue;
  iw_label : option string; iw_sender : Z;
}.
Definition de_webhook_repository (v : Value) : option WebhookRepository :=
  m ← open_struct ["id"; "full_name"] v;
  i ← field m "id" de_u64;
  n ← field m "full_name" as_str;
  Some {| wr_id := i; wr_full_name := n |}.
Definition de_webhook_issue (v : Value) : option WebhookIssue :=
  m ← open_struct ["id"; "number"] v;
  i ← field m "id" de_u64;
  n ← field m "number" de_u64;
  Some {| wis_id := i; wis_number := n |}.
Definition de_webhook_label (v : Value) : option string :=
  m ← open_struct ["name"] v; field m "name" as_str.
Definition de_webhook_sender (v : Value) : option Z :=
  m ← open_struct ["id"] v; field m "id" de_u64.
Definition de_issues_webhook (v : Value) : option IssuesWebhook :=
  m ← open_struct ["action"; "repository"; "issue"; "label"; "sender"] v;
  a ← field m "action" as_str;
  r ← field m "repository" de_webhook_repository;
  i ← field m "issue" de_webhook_issue;
  l ← de_option de_webhook_label (map_get "label" m);
  s ← field m "sender" de_webhook_sender;
  Some {| iw_action := a; iw_repository := r; iw_issue := i; iw_label := l; iw_sender := s |}.

Definition ser_discussion (d : DiscussionComment) : Value :=
  json_object ([("id", Number d.(dc_id)); ("actor_id", Number d.(dc_actor_id)); ("human", Bool d.(dc_human));
                ("body", Str d.(dc_body)); ("updated_at", Str d.(dc_updated_at));
                ("reply_to", opt_number d.(dc_reply_to))]
               ++ (if bool_decide (d.(dc_context) = Null) then [] else [("context", d.(dc_context))])).

(** ** Who may speak *)

(** A trusted account that is none of Pip's own. *)
Definition trusted_human (policy : RepositoryPolicy) (automation actor : Z) : bool :=
  negb ((actor =? automation)
        || bool_decide (Some actor ∈ [gc_reviewer_general_actor_id (po_github policy);
                                      gc_reviewer_secperf_actor_id (po_github policy)])
        || negb (bool_decide (actor ∈ ic_trusted_actor_ids (po_intake policy)))).

Definition positive (o : option Z) : result ActiveIntakeError Z :=
  ok_or (n ← o; if 0 <? n then Some n else None) IntakeInvalidIdentity.
Definition comment_of (event_name : string) (value : Value) : Value :=
  if String.eqb event_name "pull_request_review" then index value "review" else index value "comment".
Definition thread_of (value : Value) : option Z :=
  match as_u64 (index (index value "issue") "number") with
  | Some n => Some n
  | None => as_u64 (index (index value "pull_request") "number")
  end.

(** The newest workflow of the thread's issue or pull request. *)
Definition on_thread (policy : RepositoryPolicy) (thread : Z) (c : StoredCase) : bool :=
  (c.(sc_repository_id) =? rid_id (po_repository policy))
  && ((c.(sc_issue_number) =? thread) || bool_decide (c.(sc_pr_number) = Some thread)).
Definition thread_case (policy : RepositoryPolicy) (thread : Z) (cases : list StoredCase) : option StoredCase :=
  max_by (fun a b => a.(sc_workflow_version) <=? b.(sc_workflow_version)) (List.filter (on_thread policy thread) cases).

Section inbox.
Context `{Codec} {source : IntakeSource}.

(** ** Control commands *)

Definition live_comment (policy : RepositoryPolicy) (thread : Z) (event_name : string) (id : Z)
  : result ActiveIntakeError (option DiscussionComment) :=
  match discussion_comment (rid_owner (po_repository policy)) (rid_name (po_repository policy)) thread event_name id with
  | Ok live => Ok (Some live)
  | Err (HttpStatus code) => if code =? 404 then Ok None else Err (evidence_error (HttpStatus code))
  | Err e => Err (evidence_error e)
  end.

Definition control_command (policy : RepositoryPolicy) (value : Value) (envelope : WebhookEnvelope)
  : Cycle ActiveIntakeError (option string) :=
  let comment := comment_of envelope.(we_event_name) value in
  let body := default "" (as_str (index comment "body")) in
  if negb (starts_with_char "@" (trim_start body)) then mret None else
  match gc_automation_actor_id (po_github policy) with
  | None => mret None
  | Some automation =>
      let actor := default 0 (as_u64 (index (index value "sender") "id")) in
      if negb (trusted_human policy automation actor) then mret None else
      login ← lift (map_err evidence_error (actor_login automation));
      match parse_control_command body login with
      | None => mret None
      | Some (command, guidance) =>
          id ← lift (positive (as_u64 (index comment "id")));
          thread ← lift (positive (thread_of value));
          live ← lift (live_comment policy thread envelope.(we_event_name) id);
          match live with
          | None => mret (Some "CONTROL_IGNORED"%string)
          | Some live =>
              if negb (live.(dc_actor_id) =? actor) || negb live.(dc_human) || negb (String.eqb live.(dc_body) body)
              then mret (Some "CONTROL_IGNORED"%string) else
              report ← query (fun s => map_err IntakeStore (status envelope.(we_received_at) s));
              match thread_case policy thread report.(ls_cases) with
              | Some c =>
                  if negb (one_of PARKED_STATES c.(sc_state)) then mret (Some "CONTROL_IGNORED"%string) else
                  transact (fun s => map_err IntakeStore (record_control_command
                    {| ki_comment_id := id; ki_repository_id := rid_id (po_repository policy);
                       ki_thread_number := thread; ki_case_key := Some c.(sc_case_key); ki_actor_id := actor;
                       ki_command := command; ki_guidance := guidance; ki_received_at := envelope.(we_received_at) |} s));;
                  mret (Some "CONTROL_QUEUED"%string)
              | None => mret (Some "CONTROL_IGNORED"%string)
              end
          end
      end
  end.

(** ** Conversations *)

(** Pip is addressed: by name, by the thread, or by the comment replied to. *)
Definition addressed (policy : RepositoryPolicy) (automation thread id : Z) (event_name : string)
  (live : DiscussionComment) (c : option StoredCase) : result ActiveIntakeError bool :=
  let owner := rid_owner (po_repository policy) in
  let name := rid_name (po_repository policy) in
  login ← map_err evidence_error (actor_login automation);
  if mentions live.(dc_body) login
     || match c with
        | Some c => bool_decide (c.(sc_pr_number) = Some thread) || String.eqb c.(sc_state) "WAITING_HUMAN"
        | None => false
        end
  then Ok true else
  match live.(dc_reply_to) with
  | Some parent =>
      p ← map_err evidence_error (discussion_comment owner name thread event_name parent);
      Ok (p.(dc_actor_id) =? automation)
  | None =>
      if String.eqb event_name "issue_comment" then
        context ← map_err evidence_error (intake owner name thread);
        Ok (match max_by (fun a b => a.(ct_id) <=? b.(ct_id))
                    (List.filter (fun x => x.(ct_id) <? id) context.(in_comments)) with
            | Some x => x.(ct_actor_id) =? automation
            | None => false
            end)
      else Ok false
  end.

Definition conversation_key (policy : RepositoryPolicy) (event_name : string) (id : Z) (live : DiscussionComment)
  : string :=
  "conversation-" +:+ show (rid_id (po_repository policy)) +:+ "-" +:+ event_name +:+ "-" +:+ show id +:+ "-"
  +:+ hash_bytes (live.(dc_updated_at) +:+ String "010" "" +:+ live.(dc_body)).

(** The answer for a comment that is no command: the delivery's outcome. *)
Definition converse (policy : RepositoryPolicy) (envelope : WebhookEnvelope) (value : Value) (now : Z)
  : Cycle ActiveIntakeError string :=
  actor ← lift (ok_or (as_u64 (index (index value "sender") "id")) IntakeInvalidIdentity);
  match gc_automation_actor_id (po_github policy) with
  | None => mret "IGNORED"%string
  | Some automation =>
      if negb (trusted_human policy automation actor) then mret "IGNORED"%string else
      let event_name := envelope.(we_event_name) in
      let comment := comment_of event_name value in
      id ← lift (positive (as_u64 (index comment "id")));
      thread ← lift (positive (thread_of value));
      live ← lift (live_comment policy thread event_name id);
      match live with
      | None => mret "IGNORED"%string
      | Some live =>
          if negb (live.(dc_actor_id) =? actor) || negb live.(dc_human) || is_empty (trim live.(dc_body))
             || negb (bool_decide (as_str (index comment "body") = Some live.(dc_body)))
          then mret "IGNORED"%string else
          let key := conversation_key policy event_name id live in
          existing ← query_db (fun d => map_err IntakeStore (conversation key d));
          if is_some existing then mret "REPLAYED"%string else
          report ← query (fun s => map_err IntakeStore (status now s));
          let c := thread_case policy thread report.(ls_cases) in
          relevant ← lift (addressed policy automation thread id event_name live c);
          if negb relevant then mret "IGNORED"%string else
          open ← query_db (fun d => map_err IntakeStore (conversations (rid_id (po_repository policy)) 100 d));
          if 100 <=? Z.of_nat (length open)
          then raise (IntakeEvidence (ShadowEvidence "conversation inbox full; retain delivery for retry")) else
          transact_db (fun d => map_err IntakeStore (record_conversation
            {| vc_key := key; vc_repository_id := rid_id (po_repository policy); vc_thread_number := thread;
               vc_actor_id := actor; vc_case_key := sc_case_key <$> c; vc_received_at := envelope.(we_received_at);
               vc_payload := json_object [("kind", Str event_name); ("comment", ser_discussion live)] |} d));;
          mret "QUEUED"%string
      end
  end.

(** ** Deliveries *)

Definition webhook_report (policy : RepositoryPolicy) (envelope : WebhookEnvelope) (now : Z) (delivery : string)
  (mutations : Z) (candidate : option IntakeCandidateResult) : WebhookIntakeReport :=
  {| wir_report_format := 1; wir_observed_at := now; wir_repository_id := rid_id (po_repository policy);
     wir_repository := full_name (po_repository policy); wir_delivery_id := envelope.(we_delivery_id);
     wir_delivery := delivery; wir_mutation_count := mutations; wir_candidate := candidate |}.

Definition record_delivery (policy : RepositoryPolicy) (envelope : WebhookEnvelope) (action : string)
  : Cycle ActiveIntakeError ApplyResult :=
  transact (fun s => map_err IntakeStore (record_webhook_delivery
    {| wi_delivery_id := envelope.(we_delivery_id); wi_repository_id := rid_id (po_repository policy);
       wi_event_name := envelope.(we_event_name); wi_action := action; wi_received_at := envelope.(we_received_at);
       wi_payload_sha256 := hash_bytes envelope.(we_payload) |} s)).

Definition ingest (policy : RepositoryPolicy) (envelope : WebhookEnvelope) (now : Z)
  : Cycle ActiveIntakeError WebhookIntakeReport :=
  value ← lift (ok_or (from_str envelope.(we_payload)) (InvalidWebhook "malformed comment event"));
  action ← lift (ok_or (as_str (index value "action")) IntakeInvalidIdentity);
  lift (err_if (negb (bool_decide (as_u64 (index (index value "repository") "id") = Some (rid_id (po_repository policy))))
                || negb (bool_decide (as_str (index (index value "repository") "full_name")
                                      = Some (full_name (po_repository policy))))) IntakeInvalidIdentity);;
  recorded ← record_delivery policy envelope action;
  let report delivery more := webhook_report policy envelope now delivery (applied_count recorded + more) None in
  controlled ← (if one_of ["created"; "submitted"] action then control_command policy value envelope else mret None);
  match controlled with
  | Some outcome => mret (report outcome (if String.eqb outcome "CONTROL_QUEUED" then 1 else 0))
  | None =>
      if negb (po_conversations_enabled policy) || negb (one_of ["created"; "edited"; "submitted"] action)
      then mret (report "IGNORED"%string 0) else
      outcome ← converse policy envelope value now;
      mret (report outcome (if String.eqb outcome "QUEUED" then 1 else 0))
  end.

Definition delivery_name (r : ApplyResult) : string :=
  match r with Applied => "APPLIED" | Replayed => "REPLAYED" end.

(** The payload is a label event of the policy's repository: whether the label is the intake label. *)
Definition relevant_label (policy : RepositoryPolicy) (payload : IssuesWebhook) : result ActiveIntakeError bool :=
  err_if (negb (payload.(iw_repository).(wr_id) =? rid_id (po_repository policy))
          || negb (String.eqb payload.(iw_repository).(wr_full_name) (full_name (po_repository policy)))
          || (payload.(iw_issue).(wis_id) =? 0) || (payload.(iw_issue).(wis_number) =? 0)
          || is_empty payload.(iw_action) || (payload.(iw_sender) =? 0))
    (InvalidWebhook "event is not an eligible repository label event");;
  if String.eqb payload.(iw_action) "labeled" then
    label ← ok_or payload.(iw_label) (InvalidWebhook "labeled event is missing its label");
    Ok (String.eqb label (ic_label (po_intake policy)))
  else Ok false.

(** The evidence agrees with the delivery. *)
Definition delivery_evidence (policy : RepositoryPolicy) (payload : IssuesWebhook)
  : result ActiveIntakeError IntakeSnapshot :=
  e ← map_err evidence_error
        (intake (rid_owner (po_repository policy)) (rid_name (po_repository policy)) payload.(iw_issue).(wis_number));
  err_if (negb (repository_matches policy e.(in_repository))
          || negb (e.(in_issue).(is_id) =? payload.(iw_issue).(wis_id))
          || negb (e.(in_issue).(is_number) =? payload.(iw_issue).(wis_number))
          || negb (existsb (fun event => String.eqb event.(le_label) (ic_label (po_intake policy))
                                         && event.(le_labeled) && (event.(le_actor_id) =? payload.(iw_sender)))
                     e.(in_label_events)))
    (IntakeEvidence DiscoveryDrift);;
  Ok e.

Definition ingest_webhook `{Mac} (admission_lock : result ActiveIntakeError ()) (policy : RepositoryPolicy)
  (envelope : WebhookEnvelope) (secret : string) (observed_at : Z) (global_paused : bool)
  : Cycle ActiveIntakeError WebhookIntakeReport :=
  lift (err_if (is_empty secret || (1024 <? len secret)) (InvalidWebhook "invalid secret"));;
  lift (err_if (is_empty envelope.(we_payload) || (4 * 1024 * 1024 <? len envelope.(we_payload)))
          (InvalidWebhook "invalid payload size"));;
  lift (err_if ((envelope.(we_received_at) =? 0) || (observed_at <? envelope.(we_received_at)))
          (InvalidWebhook "invalid receive time"));;
  lift (err_if (negb (verify_webhook secret envelope.(we_payload) envelope.(we_signature)))
          (InvalidWebhook "event or signature rejected"));;
  if comment_event envelope.(we_event_name) then ingest policy envelope observed_at else
  lift (err_if (negb (String.eqb envelope.(we_event_name) "issues")) (InvalidWebhook "unsupported event"));;
  payload ← lift (ok_or (from_str envelope.(we_payload) ≫= de_issues_webhook) (InvalidWebhook "malformed issues event"));
  relevant ← lift (relevant_label policy payload);
  delivery ← record_delivery policy envelope payload.(iw_action);
  if negb relevant
  then mret (webhook_report policy envelope observed_at (delivery_name delivery) (applied_count delivery) None) else
  evidence ← lift (delivery_evidence policy payload);
  report ← reconcile_validated_evidence admission_lock policy observed_at global_paused [evidence] (fun _ => false);
  mret (webhook_report policy envelope observed_at (delivery_name delivery)
          (report.(air_mutation_count) + applied_count delivery) (head report.(air_candidates))).
End inbox.

(** ** Signatures are exact *)

Definition hex_digit (n : Z) : ascii := ascii_of_N (Z.to_N (if n <? 10 then 48 + n else 87 + n)).
(** Lowercase hexadecimal of a tag. *)
Fixpoint hex_text (tag : list Z) : string :=
  match tag with
  | [] => ""
  | b :: tag => String (hex_digit (Z.shiftr b 4)) (String (hex_digit (Z.land b 15)) (hex_text tag))
  end.

Definition is_byte (b : Z) : Prop := 0 <= b < 256.

Lemma hex_range b n : hex b = Some n -> 0 <= n < 16.
Proof. unfold hex. intros Hb. repeat case_match; bools; simplify_eq; lia. Qed.
Lemma hex_digit_ok a n : hex (byte_of a) = Some n -> hex_digit n = a.
Proof.
  unfold hex, byte_of, hex_digit. intros Hb.
  repeat case_match; bools; simplify_eq; try lia.
  - replace (48 + (Z.of_N (N_of_ascii a) - 48)) with (Z.of_N (N_of_ascii a)) by lia. rewrite N2Z.id. apply ascii_N_embedding.
  - replace (87 + (Z.of_N (N_of_ascii a) - 97 + 10)) with (Z.of_N (N_of_ascii a)) by lia. rewrite N2Z.id. apply ascii_N_embedding.
Qed.
Lemma hex_of_digit n : 0 <= n < 16 -> hex (byte_of (hex_digit n)) = Some n.
Proof.
  intros Hn. assert (n ∈ seqZ 0 16) as Hin by (apply elem_of_seqZ; lia). clear Hn.
  repeat (apply elem_of_cons in Hin as [->|Hin]; [vm_compute; reflexivity|]). by apply elem_of_nil in Hin.
Qed.

Lemma nibbles high low : 0 <= high < 16 -> 0 <= low < 16 ->
  let b := Z.lor (Z.shiftl high 4 mod 256) low in Z.shiftr b 4 = high /\ Z.land b 15 = low.
Proof.
  intros Hh Hl. assert (high ∈ seqZ 0 16) as Hin by (apply elem_of_seqZ; lia).
  assert (low ∈ seqZ 0 16) as Hin' by (apply elem_of_seqZ; lia). clear Hh Hl.
  repeat (apply elem_of_cons in Hin as [->|Hin];
    [repeat (apply elem_of_cons in Hin' as [->|Hin']; [vm_compute; by split|]); by apply elem_of_nil in Hin'|]).
  by apply elem_of_nil in Hin.
Qed.
Lemma byte_nibbles b : is_byte b ->
  0 <= Z.shiftr b 4 < 16 /\ 0 <= Z.land b 15 < 16 /\ Z.lor (Z.shiftl (Z.shiftr b 4) 4 mod 256) (Z.land b 15) = b.
Proof.
  unfold is_byte. intros Hb. assert (b ∈ seqZ 0 256) as Hin by (apply elem_of_seqZ; lia). clear Hb.
  revert b Hin. apply Forall_forall.
  assert (forallb (fun b => (0 <=? Z.shiftr b 4) && (Z.shiftr b 4 <? 16) && (0 <=? Z.land b 15) && (Z.land b 15 <? 16)
    && (Z.lor (Z.shiftl (Z.shiftr b 4) 4 mod 256) (Z.land b 15) =? b)) (seqZ 0 256) = true) as Hall by (vm_compute; reflexivity).
  apply Forall_forall. intros b Hb. rewrite forallb_forall in Hall. apply list_elem_of_In, Hall in Hb. bools. lia.
Qed.

Lemma hex_pairs_text tag : Forall is_byte tag -> hex_pairs (bytes (hex_text tag)) = Some tag.
Proof.
  induction 1 as [|b tag Hb _ IH]; [done|]. destruct (byte_nibbles _ Hb) as (Hh & Hl & He).
  cbn [hex_text bytes hex_pairs]. rewrite !hex_of_digit, IH by done. simpl. by rewrite He.
Qed.
Lemma length_hex_text tag : String.length (hex_text tag) = (2 * length tag)%nat.
Proof. induction tag as [|b tag IH]; [done|]. cbn [hex_text String.length length]. rewrite IH. lia. Qed.

Lemma hex_pairs_inv n : forall s tag, String.length s = (2 * n)%nat -> hex_pairs (bytes s) = Some tag -> s = hex_text tag.
Proof.
  induction n as [|n IH]; intros [|a [|b s]] tag Hs Hp; simpl in Hs; try lia.
  - by injection Hp as <-.
  - cbn [bytes hex_pairs] in Hp. destruct (hex (byte_of a)) as [h|] eqn:Ha; [|done].
    destruct (hex (byte_of b)) as [l|] eqn:Hb; [|done]. cbn [mbind option_bind] in Hp.
    destruct (hex_pairs (bytes s)) as [rest|] eqn:Hr; [|done]. injection Hp as <-.
    destruct (nibbles h l (hex_range _ _ Ha) (hex_range _ _ Hb)) as [Hh Hl]. cbn [hex_text].
    rewrite Hh, Hl, (hex_digit_ok _ _ Ha), (hex_digit_ok _ _ Hb). do 2 f_equal. apply IH; [lia|done].
Qed.

Lemma strip_prefix_some p s t : Parse.strip_prefix p s = Some t -> s = p +:+ t.
Proof.
  revert s. induction p as [|a p IH]; intros [|b s] Hs; simpl in Hs; try by simplify_eq.
  destruct (Ascii.eqb_spec a b) as [->|]; [|done]. by rewrite (IH s).
Qed.
Lemma strip_prefix_app p t : Parse.strip_prefix p (p +:+ t) = Some t.
Proof. induction p as [|a p IH]; [by destruct t|]. simpl. by rewrite Ascii.eqb_refl. Qed.

(** A signature is accepted exactly when it is the lowercase hexadecimal text
    of the payload's tag under the secret, after the prefix [sha256=]: no other length,
    case or encoding. *)
Theorem webhook_signature_exact `{Mac} (secret payload signature : string)
  (Htag : length (hmac_sha256 secret payload) = 32%nat) (Hbytes : Forall is_byte (hmac_sha256 secret payload)) :
  verify_webhook secret payload signature = true
  <-> signature = "sha256=" +:+ hex_text (hmac_sha256 secret payload).
Proof.
  unfold verify_webhook. split.
  - destruct (Parse.strip_prefix "sha256=" signature) as [text|] eqn:Hp; [|done]. destruct (len text =? 64) eqn:Hl; [|done].
    simpl. destruct (hex_pairs (bytes text)) as [tag|] eqn:Ht; [|done]. intros ->%bool_decide_eq_true.
    apply strip_prefix_some in Hp as ->. f_equal. apply (hex_pairs_inv 32); [|done].
    apply Z.eqb_eq in Hl. unfold len in Hl. lia.
  - intros ->. rewrite strip_prefix_app. replace (len _ =? 64) with true; [simpl|].
    + rewrite hex_pairs_text by done. by apply bool_decide_eq_true.
    + symmetry. apply Z.eqb_eq. unfold len. rewrite length_hex_text, Htag. done.
Qed.

(** ** What a comment may do *)

Section laws.
Context `{Codec} {source : IntakeSource}.

(** A command row that its author really asked for. *)
Record authentic (policy : RepositoryPolicy) (event_name : string) (s : Store) (k : CommandRow) : Prop := {
  at_pending : k.(k_status) = "PENDING"%string;
  at_trusted : exists automation login live,
    gc_automation_actor_id (po_github policy) = Some automation /\ trusted_human policy automation k.(k_actor_id) = true
    /\ actor_login automation = Ok login
    /\ discussion_comment (rid_owner (po_repository policy)) (rid_name (po_repository policy)) k.(k_thread_number)
         event_name k.(k_comment_id) = Ok live
    /\ live.(dc_actor_id) = k.(k_actor_id) /\ live.(dc_human) = true
    /\ parse_control_command live.(dc_body) login = Some (k.(k_command), k.(k_guidance));
  at_parked : exists c, k.(k_case_key) = Some c.(sc_case_key) /\ query_case s c.(sc_case_key) = Some c
    /\ one_of PARKED_STATES c.(sc_state) = true /\ on_thread policy k.(k_thread_number) c = true;
}.

(** Cases and events stay, and every new command row satisfies [P]. *)
Definition commands_only (P : CommandRow -> Prop) (s s' : Store) : Prop :=
  s'.(cases) = s.(cases) /\ s'.(events) = s.(events)
  /\ forall k, k ∈ s'.(control_commands) -> k ∈ s.(control_commands) \/ P k.

Lemma commands_only_refl P s : commands_only P s s.
Proof. by split_and!; auto. Qed.
Lemma commands_only_trans P s s1 s2 : commands_only P s s1 -> commands_only P s1 s2 -> commands_only P s s2.
Proof. intros (Hc & He & Hk) (Hc1 & He1 & Hk1). split_and!; [congruence..|]. intros k [Hin|]%Hk1; auto. Qed.

Lemma record_command_rows i s r s' :
  record_control_command i s = Ok (r, s') ->
  commands_only (fun k => k = {| k_comment_id := i.(ki_comment_id); k_repository_id := i.(ki_repository_id);
    k_thread_number := i.(ki_thread_number); k_case_key := i.(ki_case_key); k_actor_id := i.(ki_actor_id);
    k_command := i.(ki_command); k_guidance := i.(ki_guidance); k_received_at := i.(ki_received_at);
    k_status := "PENDING"; k_outcome := None; k_resolved_at := None |}) s s'.
Proof.
  intros Hr. pose proof (record_command_evolves _ _ _ _ Hr) as (_ & Hc & He). split_and!; [done..|].
  unfold record_control_command, insert_or_ignore_command in Hr. inv_store.
  rename select (_ = Ok (z, s')) into Hi. destruct (negb _ || _); inv_store; [by auto|].
  intros k [Hk| ->%list_elem_of_singleton]%elem_of_app; auto.
Qed.

Lemma record_delivery_rows policy envelope action w r w' :
  record_delivery policy envelope action w = (r, w') -> commands_only (fun _ => False) (w_store w) (w_store w').
Proof.
  unfold record_delivery, transact. intros Hr.
  destruct (map_err IntakeStore _) as [[x s1]|] eqn:Hm in Hr; injection Hr as <- <-; [|apply commands_only_refl]. open_ok.
  rename select (record_webhook_delivery _ _ = _) into Hd. pose proof (record_webhook_evolves _ _ _ _ Hd) as (_ & Hc & He).
  split_and!; [done..|]. intros k. change (w_store (with_store s1 w)) with s1.
  unfold record_webhook_delivery, insert_webhook_row in Hd. inv_store. case_match; inv_store;
    [case_match; inv_store|]; by auto.
Qed.

Lemma commands_only_mono (P Q : CommandRow -> Prop) s s' :
  (forall k, P k -> Q k) -> commands_only P s s' -> commands_only Q s s'.
Proof. intros HPQ (Hc & He & Hk). split_and!; [done..|]. intros k [|]%Hk; auto. Qed.

Lemma thread_case_stored policy thread now s report c :
  store_inv s -> status now s = Ok report -> thread_case policy thread report.(ls_cases) = Some c ->
  on_thread policy thread c = true /\ query_case s c.(sc_case_key) = Some c.
Proof.
  intros Hinv Hst Ht. unfold thread_case in Ht.
  pose proof (max_by_greatest (fun a b => a.(sc_workflow_version) <=? b.(sc_workflow_version))
    (List.filter (on_thread policy thread) report.(ls_cases))) as Hg. simpl in Hg.
  rewrite Ht in Hg. destruct Hg as [Hin _]; [intros; lia|intros; lia|].
  apply list_elem_of_In, filter_In in Hin as [Hin Hon]. split; [done|].
  unfold status in Hst. open_ok. subst. simpl in Hin. apply list_elem_of_In, status_cases_elem in Hin as (row & Hrow & ->).
  by apply query_row.
Qed.

Lemma live_comment_inv policy thread event_name id live :
  live_comment policy thread event_name id = Ok (Some live) ->
  discussion_comment (rid_owner (po_repository policy)) (rid_name (po_repository policy)) thread event_name id = Ok live.
Proof. unfold live_comment. intros Hl. repeat case_match; by simplify_eq. Qed.

Lemma control_command_rows policy value envelope w r w' :
  store_inv (w_store w) -> control_command policy value envelope w = (r, w') ->
  commands_only (authentic policy envelope.(we_event_name) (w_store w)) (w_store w) (w_store w').
Proof.
  intros Hinv Hr. unfold control_command in Hr. run Hr; simplify_eq; try apply commands_only_refl. open_ok.
  change (w_store (with_store ?s w)) with s. rename select (record_control_command _ _ = _) into Hrec.
  rename select (status _ _ = _) into Hst. rename select (thread_case _ _ _ = _) into Ht.
  destruct (thread_case_stored _ _ _ _ _ _ Hinv Hst Ht) as [Hon Hq].
  rename select (live_comment _ _ _ _ = _) into Hl. apply live_comment_inv in Hl. texts.
  eapply commands_only_mono; [|exact (record_command_rows _ _ _ _ Hrec)]. intros k ->. split; simpl; [done| |eauto].
  eexists _, _, _. split_and!; eauto. congruence.
Qed.

Lemma record_conversation_ledger i d r d' : record_conversation i d = Ok (r, d') -> d'.(ledger) = d.(ledger).
Proof.
  unfold record_conversation. intros Hr. open_ok. case_match; [case_match; open_ok; congruence|]. simpl in *. open_ok. subst.
  rename select (insert_conversation_row _ _ = _) into Hi. unfold insert_conversation_row, constraint_if in Hi.
  case_match; [done|]. by injection Hi as <-.
Qed.

Lemma converse_store policy envelope value now w r w' :
  converse policy envelope value now w = (r, w') -> w_store w' = w_store w.
Proof.
  unfold converse, mbind, cycle_bind, lift, query, query_db, transact_db, raise, mret, cycle_ret. intros Hr.
  repeat (case_match; simplify_eq; try done); [by injection Hr as <- <-|]. open_ok. rename select (record_conversation _ _ = _) into Hc.
  by apply record_conversation_ledger in Hc.
Qed.

Lemma sound_delivery policy envelope action : Sound (record_delivery policy envelope action).
Proof.
  apply sound_quiet. intros s a s' Hr. open_ok. split; [by eapply step_record_webhook|by eapply record_webhook_evolves].
Qed.

Lemma authentic_cases policy event_name s s' k :
  s'.(cases) = s.(cases) -> authentic policy event_name s' k -> authentic policy event_name s k.
Proof.
  intros Hc [? ? (c & ? & Hq & ?)]. split; [done..|]. exists c. split; [done|]. unfold query_case, find_case in *. by rewrite Hc in Hq.
Qed.

(** C34: A comment moves no case.  Whatever the ingestion of a comment answers, the
    cases and the events of the ledger stay as they are, and a control command it added
    is a trusted human's: the comment still exists on GitHub with that author and that command, and it
    names a case of the thread that was parked. *)
Theorem comments_record_only_commands (policy : RepositoryPolicy) (envelope : WebhookEnvelope) (now : Z) (w w' : World)
  (r : result ActiveIntakeError WebhookIntakeReport) (Hreach : system_reachable (w_store w))
  (Hrun : ingest policy envelope now w = (r, w')) :
  commands_only (authentic policy envelope.(we_event_name) (w_store w)) (w_store w) (w_store w').
Proof.
  unfold ingest in Hrun. do 3 (rewrite lift_run in Hrun; case_match; [|simplify_eq; apply commands_only_refl]).
  unfold mbind, cycle_bind at 1 in Hrun. destruct (record_delivery _ _ _ w) as [r1 w1] eqn:Hd.
  pose proof (sound_delivery _ _ _ _ _ _ Hd) as Hs. apply record_delivery_rows in Hd.
  assert (store_inv (w_store w1)) as Hinv.
  { apply system_history. unfold system_reachable in *. etrans; [exact Hreach|exact Hs]. }
  pose proof (commands_only_mono _ (authentic policy envelope.(we_event_name) (w_store w)) _ _ (fun _ => False_ind _) Hd) as Hd'.
  destruct r1; [|by injection Hrun as <- <-]. eapply commands_only_trans; [exact Hd'|]. unfold mbind, cycle_bind at 1 in Hrun.
  match type of Hrun with context [(if ?b then ?x else ?y) w1] => destruct ((if b then x else y) w1) as [r2 w2] eqn:Hk end.
  assert (commands_only (authentic policy envelope.(we_event_name) (w_store w)) (w_store w1) (w_store w2)) as Hcom.
  { destruct (one_of _ _); [|injection Hk as _ <-; apply commands_only_refl].
    apply control_command_rows in Hk; [|done]. eapply commands_only_mono; [|exact Hk].
    intros k. apply authentic_cases. apply Hd. }
  unfold mret, cycle_ret in Hrun. destruct r2 as [[outcome|]|]; [by injection Hrun as _ <-| |by injection Hrun as _ <-].
  match type of Hrun with (if ?b then _ else _) _ = _ => destruct b end; [by injection Hrun as _ <-|].
  unfold mbind, cycle_bind in Hrun. destruct (converse _ _ _ _ w2) as [r3 w3] eqn:Hcv. apply converse_store in Hcv.
  destruct r3; injection Hrun as _ <-; by rewrite Hcv.
Qed.
End laws.

(** ** A trusted human's comment on a parked case *)

Definition fixed_codec : Codec := {|
  to_string := to_string (Codec := demo_codec); from_str := from_str (Codec := demo_codec);
  hash_bytes _ := "0000000000000000000000000000000000000000000000000000000000000000";
  float_cmp := Z.compare; float_cmp_int := Z.compare; float_of_int n := n; int_text _ := None |}.
Definition demo_mac : Mac := fun _ _ => replicate 32 171.

Lemma webhook_signature_exact_witness :
  verify_webhook (H := demo_mac) "secret" "payload"
    "sha256=abababababababababababababababababababababababababababababababab" = true.
Proof.
  apply (webhook_signature_exact (H := demo_mac)); [reflexivity| |vm_compute; reflexivity].
  apply Forall_replicate. unfold is_byte. lia.
Defined.

Definition inbox_opened : Store := after (create_case (H := fixed_codec) demo_opening empty_store).
Definition inbox_move : option (WorkflowCommand * Store) :=
  w ← (query_case inbox_opened demo_case_key ≫= demo_command Ev.OperationalBoundReached);
  if bool_decide (wf_command w) then
    match LedgerController.apply (H := fixed_codec) demo_budget w inbox_opened with
    | Ok (Applied, s) => Some (w, s) | _ => None
    end
  else None.
Definition inbox_parked : Store := from_option snd empty_store inbox_move.

Lemma store_of_world s : w_store (demo_world s) = s.
Proof. reflexivity. Qed.
Lemma inbox_parked_reachable : system_reachable (H := fixed_codec) (w_store (demo_world inbox_parked)).
Proof.
  rewrite store_of_world.
  assert (is_some inbox_move = true) as Hs by (vm_compute; reflexivity).
  unfold inbox_parked. destruct inbox_move as [[w s]|] eqn:Hm; [|done]. unfold inbox_move in Hm.
  apply bind_Some in Hm as (w0 & _ & Hm). repeat case_match; simplify_eq/=.
  eapply (rtc_r _ inbox_opened); [apply rtc_once; eapply (sys_intake (H := fixed_codec) _ _ demo_opening Applied);
    [by split_and!|done|done|by vm_compute]|].
  eapply (sys_apply (H := fixed_codec)); [by eapply bool_decide_eq_true_1|eassumption].
Qed.

Definition demo_delivery : WebhookEnvelope := {|
  we_delivery_id := "delivery-1"; we_event_name := "issue_comment"; we_signature := "";
  we_payload := to_string (Codec := fixed_codec) (json_object [
    ("action", Str "created"); ("repository", json_object [("id", Number 1); ("full_name", Str "o/r")]);
    ("sender", json_object [("id", Number 7)]); ("issue", json_object [("number", Number 2)]);
    ("comment", json_object [("id", Number 30); ("body", Str "@pip-bot resume")])]);
  we_received_at := 300 |}.
Definition demo_discussion : IntakeSource := {|
  discover owner repository label := Ok [demo_issue true];
  intake owner repository number := Ok (demo_intake true);
  actor_login id := Ok "pip-bot"%string;
  discussion_comment owner repository thread kind id := Ok
    {| dc_id := id; dc_actor_id := 7; dc_human := true; dc_body := "@pip-bot resume";
       dc_updated_at := "2026-01-01T00:00:00Z"; dc_reply_to := None; dc_context := Null |};
  claim_issue owner repository expected actor := Ok (demo_issue true) |}.
Definition demo_ingested : World :=
  (ingest (H := fixed_codec) (source := demo_discussion) (demo_policy 1 1000) demo_delivery 300 (demo_world inbox_parked)).2.

Lemma comments_record_only_commands_witness :
  exists k, k ∈ (w_store demo_ingested).(control_commands) /\ k.(k_command) = "RESUME"%string
    /\ authentic (source := demo_discussion) (demo_policy 1 1000) "issue_comment" inbox_parked k.
Proof.
  destruct (ingest (H := fixed_codec) (source := demo_discussion) (demo_policy 1 1000) demo_delivery 300
              (demo_world inbox_parked)) as [r w'] eqn:Hrun.
  assert (w' = demo_ingested) as -> by (unfold demo_ingested; by rewrite Hrun).
  assert (k_command <$> head (w_store demo_ingested).(control_commands) = Some "RESUME"%string) as Hk
    by (vm_compute; reflexivity).
  destruct (comments_record_only_commands (H := fixed_codec) (source := demo_discussion) (demo_policy 1 1000)
              demo_delivery 300 (demo_world inbox_parked) demo_ingested r inbox_parked_reachable Hrun) as (_ & _ & Hall).
  rewrite store_of_world in Hall.
  apply fmap_Some in Hk as (k & Hk & Hc). destruct (control_commands (w_store demo_ingested)) as [|k0 l] eqn:Hcs; [done|].
  injection Hk as ->. exists k. split; [left|]. split; [exact (eq_sym Hc)|].
  destruct (Hall k) as [Hin|Ha]; [left| |exact Ha].
  assert (control_commands inbox_parked = []) as He by (vm_compute; reflexivity).
  rewrite He in Hin. exfalso. exact (not_elem_of_nil _ Hin).
Defined.
