(* ===== verification/FinalGate.v ===== *)
(** * FinalGate: what has to hold before a pull request is offered to a human

    [final_gate_blockers] and its parts in crates/pip-control/src/final_preflight.rs,
    with [published_builder] of draft_pr.rs and the review threads of pip-github's
    lib.rs.  The gate joins the pull request, CI, the ledger's runs, the reviews published on
    GitHub and the review threads, all on the exact head of the case.

    An [InvalidWorkerEvidence] stands for the error text of the source. *)

From S2P Require Import Prelude Text Parse Mentions Json Serde Domain StateMachine Revision Contracts Sql Tables Inputs Recovery StoreCore.
From S2P Require Import Status Outbox Attempts Control Records History Frames Steps Invariants CaseHistory.
From S2P Require Import RolePolicy Ledger System Ingest Policy PolicyLaws Commands Cycles Bounds GitHub Ci World Takeover Authorization Recoveries.
From stdpp Require Import relations sorting.
Open Scope Z_scope.

(** ** Errors *)

Inductive FinalPreflightError :=
| PreflightGitHub (e : GitHubError)
| PreflightStore (e : StoreError)
| PreflightController (e : ControllerError)
| PreflightActor
| PreflightInvalidCase
| InvalidWorkerEvidence
| PreflightPanic.

#[export] Instance common_result_eq_dec : EqDecision CommonResult.
Proof. solve_decision. Defined.
#[export] Instance finding_resolution_eq_dec : EqDecision FindingResolution.
Proof. solve_decision. Defined.
#[export] Instance builder_result_eq_dec : EqDecision BuilderResult.
Proof. solve_decision. Defined.

Fixpoint try_fold {E A B} (f : B -> A -> result E B) (acc : B) (l : list A) : result E B :=
  match l with [] => Ok acc | a :: l => acc ← f acc a; try_fold f acc l end.

(** ** The pull request *)

Definition identity_drift (c : StoredCase) (policy : RepositoryPolicy) (actor number : Z) (head : string)
  (p : PullRequestSnapshot) : bool :=
  negb (p.(pr_number) =? number) || negb (p.(pr_head_repository_id) =? rid_id (po_repository policy))
  || negb (String.eqb p.(pr_head_repository) (full_name (po_repository policy)))
  || negb (String.eqb p.(pr_base_branch) (rid_default_branch (po_repository policy)))
  || negb (String.eqb p.(pr_head_branch) (expected_branch policy c))
  || negb (String.eqb p.(pr_head_sha) head) || negb (p.(pr_author_id) =? actor).
Definition disposition_drift (expected_draft : option bool) (p : PullRequestSnapshot) : bool :=
  negb p.(pr_open) || p.(pr_merged)
  || match expected_draft with Some draft => negb (Bool.eqb p.(pr_draft) draft) | None => false end.

Definition mergeability_blockers (p : PullRequestSnapshot) (blockers : list string) : list string :=
  let blockers := match p.(pr_mergeable) with
                  | Some false => push_unique blockers "PR_MERGE_CONFLICTS"
                  | None => push_unique blockers "PR_MERGEABILITY_UNKNOWN"
                  | Some true => blockers
                  end in
  if String.eqb p.(pr_mergeable_state) "dirty" then push_unique blockers "PR_MERGE_CONFLICTS"
  else if String.eqb p.(pr_mergeable_state) "unknown" then push_unique blockers "PR_MERGEABILITY_UNKNOWN"
  else blockers.

Definition ci_blockers (evaluation : CiEvaluation) (blockers : list string) : list string :=
  if bool_decide (evaluation.(ce_verdict) = CiAccepted) then blockers
  else foldl (fun b blocker => push_unique b ("CI:" +:+ blocker))
         (push_if (bool_decide (evaluation.(ce_blockers) = [])) "CI_NOT_ACCEPTED" blockers)
         evaluation.(ce_blockers).

Definition validate_pull_request (c : StoredCase) (policy : RepositoryPolicy) (actor : Z) (e : PullRequestEvidence)
  (blockers : list string) (expected_draft : option bool) : result FinalPreflightError (list string) :=
  number ← ok_or c.(sc_pr_number) PreflightInvalidCase;
  head ← ok_or c.(sc_head_sha) PreflightInvalidCase;
  let pull := e.(pe_pull) in
  let blockers := push_if (identity_drift c policy actor number head pull) "PULL_REQUEST_IDENTITY_DRIFT" blockers in
  let blockers := push_if (disposition_drift expected_draft pull) "PULL_REQUEST_DISPOSITION_DRIFT" blockers in
  let blockers := mergeability_blockers pull blockers in
  Ok (ci_blockers (evaluate_ci e head (po_required_ci_contexts policy)) blockers).

(** ** The reviews published on GitHub *)

Definition REVIEW_ROLES : list (WorkerRole * string) :=
  [(ReviewerGeneral, "reviewer-general"); (ReviewerSecperf, "reviewer-secperf")].

Definition role_stamp (line : string) : option string :=
  List.find (fun role => String.eqb line ("<!-- pip-reviewer-role: " +:+ role +:+ " -->")
                         || String.eqb line ("Pip reviewer role: " +:+ role)) (snd <$> REVIEW_ROLES).
(** Exactly one line of the body carries a stamp. *)
Definition stamped_role (body : string) : option string :=
  match omap role_stamp (lines body) with [role] => Some role | _ => None end.

(** [(submitted_at, id)], compared as a pair. *)
Definition review_newer (r prior : ReviewSnapshot) : bool :=
  match null_compare r.(rw_submitted_at) prior.(rw_submitted_at) with
  | Gt => true
  | Eq => prior.(rw_id) <? r.(rw_id)
  | Lt => false
  end.

(** The role a review on the exact head stands for, when its own account stamped it. *)
Definition published_role (actors : list (string * Z)) (head : string) (r : ReviewSnapshot) : option string :=
  if negb r.(rw_exact_head) || negb (bool_decide (r.(rw_commit_id) = Some head))
     || match r.(rw_submitted_at) with Some at_ => is_empty at_ | None => true end then None else
  role ← stamped_role r.(rw_body);
  if bool_decide ((snd <$> List.find (fun a => String.eqb a.1 role) actors) = Some r.(rw_actor_id))
  then Some role else None.

Definition newest_reviews (actors : list (string * Z)) (head : string) (l : list ReviewSnapshot)
  : list (string * ReviewSnapshot) :=
  foldl (fun m r => match published_role actors head r with
                    | None => m
                    | Some role => upsert String.compare role (fun prior => if review_newer r prior then r else prior) r m
                    end) [] l.

Definition assoc {V} (k : string) (m : list (string * V)) : option V := snd <$> List.find (fun kv => String.eqb kv.1 k) m.

Definition validate_published_reviews (actors : list (string * Z)) (head : string) (e : PullRequestEvidence)
  (blockers : list string) : list string :=
  let latest := newest_reviews actors head e.(pe_reviews) in
  foldl (fun b role => push_if (negb (bool_decide ((rw_state <$> assoc role latest) = Some Approved)))
                         ("MISSING_EXACT_HEAD_APPROVAL:" +:+ role) b) blockers (snd <$> REVIEW_ROLES).

(** ** Dispositions of review threads *)

Definition nonblank (v : Value) : bool :=
  match as_str v with Some text => negb (is_empty (trim text)) | None => false end.

(** A bot's comment, as it was supplied to the builder. *)
Definition bot_comment (c : ReviewThreadComment) : bool :=
  match c.(tc_author) with Some a => String.eqb a.(au_kind) "Bot" | None => false end.
Definition supplied_comment (c : ReviewThreadComment) (bound : Value) : bool :=
  eq_str (index bound "id") c.(tc_id) && eq_str (index bound "body") c.(tc_body)
  && eq_str (index bound "updatedAt") c.(tc_updated_at) && eq_str (index bound "url") c.(tc_url).

Definition verified (entry : Value) : bool :=
  match as_str (index entry "disposition") with
  | Some kind =>
      if String.eqb kind "addressed" then
        match as_array (index entry "verification") with
        | Some checks => negb (bool_decide (checks = [])) && forallb nonblank checks
        | None => false
        end
      else one_of ["deferred"; "not_applicable"] kind
  | None => false
  end.
Definition disposed_comment (thread : string) (dispositions : list Value) (c : ReviewThreadComment) : bool :=
  match List.filter (fun entry => eq_str (index entry "thread_id") thread
                                  && eq_str (index entry "comment_id") c.(tc_id)) dispositions with
  | [entry] => nonblank (index entry "summary") && verified entry
  | _ => false
  end.

Definition thread_has_disposition (t : ReviewThreadSnapshot) (dispositions feedback : Value) : bool :=
  if bool_decide (length t.(th_comments) = 0%nat) || negb (forallb bot_comment t.(th_comments)) then false else
  match as_array (index feedback "threads")
        ≫= List.find (fun bound => eq_str (index bound "id") t.(th_id) && eq_str (index bound "path") t.(th_path)) with
  | None => false
  | Some bound =>
      match as_array (index bound "comments") with
      | None => false
      | Some comments =>
          if negb (bool_decide (length comments = length t.(th_comments)))
             || negb (forallb (fun c => existsb (supplied_comment c) comments) t.(th_comments)) then false else
          match as_array dispositions with
          | None => false
          | Some dispositions => forallb (disposed_comment t.(th_id) dispositions) t.(th_comments)
          end
      end
  end.

Section gate.
Context `{Codec}.

(** The build behind a signed publication; an unsigned one is joined by its head. *)
Definition published_builder (history : ImmutableCaseHistory) (c : StoredCase)
  : result RecoveryError (option BuilderResult) :=
  match latest_publication history with
  | None => Ok None
  | Some event =>
      if is_null (index (index event.(se_payload) "publication") "signing") then Ok None
      else '(build, _) ← publication_source history c true; Ok (Some build)
  end.

Definition assessed_thread_dispositions (s : Store) (c : StoredCase) (t : ReviewThreadSnapshot)
  : result FinalPreflightError (option (list Value)) :=
  history ← map_err PreflightStore (immutable_history_for_case c.(sc_case_key) s);
  build ← map_err (fun _ => InvalidWorkerEvidence) (published_builder history c);
  match build ≫= (fun b => map_get "suggestion_dispositions" b.(bu_common).(Contracts.evidence)) with
  | None => Ok None
  | Some dispositions =>
      if existsb (fun record => String.eqb record.(sv_kind) "GITHUB_REVIEW_FEEDBACK"
                                && thread_has_disposition t dispositions record.(sv_payload)) history.(ih_evidence)
      then entries ← ok_or (as_array dispositions) PreflightPanic;
           Ok (Some (List.filter (fun entry => eq_str (index entry "thread_id") t.(th_id)) entries))
      else Ok None
  end.

(** ** The join over the ledger *)

Record LedgerJoin := {
  lj_planner : bool; lj_builder : bool; lj_resolutions : list FindingResolution;
  lj_reviews : list ReviewResult; lj_findings : list (string * string);
}.

(** [BTreeMap::insert], refusing a finding that two reviewers claim. *)
Definition record_origin (reviewer : string) (m : list (string * string)) (f : BlockingFinding)
  : result FinalPreflightError (list (string * string)) :=
  err_if match assoc f.(bf_id) m with Some origin => negb (String.eqb origin reviewer) | None => false end
    InvalidWorkerEvidence;;
  Ok (upsert String.compare f.(bf_id) (fun _ => reviewer) reviewer m).

(** The head the builder worked on, and the conditions of the join. *)
Record JoinTarget := {
  jt_case : StoredCase; jt_number : Z; jt_head : string; jt_build : option BuilderResult;
  jt_current : list string;
}.
Definition source_head (t : JoinTarget) : string := default t.(jt_head) (t.(jt_build) ≫= bu_head_sha).
Definition accepted_planner (t : JoinTarget) (p : PlannerResult) : bool :=
  bool_decide (p.(pl_outcome) = PlannerOutcome.Proceed) && (p.(pl_plan_version) =? t.(jt_case).(sc_plan_version)).
Definition exact_build (t : JoinTarget) (b : BuilderResult) : bool :=
  bool_decide (b.(bu_outcome) = BuilderOutcome.ReviewReady) && (b.(bu_plan_version) =? t.(jt_case).(sc_plan_version))
  && bool_decide (b.(bu_head_sha) = Some (source_head t))
  && none_or t.(jt_build) (fun build => bool_decide (build = b)).
Definition current_review (t : JoinTarget) (run_id : string) (r : ReviewResult) : bool :=
  bool_decide (run_id ∈ t.(jt_current)) && (r.(rv_plan_version) =? t.(jt_case).(sc_plan_version))
  && (r.(rv_pr_number) =? t.(jt_number)) && String.eqb r.(rv_reviewed_head_sha) t.(jt_head).

Definition join_run (t : JoinTarget) (j : LedgerJoin) (run : StoredRun) : result FinalPreflightError LedgerJoin :=
  found ← ok_or (Contracts.decode run.(sr_payload)) InvalidWorkerEvidence;
  match found with
  | PlannerR p =>
      Ok (if accepted_planner t p
          then {| lj_planner := true; lj_builder := j.(lj_builder); lj_resolutions := j.(lj_resolutions);
                  lj_reviews := j.(lj_reviews); lj_findings := j.(lj_findings) |} else j)
  | BuilderR b =>
      Ok (if exact_build t b
          then {| lj_planner := j.(lj_planner); lj_builder := true;
                  lj_resolutions := j.(lj_resolutions) ++ b.(bu_finding_resolutions);
                  lj_reviews := j.(lj_reviews); lj_findings := j.(lj_findings) |} else j)
  | ReviewR r =>
      findings ← try_fold (record_origin r.(rv_reviewer_id)) j.(lj_findings) r.(rv_blocking_findings);
      Ok {| lj_planner := j.(lj_planner); lj_builder := j.(lj_builder); lj_resolutions := j.(lj_resolutions);
            lj_reviews := j.(lj_reviews) ++ (if current_review t run.(sr_run_id) r then [r] else []);
            lj_findings := findings |}
  | FinalR _ => Ok j
  end.

Definition required_reviewer_ids (w : WorkflowPolicy) : result FinalPreflightError (list (string * WorkerRole)) :=
  pairs ← try_map (fun r => id ← ok_or r.(rp_reviewer_id) InvalidWorkerEvidence; Ok (id, r.(rp_role)))
            (required_reviewers w);
  Ok (foldl (fun m p => upsert String.compare p.1 (fun _ => p.2) p.2 m) [] pairs).

(** The single approval of a required reviewer in the newest round. *)
Definition ledger_approval (reviews : list ReviewResult) (round : option Z) (id : string) (role : WorkerRole) : bool :=
  match List.filter (fun r => bool_decide (Some r.(rv_review_round) = round)
                              && bool_decide (r.(rv_common).(Contracts.role) = role)
                              && String.eqb r.(rv_reviewer_id) id) reviews with
  | [r] => bool_decide (r.(rv_outcome) = ReviewOutcome.Approve) && bool_decide (length r.(rv_blocking_findings) = 0%nat)
  | _ => false
  end.
Definition newest_round (required : list (string * WorkerRole)) (reviews : list ReviewResult) : option Z :=
  max_opt (rv_review_round <$> List.filter (fun r => is_some (assoc r.(rv_reviewer_id) required)) reviews).

Definition resolved (t : JoinTarget) (resolutions : list FindingResolution) (finding : string) : bool :=
  existsb (fun r => String.eqb r.(fr_finding_id) finding && String.eqb r.(fr_resolved_head_sha) (source_head t)) resolutions.
Definition confirms (head finding : string) (k : FindingConfirmation) : bool :=
  String.eqb k.(fc_finding_id) finding && bool_decide (k.(fc_status) = ConfirmedResolved)
  && String.eqb k.(fc_reviewed_fix_sha) head.
Definition confirmed (t : JoinTarget) (reviews : list ReviewResult) (finding origin : string) : bool :=
  existsb (fun r => String.eqb r.(rv_reviewer_id) origin
                    && existsb (confirms t.(jt_head) finding) r.(rv_finding_confirmations)) reviews.

Definition finding_blockers (t : JoinTarget) (j : LedgerJoin) (blockers : list string) (f : string * string)
  : list string :=
  push_if (negb (confirmed t j.(lj_reviews) f.1 f.2)) ("MISSING_ORIGIN_CONFIRMATION:" +:+ f.1)
    (push_if (negb (resolved t j.(lj_resolutions) f.1)) ("MISSING_FINDING_RESOLUTION:" +:+ f.1) blockers).

(** The case, its history and the build behind it. *)
Definition join_target (s : Store) (c : StoredCase) : result FinalPreflightError (JoinTarget * ImmutableCaseHistory) :=
  number ← ok_or c.(sc_pr_number) PreflightInvalidCase;
  head ← ok_or c.(sc_head_sha) PreflightInvalidCase;
  history ← map_err PreflightStore (immutable_history_for_case c.(sc_case_key) s);
  current ← map_err PreflightStore (current_review_runs_for_case c.(sc_case_key) s);
  build ← map_err (fun _ => InvalidWorkerEvidence) (published_builder history c);
  Ok ({| jt_case := c; jt_number := number; jt_head := head; jt_build := build; jt_current := sr_run_id <$> current |},
      history).

Definition empty_join : LedgerJoin :=
  {| lj_planner := false; lj_builder := false; lj_resolutions := []; lj_reviews := []; lj_findings := [] |}.

Definition validate_ledger_join (s : Store) (c : StoredCase) (policy : RepositoryPolicy) (blockers : list string)
  : result FinalPreflightError (list string) :=
  ok_or c.(sc_pr_number) PreflightInvalidCase;;
  ok_or c.(sc_head_sha) PreflightInvalidCase;;
  workflow ← map_err (fun _ => InvalidWorkerEvidence) (workflow_policy policy);
  required ← required_reviewer_ids workflow;
  '(t, history) ← join_target s c;
  j ← try_fold (join_run t) empty_join history.(ih_runs);
  let blockers := push_if (negb j.(lj_planner)) "MISSING_ACCEPTED_PLAN_RESULT" blockers in
  let blockers := push_if (negb j.(lj_builder)) "MISSING_EXACT_BUILDER_RESULT" blockers in
  let round := newest_round required j.(lj_reviews) in
  let blockers := foldl (fun b p => push_if (negb (ledger_approval j.(lj_reviews) round p.1 p.2))
                                      ("MISSING_LEDGER_APPROVAL:" +:+ p.1) b) blockers required in
  Ok (foldl (finding_blockers t j) blockers j.(lj_findings)).

(** ** The gate *)

Definition thread_blockers (s : Store) (c : StoredCase) (blockers : list string) (t : ReviewThreadSnapshot)
  : result FinalPreflightError (list string) :=
  handled ← assessed_thread_dispositions s c t;
  Ok (push_if (negb t.(th_is_resolved) && is_none handled) ("UNRESOLVED_REVIEW_THREAD:" +:+ t.(th_id)) blockers).

Definition review_actors (policy : RepositoryPolicy) : result FinalPreflightError (list (string * Z)) :=
  general ← ok_or (gc_reviewer_general_actor_id (po_github policy)) PreflightActor;
  secperf ← ok_or (gc_reviewer_secperf_actor_id (po_github policy)) PreflightActor;
  Ok [("reviewer-general", general); ("reviewer-secperf", secperf)].

Definition final_gate_blockers (s : Store) (c : StoredCase) (policy : RepositoryPolicy) (e : PullRequestEvidence)
  (threads : list ReviewThreadSnapshot) (expected_draft : option bool) : result FinalPreflightError (list string) :=
  actor ← ok_or (gc_automation_actor_id (po_github policy)) PreflightActor;
  actors ← review_actors policy;
  blockers ← validate_pull_request c policy actor e [] expected_draft;
  blockers ← validate_ledger_join s c policy blockers;
  head ← ok_or c.(sc_head_sha) PreflightInvalidCase;
  let blockers := validate_published_reviews actors head e blockers in
  try_fold (thread_blockers s c) blockers threads.

End gate.

(** ** What an open gate means *)

Section spec.
Context `{Codec}.

(** The run of the case that reported a result. *)
Definition reported (h : ImmutableCaseHistory) (run : StoredRun) (r : WorkerResult) : Prop :=
  run ∈ h.(ih_runs) /\ Contracts.decode run.(sr_payload) = Some r.

(** The pull request is the case's own, open, of the expected kind and mergeable. *)
Record pull_ready (c : StoredCase) (policy : RepositoryPolicy) (actor number : Z) (head : string)
  (draft : option bool) (p : PullRequestSnapshot) : Prop := {
  pq_number : p.(pr_number) = number;
  pq_repository : p.(pr_head_repository_id) = rid_id (po_repository policy)
                  /\ p.(pr_head_repository) = full_name (po_repository policy);
  pq_base : p.(pr_base_branch) = rid_default_branch (po_repository policy);
  pq_branch : p.(pr_head_branch) = expected_branch policy c;
  pq_head : p.(pr_head_sha) = head;
  pq_author : p.(pr_author_id) = actor;
  pq_open : p.(pr_open) = true /\ p.(pr_merged) = false;
  pq_draft : match draft with Some d => p.(pr_draft) = d | None => True end;
  pq_mergeable : p.(pr_mergeable) = Some true /\ p.(pr_mergeable_state) <> "dirty"%string
                 /\ p.(pr_mergeable_state) <> "unknown"%string;
}.

(** The current reviews of the exact plan, pull request and head. *)
Definition cohort (t : JoinTarget) (h : ImmutableCaseHistory) : list ReviewResult :=
  omap (fun run => match Contracts.decode run.(sr_payload) with
                   | Some (ReviewR r) => if current_review t run.(sr_run_id) r then Some r else None
                   | _ => None
                   end) h.(ih_runs).

(** The reviewer's one review of the newest round, which approves. *)
Definition approval (required : list (string * WorkerRole)) (reviews : list ReviewResult) (id : string)
  (role : WorkerRole) (v : ReviewResult) : Prop :=
  List.filter (fun r => (r.(rv_review_round) =? v.(rv_review_round)) && bool_decide (r.(rv_common).(Contracts.role) = role)
                        && String.eqb r.(rv_reviewer_id) id) reviews = [v]
  /\ v.(rv_outcome) = ReviewOutcome.Approve /\ v.(rv_blocking_findings) = []
  /\ forall r, r ∈ reviews -> is_some (assoc r.(rv_reviewer_id) required) = true ->
       r.(rv_review_round) <= v.(rv_review_round).

Record ledger_ready (t : JoinTarget) (h : ImmutableCaseHistory) (required : list (string * WorkerRole)) : Prop := {
  lr_plan : exists run p, reported h run (PlannerR p) /\ p.(pl_outcome) = PlannerOutcome.Proceed
              /\ p.(pl_plan_version) = t.(jt_case).(sc_plan_version);
  lr_build : exists run b, reported h run (BuilderR b) /\ exact_build t b = true;
  lr_approvals id role : (id, role) ∈ required -> exists v, approval required (cohort t h) id role v;
  (** Every blocking finding ever reported is resolved on the source head, and
      the reviewer who reported it confirms that on the case's head. *)
  lr_resolved run r f : reported h run (ReviewR r) -> f ∈ r.(rv_blocking_findings) ->
    exists run' b x, reported h run' (BuilderR b) /\ exact_build t b = true /\ x ∈ b.(bu_finding_resolutions)
      /\ x.(fr_finding_id) = f.(bf_id) /\ x.(fr_resolved_head_sha) = source_head t;
  lr_confirmed run r f : reported h run (ReviewR r) -> f ∈ r.(rv_blocking_findings) ->
    exists v k, v ∈ cohort t h /\ v.(rv_reviewer_id) = r.(rv_reviewer_id) /\ k ∈ v.(rv_finding_confirmations)
      /\ k.(fc_finding_id) = f.(bf_id) /\ k.(fc_status) = ConfirmedResolved /\ k.(fc_reviewed_fix_sha) = t.(jt_head);
}.

(** The newest review its own account stamped for a role, on the exact head. *)
Definition newest_published (actors : list (string * Z)) (head role : string) (l : list ReviewSnapshot)
  (r : ReviewSnapshot) : Prop :=
  r ∈ l /\ published_role actors head r = Some role
  /\ forall r', r' ∈ l -> published_role actors head r' = Some role -> review_newer r' r = false.

(** The published build disposed of the thread, which has not changed since. *)
Definition assessed (t : JoinTarget) (h : ImmutableCaseHistory) (thread : ReviewThreadSnapshot) : Prop :=
  exists b dispositions record, t.(jt_build) = Some b
    /\ map_get "suggestion_dispositions" b.(bu_common).(Contracts.evidence) = Some dispositions
    /\ record ∈ h.(ih_evidence) /\ record.(sv_kind) = "GITHUB_REVIEW_FEEDBACK"%string
    /\ thread_has_disposition thread dispositions record.(sv_payload) = true.

Record gate_open (s : Store) (c : StoredCase) (policy : RepositoryPolicy) (e : PullRequestEvidence)
  (threads : list ReviewThreadSnapshot) (draft : option bool) : Prop := {
  go_parts : exists actor actors w required t h,
    gc_automation_actor_id (po_github policy) = Some actor /\ review_actors policy = Ok actors
    /\ workflow_policy policy = Ok w /\ required_reviewer_ids w = Ok required /\ join_target s c = Ok (t, h)
    /\ pull_ready c policy actor t.(jt_number) t.(jt_head) draft e.(pe_pull)
    /\ green e t.(jt_head) (po_required_ci_contexts policy)
    /\ ledger_ready t h required
    /\ (forall role, role ∈ ["reviewer-general"; "reviewer-secperf"]%string ->
          exists r, newest_published actors t.(jt_head) role e.(pe_reviews) r /\ r.(rw_state) = Approved)
    /\ forall thread, thread ∈ threads -> thread.(th_is_resolved) = true \/ assessed t h thread;
}.

(** *** The pull request *)

Lemma push_unique_not_nil l v : push_unique l v <> [].
Proof.
  unfold push_unique. case_bool_decide as Hin; [by intros ->; inversion Hin|]. by destruct l.
Qed.
Lemma push_all_nil {A} (name : A -> string) l acc :
  foldl (fun b a => push_unique b (name a)) acc l = [] <-> acc = [] /\ l = [].
Proof.
  destruct l as [|a l]; simpl; [naive_solver|]. split; [|by intros [_ ?]].
  assert (push_unique acc (name a) <> []) as Hne by apply push_unique_not_nil. intros Hf. exfalso. revert Hne Hf.
  generalize (push_unique acc (name a)). induction l as [|b l IH]; intros m Hm Hf; simpl in *; [done|].
  by apply (IH (push_unique m (name b))); [apply push_unique_not_nil|].
Qed.

Lemma mergeability_nil p l :
  mergeability_blockers p l = [] <->
  l = [] /\ p.(pr_mergeable) = Some true /\ p.(pr_mergeable_state) <> "dirty"%string
  /\ p.(pr_mergeable_state) <> "unknown"%string.
Proof.
  unfold mergeability_blockers.
  destruct (String.eqb_spec (pr_mergeable_state p) "dirty"), (String.eqb_spec (pr_mergeable_state p) "unknown"),
    (pr_mergeable p) as [[]|]; split; intros Hx;
    (by apply push_unique_not_nil in Hx) || (destruct Hx as (? & ? & ? & ?); done) || naive_solver.
Qed.

Lemma ci_nil v l : ci_blockers v l = [] <-> l = [] /\ v.(ce_verdict) = CiAccepted.
Proof.
  unfold ci_blockers. case_bool_decide as Hv; [naive_solver|].
  rewrite push_all_nil, blocker_if_nil, bool_decide_eq_false. naive_solver.
Qed.

Lemma identity_ready c policy actor number head draft p :
  pull_ready c policy actor number head draft p <->
  identity_drift c policy actor number head p = false /\ disposition_drift draft p = false
  /\ p.(pr_mergeable) = Some true /\ p.(pr_mergeable_state) <> "dirty"%string
  /\ p.(pr_mergeable_state) <> "unknown"%string.
Proof.
  unfold identity_drift, disposition_drift. rewrite !orb_false_iff, !negb_false_iff, !String.eqb_eq, !Z.eqb_eq.
  split.
  - intros []. destruct draft; subst; rewrite ?eqb_reflx; naive_solver.
  - intros ([[[[[[? ?] ?] ?] ?] ?] ?] & [[? ?] Hd] & ?). split; try naive_solver.
    destruct draft; [|done]. by apply negb_false_iff, eqb_prop in Hd.
Qed.

Lemma pull_request_nil c policy actor e l draft number head out :
  unique_ids e -> c.(sc_pr_number) = Some number -> c.(sc_head_sha) = Some head ->
  validate_pull_request c policy actor e l draft = Ok out ->
  out = [] <-> l = [] /\ pull_ready c policy actor number head draft e.(pe_pull)
               /\ green e head (po_required_ci_contexts policy).
Proof.
  intros Hu Hn Hh Hv. unfold validate_pull_request in Hv. rewrite Hn, Hh in Hv. cbn [ok_or mbind result_bind] in Hv.
  injection Hv as <-. rewrite ci_nil, evaluate_green, mergeability_nil, !blocker_if_nil by done.
  rewrite identity_ready. naive_solver.
Qed.

(** *** The published reviews *)

#[local] Instance null_compare_order : CompareOrder null_compare.
Proof.
  split.
  - intros [a|] [b|]; simpl; try done. rewrite (compare_is_eq a b). naive_solver.
  - intros [a|] [b|]; simpl; try done. apply (compare_flip (compare := String.compare)).
  - intros [a|] [b|] [c|]; simpl; try done. apply compare_lt_trans.
Qed.

(** GitHub identifies a review by its id. *)
Definition unique_reviews (l : list ReviewSnapshot) : Prop :=
  forall a b, a ∈ l -> b ∈ l -> a.(rw_id) = b.(rw_id) -> a = b.

Lemma review_newer_order l : unique_reviews l -> NewerOrder review_newer l.
Proof.
  intros Hu. unfold review_newer. split.
  - intros v. rewrite compare_refl by apply _. apply Z.ltb_irrefl.
  - intros u v w. pose proof (compare_flip (rw_submitted_at u) (rw_submitted_at v)) as F1.
    pose proof (compare_flip (rw_submitted_at v) (rw_submitted_at w)) as F2.
    pose proof (compare_flip (rw_submitted_at u) (rw_submitted_at w)) as F3.
    destruct (null_compare (rw_submitted_at u) (rw_submitted_at v)) eqn:Huv; try done;
      destruct (null_compare (rw_submitted_at v) (rw_submitted_at w)) eqn:Hvw; try done; simpl in *.
    + apply compare_is_eq in Huv as ->. rewrite Hvw. lia.
    + apply compare_is_eq in Huv as ->. by rewrite Hvw.
    + apply compare_is_eq in Hvw as <-. by rewrite Huv.
    + rewrite (compare_lt_trans _ _ _ F2 F1) in F3. by destruct (null_compare (rw_submitted_at u) (rw_submitted_at w)).
  - intros v w Hv Hw. rewrite (compare_flip (rw_submitted_at v) (rw_submitted_at w)).
    destruct (null_compare (rw_submitted_at v) (rw_submitted_at w)); simpl; try done.
    intros. apply Hu; [done..|lia].
Qed.

Section published.
Context (actors : list (string * Z)) (head : string).
Let eligible (r : ReviewSnapshot) : bool := is_some (published_role actors head r).
Let role_key (r : ReviewSnapshot) : string := default "" (published_role actors head r).

Lemma newest_reviews_fold l :
  newest_reviews actors head l = foldl (upsert_newest String.compare role_key review_newer) [] (List.filter eligible l).
Proof.
  unfold newest_reviews. generalize ([] : list (string * ReviewSnapshot)).
  induction l as [|r l IH]; intros m; simpl; [done|]. unfold eligible at 1.
  destruct (published_role actors head r) as [role|] eqn:Hr; simpl; rewrite IH; [|done].
  unfold upsert_newest, role_key. by rewrite Hr.
Qed.

Lemma assoc_sorted {V} (m : list (string * V)) k v :
  StronglySorted (before String.compare) m -> assoc k m = Some v <-> (k, v) ∈ m.
Proof.
  unfold assoc. induction 1 as [|[k0 v0] m Hs IH Hall]; simpl; [split; [done|intros Hx; inversion Hx]|].
  rewrite elem_of_cons. destruct (String.eqb_spec k0 k) as [->|Hne]; simpl.
  - split; [naive_solver|]. intros [[= ->]|Hin]; [done|]. rewrite Forall_forall in Hall.
    apply Hall in Hin. unfold before in Hin. simpl in Hin. by rewrite compare_refl in Hin by apply _.
  - rewrite IH. naive_solver.
Qed.

Lemma newest_review_is l role r :
  unique_reviews l -> assoc role (newest_reviews actors head l) = Some r <-> newest_published actors head role l r.
Proof.
  intros Hu. assert (unique_reviews (List.filter eligible l)) as Hu'.
  { intros a b Ha%list_elem_of_In Hb%list_elem_of_In. apply filter_In in Ha as [Ha _], Hb as [Hb _].
    apply Hu; by apply list_elem_of_In. }
  rewrite newest_reviews_fold.
  destruct (newest_fold String.compare role_key review_newer _ (review_newer_order _ Hu')) as (Hs & He & _).
  rewrite (assoc_sorted _ _ _ Hs), He. unfold newest, newest_published, role_key.
  setoid_rewrite list_elem_of_In. setoid_rewrite filter_In. unfold eligible. split.
  - intros (-> & (Hin & Hel) & Hmax). destruct (published_role actors head r) as [k|] eqn:Hk; [|done]. simpl in *.
    split_and!; [done..|]. intros r' Hin' Hr'. apply Hmax; by rewrite Hr'.
  - intros (Hin & Hk & Hmax). rewrite Hk. simpl. split_and!; [done..|].
    intros w [Hw Hew] Hkey. apply Hmax; [done|]. by destruct (published_role actors head w); simplify_eq/=.
Qed.
End published.

Lemma published_nil actors head e l :
  unique_reviews e.(pe_reviews) -> validate_published_reviews actors head e l = [] <->
  l = [] /\ forall role, role ∈ ["reviewer-general"; "reviewer-secperf"]%string ->
    exists r, newest_published actors head role e.(pe_reviews) r /\ r.(rw_state) = Approved.
Proof.
  intros Hu. unfold validate_published_reviews. rewrite push_fold_nil. setoid_rewrite negb_false_iff.
  setoid_rewrite bool_decide_eq_true. setoid_rewrite fmap_Some.
  setoid_rewrite (fun role r => newest_review_is actors head _ role r Hu). naive_solver.
Qed.

(** *** The join over the ledger *)

Lemma try_fold_snoc {E A B} (f : B -> A -> result E B) acc l a :
  try_fold f acc (l ++ [a]) = (acc ← try_fold f acc l; f acc a).
Proof.
  revert acc. induction l as [|b l IH]; intros acc; simpl; [by destruct (f acc a)|].
  destruct (f acc b); simpl; [apply IH|done].
Qed.

Lemma record_origin_elem reviewer m f m' :
  StronglySorted (before String.compare) m -> record_origin reviewer m f = Ok m' ->
  StronglySorted (before String.compare) m'
  /\ forall id o, (id, o) ∈ m' <-> (id, o) ∈ m \/ (o = reviewer /\ id = f.(bf_id)).
Proof.
  intros Hs Hr. unfold record_origin in Hr. open_ok. subst. split; [exact (upsert_sorted String.compare _ _ _ _ Hs)|].
  assert (forall o, (bf_id f, o) ∈ m -> o = reviewer) as Ho.
  { intros o Ho%assoc_sorted; [|done]. match goal with Hx : match assoc _ _ with _ => _ end = false |- _ => rewrite Ho in Hx end.
    by texts. }
  intros id o. rewrite (upsert_elem String.compare _ _ _ _ _ _ Hs). destruct (decide (id = bf_id f)) as [->|Hne]; [|naive_solver].
  destruct (assoc (bf_id f) m) as [o0|] eqn:Ha.
  - apply assoc_sorted in Ha; [|done]. apply Ho in Ha as He. subst. split; [naive_solver|].
    intros [Hin| [-> _]]; [apply Ho in Hin as ->|]; naive_solver.
  - assert (forall o, (bf_id f, o) ∉ m) as Hno.
    { intros o1 Hin. apply assoc_sorted in Hin; [|done]. by rewrite Hin in Ha. }
    naive_solver.
Qed.

Lemma record_origins_elem reviewer fs m m' :
  StronglySorted (before String.compare) m -> try_fold (record_origin reviewer) m fs = Ok m' ->
  StronglySorted (before String.compare) m'
  /\ forall id o, (id, o) ∈ m' <-> (id, o) ∈ m \/ (o = reviewer /\ exists f, f ∈ fs /\ id = f.(bf_id)).
Proof.
  revert m. induction fs as [|f fs IH]; intros m Hs Hf; simpl in Hf.
  { injection Hf as <-. split; [done|]. set_solver. }
  open_ok. rename select (record_origin _ _ _ = _) into Hr. apply record_origin_elem in Hr as [Hs1 He]; [|done].
  rename select (try_fold _ _ _ = _) into Hf2. apply IH in Hf2 as [Hs2 He2]; [|done]. split; [done|]. intros id o. rewrite He2, He. set_solver.
Qed.

(** What the loop has collected from the runs [l]. *)
Definition says (run : StoredRun) (r : WorkerResult) : Prop := Contracts.decode run.(sr_payload) = Some r.
Record collected (t : JoinTarget) (l : list StoredRun) (j : LedgerJoin) : Prop := {
  cl_planner : j.(lj_planner) = true <->
    Exists (fun run => exists p, says run (PlannerR p) /\ accepted_planner t p = true) l;
  cl_builder : j.(lj_builder) = true <->
    Exists (fun run => exists b, says run (BuilderR b) /\ exact_build t b = true) l;
  cl_resolutions x : x ∈ j.(lj_resolutions) <->
    Exists (fun run => exists b, says run (BuilderR b) /\ exact_build t b = true /\ x ∈ b.(bu_finding_resolutions)) l;
  cl_reviews : j.(lj_reviews) = omap (fun run => match Contracts.decode run.(sr_payload) with
                   | Some (ReviewR r) => if current_review t run.(sr_run_id) r then Some r else None
                   | _ => None
                   end) l;
  cl_sorted : StronglySorted (before String.compare) j.(lj_findings);
  cl_findings id o : (id, o) ∈ j.(lj_findings) <->
    Exists (fun run => exists r f, says run (ReviewR r) /\ f ∈ r.(rv_blocking_findings)
                         /\ id = f.(bf_id) /\ o = r.(rv_reviewer_id)) l;
}.

Lemma collected_empty t : collected t [] empty_join.
Proof. split; simpl; intros; rewrite ?Exists_nil, ?elem_of_nil; try done. constructor. Qed.

Lemma join_run_collects t l run j j' :
  collected t l j -> join_run t j run = Ok j' -> collected t (l ++ [run]) j'.
Proof.
  intros [Hp Hb Hx Hv Hs Hf] Hj. unfold join_run in Hj. open_ok. rename select (Contracts.decode _ = _) into Hd.
  case_match; open_ok; subst; [destruct (accepted_planner t _) eqn:Hg|destruct (exact_build t _) eqn:Hg| |].
  all: split; simpl; intros; rewrite ?omap_app, ?Hv, ?elem_of_app; simpl; rewrite ?Hd, ?app_nil_r; try done.
  all: rewrite ?Exists_app, ?Exists_cons, ?Exists_nil, <-?Hp, <-?Hb, <-?Hx, <-?Hf; unfold says; rewrite ?Hd.
  all: clear Hp Hb Hx Hv.
  all: try (clear Hf Hs Hd; naive_solver congruence).
  - by destruct (current_review _ _ _).
  - rename select (try_fold _ _ _ = _) into Ht. by apply record_origins_elem in Ht as [? _].
  - rename select (try_fold _ _ _ = _) into Ht. apply record_origins_elem in Ht as [_ He]; [|done].
    rewrite He. naive_solver.
Qed.

Lemma join_collects t l j : try_fold (join_run t) empty_join l = Ok j -> collected t l j.
Proof.
  revert j. induction l as [|run l IH] using rev_ind; intros j Hj.
  - injection Hj as <-. apply collected_empty.
  - rewrite try_fold_snoc in Hj. open_ok. eapply join_run_collects; [by apply IH|done].
Qed.

(** *** Approvals *)

Lemma max_opt_snoc l n : max_opt (l ++ [n]) = Some (match max_opt l with Some m => Z.max m n | None => n end).
Proof. unfold max_opt. rewrite foldl_app. simpl. by destruct (foldl _ _ _). Qed.
Lemma max_opt_is l m : max_opt l = Some m <-> m ∈ l /\ forall n, n ∈ l -> n <= m.
Proof.
  revert m. induction l as [|n l IH] using rev_ind; intros m; [split; [done|intros [Hx _]; inversion Hx]|].
  rewrite max_opt_snoc. setoid_rewrite elem_of_app. setoid_rewrite list_elem_of_singleton.
  destruct (max_opt l) as [k|] eqn:Hm.
  - destruct (proj1 (IH k) eq_refl) as [Hk Hmax]. split.
    + intros [= <-]. split; [destruct (Z.max_spec k n) as [[_ ->]|[_ ->]]; auto|].
      intros x [Hx| ->]; [apply Hmax in Hx|]; lia.
    + intros [[Hin| ->] Hle]; f_equal; [|assert (k <= n) by auto; lia]. assert (k <= m) by auto.
      apply Hmax in Hin. assert (n <= m) by auto. lia.
  - assert (l = []) as ->.
    { destruct l as [|x l _] using rev_ind; [done|]. by rewrite max_opt_snoc in Hm. }
    split; [intros [= ->]; split; [by right|]; intros x [Hx| ->]; [inversion Hx|done]|].
    intros [[Hx| ->] _]; [inversion Hx|done].
Qed.

Lemma some_eqb (a b : Z) : bool_decide (Some a = Some b) = (a =? b).
Proof. case_bool_decide; symmetry; [apply Z.eqb_eq|apply Z.eqb_neq]; congruence. Qed.

Lemma ledger_approval_is required reviews id role :
  assoc id required = Some role ->
  ledger_approval reviews (newest_round required reviews) id role = true <->
  exists v, approval required reviews id role v.
Proof.
  intros Hreq. unfold ledger_approval, approval. split.
  - destruct (List.filter _ reviews) as [|v [|]] eqn:Hf; [done| |done]. intros. bools.
    exists v. assert (v ∈ reviews /\ Some (rv_review_round v) = newest_round required reviews) as [Hin Hround].
    { assert (In v [v]) as Hv by by left. rewrite <-Hf in Hv. apply filter_In in Hv as [? ?]. bools.
      split; [by apply list_elem_of_In|done]. }
    split_and!.
    + rewrite <-Hf. apply filter_ext. intros r. by rewrite <-Hround, some_eqb.
    + done.
    + by destruct (rv_blocking_findings v).
    + symmetry in Hround. apply max_opt_is in Hround as [_ Hmax]. intros r Hr Hrq. apply Hmax.
      apply list_elem_of_fmap_2, list_elem_of_In, filter_In. split; [by apply list_elem_of_In|done].
  - intros (v & Hf & Ho & Hb & Hmax).
    assert (v ∈ reviews /\ rv_reviewer_id v = id) as [Hin Hid].
    { assert (In v [v]) as Hv by by left. rewrite <-Hf in Hv. apply filter_In in Hv as [? ?]. texts.
      split; [by apply list_elem_of_In|done]. }
    assert (newest_round required reviews = Some (rv_review_round v)) as ->.
    { apply max_opt_is. split.
      - apply list_elem_of_fmap_2, list_elem_of_In, filter_In. split; [by apply list_elem_of_In|]. by rewrite Hid, Hreq.
      - intros n (r & -> & Hr)%list_elem_of_fmap. apply list_elem_of_In, filter_In in Hr as [? ?].
        apply Hmax; [by apply list_elem_of_In|done]. }
    erewrite filter_ext; [rewrite Hf|].
    + rewrite Ho, Hb. done.
    + intros r. simpl. by rewrite some_eqb.
Qed.

Lemma required_sorted w required :
  required_reviewer_ids w = Ok required -> StronglySorted (before String.compare) required.
Proof.
  unfold required_reviewer_ids. intros Hr. open_ok. subst. rename select (list _) into pairs. clear -pairs.
  induction pairs as [|p pairs IH] using rev_ind; [constructor|]. rewrite foldl_app. simpl.
  exact (upsert_sorted String.compare _ _ _ _ IH).
Qed.

Lemma findings_nil t j l acc :
  foldl (finding_blockers t j) acc l = [] <->
  acc = [] /\ forall f, f ∈ l -> resolved t j.(lj_resolutions) f.1 = true /\ confirmed t j.(lj_reviews) f.1 f.2 = true.
Proof.
  revert acc. induction l as [|f l IH]; intros acc; simpl; [set_solver|].
  rewrite IH. unfold finding_blockers at 1. rewrite !blocker_if_nil, !negb_false_iff.
  setoid_rewrite elem_of_cons. naive_solver.
Qed.

Lemma existsb_elem {A} (p : A -> bool) l : existsb p l = true <-> exists x, x ∈ l /\ p x = true.
Proof. rewrite existsb_exists. by setoid_rewrite list_elem_of_In. Qed.

Lemma resolved_is t l id :
  resolved t l id = true <-> exists x, x ∈ l /\ x.(fr_finding_id) = id /\ x.(fr_resolved_head_sha) = source_head t.
Proof.
  unfold resolved. rewrite existsb_elem. setoid_rewrite andb_true_iff. by setoid_rewrite String.eqb_eq.
Qed.
Lemma confirmed_is t l id o :
  confirmed t l id o = true <->
  exists v k, v ∈ l /\ v.(rv_reviewer_id) = o /\ k ∈ v.(rv_finding_confirmations) /\ k.(fc_finding_id) = id
    /\ k.(fc_status) = ConfirmedResolved /\ k.(fc_reviewed_fix_sha) = t.(jt_head).
Proof.
  unfold confirmed, confirms. rewrite existsb_elem. setoid_rewrite andb_true_iff. setoid_rewrite existsb_elem.
  repeat setoid_rewrite andb_true_iff. repeat setoid_rewrite String.eqb_eq. setoid_rewrite bool_decide_eq_true. naive_solver.
Qed.

(** The parts of the history the loop collects, as the specification names them. *)
Lemma collected_ready t h required j :
  collected t h.(ih_runs) j -> StronglySorted (before String.compare) required ->
  (j.(lj_planner) = true /\ j.(lj_builder) = true
   /\ (forall p, p ∈ required ->
         ledger_approval j.(lj_reviews) (newest_round required j.(lj_reviews)) p.1 p.2 = true)
   /\ forall f, f ∈ j.(lj_findings) ->
        resolved t j.(lj_resolutions) f.1 = true /\ confirmed t j.(lj_reviews) f.1 f.2 = true)
  <-> ledger_ready t h required.
Proof.
  intros [Hp Hb Hx Hv _ Hf] Hs. change (lj_reviews j = cohort t h) in Hv. rewrite Hp, Hb, Hv, !Exists_exists.
  assert (forall id role, (id, role) ∈ required -> assoc id required = Some role) as Ha.
  { intros id role. apply assoc_sorted, Hs. }
  setoid_rewrite resolved_is. setoid_rewrite confirmed_is. setoid_rewrite Hx. setoid_rewrite Exists_exists.
  unfold says in *. split.
  - intros ((run & Hin & p & Hd & Hac) & (run' & Hin' & b & Hd' & Hex) & Happ & Hfind). split.
    + unfold accepted_planner in Hac. bools. exists run, p. split_and!; [split|..]; done.
    + by exists run', b.
    + intros id role Hr. apply ledger_approval_is; [by apply Ha|]. by apply (Happ (id, role)).
    + intros r1 r f [Hr1 Hd1] Hbf. destruct (Hfind (bf_id f, rv_reviewer_id r)) as [(x & (run2 & ? & b2 & ? & ? & ?) & ? & ?) _].
      { apply Hf, Exists_exists. eauto 10. }
      exists run2, b2, x. split_and!; [split|..]; done.
    + intros r1 r f [Hr1 Hd1] Hbf. destruct (Hfind (bf_id f, rv_reviewer_id r)) as [_ Hc]; [|done].
      apply Hf, Exists_exists. eauto 10.
  - intros [(run & p & [Hin Hd] & Ho & Hver) (run' & b & [Hin' Hd'] & Hex) Happ Hres Hcon]. split_and!.
    + exists run. split; [done|]. exists p. split; [done|]. unfold accepted_planner.
      by rewrite bool_decide_eq_true_2, Hver, Z.eqb_refl by done.
    + eauto.
    + intros [id role] Hr. apply ledger_approval_is; [by apply Ha|]. by apply Happ.
    + intros [id o] (run1 & Hr1 & r & f & Hd1 & Hbf & -> & ->)%Hf%Exists_exists. simpl. split.
      * destruct (Hres run1 r f) as (run2 & b2 & x & [? ?] & ? & ? & ? & ?); [by split|done|]. exists x. eauto 10.
      * by apply (Hcon run1 r f).
Qed.

Lemma ledger_join_nil s c policy l out :
  validate_ledger_join s c policy l = Ok out ->
  exists w required t h, workflow_policy policy = Ok w /\ required_reviewer_ids w = Ok required
    /\ join_target s c = Ok (t, h) /\ (out = [] <-> l = [] /\ ledger_ready t h required).
Proof.
  unfold validate_ledger_join. intros Hv. open_ok.
  match goal with p : JoinTarget * _ |- _ => destruct p as [t h] end. open_ok. subst.
  rename select (required_reviewer_ids _ = _) into Hr. rename select (try_fold _ _ _ = _) into Hj.
  eexists _, _, t, h. split_and!; [eassumption..|]. apply join_collects in Hj.
  rewrite <-(collected_ready _ _ _ _ Hj (required_sorted _ _ Hr)), findings_nil, push_fold_nil, !blocker_if_nil, !negb_false_iff.
  setoid_rewrite negb_false_iff. naive_solver.
Qed.

(** *** Threads *)

Lemma disposed_array t d feedback : thread_has_disposition t d feedback = true -> is_Some (as_array d).
Proof. unfold thread_has_disposition. repeat case_match; naive_solver. Qed.

Lemma join_target_inv s c t h :
  join_target s c = Ok (t, h) ->
  c.(sc_pr_number) = Some t.(jt_number) /\ c.(sc_head_sha) = Some t.(jt_head) /\ t.(jt_case) = c
  /\ immutable_history_for_case c.(sc_case_key) s = Ok h /\ published_builder h c = Ok t.(jt_build).
Proof. unfold join_target. intros Ht. open_ok. simplify_eq. done. Qed.

(** The [expect] of the source never panics. *)
Lemma assessed_is s c t h thread handled :
  join_target s c = Ok (t, h) -> assessed_thread_dispositions s c thread = Ok handled ->
  is_some handled = true <-> assessed t h thread.
Proof.
  intros (_ & _ & _ & Hh & Hb)%join_target_inv Ha. unfold assessed_thread_dispositions in Ha.
  rewrite Hh in Ha. cbn [map_err mbind result_bind] in Ha. rewrite Hb in Ha. cbn [map_err mbind result_bind] in Ha.
  unfold assessed. destruct (jt_build t) as [b|]; simpl in Ha; [|injection Ha as <-; naive_solver].
  destruct (map_get _ _) as [d|] eqn:Hm; [|injection Ha as <-; naive_solver].
  destruct (existsb _ _) eqn:He; open_ok; simplify_eq/=.
  - apply existsb_elem in He as (record & Hin & Hr). texts. split; [|done]. intros _. eauto 10.
  - split; [done|]. intros (b' & d' & record & [= <-] & Hd' & Hin & Hk & Ht). simplify_eq.
    rewrite <-He, existsb_elem. exists record. by rewrite Hk, Ht.
Qed.

Lemma threads_nil s c t h threads acc out :
  join_target s c = Ok (t, h) -> try_fold (thread_blockers s c) acc threads = Ok out ->
  out = [] <-> acc = [] /\ forall thread, thread ∈ threads -> thread.(th_is_resolved) = true \/ assessed t h thread.
Proof.
  intros Hj. revert acc. induction threads as [|th l IH]; intros acc Hf; simpl in Hf.
  { injection Hf as <-. set_solver. }
  open_ok. rename select (try_fold _ _ _ = _) into Hl. rename select (thread_blockers _ _ _ _ = _) into Hb.
  rewrite (IH _ Hl). unfold thread_blockers in Hb. open_ok. subst. rename select (assessed_thread_dispositions _ _ _ = _) into Ha.
  rewrite blocker_if_nil, andb_false_iff, negb_false_iff. setoid_rewrite elem_of_cons.
  pose proof (assessed_is _ _ _ _ _ _ Hj Ha) as Has. 
  match goal with o : option (list Value) |- _ => destruct o end; simpl in *; naive_solver.
Qed.

(** *** The gate *)

Lemma final_gate_nil s c policy e threads draft blockers :
  unique_ids e -> unique_reviews e.(pe_reviews) ->
  final_gate_blockers s c policy e threads draft = Ok blockers ->
  blockers = [] <-> gate_open s c policy e threads draft.
Proof.
  intros Hu Hr Hg. unfold final_gate_blockers in Hg. open_ok.
  rename select (validate_pull_request _ _ _ _ _ _ = _) into Hp. rename select (validate_ledger_join _ _ _ _ = _) into Hl.
  apply ledger_join_nil in Hl as (w & required & t & h & Hw & Hq & Hj & Hl).
  rename select (try_fold _ _ _ = _) into Ht. rewrite (threads_nil _ _ _ _ _ _ _ Hj Ht), published_nil, Hl by done.
  destruct (join_target_inv _ _ _ _ Hj) as (Hn & Hh & _). rewrite (pull_request_nil _ _ _ _ _ _ _ _ _ Hu Hn Hh Hp).
  match goal with Hx : sc_head_sha c = Some ?h0 |- _ => assert (h0 = jt_head t) as -> by congruence end. split.
  - intros [[[(_ & Hpr & Hgr) Hrd] Hpub] Hth]. split. eexists _, _, w, required, t, h. split_and!; eassumption.
  - intros [(actor & actors & w' & required' & t' & h' & Ha & Has & Hw' & Hq' & Hj' & Hpr & Hgr & Hrd & Hpub & Hth)].
    assert (actors = x0) as -> by congruence. assert (w' = w) as -> by congruence.
    assert (required' = required) as -> by congruence. assert (t' = t) as -> by congruence. assert (h' = h) as -> by congruence.
    simplify_eq. by split_and!.
Qed.

(** C12: The final gate is exact.  Whenever the gate is evaluated, it reports no blocker
    exactly when the pull request is the case's own, open and mergeable, CI is green on its
    head, the accepted plan and the exact build are in the ledger, every required reviewer's
    one review of the newest round approves, every blocking finding ever reported is resolved
    and confirmed by its origin, both review accounts' newest stamped reviews on GitHub approve
    that head, and every open thread was disposed of unchanged. *)
Theorem final_gate_exact (s : Store) (c : StoredCase) (policy : RepositoryPolicy) (e : PullRequestEvidence)
  (threads : list ReviewThreadSnapshot) (draft : option bool) (blockers : list string)
  (Hids : unique_ids e) (Hreviews : unique_reviews e.(pe_reviews))
  (Hgate : final_gate_blockers s c policy e threads draft = Ok blockers) :
  blockers = [] <-> gate_open s c policy e threads draft.
Proof. by apply final_gate_nil. Qed.

End spec.

(** ** A case that passed every review

    The happy path of System.v, with the runs of its workers in the ledger. *)

Definition demo_build : BuilderResult := {|
  bu_common := demo_common "build-1" Builder; bu_outcome := BuilderOutcome.ReviewReady; bu_plan_version := 1;
  bu_build_round := 1; bu_head_sha := Some demo_head; bu_local_checks := ["tests"]; bu_finding_resolutions := [] |}.
Definition demo_work : list (Event * option (string * WorkerRole * WorkerResult)) :=
  [(Ev.PlanRecorded, Some ("plan-1", Planner, demo_plan)); (Ev.Proceed, None); (Ev.BuilderDispatched, None);
   (Ev.BuildRecorded, Some ("build-1", Builder, BuilderR demo_build)); (Ev.ReviewReady, None); (Ev.CiAccepted, None);
   (Ev.ReviewRecorded, Some ("review-1", ReviewerGeneral, ReviewR (demo_review "review-1" ReviewerGeneral "g")));
   (Ev.ReviewsApproved, Some ("review-2", ReviewerSecperf, ReviewR (demo_review "review-2" ReviewerSecperf "s")));
   (Ev.ReviewsPublished, None)]%string.

(** A run is recorded by the event that carries its result. *)
Definition with_run (run : option RunInput) (w : WorkflowCommand) : WorkflowCommand := {|
  wc_case_id := w.(wc_case_id); wc_event_id := w.(wc_event_id); wc_observed_at := w.(wc_observed_at);
  wc_expected_state := w.(wc_expected_state); wc_expected_state_revision := w.(wc_expected_state_revision);
  wc_accepted_policy_revision := w.(wc_accepted_policy_revision); wc_remediation_round := w.(wc_remediation_round);
  wc_plan_version := w.(wc_plan_version); wc_pr_number := w.(wc_pr_number); wc_head_sha := w.(wc_head_sha);
  wc_event := w.(wc_event); wc_accepted_plan_version := w.(wc_accepted_plan_version);
  wc_next_pr_number := w.(wc_next_pr_number); wc_next_head_sha := w.(wc_next_head_sha);
  wc_event_payload := default w.(wc_event_payload) (ri_payload <$> run); wc_run := run; wc_evidence := w.(wc_evidence); wc_findings := w.(wc_findings) |}.

Definition demo_work_step (x : Event * option (string * WorkerRole * WorkerResult)) (s : Store) : option Store :=
  w ← (query_case s demo_case_key ≫= demo_command x.1);
  let w := with_run ((fun y => {| ri_run_id := "run-" +:+ y.1.1; ri_task_id := y.1.1; ri_role := role_name y.1.2;
                                  ri_payload := encode_result y.2 |}) <$> x.2) w in
  if bool_decide (wf_command w) then
    match LedgerController.apply (H := demo_codec) demo_budget w s with Ok (Applied, s') => Some s' | _ => None end
  else None.
Fixpoint demo_worked (l : list (Event * option (string * WorkerRole * WorkerResult))) (s : Store) : option Store :=
  match l with [] => Some s | x :: l => s' ← demo_work_step x s; demo_worked l s' end.
Definition demo_final : Store := default empty_store (demo_worked demo_work demo_opened).

Lemma demo_worked_reachable l : forall s s',
  demo_worked l s = Some s' -> system_reachable (H := demo_codec) s -> system_reachable (H := demo_codec) s'.
Proof.
  induction l as [|x l IH]; intros s s' Hd Hs; simpl in Hd; [by simplify_eq|].
  apply bind_Some in Hd as (s1 & (w & _ & Hw)%bind_Some & Hd). cbv zeta in Hw.
  destruct (bool_decide (wf_command _)) eqn:Hwf in Hw; [|done]. apply bool_decide_eq_true in Hwf.
  repeat case_match; simplify_eq. eapply IH; [done|]. eapply rtc_r; [done|].
  by eapply (sys_apply (H := demo_codec)).
Qed.

Definition demo_pull (draft : bool) : PullRequestSnapshot := {|
  pr_id := 1; pr_number := 7; pr_open := true; pr_draft := draft; pr_merged := false; pr_merge_commit_sha := None;
  pr_mergeable := Some true; pr_mergeable_state := "clean"; pr_author_id := 1; pr_head_repository_id := 1;
  pr_head_repository := "o/r"; pr_head_branch := "pip/repo-1/issue-2/workflow-3"; pr_head_sha := demo_head;
  pr_base_branch := "main"; pr_base_sha := "def" |}.
Definition demo_stamp (id actor : Z) (role : string) : ReviewSnapshot := {|
  rw_id := id; rw_actor_id := actor; rw_state := Approved; rw_commit_id := Some demo_head; rw_exact_head := true;
  rw_submitted_at := Some "2026-01-02T00:00:00Z"%string; rw_body := "Pip reviewer role: " +:+ role |}.
Definition demo_approved : PullRequestEvidence := {|
  pe_pull := demo_pull true; pe_check_runs := [demo_check demo_head "ci" 11 Success];
  pe_commit_status_state := StatusSuccess; pe_commit_statuses := [];
  pe_reviews := [demo_stamp 21 2 "reviewer-general"; demo_stamp 22 3 "reviewer-secperf"] |}.
Definition demo_final_case : StoredCase := default demo_seen (query_case demo_final demo_case_key).

Lemma demo_approved_unique : unique_ids demo_approved /\ unique_reviews demo_approved.(pe_reviews).
Proof.
  split; [split|].
  - intros a b ->%list_elem_of_singleton ->%list_elem_of_singleton. done.
  - intros a b Ha. inversion Ha.
  - intros a b [->| ->%list_elem_of_singleton]%elem_of_cons [->| ->%list_elem_of_singleton]%elem_of_cons; done.
Qed.

Lemma final_gate_exact_witness :
  gate_open (H := demo_codec) demo_final demo_final_case (demo_policy 1 1000) demo_approved [] (Some true).
Proof.
  destruct demo_approved_unique as [Hu Hr].
  apply (final_gate_exact (H := demo_codec) demo_final demo_final_case (demo_policy 1 1000) demo_approved []
           (Some true) [] Hu Hr); [vm_compute; reflexivity|reflexivity].
Defined.
