(* ===== verification/Preflight.v ===== *)
(** * Preflight: the last check before the final review

    [reconcile_final_preflight_once] of crates/pip-control/src/final_preflight.rs: the
    cycle that evaluates the gate of FinalGate.v on fresh evidence and either lets the final
    reviewer start or routes the feedback back to the builder. *)

From S2P Require Import Prelude Text Parse Json Serde Domain StateMachine Revision Sql Tables Inputs StoreCore.
From S2P Require Import Status Outbox Control CaseHistory History Frames Steps Invariants Conversations.
From S2P Require Import Ledger System Ingest RolePolicy Policy PolicyLaws Commands Cycles Bounds GitHub Ci World Claims Park.
From S2P Require Import Takeover Authorization Recoveries FinalGate.
From stdpp Require Import relations sorting.
From Stdlib Require Import Ascii.
Open Scope Z_scope.

Class ReviewThreadSource :=
  review_threads (owner repository : string) (repository_id number : Z) : result GitHubError (list ReviewThreadSnapshot).

Inductive FinalPreflightCycle :=
| PreflightIdle
| PreflightBlocked
| PreflightPending (case_key : string) (blockers : list string)
| PreflightAccepted (case_key head_sha : string)
| FeedbackRouted (case_key state : string).

Definition fresh_issue_authorization (policy : RepositoryPolicy) (c : StoredCase) (e : IntakeSnapshot) : bool :=
  repository_matches policy e.(in_repository) && (e.(in_issue).(is_number) =? c.(sc_issue_number))
  && e.(in_issue).(is_open) && negb e.(in_issue).(is_pull)
  && bool_decide (ic_label (po_intake policy) ∈ e.(in_issue).(is_labels))
  && match latest_label policy e.(in_label_events) with
     | Some event => event.(le_labeled) && bool_decide (event.(le_actor_id) ∈ ic_trusted_actor_ids (po_intake policy))
     | None => false
     end.

(** ** Commands *)

Definition preflight_command (c : StoredCase) (policy : RepositoryPolicy) (observed_at : Z) (event : Event)
  (event_payload : Value) (evidence : EvidenceInput) : result FinalPreflightError WorkflowCommand :=
  id ← ok_or (case_id_of c) PreflightInvalidCase;
  err_if (negb (String.eqb (case_key id) c.(sc_case_key)) || negb (c.(sc_policy_revision) =? po_revision policy))
    PreflightInvalidCase;;
  event_id ← map_err (fun _ => PreflightInvalidCase) (EventId_from_str ("event-final-preflight-" +:+ case_suffix c));
  ok_or (case_command c c.(sc_state_revision) event_id event event_payload observed_at [evidence]) PreflightInvalidCase.

Definition accepted_payload (c : StoredCase) : Value :=
  json_object [("verdict", Str "ACCEPTED"); ("pull_request_number", opt_number c.(sc_pr_number));
               ("head_sha", opt_str c.(sc_head_sha))].

(** ** Feedback for the builder *)

(** Work for the builder, not a reason to wait. *)
Definition routable (blocker : string) : bool :=
  starts_with "UNRESOLVED_REVIEW_THREAD:" blocker || starts_with "MISSING_FINDING_RESOLUTION:" blocker
  || String.eqb blocker "PR_MERGE_CONFLICTS".
Definition open_threads (threads : list ReviewThreadSnapshot) : list ReviewThreadSnapshot :=
  List.filter (fun t => negb t.(th_is_resolved)) threads.
Definition feedback_order (a b : Value) : bool :=
  match null_compare (as_str (index a "id")) (as_str (index b "id")) with Gt => false | _ => true end.
Definition feedback_thread (t : ReviewThreadSnapshot) : Value :=
  json_object [("id", Str t.(th_id)); ("path", Str t.(th_path));
               ("comments", Array (ser_thread_comment <$> order_by (fun a b => str_leb a.(tc_id) b.(tc_id)) t.(th_comments)))].
Definition feedback_of (threads : list ReviewThreadSnapshot) : Value :=
  Array (order_by feedback_order (feedback_thread <$> open_threads threads)).

Definition repeated_feedback (feedback : Value) (blockers : list string) (record : StoredEvidence) : bool :=
  String.eqb record.(sv_kind) "GITHUB_REVIEW_FEEDBACK" && bool_decide (index record.(sv_payload) "threads" = feedback)
  && (bool_decide (index record.(sv_payload) "blockers" = Array (Str <$> blockers))
      || (is_null (index record.(sv_payload) "blockers") && forallb (starts_with "UNRESOLVED_REVIEW_THREAD:") blockers)).

Definition conflict_summary : string :=
  "The PR conflicts with its target branch: merge the current target branch and resolve the conflicts within the accepted plan. ".
Definition feedback_summary : string :=
  "Assess unresolved review threads and missing finding-resolution records. Repair in-scope defects, explicitly record each historical blocking finding's resolution against the resulting source head with test evidence, and explain deferred suggestions. Record each supplied thread_id and comment_id in suggestion_dispositions with its disposition, summary and verification. Fresh exact-head review and origin confirmation remain required.".

Definition feedback_payload (conflicts repeated : bool) (head : string) (number : Z) (blockers : list string) : Value :=
  json_object [("reason", Str (if conflicts then "PR_MERGE_CONFLICT" else "UNRESOLVED_REVIEW_FEEDBACK"));
               ("previously_observed", Bool repeated); ("head_sha", Str head); ("pull_request_number", Number number);
               ("blockers", Array (Str <$> blockers));
               ("summary", Str ((if conflicts then conflict_summary else "") +:+ feedback_summary))].

Definition feedback_evidence (c : StoredCase) (head : string) (number : Z) (feedback : Value) (blockers : list string)
  : EvidenceInput := {|
  vi_evidence_id := "evidence-review-feedback-"
    +:+ replace_char "@"%char "-" (replace_char "#"%char "-" (replace_char ":"%char "-" c.(sc_case_key)))
    +:+ "-revision" +:+ show c.(sc_state_revision);
  vi_kind := "GITHUB_REVIEW_FEEDBACK"; vi_source := "github-pr-" +:+ show number;
  vi_payload := json_object [("head_sha", Str head); ("pull_request_number", Number number); ("threads", feedback);
                             ("blockers", Array (Str <$> blockers))] |}.

Definition preflight_evidence (c : StoredCase) (policy : RepositoryPolicy) (number : Z) (issue : IntakeSnapshot)
  (e : PullRequestEvidence) (threads : list ReviewThreadSnapshot) : EvidenceInput := {|
  vi_evidence_id := "evidence-final-preflight-" +:+ case_suffix c;
  vi_kind := "GITHUB_FINAL_PREFLIGHT"; vi_source := "github-pr-" +:+ show number;
  vi_payload := json_object
    [("issue_authorization", ser_intake_snapshot issue); ("pull_request", ser_evidence e);
     ("review_threads", Array (ser_thread <$> threads));
     ("automation_actor_id", opt_number (gc_automation_actor_id (po_github policy)));
     ("review_actor_ids", json_object [("reviewer-general", opt_number (gc_reviewer_general_actor_id (po_github policy)));
                                       ("reviewer-secperf", opt_number (gc_reviewer_secperf_actor_id (po_github policy)))]);
     ("required_role_stamps", Array (Str <$> (snd <$> REVIEW_ROLES)))] |}.

Section preflight.
Context `{Codec} {source : IntakeSource} {pulls : PullRequestSource} {threads_source : ReviewThreadSource}.

Definition route_feedback (c : StoredCase) (policy : RepositoryPolicy) (observed_at number : Z) (head : string)
  (threads : list ReviewThreadSnapshot) (blockers : list string) : Cycle FinalPreflightError FinalPreflightCycle :=
  let conflicts := existsb (fun b => String.eqb b "PR_MERGE_CONFLICTS") blockers in
  let feedback := feedback_of threads in
  history ← query (fun s => map_err PreflightStore (immutable_history_for_case c.(sc_case_key) s));
  let repeated := existsb (repeated_feedback feedback blockers) history.(ih_evidence) in
  command ← lift (preflight_command c policy observed_at Ev.ReturnToBuild
                    (feedback_payload conflicts repeated head number blockers)
                    (feedback_evidence c head number feedback blockers));
  apply_command PreflightPanic PreflightController policy command;;
  after ← query (fun s => ok_or (query_case s c.(sc_case_key)) PreflightInvalidCase);
  mret (FeedbackRouted c.(sc_case_key) after.(sc_state)).

Definition invalid_claim (policy : RepositoryPolicy) (e : ClaimedEffect) (c : StoredCase) : bool :=
  negb (String.eqb c.(sc_state) "FINAL_REVIEW") || negb (c.(sc_state_revision) =? e.(ce_state_revision))
  || negb (c.(sc_repository_id) =? rid_id (po_repository policy))
  || negb (c.(sc_policy_revision) =? po_revision policy) || is_none c.(sc_pr_number) || is_none c.(sc_head_sha).

(** What the cycle does with the blockers of the gate. *)
Definition preflight_decide (scope : RepositoryScope) (observed_at : Z) (owner : string) (effect : string)
  (c : StoredCase) (number : Z) (head : string) (e : PullRequestEvidence) (threads : list ReviewThreadSnapshot)
  (issue : IntakeSnapshot) (blockers : list string) : Cycle FinalPreflightError FinalPreflightCycle :=
  let policy := rs_policy scope in
  match blockers with
  | [] =>
      command ← lift (preflight_command c policy observed_at Ev.FinalPreflightAccepted (accepted_payload c)
                        (preflight_evidence c policy number issue e threads));
      apply_command PreflightPanic PreflightController policy command;;
      mret (PreflightAccepted c.(sc_case_key) head)
  | _ =>
      if forallb routable blockers
         && forallb (fun t => negb (bool_decide (length t.(th_comments) = 0%nat))) (open_threads threads)
      then route_feedback c policy observed_at number head threads blockers
      else release PreflightStore effect owner;; mret (PreflightPending c.(sc_case_key) blockers)
  end.

Definition guarded {A} (effect : ClaimedEffect) (owner : string) (m : Cycle FinalPreflightError A) :=
  or_release PreflightStore effect.(ce_effect_id) owner m.

Definition reconcile_final_preflight_once (scope : RepositoryScope) (observed_at : Z) (owner : string)
  (lease_seconds : Z) (authorization_valid : bool) : Cycle FinalPreflightError FinalPreflightCycle :=
  let policy := rs_policy scope in
  let repository := po_repository policy in
  if negb authorization_valid then mret PreflightBlocked else
  claimed ← claim PreflightStore scope owner observed_at lease_seconds ["OBSERVE_FINAL_PREFLIGHT"%string];
  match claimed with
  | None => mret PreflightIdle
  | Some effect =>
      c ← claimed_case PreflightInvalidCase effect.(ce_case_key);
      guarded effect owner (lift (err_if (invalid_claim policy effect c) PreflightInvalidCase));;
      number ← lift (ok_or c.(sc_pr_number) PreflightInvalidCase);
      head ← lift (ok_or c.(sc_head_sha) PreflightInvalidCase);
      e ← guarded effect owner (lift (map_err PreflightGitHub
            (pull_request (rid_owner repository) (rid_name repository) (rid_id repository) number)));
      threads ← guarded effect owner (lift (map_err PreflightGitHub
            (review_threads (rid_owner repository) (rid_name repository) (rid_id repository) number)));
      issue ← guarded effect owner (lift (map_err PreflightGitHub
            (intake (rid_owner repository) (rid_name repository) c.(sc_issue_number))));
      if negb (fresh_issue_authorization policy c issue)
      then release PreflightStore effect.(ce_effect_id) owner;; mret PreflightBlocked else
      blockers ← guarded effect owner (query (fun s => final_gate_blockers s c policy e threads (Some true)));
      preflight_decide scope observed_at owner effect.(ce_effect_id) c number head e threads issue
        (order_by str_leb blockers)
  end.
End preflight.

(** ** What the cycle may do *)

Section laws.
Context `{Codec} {source : IntakeSource} {pulls : PullRequestSource} {threads_source : ReviewThreadSource}.

(** The issue still carries the label a trusted human gave it last. *)
Record still_authorized (policy : RepositoryPolicy) (c : StoredCase) (e : IntakeSnapshot) : Prop := {
  sa_repository : repository_matches policy e.(in_repository) = true;
  sa_issue : e.(in_issue).(is_number) = c.(sc_issue_number) /\ e.(in_issue).(is_open) = true /\ e.(in_issue).(is_pull) = false;
  sa_label : ic_label (po_intake policy) ∈ e.(in_issue).(is_labels);
  sa_actor : exists event, newest_label policy e.(in_label_events) event /\ event.(le_labeled) = true
               /\ event.(le_actor_id) ∈ ic_trusted_actor_ids (po_intake policy);
}.
Lemma fresh_is policy c e : fresh_issue_authorization policy c e = true -> still_authorized policy c e.
Proof.
  unfold fresh_issue_authorization. intros Hf. bools.
  destruct (latest_label _ _) as [ev|] eqn:Hl; [|done]. bools. split; [done|split_and!; [lia|done..]|done|].
  exists ev. split_and!; [by apply latest_label_newest|done..].
Qed.

Lemma preflight_command_inv c policy now ev p evd w :
  preflight_command c policy now ev p evd = Ok w ->
  case_key w.(wc_case_id) = c.(sc_case_key)
  /\ case_command c c.(sc_state_revision) w.(wc_event_id) ev p now [evd] = Some w.
Proof.
  unfold preflight_command. intros Hp. open_ok. texts.
  rename select (case_command _ _ _ _ _ _ _ = _) into Hc.
  destruct (case_command_inv _ _ _ _ _ _ _ _ Hc) as (Hid & -> & _). split; [|done]. congruence.
Qed.

Lemma preflight_applied c policy now ev p evd command w r w' :
  query_case (w_store w) c.(sc_case_key) = Some c -> 0 <= now -> ev <> Ev.ReviewReady ->
  preflight_command c policy now ev p evd = Ok command ->
  apply_command PreflightPanic PreflightController policy command w = (r, w') ->
  still w w' \/ (moved c ev (w_store w) (w_store w') /\ w'.(w_log) = w.(w_log)).
Proof.
  intros Hq Hnow Hev [Hkey Hc]%preflight_command_inv [[-> _]|(budget & a & s' & Ha & _ & ->)]%apply_command_inv; [by left|].
  destruct (command_outcome _ _ _ _ _ _ _ _ _ _ _ Hq Hkey Hnow Hev Hc Ha) as [[_ Hm]|[_ ->]]; [right; split; done|].
  left. by destruct w as [[]].
Qed.

(** What the cycle saw when it decided. *)
Record preflight_seen (scope : RepositoryScope) (w : World) (c : StoredCase) (number : Z) (head : string)
  (e : PullRequestEvidence) (threads : list ReviewThreadSnapshot) (issue : IntakeSnapshot) (blockers : list string) : Prop := {
  ps_state : c.(sc_state) = "FINAL_REVIEW"%string /\ c.(sc_repository_id) = rid_id (po_repository (rs_policy scope))
             /\ c.(sc_policy_revision) = po_revision (rs_policy scope);
  ps_binding : c.(sc_pr_number) = Some number /\ c.(sc_head_sha) = Some head;
  ps_pull : let r := po_repository (rs_policy scope) in
            pull_request (rid_owner r) (rid_name r) (rid_id r) number = Ok e;
  ps_threads : let r := po_repository (rs_policy scope) in
               review_threads (rid_owner r) (rid_name r) (rid_id r) number = Ok threads;
  ps_issue : still_authorized (rs_policy scope) c issue;
  ps_gate : final_gate_blockers (w_store w) c (rs_policy scope) e threads (Some true) = Ok blockers;
}.

Lemma decide_moves scope now owner effect c number head e threads issue blockers w r w' :
  query_case (w_store w) c.(sc_case_key) = Some c -> 0 <= now ->
  preflight_decide scope now owner effect c number head e threads issue blockers w = (r, w') ->
  still w w'
  \/ (blockers = [] /\ moved c Ev.FinalPreflightAccepted (w_store w) (w_store w') /\ w'.(w_log) = w.(w_log))
  \/ (blockers <> [] /\ forallb routable blockers = true /\ moved c Ev.ReturnToBuild (w_store w) (w_store w')
      /\ w'.(w_log) = w.(w_log)).
Proof.
  intros Hq Hnow Hd. unfold preflight_decide, route_feedback in Hd. destruct blockers as [|b bs].
  - rewrite lift_run in Hd. destruct (preflight_command _ _ _ _ _ _) as [command|] eqn:Hc; [|by injection Hd as <- <-; left].
    apply bind_inv in Hd as [(a & w1 & Ha & Hd)|(? & Ha & _)];
      (eapply preflight_applied in Ha as [Ha|[Ha ?]]; [..|exact Hc]; [..|done|done|done]).
    1,2: injection Hd as <- <-. all: auto.
  - destruct (_ && _) eqn:Hg in Hd.
    + rewrite query_run in Hd. destruct (map_err _ _); [|by injection Hd as <- <-; left].
      rewrite lift_run in Hd. destruct (preflight_command _ _ _ _ _ _) as [command|] eqn:Hc; [|by injection Hd as <- <-; left].
      bools. apply bind_inv in Hd as [(? & w1 & Ha & Hd)|(? & Ha & _)];
        (eapply preflight_applied in Ha as [Ha|[Ha ?]]; [..|exact Hc]; [..|done|done|done]).
      1,2: rewrite query_run in Hd; destruct (ok_or _ _); injection Hd as <- <-. all: auto 10.
    + left. apply bind_inv in Hd as [(? & w1 & Ha & Hd)|(? & Ha & _)]; apply release_still in Ha; [|done].
      by injection Hd as <- <-.
Qed.

Lemma order_by_nil {R} (leb : R -> R -> bool) l : order_by leb l = [] <-> l = [].
Proof. unfold order_by. split; [|by intros ->]. intros Hn. apply Permutation_nil_r. by rewrite <-Hn, merge_sort_Permutation. Qed.

Lemma preflight_moves scope now owner lease valid w r w' :
  0 <= now -> reconcile_final_preflight_once scope now owner lease valid w = (r, w') ->
  still w w' \/ exists c number head e threads issue blockers w1,
    still w w1 /\ query_case (w_store w) c.(sc_case_key) = Some c
    /\ preflight_seen scope w1 c number head e threads issue blockers
    /\ ((blockers = [] /\ moved c Ev.FinalPreflightAccepted (w_store w) (w_store w'))
        \/ (blockers <> [] /\ moved c Ev.ReturnToBuild (w_store w) (w_store w'))).
Proof.
  intros Hnow Hr. unfold reconcile_final_preflight_once in Hr. destruct valid; [|by injection Hr as <- <-; left]. simpl in Hr.
  apply claimed_inv in Hr as [Hs|(effect & c & w1 & _ & Hcl & Hq & Hq0 & Hr)]; [by left|].
  assert (forall w2, still w1 w2 -> still w w2) as Htr by (intros; by etrans).
  unfold guarded in Hr.
  apply or_release_inv in Hr as [(? & ? & [= Hg <-] & Hr)|(? & ? & ? & [= _ <-] & _ & Hs)]; [|by left; apply Htr].
  rewrite !lift_run in Hr. destruct (sc_pr_number c) as [number|] eqn:Hn; simpl in Hr; [|by injection Hr as <- <-; left].
  rewrite !lift_run in Hr. destruct (sc_head_sha c) as [head|] eqn:Hh; simpl in Hr; [|by injection Hr as <- <-; left].
  apply or_release_inv in Hr as [(e & ? & [= He <-] & Hr)|(? & ? & ? & [= _ <-] & _ & Hs)]; [|by left; apply Htr].
  apply or_release_inv in Hr as [(threads & ? & [= Ht <-] & Hr)|(? & ? & ? & [= _ <-] & _ & Hs)]; [|by left; apply Htr].
  apply or_release_inv in Hr as [(issue & ? & [= Hi <-] & Hr)|(? & ? & ? & [= _ <-] & _ & Hs)]; [|by left; apply Htr].
  destruct (fresh_issue_authorization _ _ _) eqn:Hf; simpl in Hr.
  2: { left. apply bind_inv in Hr as [(? & w2 & Hrl & Hr)|(? & Hrl & _)]; apply release_still in Hrl; [|by apply Htr].
       injection Hr as <- <-. by apply Htr. }
  apply or_release_inv in Hr as [(blockers & ? & [= Hb <-] & Hr)|(? & ? & ? & [= _ <-] & _ & Hs)]; [|by left; apply Htr].
  apply map_err_ok in He, Ht, Hi. unfold invalid_claim in Hg. open_ok.
  texts. apply decide_moves in Hr as [Hs|[(Hbl & Hm & _)|(Hbl & _ & Hm & _)]]; [| | |done|done];
    [by left; apply Htr|right..]; exists c, number, head, e, threads, issue, blockers, w1.
  all: split; [done|]; split; [done|]; split;
    [split; [split_and!; [done|lia..]|done|exact He|exact Ht|by apply fresh_is|exact Hb]|].
  - left. split; [by apply order_by_nil in Hbl|by eapply still_moved].
  - right. split; [by intros ->|by eapply still_moved].
Qed.

(** GitHub identifies check runs, statuses and reviews by their ids. *)
Definition evidence_unique : Prop := forall owner repository id number e,
  pull_request owner repository id number = Ok e -> unique_ids e /\ unique_reviews e.(pe_reviews).

(** C13: The final review starts only behind an open gate.  Whatever a preflight cycle
    answers, a case of the ledger that it changed was in final review in the scope, its issue is
    still authorized by a trusted human's newest label, and on the pull request and threads
    GitHub shows for it, either the gate is open and the case moved by [FINAL_PREFLIGHT_ACCEPTED], or
    the gate is closed and the case went back to the builder; no other case changed. *)
Theorem preflight_needs_open_gate (scope : RepositoryScope) (now lease : Z) (owner : string) (valid : bool) (w w' : World)
  (r : result FinalPreflightError FinalPreflightCycle) (key : string) (c c' : StoredCase)
  (Hunique : evidence_unique) (Hnow : 0 <= now)
  (Hrun : reconcile_final_preflight_once scope now owner lease valid w = (r, w'))
  (Hc : query_case (w_store w) key = Some c) (Hc' : query_case (w_store w') key = Some c') (Hne : c' <> c) :
  c.(sc_state) = "FINAL_REVIEW"%string /\ c.(sc_policy_revision) = po_revision (rs_policy scope)
  /\ exists number e threads issue s1,
    c.(sc_pr_number) = Some number /\ quiet (w_store w) s1 /\ still_authorized (rs_policy scope) c issue
    /\ (let rp := po_repository (rs_policy scope) in
        pull_request (rid_owner rp) (rid_name rp) (rid_id rp) number = Ok e
        /\ review_threads (rid_owner rp) (rid_name rp) (rid_id rp) number = Ok threads)
    /\ ((gate_open s1 c (rs_policy scope) e threads (Some true)
         /\ moved c Ev.FinalPreflightAccepted (w_store w) (w_store w'))
        \/ (~ gate_open s1 c (rs_policy scope) e threads (Some true)
            /\ moved c Ev.ReturnToBuild (w_store w) (w_store w'))).
Proof.
  apply preflight_moves in Hrun as [Hs|(c0 & number & head & e & threads & issue & blockers & w1 & Hs & Hq & Hseen & Hm)];
    [by rewrite (still_query _ _ _ Hs) in Hc'; simplify_eq| |done].
  assert (c = c0) as ->.
  { destruct (decide (key = sc_case_key c0)) as [->|Hk]; [congruence|]. exfalso. apply Hne.
    destruct Hm as [[_ Hm]|[_ Hm]]; destruct Hm as (? & ? & ? & ? & _ & _ & _ & _ & _ & _ & _ & _ & Ho);
      rewrite Ho in Hc' by done; congruence. }
  destruct Hseen as [(? & _ & ?) [? _] Hp Ht ? Hg]. split; [done|]. split; [done|].
  exists number, e, threads, issue, (w_store w1). split; [done|]. split; [apply Hs|]. split; [done|]. split; [done|].
  destruct (Hunique _ _ _ _ _ Hp) as [Hu Hr]. apply final_gate_nil in Hg; [|done..]. tauto.
Qed.

Lemma preflight_floor c policy now ev p evd w :
  case_ranges c -> 0 <= now -> ev <> Ev.ReviewReady -> preflight_command c policy now ev p evd = Ok w -> command_floor w.
Proof. intros Hc Hnow Hev [_ Hcc]%preflight_command_inv. eapply case_command_floor; [done|apply Hc|done|done|exact Hcc]. Qed.

Lemma preflight_sound scope now owner lease valid : 0 <= now -> Sound (reconcile_final_preflight_once scope now owner lease valid).
Proof.
  intros Hnow. unfold reconcile_final_preflight_once, preflight_decide, route_feedback, guarded. sound_claimed;
    apply sound_claimed_command; (eapply preflight_floor; [..|eassumption]; done).
Qed.
End laws.

(** ** A preflight that passes *)

Definition demo_pull_source : PullRequestSource := {|
  pull_request owner repository id number := Ok demo_approved;
  failure_diagnostics owner repository e := json_object [] |}.
Definition demo_no_threads : ReviewThreadSource := fun _ _ _ _ => Ok [].
Definition demo_preflight : World :=
  (reconcile_final_preflight_once (H := demo_codec) (source := demo_intake_source true) (pulls := demo_pull_source)
     (threads_source := demo_no_threads) demo_scope 200 "w" 60 true (demo_world demo_final)).2.
Definition revision_in (w : World) : option Z := sc_state_revision <$> query_case (w_store w) demo_case_key.

Lemma preflight_needs_open_gate_witness :
  exists c e threads issue, query_case demo_final demo_case_key = Some c
    /\ still_authorized (demo_policy 1 1000) c issue
    /\ ((exists s1, gate_open (H := demo_codec) s1 c (demo_policy 1 1000) e threads (Some true))
        \/ moved c Ev.ReturnToBuild demo_final (w_store demo_preflight)).
Proof.
  assert (revision_in (demo_world demo_final) = Some 10) as Hs by (vm_compute; reflexivity).
  assert (revision_in demo_preflight = Some 11) as Hs' by (vm_compute; reflexivity).
  apply fmap_Some in Hs as (c & Hc & Hrev), Hs' as (c' & Hc' & Hrev').
  assert (c' <> c) as Hne by (intros ->; rewrite <-Hrev in Hrev'; discriminate Hrev').
  destruct (reconcile_final_preflight_once (H := demo_codec) (source := demo_intake_source true) (pulls := demo_pull_source)
     (threads_source := demo_no_threads) demo_scope 200 "w" 60 true (demo_world demo_final)) as [r w'] eqn:Hrun.
  assert (w' = demo_preflight) as -> by (unfold demo_preflight; by rewrite Hrun).
  destruct (preflight_needs_open_gate (H := demo_codec) (source := demo_intake_source true) (pulls := demo_pull_source)
     (threads_source := demo_no_threads) demo_scope 200 60 "w" true (demo_world demo_final) demo_preflight r
     demo_case_key c c') as (_ & _ & n & e & threads & issue & s1 & _ & _ & Ha & _ & Hm);
    [|lia|exact Hrun|exact Hc|exact Hc'|exact Hne|].
  - intros o rp id number e [= <-]. exact demo_approved_unique.
  - exists c, e, threads, issue. split; [exact Hc|]. split; [exact Ha|].
    destruct Hm as [[Hg _]|[_ Hm]]; [left; exists s1; exact Hg|right; exact Hm].
Defined.
