(* ===== verification/Plans.v ===== *)
(** * Plans: publication of a plan

    crates/pip-control/src/plans.rs.  The planner's result is in the ledger when
    its effect [PUBLISH_PLAN] is claimed; the cycle renders it as a comment on the issue
    and, once GitHub confirms the comment, moves the case by the plan's outcome. *)

From S2P Require Import Prelude Text Parse Json Serde Domain StateMachine Revision Contracts Sql Tables Inputs StoreCore.
From S2P Require Import Outbox Control Records History Frames Steps Invariants Conversations.
From S2P Require Import Ledger System Ingest RolePolicy Policy PolicyLaws Commands Cycles Bounds GitHub World Claims Park Takeover Authorization.
From S2P Require Import Recoveries FinalGate.
From stdpp Require Import relations.
Open Scope Z_scope.

Class PlanWriter := ensure_plan_comment (spec : CommentSpec) : result GitHubError Mutation.t.

Inductive PlanPublicationCycle :=
| PlanIdle
| PlanAuthorizationBlocked
| PlanPublished (case_key : string) (plan_version comment_id : Z).

Inductive PlanPublicationError :=
| PlanGitHub (e : GitHubError)
| PlanStore (e : StoreError)
| PlanController (e : ControllerError)
| PlanMissingActor
| PlanInvalidCase
| PlanInvalidJoin
| PlanUnexpectedMutation
| PlanSerialization
| PlanPanic.

(** ** The plan to publish *)

(** The planner results of the expected version; a run that does not decode is an error. *)
Definition matching_plan (expected : Z) (run : StoredRun) : result PlanPublicationError (list PlannerResult) :=
  found ← ok_or (Contracts.decode run.(sr_payload)) PlanSerialization;
  Ok match found with
     | PlannerR plan => if plan.(pl_plan_version) =? expected then [plan] else []
     | _ => []
     end.

Section next.
Context `{Codec}.

Definition next_plan (s : Store) (c : StoredCase) : result PlanPublicationError PlannerResult :=
  let expected := saturating_add u32_max c.(sc_plan_version) 1 in
  runs ← map_err PlanStore (runs_for_case c.(sc_case_key) s);
  found ← try_map (matching_plan expected) runs;
  match mjoin found with [plan] => Ok plan | _ => Err PlanInvalidJoin end.
End next.

(** ** The comment *)

Definition scope_title (s : SensitiveScope) : string :=
  match s with
  | Cryptography => "Cryptography"
  | MlsCgka => "MLS and continuous group key agreement"
  | KeyHandling => "Key handling"
  | TrustAnchor => "Trust anchors"
  | MembershipAuthorization => "Membership authorization"
  | AdminAuthorization => "Administrator authorization"
  | PushPayloadContext => "Push payload context"
  end.

Definition outcome_name (o : PlannerOutcome.t) : string :=
  match o with
  | PlannerOutcome.Proceed => "PROCEED"
  | PlannerOutcome.AlreadyFixed => "ALREADY_FIXED"
  | PlannerOutcome.NotReproducible => "NOT_REPRODUCIBLE"
  | PlannerOutcome.Duplicate => "DUPLICATE"
  | PlannerOutcome.RootCauseDifferentScope => "ROOT_CAUSE_DIFFERENT_SCOPE"
  | PlannerOutcome.CrossRepoDependency => "CROSS_REPO_DEPENDENCY"
  | PlannerOutcome.WaitingForIssueCreator => "WAITING_FOR_ISSUE_CREATOR"
  | PlannerOutcome.NeedsHumanScopeDecision => "NEEDS_HUMAN_SCOPE_DECISION"
  | PlannerOutcome.Abandon => "ABANDON"
  | PlannerOutcome.Blocked => "BLOCKED"
  | PlannerOutcome.BlockedUnexpectedModel => "BLOCKED_UNEXPECTED_MODEL"
  end.

Definition planner_event (o : PlannerOutcome.t) : Event :=
  match o with
  | PlannerOutcome.Proceed => Ev.Proceed
  | PlannerOutcome.AlreadyFixed => Ev.AlreadyFixed
  | PlannerOutcome.NotReproducible => Ev.NotReproducible
  | PlannerOutcome.Duplicate => Ev.Duplicate
  | PlannerOutcome.RootCauseDifferentScope => Ev.RootCauseDifferentScope
  | PlannerOutcome.CrossRepoDependency => Ev.CrossRepoDependency
  | PlannerOutcome.WaitingForIssueCreator => Ev.WaitingForIssueCreator
  | PlannerOutcome.NeedsHumanScopeDecision => Ev.NeedsHumanScopeDecision
  | PlannerOutcome.Abandon => Ev.Abandon
  | PlannerOutcome.Blocked => Ev.Blocked
  | PlannerOutcome.BlockedUnexpectedModel => Ev.BlockedUnexpectedModel
  end.

Definition dependency_text (dependency : Value) : string :=
  match summaries dependency with
  | [] => "Dependency details retained in Pip; no readable summary supplied."
  | summary => Parse.join "; " summary
  end.
Definition inline_plan (plan : PlannerResult) : string :=
  match map_get "plan_markdown" plan.(pl_common).(Contracts.evidence) ≫= as_str with
  | Some text => newline +:+ newline +:+ "### Implementation plan" +:+ newline +:+ newline +:+ text
  | None => ""
  end.

Definition heading (title : string) : string := newline +:+ newline +:+ "### " +:+ title +:+ newline +:+ newline.
Definition render_plan (plan : PlannerResult) : string :=
  let dependencies := bullets (dependency_text <$> plan.(pl_dependencies)) "None reported." in
  let decisions := bullets plan.(pl_open_decisions) "None reported." in
  let sensitive := bullets (scope_title <$> plan.(pl_sensitive_scope)) "None reported." in
  "## Pip plan v" +:+ show plan.(pl_plan_version) +:+ ": " +:+ outcome_name plan.(pl_outcome) +:+ newline +:+ newline
  +:+ "Planned base: `" +:+ plan.(pl_planned_base_sha) +:+ "`" +:+ heading "Root cause" +:+ prose plan.(pl_root_cause)
  +:+ heading "Authorized scope" +:+ prose plan.(pl_authorized_scope) +:+ heading "Sensitive scope" +:+ sensitive
  +:+ heading "Dependencies" +:+ dependencies +:+ heading "Open decisions" +:+ decisions +:+ inline_plan plan
  +:+ newline +:+ newline +:+ "Full structured plan evidence is retained by Pip.".

(** ** The command *)

(** The caller has checked that the case is planning, the state [case_command] reads. *)
Definition published_command (c : StoredCase) (plan : PlannerResult) (now : Z) (evidence : EvidenceInput)
  : result PlanPublicationError WorkflowCommand :=
  event_id ← map_err (fun _ => PlanInvalidCase) (EventId_from_str ("event-plan-published-" +:+ case_suffix c));
  command ← ok_or (case_command c c.(sc_state_revision) event_id (planner_event plan.(pl_outcome))
                     (json_object [("planner_result", encode_result (PlannerR plan)); ("publication", evidence.(vi_payload))])
                     now [evidence]) PlanInvalidCase;
  Ok (with_plan (if bool_decide (plan.(pl_outcome) = PlannerOutcome.Proceed) then nonzero plan.(pl_plan_version) else None)
        command).

Definition plan_spec (policy : RepositoryPolicy) (c : StoredCase) (effect_id : string) (actor : Z) (body : string)
  : CommentSpec := {|
  cs_owner := rid_owner (po_repository policy); cs_repository := rid_name (po_repository policy);
  cs_issue_number := c.(sc_issue_number); cs_effect_id := effect_id; cs_expected_actor_id := actor; cs_body := body |}.

(** Only a comment that is there answers. *)
Definition comment_id (m : result GitHubError Mutation.t) : result PlanPublicationError Z :=
  match m with
  | Ok (Mutation.Created id) | Ok (Mutation.Existing id) => Ok id
  | Ok (Mutation.Updated _) | Ok (Mutation.Merged _) => Err PlanUnexpectedMutation
  | Err e => Err (PlanGitHub e)
  end.

Section plans.
Context `{Codec} {writer : PlanWriter}.

Definition plan_evidence (c : StoredCase) (effect_id : string) (actor comment : Z) (body : string) (plan : PlannerResult)
  : EvidenceInput := {|
  vi_evidence_id := "evidence-plan-" +:+ effect_id; vi_kind := "GITHUB_PLAN_PUBLICATION";
  vi_source := "github-issue-" +:+ show c.(sc_issue_number);
  vi_payload := json_object [("actor_id", Number actor); ("comment_id", Number comment);
                             ("comment_body_sha256", Str (hash_bytes body)); ("plan_version", Number plan.(pl_plan_version));
                             ("task_id", Str plan.(pl_common).(Contracts.task_id))] |}.

Definition invalid_planning (policy : RepositoryPolicy) (e : ClaimedEffect) (c : StoredCase) : bool :=
  negb (String.eqb c.(sc_state) "PLANNING") || negb (c.(sc_repository_id) =? rid_id (po_repository policy))
  || negb (c.(sc_policy_revision) =? po_revision policy) || negb (c.(sc_state_revision) =? e.(ce_state_revision)).

(** From the plan to the moved case. *)
Definition publish_next (policy : RepositoryPolicy) (now : Z) (owner id : string) (actor : Z) (c : StoredCase)
  (plan : PlannerResult) : Cycle PlanPublicationError PlanPublicationCycle :=
  let body := render_plan plan in
  let spec := plan_spec policy c id actor body in
  mutation ← send (EnsureComment spec) (ensure_plan_comment spec);
  comment ← or_release PlanStore id owner (lift (comment_id mutation));
  command ← or_release PlanStore id owner (lift (published_command c plan now (plan_evidence c id actor comment body plan)));
  budget ← lift (ok_or (case_policy policy) PlanPanic);
  or_release PlanStore id owner (transact (fun s => map_err PlanController (LedgerController.apply budget command s)));;
  mret (PlanPublished c.(sc_case_key) plan.(pl_plan_version) comment).

Definition publish_plan_once (scope : RepositoryScope) (now : Z) (owner : string) (lease_seconds : Z)
  (authorization_valid : bool) : Cycle PlanPublicationError PlanPublicationCycle :=
  let policy := rs_policy scope in
  if negb authorization_valid then mret PlanAuthorizationBlocked else
  actor ← lift (ok_or (gc_automation_actor_id (po_github policy)) PlanMissingActor);
  claimed ← claim PlanStore scope owner now lease_seconds ["PUBLISH_PLAN"%string];
  match claimed with
  | None => mret PlanIdle
  | Some effect =>
      let id := effect.(ce_effect_id) in
      c ← claimed_case PlanInvalidCase effect.(ce_case_key);
      or_release PlanStore id owner (lift (err_if (invalid_planning policy effect c) PlanInvalidCase));;
      plan ← or_release PlanStore id owner (query (fun s => next_plan s c));
      publish_next policy now owner id actor c plan
  end.
End plans.

(** ** What the cycle may do *)

Section laws.
Context `{Codec} {writer : PlanWriter}.

(** [plan] is the one planner result of the next version in the ledger. *)
Definition only_next_plan (s : Store) (c : StoredCase) (plan : PlannerResult) : Prop :=
  let next := saturating_add u32_max c.(sc_plan_version) 1 in
  exists before run after, runs_for_case c.(sc_case_key) s = Ok (before ++ run :: after)
    /\ Contracts.decode run.(sr_payload) = Some (PlannerR plan) /\ plan.(pl_plan_version) = next
    /\ forall other p, other ∈ before ++ after -> Contracts.decode other.(sr_payload) = Some (PlannerR p) ->
         p.(pl_plan_version) <> next.

Lemma matching_one next l out plan :
  try_map (matching_plan next) l = Ok out -> mjoin out = [plan] ->
  exists before run after, l = before ++ run :: after
    /\ Contracts.decode run.(sr_payload) = Some (PlannerR plan) /\ plan.(pl_plan_version) = next
    /\ forall other p, other ∈ before ++ after -> Contracts.decode other.(sr_payload) = Some (PlannerR p) ->
         p.(pl_plan_version) <> next.
Proof.
  intros Ht%try_map_Forall2. assert (forall l out, Forall2 (fun r x => matching_plan next r = Ok x) l out -> mjoin out = [] ->
    forall other p, other ∈ l -> Contracts.decode other.(sr_payload) = Some (PlannerR p) -> p.(pl_plan_version) <> next) as Hnone.
  { induction 1 as [|r x l0 out0 Hx _ IH]; [set_solver|]. intros [-> Hn]%app_nil other p [->|Hin]%elem_of_cons Hp; [|by eapply IH].
    unfold matching_plan in Hx. rewrite Hp in Hx. cbn in Hx. destruct (Z.eqb_spec (pl_plan_version p) next); [discriminate Hx|done]. }
  induction Ht as [|r x l out Hx Ht IH]; [done|]. simpl. intros Hj. destruct x as [|p x].
  - destruct (IH Hj) as (b & run & a & -> & Hd & Hv & Ho). exists (r :: b), run, a. split_and!; [done..|].
    intros other p [->|Hin]%elem_of_cons Hp; [|by eapply Ho]. unfold matching_plan in Hx. rewrite Hp in Hx. cbn in Hx.
    by destruct (Z.eqb_spec (pl_plan_version p) next).
  - injection Hj as -> Hj. apply app_nil in Hj as [-> Hj]. exists [], r, l. unfold matching_plan in Hx. open_ok.
    rename select (Contracts.decode _ = _) into Hd. rewrite Hd. destruct x; try discriminate.
    destruct (Z.eqb_spec (pl_plan_version r0) next); [|done]. simplify_eq. split_and!; [done..|]. by apply Hnone with (out := out).
Qed.

Lemma next_plan_only s c plan : next_plan s c = Ok plan -> only_next_plan s c plan.
Proof.
  unfold next_plan. intros Hn. open_ok. rename select (runs_for_case _ _ = _) into Hr. rename select (try_map _ _ = _) into Ht.
  destruct (mjoin _) as [|p [|]] eqn:Hj; simplify_eq. destruct (matching_one _ _ _ _ Ht Hj) as (b & run & a & -> & ?).
  by exists b, run, a.
Qed.

Lemma plan_floor c plan now evd w :
  case_ranges c -> 0 <= now -> plan.(pl_plan_version) = saturating_add u32_max c.(sc_plan_version) 1 ->
  published_command c plan now evd = Ok w -> command_floor w.
Proof.
  intros Hc Hnow Hv Hp. unfold published_command in Hp. open_ok. subst. rename select (case_command _ _ _ _ _ _ _ = _) into Hcc.
  apply case_command_floor in Hcc as []; [|done|apply Hc|done|by destruct (pl_outcome plan)].
  split; try assumption. simpl. case_bool_decide; [|done]. rewrite Hv. pose proof (cr_plan _ Hc) as Hr.
  unfold is_u32, saturating_add, nonzero, u32_max, in_opt in *. destruct (_ =? 0); [done|lia].
Qed.

(** The plan version a published plan leaves. *)
Definition plan_after (c : StoredCase) (plan : PlannerResult) : Z :=
  if bool_decide (plan.(pl_outcome) = PlannerOutcome.Proceed) then plan.(pl_plan_version) else c.(sc_plan_version).
Definition plan_landed (c : StoredCase) (plan : PlannerResult) : Store -> Store -> Prop :=
  landed c State.Planning (planner_event plan.(pl_outcome)) (plan_after c plan) c.(sc_pr_number) c.(sc_head_sha).

Lemma plan_command_landed policy c plan now evd w s s' :
  query_case s c.(sc_case_key) = Some c -> c.(sc_state) = "PLANNING"%string -> 0 <= now ->
  plan.(pl_plan_version) = saturating_add u32_max c.(sc_plan_version) 1 ->
  case_key w.(wc_case_id) = c.(sc_case_key) ->
  published_command c plan now evd = Ok w -> LedgerController.apply policy w s = Ok (Applied, s') -> plan_landed c plan s s'.
Proof.
  intros Hq Hst Hnow Hv Hkey Hp Ha. pose proof (query_case_ranges _ _ _ Hq) as Hc.
  pose proof (plan_floor _ _ _ _ _ Hc Hnow Hv Hp) as Hf. unfold published_command in Hp. open_ok. subst.
  rename select WorkflowCommand into w0.
  rename select (case_command _ _ _ _ _ _ _ = _) into Hcc. destruct (case_command_inv _ _ _ _ _ _ _ _ Hcc)
    as (_ & _ & _ & Hst' & Hrev & _ & _ & _ & Hpl & Hpr & Hev & _).
  assert (wc_next_pr_number w0 = None /\ wc_next_head_sha w0 = None) as [Hn Hnh].
  { clear -Hcc. unfold case_command in Hcc. repeat (apply bind_Some in Hcc as (? & _ & Hcc)). by simplify_eq. }
  apply command_landed with (c := c) in Ha as (v & pr & head & Hnp & Hnb & (Hs & Hcp & Hcr & Hch) & Hl); [|done..].
  simpl in *. unfold plan_landed, plan_after. rewrite Hst in Hs. assert (wc_expected_state w0 = State.Planning) as Hpe.
  { destruct (wc_expected_state w0); by try discriminate Hs. }
  rewrite Hpe, Hev in Hl. unfold next_plan_version, next_head_binding in Hnp, Hnb. simpl in *.
  assert (planner_event (pl_outcome plan) <> Ev.ReviewReady) as Hne by (by destruct (pl_outcome plan)).
  rewrite Hev, bool_decide_eq_false_2, Hn, Hnh in Hnb by done. injection Hnb as <- <-. rewrite Hcr, Hch.
  enough (v = if bool_decide (pl_outcome plan = PlannerOutcome.Proceed) then pl_plan_version plan else sc_plan_version c) as <-; [done|].
  rewrite Hev in Hnp. clear -Hnp Hcp. case_bool_decide as Ho.
  - rewrite Ho in Hnp. destruct (nonzero _) as [n|] eqn:Hnz; [|done]. apply nonzero_some in Hnz as [-> _]. by case_match; simplify_eq.
  - case_match; simplify_eq. congruence.
Qed.

Definition plan_request (policy : RepositoryPolicy) (c : StoredCase) (id : string) (actor : Z) (plan : PlannerResult) : CommentSpec :=
  plan_spec policy c id actor (render_plan plan).

Lemma next_moves policy now owner id actor c plan w r w' :
  0 <= now -> query_case (w_store w) c.(sc_case_key) = Some c -> well_keyed c -> c.(sc_state) = "PLANNING"%string ->
  only_next_plan (w_store w) c plan -> publish_next policy now owner id actor c plan w = (r, w') ->
  let spec := plan_request policy c id actor plan in
  w'.(w_log) = w.(w_log) ++ [EnsureComment spec]
  /\ (quiet (w_store w) (w_store w')
      \/ ((exists comment, comment_id (ensure_plan_comment spec) = Ok comment) /\ plan_landed c plan (w_store w) (w_store w'))).
Proof.
  intros Hnow Hq Hkey Hst Hnp Hr spec. unfold publish_next in Hr. rewrite send_run in Hr.
  change (plan_spec policy c id actor (render_plan plan)) with spec in Hr. set (w2 := {| w_db := _; w_log := _ |}) in Hr.
  assert (forall w3, still w2 w3 -> w_log w3 = w_log w ++ [EnsureComment spec] /\ quiet (w_store w) (w_store w3)) as Hend.
  { by intros w3 (Hqu & Hlog & _). }
  apply or_release_inv in Hr as [(comment & ? & [= Hcm <-] & Hr)|(? & ? & ? & [= _ <-] & _ & Hs)]; [|by apply Hend in Hs; naive_solver].
  apply or_release_inv in Hr as [(command & ? & [= Hcd <-] & Hr)|(? & ? & ? & [= _ <-] & _ & Hs)]; [|by apply Hend in Hs; naive_solver].
  rewrite lift_run in Hr. destruct (case_policy _) as [budget|]; simpl in Hr; [|injection Hr as <- <-; by split; [|left]].
  apply or_release_inv in Hr as [(a & w3 & Ha & Hr)|(? & ? & ? & Ha & _ & Hs)]; unfold transact in Ha;
    destruct (map_err _ _) as [[a' s']|] eqn:He; simplify_eq; [|by apply Hend in Hs; naive_solver].
  injection Hr as <- <-. apply map_err_ok in He. destruct a; [|apply replay_keeps in He as ->; by split; [|left]].
  split; [done|]. right. split; [by exists comment|]. destruct Hnp as (? & ? & ? & _ & _ & Hv & _).
  eapply plan_command_landed; try eassumption. apply Hkey. unfold published_command in Hcd. open_ok. subst.
  by rename select (case_command _ _ _ _ _ _ _ = _) into Hcc; apply case_command_inv in Hcc as (? & _).
Qed.

(** A run that sent nothing changed no case; any other sent one comment: the next plan of
    the case it claimed. *)
Lemma plan_moves scope now owner lease valid w r w' :
  0 <= now -> (forall k c, query_case (w_store w) k = Some c -> well_keyed c) ->
  publish_plan_once scope now owner lease valid w = (r, w') ->
  still w w' \/ exists c plan actor id w1,
    let policy := rs_policy scope in
    let spec := plan_request policy c id actor plan in
    still w w1 /\ query_case (w_store w) c.(sc_case_key) = Some c /\ c.(sc_state) = "PLANNING"%string
    /\ c.(sc_repository_id) = rid_id (po_repository policy) /\ c.(sc_policy_revision) = po_revision policy
    /\ gc_automation_actor_id (po_github policy) = Some actor /\ only_next_plan (w_store w1) c plan
    /\ w'.(w_log) = w.(w_log) ++ [EnsureComment spec]
    /\ (quiet (w_store w) (w_store w')
        \/ ((exists comment, comment_id (ensure_plan_comment spec) = Ok comment) /\ plan_landed c plan (w_store w) (w_store w'))).
Proof.
  intros Hnow Hkeys Hr. unfold publish_plan_once in Hr. destruct valid; [|by injection Hr as <- <-; left]. simpl in Hr.
  rewrite lift_run in Hr. destruct (gc_automation_actor_id _) as [actor|] eqn:Hact; simpl in Hr; [|by injection Hr as <- <-; left].
  apply claimed_inv in Hr as [Hs|(effect & c & w1 & _ & Hcl & Hq & Hq0 & Hr)]; [by left|].
  assert (forall w2, still w1 w2 -> still w w2) as Htr by (intros; by etrans).
  apply or_release_inv in Hr as [(? & ? & [= Hg <-] & Hr)|(? & ? & ? & [= _ <-] & _ & Hs)]; [|by left; apply Htr].
  apply or_release_inv in Hr as [(plan & ? & [= Hp <-] & Hr)|(? & ? & ? & [= _ <-] & _ & Hs)]; [|by left; apply Htr].
  right. pose proof (next_plan_only _ _ _ Hp) as Hnp. unfold invalid_planning in Hg. open_ok. texts.
  apply next_moves in Hr as [Hlog Hm]; [|done|done|by eapply Hkeys|done|done].
  exists c, plan, actor, (ce_effect_id effect), w1. cbv zeta. do 7 (split; [done|]).
  split; [by rewrite Hlog; destruct Hcl as (_ & -> & _)|]. destruct Hm as [Hqu|[Hc Hl]]; [left|right].
  - destruct Hcl as (Hq1 & _). by etrans.
  - split; [done|]. by eapply still_landed.
Qed.

(** C17: A case leaves planning only behind a published plan.  Whatever the cycle answers, a
    case that it changed was planning under the scope's policy, and one planner result of the next
    version was in its ledger; the only request sent is the rendered plan, as a comment on the
    case's issue that GitHub confirmed; and the case moved by that plan's outcome, with the plan's
    version accepted exactly when it proceeds.  No other case changed. *)
Theorem plan_moves_case_when_published (scope : RepositoryScope) (now lease : Z) (owner : string) (valid : bool) (w w' : World)
  (r : result PlanPublicationError PlanPublicationCycle) (key : string) (c c' : StoredCase)
  (Hkeys : forall k c, query_case (w_store w) k = Some c -> well_keyed c) (Hnow : 0 <= now)
  (Hrun : publish_plan_once scope now owner lease valid w = (r, w'))
  (Hc : query_case (w_store w) key = Some c) (Hc' : query_case (w_store w') key = Some c') (Hne : c' <> c) :
  c.(sc_state) = "PLANNING"%string /\ c.(sc_policy_revision) = po_revision (rs_policy scope)
  /\ exists plan actor id comment s1,
    gc_automation_actor_id (po_github (rs_policy scope)) = Some actor
    /\ quiet (w_store w) s1 /\ only_next_plan s1 c plan
    /\ w'.(w_log) = w.(w_log) ++ [EnsureComment (plan_request (rs_policy scope) c id actor plan)]
    /\ comment_id (ensure_plan_comment (plan_request (rs_policy scope) c id actor plan)) = Ok comment
    /\ plan_landed c plan (w_store w) (w_store w').
Proof.
  apply plan_moves in Hrun as [Hs|(c0 & plan & actor & id & w1 & Hs & Hq & Hst & _ & Hrev & Hact & Hnp & Hlog & Hm)]; [|..|done|done].
  { by rewrite (still_query _ _ _ Hs) in Hc'; simplify_eq. }
  destruct Hm as [Hqu|[[comment Hcm] Hl]]; [rewrite (quiet_query _ _ _ Hqu) in Hc'; congruence|].
  pose proof (landed_same _ _ _ _ _ _ _ _ _ _ _ Hl Hq Hc Hc' Hne) as ->.
  split; [done|]. split; [done|]. exists plan, actor, id, comment, (w_store w1). destruct Hs as (? & _). done.
Qed.

Lemma plan_sound scope now owner lease valid : 0 <= now -> Sound (publish_plan_once scope now owner lease valid).
Proof.
  intros Hnow. unfold publish_plan_once, publish_next. sound_claimed. apply sound_command.
  rename select (next_plan _ _ = _) into Hp. apply next_plan_only in Hp as (? & ? & ? & _ & _ & Hv & _).
  by eapply plan_floor.
Qed.
End laws.

(** ** A plan that proceeds *)

Definition demo_planned : Store := default empty_store (demo_worked (take 1 demo_work) demo_opened).
Definition demo_plan_writer : PlanWriter := fun _ => Ok (Mutation.Created 99).
Definition demo_published : World :=
  (publish_plan_once (H := demo_codec) (writer := demo_plan_writer) demo_scope 200 "w" 60 true (demo_world demo_planned)).2.
Definition plan_in (w : World) : option (string * Z) :=
  (fun c => (c.(sc_state), c.(sc_plan_version))) <$> query_case (w_store w) demo_case_key.

Lemma plan_moves_case_when_published_witness :
  exists c plan s1, query_case demo_planned demo_case_key = Some c
    /\ only_next_plan (H := demo_codec) s1 c plan /\ plan_landed c plan demo_planned (w_store demo_published).
Proof.
  assert (plan_in (demo_world demo_planned) = Some ("PLANNING"%string, 0)) as Hs by (vm_compute; reflexivity).
  assert (plan_in demo_published = Some ("READY_TO_BUILD"%string, 1)) as Hs' by (vm_compute; reflexivity).
  apply fmap_Some in Hs as (c & Hc & Hin), Hs' as (c' & Hc' & Hin').
  assert (c' <> c) as Hne by (intros ->; rewrite <-Hin in Hin'; discriminate Hin').
  assert (keys_match (w_store (demo_world demo_planned)) = true) as Hk by (vm_compute; reflexivity).
  destruct (publish_plan_once (H := demo_codec) (writer := demo_plan_writer) demo_scope 200 "w" 60 true
              (demo_world demo_planned)) as [r w'] eqn:Hrun.
  assert (w' = demo_published) as -> by (unfold demo_published; by rewrite Hrun).
  destruct (plan_moves_case_when_published (H := demo_codec) (writer := demo_plan_writer) demo_scope 200 60 "w" true
              (demo_world demo_planned) demo_published r demo_case_key c c'
              (fun k c => keys_match_keyed _ k c Hk) ltac:(lia) Hrun Hc Hc' Hne)
    as (_ & _ & plan & actor & id & comment & s1 & _ & _ & Hp & _ & _ & Hl).
  exists c, plan, s1. split; [exact Hc|]. split; [exact Hp|exact Hl].
Defined.
