(* ===== verification/DraftPr.v ===== *)
(** * DraftPr: publication of a build as a draft pull request

    crates/pip-control/src/draft_pr.rs: the build that the pending effect was committed
    with is pushed (and signed) by a [BranchPublisher], offered as a draft pull request, and
    its exact head is bound to the case.  The joins of accepted builds are in Recoveries.v
    and FinalGate.v. *)

From stdpp Require Import relations.
From S2P Require Import Prelude Text Parse Json Serde Domain StateMachine Revision Contracts Sql Tables Inputs Recovery StoreCore.
From S2P Require Import Outbox Control Records CaseHistory History Frames Steps Invariants Conversations.
From S2P Require Import Ledger System Ingest RolePolicy Policy PolicyLaws Commands Cycles Bounds GitHub World Claims Park Takeover Authorization.
From S2P Require Import Recoveries FinalGate.
From Stdlib Require Import Ascii.
Open Scope Z_scope.

(** ** The publisher's interface (pip-executor's publication.rs and signing.rs) *)

Inductive PublicationError :=
| InvalidConfiguration | InvalidSpec | DirtyWorktree | LocalHeadDrift | BranchDrift | RemoteRace | RemoteUrlDrift
| VerificationFailed | TimedOut | OutputTooLarge | CommandFailed (code : Z) | MalformedOutput (text : string)
| Filesystem (text : string) | Process (text : string).
Module PublicationResult.
Inductive t := Created | Updated | Existing.
End PublicationResult.
Record SignedCommit := {
  sg_source_head : string; sg_tree : string; sg_head : string; sg_parent : string; sg_integrated_base : option string;
  sg_signer_fingerprint : string;
}.
Record BranchPublication := { bp_result : PublicationResult.t; bp_signed : option SignedCommit }.

Class BranchPublisher := publish_branch (request : BranchPublicationRequest) : result PublicationError BranchPublication.
Class DraftPullRequestWriter := ensure_draft_pull_request (spec : PullRequestSpec) : result GitHubError Mutation.t.

Inductive DraftPullRequestCycle :=
| DraftIdle
| DraftAuthorizationBlocked
| DraftPublished (case_key : string) (pull_request_number : Z) (head_sha : string).

Inductive DraftPullRequestError :=
| DraftGitHub (e : GitHubError)
| DraftStore (e : StoreError)
| DraftController (e : ControllerError)
| DraftPublication (e : PublicationError)
| DraftMissingActor
| DraftInvalidCase
| InvalidBuildJoin
| PullRequestIdentityDrift
| DraftUnexpectedMutation
| DraftSerialization
| DraftPanic.

(** The joins of Recoveries.v report a run that does not decode as their own refusal. *)
Definition build_join (e : RecoveryError) : DraftPullRequestError :=
  match e with
  | Refused text => if String.eqb text "serialization" then DraftSerialization else InvalidBuildJoin
  | _ => InvalidBuildJoin
  end.

Section draft.
Context `{Codec}.

(** ** The build to publish *)

(** The build, the head it is based on, and whether it has to be signed. *)
Definition active_build (s : Store) (c : StoredCase) : result DraftPullRequestError (BuilderResult * string * bool) :=
  history ← map_err DraftStore (immutable_history_for_case c.(sc_case_key) s);
  let newest := last history.(ih_events) in
  if match newest with Some e => String.eqb e.(se_event_type) "PUBLICATION_RETRY_AUTHORIZED" | None => false end then
    '(build, parent) ← map_err (fun _ => InvalidBuildJoin) (authorized_build history c);
    Ok (build, parent, true)
  else
    event ← ok_or newest InvalidBuildJoin;
    err_if (negb ((event.(se_state_revision) =? c.(sc_state_revision)) && String.eqb event.(se_event_type) "BUILD_RECORDED"))
      InvalidBuildJoin;;
    run ← ok_or (List.find (fun r => String.eqb r.(sr_event_id) event.(se_event_id)) history.(ih_runs)) InvalidBuildJoin;
    err_if (negb (String.eqb run.(sr_role) "builder" && String.eqb run.(sr_payload_sha256) event.(se_payload_sha256)))
      InvalidBuildJoin;;
    found ← ok_or (Contracts.decode run.(sr_payload)) DraftSerialization;
    match found with
    | BuilderR build =>
        err_if (negb (bool_decide (build.(bu_outcome) = BuilderOutcome.ReviewReady)
                      && (build.(bu_plan_version) =? c.(sc_plan_version))
                      && String.eqb build.(bu_common).(Contracts.task_id) run.(sr_task_id))) InvalidBuildJoin;;
        parent ← match c.(sc_head_sha) with
                 | Some head => map_err (fun _ => InvalidBuildJoin) (GitSha_from_str head)
                 | None => map_err build_join (planned_base history c)
                 end;
        Ok (build, parent, false)
    | _ => Err InvalidBuildJoin
    end.

(** ** The text *)

Definition evidence_text (build : BuilderResult) (key : string) : option string :=
  text ← map_get key build.(bu_common).(Contracts.evidence) ≫= as_str;
  if is_empty (trim text) then None else Some text.

(** [title[..end]] for the first character boundary [end] beyond 200 bytes. *)
Fixpoint cut_title (offset : Z) (l : list (Z * string)) : string :=
  match l with
  | [] => ""
  | c :: l => if 200 <? offset then "" else c.2 +:+ cut_title (offset + len c.2) l
  end.
Definition title_of (build : BuilderResult) (plan : PlannerResult) : string :=
  cut_title 0 (chars (Parse.join " " (split_whitespace (default plan.(pl_authorized_scope) (evidence_text build "pr_title"))))).

Definition issue_url (policy : RepositoryPolicy) (c : StoredCase) : string :=
  "https://github.com/" +:+ rid_owner (po_repository policy) +:+ "/" +:+ rid_name (po_repository policy)
  +:+ "/issues/" +:+ show c.(sc_issue_number).

Definition plan_comment (policy : RepositoryPolicy) (c : StoredCase) (plan : PlannerResult) (record : StoredEvidence) : bool :=
  String.eqb record.(sv_kind) "GITHUB_PLAN_PUBLICATION" && payload_matches record.(sv_payload) record.(sv_payload_sha256)
  && bool_decide (as_u64 (index record.(sv_payload) "plan_version") = Some c.(sc_plan_version))
  && eq_str (index record.(sv_payload) "task_id") plan.(pl_common).(Contracts.task_id)
  && bool_decide (as_u64 (index record.(sv_payload) "actor_id") = gc_automation_actor_id (po_github policy)).
Definition plan_link (policy : RepositoryPolicy) (c : StoredCase) (plan : PlannerResult) (history : ImmutableCaseHistory) : string :=
  let ids := omap (fun record => as_u64 (index record.(sv_payload) "comment_id"))
               (List.filter (plan_comment policy c plan) history.(ih_evidence)) in
  match last (List.filter (fun id => 0 <? id) ids) with
  | Some id => "[Implementation plan](" +:+ issue_url policy c +:+ "#issuecomment-" +:+ show id +:+ ")"
  | None => "[Plan discussion](" +:+ issue_url policy c +:+ ")"
  end.

Definition blank_line : string := newline +:+ newline.
Definition resolution_text (r : FindingResolution) : string :=
  "- **" +:+ prose r.(fr_finding_id) +:+ ":** " +:+ prose r.(fr_resolution_summary) +:+ blank_line
  +:+ "  Checks: " +:+ prose (Parse.join "; " r.(fr_tests)).
Definition solution_text (build : BuilderResult) (plan : PlannerResult) : string :=
  match evidence_text build "solution_summary" with
  | Some summary => "### Solution" +:+ blank_line +:+ prose summary
  | None => "### Implemented scope" +:+ blank_line +:+ prose plan.(pl_authorized_scope)
  end.
Definition feedback_text (build : BuilderResult) : string :=
  match default [] (summaries <$> map_get "suggestion_dispositions" build.(bu_common).(Contracts.evidence)) with
  | [] => ""
  | feedback => blank_line +:+ "### Review suggestions" +:+ blank_line +:+ bullets feedback ""
  end.
Definition resolutions_text (build : BuilderResult) : string :=
  match build.(bu_finding_resolutions) with
  | [] => "No findings required remediation."
  | l => Parse.join blank_line (resolution_text <$> l)
  end.

Definition render_body (s : Store) (policy : RepositoryPolicy) (c : StoredCase) (build : BuilderResult) (head : string)
  : result DraftPullRequestError (string * string) :=
  history ← map_err DraftStore (immutable_history_for_case c.(sc_case_key) s);
  plan ← map_err build_join (accepted_plan history c);
  let problem := prose (default plan.(pl_root_cause) (evidence_text build "problem_summary")) in
  let checks := bullets build.(bu_local_checks) "No local checks reported." in
  Ok (title_of build plan,
      "### Problem" +:+ blank_line +:+ problem +:+ blank_line +:+ solution_text build plan +:+ blank_line
      +:+ plan_link policy c plan history +:+ blank_line +:+ "Fixes #" +:+ show c.(sc_issue_number) +:+ blank_line
      +:+ "<details>" +:+ newline +:+ "<summary>Local checks and remediation details</summary>" +:+ blank_line
      +:+ "Commit: `" +:+ head +:+ "`" +:+ blank_line +:+ "### Local checks" +:+ blank_line +:+ checks +:+ blank_line
      +:+ "### Findings addressed" +:+ blank_line +:+ resolutions_text build +:+ feedback_text build +:+ blank_line
      +:+ "Checks are builder-reported; CI and reviews are evaluated separately." +:+ blank_line +:+ "</details>").

(** ** The requests *)

(** [PathBuf::join] of a relative component. *)
Definition path_join (root name : string) : string :=
  if is_empty root || ends_with_char "/" root then root +:+ name else root +:+ "/" +:+ name.

Definition branch_request (policy : RepositoryPolicy) (c : StoredCase) (head parent : string) : BranchPublicationRequest := {|
  bp_worktree_root := po_workspace policy;
  bp_worktree := path_join (po_workspace policy)
    ("repo-" +:+ show c.(sc_repository_id) +:+ "-issue-" +:+ show c.(sc_issue_number)
     +:+ "-workflow-" +:+ show c.(sc_workflow_version));
  bp_remote := "origin";
  bp_expected_remote_url := "https://github.com/" +:+ rid_owner (po_repository policy) +:+ "/"
    +:+ rid_name (po_repository policy) +:+ ".git";
  bp_branch := expected_branch policy c; bp_local_head := head; bp_parent_head := parent;
  bp_target_branch := rid_default_branch (po_repository policy); bp_expected_remote_head := c.(sc_head_sha) |}.

(** A signed commit replaces exactly the build's head on its parent. *)
Definition signs (head parent : string) (signed : SignedCommit) : bool :=
  String.eqb signed.(sg_source_head) head && String.eqb signed.(sg_parent) parent
  && negb (String.eqb signed.(sg_head) signed.(sg_source_head))
  && starts_with "SHA256:" signed.(sg_signer_fingerprint) && (7 <? len signed.(sg_signer_fingerprint)).
Definition accepted_publication (requires_signing : bool) (head parent : string) (p : BranchPublication) : bool :=
  negb (requires_signing && is_none p.(bp_signed)) && none_or p.(bp_signed) (signs head parent).
Definition published_head (head : string) (p : BranchPublication) : string :=
  match p.(bp_signed) with Some signed => signed.(sg_head) | None => head end.

Definition draft_spec (policy : RepositoryPolicy) (c : StoredCase) (actor : Z) (title body head : string) : PullRequestSpec := {|
  ps_owner := rid_owner (po_repository policy); ps_repository := rid_name (po_repository policy);
  ps_repository_id := rid_id (po_repository policy); ps_effect_id := c.(sc_case_key) +:+ ":draft-pr";
  ps_expected_actor_id := actor; ps_title := title; ps_body := body; ps_head_branch := expected_branch policy c;
  ps_head_sha := head; ps_base_branch := rid_default_branch (po_repository policy) |}.

Definition draft_mutation (m : result GitHubError Mutation.t) : result DraftPullRequestError (string * Z) :=
  match m with
  | Ok (Mutation.Created n) => Ok ("created"%string, n)
  | Ok (Mutation.Existing n) => Ok ("existing"%string, n)
  | Ok (Mutation.Updated n) => Ok ("updated"%string, n)
  | Ok (Mutation.Merged _) => Err DraftUnexpectedMutation
  | Err e => Err (DraftGitHub e)
  end.

(** ** The command *)

Definition publication_name (r : PublicationResult.t) : string :=
  match r with PublicationResult.Created => "created" | PublicationResult.Updated => "updated" | PublicationResult.Existing => "existing" end.
Definition ser_signed (s : SignedCommit) : Value :=
  json_object [("source_head", Str s.(sg_source_head)); ("head", Str s.(sg_head)); ("tree", Str s.(sg_tree));
               ("parent", Str s.(sg_parent)); ("integrated_base", opt_str s.(sg_integrated_base));
               ("signer_fingerprint", Str s.(sg_signer_fingerprint))].
Definition draft_evidence (policy : RepositoryPolicy) (c : StoredCase) (effect_id : string) (actor : Z) (build : BuilderResult)
  (p : BranchPublication) (head mutation : string) (number : Z) : EvidenceInput := {|
  vi_evidence_id := "evidence-draft-pr-" +:+ effect_id; vi_kind := "GITHUB_DRAFT_PULL_REQUEST_PUBLICATION";
  vi_source := "github-pr-" +:+ show number;
  vi_payload := json_object [("actor_id", Number actor); ("branch", Str (expected_branch policy c));
                             ("branch_publication", Str (publication_name p.(bp_result))); ("head_sha", Str head);
                             ("mutation", Str mutation); ("pull_request_number", Number number);
                             ("task_id", Str build.(bu_common).(Contracts.task_id));
                             ("signing", default Null (ser_signed <$> p.(bp_signed)))] |}.

Definition published_command (c : StoredCase) (build : BuilderResult) (head : string) (number now : Z)
  (evidence : EvidenceInput) : result DraftPullRequestError WorkflowCommand :=
  event_id ← map_err (fun _ => DraftInvalidCase) (EventId_from_str ("event-draft-pr-published-" +:+ case_suffix c));
  command ← ok_or (case_command c c.(sc_state_revision) event_id Ev.ReviewReady
                     (json_object [("builder_result", encode_result (BuilderR build)); ("publication", evidence.(vi_payload))])
                     now [evidence]) DraftInvalidCase;
  sha ← map_err (fun _ => InvalidBuildJoin) (GitSha_from_str head);
  Ok (with_head (nonzero number) (Some sha) command).

(** ** The cycle *)

Context {writer : DraftPullRequestWriter} {publisher : BranchPublisher}.

Definition invalid_building (policy : RepositoryPolicy) (e : ClaimedEffect) (c : StoredCase) : bool :=
  negb (one_of ["BUILDING"; "REMEDIATING"]%string c.(sc_state)) || negb (c.(sc_repository_id) =? rid_id (po_repository policy))
  || negb (c.(sc_policy_revision) =? po_revision policy) || negb (c.(sc_state_revision) =? e.(ce_state_revision))
  || (c.(sc_plan_version) =? 0).

(** The pull request, from the branch that was pushed. *)
Definition offer_draft (policy : RepositoryPolicy) (now : Z) (owner id : string) (actor : Z) (c : StoredCase)
  (build : BuilderResult) (p : BranchPublication) (head : string) : Cycle DraftPullRequestError DraftPullRequestCycle :=
  '(title, body) ← or_release DraftStore id owner (query (fun s => render_body s policy c build head));
  let spec := draft_spec policy c actor title body head in
  answer ← send (EnsurePullRequest spec) (ensure_draft_pull_request spec);
  '(mutation, number) ← or_release DraftStore id owner (lift (draft_mutation answer));
  or_release DraftStore id owner
    (lift (err_if (match c.(sc_pr_number) with Some current => negb (current =? number) | None => false end) PullRequestIdentityDrift));;
  command ← or_release DraftStore id owner
    (lift (published_command c build head number now (draft_evidence policy c id actor build p head mutation number)));
  budget ← lift (ok_or (case_policy policy) DraftPanic);
  or_release DraftStore id owner (transact (fun s => map_err DraftController (LedgerController.apply budget command s)));;
  mret (DraftPublished c.(sc_case_key) number head).

(** The branch. *)
Definition publish_build (policy : RepositoryPolicy) (now : Z) (owner id : string) (actor : Z) (c : StoredCase)
  (build : BuilderResult) (parent : string) (requires_signing : bool) : Cycle DraftPullRequestError DraftPullRequestCycle :=
  source ← lift (ok_or build.(bu_head_sha) InvalidBuildJoin);
  let request := branch_request policy c source parent in
  pushed ← send (PublishBranch request) (publish_branch request);
  p ← or_release DraftStore id owner (lift (map_err DraftPublication pushed));
  or_release DraftStore id owner (lift (err_if (negb (accepted_publication requires_signing source parent p)) InvalidBuildJoin));;
  offer_draft policy now owner id actor c build p (published_head source p).

Definition publish_draft_pull_request_once_with (scope : RepositoryScope) (now : Z) (owner : string) (lease_seconds : Z)
  (authorization_valid : bool) : Cycle DraftPullRequestError DraftPullRequestCycle :=
  let policy := rs_policy scope in
  if negb authorization_valid then mret DraftAuthorizationBlocked else
  actor ← lift (ok_or (gc_automation_actor_id (po_github policy)) DraftMissingActor);
  claimed ← claim DraftStore scope owner now lease_seconds ["PUBLISH_DRAFT_PULL_REQUEST"%string];
  match claimed with
  | None => mret DraftIdle
  | Some effect =>
      let id := effect.(ce_effect_id) in
      c ← claimed_case DraftInvalidCase effect.(ce_case_key);
      or_release DraftStore id owner (lift (err_if (invalid_building policy effect c) DraftInvalidCase));;
      '(build, parent, requires_signing) ← or_release DraftStore id owner (query (fun s => active_build s c));
      publish_build policy now owner id actor c build parent requires_signing
  end.
End draft.

(** ** What the cycle may do *)

Section laws.
Context `{Codec} {writer : DraftPullRequestWriter} {publisher : BranchPublisher}.

(** The build is a builder's accepted result for the case's plan. *)
Record ledger_build (s : Store) (c : StoredCase) (build : BuilderResult) : Prop := {
  lb_run : exists h run, immutable_history_for_case c.(sc_case_key) s = Ok h /\ run ∈ h.(ih_runs)
    /\ run.(sr_role) = "builder"%string /\ Contracts.decode run.(sr_payload) = Some (BuilderR build)
    /\ build.(bu_common).(Contracts.task_id) = run.(sr_task_id);
  lb_ready : build.(bu_outcome) = BuilderOutcome.ReviewReady;
  lb_plan : build.(bu_plan_version) = c.(sc_plan_version);
}.

Lemma publication_source_build s h c signed build id :
  immutable_history_for_case c.(sc_case_key) s = Ok h -> publication_source h c signed = Ok (build, id) -> ledger_build s c build.
Proof.
  intros Hh Hp. unfold publication_source in Hp. open_ok.
  match goal with Hx : match Contracts.decode (sr_payload ?run) with _ => _ end = Ok _ |- _ => rename run into r0, Hx into Hd end.
  destruct (Contracts.decode (sr_payload r0)) as [[| b | |]|] eqn:Hdec; try discriminate. open_ok. simplify_eq. texts.
  rename select (List.find _ (ih_runs h) = Some _) into Hf. apply find_some in Hf as [Hin%list_elem_of_In _].
  split; [|done|lia]. exists h, r0. split_and!; done.
Qed.

Lemma active_build_ledger s c build parent signing : active_build s c = Ok (build, parent, signing) -> ledger_build s c build.
Proof.
  unfold active_build. intros Ha. open_ok. rename select (immutable_history_for_case _ _ = _) into Hh.
  match goal with Hx : (if ?b then _ else _) = Ok _ |- _ => rename Hx into Hb; destruct b end; open_ok.
  - match goal with p : BuilderResult * string |- _ => destruct p as [b0 p0] end. open_ok. simplify_eq.
    rename select (authorized_build _ _ = _) into Hau. unfold authorized_build, recoverable_source in Hau. open_ok.
    match goal with p : BuilderResult * string |- _ => destruct p as [b1 p1] end. open_ok. simplify_eq.
    by eapply publication_source_build.
  - rename select WorkerResult into found. destruct found as [|b0| |]; try discriminate. open_ok. simplify_eq. texts.
    rename select (List.find _ _ = Some _) into Hf. apply find_some in Hf as [Hin%list_elem_of_In _].
    split; [|done|lia]. eexists _, _. split_and!; done.
Qed.

(** GitHub numbers pull requests with u64. *)
Definition draft_numbers : Prop := forall spec kind n,
  draft_mutation (ensure_draft_pull_request spec) = Ok (kind, n) -> 0 <= n.

Lemma draft_floor c build head number now evd w :
  case_ranges c -> 0 <= now -> 0 <= number -> published_command c build head number now evd = Ok w -> command_floor w.
Proof.
  intros Hc Hnow Hn Hp. unfold published_command in Hp. open_ok. subst. rename select (case_command _ _ _ _ _ _ _ = _) into Hcc.
  rename select WorkflowCommand into w0. pose proof (any_command_floor _ _ _ _ _ _ _ _ Hc (cr_revision _ Hc) Hnow Hcc) as [].
  split; try assumption. simpl. unfold nonzero. destruct (Z.eqb_spec number 0); [done|lia].
Qed.

Lemma draft_landed policy c build head number now evd w s s' :
  query_case s c.(sc_case_key) = Some c -> 0 <= now -> 0 <= number ->
  (forall n, c.(sc_pr_number) = Some n -> n = number) -> case_key w.(wc_case_id) = c.(sc_case_key) ->
  published_command c build head number now evd = Ok w -> LedgerController.apply policy w s = Ok (Applied, s') ->
  exists st, c.(sc_state) = CaseState_to_string st
    /\ landed c st Ev.ReviewReady c.(sc_plan_version) (Some number) (Some head) s s'.
Proof.
  intros Hq Hnow Hn Hsame Hkey Hp Ha. pose proof (query_case_ranges _ _ _ Hq) as Hc.
  pose proof (draft_floor _ _ _ _ _ _ _ Hc Hnow Hn Hp) as Hf. unfold published_command in Hp. open_ok. subst.
  rename select WorkflowCommand into w0. rename select (case_command _ _ _ _ _ _ _ = _) into Hcc.
  rename select (GitSha_from_str _ = _) into Hsha. unfold GitSha_from_str in Hsha. destruct (_ || _); [done|]. injection Hsha as <-.
  destruct (case_command_inv _ _ _ _ _ _ _ _ Hcc) as (_ & _ & _ & Hst & Hrev & _ & _ & _ & Hpl & Hpr & Hev & _ & _ & Hacc & _).
  apply command_landed with (c := c) in Ha as (v & pr & hd & Hnp & Hnb & (Hs & Hcp & Hcr & Hch) & Hl); [|done..].
  simpl in *. exists (wc_expected_state w0). split; [done|]. unfold next_plan_version, next_head_binding in Hnp, Hnb. simpl in *.
  rewrite Hacc, Hev in Hnp. simpl in Hnp. injection Hnp as <-. rewrite <-Hcp in Hl.
  rewrite Hev in Hnb, Hl. simpl in Hnb. rewrite <-Hcr in Hnb. unfold nonzero in Hnb.
  apply bind_ok in Hnb as (n & Hn1%ok_or_ok & Hnb). apply bind_ok in Hnb as (_ & _ & Hnb). injection Hnb as <- <-.
  enough (n = number) as -> by done. destruct (number =? 0); [by apply Hsame|congruence].
Qed.

(** The draft of [head] was confirmed under [number], and the case is bound to them. *)
Definition draft_bound (policy : RepositoryPolicy) (c : StoredCase) (actor number : Z) (head : string) (spec : PullRequestSpec)
  (s s' : Store) : Prop :=
  (exists kind, draft_mutation (ensure_draft_pull_request spec) = Ok (kind, number))
  /\ (forall n, c.(sc_pr_number) = Some n -> n = number)
  /\ exists st, c.(sc_state) = CaseState_to_string st
       /\ landed c st Ev.ReviewReady c.(sc_plan_version) (Some number) (Some head) s s'.

Lemma offer_moves policy now owner id actor c build p head w r w' :
  0 <= now -> draft_numbers -> query_case (w_store w) c.(sc_case_key) = Some c -> well_keyed c ->
  offer_draft policy now owner id actor c build p head w = (r, w') ->
  still w w' \/ exists title body,
    let spec := draft_spec policy c actor title body head in
    w'.(w_log) = w.(w_log) ++ [EnsurePullRequest spec]
    /\ (quiet (w_store w) (w_store w')
        \/ exists number, draft_bound policy c actor number head spec (w_store w) (w_store w')).
Proof.
  intros Hnow Hnum Hq Hkey Hr. unfold offer_draft in Hr.
  apply or_release_inv in Hr as [([title body] & ? & [= _ <-] & Hr)|(? & ? & ? & [= _ <-] & _ & Hs)]; [|by left].
  right. exists title, body. cbv zeta. rewrite send_run in Hr. set (spec := draft_spec _ _ _ _ _ _) in *.
  set (w2 := {| w_db := _; w_log := _ |}) in Hr. change (w_log w ++ [EnsurePullRequest spec]) with (w_log w2).
  change (w_store w) with (w_store w2) in *.
  assert (forall w3, still w2 w3 -> w_log w3 = w_log w2 /\ (quiet (w_store w2) (w_store w3)
    \/ exists number, draft_bound policy c actor number head spec (w_store w2) (w_store w3))) as Hend by (intros w3 (? & ? & _); auto).
  apply or_release_inv in Hr as [([kind number] & ? & [= Hmut <-] & Hr)|(? & ? & ? & [= _ <-] & _ & Hs)]; [|by apply Hend].
  apply or_release_inv in Hr as [(? & ? & [= Hdr <-] & Hr)|(? & ? & ? & [= _ <-] & _ & Hs)]; [|by apply Hend].
  apply or_release_inv in Hr as [(command & ? & [= Hcd <-] & Hr)|(? & ? & ? & [= _ <-] & _ & Hs)]; [|by apply Hend].
  rewrite lift_run in Hr. destruct (case_policy _) as [budget|]; simpl in Hr; [|injection Hr as <- <-; by apply Hend].
  apply or_release_inv in Hr as [(a & w3 & Ha & Hr)|(? & ? & ? & Ha & _ & Hs)]; unfold transact in Ha;
    destruct (map_err _ _) as [[a' s']|] eqn:He; simplify_eq; [|by apply Hend].
  injection Hr as <- <-. apply map_err_ok in He. destruct a; [|apply replay_keeps in He as ->; by split; [|left]].
  split; [done|]. right. exists number. split; [eauto|]. apply err_if_ok in Hdr.
  assert (forall n, sc_pr_number c = Some n -> n = number) as Hsame by (intros n Hn; rewrite Hn in Hdr; bools; lia).
  split; [done|]. eapply draft_landed; try eassumption; [by eapply Hnum|]. apply Hkey.
  unfold published_command in Hcd. open_ok. subst.
  by rename select (case_command _ _ _ _ _ _ _ = _) into Hcc; apply case_command_inv in Hcc as (? & _).
Qed.

(** What was pushed is the build's head, or a signed commit in its place. *)
Definition pushed (signing : bool) (source parent head : string) (p : BranchPublication) : Prop :=
  match p.(bp_signed) with
  | None => signing = false /\ head = source
  | Some signed => signed.(sg_source_head) = source /\ signed.(sg_parent) = parent /\ signed.(sg_head) = head /\ head <> source
  end.
Lemma accepted_pushed signing source parent p :
  accepted_publication signing source parent p = true -> pushed signing source parent (published_head source p) p.
Proof.
  unfold accepted_publication, pushed, published_head. intros Ha. bools. destruct (bp_signed p) as [signed|]; simpl in *.
  - unfold signs in *. texts. split_and!; congruence.
  - split; [|done]. by destruct signing.
Qed.

Lemma build_moves policy now owner id actor c build parent signing w r w' :
  0 <= now -> draft_numbers -> query_case (w_store w) c.(sc_case_key) = Some c -> well_keyed c ->
  publish_build policy now owner id actor c build parent signing w = (r, w') ->
  still w w' \/ exists source sent,
    build.(bu_head_sha) = Some source /\ w'.(w_log) = w.(w_log) ++ PublishBranch (branch_request policy c source parent) :: sent
    /\ ((sent = [] /\ quiet (w_store w) (w_store w'))
        \/ exists p title body head,
             let spec := draft_spec policy c actor title body head in
             publish_branch (branch_request policy c source parent) = Ok p /\ pushed signing source parent head p
             /\ sent = [EnsurePullRequest spec]
             /\ (quiet (w_store w) (w_store w')
                 \/ exists number, draft_bound policy c actor number head spec (w_store w) (w_store w'))).
Proof.
  intros Hnow Hnum Hq Hkey Hr. unfold publish_build in Hr. rewrite lift_run in Hr.
  destruct (bu_head_sha build) as [source|] eqn:Hsrc; simpl in Hr; [|by injection Hr as <- <-; left].
  right. rewrite send_run in Hr. set (w2 := {| w_db := _; w_log := _ |}) in Hr. change (w_store w) with (w_store w2) in *.
  assert (forall w3, still w2 w3 -> w_log w3 = w_log w ++ [PublishBranch (branch_request policy c source parent)]
            /\ quiet (w_store w2) (w_store w3)) as Hend by (by intros w3 (? & ? & _)).
  apply or_release_inv in Hr as [(p & ? & [= Hp <-] & Hr)|(? & ? & ? & [= _ <-] & _ & Hs)];
    [|apply Hend in Hs as [? ?]; exists source, []; auto].
  apply or_release_inv in Hr as [(? & ? & [= Hac <-] & Hr)|(? & ? & ? & [= _ <-] & _ & Hs)];
    [|apply Hend in Hs as [? ?]; exists source, []; auto].
  apply offer_moves in Hr as [Hs|(title & body & Hlog & Hm)]; [apply Hend in Hs as [? ?]; exists source, []; auto| |done..].
  apply map_err_ok in Hp. apply err_if_ok in Hac. bools. eexists source, [EnsurePullRequest _]. split; [done|].
  split; [rewrite Hlog; simpl; by rewrite <-app_assoc|]. right. exists p, title, body, (published_head source p).
  split_and!; [done|by apply accepted_pushed|done|done].
Qed.

(** C15: The case is bound to exactly the head that was published.  Whatever the cycle answers, a
    case that it changed was building or remediating an accepted plan, the build is a builder's
    ready result for that plan in its ledger, the requests were the push of the build's head onto its
    parent and then the draft of the pushed head, both confirmed; and the case moved by
    [REVIEW_READY], bound to that head and to the one pull request it ever has.  A signed commit
    replaces exactly the build's head on the same parent.  No other case changed. *)
Theorem draft_binds_published_head (scope : RepositoryScope) (now lease : Z) (owner : string) (valid : bool) (w w' : World)
  (r : result DraftPullRequestError DraftPullRequestCycle) (key : string) (c c' : StoredCase)
  (Hkeys : forall k c, query_case (w_store w) k = Some c -> well_keyed c) (Hnow : 0 <= now) (Hnum : draft_numbers)
  (Hrun : publish_draft_pull_request_once_with scope now owner lease valid w = (r, w'))
  (Hc : query_case (w_store w) key = Some c) (Hc' : query_case (w_store w') key = Some c') (Hne : c' <> c) :
  one_of ["BUILDING"; "REMEDIATING"]%string c.(sc_state) = true /\ c.(sc_plan_version) <> 0
  /\ exists build parent signing source p title body head number actor s1,
    quiet (w_store w) s1 /\ active_build s1 c = Ok (build, parent, signing) /\ ledger_build s1 c build
    /\ build.(bu_head_sha) = Some source
    /\ publish_branch (branch_request (rs_policy scope) c source parent) = Ok p /\ pushed signing source parent head p
    /\ w'.(w_log) = w.(w_log) ++ [PublishBranch (branch_request (rs_policy scope) c source parent);
                                  EnsurePullRequest (draft_spec (rs_policy scope) c actor title body head)]
    /\ draft_bound (rs_policy scope) c actor number head (draft_spec (rs_policy scope) c actor title body head)
         (w_store w) (w_store w').
Proof.
  assert (forall w2, quiet (w_store w) (w_store w2) -> query_case (w_store w2) key = Some c' -> False) as Hend.
  { intros w2 Hs Hq. rewrite (quiet_query _ _ _ Hs) in Hq. congruence. }
  unfold publish_draft_pull_request_once_with in Hrun. destruct valid; [|injection Hrun as <- <-; congruence]. simpl in Hrun.
  rewrite lift_run in Hrun. destruct (gc_automation_actor_id _) as [actor|]; simpl in Hrun; [|injection Hrun as <- <-; congruence].
  apply claimed_inv in Hrun as [(Hs & _)|(effect & c0 & w1 & _ & Hcl & Hq & Hq0 & Hr)]; [by destruct (Hend w')|].
  assert (forall w2, quiet (w_store w1) (w_store w2) -> quiet (w_store w) (w_store w2)) as Htr by (intros; etrans; [apply Hcl|done]).
  apply or_release_inv in Hr as [(? & ? & [= Hg <-] & Hr)|(? & ? & ? & [= _ <-] & _ & (Hs & _))]; [|by destruct (Hend w'); [apply Htr|]].
  apply or_release_inv in Hr as [([[build parent] signing] & ? & [= Hb <-] & Hr)|(? & ? & ? & [= _ <-] & _ & (Hs & _))];
    [|by destruct (Hend w'); [apply Htr|]].
  apply build_moves in Hr as [(Hs & _)|(source & sent & Hsrc & Hlog & Hm)]; [by destruct (Hend w'); [apply Htr|]| |done|done|done|by eapply Hkeys].
  destruct Hm as [[_ Hs]|(p & title & body & head & Hp & Hpush & -> & [Hs|[number Hbound]])]; [by destruct (Hend w'); [apply Htr|]..|].
  assert (draft_bound (rs_policy scope) c0 actor number head (draft_spec (rs_policy scope) c0 actor title body head)
            (w_store w) (w_store w')) as Hb0.
  { destruct Hbound as (? & ? & st & ? & ?). split_and!; [done..|]. exists st. split; [done|]. by eapply still_landed. }
  assert (c = c0) as -> by (destruct Hbound as (_ & _ & st & _ & Hl); destruct Hb0 as (_ & _ & st0 & _ & Hl0); by eapply landed_same).
  unfold invalid_building in Hg. open_ok. bools. split; [done|]. split; [lia|].
  exists build, parent, signing, source, p, title, body, head, number, actor, (w_store w1). destruct Hcl as (Hqu & Hlog1 & _).
  split; [done|]. split; [done|]. split; [by eapply active_build_ledger|]. do 3 (split; [done|]). split; [by rewrite Hlog, Hlog1|done].
Qed.

Lemma draft_sound scope now owner lease valid :
  0 <= now -> draft_numbers -> Sound (publish_draft_pull_request_once_with scope now owner lease valid).
Proof.
  intros Hnow Hnum. unfold publish_draft_pull_request_once_with, publish_build, offer_draft. sound_claimed.
  apply sound_command. rename select (published_command _ _ _ _ _ _ = _) into Hp.
  eapply draft_floor; [done|done| |exact Hp]. eapply Hnum. eassumption.
Qed.
End laws.

(** ** A build that is signed and published *)

Definition demo_built : Store := default empty_store (demo_worked (take 4 demo_work) demo_opened).
Definition signed_head : string := "cccccccccccccccccccccccccccccccccccccccc".
Definition demo_publisher : BranchPublisher := fun request => Ok {|
  bp_result := PublicationResult.Created;
  bp_signed := Some {| sg_source_head := request.(bp_local_head); sg_tree := demo_commit; sg_head := signed_head;
                       sg_parent := request.(bp_parent_head); sg_integrated_base := None;
                       sg_signer_fingerprint := "SHA256:abc" |} |}.
Definition demo_draft_writer : DraftPullRequestWriter := fun _ => Ok (Mutation.Created 7).
Definition demo_drafted : World :=
  (publish_draft_pull_request_once_with (H := demo_codec) (writer := demo_draft_writer) (publisher := demo_publisher)
     demo_scope 200 "w" 60 true (demo_world demo_built)).2.
Definition head_in (w : World) : option (string * option string) :=
  (fun c => (c.(sc_state), c.(sc_head_sha))) <$> query_case (w_store w) demo_case_key.

Lemma draft_binds_published_head_witness :
  exists c build s1 number head spec actor, query_case demo_built demo_case_key = Some c
    /\ ledger_build (H := demo_codec) s1 c build
    /\ draft_bound (writer := demo_draft_writer) (demo_policy 1 1000) c actor number head spec demo_built (w_store demo_drafted).
Proof.
  assert (head_in (demo_world demo_built) = Some ("BUILDING"%string, None)) as Hs by (vm_compute; reflexivity).
  assert (head_in demo_drafted = Some ("WAITING_CI"%string, Some signed_head)) as Hs' by (vm_compute; reflexivity).
  apply fmap_Some in Hs as (c & Hc & Hin), Hs' as (c' & Hc' & Hin').
  assert (c' <> c) as Hne by (intros ->; rewrite <-Hin in Hin'; discriminate Hin').
  assert (keys_match (w_store (demo_world demo_built)) = true) as Hk by (vm_compute; reflexivity).
  assert (draft_numbers (writer := demo_draft_writer)) as Hnum by (intros spec kind n [= _ <-]; lia).
  destruct (publish_draft_pull_request_once_with (H := demo_codec) (writer := demo_draft_writer) (publisher := demo_publisher)
              demo_scope 200 "w" 60 true (demo_world demo_built)) as [r w'] eqn:Hrun.
  assert (w' = demo_drafted) as -> by (unfold demo_drafted; by rewrite Hrun).
  destruct (draft_binds_published_head (H := demo_codec) (writer := demo_draft_writer) (publisher := demo_publisher)
              demo_scope 200 60 "w" true (demo_world demo_built) demo_drafted r demo_case_key c c'
              (fun k c => keys_match_keyed _ k c Hk) ltac:(lia) Hnum Hrun Hc Hc' Hne)
    as (_ & _ & build & parent & signing & source & p & title & body & head & number & actor & s1 & _ & _ & Hb & _ & _ & _ & _ & Hd).
  exists c, build, s1, number, head, (draft_spec (demo_policy 1 1000) c actor title body head), actor.
  split; [exact Hc|]. split; [exact Hb|exact Hd].
Defined.
