(* ===== verification/Reviews.v ===== *)
(** * Reviews: publication of the independent reviews

    crates/pip-control/src/reviews.rs.  When every required reviewer has reviewed
    the exact head, the reviews of the newest round are published, one GitHub review per lane
    and account, and the case goes on once both are confirmed.  An escalated case only
    records them. *)

From stdpp Require Import relations sorting.
From S2P Require Import Prelude Text Parse Json Serde Domain StateMachine Revision Contracts Sql Tables Inputs StoreCore.
From S2P Require Import Outbox Control Records History Frames Steps Invariants Conversations.
From S2P Require Import Ledger System Ingest RolePolicy Policy PolicyLaws Commands Cycles Bounds GitHub World Claims Park Takeover Authorization.
From S2P Require Import Recoveries FinalGate.
Open Scope Z_scope.

Class ReviewWriter := ensure_review (spec : ReviewMutationSpec) : result GitHubError Mutation.t.

Inductive ReviewPublicationCycle :=
| ReviewsIdle
| ReviewsAuthorizationBlocked
| ReviewsPublishedAs (case_key : string) (general_review_id secperf_review_id : Z).

Inductive ReviewPublicationError :=
| ReviewGitHub (e : GitHubError)
| ReviewStore (e : StoreError)
| ReviewController (e : ControllerError)
| ReviewMissingActor
| ReviewInvalidCase
| ReviewInvalidJoin
| ReviewUnexpectedMutation
| ReviewSerialization
| ReviewPanic.

(** ** The reviews to publish *)

Definition candidate_review (c : StoredCase) (number : Z) (head : string) (run : StoredRun)
  : result ReviewPublicationError (list ReviewResult) :=
  found ← ok_or (Contracts.decode run.(sr_payload)) ReviewSerialization;
  Ok match found with
     | ReviewR r => if (r.(rv_plan_version) =? c.(sc_plan_version)) && (r.(rv_pr_number) =? number)
                       && String.eqb r.(rv_reviewed_head_sha) head then [r] else []
     | _ => []
     end.

Definition judged (r : ReviewResult) : bool :=
  bool_decide (r.(rv_outcome) = ReviewOutcome.Approve) || bool_decide (r.(rv_outcome) = ReviewOutcome.RequestChanges).

(** [selected.insert], refusing a second review of a reviewer and reviewers that are not required. *)
Definition select_review (required : list (string * WorkerRole)) (selected : list (string * ReviewResult)) (r : ReviewResult)
  : result ReviewPublicationError (list (string * ReviewResult)) :=
  err_if (negb (judged r)) ReviewInvalidJoin;;
  err_if (negb (bool_decide (assoc r.(rv_reviewer_id) required = Some r.(rv_common).(Contracts.role)))
          || is_some (assoc r.(rv_reviewer_id) selected)) ReviewInvalidJoin;;
  Ok (upsert String.compare r.(rv_reviewer_id) (fun _ => r) r selected).

(** One review per required reviewer, by lane. *)
Fixpoint split_lanes (required : list (string * WorkerRole)) (selected : list (string * ReviewResult))
  (general secperf : list ReviewResult) : result ReviewPublicationError (list ReviewResult * list ReviewResult) :=
  match required with
  | [] => Ok (general, secperf)
  | (id, role) :: required =>
      r ← ok_or (assoc id selected) ReviewInvalidJoin;
      let selected := List.filter (fun kv => negb (String.eqb kv.1 id)) selected in
      match role with
      | ReviewerGeneral => split_lanes required selected (general ++ [r]) secperf
      | ReviewerSecperf => split_lanes required selected general (secperf ++ [r])
      | _ => Err ReviewInvalidJoin
      end
  end.

Section joined.
Context `{Codec}.

Definition joined_reviews (s : Store) (c : StoredCase) (policy : RepositoryPolicy)
  : result ReviewPublicationError (list ReviewResult * list ReviewResult) :=
  number ← ok_or c.(sc_pr_number) ReviewInvalidCase;
  head ← ok_or c.(sc_head_sha) ReviewInvalidCase;
  runs ← map_err ReviewStore (current_review_runs_for_case c.(sc_case_key) s);
  found ← try_map (candidate_review c number head) runs;
  let candidates := mjoin found in
  round ← ok_or (max_opt (rv_review_round <$> candidates)) ReviewInvalidJoin;
  workflow ← map_err (fun _ => ReviewSerialization) (workflow_policy policy);
  required ← map_err (fun _ => ReviewInvalidJoin) (required_reviewer_ids workflow);
  selected ← try_fold (select_review required) [] (List.filter (fun r => r.(rv_review_round) =? round) candidates);
  err_if (negb (bool_decide (length selected = length required))) ReviewInvalidJoin;;
  '(general, secperf) ← split_lanes required selected [] [];
  err_if (bool_decide (general = []) || bool_decide (secperf = [])) ReviewInvalidJoin;;
  Ok (general, secperf).
End joined.

(** ** The text of a review *)

Definition section (title text : string) : string :=
  newline +:+ newline +:+ "**" +:+ title +:+ "**" +:+ newline +:+ newline +:+ text.

Definition finding_text (f : BlockingFinding) : string :=
  newline +:+ newline +:+ "**" +:+ prose f.(bf_summary) +:+ "** (" +:+ prose f.(bf_id) +:+ ")" +:+ newline +:+ newline
  +:+ prose f.(bf_defect) +:+ newline +:+ newline +:+ "Impact: " +:+ prose f.(bf_consequence) +:+ newline +:+ newline
  +:+ "Requested change: " +:+ prose f.(bf_corrective_direction) +:+ newline +:+ newline +:+ "Verification needed:"
  +:+ newline +:+ newline +:+ bullets f.(bf_required_evidence) "No additional verification specified.".

Definition evidence_sections : list (string * string) :=
  [("Scope", "review_scope"); ("Summary", "summary"); ("Reviewer-reported checks", "local_checks");
   ("Limitations", "limitations"); ("Earlier feedback", "prior_suggestions")].
(** The source's [empty] text is always empty: a section without lines is left out. *)
Definition evidence_text (evidence : list (string * Value)) (s : string * string) : string :=
  match default [] (summaries <$> map_get s.2 evidence) with
  | [] => ""
  | lines => section s.1 (bullets lines "")
  end.

Definition concat_text (parts : list string) : string := foldr String.append "" parts.

Definition render_review_summary (r : ReviewResult) : string :=
  "### " +:+ prose r.(rv_reviewer_id) +:+ " — " +:+ prose r.(rv_common).(requested_model) +:+ " ("
  +:+ (if bool_decide (r.(rv_outcome) = ReviewOutcome.Approve) then "Approved" else "Changes requested") +:+ ")"
  +:+ newline +:+ newline
  +:+ (if bool_decide (length r.(rv_blocking_findings) = 0%nat) then "No blocking findings." else "Blocking findings:")
  +:+ concat_text (finding_text <$> r.(rv_blocking_findings))
  +:+ (if bool_decide (length r.(rv_suggestions) = 0%nat) then ""
       else section "Suggestions" (bullets ((fun g => g.(sg_summary) +:+ " — " +:+ g.(sg_rationale)) <$> r.(rv_suggestions)) ""))
  +:+ concat_text (evidence_text r.(rv_common).(Contracts.evidence) <$> evidence_sections).

(** ** One lane *)

Definition lane_title (role : string) : string :=
  if String.eqb role "reviewer-general" then "General review" else "Security and performance review".
(** [RequestChanges] wins; the last branch of the source is for outcomes that the join refused. *)
Definition lane_event (reviews : list ReviewResult) : option ReviewEvent :=
  if existsb (fun r => bool_decide (r.(rv_outcome) = ReviewOutcome.RequestChanges)) reviews then Some RequestChanges
  else if forallb (fun r => bool_decide (r.(rv_outcome) = ReviewOutcome.Approve)) reviews then Some Approve
  else None.
Definition event_text (e : ReviewEvent) : option string :=
  match e with Approve => Some "Approved"%string | RequestChanges => Some "Changes requested"%string | Comment => None end.

Definition lane_body (role head verdict : string) (reviews : list ReviewResult) : string :=
  "## " +:+ lane_title role +:+ ": " +:+ verdict +:+ newline +:+ newline +:+ "Reviewed commit: `" +:+ head +:+ "`"
  +:+ newline +:+ newline +:+ Parse.join (newline +:+ newline) (render_review_summary <$> reviews) +:+ newline +:+ newline
  +:+ "<!-- pip-reviewer-role: " +:+ role +:+ " -->".

Definition lane_spec (policy : RepositoryPolicy) (c : StoredCase) (effect_id : string) (actor : Z) (role : string)
  (reviews : list ReviewResult) : result ReviewPublicationError ReviewMutationSpec :=
  first ← ok_or (hd_error reviews) ReviewInvalidJoin;
  let head := first.(rv_reviewed_head_sha) in
  err_if (existsb (fun r => negb (String.eqb r.(rv_reviewed_head_sha) head)) reviews) ReviewInvalidJoin;;
  event ← ok_or (lane_event reviews) ReviewInvalidJoin;
  verdict ← ok_or (event_text event) ReviewInvalidJoin;
  number ← ok_or c.(sc_pr_number) ReviewInvalidCase;
  Ok {| rm_owner := rid_owner (po_repository policy); rm_repository := rid_name (po_repository policy);
        rm_pull_request_number := number; rm_effect_id := effect_id +:+ ":" +:+ role; rm_expected_actor_id := actor;
        rm_expected_head_sha := head; rm_body := lane_body role head verdict reviews; rm_event := event |}.

Definition review_id (m : result GitHubError Mutation.t) : result ReviewPublicationError Z :=
  match m with
  | Ok (Mutation.Created id) | Ok (Mutation.Existing id) => Ok id
  | Ok (Mutation.Updated _) | Ok (Mutation.Merged _) => Err ReviewUnexpectedMutation
  | Err e => Err (ReviewGitHub e)
  end.

Definition publish_one (writer : ReviewWriter) (policy : RepositoryPolicy) (c : StoredCase) (effect_id : string) (actor : Z)
  (role : string) (reviews : list ReviewResult) : Cycle ReviewPublicationError Z :=
  spec ← lift (lane_spec policy c effect_id actor role reviews);
  answer ← send (EnsureReview spec) (ensure_review spec);
  lift (review_id answer).

(** ** The cycle *)

Definition lane_payload (actor id : Z) (reviews : list ReviewResult) : Value :=
  json_object [("actor_id", Number actor); ("review_id", Number id);
               ("reviewer_ids", Array ((fun r => Str r.(rv_reviewer_id)) <$> reviews))].
Definition reviews_evidence (c : StoredCase) (effect_id : string) (number general_actor general_id secperf_actor secperf_id : Z)
  (general secperf : list ReviewResult) : EvidenceInput := {|
  vi_evidence_id := "evidence-reviews-" +:+ effect_id; vi_kind := "GITHUB_REVIEW_PUBLICATION";
  vi_source := "github-pr-" +:+ show number;
  vi_payload := json_object [("head_sha", opt_str c.(sc_head_sha));
                             ("general", lane_payload general_actor general_id general);
                             ("secperf", lane_payload secperf_actor secperf_id secperf)] |}.

Definition published_command (c : StoredCase) (now : Z) (evidence : EvidenceInput) : result ReviewPublicationError WorkflowCommand :=
  event_id ← map_err (fun _ => ReviewInvalidCase) (EventId_from_str ("event-reviews-published-" +:+ case_suffix c));
  ok_or (case_command c c.(sc_state_revision) event_id Ev.ReviewsPublished
           (json_object [("general_review_id", index (index evidence.(vi_payload) "general") "review_id");
                         ("secperf_review_id", index (index evidence.(vi_payload) "secperf") "review_id");
                         ("head_sha", opt_str c.(sc_head_sha))]) now [evidence]) ReviewInvalidCase.

Definition invalid_reviewed (policy : RepositoryPolicy) (e : ClaimedEffect) (c : StoredCase) : bool :=
  negb (c.(sc_repository_id) =? rid_id (po_repository policy)) || negb (c.(sc_policy_revision) =? po_revision policy)
  || negb (c.(sc_state_revision) =? e.(ce_state_revision))
  || negb (one_of ["FINAL_REVIEW"; "REMEDIATING"; "ESCALATED"]%string c.(sc_state))
  || is_none c.(sc_pr_number) || is_none c.(sc_head_sha).

Section reviews.
Context `{Codec} (general_writer secperf_writer : ReviewWriter).

Definition record_reviews (policy : RepositoryPolicy) (now : Z) (owner id : string) (c : StoredCase) (evidence : EvidenceInput)
  : Cycle ReviewPublicationError () :=
  if String.eqb c.(sc_state) "ESCALATED" then
    transact (fun s => map_err ReviewStore (complete_effect_evidence id owner now evidence s));; mret ()
  else
    command ← lift (published_command c now evidence);
    apply_command ReviewPanic ReviewController policy command;;
    mret ().

(** Both lanes are tried before either failure counts. *)
Definition publish_lanes (policy : RepositoryPolicy) (now : Z) (owner id : string) (general_actor secperf_actor : Z)
  (c : StoredCase) (general secperf : list ReviewResult) : Cycle ReviewPublicationError ReviewPublicationCycle :=
  first ← attempt (publish_one general_writer policy c id general_actor "reviewer-general" general);
  second ← attempt (publish_one secperf_writer policy c id secperf_actor "reviewer-secperf" secperf);
  '(general_id, secperf_id) ← or_release ReviewStore id owner (lift (g ← first; s ← second; Ok (g, s)));
  number ← lift (ok_or c.(sc_pr_number) ReviewPanic);
  record_reviews policy now owner id c
    (reviews_evidence c id number general_actor general_id secperf_actor secperf_id general secperf);;
  mret (ReviewsPublishedAs c.(sc_case_key) general_id secperf_id).

Definition publish_reviews_once (scope : RepositoryScope) (now : Z) (owner : string) (lease_seconds : Z)
  (authorization_valid : bool) : Cycle ReviewPublicationError ReviewPublicationCycle :=
  let policy := rs_policy scope in
  if negb authorization_valid then mret ReviewsAuthorizationBlocked else
  general_actor ← lift (ok_or (gc_reviewer_general_actor_id (po_github policy)) ReviewMissingActor);
  secperf_actor ← lift (ok_or (gc_reviewer_secperf_actor_id (po_github policy)) ReviewMissingActor);
  claimed ← claim ReviewStore scope owner now lease_seconds ["PUBLISH_REVIEWS"%string];
  match claimed with
  | None => mret ReviewsIdle
  | Some effect =>
      let id := effect.(ce_effect_id) in
      c ← claimed_case ReviewInvalidCase effect.(ce_case_key);
      or_release ReviewStore id owner (lift (err_if (invalid_reviewed policy effect c) ReviewInvalidCase));;
      '(general, secperf) ← or_release ReviewStore id owner (query (fun s => joined_reviews s c policy));
      publish_lanes policy now owner id general_actor secperf_actor c general secperf
  end.
End reviews.

(** ** The join, declaratively *)

Section join.
Context `{Codec}.

(** A current review of the case's plan on its exact head. *)
Definition reviews_head (c : StoredCase) (number : Z) (head : string) (runs : list StoredRun) (r : ReviewResult) : Prop :=
  exists run, run ∈ runs /\ Contracts.decode run.(sr_payload) = Some (ReviewR r) /\ r.(rv_plan_version) = c.(sc_plan_version)
    /\ r.(rv_pr_number) = number /\ r.(rv_reviewed_head_sha) = head.

Definition in_lane (role : WorkerRole) (p : string * WorkerRole) : bool := bool_decide (p.2 = role).

(** [general] and [secperf] are the reviews of the newest round: one judgement per required
    reviewer, in the order of their ids, and no other. *)
Record joined_as (s : Store) (c : StoredCase) (policy : RepositoryPolicy) (number : Z) (head : string)
  (general secperf : list ReviewResult) (runs : list StoredRun) (round : Z) (required : list (string * WorkerRole)) : Prop := {
  ja_binding : c.(sc_pr_number) = Some number /\ c.(sc_head_sha) = Some head;
  ja_runs : current_review_runs_for_case c.(sc_case_key) s = Ok runs;
  ja_required : exists w, workflow_policy policy = Ok w /\ required_reviewer_ids w = Ok required;
  ja_newest : forall r, reviews_head c number head runs r -> r.(rv_review_round) <= round;
  ja_exact : forall r, r ∈ general ++ secperf <-> reviews_head c number head runs r /\ r.(rv_review_round) = round;
  ja_judged : forall r, r ∈ general ++ secperf -> judged r = true;
  ja_general : rv_reviewer_id <$> general = fst <$> List.filter (in_lane ReviewerGeneral) required;
  ja_secperf : rv_reviewer_id <$> secperf = fst <$> List.filter (in_lane ReviewerSecperf) required;
  ja_both : general <> [] /\ secperf <> [];
}.

Lemma candidates_are c number head runs found r :
  try_map (candidate_review c number head) runs = Ok found -> r ∈ mjoin found <-> reviews_head c number head runs r.
Proof.
  intros Ht%try_map_Forall2. unfold reviews_head. induction Ht as [|run x runs found Hx _ IH]; simpl; [set_solver|].
  rewrite elem_of_app, IH. setoid_rewrite elem_of_cons. unfold candidate_review in Hx. open_ok.
  rename select (Contracts.decode _ = _) into Hd. 
  enough (r ∈ x <-> Contracts.decode (sr_payload run) = Some (ReviewR r) /\ rv_plan_version r = sc_plan_version c
    /\ rv_pr_number r = number /\ rv_reviewed_head_sha r = head) as Hr by (rewrite Hr; naive_solver).
  subst x. rewrite Hd. rename select WorkerResult into found'. destruct found' as [| |v|]; try (split; [set_solver|naive_solver]).
  destruct (_ && _) eqn:Hb; [texts|apply andb_false_iff in Hb; rewrite andb_false_iff in Hb]; rewrite ?list_elem_of_singleton; split.
  - by intros ->.
  - by intros ([= ->] & _).
  - set_solver.
  - intros ([= ->] & Hv & Hn & Hh). rewrite Hv, Hn, Hh, !Z.eqb_refl, String.eqb_refl in Hb. naive_solver.
Qed.

(** What [select_review] has collected from [l]. *)
Record selection (required : list (string * WorkerRole)) (l : list ReviewResult) (sel : list (string * ReviewResult)) : Prop := {
  sl_sorted : StronglySorted (before String.compare) sel;
  sl_elem : forall id r, (id, r) ∈ sel <-> r ∈ l /\ r.(rv_reviewer_id) = id;
  sl_ok : forall r, r ∈ l -> judged r = true /\ assoc r.(rv_reviewer_id) required = Some r.(rv_common).(Contracts.role);
}.

Lemma select_all required l sel : try_fold (select_review required) [] l = Ok sel -> selection required l sel.
Proof.
  assert (forall l pre sel0, selection required pre sel0 -> try_fold (select_review required) sel0 l = Ok sel ->
            selection required (pre ++ l) sel) as Hgen; [|intros Hf; apply (Hgen l [] []); [|done]].
  2: { split; [constructor|set_solver|set_solver]. }
  clear l. induction l as [|r l IH]; intros pre sel0 Hsel Hf; simpl in Hf.
  { injection Hf as <-. by rewrite app_nil_r. }
  open_ok. rename select (try_fold _ _ _ = _) into Hl. rename select (select_review _ _ _ = _) into Hs.
  replace (pre ++ r :: l) with ((pre ++ [r]) ++ l) by (by rewrite <-app_assoc). refine (IH _ _ _ Hl). clear Hl IH.
  destruct Hsel as [Hso He Hok]. unfold select_review in Hs. open_ok. subst. bools. rename select (assoc _ required = _) into Ha.
  assert (forall v, (rv_reviewer_id r, v) ∉ sel0) as Hfresh.
  { intros v Hin%(assoc_sorted _ _ _ Hso). rename select (is_some _ = _) into Hn. by rewrite Hin in Hn. }
  split; [exact (upsert_sorted String.compare _ _ _ _ Hso)| |].
  - intros id v. rewrite (upsert_elem String.compare _ _ _ _ _ _ Hso), elem_of_app, list_elem_of_singleton, He. split.
    + intros [[_ ?]|[-> [(v0 & Hv0 & _)|[_ ->]]]]; [naive_solver|by destruct (Hfresh v0)|auto].
    + intros [[Hin|Hv] Hid]; [left; split; [|done]|subst v; right; split; [done|right; done]].
      intros ->. apply (Hfresh v), He. auto.
  - intros v [Hin| ->%list_elem_of_singleton]%elem_of_app; [by apply Hok|done].
Qed.

Lemma assoc_remove {V} (m : list (string * V)) k k' :
  k' <> k -> assoc k' (List.filter (fun kv => negb (String.eqb kv.1 k)) m) = assoc k' m.
Proof.
  intros Hne. unfold assoc. induction m as [|[k0 v0] m IH]; simpl; [done|].
  destruct (String.eqb_spec k0 k) as [->|Hk]; simpl; [|by destruct (String.eqb k0 k')].
  by destruct (String.eqb_spec k k') as [->|].
Qed.

(** The lanes hold the selected review of every required reviewer. *)
Lemma split_lanes_are required : forall sel g s g' s',
  NoDup (fst <$> required) -> split_lanes required sel g s = Ok (g', s') ->
  exists gs ss, g' = g ++ gs /\ s' = s ++ ss
    /\ Forall2 (fun p r => assoc p.1 sel = Some r) (List.filter (in_lane ReviewerGeneral) required) gs
    /\ Forall2 (fun p r => assoc p.1 sel = Some r) (List.filter (in_lane ReviewerSecperf) required) ss
    /\ Forall (fun p => p.2 = ReviewerGeneral \/ p.2 = ReviewerSecperf) required.
Proof.
  induction required as [|[id role] required IH]; intros sel g s g' s' Hnd Hs; simpl in Hs.
  { injection Hs as <- <-. exists [], []. rewrite !app_nil_r. repeat constructor. }
  apply NoDup_cons in Hnd as [Hid Hnd]. apply bind_ok in Hs as (x & Ha%ok_or_ok & Hs).
  assert (forall lane out, Forall2 (fun p r => assoc p.1 (List.filter (fun kv => negb (String.eqb kv.1 id)) sel) = Some r)
            (List.filter (in_lane lane) required) out ->
            Forall2 (fun p r => assoc p.1 sel = Some r) (List.filter (in_lane lane) required) out) as Hw.
  { intros lane out. assert (forall p, p ∈ List.filter (in_lane lane) required -> p.1 <> id) as Hp.
    { intros p [Hin _]%list_elem_of_In%filter_In <-. apply Hid. apply list_elem_of_In in Hin. set_solver. }
    revert Hp. generalize (List.filter (in_lane lane) required). intros l Hp Hf.
    induction Hf as [|p r l out Hpr _ IHf]; constructor; [|apply IHf; intros; apply Hp; by right].
    rewrite <-Hpr. symmetry. apply assoc_remove, Hp. left. }
  destruct role; try discriminate; (apply IH in Hs as (gs & ss & -> & -> & Hg & Hsp & Hr); [|done]).
  - exists (x :: gs), ss. rewrite <-app_assoc. split_and!; [done|done|constructor; [exact Ha|by apply Hw]|by apply Hw|constructor; auto].
  - exists gs, (x :: ss). rewrite <-app_assoc. split_and!; [done|done|by apply Hw|constructor; [exact Ha|by apply Hw]|constructor; auto].
Qed.

Lemma sorted_keys {V} (m : list (string * V)) : StronglySorted (before String.compare) m -> NoDup (fst <$> m).
Proof.
  induction 1 as [|[k v] m Hs IH Hall]; simpl; [constructor|]. apply NoDup_cons. split; [|done].
  intros ([k' v'] & -> & Hin)%list_elem_of_fmap. rewrite Forall_forall in Hall. by apply (before_irrefl String.compare k' v v'), Hall.
Qed.

Lemma lane_ids required l sel lane out :
  selection required l sel -> Forall2 (fun p r => assoc p.1 sel = Some r) (List.filter (in_lane lane) required) out ->
  rv_reviewer_id <$> out = fst <$> List.filter (in_lane lane) required.
Proof.
  intros [Hss He _]. induction 1 as [|p r ps out Hp _ IH]; csimpl; [done|]. rewrite IH. f_equal.
  apply (assoc_sorted _ _ _ Hss), He in Hp. naive_solver.
Qed.

Lemma lanes_hold required l sel gs ss r :
  selection required l sel -> StronglySorted (before String.compare) required ->
  Forall2 (fun p r => assoc p.1 sel = Some r) (List.filter (in_lane ReviewerGeneral) required) gs ->
  Forall2 (fun p r => assoc p.1 sel = Some r) (List.filter (in_lane ReviewerSecperf) required) ss ->
  Forall (fun p => p.2 = ReviewerGeneral \/ p.2 = ReviewerSecperf) required ->
  r ∈ gs ++ ss <-> r ∈ l.
Proof.
  intros [Hss He Hok] Hso Hg Hs Hrole. rewrite elem_of_app. split.
  - intros [Hin|Hin]; (eapply Forall2_elem_r in Hin as (p & _ & Hp); [|eassumption]);
      apply (assoc_sorted _ _ _ Hss), He in Hp; naive_solver.
  - intros Hin. destruct (Hok _ Hin) as [_ Hreq]. apply (assoc_sorted _ _ _ Hso) in Hreq.
    assert (assoc (rv_reviewer_id r) sel = Some r) as Hsel by (by apply (assoc_sorted _ _ _ Hss), He).
    assert (forall lane out, role (rv_common r) = lane ->
      Forall2 (fun p r => assoc p.1 sel = Some r) (List.filter (in_lane lane) required) out -> r ∈ out) as Hlane.
    { intros lane out Hrl Hf. destruct (Forall2_elem_l _ _ _ (rv_reviewer_id r, role (rv_common r)) Hf) as (r' & Hin' & Hr'); [|simpl in Hr'; congruence].
      apply list_elem_of_In, filter_In. split; [by apply list_elem_of_In|]. by apply bool_decide_eq_true. }
    rewrite Forall_forall in Hrole. destruct (Hrole _ Hreq); [left|right]; by eapply Hlane.
Qed.

Lemma joined_is s c policy general secperf :
  joined_reviews s c policy = Ok (general, secperf) ->
  exists number head runs round required, joined_as s c policy number head general secperf runs round required.
Proof.
  unfold joined_reviews. intros Hj. open_ok.
  match goal with p : list ReviewResult * list ReviewResult |- _ => destruct p as [g sp] end. open_ok. simplify_eq. bools.
  rename select (split_lanes _ _ _ _ = _) into Hl. rename select (try_fold _ _ _ = _) into Hs.
  rename select (required_reviewer_ids _ = _) into Hr. rename select (try_map _ _ = _) into Ht.
  rename select (max_opt _ = _) into Hm. rename select (workflow_policy _ = _) into Hw.
  pose proof (required_sorted _ _ Hr) as Hso. apply select_all in Hs.
  apply split_lanes_are in Hl as (gs & ss & -> & -> & Hg & Hsp & Hrole); [|by apply sorted_keys]. simpl in *.
  match type of Hs with selection ?required _ _ => match type of Hm with _ = Some ?round =>
    eexists _, _, _, round, required end end.
  pose proof (fun r => lanes_hold _ _ _ _ _ r Hs Hso Hg Hsp Hrole) as Hex. apply max_opt_is in Hm as [_ Hmax].
  pose proof (fun r => candidates_are _ _ _ _ _ r Ht) as Hcand.
  assert (forall r, r ∈ gs ++ ss <-> r ∈ mjoin x2 /\ rv_review_round r = x3) as Hel.
  { intros r. rewrite Hex, list_elem_of_In, filter_In, <-list_elem_of_In, Z.eqb_eq. done. }
  split; [done|done|by eexists| | | |by eapply lane_ids|by eapply lane_ids|done].
  - intros r Hr1%Hcand. apply Hmax. by apply list_elem_of_fmap_2.
  - intros r. by rewrite Hel, Hcand.
  - intros r Hin%Hex. by destruct Hs as [_ _ Hok]; apply Hok.
Qed.
End join.

(** ** What the cycle may do *)

Section laws.
Context `{Codec} (general_writer secperf_writer : ReviewWriter).

(** The review a lane gets: on the case's pull request and exact head, by the lane's
    account, asking for changes exactly when one of its reviewers does. *)
Record lane_of (policy : RepositoryPolicy) (c : StoredCase) (id : string) (actor number : Z) (head role : string)
  (reviews : list ReviewResult) (spec : ReviewMutationSpec) : Prop := {
  lo_spec : lane_spec policy c id actor role reviews = Ok spec;
  lo_target : spec.(rm_pull_request_number) = number /\ spec.(rm_expected_head_sha) = head
              /\ spec.(rm_expected_actor_id) = actor /\ spec.(rm_effect_id) = id +:+ ":" +:+ role;
  lo_changes : spec.(rm_event) = RequestChanges <-> exists r, r ∈ reviews /\ r.(rv_outcome) = ReviewOutcome.RequestChanges;
  lo_approve : spec.(rm_event) = Approve <-> forall r, r ∈ reviews -> r.(rv_outcome) = ReviewOutcome.Approve;
}.

(** A judged lane on one head always has its review. *)
Lemma lane_spec_total policy c id actor number head role reviews :
  c.(sc_pr_number) = Some number -> reviews <> [] ->
  (forall r, r ∈ reviews -> judged r = true /\ r.(rv_reviewed_head_sha) = head) ->
  exists spec, lane_of policy c id actor number head role reviews spec.
Proof.
  intros Hn Hne Hall. destruct reviews as [|first rest]; [done|]. unfold lane_spec.
  destruct (Hall first) as [_ Hh]; [left|].
  assert (existsb (fun r => negb (String.eqb r.(rv_reviewed_head_sha) head)) (first :: rest) = false) as He.
  { apply not_true_iff_false. rewrite existsb_exists. intros (r & Hin%list_elem_of_In & Hr). apply Hall in Hin as [_ Hrh].
    by rewrite Hrh, String.eqb_refl in Hr. }
  set (l := first :: rest) in *.
  assert ((lane_event l = Some RequestChanges /\ exists r, r ∈ l /\ r.(rv_outcome) = ReviewOutcome.RequestChanges)
          \/ (lane_event l = Some Approve /\ forall r, r ∈ l -> r.(rv_outcome) = ReviewOutcome.Approve)) as Hev.
  { unfold lane_event. destruct (existsb (fun r => bool_decide (rv_outcome r = ReviewOutcome.RequestChanges)) l) eqn:Hx.
    - left. split; [done|]. apply existsb_elem in Hx as (r & ? & ?%bool_decide_eq_true). eauto.
    - right. assert (forall r, r ∈ l -> r.(rv_outcome) = ReviewOutcome.Approve) as Ha.
      { intros r Hin. destruct (Hall r Hin) as [Hj _]. unfold judged in Hj. apply orb_true_iff in Hj as [Hj|Hj]; bools; [done|].
        rewrite <-not_true_iff_false, existsb_elem in Hx. destruct Hx. exists r. by rewrite bool_decide_eq_true. }
      rewrite (proj2 (forallb_forall _ l)); [done|]. intros r Hin%list_elem_of_In. apply bool_decide_eq_true. auto. }
  assert (first ∈ l) as Hfirst by left.
  destruct Hev as [[Hev (r & Hr & Hro)]|[Hev Ha]]; eexists; (split; [unfold lane_spec; change (hd_error l) with (Some first); cbn [ok_or mbind result_bind];
      cbv zeta; rewrite Hh, He, Hev, Hn; reflexivity|done|..]); simpl.
  - naive_solver.
  - split; [done|]. intros Ha. rewrite (Ha r Hr) in Hro. done.
  - split; [done|]. intros (r & Hr & Hro). rewrite (Ha r Hr) in Hro. done.
  - naive_solver.
Qed.

Lemma publish_one_sends writer policy c id actor role reviews spec w :
  lane_spec policy c id actor role reviews = Ok spec ->
  attempt (E' := ReviewPublicationError) (publish_one writer policy c id actor role reviews) w =
  (Ok (review_id (@ensure_review writer spec)), {| w_db := w.(w_db); w_log := w.(w_log) ++ [EnsureReview spec] |}).
Proof. intros Hs. unfold attempt, publish_one. rewrite lift_run, Hs. cbn beta iota. by rewrite send_run. Qed.

Lemma published_inv c now evd w :
  published_command c now evd = Ok w -> exists id p, case_command c c.(sc_state_revision) id Ev.ReviewsPublished p now [evd] = Some w.
Proof. unfold published_command. intros Hp. open_ok. eauto. Qed.

Lemma record_moves policy now owner id c evd w r w' :
  0 <= now -> query_case (w_store w) c.(sc_case_key) = Some c -> well_keyed c ->
  record_reviews policy now owner id c evd w = (r, w') ->
  still w w' \/ (c.(sc_state) <> "ESCALATED"%string /\ moved c Ev.ReviewsPublished (w_store w) (w_store w')
                 /\ w'.(w_log) = w.(w_log)).
Proof.
  intros Hnow Hq Hkey Hr. unfold record_reviews in Hr. destruct (String.eqb_spec (sc_state c) "ESCALATED") as [|Hst].
  { left. apply bind_inv in Hr as [(? & w1 & Ht & Hr)|(? & Ht & _)]; apply evidence_still in Ht; [by injection Hr as <- <-|done]. }
  rewrite lift_run in Hr. destruct (published_command _ _ _) as [command|] eqn:Hc; [|by injection Hr as <- <-; left].
  apply published_inv in Hc as (eid & p & Hcc).
  assert (exists r1, apply_command ReviewPanic ReviewController policy command w = (r1, w')) as [r1 Ha].
  { apply bind_inv in Hr as [(? & w1 & Ha & Hr)|(? & Ha & _)]; [injection Hr as <- <-|]; eauto. }
  apply apply_command_inv in Ha as [[-> _]|(budget & a & s' & Ha & _ & ->)]; [by left|].
  assert (case_key (wc_case_id command) = sc_case_key c) as Hk by (apply Hkey; by apply case_command_inv in Hcc as (? & _)).
  destruct (command_outcome _ _ _ _ _ _ _ _ _ _ _ Hq Hk Hnow (ltac:(done) : Ev.ReviewsPublished <> Ev.ReviewReady) Hcc Ha) as [[_ Hm]|[_ ->]]; [by right|].
  left. by destruct w as [[]].
Qed.

(** Both reviews are always sent; the case moves only when both are confirmed. *)
Lemma lanes_move policy now owner id ga sa c general secperf g s w r w' :
  0 <= now -> query_case (w_store w) c.(sc_case_key) = Some c -> well_keyed c ->
  lane_spec policy c id ga "reviewer-general" general = Ok g -> lane_spec policy c id sa "reviewer-secperf" secperf = Ok s ->
  publish_lanes general_writer secperf_writer policy now owner id ga sa c general secperf w = (r, w') ->
  w'.(w_log) = w.(w_log) ++ [EnsureReview g; EnsureReview s]
  /\ (quiet (w_store w) (w_store w')
      \/ ((exists i j, review_id (@ensure_review general_writer g) = Ok i /\ review_id (@ensure_review secperf_writer s) = Ok j)
          /\ c.(sc_state) <> "ESCALATED"%string /\ moved c Ev.ReviewsPublished (w_store w) (w_store w'))).
Proof.
  intros Hnow Hq Hkey Hg Hs Hr. unfold publish_lanes in Hr. unfold mbind at 1, cycle_bind at 1 in Hr.
  rewrite (publish_one_sends _ _ _ _ _ _ _ _ _ Hg) in Hr. unfold mbind at 1, cycle_bind at 1 in Hr.
  rewrite (publish_one_sends _ _ _ _ _ _ _ _ _ Hs) in Hr. set (w2 := {| w_db := _; w_log := _ |}) in Hr.
  assert (w_log w2 = w_log w ++ [EnsureReview g; EnsureReview s]) as Hlog by (simpl; by rewrite <-app_assoc).
  rewrite <-Hlog. change (w_store w) with (w_store w2) in *.
  apply or_release_inv in Hr as [([i j] & ? & [= Hids <-] & Hr)|(? & ? & ? & [= _ <-] & _ & Hst)]; [|destruct Hst as (? & ? & _); auto].
  rewrite lift_run in Hr. destruct (ok_or _ _); [|injection Hr as <- <-; by split; [|left]].
  assert (exists r1, record_reviews policy now owner id c (reviews_evidence c id a ga i sa j general secperf) w2 = (r1, w')) as [r1 Ha].
  { apply bind_inv in Hr as [(? & w1 & Ha & Hr)|(? & Ha & _)]; [injection Hr as <- <-|]; eauto. }
  apply record_moves in Ha as [(? & ? & _)|(Hne & Hm & Hl)]; [by split; [|left]| |done..].
  split; [done|]. right. split; [|done]. open_ok. simplify_eq. eauto.
Qed.

(** C16: Reviews are published in full or not at all.  Whatever the cycle answers, it either sent
    nothing and changed no case, or it sent two reviews for one case: the reviews of the newest round
    on the case's exact head, one per required reviewer, each lane by its own account, asking for
    changes exactly when one of the lane's reviewers does.  The case moved, by [REVIEWS_PUBLISHED],
    only when GitHub confirmed both and the case was not escalated; no other case changed. *)
Theorem reviews_published_in_full (scope : RepositoryScope) (now lease : Z) (owner : string) (valid : bool) (w w' : World)
  (r : result ReviewPublicationError ReviewPublicationCycle)
  (Hkeys : forall k c, query_case (w_store w) k = Some c -> well_keyed c) (Hnow : 0 <= now)
  (Hrun : publish_reviews_once general_writer secperf_writer scope now owner lease valid w = (r, w')) :
  let unchanged := forall k, query_case (w_store w') k = query_case (w_store w) k in
  (w'.(w_log) = w.(w_log) /\ unchanged)
  \/ exists c id number head general secperf runs round required s1 ga sa g s,
      query_case (w_store w) c.(sc_case_key) = Some c /\ c.(sc_policy_revision) = po_revision (rs_policy scope)
      /\ quiet (w_store w) s1 /\ joined_as s1 c (rs_policy scope) number head general secperf runs round required
      /\ gc_reviewer_general_actor_id (po_github (rs_policy scope)) = Some ga
      /\ gc_reviewer_secperf_actor_id (po_github (rs_policy scope)) = Some sa
      /\ lane_of (rs_policy scope) c id ga number head "reviewer-general" general g
      /\ lane_of (rs_policy scope) c id sa number head "reviewer-secperf" secperf s
      /\ w'.(w_log) = w.(w_log) ++ [EnsureReview g; EnsureReview s]
      /\ (unchanged
          \/ ((exists i j, review_id (@ensure_review general_writer g) = Ok i
                 /\ review_id (@ensure_review secperf_writer s) = Ok j)
              /\ c.(sc_state) <> "ESCALATED"%string /\ moved c Ev.ReviewsPublished (w_store w) (w_store w'))).
Proof.
  cbv zeta. assert (forall w2, still w w2 -> (w_log w2 = w_log w /\ forall k, query_case (w_store w2) k = query_case (w_store w) k)) as Hend.
  { intros w2 Hs. split; [apply Hs|intros k; by apply still_query]. }
  unfold publish_reviews_once in Hrun. destruct valid; [|by injection Hrun as <- <-; left]. simpl in Hrun.
  rewrite lift_run in Hrun. destruct (gc_reviewer_general_actor_id _) as [ga|] eqn:Hga; simpl in Hrun; [|by injection Hrun as <- <-; left].
  rewrite lift_run in Hrun. destruct (gc_reviewer_secperf_actor_id _) as [sa|] eqn:Hsa; simpl in Hrun; [|by injection Hrun as <- <-; left].
  apply claimed_inv in Hrun as [Hs|(effect & c & w1 & _ & Hcl & Hq & Hq0 & Hr)]; [by left; apply Hend|].
  apply or_release_inv in Hr as [(? & ? & [= Hg <-] & Hr)|(? & ? & ? & [= _ <-] & _ & Hs)]; [|by left; apply Hend; etrans].
  apply or_release_inv in Hr as [([general secperf] & ? & [= Hj <-] & Hr)|(? & ? & ? & [= _ <-] & _ & Hs)]; [|by left; apply Hend; etrans].
  right. apply joined_is in Hj as (number & head & runs & round & required & Hj).
  assert (forall r, r ∈ general ++ secperf -> judged r = true /\ rv_reviewed_head_sha r = head) as Hall.
  { intros v Hv. split; [by eapply ja_judged|]. apply (ja_exact _ _ _ _ _ _ _ _ _ _ Hj) in Hv as [(? & _ & _ & _ & _ & ?) _]. done. }
  pose proof (ja_binding _ _ _ _ _ _ _ _ _ _ Hj) as [Hn _]. pose proof (ja_both _ _ _ _ _ _ _ _ _ _ Hj) as [Hg0 Hs0].
  destruct (lane_spec_total (rs_policy scope) c (ce_effect_id effect) ga number head "reviewer-general" general Hn Hg0) as [g Hlg].
  { intros v Hv. apply Hall, elem_of_app. by left. }
  destruct (lane_spec_total (rs_policy scope) c (ce_effect_id effect) sa number head "reviewer-secperf" secperf Hn Hs0) as [s Hls].
  { intros v Hv. apply Hall, elem_of_app. by right. }
  apply lanes_move with (g := g) (s := s) in Hr as [Hlog Hm]; [|done|done|by eapply Hkeys|apply Hlg|apply Hls].
  unfold invalid_reviewed in Hg. open_ok. bools. destruct Hcl as (Hqu & Hlog1 & Hconv).
  exists c, (ce_effect_id effect), number, head, general, secperf, runs, round, required, (w_store w1), ga, sa, g, s.
  do 8 (split; [done|]). split; [congruence|].
  destruct Hm as [Hq1|(? & ? & Hm)]; [left; intros k; apply quiet_query; by etrans|right; split_and!; [done..|]].
  eapply still_moved; [|exact Hm]. done.
Qed.

Lemma reviews_sound scope now owner lease valid :
  0 <= now -> Sound (publish_reviews_once general_writer secperf_writer scope now owner lease valid).
Proof.
  intros Hnow. unfold publish_reviews_once, publish_lanes, record_reviews. sound_claimed; try (apply sound_attempt; unfold publish_one; sound_claimed).
  apply sound_claimed_command. rename select (published_command _ _ _ = _) into Hp. apply published_inv in Hp as (? & ? & Hcc).
  rename select (case_ranges _) into Hc. refine (case_command_floor _ _ _ _ _ _ _ _ Hc _ Hnow _ Hcc); [apply Hc|done].
Qed.
End laws.

(** ** Two approvals *)

Definition demo_reviewed : Store := default empty_store (demo_worked (take 8 demo_work) demo_opened).
Definition demo_review_writer : ReviewWriter := fun _ => Ok (Mutation.Created 99).
Definition demo_review_run := publish_reviews_once (H := demo_codec) demo_review_writer demo_review_writer demo_scope 200 "w" 60 true
  (demo_world demo_reviewed).
Lemma reviews_published_in_full_witness :
  exists c number head general secperf runs round required s1 g s,
    query_case demo_reviewed c.(sc_case_key) = Some c
    /\ joined_as (H := demo_codec) s1 c (demo_policy 1 1000) number head general secperf runs round required
    /\ w_log demo_review_run.2 = [EnsureReview g; EnsureReview s].
Proof.
  assert (length (w_log demo_review_run.2) = 2%nat) as Hlen by (vm_compute; reflexivity).
  assert (keys_match (w_store (demo_world demo_reviewed)) = true) as Hk by (vm_compute; reflexivity).
  destruct demo_review_run as [r w'] eqn:Hrun. unfold demo_review_run in Hrun.
  destruct (reviews_published_in_full (H := demo_codec) demo_review_writer demo_review_writer demo_scope 200 60 "w" true
              (demo_world demo_reviewed) w' r (fun k c => keys_match_keyed _ k c Hk) ltac:(lia) Hrun)
    as [[Hlog _]|(c & id & number & head & general & secperf & runs & round & required & s1 & ga & sa & g & s & Hq & _ & _ & Hj
          & _ & _ & _ & _ & Hlog & _)].
  - simpl in Hlen. rewrite Hlog in Hlen. discriminate Hlen.
  - exists c, number, head, general, secperf, runs, round, required, s1, g, s. split; [exact Hq|]. split; [exact Hj|exact Hlog].
Defined.
