(* ===== verification/Disposition.v ===== *)
(** * Disposition: what a case tells its humans, and when a pull request is offered

    crates/pip-control/src/disposition.rs.  Local effects are recorded in the ledger,
    a parked case says why it stopped, an early takeover is acknowledged, and a case that is
    [SHADOW_READY] has its assessed threads resolved and its pull request marked ready for
    review, behind the gate of FinalGate.v.  No disposition changes a case. *)

From S2P Require Import Prelude Text Parse Json Serde Domain StateMachine Revision Contracts Sql Tables Inputs Recovery StoreCore.
From S2P Require Import Status Outbox Control Records CaseHistory History Frames Steps Invariants Conversations.
From S2P Require Import Ledger System Ingest RolePolicy Policy PolicyLaws Commands Cycles Bounds GitHub Ci World Claims Park.
From S2P Require Import Takeover Authorization Recoveries FinalGate Preflight.
From stdpp Require Import relations.
Open Scope Z_scope.

Class DispositionWriter := {
  ensure_comment (spec : CommentSpec) : result GitHubError Mutation.t;
  mark_ready (spec : PullRequestReadySpec) : result GitHubError Mutation.t;
  resolve_thread (spec : PullRequestReadySpec) (thread : ReviewThreadSnapshot) : result GitHubError Mutation.t;
}.

Definition LOCAL_EFFECTS : list string := ["RECORD_COMPLETION"; "RECORD_ABANDONMENT"; "RECORD_TAKEOVER"].
Definition INFORMATIONAL_EFFECTS : list string := ["HOLD_FOR_HUMAN"; "ESCALATE"; "RECORD_BLOCK"].
Definition COMMENT_EFFECTS : list string := ["NOTIFY_SHADOW_READY"].

Inductive DispositionCycle :=
| DispositionIdle
| DispositionAuthorizationBlocked
| ReadinessPending (case_key : string) (blockers : list string)
| Recorded (effect_id effect_type : string)
| Published (effect_id : string) (target_number external_id : Z).

Inductive DispositionError :=
| DispositionGitHub (e : GitHubError)
| DispositionStore (e : StoreError)
| DispositionMissingActor
| DispositionInvalidCase
| DispositionUnexpectedMutation
| DispositionPreflight (e : FinalPreflightError)
| ReadinessBlocked (blockers : list string)
| DispositionPanic.

(** ** Notices *)

Definition has_blocker (blockers : list Value) (reason : string) : bool :=
  existsb (fun v => eq_str v reason) blockers.

Section notices.
Context `{Codec} {source : IntakeSource}.

(** The pull request of a case that a human marked ready before the checks were done. *)
Definition early_ready_takeover (s : Store) (c : StoredCase) : result DispositionError (option Z) :=
  if negb (String.eqb c.(sc_state) "TAKEN_OVER") then Ok None else
  history ← map_err DispositionStore (immutable_history_for_case c.(sc_case_key) s);
  match List.filter (fun e => String.eqb e.(se_event_type) "HUMAN_TOOK_OVER" && (e.(se_state_revision) =? c.(sc_state_revision)))
          (option_list (last history.(ih_events))) with
  | [] => Ok None
  | event :: _ =>
      err_if (negb (payload_matches event.(se_payload) event.(se_payload_sha256))) DispositionInvalidCase;;
      match as_array (index event.(se_payload) "blockers") with
      | None => Ok None
      | Some blockers =>
          if has_blocker blockers "PR_LEFT_DRAFT_STATE" && negb (has_blocker blockers "PR_DISPOSITION_CHANGED")
             && negb (has_blocker blockers "FOREIGN_PR_AUTHOR") && negb (has_blocker blockers "FOREIGN_HEAD_BRANCH")
          then Some <$> ok_or c.(sc_pr_number) DispositionInvalidCase
          else Ok None
      end
  end.

Definition disposition_comment (c : StoredCase) (effect_type : string) : result DispositionError (Z * string) :=
  let identity := "Pip case `" +:+ c.(sc_case_key) +:+ "` at state revision " +:+ show c.(sc_state_revision) in
  if String.eqb effect_type "NOTIFY_SHADOW_READY" then
    number ← ok_or c.(sc_pr_number) DispositionInvalidCase;
    head ← ok_or c.(sc_head_sha) DispositionInvalidCase;
    Ok (number, "## Pip shadow disposition: ready for human review" +:+ newline +:+ newline +:+ identity
                +:+ " completed its deterministic final review on `" +:+ head
                +:+ "`. Autonomous merge is disabled; a human merge decision is required.")
  else Err DispositionInvalidCase.

Definition human_notice (s : Store) (policy : RepositoryPolicy) (c : StoredCase) : result DispositionError (Z * string) :=
  let login := gc_automation_actor_id (po_github policy)
               ≫= (fun id => match actor_login id with Ok login => Some login | Err _ => None end) in
  found ← map_err DispositionStore (parking_event c.(sc_case_key) s);
  park ← ok_or found DispositionInvalidCase;
  Ok (c.(sc_issue_number), Park.comment park c login).

Definition takeover_body : string :=
  "This PR was marked ready for review before I finished my checks, so I’m handing it over to you. I won’t start further automated builds or reviews for this PR. Please finish the remaining review and CI checks before merging.".
End notices.

(** ** Readiness *)

Definition text_or (fallback : string) (v : Value) : string := default fallback (as_str v).

Definition check_line (check : Value) : string := newline +:+ "- " +:+ text_or "" check.
Definition disposition_text (disposition : Value) : string :=
  newline +:+ text_or "assessed" (index disposition "disposition") +:+ ": " +:+ text_or "" (index disposition "summary") +:+ newline
  +:+ match as_array (index disposition "verification") with
      | Some checks => foldr String.append "" (check_line <$> checks) +:+ newline
      | None => ""
      end.
Definition thread_body (url head : string) (dispositions : list Value) : string :=
  "Assessed [this review thread](" +:+ url +:+ ") on `" +:+ head +:+ "`." +:+ newline
  +:+ foldr String.append "" (disposition_text <$> dispositions) +:+ newline
  +:+ "The required reviews and final review accepted this disposition. Full evidence is retained by Pip.".

Definition ready_spec (policy : RepositoryPolicy) (effect_id : string) (number actor : Z) (branch head : string)
  : PullRequestReadySpec := {|
  rd_owner := rid_owner (po_repository policy); rd_repository := rid_name (po_repository policy);
  rd_repository_id := rid_id (po_repository policy); rd_pull_request_number := number; rd_expected_actor_id := actor;
  rd_expected_head_branch := branch; rd_expected_head_sha := head;
  rd_expected_base_branch := rid_default_branch (po_repository policy);
  rd_client_mutation_id := effect_id +:+ ":ready" |}.
Definition resolution_spec (ready : PullRequestReadySpec) (effect_id thread : string) : PullRequestReadySpec := {|
  rd_owner := ready.(rd_owner); rd_repository := ready.(rd_repository); rd_repository_id := ready.(rd_repository_id);
  rd_pull_request_number := ready.(rd_pull_request_number); rd_expected_actor_id := ready.(rd_expected_actor_id);
  rd_expected_head_branch := ready.(rd_expected_head_branch); rd_expected_head_sha := ready.(rd_expected_head_sha);
  rd_expected_base_branch := ready.(rd_expected_base_branch);
  rd_client_mutation_id := effect_id +:+ ":resolve:" +:+ thread |}.
Definition thread_comment (ready : PullRequestReadySpec) (effect_id thread body : string) : CommentSpec := {|
  cs_owner := ready.(rd_owner); cs_repository := ready.(rd_repository); cs_issue_number := ready.(rd_pull_request_number);
  cs_effect_id := effect_id +:+ ":thread:" +:+ thread; cs_expected_actor_id := ready.(rd_expected_actor_id); cs_body := body |}.

(** The mutation of the pull request itself, new or repeated. *)
Definition pull_mutation (number : Z) (m : Mutation.t) : option string :=
  match m with
  | Mutation.Existing id => if id =? number then Some "existing" else None
  | Mutation.Updated id => if id =? number then Some "updated" else None
  | _ => None
  end.

(** The final reviewer's result approves exactly this plan, pull request and head. *)
Definition ready_result (c : StoredCase) (number : Z) (head : string) (run : StoredRun) (found : WorkerResult) : bool :=
  match found with
  | FinalR f => bool_decide (f.(fi_outcome) = FinalOutcome.Ready) && String.eqb f.(fi_common).(Contracts.task_id) run.(sr_task_id)
                && (f.(fi_plan_version) =? c.(sc_plan_version)) && (f.(fi_pr_number) =? number)
                && String.eqb f.(fi_reviewed_head_sha) head
  | _ => false
  end.
Definition last_final_run (history : ImmutableCaseHistory) : option StoredRun :=
  List.find (fun run => String.eqb run.(sr_role) "final-reviewer") (rev history.(ih_runs)).

Section ready.
Context `{Codec} {source : IntakeSource} {pulls : PullRequestSource} {threads_source : ReviewThreadSource}
  {writer : DispositionWriter}.

Definition resolve_assessed (c : StoredCase) (effect_id head : string) (number : Z) (ready : PullRequestReadySpec)
  (_ : ()) (thread : ReviewThreadSnapshot) : Cycle DispositionError () :=
  found ← query (fun s => map_err DispositionPreflight (assessed_thread_dispositions s c thread));
  dispositions ← lift (ok_or found DispositionInvalidCase);
  first ← lift (ok_or (hd_error thread.(th_comments)) DispositionPanic);
  let spec := thread_comment ready effect_id thread.(th_id) (thread_body first.(tc_url) head dispositions) in
  commented ← send (EnsureComment spec) (ensure_comment spec);
  lift (map_err DispositionGitHub commented);;
  let resolution := resolution_spec ready effect_id thread.(th_id) in
  resolved ← send (ResolveThread resolution thread) (resolve_thread resolution thread);
  mutation ← lift (map_err DispositionGitHub resolved);
  lift (ok_or (pull_mutation number mutation) DispositionUnexpectedMutation);;
  mret ().

(** The checks before anything is written. *)
Definition ready_evidence (policy : RepositoryPolicy) (c : StoredCase) (s : Store)
  : result DispositionError (Z * string * PullRequestEvidence * list ReviewThreadSnapshot) :=
  let repository := po_repository policy in
  err_if (negb (String.eqb c.(sc_state) "SHADOW_READY")) DispositionInvalidCase;;
  number ← ok_or c.(sc_pr_number) DispositionInvalidCase;
  head ← ok_or c.(sc_head_sha) DispositionInvalidCase;
  history ← map_err DispositionStore (immutable_history_for_case c.(sc_case_key) s);
  run ← ok_or (last_final_run history) DispositionInvalidCase;
  found ← ok_or (Contracts.decode run.(sr_payload)) DispositionInvalidCase;
  err_if (negb (payload_matches run.(sr_payload) run.(sr_payload_sha256)) || negb (ready_result c number head run found))
    DispositionInvalidCase;;
  issue ← map_err DispositionGitHub (intake (rid_owner repository) (rid_name repository) c.(sc_issue_number));
  err_if (negb (fresh_issue_authorization policy c issue)) (ReadinessBlocked ["ISSUE_AUTHORIZATION_REVOKED"%string]);;
  pull ← map_err DispositionGitHub (pull_request (rid_owner repository) (rid_name repository) (rid_id repository) number);
  threads ← map_err DispositionGitHub (review_threads (rid_owner repository) (rid_name repository) (rid_id repository) number);
  blockers ← map_err DispositionPreflight (final_gate_blockers s c policy pull threads None);
  err_if (negb (bool_decide (blockers = []))) (ReadinessBlocked blockers);;
  Ok (number, head, pull, threads).

Definition publish_ready (policy : RepositoryPolicy) (c : StoredCase) (effect_id : string) : Cycle DispositionError Value :=
  '(number, head, pull, threads) ← query (ready_evidence policy c);
  actor ← lift (ok_or (gc_automation_actor_id (po_github policy)) DispositionMissingActor);
  let ready := ready_spec policy effect_id number actor pull.(pe_pull).(pr_head_branch) head in
  fold_cycle (resolve_assessed c effect_id head number ready) () (List.filter (fun t => negb t.(th_is_resolved)) threads);;
  marked ← send (MarkReady ready) (mark_ready ready);
  mutation ← lift (map_err DispositionGitHub marked);
  kind ← lift (ok_or (pull_mutation number mutation) DispositionUnexpectedMutation);
  mret (json_object [("pull_request_number", Number number); ("head_sha", Str head); ("mutation", Str kind)]).

(** ** The cycle *)

Definition invalid_effect (policy : RepositoryPolicy) (e : ClaimedEffect) (c : StoredCase) : bool :=
  negb (c.(sc_repository_id) =? rid_id (po_repository policy))
  || (negb (c.(sc_policy_revision) =? po_revision policy) && negb (one_of INFORMATIONAL_EFFECTS e.(ce_effect_type)))
  || negb (c.(sc_state_revision) =? e.(ce_state_revision)).

Definition completion_evidence (e : ClaimedEffect) (c : StoredCase) : EvidenceInput := {|
  vi_evidence_id := "evidence-effect-" +:+ e.(ce_effect_id); vi_kind := "LOCAL_EFFECT_COMPLETION"; vi_source := "pip-control";
  vi_payload := json_object [("effect_type", Str e.(ce_effect_type)); ("state", Str c.(sc_state));
                             ("state_revision", Number c.(sc_state_revision))] |}.
Definition comment_evidence (e : ClaimedEffect) (target external actor : Z) (mutation : string) (readiness : option Value)
  : EvidenceInput := {|
  vi_evidence_id := "evidence-effect-" +:+ e.(ce_effect_id); vi_kind := "GITHUB_DISPOSITION_COMMENT";
  vi_source := "github-issue-" +:+ show target;
  vi_payload := json_object [("effect_type", Str e.(ce_effect_type)); ("target_number", Number target);
                             ("comment_id", Number external); ("mutation", Str mutation); ("actor_id", Number actor);
                             ("ready_for_review", default Null readiness)] |}.

Definition comment_mutation (m : Mutation.t) : result DispositionError (string * Z) :=
  match m with
  | Mutation.Created id => Ok ("created"%string, id)
  | Mutation.Existing id => Ok ("existing"%string, id)
  | Mutation.Updated _ | Mutation.Merged _ => Err DispositionUnexpectedMutation
  end.

Definition notice_spec (policy : RepositoryPolicy) (e : ClaimedEffect) (actor target : Z) (body : string) : CommentSpec := {|
  cs_owner := rid_owner (po_repository policy); cs_repository := rid_name (po_repository policy); cs_issue_number := target;
  cs_effect_id := e.(ce_effect_id); cs_expected_actor_id := actor; cs_body := body |}.

(** The comment of the effect and its evidence. *)
Definition publish_notice (policy : RepositoryPolicy) (now : Z) (owner : string) (e : ClaimedEffect) (actor target : Z)
  (body : string) (readiness : option Value) : Cycle DispositionError DispositionCycle :=
  let id := e.(ce_effect_id) in
  let spec := notice_spec policy e actor target body in
  commented ← send (EnsureComment spec) (ensure_comment spec);
  result ← or_release DispositionStore id owner (lift (map_err DispositionGitHub commented));
  '(mutation, external) ← or_release DispositionStore id owner (lift (comment_mutation result));
  transact (fun s => map_err DispositionStore
    (complete_effect_evidence id owner now (comment_evidence e target external actor mutation readiness) s));;
  mret (Published id target external).

(** A readiness that is only blocked is not an error. *)
Definition readiness_step (policy : RepositoryPolicy) (owner : string) (e : ClaimedEffect) (c : StoredCase)
  : Cycle DispositionError (Value + list string) := fun w =>
  match publish_ready policy c e.(ce_effect_id) w with
  | (Ok v, w1) => (Ok (inl v), w1)
  | (Err (ReadinessBlocked blockers), w1) =>
      (release DispositionStore e.(ce_effect_id) owner;; mret (inr blockers)) w1
  | (Err error, w1) => (release DispositionStore e.(ce_effect_id) owner;; raise error) w1
  end.

Definition notify_ready (policy : RepositoryPolicy) (now : Z) (owner : string) (e : ClaimedEffect) (c : StoredCase)
  (actor : Z) : Cycle DispositionError DispositionCycle :=
  readiness ← readiness_step policy owner e c;
  match readiness with
  | inr blockers => mret (ReadinessPending c.(sc_case_key) blockers)
  | inl v =>
      '(target, body) ← lift (disposition_comment c e.(ce_effect_type));
      publish_notice policy now owner e actor target body (Some v)
  end.

Definition consume_claimed (policy : RepositoryPolicy) (now : Z) (owner : string) (authorization_valid : bool)
  (e : ClaimedEffect) (c : StoredCase) : Cycle DispositionError DispositionCycle :=
  let id := e.(ce_effect_id) in
  or_release DispositionStore id owner (lift (err_if (invalid_effect policy e c) DispositionInvalidCase));;
  takeover ← if String.eqb e.(ce_effect_type) "RECORD_TAKEOVER"
             then or_release DispositionStore id owner (query (fun s => early_ready_takeover s c)) else mret None;
  if is_some takeover && negb authorization_valid
  then release DispositionStore id owner;; mret DispositionAuthorizationBlocked else
  if one_of LOCAL_EFFECTS e.(ce_effect_type) && is_none takeover
  then transact (fun s => map_err DispositionStore (complete_effect_evidence id owner now (completion_evidence e c) s));;
       mret (Recorded id e.(ce_effect_type)) else
  actor ← lift (ok_or (gc_automation_actor_id (po_github policy)) DispositionMissingActor);
  if String.eqb e.(ce_effect_type) "NOTIFY_SHADOW_READY" then notify_ready policy now owner e c actor else
  match takeover with
  | Some number => publish_notice policy now owner e actor number takeover_body None
  | None =>
      '(target, body) ← if one_of INFORMATIONAL_EFFECTS e.(ce_effect_type)
                        then or_release DispositionStore id owner (query (fun s => human_notice s policy c))
                        else lift (disposition_comment c e.(ce_effect_type));
      publish_notice policy now owner e actor target body None
  end.

Definition consume_disposition_once (scope : RepositoryScope) (now : Z) (owner : string) (lease_seconds : Z)
  (authorization_valid : bool) : Cycle DispositionError DispositionCycle :=
  let policy := rs_policy scope in
  let allowed := LOCAL_EFFECTS ++ INFORMATIONAL_EFFECTS ++ (if authorization_valid then COMMENT_EFFECTS else []) in
  claimed ← claim DispositionStore scope owner now lease_seconds allowed;
  match claimed with
  | None => mret (if authorization_valid then DispositionIdle else DispositionAuthorizationBlocked)
  | Some effect =>
      c ← claimed_case DispositionInvalidCase effect.(ce_case_key);
      consume_claimed policy now owner authorization_valid effect c
  end.
End ready.

(** ** What a disposition may send *)

Section laws.
Context `{Codec} {source : IntakeSource} {pulls : PullRequestSource} {threads_source : ReviewThreadSource}
  {writer : DispositionWriter}.

(** The comment and the resolution of an assessed thread. *)
Definition thread_requests (s : Store) (c : StoredCase) (effect_id head : string) (ready : PullRequestReadySpec)
  (t : ReviewThreadSnapshot) : list Request :=
  match assessed_thread_dispositions s c t, hd_error t.(th_comments) with
  | Ok (Some dispositions), Some first =>
      [EnsureComment (thread_comment ready effect_id t.(th_id) (thread_body first.(tc_url) head dispositions));
       ResolveThread (resolution_spec ready effect_id t.(th_id)) t]
  | _, _ => []
  end.

Lemma resolve_sends c id head number ready u t w r w' :
  resolve_assessed c id head number ready u t w = (r, w') ->
  w_db w' = w_db w /\ exists sent, emits w w' sent
    /\ match r with Ok _ => sent = thread_requests (w_store w) c id head ready t
       | Err _ => sent `prefix_of` thread_requests (w_store w) c id head ready t end.
Proof.
  intros Hr. unfold resolve_assessed in Hr. unfold thread_requests. rewrite query_run in Hr.
  destruct (assessed_thread_dispositions _ _ _) as [[d|]|]; simpl in Hr.
  2,3: (injection Hr as <- <-; split; [done|]; exists []; split; [apply emits_refl|apply prefix_nil]).
  rewrite lift_run in Hr. simpl in Hr. rewrite lift_run in Hr. destruct (hd_error _) as [first|]; simpl in Hr.
  2: (injection Hr as <- <-; split; [done|]; exists []; split; [apply emits_refl|apply prefix_nil]).
  rewrite send_run, lift_run in Hr. destruct (ensure_comment _); simpl in Hr.
  2: { injection Hr as <- <-. split; [done|]. eexists. split; [apply emits_send|]. by eexists [_]. }
  rewrite send_run, lift_run in Hr.
  set (w2 := {| w_db := _; w_log := _ |}) in Hr. assert (w_db w2 = w_db w) as Hdb by done.
  pose proof (emits_trans _ _ _ _ _ (emits_send w _) (emits_send _ _) : emits w w2 _) as He.
  destruct (resolve_thread _ _); simpl in Hr; [rewrite lift_run in Hr; destruct (ok_or _ _)|]; injection Hr as <- <-.
  all: split; [done|]; eexists; split; [exact He|done].
Qed.

Lemma resolve_all_sends c id head number ready l : forall w r w',
  fold_cycle (resolve_assessed c id head number ready) () l w = (r, w') ->
  w_db w' = w_db w /\ exists sent, emits w w' sent
    /\ match r with Ok _ => sent = l ≫= thread_requests (w_store w) c id head ready
       | Err _ => sent `prefix_of` (l ≫= thread_requests (w_store w) c id head ready) end.
Proof.
  induction l as [|t l IH]; intros w r w' Hr; simpl in Hr.
  { injection Hr as <- <-. split; [done|]. exists []. split; [apply emits_refl|done]. }
  apply bind_inv in Hr as [([] & w1 & Ht & Hr)|(e & Ht & ->)]; apply resolve_sends in Ht as (Hdb & sent & He & Hs).
  - apply IH in Hr as (Hdb' & sent' & He' & Hs'). split; [congruence|]. exists (sent ++ sent').
    split; [by eapply emits_trans|]. unfold w_store in *. rewrite Hdb in Hs'. subst. destruct r; simpl; [by subst|].
    by apply prefix_app.
  - split; [done|]. exists sent. split; [done|]. by apply prefix_app_r.
Qed.

Definition ready_requests (s : Store) (c : StoredCase) (id head : string) (ready : PullRequestReadySpec)
  (threads : list ReviewThreadSnapshot) : list Request :=
  (open_threads threads ≫= thread_requests s c id head ready) ++ [MarkReady ready].

(** The evidence was complete before the first request; what was sent is the start of the
    threads' requests and the mark, and all of them on success. *)
Lemma publish_ready_sends policy c id w r w' :
  publish_ready policy c id w = (r, w') ->
  w_db w' = w_db w /\ ((emits w w' [] /\ exists e, r = Err e)
    \/ exists number head pull threads actor sent,
      let ready := ready_spec policy id number actor pull.(pe_pull).(pr_head_branch) head in
      ready_evidence policy c (w_store w) = Ok (number, head, pull, threads)
      /\ gc_automation_actor_id (po_github policy) = Some actor /\ emits w w' sent
      /\ match r with Ok _ => sent = ready_requests (w_store w) c id head ready threads
         | Err _ => sent `prefix_of` ready_requests (w_store w) c id head ready threads end).
Proof.
  intros Hr. unfold publish_ready in Hr. rewrite query_run in Hr.
  destruct (ready_evidence _ _ _) as [[[[number head] pull] threads]|] eqn:Hre; cbn beta iota in Hr.
  2: { injection Hr as <- <-. split; [done|]. left. split; [apply emits_refl|eauto]. }
  rewrite lift_run in Hr. destruct (gc_automation_actor_id _) as [actor|]; simpl in Hr.
  2: { injection Hr as <- <-. split; [done|]. left. split; [apply emits_refl|eauto]. }
  set (ready := ready_spec _ _ _ _ _ _) in *. unfold ready_requests.
  apply bind_inv in Hr as [([] & w1 & Hf & Hr)|(e & Hf & ->)]; apply resolve_all_sends in Hf as (Hdb & sent & He & Hs).
  2: { split; [done|]. right. exists number, head, pull, threads, actor, sent. split_and!; [done..|]. by apply prefix_app_r. }
  rewrite send_run in Hr. set (w2 := {| w_db := _; w_log := _ |}) in Hr. assert (w_db w2 = w_db w) as Hdb2 by done.
  assert (emits w w2 (sent ++ [MarkReady ready])) as He2 by (eapply emits_trans; [done|apply emits_send]).
  assert (w' = w2) as ->.
  { rewrite lift_run in Hr. destruct (mark_ready ready); simpl in Hr; [rewrite lift_run in Hr; destruct (ok_or _ _)|]; by injection Hr. }
  split; [done|]. right. exists number, head, pull, threads, actor, (sent ++ [MarkReady ready]).
  split_and!; [done..|]. subst. destruct r; done.
Qed.

Lemma notice_sends policy now owner e actor target body readiness w r w' :
  publish_notice policy now owner e actor target body readiness w = (r, w') ->
  emits w w' [EnsureComment (notice_spec policy e actor target body)].
Proof.
  intros Hr. unfold publish_notice in Hr. rewrite send_run in Hr. set (spec := notice_spec _ _ _ _ _) in *.
  set (w2 := {| w_db := _; w_log := _ |}) in Hr. pose proof (emits_send w (EnsureComment spec) : emits w w2 _) as He.
  apply or_release_inv in Hr as [(? & ? & [= _ <-] & Hr)|(? & ? & ? & [= _ <-] & _ & Hs)]; [|by eapply emits_still_r].
  apply or_release_inv in Hr as [([] & ? & [= _ <-] & Hr)|(? & ? & ? & [= _ <-] & _ & Hs)]; [|by eapply emits_still_r].
  apply bind_inv in Hr as [(? & w3 & Ht & Hr)|(? & Ht & _)]; apply evidence_still in Ht; [injection Hr as <- <-|]; by eapply emits_still_r.
Qed.

(** What the case and GitHub showed when readiness was published, and what was sent. *)
Definition readied (policy : RepositoryPolicy) (c : StoredCase) (id : string) (s : Store) (sent : list Request) : Prop :=
  exists number head pull threads actor notice,
    let ready := ready_spec policy id number actor pull.(pe_pull).(pr_head_branch) head in
    ready_evidence policy c s = Ok (number, head, pull, threads)
    /\ gc_automation_actor_id (po_github policy) = Some actor
    /\ sent `prefix_of` ready_requests s c id head ready threads ++ [EnsureComment notice].

Lemma readiness_sends policy owner e c w r w' :
  readiness_step policy owner e c w = (r, w') ->
  (emits w w' [] /\ forall v, r <> Ok (inl v))
  \/ exists number head pull threads actor sent,
      let ready := ready_spec policy (ce_effect_id e) number actor pull.(pe_pull).(pr_head_branch) head in
      ready_evidence policy c (w_store w) = Ok (number, head, pull, threads)
      /\ gc_automation_actor_id (po_github policy) = Some actor /\ emits w w' sent
      /\ match r with Ok (inl _) => sent = ready_requests (w_store w) c (ce_effect_id e) head ready threads
         | _ => sent `prefix_of` ready_requests (w_store w) c (ce_effect_id e) head ready threads end.
Proof.
  intros Hr. unfold readiness_step in Hr. destruct (publish_ready _ _ _ w) as [r1 w1] eqn:Hp.
  apply publish_ready_sends in Hp as (_ & Hp). destruct r1 as [v|err].
  { injection Hr as <- <-. right. destruct Hp as [(_ & ? & [=])|?]. done. }
  assert (still w1 w' /\ forall v, r <> Ok (inl v)) as [Hs Hv].
  { split; [destruct err; (eapply release_end; [|exact Hr]; by intros ? ? ? [= _ <-])|].
    intros v ->. destruct err; unfold mbind, cycle_bind in Hr; destruct (release _ _ _ w1) as [[]]; discriminate Hr. }
  destruct Hp as [(He & _)|(number & head & pull & threads & actor & sent & Hre & Ha & He & Hsent)]; [left|right].
  - split; [by eapply emits_still_r|done].
  - exists number, head, pull, threads, actor, sent. split_and!; [done..|by eapply emits_still_r|].
    destruct r as [[v|]|]; try done. by destruct (Hv v).
Qed.

Lemma notify_sends policy now owner e c actor w r w' :
  notify_ready policy now owner e c actor w = (r, w') ->
  exists sent, emits w w' sent /\ (sent = [] \/ readied policy c e.(ce_effect_id) (w_store w) sent).
Proof.
  intros Hr. unfold notify_ready in Hr.
  apply bind_inv in Hr as [(readiness & w1 & Hs & Hr)|(? & Hs & ->)]; apply readiness_sends in Hs
    as [[He Hv]|(number & head & pull & threads & actor' & sent & Hre & Ha & He & Hsent)].
  - destruct readiness as [v|]; [by destruct (Hv v)|]. injection Hr as <- <-. exists []. auto.
  - destruct readiness as [v|].
    2: { injection Hr as <- <-. exists sent. split; [done|right]. exists number, head, pull, threads, actor', (notice_spec policy e actor 0 "").
         split_and!; [done..|]. by apply prefix_app_r. }
    rewrite lift_run in Hr. destruct (disposition_comment _ _) as [[target body]|]; cbn beta iota in Hr.
    2: { injection Hr as <- <-. exists sent. split; [done|right]. exists number, head, pull, threads, actor', (notice_spec policy e actor 0 "").
         split_and!; [done..|]. subst. by apply prefix_app_r. }
    apply notice_sends in Hr. eexists. split; [by eapply emits_trans|]. right.
    exists number, head, pull, threads, actor', (notice_spec policy e actor target body). split_and!; [done..|]. by subst.
  - exists []. auto.
  - exists sent. split; [done|right]. exists number, head, pull, threads, actor', (notice_spec policy e actor 0 "").
    split_and!; [done..|]. by apply prefix_app_r.
Qed.

(** One comment at most, or the requests of a ready case. *)
Definition disposed (policy : RepositoryPolicy) (e : ClaimedEffect) (c : StoredCase) (w w' : World) : Prop :=
  exists sent, emits w w' sent
    /\ ((exists spec, sent `prefix_of` [EnsureComment spec])
        \/ (invalid_effect policy e c = false /\ e.(ce_effect_type) = "NOTIFY_SHADOW_READY"%string
            /\ readied policy c e.(ce_effect_id) (w_store w) sent)).

Lemma disposed_still policy e c w w' : still w w' -> disposed policy e c w w'.
Proof. intros Hs. exists []. split; [by apply emits_still|]. left. exists (notice_spec policy e 0 0 ""). apply prefix_nil. Qed.
Lemma disposed_notice policy now owner e c actor target body readiness w r w' :
  publish_notice policy now owner e actor target body readiness w = (r, w') -> disposed policy e c w w'.
Proof. intros Hr%notice_sends. eexists. split; [exact Hr|]. left. by eexists. Qed.

Lemma consume_sends policy now owner valid e c w r w' :
  consume_claimed policy now owner valid e c w = (r, w') -> disposed policy e c w w'.
Proof.
  intros Hr. unfold consume_claimed in Hr.
  apply or_release_inv in Hr as [(? & ? & [= Hg <-] & Hr)|(? & ? & ? & [= _ <-] & _ & Hs)]; [|by apply disposed_still].
  apply err_if_ok in Hg. set (k := fun takeover : option Z => _) in Hr.
  assert (still w w' \/ exists takeover, k takeover w = (r, w')) as [Hs|[takeover Hk]]; [|by apply disposed_still|].
  { destruct (String.eqb _ _) in Hr; [|by rewrite ret_run in Hr; eauto].
    apply or_release_inv in Hr as [(? & ? & [= _ <-] & Hr)|(? & ? & ? & [= _ <-] & _ & Hs)]; eauto. }
  clear Hr. unfold k in Hk. clear k. destruct (_ && negb valid).
  { apply disposed_still. eapply release_end; [|exact Hk]. by intros ? ? ? [= _ <-]. }
  destruct (_ && is_none _).
  { apply disposed_still. apply bind_inv in Hk as [(? & w1 & Ht & Hk)|(? & Ht & _)]; apply evidence_still in Ht; [by injection Hk as <- <-|done]. }
  rewrite lift_run in Hk. destruct (gc_automation_actor_id _) as [actor|]; simpl in Hk; [|injection Hk as <- <-; by apply disposed_still].
  destruct (String.eqb_spec (ce_effect_type e) "NOTIFY_SHADOW_READY") as [Hty|_].
  { apply notify_sends in Hk as (sent & He & Hrd). exists sent. split; [done|].
    destruct Hrd as [->|Hrd]; [left; exists (notice_spec policy e 0 0 ""); apply prefix_nil|by right]. }
  destruct takeover as [number|]; [by eapply disposed_notice|]. set (k := fun '(target, body) => _) in Hk.
  assert (still w w' \/ exists x, k x w = (r, w')) as [Hs|[[target body] Hn]]; [|by apply disposed_still|by eapply disposed_notice].
  destruct (one_of _ _) in Hk.
  - apply or_release_inv in Hk as [(? & ? & [= _ <-] & Hk)|(? & ? & ? & [= _ <-] & _ & Hs)]; eauto.
  - rewrite lift_run in Hk. destruct (disposition_comment _ _); [eauto|]. by injection Hk as <- <-; left.
Qed.

Lemma claim_type {E} (err : StoreError -> E) scope owner now lease types w e w' :
  claim err scope owner now lease types w = (Ok (Some e), w') -> e.(ce_effect_type) ∈ types.
Proof.
  unfold claim, transact. destruct (map_err _ _) as [[a s]|] eqn:Hc; [|done]. intros [= -> _].
  apply map_err_ok in Hc. unfold scope_claim, claim_repository_case_effect_matching, claim_effect_inner in Hc.
  do 6 (apply bind_ok in Hc as (? & _ & Hc)). destruct (List.find _ _) as [o|] eqn:Hf; [|by inv_ok].
  apply find_some in Hf as [_ Ht]. unfold one_of in Ht. apply bool_decide_eq_true in Ht.
  inv_store. match goal with Hx : (if negb ?b then _ else _) = _ |- _ => destruct b end; by inv_store.
Qed.

(** *** What has to hold *)

Record offered (policy : RepositoryPolicy) (c : StoredCase) (number : Z) (head : string) (pull : PullRequestEvidence)
  (threads : list ReviewThreadSnapshot) (s : Store) : Prop := {
  of_state : c.(sc_state) = "SHADOW_READY"%string;
  of_binding : c.(sc_pr_number) = Some number /\ c.(sc_head_sha) = Some head;
  of_result : exists h run f, immutable_history_for_case c.(sc_case_key) s = Ok h /\ last_final_run h = Some run
    /\ Contracts.decode run.(sr_payload) = Some (FinalR f) /\ f.(fi_outcome) = FinalOutcome.Ready
    /\ f.(fi_plan_version) = c.(sc_plan_version) /\ f.(fi_pr_number) = number /\ f.(fi_reviewed_head_sha) = head;
  of_issue : exists issue, still_authorized policy c issue
    /\ intake (rid_owner (po_repository policy)) (rid_name (po_repository policy)) c.(sc_issue_number) = Ok issue;
  of_pull : let r := po_repository policy in pull_request (rid_owner r) (rid_name r) (rid_id r) number = Ok pull;
  of_threads : let r := po_repository policy in review_threads (rid_owner r) (rid_name r) (rid_id r) number = Ok threads;
  of_gate : gate_open s c policy pull threads None;
}.

Lemma ready_evidence_offered policy c s number head pull threads :
  evidence_unique -> ready_evidence policy c s = Ok (number, head, pull, threads) -> offered policy c number head pull threads s.
Proof.
  intros Hu Hr. unfold ready_evidence in Hr. open_ok. texts. simplify_eq.
  rename select (final_gate_blockers _ _ _ _ _ _ = _) into Hg. rename select (ready_result _ _ _ _ _ = _) into Hf.
  rename select (pull_request _ _ _ _ = _) into Hp. destruct (Hu _ _ _ _ _ Hp) as [Hids Hrv].
  unfold ready_result in Hf. rename select WorkerResult into found. destruct found as [| | |f]; try discriminate. texts. split; try done.
  - eexists _, _, f. split_and!; done.
  - eexists. split; [by apply fresh_is|done].
  - by apply (final_gate_nil _ _ _ _ _ _ _ Hids Hrv Hg).
Qed.

(** C14: A pull request is offered only behind an open gate.  Whatever a disposition answers, it
    changes no case, and it sent at most one comment, unless the repository's authorization was valid
    and the case was [SHADOW_READY]: then the last final review in its ledger is [READY] for its exact
    plan, pull request and head, its issue is still authorized, and the gate is open on what GitHub
    showed.  Its requests are, in this order and cut at the first failure, for every
    open thread the comment with its assessment and its resolution, then the mark that the pull
    request is ready at that head, then the notice. *)
Theorem ready_requests_behind_gate (scope : RepositoryScope) (now lease : Z) (owner : string) (valid : bool) (w w' : World)
  (r : result DispositionError DispositionCycle) (Hunique : evidence_unique)
  (Hrun : consume_disposition_once scope now owner lease valid w = (r, w')) :
  (forall k, query_case (w_store w') k = query_case (w_store w) k)
  /\ exists sent, w'.(w_log) = w.(w_log) ++ sent
    /\ ((exists spec, sent `prefix_of` [EnsureComment spec])
        \/ (valid = true /\ exists c id number head pull threads actor notice s1,
              query_case (w_store w) c.(sc_case_key) = Some c /\ c.(sc_policy_revision) = po_revision (rs_policy scope)
              /\ quiet (w_store w) s1 /\ offered (rs_policy scope) c number head pull threads s1
              /\ gc_automation_actor_id (po_github (rs_policy scope)) = Some actor
              /\ sent `prefix_of` ready_requests s1 c id head
                   (ready_spec (rs_policy scope) id number actor pull.(pe_pull).(pr_head_branch) head) threads
                 ++ [EnsureComment notice])).
Proof.
  unfold consume_disposition_once in Hrun.
  apply claimed_inv in Hrun as [Hs|(e & c & w1 & Hcl & Hs & Hq & Hq0 & Hk)].
  { split; [intros k; by apply still_query|]. exists []. split; [apply (emits_still _ _ Hs)|]. left.
    exists (notice_spec (rs_policy scope) (Build_ClaimedEffect "" "" 0 "" Null "" 0) 0 0 ""). apply prefix_nil. }
  apply consume_sends in Hk as (sent & He & Hd). destruct (emits_still_l _ _ _ _ Hs He) as [Hqu Hlog].
  split; [intros k; by apply quiet_query|]. exists sent. split; [done|].
  destruct Hd as [?|(Hinv & Hty & number & head & pull & threads & actor & notice & Hre & Hact & Hpre)]; [by left|right].
  split.
  { apply claim_type in Hcl. rewrite Hty in Hcl. destruct valid; [done|]. apply (bool_decide_eq_true_2 _) in Hcl. discriminate Hcl. }
  exists c, (ce_effect_id e), number, head, pull, threads, actor, notice, (w_store w1). unfold invalid_effect in Hinv.
  rewrite Hty in Hinv. bools. split_and!; try done.
  - rename select (_ && _ = false) into Ha. apply andb_false_iff in Ha as [Ha|Ha]; bools; done.
  - apply Hs.
  - by apply ready_evidence_offered.
Qed.

(** *** Soundness *)

Lemma readiness_sound policy owner e c : Sound (readiness_step policy owner e c).
Proof.
  intros w r w' Hr. unfold readiness_step in Hr. destruct (publish_ready _ _ _ w) as [r1 w1] eqn:Hp.
  apply publish_ready_sends in Hp as [Hdb _]. unfold w_store. rewrite <-Hdb. change (rtc system_step (w_store w1) (w_store w')).
  destruct r1 as [v|err]; [by injection Hr as <- <-|].
  assert (forall (k : Cycle DispositionError (Value + list string)), Sound k ->
            Sound (release DispositionStore (ce_effect_id e) owner;; k)) as Hk by (intros; sound_claimed; assumption).
  destruct err; (eapply Hk; [|exact Hr]); sound_claimed.
Qed.

Lemma notice_sound policy now owner e actor target body readiness :
  Sound (publish_notice policy now owner e actor target body readiness).
Proof. unfold publish_notice. sound_claimed. Qed.

Lemma disposition_sound scope now owner lease valid : Sound (consume_disposition_once scope now owner lease valid).
Proof.
  unfold consume_disposition_once, consume_claimed, notify_ready.
  sound_claimed; auto using readiness_sound, notice_sound.
Qed.
End laws.

(** ** A case that is offered *)

Definition demo_verdict : WorkerResult := FinalR {|
  fi_common := demo_common "final-1" FinalReviewer; fi_outcome := FinalOutcome.Ready; fi_plan_version := 1;
  fi_final_review_round := 1; fi_pr_number := 7; fi_reviewed_head_sha := demo_head; fi_residual_uncertainties := [];
  fi_decision_rationale := "reviewed" |}.
Definition demo_offered : Store := default empty_store
  (demo_worked [(Ev.FinalPreflightAccepted, None); (Ev.Ready, Some ("final-1"%string, FinalReviewer, demo_verdict))] demo_final).
Definition demo_disposition_writer : DispositionWriter := {|
  ensure_comment spec := Ok (Mutation.Created 99); mark_ready spec := Ok (Mutation.Updated 7);
  resolve_thread spec t := Ok (Mutation.Updated 7) |}.
Definition demo_disposed : World :=
  (consume_disposition_once (H := demo_codec) (source := demo_intake_source true) (pulls := demo_pull_source)
     (threads_source := demo_no_threads) (writer := demo_disposition_writer) demo_scope 200 "w" 60 true
     (demo_world demo_offered)).2.

Lemma ready_requests_behind_gate_witness :
  length (w_log demo_disposed) = 2%nat
  /\ exists c number head pull threads s1, query_case demo_offered c.(sc_case_key) = Some c
    /\ offered (H := demo_codec) (source := demo_intake_source true) (pulls := demo_pull_source)
         (threads_source := demo_no_threads) (demo_policy 1 1000) c number head pull threads s1.
Proof.
  assert (length (w_log demo_disposed) = 2%nat) as Hlen by (vm_compute; reflexivity). split; [exact Hlen|].
  destruct (consume_disposition_once (H := demo_codec) (source := demo_intake_source true) (pulls := demo_pull_source)
     (threads_source := demo_no_threads) (writer := demo_disposition_writer) demo_scope 200 "w" 60 true
     (demo_world demo_offered)) as [r w'] eqn:Hrun.
  assert (w' = demo_disposed) as -> by (unfold demo_disposed; by rewrite Hrun).
  destruct (ready_requests_behind_gate (H := demo_codec) (source := demo_intake_source true) (pulls := demo_pull_source)
     (threads_source := demo_no_threads) (writer := demo_disposition_writer) demo_scope 200 60 "w" true
     (demo_world demo_offered) demo_disposed r) as (_ & sent & Hlog & Hsent); [|exact Hrun|].
  - intros o rp id number e [= <-]. exact demo_approved_unique.
  - assert (sent = w_log demo_disposed) as -> by exact (eq_sym Hlog). destruct Hsent as [[spec Hpre]|(_ & Ho)].
    + apply prefix_length in Hpre. rewrite Hlen in Hpre. simpl in Hpre. lia.
    + destruct Ho as (c & id & number & head & pull & threads & actor & notice & s1 & Hq & _ & _ & Ho & _).
      exists c, number, head, pull, threads, s1. split; [exact Hq|exact Ho].
Defined.
