(* ===== verification/Writer.v ===== *)
(** * Writer: idempotent writes to GitHub

    [GitHubWriter] of crates/pip-github/src/write.rs over a [MutationTransport].  A
    write first looks for the object that carries the effect's marker: it is created at most
    once, an object that someone else owns or that differs is refused, and every answer is
    checked against the exact identity that was asked for.

    The transport answers from the state of GitHub and changes it; a [MalformedJson] stands for
    the parser's message, and a struct is read from a JSON object. *)

From stdpp Require Import relations.
From S2P Require Import Prelude Text Parse Json Serde Sql RolePolicy Policy GitHub World Takeover.
From Stdlib Require Import Ascii.
Open Scope Z_scope.

(** ** The transport *)

Record MutationRequest := {
  mr_method : string; mr_url : string; mr_headers : list (string * string); mr_body : string; mr_max_bytes : Z;
}.
Record ReadResponse := { rr_status : Z; rr_headers : list (string * string); rr_body : string }.

Class MutationTransport (S : Type) := transport_send : MutationRequest -> S -> result GitHubError ReadResponse * S.

(** A call keeps what GitHub did before it failed. *)
Definition Call (S A : Type) : Type := S -> result GitHubError A * S.
#[export] Instance call_ret {S} : MRet (Call S) := fun A a g => (Ok a, g).
#[export] Instance call_bind {S} : MBind (Call S) := fun A B f m g =>
  match m g with (Ok a, g') => f a g' | (Err e, g') => (Err e, g') end.
Definition answer {S A} (r : result GitHubError A) : Call S A := fun g => (r, g).

(** ** Responses *)

Record CommentDto := { cd_id : Z; cd_user : Z; cd_body : string; cd_html_url : string }.
Record PullRequestDto := {
  pd_id : Z; pd_node_id : string; pd_number : Z; pd_state : string; pd_draft : bool; pd_title : string;
  pd_body : option string; pd_html_url : string; pd_user : Z; pd_head_ref : string; pd_head_sha : string;
  pd_head_repo : option Z; pd_base_ref : string;
}.
Record ReviewDto := {
  rt_id : Z; rt_user : Z; rt_body : option string; rt_state : string; rt_commit_id : string; rt_html_url : string;
}.
(** The pull request a GraphQL mutation reports. *)
Record ReadyGraphQl := { rg_id : string; rg_is_draft : bool }.

Definition de_user (v : Value) : option Z := m ← as_object v; field m "id" de_u64.
Definition de_comment (v : Value) : option CommentDto :=
  m ← as_object v;
  i ← field m "id" de_u64;
  u ← field m "user" de_user;
  b ← field m "body" as_str;
  h ← field m "html_url" as_str;
  Some {| cd_id := i; cd_user := u; cd_body := b; cd_html_url := h |}.
Definition de_head (v : Value) : option (string * string * option Z) :=
  m ← as_object v;
  r ← field m "ref" as_str;
  s ← field m "sha" as_str;
  p ← option_field m "repo" de_user;
  Some (r, s, p).
Definition de_base (v : Value) : option string := m ← as_object v; field m "ref" as_str.
Definition de_pull_request (v : Value) : option PullRequestDto :=
  m ← as_object v;
  i ← field m "id" de_u64;
  n ← match map_get "node_id" m with None => Some ""%string | Some v => as_str v end;
  k ← field m "number" de_u64;
  s ← field m "state" as_str;
  d ← field m "draft" as_bool;
  t ← field m "title" as_str;
  b ← option_field m "body" as_str;
  h ← field m "html_url" as_str;
  u ← field m "user" de_user;
  e ← field m "head" de_head;
  a ← field m "base" de_base;
  let '(hr, hs, hp) := e in
  Some {| pd_id := i; pd_node_id := n; pd_number := k; pd_state := s; pd_draft := d; pd_title := t; pd_body := b;
          pd_html_url := h; pd_user := u; pd_head_ref := hr; pd_head_sha := hs; pd_head_repo := hp; pd_base_ref := a |}.
Definition de_review (v : Value) : option ReviewDto :=
  m ← as_object v;
  i ← field m "id" de_u64;
  u ← field m "user" de_user;
  b ← option_field m "body" as_str;
  s ← field m "state" as_str;
  c ← field m "commit_id" as_str;
  h ← field m "html_url" as_str;
  Some {| rt_id := i; rt_user := u; rt_body := b; rt_state := s; rt_commit_id := c; rt_html_url := h |}.

Definition de_ready_pull (v : Value) : option ReadyGraphQl :=
  m ← as_object v;
  i ← field m "id" as_str;
  d ← field m "isDraft" as_bool;
  Some {| rg_id := i; rg_is_draft := d |}.
(** The field has an alias; both at once are a duplicate. *)
Definition de_ready_data (v : Value) : option ReadyGraphQl :=
  m ← as_object v;
  payload ← match map_get "markPullRequestReadyForReview" m, map_get "convertPullRequestToDraft" m with
            | Some v, None | None, Some v => Some v
            | _, _ => None
            end;
  p ← as_object payload;
  field p "pullRequest" de_ready_pull.
Definition de_ready (v : Value) : option (option ReadyGraphQl * list Value) :=
  m ← as_object v;
  d ← option_field m "data" de_ready_data;
  e ← match map_get "errors" m with None => Some [] | Some v => as_array v end;
  Some (d, e).

Definition de_author (v : Value) : option ReviewCommentAuthor :=
  m ← as_object v; k ← field m "__typename" as_str; Some {| au_kind := k |}.
Definition de_thread_comment (v : Value) : option ReviewThreadComment :=
  m ← as_object v;
  i ← field m "id" as_str;
  b ← field m "body" as_str;
  u ← field m "updatedAt" as_str;
  l ← field m "url" as_str;
  a ← option_field m "author" de_author;
  Some {| tc_id := i; tc_body := b; tc_updated_at := u; tc_url := l; tc_author := a |}.
#[export] Instance review_comment_author_eq_dec : EqDecision ReviewCommentAuthor.
Proof. solve_decision. Defined.
#[export] Instance thread_comment_eq_dec : EqDecision ReviewThreadComment.
Proof. solve_decision. Defined.

(** ** Validation *)

Definition segment_byte (b : Z) : bool := is_ascii_alphanumeric b || (b =? 45) || (b =? 95) || (b =? 46).
Definition valid_segment (value : string) : bool := negb (is_empty value) && forallb segment_byte (bytes value).
Definition valid_sha (value : string) : bool := (len value =? 40) && forallb is_lower_hex (bytes value).
Definition valid_git_ref (value : string) : bool :=
  negb (is_empty value) && (len value <=? 255) && negb (starts_with_char "/" value) && negb (ends_with_char "/" value)
  && negb (ends_with_char "." value) && negb (contains ".." value) && negb (contains "//" value) && negb (contains "@{" value)
  && forallb (fun b => segment_byte b || (b =? 47)) (bytes value).
Definition valid_effect_id (value : string) : bool :=
  negb (is_empty value) && (len value <=? 256)
  && forallb (fun b => segment_byte b || (b =? 58) || (b =? 35) || (b =? 64)) (bytes value).

Definition is_blank (s : string) : bool := is_empty (trim s).

Definition validate_comment (spec : CommentSpec) : result GitHubError () :=
  err_if (negb (valid_segment spec.(cs_owner)) || negb (valid_segment spec.(cs_repository)) || (spec.(cs_issue_number) =? 0)
          || (spec.(cs_expected_actor_id) =? 0) || negb (valid_effect_id spec.(cs_effect_id)) || is_blank spec.(cs_body)
          || (60000 <? len spec.(cs_body))) InvalidMutation.
Definition validate_comment_dto (c : CommentDto) : result GitHubError () :=
  err_if ((c.(cd_id) =? 0) || (c.(cd_user) =? 0) || is_blank c.(cd_body) || is_blank c.(cd_html_url)) InvalidIdentity.

Definition validate_pull_request (spec : PullRequestSpec) : result GitHubError () :=
  err_if (negb (valid_segment spec.(ps_owner)) || negb (valid_segment spec.(ps_repository)) || (spec.(ps_repository_id) =? 0)
          || (spec.(ps_expected_actor_id) =? 0) || negb (valid_effect_id spec.(ps_effect_id)) || is_blank spec.(ps_title)
          || (256 <? len spec.(ps_title)) || is_blank spec.(ps_body) || (60000 <? len spec.(ps_body))
          || negb (starts_with "pip/" spec.(ps_head_branch)) || negb (valid_git_ref spec.(ps_head_branch))
          || negb (valid_git_ref spec.(ps_base_branch)) || negb (valid_sha spec.(ps_head_sha))) InvalidMutation.
Definition validate_ready_spec (spec : PullRequestReadySpec) : result GitHubError () :=
  err_if (negb (valid_segment spec.(rd_owner)) || negb (valid_segment spec.(rd_repository)) || (spec.(rd_repository_id) =? 0)
          || (spec.(rd_pull_request_number) =? 0) || (spec.(rd_expected_actor_id) =? 0)
          || negb (valid_git_ref spec.(rd_expected_head_branch)) || negb (valid_sha spec.(rd_expected_head_sha))
          || negb (valid_git_ref spec.(rd_expected_base_branch)) || negb (valid_effect_id spec.(rd_client_mutation_id)))
    InvalidMutation.

Definition ready_identity (p : PullRequestDto) (spec : PullRequestReadySpec) : bool :=
  negb (p.(pd_id) =? 0) && (p.(pd_number) =? spec.(rd_pull_request_number)) && String.eqb p.(pd_state) "open"
  && (p.(pd_user) =? spec.(rd_expected_actor_id)) && String.eqb p.(pd_head_ref) spec.(rd_expected_head_branch)
  && String.eqb p.(pd_head_sha) spec.(rd_expected_head_sha)
  && bool_decide (p.(pd_head_repo) = Some spec.(rd_repository_id))
  && String.eqb p.(pd_base_ref) spec.(rd_expected_base_branch) && negb (is_blank p.(pd_html_url)).
Definition validate_ready_identity (p : PullRequestDto) (spec : PullRequestReadySpec) : result GitHubError () :=
  err_if (negb (ready_identity p spec)) OwnershipConflict.

Definition pull_request_identity (p : PullRequestDto) (spec : PullRequestSpec) : bool :=
  negb (p.(pd_id) =? 0) && negb (p.(pd_number) =? 0) && String.eqb p.(pd_state) "open" && p.(pd_draft)
  && (p.(pd_user) =? spec.(ps_expected_actor_id)) && String.eqb p.(pd_head_ref) spec.(ps_head_branch)
  && String.eqb p.(pd_head_sha) spec.(ps_head_sha) && bool_decide (p.(pd_head_repo) = Some spec.(ps_repository_id))
  && String.eqb p.(pd_base_ref) spec.(ps_base_branch) && negb (is_blank p.(pd_html_url)).
Definition validate_pull_request_identity (p : PullRequestDto) (spec : PullRequestSpec) : result GitHubError () :=
  err_if (negb (pull_request_identity p spec)) OwnershipConflict.
Definition validate_pull_request_content (p : PullRequestDto) (spec : PullRequestSpec) (full_body : string)
  : result GitHubError () :=
  err_if (negb (String.eqb p.(pd_title) spec.(ps_title) && bool_decide (p.(pd_body) = Some full_body))) GitHubIdempotencyConflict.

Definition validate_review (spec : ReviewMutationSpec) : result GitHubError () :=
  err_if (negb (valid_segment spec.(rm_owner)) || negb (valid_segment spec.(rm_repository))
          || (spec.(rm_pull_request_number) =? 0) || (spec.(rm_expected_actor_id) =? 0)
          || negb (valid_effect_id spec.(rm_effect_id)) || negb (valid_sha spec.(rm_expected_head_sha))
          || is_blank spec.(rm_body) || (60000 <? len spec.(rm_body))) InvalidMutation.
Definition validate_review_dto (r : ReviewDto) : result GitHubError () :=
  err_if ((r.(rt_id) =? 0) || (r.(rt_user) =? 0) || match r.(rt_body) with Some b => is_empty b | None => true end
          || negb (valid_sha r.(rt_commit_id)) || is_blank r.(rt_html_url)) InvalidIdentity.

(** ** Markers *)

Definition effect_prefix (effect_id : string) : string := "<!-- pip-control:v1 effect=" +:+ effect_id +:+ " ".
Definition marker_with_digest (effect_id digest : string) : string :=
  "<!-- pip-control:v1 effect=" +:+ effect_id +:+ " sha256=" +:+ digest +:+ " -->".

(** [usize::to_be_bytes] on a 64-bit host. *)
Definition be_bytes (n : Z) : string :=
  foldr String.append "" ((fun k => String (ascii_of_N (Z.to_N (Z.land (Z.shiftr n (8 * k)) 255))) "") <$> [7; 6; 5; 4; 3; 2; 1; 0]).

Definition hex_digit (n : Z) : ascii := ascii_of_N (Z.to_N (if n <? 10 then 48 + n else 55 + n)).
Definition encode_byte (a : ascii) : string :=
  let b := byte_of a in
  if is_ascii_alphanumeric b || (b =? 45) || (b =? 95) || (b =? 46) || (b =? 126) then String a ""
  else String "%" (String (hex_digit (Z.shiftr b 4)) (String (hex_digit (Z.land b 15)) "")).
Fixpoint percent_encode_query (value : string) : string :=
  match value with EmptyString => "" | String a s => encode_byte a +:+ percent_encode_query s end.

Definition request_value (e : ReviewEvent) : string :=
  match e with Approve => "APPROVE" | RequestChanges => "REQUEST_CHANGES" | Comment => "COMMENT" end.
Definition response_state (e : ReviewEvent) : string :=
  match e with Approve => "APPROVED" | RequestChanges => "CHANGES_REQUESTED" | Comment => "COMMENTED" end.

(** ** The writer *)

Record GitHubWriter := {
  gw_base_url : string; gw_token : string; gw_max_response_bytes : Z; gw_max_pages : Z;
}.

Definition new_writer (base_url token : string) (max_response_bytes max_pages : Z) : result GitHubError GitHubWriter :=
  let base_url := trim_end_char "/" base_url in
  err_if (negb (starts_with "https://" base_url) || is_blank token || (max_response_bytes =? 0) || (max_pages =? 0))
    InvalidConfiguration;;
  Ok {| gw_base_url := base_url; gw_token := token; gw_max_response_bytes := max_response_bytes; gw_max_pages := max_pages |}.

Definition quote : string := String "034" "".
Definition link_target (part : string) : option string :=
  if negb (contains ("rel=" +:+ quote +:+ "next" +:+ quote) part) then None else
  '(_, rest) ← find_char "<" part;
  '(target, _) ← find_char ">" rest;
  Some target.
Definition next_link (header : string) : option string :=
  match omap link_target (split_on "," header) with target :: _ => Some target | [] => None end.

Definition safe_path (w : GitHubWriter) (url : string) : result GitHubError string :=
  match strip_prefix w.(gw_base_url) url with
  | Some path => if starts_with "/" path then Ok path else if starts_with "/" url then Ok url else Err UnsafePaginationUrl
  | None => if starts_with "/" url then Ok url else Err UnsafePaginationUrl
  end.

Section writer.
Context `{Codec} {G : Type} {transport : MutationTransport G} (w : GitHubWriter).

Definition request (method path body : string) : Call G ReadResponse :=
  answer (err_if (negb (starts_with "/" path)) InvalidMutation);;
  response ← transport_send {|
    mr_method := method; mr_url := w.(gw_base_url) +:+ path;
    mr_headers := [("accept", "application/vnd.github+json"); ("authorization", "Bearer " +:+ w.(gw_token));
                   ("content-type", "application/json"); ("user-agent", "pip-control-plane");
                   ("x-github-api-version", "2022-11-28")]%string;
    mr_body := body; mr_max_bytes := w.(gw_max_response_bytes) |};
  answer (err_if (negb ((200 <=? response.(rr_status)) && (response.(rr_status) <? 300))) (HttpStatus response.(rr_status)));;
  answer (err_if (w.(gw_max_response_bytes) <? len response.(rr_body)) ResponseTooLarge);;
  mret response.

Definition malformed : GitHubError := MalformedJson "".
Definition parse_as {A} (de : Value -> option A) (text : string) : result GitHubError A :=
  ok_or (from_str text ≫= de) malformed.

Definition mutate_json {A} (de : Value -> option A) (method path : string) (body : Value) : Call G A :=
  response ← request method path (to_string body);
  answer (parse_as de response.(rr_body)).

(** The pages that are left to read. *)
Fixpoint pages {A} (de : Value -> option A) (n : nat) (path : string) (results : list A) : Call G (list A) :=
  match n with
  | O => answer (Err PaginationLimit)
  | S n =>
      response ← request "GET" path "";
      values ← answer (parse_as (de_vec de) response.(rr_body));
      let results := results ++ values in
      match (snd <$> List.find (fun h => String.eqb h.1 "link") response.(rr_headers)) ≫= next_link with
      | None => mret results
      | Some next => if bool_decide (n = 0%nat) then answer (Err PaginationLimit)
                     else path ← answer (safe_path w next); pages de n path results
      end
  end.
Definition get_pages {A} (de : Value -> option A) (first : string) : Call G (list A) :=
  pages de (Z.to_nat w.(gw_max_pages)) first [].

(** ** Comments *)

Definition marker (effect_id body : string) : string := marker_with_digest effect_id (hash_bytes body).
Definition newline : string := String "010" "".
Definition comment_body (spec : CommentSpec) : string := marker spec.(cs_effect_id) spec.(cs_body) +:+ newline +:+ spec.(cs_body).
Definition issue_root (spec : CommentSpec) : string :=
  "/repos/" +:+ spec.(cs_owner) +:+ "/" +:+ spec.(cs_repository) +:+ "/issues/" +:+ show spec.(cs_issue_number).
Definition owned_comment (spec : CommentSpec) (c : CommentDto) : bool := starts_with (effect_prefix spec.(cs_effect_id)) c.(cd_body).
Definition comments_path (spec : CommentSpec) : string := issue_root spec +:+ "/comments?per_page=100&page=1".

Definition create_comment (spec : CommentSpec) : Call G Mutation.t :=
  response ← mutate_json de_comment "POST" (issue_root spec +:+ "/comments") (json_object [("body", Str (comment_body spec))]);
  answer (validate_comment_dto response);;
  answer (err_if (negb (response.(cd_user) =? spec.(cs_expected_actor_id)) || negb (String.eqb response.(cd_body) (comment_body spec)))
            OwnershipConflict);;
  mret (Mutation.Created response.(cd_id)).

Definition ensure_issue_comment (spec : CommentSpec) : Call G Mutation.t :=
  answer (validate_comment spec);;
  comments ← get_pages de_comment (comments_path spec);
  match List.filter (owned_comment spec) comments with
  | [] => create_comment spec
  | [c] =>
      if negb (c.(cd_user) =? spec.(cs_expected_actor_id)) then answer (Err OwnershipConflict)
      else if String.eqb c.(cd_body) (comment_body spec)
      then answer (validate_comment_dto c);; mret (Mutation.Existing c.(cd_id))
      else answer (Err GitHubIdempotencyConflict)
  | _ => answer (Err DuplicateOwnership)
  end.

(** ** Pull requests *)

Definition digest_fields (fields : list string) : string :=
  hash_bytes (foldr String.append "" ((fun f => be_bytes (len f) +:+ f) <$> fields)).

Definition render_pull_request_body (spec : PullRequestSpec) : result GitHubError string :=
  validate_pull_request spec;;
  Ok (marker_with_digest spec.(ps_effect_id)
        (digest_fields [spec.(ps_title); spec.(ps_body); spec.(ps_head_branch); spec.(ps_head_sha); spec.(ps_base_branch)])
      +:+ newline +:+ spec.(ps_body)).
Definition owned_pull (spec : PullRequestSpec) (p : PullRequestDto) : bool :=
  match p.(pd_body) with Some body => starts_with (effect_prefix spec.(ps_effect_id)) body | None => false end.
Definition pulls_root (spec : PullRequestSpec) : string := "/repos/" +:+ spec.(ps_owner) +:+ "/" +:+ spec.(ps_repository) +:+ "/pulls".

Definition update_pull (spec : PullRequestSpec) (full_body : string) (p : PullRequestDto) : Call G Mutation.t :=
  response ← mutate_json de_pull_request "PATCH" (pulls_root spec +:+ "/" +:+ show p.(pd_number))
               (json_object [("title", Str spec.(ps_title)); ("body", Str full_body); ("base", Str spec.(ps_base_branch))]);
  answer (validate_pull_request_identity response spec);;
  answer (validate_pull_request_content response spec full_body);;
  mret (Mutation.Updated response.(pd_number)).
Definition create_pull (spec : PullRequestSpec) (full_body : string) : Call G Mutation.t :=
  response ← mutate_json de_pull_request "POST" (pulls_root spec)
               (json_object [("title", Str spec.(ps_title)); ("body", Str full_body); ("head", Str spec.(ps_head_branch));
                             ("base", Str spec.(ps_base_branch)); ("draft", Bool true); ("maintainer_can_modify", Bool false)]);
  answer (validate_pull_request_identity response spec);;
  answer (validate_pull_request_content response spec full_body);;
  mret (Mutation.Created response.(pd_number)).

Definition ensure_draft_pull_request (spec : PullRequestSpec) : Call G Mutation.t :=
  full_body ← answer (render_pull_request_body spec);
  let head := percent_encode_query (spec.(ps_owner) +:+ ":" +:+ spec.(ps_head_branch)) in
  found ← get_pages de_pull_request (pulls_root spec +:+ "?state=all&head=" +:+ head +:+ "&per_page=100&page=1");
  let owned := List.filter (owned_pull spec) found in
  answer (err_if (bool_decide (length owned < length found)%nat) OwnershipConflict);;
  match owned with
  | [] => create_pull spec full_body
  | [p] =>
      answer (validate_pull_request_identity p spec);;
      if String.eqb p.(pd_title) spec.(ps_title) && bool_decide (p.(pd_body) = Some full_body)
      then mret (Mutation.Existing p.(pd_number)) else update_pull spec full_body p
  | _ => answer (Err DuplicateOwnership)
  end.

(** ** Reviews *)

Definition render_review_body (spec : ReviewMutationSpec) : result GitHubError string :=
  validate_review spec;;
  Ok (marker_with_digest spec.(rm_effect_id)
        (digest_fields [show spec.(rm_pull_request_number); spec.(rm_expected_head_sha); request_value spec.(rm_event); spec.(rm_body)])
      +:+ newline +:+ spec.(rm_body)).
Definition owned_review (spec : ReviewMutationSpec) (r : ReviewDto) : bool :=
  match r.(rt_body) with Some body => starts_with (effect_prefix spec.(rm_effect_id)) body | None => false end.
Definition reviews_root (spec : ReviewMutationSpec) : string :=
  "/repos/" +:+ spec.(rm_owner) +:+ "/" +:+ spec.(rm_repository) +:+ "/pulls/" +:+ show spec.(rm_pull_request_number) +:+ "/reviews".
(** The review that was asked for, whoever gave it. *)
Definition exact_review (spec : ReviewMutationSpec) (full_body : string) (r : ReviewDto) : bool :=
  bool_decide (r.(rt_body) = Some full_body) && String.eqb r.(rt_state) (response_state spec.(rm_event))
  && String.eqb r.(rt_commit_id) spec.(rm_expected_head_sha).

Definition create_review (spec : ReviewMutationSpec) (full_body : string) : Call G Mutation.t :=
  response ← mutate_json de_review "POST" (reviews_root spec)
               (json_object [("commit_id", Str spec.(rm_expected_head_sha)); ("body", Str full_body);
                             ("event", Str (request_value spec.(rm_event)))]);
  answer (validate_review_dto response);;
  answer (err_if (negb (response.(rt_user) =? spec.(rm_expected_actor_id)) || negb (exact_review spec full_body response))
            OwnershipConflict);;
  mret (Mutation.Created response.(rt_id)).

Definition ensure_pull_request_review (spec : ReviewMutationSpec) : Call G Mutation.t :=
  full_body ← answer (render_review_body spec);
  found ← get_pages de_review (reviews_root spec +:+ "?per_page=100&page=1");
  match List.filter (owned_review spec) found with
  | [] => create_review spec full_body
  | [r] =>
      if negb (r.(rt_user) =? spec.(rm_expected_actor_id)) then answer (Err OwnershipConflict)
      else if exact_review spec full_body r then answer (validate_review_dto r);; mret (Mutation.Existing r.(rt_id))
      else answer (Err GitHubIdempotencyConflict)
  | _ => answer (Err DuplicateOwnership)
  end.

(** ** Readiness *)

Definition pull_root (spec : PullRequestReadySpec) : string :=
  "/repos/" +:+ spec.(rd_owner) +:+ "/" +:+ spec.(rd_repository) +:+ "/pulls/" +:+ show spec.(rd_pull_request_number).
Definition read_pull (spec : PullRequestReadySpec) : Call G PullRequestDto :=
  p ← mutate_json de_pull_request "GET" (pull_root spec) (json_object []);
  answer (validate_ready_identity p spec);;
  mret p.

Definition draft_query : string :=
  "mutation DraftPipFollowUp($input: ConvertPullRequestToDraftInput!) { convertPullRequestToDraft(input: $input) { pullRequest { id isDraft } } }".
Definition ready_query : string :=
  "mutation MarkPipPullRequestReady($input: MarkPullRequestReadyForReviewInput!) { markPullRequestReadyForReview(input: $input) { pullRequest { id isDraft } } }".

Definition set_pull_request_draft (spec : PullRequestReadySpec) (draft : bool) : Call G Mutation.t :=
  answer (validate_ready_spec spec);;
  before ← read_pull spec;
  if Bool.eqb before.(pd_draft) draft then mret (Mutation.Existing before.(pd_number)) else
  answer (err_if (is_blank before.(pd_node_id)) InvalidIdentity);;
  '(data, errors) ← mutate_json de_ready "POST" "/graphql"
    (json_object [("query", Str (if draft then draft_query else ready_query));
                  ("variables", json_object [("input", json_object [("pullRequestId", Str before.(pd_node_id));
                                                                    ("clientMutationId", Str spec.(rd_client_mutation_id))])])]);
  answer (err_if (negb (bool_decide (errors = []))) InvalidMutation);;
  updated ← answer (ok_or data InvalidIdentity);
  answer (err_if (negb (String.eqb updated.(rg_id) before.(pd_node_id)) || negb (Bool.eqb updated.(rg_is_draft) draft)) InvalidIdentity);;
  after ← read_pull spec;
  answer (err_if (negb (Bool.eqb after.(pd_draft) draft)) InvalidIdentity);;
  mret (Mutation.Updated after.(pd_number)).
Definition mark_pull_request_ready (spec : PullRequestReadySpec) : Call G Mutation.t := set_pull_request_draft spec false.
Definition mark_pull_request_draft (spec : PullRequestReadySpec) : Call G Mutation.t := set_pull_request_draft spec true.

(** ** Threads *)

Definition bot_author (c : ReviewThreadComment) : bool :=
  match c.(tc_author) with Some a => String.eqb a.(au_kind) "Bot" | None => false end.
Definition has_errors (v : Value) : bool :=
  match as_array (index v "errors") with Some errors => negb (bool_decide (errors = [])) | None => false end.
Definition thread_query : string :=
  "query PipThreadBeforeResolution($id:ID!){node(id:$id){... on PullRequestReviewThread{id isResolved path pullRequest{number headRefOid repository{databaseId}} comments(first:100){nodes{id body updatedAt url author{__typename}} pageInfo{hasNextPage}}}}}".
Definition resolve_query : string :=
  "mutation ResolvePipReviewThread($input:ResolveReviewThreadInput!){resolveReviewThread(input:$input){thread{id isResolved}}}".

(** The thread is exactly the snapshot that was assessed. *)
Definition same_thread (spec : PullRequestReadySpec) (t : ReviewThreadSnapshot) (snapshot : Value)
  (comments : list ReviewThreadComment) : bool :=
  let node := index (index snapshot "data") "node" in
  negb (has_errors snapshot) && eq_str (index node "id") t.(th_id) && eq_str (index node "path") t.(th_path)
  && eq_int (index (index node "pullRequest") "number") spec.(rd_pull_request_number)
  && eq_int (index (index (index node "pullRequest") "repository") "databaseId") spec.(rd_repository_id)
  && eq_str (index (index node "pullRequest") "headRefOid") spec.(rd_expected_head_sha)
  && bool_decide (index (index (index node "comments") "pageInfo") "hasNextPage" = Bool false)
  && bool_decide (comments = t.(th_comments)).

Definition resolve_bot_review_thread (spec : PullRequestReadySpec) (t : ReviewThreadSnapshot) : Call G Mutation.t :=
  answer (validate_ready_spec spec);;
  answer (err_if (is_blank t.(th_id) || bool_decide (t.(th_comments) = []) || negb (forallb bot_author t.(th_comments)))
            InvalidMutation);;
  read_pull spec;;
  snapshot ← mutate_json Some "POST" "/graphql"
    (json_object [("query", Str thread_query); ("variables", json_object [("id", Str t.(th_id))])]);
  let node := index (index snapshot "data") "node" in
  comments ← answer (ok_or (de_vec de_thread_comment (index (index node "comments") "nodes")) InvalidIdentity);
  answer (err_if (negb (same_thread spec t snapshot comments)) InvalidIdentity);;
  resolved ← answer (ok_or (as_bool (index node "isResolved")) InvalidIdentity);
  if (resolved : bool) then mret (Mutation.Existing spec.(rd_pull_request_number)) else
  result ← mutate_json Some "POST" "/graphql"
    (json_object [("query", Str resolve_query);
                  ("variables", json_object [("input", json_object [("threadId", Str t.(th_id));
                                                                    ("clientMutationId", Str spec.(rd_client_mutation_id))])])]);
  let thread := index (index (index result "data") "resolveReviewThread") "thread" in
  answer (err_if (has_errors result || negb (eq_str (index thread "id") t.(th_id))
                  || negb (bool_decide (index thread "isResolved" = Bool true))) InvalidMutation);;
  read_pull spec;;
  mret (Mutation.Updated spec.(rd_pull_request_number)).
End writer.

(** ** Exactly once

    Comments and reviews are looked up by their marker and created when there is none. *)

Section once.
Context {G D : Type} (items : G -> list D) (owned : D -> bool) (find : Call G (list D)) (create : Call G Mutation.t)
  (reuse : D -> result GitHubError Mutation.t).

Definition ensure_once : Call G Mutation.t :=
  found ← find;
  match List.filter owned found with
  | [] => create
  | [d] => answer (reuse d)
  | _ => answer (Err DuplicateOwnership)
  end.

(** The listing is complete, and a creation adds at most one item, also when its answer is lost. *)
Record once_laws (made : D -> Prop) : Prop := {
  on_find : forall g r g', find g = (r, g') -> items g' = items g /\ forall l, r = Ok l -> l = items g;
  on_create : forall g r g', create g = (r, g') ->
    (items g' = items g /\ exists e, r = Err e) \/ (exists d, items g' = items g ++ [d] /\ made d /\ owned d = true);
}.

Lemma once_step made g r g' :
  once_laws made -> ensure_once g = (r, g') ->
  let own g := List.filter owned (items g) in
  own g' = own g \/ (own g = [] /\ exists d, own g' = [d] /\ made d).
Proof.
  intros [Hf Hc] He own. unfold ensure_once, mbind, call_bind in He.
  destruct (find g) as [[l|e] g1] eqn:Hl; apply Hf in Hl as [Hi Hl]; [|injection He as <- <-; left; unfold own; by rewrite Hi].
  rewrite (Hl l eq_refl) in He. fold (own g) in He. destruct (own g) as [|d [|]] eqn:Ho.
  - apply Hc in He as [[Hi' _]|(d & Hi' & Hm & Hd)]; [left; rewrite <-Ho; unfold own; by rewrite Hi', Hi|right].
    split; [done|]. exists d. split; [|done]. unfold own. rewrite Hi', Hi, List.filter_app. change (List.filter owned (items g)) with (own g). rewrite Ho. simpl. by rewrite Hd.
  - injection He as _ <-. left. rewrite <-Ho. unfold own. by rewrite Hi.
  - injection He as _ <-. left. rewrite <-Ho. unfold own. by rewrite Hi.
Qed.
End once.

(** ** Comments *)

Lemma prefix_append p s : String.prefix p (p +:+ s) = true.
Proof. induction p as [|a p IH]; simpl; [by destruct s|]. destruct (ascii_dec a a) as [_|Hn]; [exact IH|congruence]. Qed.

Section comments.
Context `{Codec} {G : Type} {transport : MutationTransport G} (w : GitHubWriter) (spec : CommentSpec).
Context (comments : G -> list CommentDto).

(** GitHub's issue comments, as documented: the pages list them all, and a request to create
    one either does, whether or not its answer arrives, or does not. *)
Record comment_server : Prop := {
  sv_lists : forall g r g', get_pages w de_comment (comments_path spec) g = (r, g') ->
    comments g' = comments g /\ forall l, r = Ok l -> l = comments g;
  sv_posts : forall g body r g',
    mutate_json w de_comment "POST" (issue_root spec +:+ "/comments") (json_object [("body", Str body)]) g = (r, g') ->
    (comments g' = comments g /\ forall c, r <> Ok c)
    \/ exists c, comments g' = comments g ++ [c] /\ c.(cd_body) = body /\ forall c', r = Ok c' -> c' = c;
}.

Definition own_comments (g : G) : list CommentDto := List.filter (owned_comment spec) (comments g).

(** What a comment of this effect has to be. *)
Definition exact_comment (c : CommentDto) : Prop := c.(cd_body) = comment_body spec.

Lemma exact_owned c : exact_comment c -> owned_comment spec c = true.
Proof.
  intros Hb. unfold owned_comment, starts_with. rewrite Hb. unfold comment_body, marker, marker_with_digest, effect_prefix.
  match goal with |- String.prefix ?p ?s = true => replace s with (p +:+ ("sha256=" +:+ hash_bytes (cs_body spec) +:+ " -->"
    +:+ newline +:+ cs_body spec)) end; [apply prefix_append|].
  rewrite !append_assoc. done.
Qed.

Definition reuse_comment (c : CommentDto) : result GitHubError Mutation.t :=
  if negb (c.(cd_user) =? spec.(cs_expected_actor_id)) then Err OwnershipConflict
  else if String.eqb c.(cd_body) (comment_body spec) then validate_comment_dto c;; Ok (Mutation.Existing c.(cd_id))
  else Err GitHubIdempotencyConflict.

Lemma ensure_comment_once g :
  ensure_issue_comment w spec g =
  match validate_comment spec with
  | Ok _ => ensure_once (owned_comment spec) (get_pages w de_comment (comments_path spec)) (create_comment w spec) reuse_comment g
  | Err e => (Err e, g)
  end.
Proof.
  unfold ensure_issue_comment, ensure_once, reuse_comment, mbind, call_bind, answer, mret, call_ret.
  destruct (validate_comment spec); [|done]. destruct (get_pages _ _ _ g) as [[l|] g1]; [|done].
  destruct (List.filter _ l) as [|c [|]]; [done| |done]. destruct (negb _); [done|]. destruct (String.eqb _ _); [|done].
  by destruct (validate_comment_dto c).
Qed.

Lemma comment_once : comment_server -> once_laws comments (owned_comment spec) (get_pages w de_comment (comments_path spec))
  (create_comment w spec) exact_comment.
Proof.
  intros [Hl Hp]. split; [exact Hl|]. intros g r g' Hc. unfold create_comment, mbind, call_bind in Hc.
  destruct (mutate_json _ _ _ _ _ g) as [r1 g1] eqn:Hm. apply Hp in Hm.
  assert (g1 = g') as <-.
  { destruct r1 as [c|]; [|by injection Hc]. unfold answer, mret, call_ret in Hc.
    destruct (validate_comment_dto c); [|by injection Hc]. destruct (err_if _ _); by injection Hc. }
  destruct Hm as [[Hi Hn]|(c & Hi & Hb & _)]; [left|right; exists c; split_and!; [done|done|by apply exact_owned]].
  split; [done|]. destruct r1 as [c|e]; [by destruct (Hn c)|]. injection Hc as <-. eauto.
Qed.

(** The cycle, and anything else that leaves the comments with this marker alone. *)
Inductive comment_step (g g' : G) : Prop :=
| ws_ensure r : ensure_issue_comment w spec g = (r, g') -> comment_step g g'
| ws_other : own_comments g' = own_comments g -> comment_step g g'.

Lemma comment_steps g g' :
  comment_server -> rtc comment_step g g' ->
  own_comments g' = own_comments g \/ (own_comments g = [] /\ exists c, own_comments g' = [c] /\ exact_comment c).
Proof.
  intros Hs. induction 1 as [g|g g1 g' Hstep _ IH]; [by left|].
  assert (own_comments g1 = own_comments g \/ (own_comments g = [] /\ exists c, own_comments g1 = [c] /\ exact_comment c)) as Hone.
  { destruct Hstep as [r He|Ho]; [|by left]. rewrite ensure_comment_once in He.
    destruct (validate_comment spec); [|injection He as _ <-; by left]. by eapply (once_step comments); [apply comment_once|]. }
  destruct Hone as [<-|(Hg & c & Hg1 & Hc)]; [done|]. right. split; [done|]. exists c.
  destruct IH as [->|[Hn _]]; [done|]. rewrite Hn in Hg1. discriminate.
Qed.

End comments.

(** ** Readiness *)

Section ready.
Context `{Codec} {G : Type} {transport : MutationTransport G} (w : GitHubWriter).

(** The pull request of the specification: open, by the account, at the exact head. *)
Record exact_pull (spec : PullRequestReadySpec) (p : PullRequestDto) : Prop := {
  xp_number : p.(pd_number) = spec.(rd_pull_request_number);
  xp_open : p.(pd_state) = "open"%string;
  xp_author : p.(pd_user) = spec.(rd_expected_actor_id);
  xp_head : p.(pd_head_ref) = spec.(rd_expected_head_branch) /\ p.(pd_head_sha) = spec.(rd_expected_head_sha)
            /\ p.(pd_head_repo) = Some spec.(rd_repository_id);
  xp_base : p.(pd_base_ref) = spec.(rd_expected_base_branch);
}.

Definition get_pull (spec : PullRequestReadySpec) : Call G PullRequestDto :=
  mutate_json w de_pull_request "GET" (pull_root spec) (json_object []).

Lemma read_pull_ok spec g p g' : read_pull w spec g = (Ok p, g') -> get_pull spec g = (Ok p, g') /\ exact_pull spec p.
Proof.
  unfold read_pull, mbind, call_bind, answer, mret, call_ret. change (mutate_json _ _ _ _ _) with (get_pull spec).
  destruct (get_pull spec g) as [[p0|] g1]; [|done]. destruct (validate_ready_identity p0 spec) eqn:Hv; [|done].
  intros [= -> ->]. split; [done|]. unfold validate_ready_identity, ready_identity in Hv. apply err_if_ok in Hv.
  repeat match goal with Hx : negb _ = false |- _ => apply negb_false_iff in Hx | Hx : _ && _ = true |- _ => apply andb_true_iff in Hx as [? ?] end.
  split; repeat match goal with
    | Hx : String.eqb _ _ = true |- _ => apply String.eqb_eq in Hx
    | Hx : (_ =? _) = true |- _ => apply Z.eqb_eq in Hx
    | Hx : bool_decide _ = true |- _ => apply bool_decide_eq_true in Hx end; done.
Qed.

Lemma call_bind_ok {A B} (m : Call G A) (k : A -> Call G B) g b g' :
  (m ≫= k) g = (Ok b, g') -> exists a g1, m g = (Ok a, g1) /\ k a g1 = (Ok b, g').
Proof. unfold mbind, call_bind. destruct (m g) as [[a|] g1]; [eauto|done]. Qed.

(** A draft state is confirmed only by looking.  When the writer reports that a pull request
    has the draft state that was asked for, the last thing it saw is that pull request: open, by
    the expected account, at the exact head and base, in that state.  When it reports that
    nothing was to be done, it only looked. *)
Theorem draft_state_is_observed (spec : PullRequestReadySpec) (draft : bool) (g g' : G) (m : Mutation.t)
  (Hset : set_pull_request_draft w spec draft g = (Ok m, g')) :
  exists p g1, get_pull spec g1 = (Ok p, g') /\ exact_pull spec p /\ p.(pd_draft) = draft
    /\ ((m = Mutation.Existing spec.(rd_pull_request_number) /\ g1 = g)
        \/ m = Mutation.Updated spec.(rd_pull_request_number)).
Proof.
  unfold set_pull_request_draft in Hset. apply call_bind_ok in Hset as (? & ? & [= _ <-] & Hset).
  apply call_bind_ok in Hset as (before & g0 & [Hb Hx]%read_pull_ok & Hset).
  destruct (Bool.eqb _ _) eqn:Hd in Hset.
  { apply eqb_prop in Hd. injection Hset as <- <-. exists before, g. split_and!; [done..|]. left. by rewrite (xp_number _ _ Hx). }
  apply call_bind_ok in Hset as (? & ? & [= _ <-] & Hset). apply call_bind_ok in Hset as ([data errors] & g2 & _ & Hset).
  apply call_bind_ok in Hset as (? & ? & [= _ <-] & Hset). apply call_bind_ok in Hset as (? & ? & [= _ <-] & Hset).
  apply call_bind_ok in Hset as (? & ? & [= _ <-] & Hset). apply call_bind_ok in Hset as (after & g3 & [Ha Hxa]%read_pull_ok & Hset).
  apply call_bind_ok in Hset as (? & ? & [= Hif <-] & Hset). injection Hset as <- <-. apply err_if_ok in Hif.
  apply negb_false_iff, eqb_prop in Hif. exists after, g2. split_and!; [done..|]. right. by rewrite (xp_number _ _ Hxa).
Qed.
End ready.

(** ** A server *)

Definition ser_dto (c : CommentDto) : Value :=
  json_object [("id", Number c.(cd_id)); ("user", json_object [("id", Number c.(cd_user))]); ("body", Str c.(cd_body));
               ("html_url", Str c.(cd_html_url))].
Definition in_range (c : CommentDto) : bool :=
  (0 <=? c.(cd_id)) && (c.(cd_id) <=? u64_max) && (0 <=? c.(cd_user)) && (c.(cd_user) <=? u64_max).

(** One page of all comments; account 1 writes. *)
#[local] Instance demo_server : MutationTransport (list CommentDto) := fun q g =>
  if String.eqb q.(mr_method) "GET" then
    if forallb in_range g
    then (Ok {| rr_status := 200; rr_headers := []; rr_body := @to_string demo_codec (Array (ser_dto <$> g)) |}, g)
    else (Err (HttpStatus 500), g)
  else
    match @from_str demo_codec q.(mr_body) ≫= (fun v => as_str (index v "body")) with
    | Some body =>
        let c := {| cd_id := Z.of_nat (length g) + 1; cd_user := 1; cd_body := body; cd_html_url := "https://g" |} in
        if in_range c
        then (Ok {| rr_status := 201; rr_headers := []; rr_body := @to_string demo_codec (ser_dto c) |}, g ++ [c])
        else (Err (HttpStatus 500), g)
    | None => (Err (HttpStatus 400), g)
    end.
Definition demo_writer : GitHubWriter := {|
  gw_base_url := "https://api"; gw_token := "t"; gw_max_response_bytes := 1000000; gw_max_pages := 1 |}.
Definition demo_spec : CommentSpec := {|
  cs_owner := "o"; cs_repository := "r"; cs_issue_number := 2; cs_effect_id := "effect-1"; cs_expected_actor_id := 1;
  cs_body := "hello" |}.

Lemma ser_dto_eq c :
  ser_dto c = Object [("body", Str c.(cd_body)); ("html_url", Str c.(cd_html_url)); ("id", Number c.(cd_id));
                      ("user", Object [("id", Number c.(cd_user))])]%string.
Proof. destruct c. vm_compute. reflexivity. Qed.
Lemma ser_dto_wf c : in_range c = true -> wf_value (ser_dto c) = true.
Proof.
  unfold in_range. intros Hr. bools. rewrite ser_dto_eq. cbn [wf_value sorted_keys forallb snd]. rewrite !andb_true_r.
  repeat match goal with |- context [str_ltb ?a ?b] => change (str_ltb a b) with true end.
  unfold i64_max, u64_max in *. simpl. lia.
Qed.
Lemma de_ser_dto c : in_range c = true -> de_comment (ser_dto c) = Some c.
Proof.
  unfold in_range. intros Hr. bools. rewrite ser_dto_eq. destruct c as [i u b h]. cbn [cd_id cd_user cd_body cd_html_url] in *.
  assert (as_u64 (Number i) = Some i) as Hi by (by apply as_u64_number).
  assert (as_u64 (Number u) = Some u) as Hu by (by apply as_u64_number).
  unfold de_comment, field, de_user, field, de_u64. cbn -[as_u64]. by rewrite Hi, Hu.
Qed.
Lemma de_vec_dto l : forallb in_range l = true -> de_vec de_comment (Array (ser_dto <$> l)) = Some l.
Proof.
  intros Hl. unfold de_vec. cbn [as_array mbind option_bind]. apply mapM_Some. apply Forall2_fmap_l.
  induction l as [|c l IH]; constructor; simpl in Hl; apply andb_true_iff in Hl as [Hc Hl]; [by apply de_ser_dto|by apply IH].
Qed.

Lemma demo_get path g r g' :
  request (transport := demo_server) demo_writer "GET" path "" g = (r, g') ->
  g' = g /\ ((exists e, r = Err e) \/ (forallb in_range g = true
    /\ r = Ok {| rr_status := 200; rr_headers := []; rr_body := @to_string demo_codec (Array (ser_dto <$> g)) |})).
Proof.
  unfold request, mbind, call_bind, answer, mret, call_ret, transport_send, demo_server. cbn [mr_method mr_body String.eqb Ascii.eqb Bool.eqb].
  intros Hr. destruct (err_if _ InvalidMutation); [|injection Hr as <- <-; eauto].
  destruct (forallb in_range g); [|injection Hr as <- <-; eauto].
  cbn beta iota in Hr. destruct (err_if (negb _) _) in Hr; [|injection Hr as <- <-; by eauto].
  destruct (err_if (_ <? _) _) in Hr; injection Hr as <- <-; by eauto.
Qed.
Lemma demo_post path v g r g' :
  request (transport := demo_server) demo_writer "POST" path (@to_string demo_codec v) g = (r, g') ->
  wf_value v = true ->
  (g' = g /\ exists e, r = Err e) \/ exists c, g' = g ++ [c] /\ Some c.(cd_body) = as_str (index v "body") /\ in_range c = true
    /\ ((exists e, r = Err e) \/ r = Ok {| rr_status := 201; rr_headers := []; rr_body := @to_string demo_codec (ser_dto c) |}).
Proof.
  intros Hr Hwf. unfold request, mbind, call_bind, answer, mret, call_ret, transport_send, demo_server in Hr.
  cbn [mr_method mr_body String.eqb Ascii.eqb Bool.eqb] in Hr.
  destruct (err_if _ InvalidMutation); [|injection Hr as <- <-; eauto].
  rewrite (from_to_string (C := demo_codec) v Hwf) in Hr. cbn [mbind option_bind] in Hr.
  destruct (as_str (index v "body")) as [body|]; [|injection Hr as <- <-; eauto]. set (c := Build_CommentDto _ _ _ _) in Hr.
  destruct (in_range c) eqn:Hc; [|injection Hr as <- <-; eauto]. right. exists c.
  assert (g' = g ++ [c] /\ ((exists e, r = Err e) \/ r = Ok {| rr_status := 201; rr_headers := [];
    rr_body := @to_string demo_codec (ser_dto c) |})) as [-> ?]; [|by split_and!]. clearbody c.
  cbn beta iota in Hr. destruct (err_if (negb _) _) in Hr; [|injection Hr as <- <-; by eauto].
  destruct (err_if (_ <? _) _) in Hr; injection Hr as <- <-; by eauto.
Qed.

Lemma demo_comment_server : comment_server (H := demo_codec) (transport := demo_server) demo_writer demo_spec id.
Proof.
  split.
  - intros g r g' Hg. unfold get_pages in Hg. change (Z.to_nat (gw_max_pages demo_writer)) with 1%nat in Hg.
    cbn [pages] in Hg. unfold mbind at 1, call_bind at 1 in Hg. destruct (request _ _ _ _ g) as [r1 g1] eqn:Hr.
    apply demo_get in Hr as [-> [[e ->]|[Hin ->]]]; [by injection Hg as <- <-|]. cbn [rr_body rr_headers List.find] in Hg.
    unfold parse_as in Hg. rewrite (from_to_string (C := demo_codec)) in Hg.
    + cbn [mbind option_bind] in Hg. rewrite (de_vec_dto g Hin) in Hg. injection Hg as <- <-. split; [done|]. by intros l [= <-].
    + cbn [wf_value]. apply forallb_forall. intros v (c & -> & Hc)%list_elem_of_In%list_elem_of_fmap. apply ser_dto_wf.
      rewrite forallb_forall in Hin. apply Hin. by apply list_elem_of_In.
  - intros g body r g' Hm. unfold mutate_json, mbind, call_bind, answer in Hm. destruct (request _ _ _ _ g) as [r1 g1] eqn:Hr.
    apply demo_post in Hr as [[-> [e ->]]|(c & -> & Hb & Hc & Hr)]; [injection Hm as <- <-; left; split; [done|by intros c]| |done].
    right. exists c. assert (g' = g ++ [c]) as -> by (destruct r1; by injection Hm). split; [done|].
    split; [by injection Hb|]. intros c' ->. destruct Hr as [[e ->]|Hr]; [done|]. rewrite Hr in Hm. cbn [rr_body] in Hm.
    unfold parse_as in Hm. rewrite (from_to_string (C := demo_codec) _ (ser_dto_wf c Hc)) in Hm. cbn [mbind option_bind] in Hm.
    rewrite (de_ser_dto c Hc) in Hm. by injection Hm.
Qed.

Definition demo_ensure : Call (list CommentDto) Mutation.t :=
  ensure_issue_comment (H := demo_codec) (transport := demo_server) demo_writer demo_spec.
(** Written twice; the first answer may have been lost. *)
Definition demo_twice : list CommentDto := (demo_ensure (demo_ensure []).2).2.


(** A pull request that is still a draft, and GitHub's answers when it is marked ready. *)
Definition demo_pull_value (draft : bool) : Value :=
  json_object [("id", Number 1); ("node_id", Str "N"); ("number", Number 7); ("state", Str "open"); ("draft", Bool draft);
               ("title", Str "t"); ("html_url", Str "https://g"); ("user", json_object [("id", Number 1)]);
               ("head", json_object [("ref", Str "pip/x"); ("sha", Str "abcdefabcdefabcdefabcdefabcdefabcdefabcd");
                                     ("repo", json_object [("id", Number 1)])]);
               ("base", json_object [("ref", Str "main")])].
Definition demo_marked : Value :=
  json_object [("data", json_object [("markPullRequestReadyForReview", json_object
    [("pullRequest", json_object [("id", Str "N"); ("isDraft", Bool false)])])])].
Definition demo_pulls : MutationTransport bool := fun q draft =>
  let respond v g := (Ok {| rr_status := 200; rr_headers := []; rr_body := @to_string demo_codec v |}, g) in
  if String.eqb q.(mr_method) "GET" then respond (demo_pull_value draft) draft else respond demo_marked false.
Definition demo_ready_spec : PullRequestReadySpec := {|
  rd_owner := "o"; rd_repository := "r"; rd_repository_id := 1; rd_pull_request_number := 7; rd_expected_actor_id := 1;
  rd_expected_head_branch := "pip/x"; rd_expected_head_sha := "abcdefabcdefabcdefabcdefabcdefabcdefabcd";
  rd_expected_base_branch := "main"; rd_client_mutation_id := "effect-1:ready" |}.

Lemma draft_state_is_observed_witness :
  exists p, exact_pull demo_ready_spec p /\ p.(pd_draft) = false.
Proof.
  assert (mark_pull_request_ready (H := demo_codec) (transport := demo_pulls) demo_writer demo_ready_spec true
          = (Ok (Mutation.Updated 7), false)) as Hm by (vm_compute; reflexivity).
  destruct (draft_state_is_observed (H := demo_codec) (transport := demo_pulls) demo_writer demo_ready_spec false true false
              (Mutation.Updated 7) Hm) as (p & g1 & _ & Hx & Hd & _).
  exists p. split; [exact Hx|exact Hd].
Defined.
