(* ===== verification/Board.v ===== *)
(** * Board: the Hermes task board

    pip-hermes: the reader of lib.rs and the projector of projection.rs.  The board is a
    program that is run with arguments and answers JSON.  A worker task is created from a
    [TaskCreateSpec]; its body carries the projection key, by which an interrupted create is
    recognized.  [CommandRunner] is the process; its answer may depend on everything that was
    sent before. *)

From stdpp Require Import relations.
From S2P Require Import Prelude Text Parse Json Serde Sql RolePolicy Policy Scheduling Mentions World.
From Stdlib Require Import Ascii.
Open Scope Z_scope.

Record CommandOutput := { co_status : Z; co_stdout : string; co_stderr : string; co_timed_out : bool }.

(** The texts of the JSON parser and of the operating system are not kept. *)
Inductive HermesError :=
| HermesInvalidConfiguration | InvalidBoard | InvalidTask | HermesTimedOut | HermesOutputTooLarge
| HermesCommandFailed (status : Z) | HermesInvalidUtf8 | HermesMalformedJson | IncompleteTask | IncompleteRun
| RetryLimitReached | HermesWorkerBlocked (reason : string) | InvalidRunMetadata | HermesProcess.

Class CommandRunner := run_command (sent : list Request) (spec : CommandSpec) : result HermesError CommandOutput.

(** ** Tasks *)

Record TaskConfiguration := {
  cf_workspace_kind : option string; cf_workspace_path : option string; cf_skills : option (list string);
  cf_provider_override : option string; cf_model_override : option string; cf_max_retries : option Z; cf_priority : option Z;
}.
Record TaskSnapshot := {
  ts_id : string; ts_title : string; ts_status : string; ts_assignee : option string; ts_created_by : option string;
  ts_body : string; ts_configuration : TaskConfiguration;
}.
Record TaskRunSnapshot := { tr_outcome : option string; tr_profile : option string; tr_metadata : option Value }.
Record TaskEventSnapshot := { te_kind : string; te_payload : Value }.
Record TaskDetail := {
  td_task : TaskSnapshot; td_parents : option (list string); td_runs : list TaskRunSnapshot; td_events : list TaskEventSnapshot;
}.
Record CompletedTaskResult := { ct_task : TaskSnapshot; ct_profile : string; ct_metadata : Value }.

(** A struct whose last fields may be left out of its positional form. *)
Definition as_record (required : nat) (fields : list string) (v : Value) : option (list (string * Value)) :=
  match v with
  | Object m => Some m
  | Array l => if (required <=? length l)%nat && (length l <=? length fields)%nat then Some (zip fields l) else None
  | _ => None
  end.
Definition default_field {A} (m : list (string * Value)) (k : string) (de : Value -> option A) (otherwise : A) : option A :=
  match map_get k m with None => Some otherwise | Some v => de v end.

Definition de_configuration (m : list (string * Value)) : option TaskConfiguration :=
  k ← option_field m "workspace_kind" as_str;
  p ← option_field m "workspace_path" as_str;
  s ← option_field m "skills" (de_vec as_str);
  o ← option_field m "provider_override" as_str;
  d ← option_field m "model_override" as_str;
  r ← option_field m "max_retries" de_u32;
  y ← option_field m "priority" de_u32;
  Some {| cf_workspace_kind := k; cf_workspace_path := p; cf_skills := s; cf_provider_override := o; cf_model_override := d;
          cf_max_retries := r; cf_priority := y |}.
Definition de_task (v : Value) : option TaskSnapshot :=
  m ← as_object v;
  i ← field m "id" as_str;
  t ← field m "title" as_str;
  s ← field m "status" as_str;
  a ← option_field m "assignee" as_str;
  c ← option_field m "created_by" as_str;
  b ← field m "body" as_str;
  f ← de_configuration m;
  Some {| ts_id := i; ts_title := t; ts_status := s; ts_assignee := a; ts_created_by := c; ts_body := b; ts_configuration := f |}.
Definition opt_texts (o : option (list string)) : Value := match o with Some l => Array (Str <$> l) | None => Null end.
Definition ser_task (t : TaskSnapshot) : Value :=
  let f := t.(ts_configuration) in
  json_object [("id", Str t.(ts_id)); ("title", Str t.(ts_title)); ("status", Str t.(ts_status));
               ("assignee", opt_str t.(ts_assignee)); ("created_by", opt_str t.(ts_created_by)); ("body", Str t.(ts_body));
               ("workspace_kind", opt_str f.(cf_workspace_kind)); ("workspace_path", opt_str f.(cf_workspace_path));
               ("skills", opt_texts f.(cf_skills)); ("provider_override", opt_str f.(cf_provider_override));
               ("model_override", opt_str f.(cf_model_override)); ("max_retries", opt_number f.(cf_max_retries));
               ("priority", opt_number f.(cf_priority))].
Definition de_run (v : Value) : option TaskRunSnapshot :=
  m ← as_record 3 ["outcome"; "profile"; "metadata"] v;
  o ← option_field m "outcome" as_str;
  p ← option_field m "profile" as_str;
  d ← option_field m "metadata" Some;
  Some {| tr_outcome := o; tr_profile := p; tr_metadata := d |}.
Definition de_event (v : Value) : option TaskEventSnapshot :=
  m ← as_record 1 ["kind"; "payload"] v;
  k ← field m "kind" as_str;
  p ← default_field m "payload" Some Null;
  Some {| te_kind := k; te_payload := p |}.
Definition de_detail (v : Value) : option TaskDetail :=
  m ← as_record 2 ["task"; "parents"; "runs"; "events"] v;
  t ← field m "task" de_task;
  p ← option_field m "parents" (de_vec as_str);
  r ← default_field m "runs" (de_vec de_run) [];
  e ← default_field m "events" (de_vec de_event) [];
  Some {| td_task := t; td_parents := p; td_runs := r; td_events := e |}.

(** ** Blocked tasks *)

Definition last_outcome (d : TaskDetail) : option string := last d.(td_runs) ≫= tr_outcome.

(** The last event tripped the breaker of the last run. *)
Definition tripped (limit : Z) (assignee : option string) (run : TaskRunSnapshot) (event : TaskEventSnapshot) : bool :=
  match run.(tr_outcome) with
  | None => false
  | Some outcome =>
      one_of ["crashed"; "timed_out"]%string outcome
      && is_some run.(tr_profile) && bool_decide (run.(tr_profile) = assignee)
      && String.eqb event.(te_kind) "gave_up" && eq_str (index event.(te_payload) "limit_source") "task"
      && eq_str (index event.(te_payload) "trigger_outcome") outcome
      && bool_decide (as_u64 (index event.(te_payload) "effective_limit") = Some limit)
      && match as_u64 (index event.(te_payload) "failures") with Some failures => limit <=? failures | None => false end
  end.
Definition has_crash_circuit_breaker (d : TaskDetail) : bool :=
  match last d.(td_runs), last d.(td_events), d.(td_task).(ts_configuration).(cf_max_retries) with
  | Some run, Some event, Some limit => (0 <? limit) && tripped limit d.(td_task).(ts_assignee) run event
  | _, _, _ => false
  end.
Definition retry_limit_reached (d : TaskDetail) : bool :=
  String.eqb d.(td_task).(ts_status) "blocked"
  && (bool_decide (last_outcome d = Some "gave_up"%string) || has_crash_circuit_breaker d).

Definition event_reason (e : TaskEventSnapshot) : option string :=
  match omap (fun key => get e.(te_payload) key ≫= as_str) ["reason"; "message"; "note"; "comment"]%string with
  | [] => None
  | text :: _ => if is_empty (trim text) then None else Some (trim text)
  end.
Definition BLOCK_REASON_BYTES : nat := 1024.
Definition block_reason (d : TaskDetail) : string :=
  let blocks := List.filter (fun e => contains "block" e.(te_kind) && negb (contains "unblock" e.(te_kind))) (rev d.(td_events)) in
  truncate_at BLOCK_REASON_BYTES
    (default "the worker blocked the task without a reason" (hd_error (omap event_reason blocks))).
Definition blocked_disposition (d : TaskDetail) : option HermesError :=
  if negb (String.eqb d.(td_task).(ts_status) "blocked") then None
  else if retry_limit_reached d
          || match last_outcome d with
             | Some outcome => one_of ["crashed"; "timed_out"; "spawn_failed"; "gave_up"; "failed"]%string outcome
             | None => false
             end
  then Some RetryLimitReached else Some (HermesWorkerBlocked (block_reason d)).

(** ** Results *)

Definition valid_id (value : string) : bool :=
  negb (is_empty value) && forallb (fun b => is_ascii_alphanumeric b || (b =? 45) || (b =? 95) || (b =? 46)) (bytes value).

(** One annotation of the board, taken out of the worker's contract. *)
Definition strip_annotation (ok : Value -> bool) (key : string) (m : list (string * Value))
  : result HermesError (list (string * Value)) :=
  err_if (match map_get key m with Some v => negb (ok v) | None => false end) InvalidRunMetadata;;
  Ok (map_remove key m).
Definition session_id (v : Value) : bool := match as_str v with Some s => valid_id s | None => false end.
Definition artifact_paths (v : Value) : bool :=
  match as_array v with
  | Some paths => forallb (fun p => match as_str p with Some path => negb (is_empty (trim path)) | None => false end) paths
  | None => false
  end.
Definition worker_contract_metadata (r : CompletedTaskResult) : result HermesError Value :=
  contract ← ok_or (as_object r.(ct_metadata)) InvalidRunMetadata;
  contract ← strip_annotation session_id "worker_session_id" contract;
  contract ← strip_annotation artifact_paths "artifacts" contract;
  contract ← strip_annotation artifact_paths "_staged_artifacts" contract;
  Ok (Object contract).

(** The result of a task that is durably done. *)
Definition completed_result `{Codec} (task_id : string) (d : TaskDetail) : result HermesError CompletedTaskResult :=
  err_if (negb (String.eqb d.(td_task).(ts_id) task_id)) IncompleteTask;;
  match blocked_disposition d with
  | Some disposition => Err disposition
  | None =>
      err_if (negb (String.eqb d.(td_task).(ts_status) "done")) IncompleteTask;;
      run ← ok_or (last d.(td_runs)) IncompleteRun;
      err_if (negb (bool_decide (run.(tr_outcome) = Some "completed"%string))) IncompleteRun;;
      profile ← ok_or run.(tr_profile) IncompleteRun;
      err_if (negb (valid_id profile)) IncompleteRun;;
      metadata ← match run.(tr_metadata) with
                 | Some (Object m) => Ok (Object m)
                 | Some (Str encoded) => ok_or (from_str encoded) HermesMalformedJson
                 | _ => Err InvalidRunMetadata
                 end;
      err_if (negb (is_object metadata)) InvalidRunMetadata;;
      Ok {| ct_task := d.(td_task); ct_profile := profile; ct_metadata := metadata |}
  end.

(** ** The reader *)

Record HermesReader := { hr_program : string; hr_timeout : Z; hr_max_output_bytes : Z }.
Definition new_reader (program : string) (timeout max_output_bytes : Z) : result HermesError HermesReader :=
  err_if (is_empty (trim program) || (timeout =? 0) || (max_output_bytes =? 0)) HermesInvalidConfiguration;;
  Ok {| hr_program := program; hr_timeout := timeout; hr_max_output_bytes := max_output_bytes |}.

(** [std::str::from_utf8(..).is_ok()]: well-formed sequences, by their first two bytes. *)
Fixpoint valid_utf8 (s : string) : bool :=
  let within_ b lo hi := (lo <=? byte_of b) && (byte_of b <=? hi) in
  match s with
  | EmptyString => true
  | String a s1 =>
      if within_ a 0 127 then valid_utf8 s1 else
      match s1 with
      | EmptyString => false
      | String b s2 =>
          if within_ a 194 223 then continuation b && valid_utf8 s2 else
          match s2 with
          | EmptyString => false
          | String c s3 =>
              if within_ a 224 239 then
                within_ b (if byte_of a =? 224 then 160 else 128) (if byte_of a =? 237 then 159 else 191) && continuation c && valid_utf8 s3
              else match s3 with
              | EmptyString => false
              | String d s4 =>
                  within_ a 240 244 && within_ b (if byte_of a =? 240 then 144 else 128) (if byte_of a =? 244 then 143 else 191)
                  && continuation c && continuation d && valid_utf8 s4
              end
          end
      end
  end.
Record Capabilities := { ca_version : string; ca_boards : list string }.
Definition de_board (v : Value) : option string :=
  m ← as_record 1 ["slug"] v;
  field m "slug" as_str.

Section reader.
Context `{Codec} {runner : CommandRunner} (h : HermesReader).

(** A bounded, successful run. *)
Definition accepted_output (o : CommandOutput) : result HermesError CommandOutput :=
  err_if o.(co_timed_out) HermesTimedOut;;
  err_if ((h.(hr_max_output_bytes) <? len o.(co_stdout)) || (h.(hr_max_output_bytes) <? len o.(co_stderr))) HermesOutputTooLarge;;
  err_if (negb (o.(co_status) =? 0)) (HermesCommandFailed o.(co_status));;
  Ok o.
Definition command (args : list string) : CommandSpec := {|
  cm_program := h.(hr_program); cm_args := args; cm_timeout := h.(hr_timeout); cm_max_output_bytes := h.(hr_max_output_bytes) |}.
Definition execute (args : list string) : Cycle HermesError CommandOutput :=
  output ← ask (RunCommand (command args)) (fun sent => run_command sent (command args));
  lift (accepted_output output).
Definition execute_json {A} (de : Value -> option A) (args : list string) : Cycle HermesError A :=
  output ← execute args;
  lift (ok_or (from_str output.(co_stdout) ≫= de) HermesMalformedJson).

Definition list_tasks (board : string) : Cycle HermesError (list TaskSnapshot) :=
  lift (err_if (negb (valid_id board)) InvalidBoard);;
  execute_json (de_vec de_task) ["kanban"; "--board"; board; "list"; "--archived"; "--json"]%string.
Definition show_args (board task_id : string) : list string := ["kanban"; "--board"; board; "show"; task_id; "--json"]%string.
Definition show_task_detail (board task_id : string) : Cycle HermesError TaskDetail :=
  lift (err_if (negb (valid_id board)) InvalidBoard);;
  lift (err_if (negb (valid_id task_id)) InvalidTask);;
  execute_json de_detail (show_args board task_id).
Definition show_task (board task_id : string) : Cycle HermesError TaskSnapshot :=
  detail ← show_task_detail board task_id;
  mret detail.(td_task).
Definition capabilities : Cycle HermesError Capabilities :=
  version_output ← execute ["--version"];
  version ← lift (if valid_utf8 version_output.(co_stdout) then Ok (trim version_output.(co_stdout)) else Err HermesInvalidUtf8);
  lift (err_if (is_empty version) HermesInvalidUtf8);;
  boards ← execute_json (de_vec de_board) ["kanban"; "boards"; "list"; "--json"];
  lift (err_if (existsb (fun slug => negb (valid_id slug)) boards) InvalidBoard);;
  mret {| ca_version := version; ca_boards := boards |}.
Definition show_completed_result (board task_id : string) : Cycle HermesError CompletedTaskResult :=
  detail ← show_task_detail board task_id;
  lift (completed_result task_id detail).
End reader.

(** ** Tasks to create *)

Definition ser_spec (t : TaskCreateSpec) : Value :=
  json_object [("board", Str t.(tc_board)); ("effect_id", Str t.(tc_effect_id)); ("projection_key", Str t.(tc_projection_key));
               ("title", Str t.(tc_title)); ("body", t.(tc_body)); ("assignee", Str t.(tc_assignee));
               ("workspace", Str t.(tc_workspace)); ("skills", Array (Str <$> t.(tc_skills))); ("provider", Str t.(tc_provider));
               ("model", Str t.(tc_model)); ("max_runtime", Str t.(tc_max_runtime)); ("max_retries", Number t.(tc_max_retries));
               ("priority", Number t.(tc_priority)); ("parent_task_ids", Array (Str <$> t.(tc_parent_task_ids)))].
Definition spec_fields : list string :=
  ["board"; "effect_id"; "projection_key"; "title"; "body"; "assignee"; "workspace"; "skills"; "provider"; "model";
   "max_runtime"; "max_retries"; "priority"; "parent_task_ids"].
Definition de_spec (v : Value) : option TaskCreateSpec :=
  m ← as_record 14 spec_fields v;
  b ← field m "board" as_str;
  e ← field m "effect_id" as_str;
  k ← field m "projection_key" as_str;
  t ← field m "title" as_str;
  o ← map_get "body" m;
  a ← field m "assignee" as_str;
  w ← field m "workspace" as_str;
  s ← field m "skills" (de_vec as_str);
  p ← field m "provider" as_str;
  d ← field m "model" as_str;
  u ← field m "max_runtime" as_str;
  r ← field m "max_retries" de_u32;
  y ← field m "priority" de_u32;
  n ← field m "parent_task_ids" (de_vec as_str);
  Some {| tc_board := b; tc_effect_id := e; tc_projection_key := k; tc_title := t; tc_body := o; tc_assignee := a;
          tc_workspace := w; tc_skills := s; tc_provider := p; tc_model := d; tc_max_runtime := u; tc_max_retries := r;
          tc_priority := y; tc_parent_task_ids := n |}.

Inductive ProjectionResult := TaskCreated (id : string) | TaskExisting (id : string).
Definition projected_id (r : ProjectionResult) : string := match r with TaskCreated id | TaskExisting id => id end.
Inductive ProjectionError :=
| ProjectionConfiguration | ProjectionSpec | DuplicateProjection | ProjectionDrift | ArchivedProjection
| ProjectionHermes (e : HermesError) | ProjectionMalformed.

(** ** Validation *)

Definition valid_opaque (value : string) (max : Z) : bool :=
  negb (is_empty value) && (len value <=? max)
  && forallb (fun c => negb (is_control c.1) && negb (is_whitespace c.1)) (chars value).
Definition valid_text (value : string) (max : Z) : bool :=
  negb (is_empty (trim value)) && (len value <=? max)
  && forallb (fun c => negb (is_control c.1) || (c.1 =? 10) || (c.1 =? 9)) (chars value).
Definition valid_workspace (value : string) : bool :=
  one_of ["scratch"; "worktree"]%string value
  || match omap (fun p => strip_prefix p value) ["dir:"; "worktree:"]%string with
     | path :: _ => starts_with "/" path && valid_text path 4096
     | [] => false
     end.
(** [PT30M] as [30m]; between one minute and four hours. *)
Definition hermes_runtime (value : string) : option string :=
  rest ← strip_prefix "PT" value;
  digits ← strip_suffix_char "M" rest;
  minutes ← parse_u64 digits;
  if (1 <=? minutes) && (minutes <=? 240) then Some (show minutes +:+ "m") else None.

Definition valid_spec (t : TaskCreateSpec) : bool :=
  valid_id t.(tc_board) && valid_opaque t.(tc_effect_id) 512 && valid_opaque t.(tc_projection_key) 512
  && valid_text t.(tc_title) 512 && is_object t.(tc_body) && valid_id t.(tc_assignee) && valid_workspace t.(tc_workspace)
  && negb (bool_decide (t.(tc_skills) = [])) && forallb valid_id t.(tc_skills) && valid_id t.(tc_provider)
  && negb (String.eqb t.(tc_provider) "cursor") && valid_id t.(tc_model) && is_some (hermes_runtime t.(tc_max_runtime))
  && (0 <? t.(tc_max_retries)) && bool_decide (t.(tc_parent_task_ids) = []).
Definition validate_spec (t : TaskCreateSpec) : result ProjectionError () :=
  err_if (negb (valid_spec t)) ProjectionSpec;;
  err_if (match get t.(tc_body) "projection_key" with
          | Some existing => negb (eq_str existing t.(tc_projection_key))
          | None => false
          end) ProjectionSpec.

(** ** The body on the board *)

Definition dotted (path : string) : bool := existsb (one_of ["."; ".."]%string) (split_on "/" path).

Section projector.
Context `{Codec}.

(** Large evidence goes by reference: the reference must be the bundle's own. *)
Definition evidence_reference (root : string) (bundle : Value) : Value :=
  json_object [("schema_version", Number 1); ("path", Str (root +:+ "/immutable-evidence.json"));
               ("sha256", Str (hash_bytes (to_string bundle)))].
Definition queue_body (t : TaskCreateSpec) : result ProjectionError Value :=
  body ← ok_or (as_object t.(tc_body)) ProjectionSpec;
  let body := map_insert "projection_key" (Str t.(tc_projection_key)) body in
  match map_get "immutable_evidence_ref" body with
  | None => Ok (Object body)
  | Some reference =>
      root ← ok_or ((map_get "storage" body ≫= fun s => get s "root") ≫= as_str) ProjectionSpec;
      bundle ← ok_or (map_get "immutable_evidence_bundle" body) ProjectionSpec;
      err_if (negb (is_object bundle)) ProjectionSpec;;
      err_if (negb (starts_with "/" root) || dotted root || negb (bool_decide (reference = evidence_reference root bundle)))
        ProjectionSpec;;
      Ok (Object (map_remove "immutable_evidence_bundle" body))
  end.

Definition task_projection_key (t : TaskSnapshot) : option string :=
  m ← from_str t.(ts_body) ≫= as_object;
  map_get "projection_key" m ≫= as_str.

(** The workspace the board allocates for an unbound scratch task. *)
Definition allocated_scratch_matches (t : TaskCreateSpec) (task : TaskSnapshot) : bool :=
  match task.(ts_configuration).(cf_workspace_path) with
  | None => false
  | Some path =>
      let suffix := if String.eqb t.(tc_board) "default" then "/kanban/workspaces/" +:+ task.(ts_id)
                    else "/kanban/boards/" +:+ t.(tc_board) +:+ "/workspaces/" +:+ task.(ts_id) in
      starts_with "/" path && valid_text path 4096 && negb (dotted path) && ends_with suffix path
  end.

(** [split_once(':')]. *)
Definition workspace_parts (workspace : string) : string * option string :=
  match find_char ":" workspace with Some (kind, path) => (kind, Some path) | None => (workspace, None) end.
Definition workspace_matches (t : TaskCreateSpec) (task : TaskSnapshot) : bool :=
  let f := task.(ts_configuration) in
  let '(kind, path) := workspace_parts t.(tc_workspace) in
  bool_decide (f.(cf_workspace_kind) = Some kind)
  && (bool_decide (f.(cf_workspace_path) = path)
      || (String.eqb kind "scratch" && is_none path && allocated_scratch_matches t task)).

Definition live_statuses : list string := ["blocked"; "ready"; "running"; "in_progress"; "review"; "done"].
Definition projection_matches (t : TaskCreateSpec) (task : TaskSnapshot) : bool :=
  let f := task.(ts_configuration) in
  valid_id task.(ts_id) && String.eqb task.(ts_title) t.(tc_title) && one_of live_statuses task.(ts_status)
  && bool_decide (task.(ts_assignee) = Some t.(tc_assignee)) && bool_decide (task.(ts_created_by) = Some "pip-controller"%string)
  && bool_decide (task_projection_key task = Some t.(tc_projection_key))
  && match queue_body t with Ok body => bool_decide (from_str task.(ts_body) = Some body) | Err _ => false end
  && workspace_matches t task
  && bool_decide (f.(cf_skills) = Some t.(tc_skills)) && bool_decide (f.(cf_provider_override) = Some t.(tc_provider))
  && bool_decide (f.(cf_model_override) = Some t.(tc_model)) && bool_decide (f.(cf_max_retries) = Some t.(tc_max_retries))
  && bool_decide (f.(cf_priority) = Some t.(tc_priority)).

(** ** The projector *)

Definition reconcile (t : TaskCreateSpec) (observed : list TaskSnapshot) : result ProjectionError (option string) :=
  validate_spec t;;
  match List.filter (fun task => bool_decide (task_projection_key task = Some t.(tc_projection_key))) observed with
  | [] => Ok None
  | [task] =>
      if String.eqb task.(ts_status) "archived" then Err ArchivedProjection
      else if projection_matches t task then Ok (Some task.(ts_id)) else Err ProjectionDrift
  | _ => Err DuplicateProjection
  end.

Definition new_projector (program : string) (timeout max_output_bytes : Z) : result ProjectionError HermesReader :=
  map_err (fun _ => ProjectionConfiguration) (new_reader program timeout max_output_bytes).

Context {runner : CommandRunner} (h : HermesReader).

Definition flagged (flag : string) (values : list string) : list string := values ≫= (fun v => [flag; v]).
Definition create_args (t : TaskCreateSpec) (body runtime : string) : list string :=
  ["kanban"; "--board"; t.(tc_board); "create"; t.(tc_title); "--body"; body; "--assignee"; t.(tc_assignee);
   "--workspace"; t.(tc_workspace); "--idempotency-key"; t.(tc_effect_id); "--created-by"; "pip-controller";
   "--max-runtime"; runtime; "--max-retries"; show t.(tc_max_retries); "--priority"; show t.(tc_priority)]%string
  ++ flagged "--skill" t.(tc_skills) ++ flagged "--parent" t.(tc_parent_task_ids)
  ++ ["--model"; t.(tc_model); "--provider"; t.(tc_provider); "--json"]%string.

(** The command that creates a task, when its spec can be written. *)
Definition create_command (t : TaskCreateSpec) : result ProjectionError CommandSpec :=
  runtime ← ok_or (hermes_runtime t.(tc_max_runtime)) ProjectionSpec;
  body ← queue_body t;
  Ok (command h (create_args t (to_string body) runtime)).
Definition create (t : TaskCreateSpec) : Cycle ProjectionError ProjectionResult :=
  spec ← lift (create_command t);
  output ← within ProjectionHermes (ask (RunCommand spec) (fun sent => run_command sent spec));
  output ← lift (map_err ProjectionHermes (accepted_output h output));
  task ← lift (ok_or (from_str output.(co_stdout) ≫= de_task) ProjectionMalformed);
  lift (err_if (negb (valid_id task.(ts_id)) || negb (projection_matches t task)) ProjectionMalformed);;
  mret (TaskCreated task.(ts_id)).
Definition project (t : TaskCreateSpec) (observed : list TaskSnapshot) : Cycle ProjectionError ProjectionResult :=
  found ← lift (reconcile t observed);
  match found with
  | Some id => mret (TaskExisting id)
  | None => create t
  end.
End projector.
