(* ===== verification/Drift.v ===== *)
(** * Drift: comparing a board with what was asked of it

    [compare_projection] of crates/pip-hermes/src/lib.rs: the observed tasks are filed under
    the projection key in their body; each wanted task must have exactly one, in the wanted
    shape, and whatever else is on the board is foreign. *)

From S2P Require Import Prelude Text Json Serde Sql Scheduling World Board.
From stdpp Require Import gmap.
Open Scope Z_scope.

Record DesiredTask := { dt_projection_key : string; dt_title : string; dt_assignee : string; dt_desired_status : string }.
Inductive Discrepancy := Drifted (key : string) | Missing (key : string) | Duplicate (key : string) | Foreign (id : string).

(** [entry(key).or_default().push(x)] of a [BTreeMap<String, Vec<_>>]; the order of its keys does not
    show, since the ids it yields are sorted. *)
Definition entry_push {A} (key : string) (x : A) (m : gmap string (list A)) : gmap string (list A) :=
  <[key := default [] (m !! key) ++ [x]]> m.

Section drift.
Context `{Codec}.

(** The observed tasks by key, and the ids of those without one. *)
Definition file_task (acc : gmap string (list TaskSnapshot) * list string) (task : TaskSnapshot)
  : gmap string (list TaskSnapshot) * list string :=
  match task_projection_key task with
  | Some key => (entry_push key task acc.1, acc.2)
  | None => (acc.1, acc.2 ++ [task.(ts_id)])
  end.
Definition same_shape (t : DesiredTask) (o : TaskSnapshot) : bool :=
  String.eqb o.(ts_title) t.(dt_title) && bool_decide (o.(ts_assignee) = Some t.(dt_assignee))
  && String.eqb o.(ts_status) t.(dt_desired_status).
Definition discrepancy (by_key : gmap string (list TaskSnapshot)) (t : DesiredTask) : option Discrepancy :=
  match by_key !! t.(dt_projection_key) with
  | None | Some [] => Some (Missing t.(dt_projection_key))
  | Some [o] => if same_shape t o then None else Some (Drifted t.(dt_projection_key))
  | Some _ => Some (Duplicate t.(dt_projection_key))
  end.
Definition compare_projection (desired : list DesiredTask) (observed : list TaskSnapshot) : list Discrepancy :=
  let '(by_key, foreign) := foldl file_task (∅, []) observed in
  let strangers := map_to_list by_key ≫= (fun '(k, tasks) =>
    if bool_decide (k ∈ dt_projection_key <$> desired) then [] else ts_id <$> tasks) in
  omap (discrepancy by_key) desired ++ (Foreign <$> order_by str_leb (foreign ++ strangers)).

(** ** What an empty comparison means *)

Definition keyed (key : string) (observed : list TaskSnapshot) : list TaskSnapshot :=
  List.filter (fun task => bool_decide (task_projection_key task = Some key)) observed.

Lemma filed_keyed observed : forall m foreign,
  let out := foldl file_task (m, foreign) observed in
  (forall k, default [] (out.1 !! k) = default [] (m !! k) ++ keyed k observed)
  /\ out.2 = foreign ++ (ts_id <$> List.filter (fun o => bool_decide (task_projection_key o = None)) observed).
Proof.
  induction observed as [|o observed IH]; intros m foreign; simpl; [by rewrite app_nil_r; split; [intros; rewrite app_nil_r|]|].
  unfold file_task at 2 4. destruct (task_projection_key o) as [key|] eqn:Hk; simpl.
  - destruct (IH (entry_push key o m) foreign) as [Hm Hf]. split; [|done]. intros k. rewrite Hm. unfold entry_push.
    destruct (decide (key = k)) as [->|Hne].
    + rewrite lookup_insert_eq, bool_decide_true by done. simpl. by rewrite <-app_assoc.
    + rewrite lookup_insert_ne, bool_decide_false by congruence. done.
  - destruct (IH m (foreign ++ [ts_id o])) as [Hm Hf]. split; [done|]. by rewrite Hf, <-app_assoc.
Qed.

Lemma discrepancy_none by_key t :
  discrepancy by_key t = None <-> exists o, default [] (by_key !! dt_projection_key t) = [o] /\ same_shape t o = true.
Proof.
  unfold discrepancy. destruct (by_key !! _) as [[|o [|o' l]]|]; simpl; try (split; [done|by intros (? & ? & ?)]).
  destruct (same_shape t o) eqn:Hs; split; [by exists o|done|done|]. intros (o' & [= <-] & Hs'). congruence.
Qed.

Lemma omap_nil {A B} (f : A -> option B) l : omap f l = [] <-> forall x, x ∈ l -> f x = None.
Proof.
  induction l as [|x l IH]; simpl; [by split; [intros _ x ?%elem_of_nil|]|]. destruct (f x) eqn:Hx.
  - split; [done|]. intros Hl. specialize (Hl x (list_elem_of_here _ _)). congruence.
  - rewrite IH. split; [intros Hl y [->|]%elem_of_cons; [done|by apply Hl]|]. intros Hl y Hy. by apply Hl, list_elem_of_further.
Qed.

Lemma bind_nil_all {A B} (f : A -> list B) l : (forall x, x ∈ l -> f x = []) -> l ≫= f = [].
Proof.
  induction l as [|x l IH]; simpl; [done|]. intros Hl. rewrite (Hl x) by apply list_elem_of_here. apply IH. intros y Hy.
  by apply Hl, list_elem_of_further.
Qed.

Lemma order_nil (l : list string) : order_by str_leb l = [] <-> l = [].
Proof.
  split; [|by intros ->]. intros Ho. destruct l as [|x l]; [done|].
  assert (x ∈ order_by str_leb (x :: l)) as Hx by apply order_by_elem, list_elem_of_here. rewrite Ho in Hx. by apply elem_of_nil in Hx.
Qed.

(** A comparison without discrepancies is an exact projection: nothing is reported if and only
    if every wanted task has exactly one task on the board under its key, with its title, assignee and
    status, and every task of the board is under the key of a wanted one. *)
Theorem compare_projection_exact (desired : list DesiredTask) (observed : list TaskSnapshot) :
  compare_projection desired observed = [] <->
  (forall t, t ∈ desired -> exists o, keyed t.(dt_projection_key) observed = [o] /\ same_shape t o = true)
  /\ (forall o, o ∈ observed -> exists t, t ∈ desired /\ task_projection_key o = Some t.(dt_projection_key)).
Proof.
  unfold compare_projection. destruct (foldl _ _ _) as [by_key foreign] eqn:Hf.
  destruct (filed_keyed observed ∅ []) as [Hm Ho]. rewrite Hf in Hm, Ho. simpl in Hm, Ho. subst foreign.
  assert (forall k, default [] (by_key !! k) = keyed k observed) as Hk by exact Hm. clear Hf Hm.
  transitivity ((forall t, t ∈ desired -> discrepancy by_key t = None)
    /\ List.filter (fun o => bool_decide (task_projection_key o = None)) observed = []
    /\ (forall k, k ∉ dt_projection_key <$> desired -> keyed k observed = [])).
  - split.
    + intros [Hd Hs]%app_eq_nil. apply fmap_nil_inv, order_nil, app_eq_nil in Hs as [Hn Hs]. apply fmap_nil_inv in Hn.
      split_and!; [by apply omap_nil|done|]. intros k Hkn. rewrite <-Hk. destruct (by_key !! k) as [l|] eqn:Hl; [|done]. simpl.
      apply elem_of_map_to_list in Hl. apply list_elem_of_split in Hl as (pre & post & Hl). rewrite Hl, bind_app in Hs.
      apply app_eq_nil in Hs as [_ Hs]. simpl in Hs. rewrite bool_decide_false in Hs by done. apply app_eq_nil in Hs as [Hs _].
      by apply fmap_nil_inv in Hs.
    + intros (Hd & Hn & Hs). rewrite (proj2 (omap_nil _ _) Hd), Hn. simpl. rewrite bind_nil_all; [done|].
      intros [k l] Hl%elem_of_map_to_list. case_bool_decide as Hkn; [done|].
      specialize (Hs k Hkn). rewrite <-Hk, Hl in Hs. simpl in Hs. by rewrite Hs.
  - setoid_rewrite discrepancy_none. setoid_rewrite Hk. apply and_iff_compat_l. split.
    + intros [Hn Hs] o Ho. destruct (task_projection_key o) as [k|] eqn:Hok.
      * destruct (decide (k ∈ dt_projection_key <$> desired)) as [(t & -> & Ht)%list_elem_of_fmap|Hkn]; [by exists t|].
        specialize (Hs k Hkn). assert (o ∈ keyed k observed) as Hin; [|rewrite Hs in Hin; by apply elem_of_nil in Hin].
        apply list_elem_of_In, filter_In. split; [by apply list_elem_of_In|by apply bool_decide_true].
      * exfalso. assert (In o []) as []. rewrite <-Hn. apply filter_In. split; [by apply list_elem_of_In|by apply bool_decide_true].
    + intros Ha. split; [|intros k Hkn]; apply filter_none; intros o Ho; destruct (Ha o Ho) as (t & Ht & Hto); rewrite Hto;
        apply bool_decide_false; [done|]. intros [= <-]. by apply Hkn, list_elem_of_fmap_2.
Qed.
End drift.
