(* ===== verification/Dispatch.v ===== *)
(** * Dispatch: from a claimed effect to tasks and jobs

    [dispatch_once_inner] of crates/pip-control/src/dispatch.rs.  The intents of an effect are
    frozen in the ledger before anything is created; every create on the board is reserved
    first, and a reservation that was granted before is only reconciled, never repeated. *)

From Stdlib Require Import Ascii.
From stdpp Require Import relations pretty.
From S2P Require Import Prelude Text Parse Json Serde Domain Sql Tables Inputs Frozen StoreCore Outbox Steps Invariants.
From S2P Require Import Conversations Ledger System Contracts RolePolicy Scheduling Policy PolicyLaws Commands Cycles Bounds World.
From S2P Require Import Claims Takeover Board.
Open Scope Z_scope.

Definition DISPATCH_EFFECTS : list string :=
  ["DISPATCH_PLANNER"; "DISPATCH_BUILDER"; "DISPATCH_REVIEWERS"; "DISPATCH_FINAL_REVIEWER"].

Inductive DispatchCycleResult :=
| DispatchIdle
| DispatchAuthorizationBlocked
| DispatchProjected (effect_id : string) (projection_count direct_job_count released_gate_count : nat) (ledger_result : string).

Record DispatchCycleContext := {
  dx_skills_repository_commit : string; dx_hermes_program : string; dx_owner : string; dx_now : Z; dx_lease_seconds : Z;
  dx_authorization_valid : bool;
}.

Inductive DispatchCycleError :=
| DispatchStore (e : StoreError)
| DispatchPolicy (e : PolicyError)
| DispatchSchedule (e : DispatchError)
| DispatchHermes (e : HermesError)
| UncertainCreate (intent : string)
| DispatchProjection (e : ProjectionError)
| DispatchWorkspace (error : string)
| DispatchSerialization
| DispatchPaused
| InvalidSkillsCommit.

(** ** Interfaces *)

(** Seconds since the cycle started, read after what was sent so far. *)
Class Elapsed := elapsed_secs (sent : list Request) : Z.
(** The preparation of git worktrees and scratch storage; errors as their text. *)
Class WorkspacePreparer := {
  prepare_workspace (policy : RepositoryPolicy) (claimed : ClaimedEffect) (c : StoredCase) (s : Store) : result string ();
  prepare_dispatch_storage (policy : RepositoryPolicy) (s : Store) (intents : list DispatchIntent) : result string ();
}.

(** ** Direct tasks *)

Definition ser_direct (t : DirectTaskSpec) : Value :=
  json_object [("schema_version", Number t.(dt_schema_version)); ("source_effect_id", Str t.(dt_source_effect_id));
               ("task_id", Str t.(dt_task_id)); ("title", Str t.(dt_title)); ("body", t.(dt_body));
               ("role", Str (role_name t.(dt_role))); ("profile", Str t.(dt_profile)); ("workspace", Str t.(dt_workspace));
               ("skills", Array (Str <$> t.(dt_skills))); ("provider", Str t.(dt_provider)); ("model", Str t.(dt_model));
               ("max_runtime", Str t.(dt_max_runtime)); ("priority", Number t.(dt_priority))].
Definition direct_fields : list string :=
  ["schema_version"; "source_effect_id"; "task_id"; "title"; "body"; "role"; "profile"; "workspace"; "skills"; "provider";
   "model"; "max_runtime"; "priority"].
Definition de_direct (v : Value) : option DirectTaskSpec :=
  m ← as_struct direct_fields v;
  n ← field m "schema_version" de_u32;
  e ← field m "source_effect_id" as_str;
  i ← field m "task_id" as_str;
  t ← field m "title" as_str;
  b ← map_get "body" m;
  r ← field m "role" de_role;
  f ← field m "profile" as_str;
  w ← field m "workspace" as_str;
  s ← field m "skills" (de_vec as_str);
  p ← field m "provider" as_str;
  d ← field m "model" as_str;
  u ← field m "max_runtime" as_str;
  y ← field m "priority" de_u32;
  Some {| dt_schema_version := n; dt_source_effect_id := e; dt_task_id := i; dt_title := t; dt_body := b; dt_role := r;
          dt_profile := f; dt_workspace := w; dt_skills := s; dt_provider := p; dt_model := d; dt_max_runtime := u;
          dt_priority := y |}.

(** ** Intents *)

Definition intent_of (d : WorkflowDispatch) : result DispatchCycleError DispatchIntent :=
  match d.(wd_execution) with
  | RolePolicy.Hermes =>
      task ← map_err DispatchSchedule (hermes_task d);
      Ok {| intent_id := d.(wd_worker_projection_key); transport := Frozen.Hermes; desired := ser_spec task |}
  | RolePolicy.Direct =>
      task ← map_err DispatchSchedule (direct_task d);
      Ok {| intent_id := d.(wd_worker_projection_key); transport := Frozen.Direct; desired := ser_direct task |}
  end.

(** The outbox effect that runs a direct task; an observer does not hold the case up. *)
Definition direct_job (effect_id : string) (task : DirectTaskSpec) : result DispatchCycleError EffectInput :=
  role ← ok_or (get task.(dt_body) "role" ≫= as_str) DispatchSerialization;
  let worker := default role (get task.(dt_body) "reviewer_id" ≫= as_str) in
  let observer := match get task.(dt_body) "review_mode" ≫= as_str with
                  | Some mode => one_of ["advisory"; "shadow"]%string mode
                  | None => false
                  end in
  Ok {| fi_effect_id := effect_id +:+ ":direct:" +:+ worker;
        fi_effect_type := if observer then "RUN_DIRECT_OBSERVER" else "RUN_DIRECT_WORKER"; fi_payload := ser_direct task |}.

Definition projection (effect_id board : string) (observed : TaskSnapshot) (spec : TaskCreateSpec) : TaskProjectionInput := {|
  pi_projection_id := spec.(tc_projection_key); pi_effect_id := effect_id; pi_board := board; pi_task_id := observed.(ts_id);
  pi_desired := ser_spec spec; pi_observed := ser_task observed |}.

Definition COMMAND_TIMEOUT : Z := 20.
Definition OUTPUT_BOUND : Z := 4 * 1024 * 1024.

Section dispatch.
Context `{Codec} {runner : CommandRunner} {elapsed : Elapsed} (workspace : option WorkspacePreparer).

(** [now()]: the cycle's time, moved on by the time it took so far. *)
Definition clock (ctx : DispatchCycleContext) : Cycle DispatchCycleError Z :=
  ask ReadClock (fun sent => Ok (saturating_add u64_max ctx.(dx_now) (elapsed_secs sent))).

Definition with_workspace (f : WorkspacePreparer -> result string ()) : result DispatchCycleError () :=
  match workspace with Some p => map_err DispatchWorkspace (f p) | None => Ok () end.

(** The saved intents, or today's, frozen. *)
Definition effect_intents (policy : RepositoryPolicy) (ctx : DispatchCycleContext) (skills : string) (claimed : ClaimedEffect)
  (c : StoredCase) : Cycle DispatchCycleError (list DispatchIntent) :=
  saved ← query (fun s => map_err DispatchStore (dispatch_intents claimed.(ce_effect_id) s));
  match saved with
  | Some intents => mret intents
  | None =>
      workflow ← lift (map_err DispatchPolicy (workflow_policy policy));
      dispatches ← query (fun s => map_err DispatchSchedule (schedule_claimed_dispatch claimed c s workflow skills));
      intents ← lift (try_map intent_of dispatches);
      now ← clock ctx;
      transact (fun s => map_err DispatchStore (freeze_dispatch_intents claimed intents now s));;
      mret intents
  end.

(** A new task for a granted reservation; otherwise the task that is there. *)
Definition create_or_find (policy : RepositoryPolicy) (ctx : DispatchCycleContext) (h : HermesReader) (claimed : ClaimedEffect)
  (intent : string) (spec : TaskCreateSpec) : Cycle DispatchCycleError string :=
  now ← clock ctx;
  reservation ← transact (fun s => map_err DispatchStore (reserve_dispatch_create claimed intent now s));
  match reservation with
  | Granted =>
      created ← within DispatchProjection (project h spec []);
      mret (projected_id created)
  | Uncertain =>
      observed ← within DispatchHermes (list_tasks h (po_board policy));
      found ← lift (map_err DispatchProjection (reconcile spec observed));
      lift (ok_or found (UncertainCreate intent))
  end.

(** The task as the board shows it, without dependencies. *)
Definition verify_task (policy : RepositoryPolicy) (h : HermesReader) (spec : TaskCreateSpec) (task_id : string)
  : Cycle DispatchCycleError TaskSnapshot :=
  detail ← within DispatchHermes (show_task_detail h (po_board policy) task_id);
  lift (err_if (negb (bool_decide (detail.(td_parents) = Some []))) (DispatchProjection ProjectionDrift));;
  found ← lift (map_err DispatchProjection (reconcile spec [detail.(td_task)]));
  lift (err_if (negb (bool_decide (found = Some task_id))) (DispatchProjection ProjectionDrift));;
  mret detail.(td_task).

Definition dispatch_intent (policy : RepositoryPolicy) (ctx : DispatchCycleContext) (h : HermesReader) (claimed : ClaimedEffect)
  (acc : list TaskProjectionInput * list EffectInput) (i : DispatchIntent)
  : Cycle DispatchCycleError (list TaskProjectionInput * list EffectInput) :=
  match i.(transport) with
  | Frozen.Direct =>
      task ← lift (ok_or (de_direct i.(desired)) DispatchSerialization);
      job ← lift (direct_job claimed.(ce_effect_id) task);
      mret (acc.1, acc.2 ++ [job])
  | Frozen.Hermes =>
      spec ← lift (ok_or (de_spec i.(desired)) DispatchSerialization);
      task_id ← create_or_find policy ctx h claimed i.(intent_id) spec;
      task ← verify_task policy h spec task_id;
      mret (acc.1 ++ [projection claimed.(ce_effect_id) (po_board policy) task spec], acc.2)
  end.

(** The board's program; it is only looked at when a task goes there. *)
Definition board_for (ctx : DispatchCycleContext) (intents : list DispatchIntent) : result DispatchCycleError HermesReader :=
  let program := ctx.(dx_hermes_program) in
  if existsb (fun i => bool_decide (i.(transport) = Frozen.Hermes)) intents then
    h ← map_err DispatchHermes (new_reader program COMMAND_TIMEOUT OUTPUT_BOUND);
    map_err DispatchProjection (new_projector program COMMAND_TIMEOUT OUTPUT_BOUND);;
    Ok h
  else Ok {| hr_program := program; hr_timeout := COMMAND_TIMEOUT; hr_max_output_bytes := OUTPUT_BOUND |}.

Definition ledger_name (r : ApplyResult) : string := match r with Applied => "applied" | Replayed => "replayed" end.

Definition dispatch_claimed (policy : RepositoryPolicy) (ctx : DispatchCycleContext) (skills : string) (claimed : ClaimedEffect)
  (c : StoredCase) : Cycle DispatchCycleError DispatchCycleResult :=
  query (fun s => with_workspace (fun p => @prepare_workspace p policy claimed c s));;
  intents ← effect_intents policy ctx skills claimed c;
  query (fun s => with_workspace (fun p => @prepare_dispatch_storage p policy s intents));;
  h ← lift (board_for ctx intents);
  '(projections, jobs) ← fold_cycle (dispatch_intent policy ctx h claimed) ([], []) intents;
  now ← clock ctx;
  ledger ← transact (fun s => map_err DispatchStore
    (complete_dispatch_outputs claimed.(ce_effect_id) projections jobs ctx.(dx_owner) now None s));
  mret (DispatchProjected claimed.(ce_effect_id) (length projections) (length jobs) 0 (ledger_name ledger)).

Definition dispatch_once_inner (scope : RepositoryScope) (ctx : DispatchCycleContext)
  : Cycle DispatchCycleError DispatchCycleResult :=
  let policy := rs_policy scope in
  if negb (po_dispatch_enabled policy) || ic_paused (po_intake policy) then raise DispatchPaused else
  if negb ctx.(dx_authorization_valid) then mret DispatchAuthorizationBlocked else
  skills ← lift (map_err (fun _ => InvalidSkillsCommit) (GitSha_from_str ctx.(dx_skills_repository_commit)));
  claimed ← claim DispatchStore scope ctx.(dx_owner) ctx.(dx_now) ctx.(dx_lease_seconds) DISPATCH_EFFECTS;
  match claimed with
  | None => mret DispatchIdle
  | Some effect =>
      c ← claimed_case (DispatchStore (MissingCase effect.(ce_case_key))) effect.(ce_case_key);
      dispatch_claimed policy ctx skills effect c
  end.
End dispatch.

(** ** Creates *)

(** A command that creates a task. *)
Definition created (q : Request) : bool :=
  match q with RunCommand spec => bool_decide (spec.(cm_args) !! 3%nat = Some "create"%string) | _ => false end.

Section laws.
Context `{Codec}.

Definition reserved (s : Store) (intent : string) : Prop := exists d, d ∈ s.(dispatch_create_attempts) /\ d.(d_intent_id) = intent.
(** The intent is in a batch of the ledger, as it was read back or as it was written. *)
Definition frozen_in (s : Store) (i : DispatchIntent) : Prop :=
  (exists effect l, read_intents s effect = Ok (Some l) /\ i ∈ l)
  \/ exists row l v, row ∈ s.(dispatch_batches) /\ freeze_inputs l = Ok v /\ row.(b_payload_json) = to_string v /\ i ∈ l.

(** A command that creates the task of a frozen intent under its own reservation. *)
Definition job_of (s : Store) (job : string * CommandSpec) : Prop :=
  reserved s job.1 /\ exists i spec h, frozen_in s i /\ i.(intent_id) = job.1 /\ i.(transport) = Frozen.Hermes
    /\ de_spec i.(desired) = Some spec /\ create_command h spec = Ok job.2.

(** The creates that were sent are those of different frozen intents, each under its reservation. *)
Definition created_once (w : World) : Prop :=
  exists jobs, List.filter created w.(w_log) = (fun job => RunCommand job.2) <$> jobs
    /\ NoDup jobs.*1 /\ Forall (job_of (w_store w)) jobs.

(** *** What the ledger keeps *)

Lemma find_prefix {A} (p : A -> bool) l k x : List.find p l = Some x -> l `prefix_of` k -> List.find p k = Some x.
Proof. intros Hf [m ->]. induction l as [|a l IH]; simpl in *; [done|]. destruct (p a); auto. Qed.
Lemma frozen_evolves s s' i : evolves s s' -> frozen_in s i -> frozen_in s' i.
Proof.
  intros Hev [(effect & l & Hr & Hi)|(row & l & v & Hrow & Hf & Hp & Hi)].
  - left. exists effect, l. split; [|done]. unfold read_intents in *.
    destruct (List.find _ (dispatch_batches s)) as [row|] eqn:Hb; [|done].
    by rewrite (find_prefix _ _ _ _ Hb (ev_batches _ _ Hev)).
  - right. exists row, l, v. split_and!; try done. by apply (prefix_elem _ _ _ (ev_batches _ _ Hev)).
Qed.
Lemma reserved_evolves s s' k : evolves s s' -> reserved s k -> reserved s' k.
Proof. intros Hev (d & Hd & Hk). exists d. split; [|done]. by apply (prefix_elem _ _ _ (ev_creates _ _ Hev)). Qed.
Lemma job_evolves s s' job : evolves s s' -> job_of s job -> job_of s' job.
Proof.
  intros Hev (Hr & i & spec & h & Hf & Hi). split; [by eapply reserved_evolves|]. exists i, spec, h.
  split; [by eapply frozen_evolves|done].
Qed.

(** A step that creates nothing. *)
Definition no_create (w w' : World) : Prop :=
  evolves (w_store w) (w_store w') /\ exists sent, w'.(w_log) = w.(w_log) ++ sent /\ Forall (fun q => created q = false) sent.
#[export] Instance no_create_preorder : PreOrder no_create.
Proof.
  split.
  - intros w. split; [done|]. exists []. by rewrite app_nil_r.
  - intros a b c (? & l & Hl & Hf) (? & l' & Hl' & Hf'). split; [by etrans|]. exists (l ++ l').
    rewrite Hl', Hl, <-app_assoc. split; [done|]. by apply Forall_app.
Qed.
Lemma still_no_create w w' : still w w' -> no_create w w'.
Proof. intros ((Hq & _) & Hl & _). split; [done|]. exists []. by rewrite app_nil_r. Qed.

Lemma no_create_once w w' : no_create w w' -> created_once w -> created_once w'.
Proof.
  intros (Hev & sent & Hl & Hf) (jobs & Hj & Hn & Ha). exists jobs. split_and!; [|done|].
  - by rewrite Hl, List.filter_app, (filter_none _ _ (proj1 (Forall_forall _ _) Hf)), app_nil_r.
  - eapply Forall_impl; [exact Ha|]. intros job. by apply job_evolves.
Qed.

(** *** Steps that create nothing *)

Definition Quiet {E A} (m : Cycle E A) : Prop := forall w r w', m w = (r, w') -> no_create w w'.

Lemma quiet_bind {E A B} (m : Cycle E A) (k : A -> Cycle E B) : Quiet m -> (forall a, Quiet (k a)) -> Quiet (m ≫= k).
Proof.
  intros Hm Hk w r w' Hr. apply bind_inv in Hr as [(a & w1 & Ha & Hr)|(e & He & _)]; [|by eapply Hm].
  etrans; [by eapply Hm|by eapply Hk].
Qed.
Lemma quiet_ret {E A} (a : A) : Quiet (E := E) (mret a).
Proof. by intros w r w' [= <- <-]. Qed.
Lemma quiet_lift {E A} (m : result E A) : Quiet (lift m).
Proof. by intros w r w' [= <- <-]. Qed.
Lemma quiet_reads {E A} (f : Store -> result E A) : Quiet (query f).
Proof. by intros w r w' [= <- <-]. Qed.
Lemma quiet_within {E E' A} (f : E -> E') (m : Cycle E A) : Quiet m -> Quiet (within f m).
Proof. intros Hm w r w' Hw. unfold within in Hw. destruct (m w) as [r0 w0] eqn:H0. injection Hw as <- <-. by eapply Hm. Qed.
Lemma quiet_transact {E A} (f : Store -> result E (A * Store)) :
  (forall s a s', f s = Ok (a, s') -> quiet s s') -> Quiet (transact f).
Proof. intros Hf w r w' Hw. apply still_no_create. by eapply transact_still. Qed.
Lemma quiet_ask {E A} q (f : list Request -> result E A) : created q = false -> Quiet (ask q f).
Proof.
  intros Hq w r w' [= <- <-]. split; [done|]. exists [q]. split; [done|]. by repeat constructor.
Qed.

Ltac quiet_cycle :=
  repeat first [ apply quiet_ret | apply quiet_lift | apply quiet_reads | apply quiet_within
               | apply quiet_bind; [|intros ?] | apply quiet_ask; done
               | match goal with |- Quiet (match ?x with _ => _ end) => destruct x end ].

Context {runner : CommandRunner} {elapsed : Elapsed} (workspace : option WorkspacePreparer).

Lemma quiet_show h board id : Quiet (show_task_detail h board id).
Proof. unfold show_task_detail, execute_json, execute. quiet_cycle. Qed.
Lemma quiet_list h board : Quiet (list_tasks h board).
Proof. unfold list_tasks, execute_json, execute. quiet_cycle. Qed.
Lemma quiet_verify policy h spec id : Quiet (verify_task policy h spec id).
Proof. unfold verify_task. quiet_cycle; apply quiet_show. Qed.

Lemma create_command_created h spec cmd : create_command h spec = Ok cmd -> created (RunCommand cmd) = true.
Proof. unfold create_command. intros Hc. open_ok. by subst. Qed.

(** A create sends its one command, or nothing. *)
Lemma project_sends h spec w r w' :
  project h spec [] w = (r, w') ->
  no_create w w' \/ exists cmd, create_command h spec = Ok cmd /\ w_store w' = w_store w /\ w'.(w_log) = w.(w_log) ++ [RunCommand cmd].
Proof.
  unfold project. rewrite lift_run. destruct (reconcile spec []) as [[id|]|]; [intros [= <- <-]; by left| |intros [= <- <-]; by left].
  unfold create. rewrite lift_run. destruct (create_command h spec) as [cmd|]; [|intros [= <- <-]; by left].
  intros Hr. right. exists cmd. split; [done|]. apply bind_inv in Hr as [(o & w1 & Ho & Hr)|(e & He & _)].
  - injection Ho as Ho <-. run Hr; by injection Hr as <- <-.
  - by injection He as He <-.
Qed.

(** A granted reservation is new, and the intent is in a batch of the ledger. *)
Lemma granted_fresh claimed k now s s' :
  reserve_dispatch_create claimed k now s = Ok (Granted, s') -> ~ reserved s k /\ reserved s' k.
Proof.
  unfold reserve_dispatch_create. intros Hr. inv_store. case_match eqn:E; inv_store. split.
  - intros (d & Hd & Hk). rewrite exists_row_false, Forall_forall in E. apply E in Hd. by rewrite Hk, String.eqb_refl in Hd.
  - eexists. split; [apply elem_of_app; right; by apply list_elem_of_singleton|done].
Qed.

Lemma create_once policy ctx h claimed i spec w r w' :
  frozen_in (w_store w) i -> i.(transport) = Frozen.Hermes -> de_spec i.(desired) = Some spec ->
  create_or_find policy ctx h claimed i.(intent_id) spec w = (r, w') ->
  evolves (w_store w) (w_store w') /\ (created_once w -> created_once w').
Proof.
  intros Hfr Ht Hs Hr. unfold create_or_find in Hr.
  assert (forall w w', no_create w w' -> evolves (w_store w) (w_store w') /\ (created_once w -> created_once w')) as Hno.
  { intros w1 w2 Hn. split; [apply Hn|by apply no_create_once]. }
  apply bind_inv in Hr as [(now & w1 & Hc & Hr)|(e & [=] & _)].
  assert (no_create w w1) as H1 by (eapply quiet_ask; [|exact Hc]; done).
  destruct (Hno _ _ H1) as [Hev1 Hon1]. clear Hc.
  rewrite transact_run in Hr. destruct (map_err _ _) as [[[] s2]|] eqn:Hre; [| |by injection Hr as <- <-]; apply map_err_ok in Hre.
  - pose proof (reserve_evolves _ _ _ _ _ _ Hre) as (Hev2 & _). apply granted_fresh in Hre as [Hnew Hres].
    set (w2 := with_store s2 w1) in *.
    assert (exists r0 w0, project h spec [] w2 = (r0, w0) /\ w' = w0) as (r0 & w0 & Hp & ->).
    { apply bind_inv in Hr as [(? & w0 & Hp & Hr)|(e & Hp & _)]; unfold within in Hp;
        destruct (project h spec [] w2) as [r0 w3] eqn:E; injection Hp as _ <-; [injection Hr as _ <-|]; eauto. }
    apply project_sends in Hp as [Hn|(cmd & Hcmd & Hst & Hl)].
    { destruct (Hno _ _ Hn) as [Hev3 Hon3]. split; [by do 2 (etrans; [eassumption|])|]. intros Hw. apply Hon3.
      eapply no_create_once; [|by apply Hon1]. split; [exact Hev2|]. exists []. by rewrite app_nil_r. }
    rewrite Hst. split; [by etrans|]. intros Hw%Hon1. destruct Hw as (jobs & Hj & Hn & Ha).
    exists (jobs ++ [(intent_id i, cmd)]). rewrite Hl, Hst, List.filter_app.
    assert (List.filter created [RunCommand cmd] = [RunCommand cmd]) as -> by (cbn [List.filter]; by rewrite (create_command_created _ _ _ Hcmd)).
    split_and!.
    + by rewrite fmap_app, <-Hj.
    + rewrite fmap_app. apply NoDup_app. split_and!; [done| |by apply NoDup_singleton].
      intros k Hk [= ->]%list_elem_of_singleton. apply list_elem_of_fmap in Hk as (job & Hk & Hin).
      rewrite Forall_forall in Ha. destruct (Ha _ Hin) as [Hr0 _]. simpl in *. by rewrite <-Hk in Hr0.
    + apply Forall_app. split; [eapply Forall_impl; [exact Ha|]; intros job; by apply job_evolves|].
      apply Forall_singleton. split; [done|]. exists i, spec, h. split_and!; try done.
      eapply frozen_evolves; [|exact Hfr]. by etrans.
  - pose proof (reserve_evolves _ _ _ _ _ _ Hre) as (Hev2 & _). assert (no_create w1 (with_store s2 w1)) as H2.
    { split; [done|]. exists []. by rewrite app_nil_r. }
    assert (no_create (with_store s2 w1) w') as H3.
    { revert Hr. apply quiet_bind; [apply quiet_within, quiet_list|intros]. quiet_cycle. }
    apply Hno. by do 2 (etrans; [eassumption|]).
Qed.

Lemma freeze_frozen claimed intents now s r s' i :
  freeze_dispatch_intents claimed intents now s = Ok (r, s') -> i ∈ intents -> frozen_in s' i.
Proof.
  unfold freeze_dispatch_intents, payload, insert_batch_row. simpl. intros Hf Hi.
  rewrite <-(order_by_elem (fun a b : DispatchIntent => str_leb (intent_id a) (intent_id b))) in Hi.
  inv_store. case_match; inv_store.
  - bools. left. eexists _, _. split; [eassumption|]. by subst.
  - right. eexists _, _, _. split_and!; [apply elem_of_app; right; by apply list_elem_of_singleton|eassumption|done|done].
Qed.

Lemma intents_frozen policy ctx skills claimed c w r w' :
  effect_intents policy ctx skills claimed c w = (r, w') ->
  no_create w w' /\ forall intents i, r = Ok intents -> i ∈ intents -> frozen_in (w_store w') i.
Proof.
  unfold effect_intents. rewrite query_run. destruct (map_err _ (dispatch_intents _ _)) as [[l|]|] eqn:Hd.
  - intros [= <- <-]. split; [done|]. intros ? i [= <-] Hi. apply map_err_ok in Hd. left. eauto.
  - rewrite lift_run. destruct (map_err _ (workflow_policy _)) as [p|]; [|by intros [= <- <-]].
    rewrite query_run. destruct (map_err _ (schedule_claimed_dispatch _ _ _ _ _)) as [ds|]; [|by intros [= <- <-]].
    rewrite lift_run. destruct (try_map _ _) as [l|]; [|by intros [= <- <-]].
    intros Hr. apply bind_inv in Hr as [(now & w1 & Hc & Hr)|(e & [=] & _)].
    assert (no_create w w1) as H1 by (eapply quiet_ask; [|exact Hc]; done).
    rewrite transact_run in Hr. destruct (map_err _ (freeze_dispatch_intents _ _ _ _)) as [[a s2]|] eqn:Hf; [|by injection Hr as <- <-].
    injection Hr as <- <-. apply map_err_ok in Hf. split.
    + etrans; [exact H1|]. apply still_no_create. split; [by eapply freeze_evolves|done].
    + intros ? i [= <-] Hi. by eapply freeze_frozen.
  - by intros [= <- <-].
Qed.

(** What a step does to the ledger and to the creates. *)
Definition keeps_once (w w' : World) : Prop := evolves (w_store w) (w_store w') /\ (created_once w -> created_once w').
#[export] Instance keeps_once_preorder : PreOrder keeps_once.
Proof. split; [by intros w|]. intros a b c [? ?] [? ?]. split; [by etrans|auto]. Qed.
Lemma no_create_keeps w w' : no_create w w' -> keeps_once w w'.
Proof. intros Hn. split; [apply Hn|by apply no_create_once]. Qed.

Lemma intent_once policy ctx h claimed acc i w r w' :
  frozen_in (w_store w) i -> dispatch_intent policy ctx h claimed acc i w = (r, w') -> keeps_once w w'.
Proof.
  intros Hf Hr. unfold dispatch_intent in Hr. destruct (transport i) eqn:Ht.
  - rewrite lift_run in Hr. destruct (de_spec _) as [spec|] eqn:Hs; simpl in Hr; [|by injection Hr as <- <-].
    apply bind_inv in Hr as [(id & w1 & Hc & Hr)|(e & Hc & _)]; apply create_once in Hc; try done.
    etrans; [exact Hc|]. apply no_create_keeps. revert Hr. apply quiet_bind; [apply quiet_verify|intros]. quiet_cycle.
  - apply no_create_keeps. revert Hr. quiet_cycle.
Qed.
Lemma loop_once policy ctx h claimed l acc w r w' :
  (forall i, i ∈ l -> frozen_in (w_store w) i) ->
  fold_cycle (dispatch_intent policy ctx h claimed) acc l w = (r, w') -> keeps_once w w'.
Proof.
  revert acc w. induction l as [|i l IH]; intros acc w Hl Hr; [by injection Hr as <- <-|]. simpl in Hr.
  apply bind_inv in Hr as [(acc1 & w1 & Hi & Hr)|(e & Hi & _)]; apply intent_once in Hi; try (apply Hl; set_solver); [|done].
  etrans; [exact Hi|]. eapply IH; [|exact Hr]. intros j Hj. eapply frozen_evolves; [apply Hi|]. apply Hl. set_solver.
Qed.
Lemma dispatch_keeps_once scope ctx w r w' : dispatch_once_inner workspace scope ctx w = (r, w') -> keeps_once w w'.
Proof.
  intros Hr. unfold dispatch_once_inner in Hr. destruct (negb _ || _) eqn:Hpause; [by injection Hr as <- <-|].
  destruct (negb _) eqn:Hauth in Hr; [by injection Hr as <- <-|]. rewrite lift_run in Hr.
  destruct (map_err _ (GitSha_from_str _)) as [skills|]; [|by injection Hr as <- <-].
  apply bind_inv in Hr as [(claimed & w1 & Hcl & Hr)|(e & Hcl & _)]; apply claim_still, still_no_create, no_create_keeps in Hcl; [|done].
  etrans; [exact Hcl|]. destruct claimed as [effect|]; [|by injection Hr as <- <-]. unfold claimed_case in Hr. rewrite query_run in Hr.
  destruct (ok_or _ _) as [c|] in Hr; [|by injection Hr as <- <-]. unfold dispatch_claimed in Hr. rewrite query_run in Hr.
  destruct (with_workspace _ _) as [[]|] in Hr; [|by injection Hr as <- <-].
  apply bind_inv in Hr as [(l & w2 & Hi & Hr)|(e & Hi & _)]; apply intents_frozen in Hi as [Hn Hfr]; apply no_create_keeps in Hn; [|done].
  etrans; [exact Hn|]. rewrite query_run in Hr. destruct (with_workspace _ _) as [[]|] in Hr; [|by injection Hr as <- <-].
  rewrite lift_run in Hr. destruct (board_for _ _) as [h|]; [|by injection Hr as <- <-].
  apply bind_inv in Hr as [([ps js] & w3 & Hlo & Hr)|(e & Hlo & _)]; apply loop_once in Hlo; try (intros; by eapply Hfr); [|done].
  etrans; [exact Hlo|]. apply no_create_keeps. revert Hr. unfold clock. apply quiet_bind; [by apply quiet_ask|intros now].
  apply quiet_bind; [|intros; apply quiet_ret]. apply quiet_transact. intros s a s' Hs%map_err_ok. by eapply complete_dispatch_evolves.
Qed.

(** *** What a completed dispatch hands over *)

(** The task of a frozen intent, as the board showed it. *)
Definition task_for (effect_id board : string) (i : DispatchIntent) (p : TaskProjectionInput) : Prop :=
  exists spec task, de_spec i.(desired) = Some spec /\ valid_spec spec = true /\ projection_matches spec task = true
    /\ p = projection effect_id board task spec.
Definition job_for (effect_id : string) (i : DispatchIntent) (j : EffectInput) : Prop :=
  exists task, de_direct i.(desired) = Some task /\ direct_job effect_id task = Ok j.
Definition on_board (i : DispatchIntent) : bool := bool_decide (i.(transport) = Frozen.Hermes).
Definition handed_over (effect_id board : string) (intents : list DispatchIntent) (out : list TaskProjectionInput * list EffectInput)
  : Prop :=
  Forall2 (task_for effect_id board) (List.filter on_board intents) out.1
  /\ Forall2 (job_for effect_id) (List.filter (fun i => negb (on_board i)) intents) out.2.

Lemma reconcile_one spec task id :
  reconcile spec [task] = Ok (Some id) -> valid_spec spec = true /\ projection_matches spec task = true /\ id = ts_id task.
Proof.
  unfold reconcile, validate_spec. intros Hr. open_ok. bools. simpl in *. destruct (bool_decide _); [|done].
  destruct (String.eqb _ _); [done|]. destruct (projection_matches spec task) eqn:Hm; [|done]. by simplify_eq.
Qed.
Lemma verify_matches policy h spec id w task w' :
  verify_task policy h spec id w = (Ok task, w') -> valid_spec spec = true /\ projection_matches spec task = true.
Proof.
  unfold verify_task. intros Hr. apply bind_inv in Hr as [(d & w1 & _ & Hr)|(e & _ & [=])].
  rewrite lift_run in Hr. destruct (err_if _ _); [|done]. rewrite lift_run in Hr.
  destruct (map_err _ (reconcile _ _)) as [found|] eqn:Hre; [|done]. apply map_err_ok in Hre. rewrite lift_run in Hr.
  destruct (err_if _ _) eqn:Hif in Hr; [|done]. injection Hr as <- _. apply err_if_ok in Hif. bools. subst found.
  apply reconcile_one in Hre as (? & ? & _). done.
Qed.

Lemma intent_handed policy ctx h claimed acc i w out w' pre :
  handed_over (ce_effect_id claimed) (po_board policy) pre acc -> dispatch_intent policy ctx h claimed acc i w = (Ok out, w') ->
  handed_over (ce_effect_id claimed) (po_board policy) (pre ++ [i]) out.
Proof.
  intros [Hp Hj] Hr. unfold dispatch_intent in Hr. unfold handed_over. rewrite !List.filter_app. simpl.
  destruct (transport i) eqn:Ht; unfold on_board at 2 4; rewrite Ht; simpl; rewrite ?app_nil_r.
  - rewrite lift_run in Hr. destruct (de_spec _) as [spec|] eqn:Hs; simpl in Hr; [|done].
    apply bind_inv in Hr as [(id & w1 & _ & Hr)|(e & _ & [=])]. apply bind_inv in Hr as [(task & w2 & Hv & Hr)|(e & _ & [=])].
    injection Hr as <- <-. apply verify_matches in Hv as [? ?]. split; [|done]. apply Forall2_app; [done|].
    constructor; [|done]. exists spec, task. by split_and!.
  - rewrite lift_run in Hr. destruct (de_direct _) as [task|] eqn:Hs; simpl in Hr; [|done]. rewrite lift_run in Hr.
    destruct (direct_job _ _) as [job|] eqn:Hd; [|done]. injection Hr as <- <-. split; [done|]. apply Forall2_app; [done|].
    constructor; [|done]. by exists task.
Qed.
Lemma loop_handed policy ctx h claimed l : forall acc pre w out w',
  handed_over (ce_effect_id claimed) (po_board policy) pre acc ->
  fold_cycle (dispatch_intent policy ctx h claimed) acc l w = (Ok out, w') ->
  handed_over (ce_effect_id claimed) (po_board policy) (pre ++ l) out.
Proof.
  induction l as [|i l IH]; intros acc pre w out w' Hh Hr; [injection Hr as <- _; by rewrite app_nil_r|]. simpl in Hr.
  apply bind_inv in Hr as [(acc1 & w1 & Hi & Hr)|(e & _ & [=])]. eapply intent_handed in Hi; [|exact Hh].
  change (pre ++ i :: l) with (pre ++ [i] ++ l). rewrite app_assoc. by eapply IH.
Qed.
End laws.

(** ** Runs of dispatches *)

(** A dispatch, under any board and clock, or anything else the ledger does that creates no task. *)
Inductive board_step `{Codec} (w w' : World) : Prop :=
| bs_dispatch (runner : CommandRunner) (elapsed : Elapsed) workspace scope ctx r :
    dispatch_once_inner workspace scope ctx w = (r, w') -> board_step w w'
| bs_other sent :
    rtc store_step (w_store w) (w_store w') -> w'.(w_log) = w.(w_log) ++ sent -> Forall (fun q => created q = false) sent ->
    board_step w w'.

Lemma board_step_once `{Codec} w w' : board_step w w' -> keeps_once w w'.
Proof.
  intros [runner elapsed workspace scope ctx r Hd|sent Hs Hl Hf]; [by eapply dispatch_keeps_once|].
  apply no_create_keeps. split; [by apply steps_evolve|eauto].
Qed.

(** C18: A task is created at most once.  However many dispatches run, by any controllers, with any
    answers of the board, with crashes after any request and with any other activity of the ledger that
    creates no task in between, the commands that create a task belong to different intents: each is the command of an
    intent that a batch of the ledger holds, under that intent's own reservation. *)
Theorem task_created_at_most_once `{Codec} (w w' : World)
  (Hstart : List.filter created w.(w_log) = []) (Hrun : rtc board_step w w') : created_once w'.
Proof.
  assert (created_once w) as Hw by (exists []; by repeat constructor). clear Hstart.
  induction Hrun as [|w w1 w' Hs _ IH]; [done|]. apply IH. by apply (board_step_once _ _ Hs).
Qed.


Lemma create_sound `{Codec} {runner : CommandRunner} h spec observed : Sound (project h spec observed).
Proof. unfold project, create. sound; first [apply sound_within, sound_ask|apply sound_lift]. Qed.
Lemma show_sound `{Codec} {runner : CommandRunner} h board id : Sound (show_task_detail h board id).
Proof. unfold show_task_detail, execute_json, execute. sound; apply sound_ask. Qed.
Lemma list_sound `{Codec} {runner : CommandRunner} h board : Sound (list_tasks h board).
Proof. unfold list_tasks, execute_json, execute. sound; apply sound_ask. Qed.
Lemma reserve_sound `{Codec} {E} (err : StoreError -> E) claimed k now :
  Sound (transact (fun s => map_err err (reserve_dispatch_create claimed k now s))).
Proof. apply sound_quiet. intros s a s' Hs%map_err_ok. split; [by eapply step_reserve|by eapply reserve_evolves]. Qed.
Lemma freeze_sound `{Codec} {E} (err : StoreError -> E) claimed l now :
  Sound (transact (fun s => map_err err (freeze_dispatch_intents claimed l now s))).
Proof. apply sound_quiet. intros s a s' Hs%map_err_ok. split; [by eapply step_freeze|by eapply freeze_evolves]. Qed.
Lemma outputs_sound `{Codec} {E} (err : StoreError -> E) e ps js o now f :
  Sound (transact (fun s => map_err err (complete_dispatch_outputs e ps js o now f s))).
Proof. apply sound_quiet. intros s a s' Hs%map_err_ok. split; [by eapply step_dispatch|by eapply complete_dispatch_evolves]. Qed.

Ltac sound_board :=
  repeat first [ sound_step | apply sound_ask | apply reserve_sound | apply freeze_sound | apply outputs_sound | apply sound_lease
               | apply sound_within; first [apply create_sound | apply show_sound | apply list_sound] ].

Section sound.
Context `{Codec} {runner : CommandRunner} {elapsed : Elapsed}.
Lemma find_sound policy ctx h claimed k spec : Sound (create_or_find policy ctx h claimed k spec).
Proof. unfold create_or_find, clock. sound_board. Qed.
Lemma verify_sound policy h spec id : Sound (verify_task policy h spec id).
Proof. unfold verify_task. sound_board. Qed.
Lemma intent_sound policy ctx h claimed acc i : Sound (dispatch_intent policy ctx h claimed acc i).
Proof. unfold dispatch_intent. sound_board; first [apply find_sound|apply verify_sound]. Qed.
Lemma intents_sound policy ctx skills claimed c : Sound (effect_intents policy ctx skills claimed c).
Proof. unfold effect_intents, clock. sound_board. Qed.
Lemma dispatch_sound workspace scope ctx : Sound (dispatch_once_inner workspace scope ctx).
Proof.
  unfold dispatch_once_inner, dispatch_claimed, claimed_case, clock. sound_board; first [apply intents_sound|apply intent_sound].
Qed.
End sound.

(** ** A compact codec

    Length-prefixed text, so that records that carry serialized records stay small; the
    digest is the length.  Used only to exhibit executions. *)
Definition counted (s : string) : string := (pretty (String.length s) +:+ ":" +:+ s)%string.
Fixpoint lean (v : Value) : string :=
  match v with
  | Null => "n"
  | Bool b => if b then "t" else "f"
  | Number n => "i" +:+ pretty n +:+ ";"
  | Float n => "d" +:+ pretty n +:+ ";"
  | Str s => "s" +:+ counted s
  | Array vs => "[" +:+ (fix go l := match l with [] => "]" | v :: l => lean v +:+ go l end) vs
  | Object ms => "{" +:+ (fix go l := match l with [] => "}" | (k, v) :: l => "s" +:+ counted k +:+ lean v +:+ go l end) ms
  end%string.
Definition read_counted (s : string) : option (string * string) :=
  '(digits, rest) ← find_char ":"%char s;
  n ← parse_u64 digits;
  Some (take_bytes (Z.to_nat n) rest, drop_bytes (Z.to_nat n) rest).
Definition read_integer (s : string) : option (Z * string) :=
  '(digits, rest) ← find_char ";"%char s;
  n ← parse_i64 digits;
  Some (n, rest).
Fixpoint unlean (fuel : nat) (s : string) : option (Value * string) :=
  match fuel, s with
  | S fuel, String c s =>
      if Ascii.eqb c "n"%char then Some (Null, s)
      else if Ascii.eqb c "t"%char then Some (Bool true, s)
      else if Ascii.eqb c "f"%char then Some (Bool false, s)
      else if Ascii.eqb c "i"%char then '(n, s) ← read_integer s; Some (Number n, s)
      else if Ascii.eqb c "d"%char then '(n, s) ← read_integer s; Some (Float n, s)
      else if Ascii.eqb c "s"%char then '(t, s) ← read_counted s; Some (Str t, s)
      else if Ascii.eqb c "["%char then
        (fix items n s := match n, s with
           | S n, String c s' => if Ascii.eqb c "]"%char then Some (Array [], s')
               else '(v, s) ← unlean fuel s; '(w, s) ← items n s;
                    match w with Array vs => Some (Array (v :: vs), s) | _ => None end
           | _, _ => None
           end) 40%nat s
      else if Ascii.eqb c "{"%char then
        (fix members n s := match n, s with
           | S n, String c s' => if Ascii.eqb c "}"%char then Some (Object [], s')
               else '(k, s) ← read_counted s'; '(v, s) ← unlean fuel s; '(w, s) ← members n s;
                    match w with Object ms => Some (Object ((k, v) :: ms), s) | _ => None end
           | _, _ => None
           end) 40%nat s
      else None
  | _, _ => None
  end.
Definition lean_codec : Codec := {|
  to_string := lean;
  from_str s := match unlean 12 s with Some (v, EmptyString) => Some v | _ => None end;
  hash_bytes s := pretty (String.length s);
  float_cmp := Z.compare;
  float_cmp_int := Z.compare;
  float_of_int n := n;
  int_text _ := None;
|}.

(** ** A board *)

Definition arg (n : nat) (args : list string) : string := default "" (args !! n).
Fixpoint flag_values (flag : string) (args : list string) : list string :=
  match args with
  | a :: ((v :: _) as rest) => if String.eqb a flag then v :: flag_values flag rest else flag_values flag rest
  | _ => []
  end.
(** The task a create command makes. *)
Definition demo_task (args : list string) : TaskSnapshot :=
  let '(kind, path) := workspace_parts (arg 10 args) in {|
  ts_id := "t1"; ts_title := arg 4 args; ts_status := "ready"; ts_assignee := Some (arg 8 args);
  ts_created_by := Some (arg 14 args); ts_body := arg 6 args;
  ts_configuration := {| cf_workspace_kind := Some kind; cf_workspace_path := path; cf_skills := Some (flag_values "--skill" args);
    cf_provider_override := hd_error (flag_values "--provider" args); cf_model_override := hd_error (flag_values "--model" args);
    cf_max_retries := parse_u64 (arg 18 args); cf_priority := parse_u64 (arg 20 args) |} |}.
Definition demo_tasks (sent : list Request) : list TaskSnapshot :=
  omap (fun q => match q with RunCommand spec => if created q then Some (demo_task spec.(cm_args)) else None | _ => None end) sent.
Definition demo_output (v : Value) : result HermesError CommandOutput :=
  Ok {| co_status := 0; co_stdout := to_string (Codec := lean_codec) v; co_stderr := ""; co_timed_out := false |}.
(** It remembers what was created; [up] tells whether [show] answers. *)
Definition demo_board (up : bool) : CommandRunner := fun sent spec =>
  let args := spec.(cm_args) in
  if created (RunCommand spec) then demo_output (ser_task (demo_task args))
  else if String.eqb (arg 3 args) "list" then demo_output (Array (ser_task <$> demo_tasks sent))
  else if up then match demo_tasks sent with
                  | task :: _ => demo_output (json_object [("task", ser_task task); ("parents", Array [])])
                  | [] => Err HermesProcess
                  end
  else Err HermesTimedOut.
Definition demo_clock : Elapsed := fun sent => Z.of_nat (length sent).
Definition demo_dispatch (now : Z) : DispatchCycleContext := {|
  dx_skills_repository_commit := "0123456789012345678901234567890123456789"; dx_hermes_program := "hermes"; dx_owner := "w";
  dx_now := now; dx_lease_seconds := 60; dx_authorization_valid := true |}.
Definition run_dispatch (up : bool) (now : Z) (w : World) :=
  dispatch_once_inner (H := lean_codec) (runner := demo_board up) (elapsed := demo_clock) None demo_scope (demo_dispatch now) w.
Definition demo_start : World := demo_world (after (create_case (H := lean_codec) {|
  nc_case_key := "repo:1#2@3"; nc_repository_id := 1; nc_issue_number := 2; nc_workflow_version := 3; nc_policy_revision := 1;
  nc_initial_state := "PLANNING"; nc_observed_at := 100;
  nc_event := {| ei_event_id := "e1"; ei_event_type := "ISSUE_AUTHORIZED"; ei_payload := Object [] |};
  nc_effects := [{| fi_effect_id := "x1"; fi_effect_type := "DISPATCH_PLANNER"; fi_payload := Object [] |}] |} empty_store)).
Definition demo_crashed : World := (run_dispatch false 200 demo_start).2.
Definition demo_recovered : World := (run_dispatch true 300 demo_crashed).2.

Lemma task_created_at_most_once_witness :
  created_once (H := lean_codec) demo_recovered
  /\ (run_dispatch false 200 demo_start).1 = Err (DispatchHermes HermesTimedOut)
  /\ (run_dispatch true 300 demo_crashed).1 = Ok (DispatchProjected "x1" 1 0 0 "applied")
  /\ length (List.filter created demo_recovered.(w_log)) = 1%nat.
Proof.
  split_and!; [|vm_compute; reflexivity..].
  apply (task_created_at_most_once (H := lean_codec) demo_start demo_recovered).
  - reflexivity.
  - apply rtc_l with demo_crashed; [|apply rtc_once];
      (eapply bs_dispatch; unfold demo_crashed, demo_recovered, run_dispatch; apply surjective_pairing).
Defined.

