(* ===== verification/Collect.v ===== *)
(** * Collect: results of board tasks

    crates/pip-control/src/results.rs.  A collection looks at the tasks that were projected for
    the repository and have neither a result nor a rejection.  With [advance] it ingests one result
    that is valid for its job, or rejects one: a failure is scheduled again until the budget of
    the stage is spent, a worker's own block parks the case at once.  Without [advance] it only
    keeps a valid result for later.  [project_task_retries] creates the tasks of due retries. *)

From stdpp Require Import relations.
From S2P Require Import Prelude Text Parse Json Serde Domain StateMachine Revision Sql Tables Inputs Recovery Frozen StoreCore Outbox.
From S2P Require Import Records Status ProjectionRetry History Frames Steps Invariants Conversations CaseHistory Ledger Results System Ingest.
From S2P Require Import Contracts RolePolicy Scheduling Policy PolicyLaws Commands Cycles Bounds World Claims Takeover Board Dispatch.
Open Scope Z_scope.

Inductive ResultCycle :=
| ResultIdle
| Retained (task_id : string)
| Ingested (task_id : string) (transition_count : Z)
| ProviderFailureEscalated (task_id : string)
| RetryScheduled (task_id retry_projection : string) (attempt : Z)
| WorkerBlockedParked (task_id : string).

Definition RETRY_COOLDOWN_SECONDS : Z := 120.

Inductive RetryProjectionCycle := RetryIdle | RetryBlocked | RetryProjected (projection_id task_id : string).

(** The texts of malformed results and of projection errors are not kept; [ResultPanic] is a failed
    [expect] on the policy. *)
Inductive ResultCycleError :=
| ResultStore (e : StoreError)
| ResultHermes (e : HermesError)
| ResultIngest (e : IngestError)
| InvalidProjection
| ProfileMismatch
| MalformedResult
| ResultProjection
| ResultPanic.

(** A rejection of a job: [Failed] is tried again, [Blocked] was the worker's own. *)
Inductive Rejection := RejectFailed (reason : string) | RejectBlocked (reason : string).

(** [ContractError]'s [Display]. *)
Definition contract_text (e : ContractError) : string :=
  match e with
  | UnsupportedContractVersion => "unsupported contract version"
  | InvalidIdentity => "invalid case or run identity"
  | WorkflowVersionMismatch => "case workflow version mismatch"
  | RoleMismatch => "payload fields do not match the declared role"
  | UnexpectedModel => "actual model does not match requested model"
  | InvalidCommit => "invalid lowercase Git commit SHA"
  | InvalidDigest => "invalid lowercase SHA-256 digest"
  | InvalidTimestampOrder => "completion precedes start time"
  | EmptyRequiredField => "required string or collection is empty"
  | InvalidOutcomeEvidence => "outcome does not have its required evidence"
  | CiHeadMismatch => "CI head does not match the reported PR head"
  | ApprovalHasBlockingFindings => "approval retains blocking findings"
  | ApprovalHasOpenConfirmation => "approval retains an open finding confirmation"
  | BindingMismatch => "worker result does not match its immutable task binding"
  end.
(** The text of the serde error of a value that does not decode. *)
Class DecodeText := decode_text : Value -> string.

(** ** The immutable binding of a job *)

Definition number (body : list (string * Value)) (name : string) : result ResultCycleError Z :=
  ok_or (n ← map_get name body ≫= as_u64; if 0 <? n then Some n else None) InvalidProjection.
Definition optional_number (body : list (string * Value)) (name : string) : result ResultCycleError (option Z) :=
  match map_get name body with Some _ => n ← number body name; Ok (Some n) | None => Ok None end.
Definition text (body : list (string * Value)) (name : string) : result ResultCycleError string :=
  ok_or (v ← map_get name body ≫= as_str; if is_empty (trim v) then None else Some v) InvalidProjection.
Definition optional_text (body : list (string * Value)) (name : string) : result ResultCycleError (option string) :=
  match map_get name body with Some _ => v ← text body name; Ok (Some v) | None => Ok None end.
Definition body_text (body : list (string * Value)) (name : string) : option string := map_get name body ≫= as_str.

Definition job_role (value : option string) : result ResultCycleError WorkerRole :=
  ok_or (v ← value; List.find (fun r => String.eqb (role_name r) v) all_roles) InvalidProjection.
Definition job_review_mode (value : string) : result ResultCycleError ReviewMode :=
  ok_or (List.find (fun m => String.eqb (review_mode_name m) value) [Required; Advisory; ShadowMode]) InvalidProjection.
Definition job_body (desired : TaskCreateSpec) : result ResultCycleError (list (string * Value)) :=
  ok_or (as_object desired.(tc_body)) InvalidProjection.
Definition narrow_u32 (n : Z) : result ResultCycleError Z := if n <=? u32_max then Ok n else Err InvalidProjection.

Definition job_binding (task_id : string) (desired : TaskCreateSpec) : result ResultCycleError WorkerBinding :=
  body ← job_body desired;
  repository ← number body "repository_id";
  issue ← number body "issue_number";
  workflow ← (n ← number body "workflow_version"; narrow_u32 n);
  role ← job_role (body_text body "role");
  reviewer ← optional_text body "reviewer_id";
  mode ← match map_get "review_mode" body with
         | Some _ => v ← text body "review_mode"; m ← job_review_mode v; Ok (Some m)
         | None => Ok None
         end;
  model ← text body "requested_model";
  commit ← text body "skills_repository_commit";
  plan ← (n ← number body "plan_version"; narrow_u32 n);
  pr ← optional_number body "pr_number";
  head ← optional_text body "expected_head_sha";
  Ok {| wb_case := {| Contracts.repository_id := repository; Contracts.issue_number := issue; Contracts.workflow_version := workflow |};
        wb_task_id := task_id; wb_role := role; wb_reviewer_id := reviewer; wb_review_mode := mode; wb_requested_model := model;
        wb_skills_repository_commit := commit; wb_plan_version := plan; wb_pr_number := pr; wb_expected_head_sha := head |}.

(** The role the policy configures for a job. *)
Definition configured_role (workflow : WorkflowPolicy) (role : WorkerRole) (reviewer_id : option string)
  : result ResultCycleError RolePolicy :=
  match reviewer_id with
  | Some id => map_err (fun _ => InvalidProjection) (reviewer workflow id)
  | None => ok_or (List.find (fun r => bool_decide (r.(rp_role) = role) && is_none r.(rp_reviewer_id)) workflow.(wp_roles))
              InvalidProjection
  end.

(** The job is one this policy gives out. *)
Definition validate_projection (task_id : string) (desired : TaskCreateSpec) (policy : RepositoryPolicy)
  : result ResultCycleError () :=
  body ← job_body desired;
  role ← job_role (body_text body "role");
  workflow ← map_err (fun _ => InvalidProjection) (workflow_policy policy);
  let reviewer_id := body_text body "reviewer_id" in
  configured ← configured_role workflow role reviewer_id;
  repository ← number body "repository_id";
  version ← number body "workflow_version";
  err_if (is_empty (trim task_id)
    || negb (String.eqb desired.(tc_board) (po_board policy))
    || negb (repository =? rid_id (po_repository policy))
    || negb (version =? po_workflow_version policy)
    || negb (String.eqb desired.(tc_assignee) configured.(rp_profile))
    || negb (String.eqb desired.(tc_provider) configured.(rp_provider))
    || negb (String.eqb desired.(tc_model) configured.(rp_model))
    || negb (bool_decide (desired.(tc_skills) = configured.(rp_skills)))
    || negb (bool_decide (reviewer_id = configured.(rp_reviewer_id)))
    || negb (bool_decide (body_text body "review_mode" = review_mode_name <$> configured.(rp_review_mode)))
    || negb (bool_decide (body_text body "requested_model"
                          = Some (configured.(rp_provider) +:+ "/" +:+ configured.(rp_model))))) InvalidProjection.

(** ** Current jobs *)

Definition parked_states : list string := ["ESCALATED"; "BLOCKED"; "ABANDONED"; "COMPLETED"; "TAKEN_OVER"].
Definition reviewer_job (body : list (string * Value)) : bool :=
  match body_text body "role" with Some r => one_of ["reviewer-general"; "reviewer-secperf"] r | None => false end.

Section collect.
Context `{Codec} {runner : CommandRunner} {words : DecodeText}.

(** A peer review moves the revision, not the generation of the jobs. *)
Definition current_job_generation (s : Store) (c : StoredCase) (frozen_revision : Z) (is_reviewer : bool)
  : result StoreError bool :=
  if one_of parked_states c.(sc_state) then Ok false
  else if c.(sc_state_revision) =? frozen_revision then Ok true
  else if is_reviewer && String.eqb c.(sc_state) "REVIEWING" && (frozen_revision <? c.(sc_state_revision)) then
    history ← immutable_history_for_case c.(sc_case_key) s;
    Ok (forallb (fun e => String.eqb e.(se_event_type) "REVIEW_RECORDED")
          (List.filter (fun e => frozen_revision <? e.(se_state_revision)) history.(ih_events)))
  else Ok false.

(** ** A reported result *)

Definition managed_plan (plan : PlannerResult) : bool :=
  match map_get "plan_markdown" (Contracts.evidence (pl_common plan)) ≫= as_str with
  | Some t => negb (is_empty (trim t)) && (len t <=? 16 * 1024)
  | None => false
  end.
Definition validated_result (metadata : Value) (b : WorkerBinding) (desired : TaskCreateSpec) (observed_at : Z)
  : result string WorkerResult :=
  metadata ← map_err contract_text (fill_binding metadata {|
    Contracts.binding := b; Contracts.task_body := desired.(tc_body); Contracts.run_times := None; Contracts.now := observed_at;
    Contracts.reviewed_head_from_binding := false |});
  r ← ok_or (Contracts.decode metadata) (decode_text metadata);
  map_err contract_text (validate_binding r b);;
  err_if (negb (is_none (get desired.(tc_body) "storage"))
          && match r with PlannerR plan => negb (managed_plan plan) | _ => false end)
    "managed-storage planners require a nonempty inline plan of at most 16 KiB";;
  Ok r.

Definition body_projection_key (body : string) : option string :=
  v ← from_str body;
  get v "projection_key" ≫= as_str.

(** The completed task is the projected one. *)
Definition same_task (desired : TaskCreateSpec) (done_ : CompletedTaskResult) : bool :=
  String.eqb done_.(ct_profile) desired.(tc_assignee)
  && bool_decide (done_.(ct_task).(ts_assignee) = Some desired.(tc_assignee))
  && bool_decide (done_.(ct_task).(ts_created_by) = Some "pip-controller"%string)
  && String.eqb done_.(ct_task).(ts_title) desired.(tc_title)
  && bool_decide (body_projection_key done_.(ct_task).(ts_body) = Some desired.(tc_projection_key)).

(** What the board has to say about a task: nothing yet, that it is over without a result, or a result. *)
Inductive Fetched :=
| Skip
| Refused (r : Rejection)
| Reported (metadata : result string Value).

Definition fetch_result (policy : RepositoryPolicy) (h : HermesReader) (desired : TaskCreateSpec) (task_id : string) (advance : bool)
  : Cycle ResultCycleError Fetched :=
  shown ← attempt (show_completed_result h (po_board policy) task_id);
  match shown with
  | Ok completed =>
      lift (err_if (negb (same_task desired completed)) ProfileMismatch);;
      mret (Reported (map_err (fun _ => "Hermes run metadata is not a JSON object"%string) (worker_contract_metadata completed)))
  | Err IncompleteTask | Err IncompleteRun => mret Skip
  | Err RetryLimitReached =>
      mret (if advance then Refused (RejectFailed "the Hermes worker crashed, timed out, or exhausted its attempts") else Skip)
  | Err (HermesWorkerBlocked reason) => mret (if advance then Refused (RejectBlocked reason) else Skip)
  | Err e => raise (ResultHermes e)
  end.

(** ** Rejections *)

Definition rejection_details (task_id : string) (desired : TaskCreateSpec) (configured : RolePolicy) (reason : string) : Value :=
  json_object [("source", Str "hermes"); ("task_id", Str task_id); ("role", default Null (get desired.(tc_body) "role"));
               ("profile", Str desired.(tc_assignee)); ("provider", Str configured.(rp_provider)); ("model", Str configured.(rp_model));
               ("error", Str reason)].

Definition rejection_reason (rejection : Rejection) : string :=
  match rejection with
  | RejectFailed reason => reason
  | RejectBlocked reason => "worker blocked the task: " +:+ reason
  end.
Definition rejection_budget (policy : RepositoryPolicy) (rejection : Rejection) : Z :=
  match rejection with RejectFailed _ => po_max_provider_failures policy | RejectBlocked _ => 1 end.
Definition by_worker (rejection : Rejection) : bool := match rejection with RejectBlocked _ => true | RejectFailed _ => false end.
Definition bounds_error (e : OperationalBoundsError) : ResultCycleError :=
  match e with BoundsPanic => ResultPanic | _ => MalformedResult end.

Definition reject (policy : RepositoryPolicy) (p : TaskProjectionInput) (desired : TaskCreateSpec) (case_key : string) (now : Z)
  (rejection : Rejection) : Cycle ResultCycleError ResultCycle :=
  workflow ← lift (map_err (fun _ => InvalidProjection) (workflow_policy policy));
  configured ← lift (ok_or (List.find (fun r => String.eqb r.(rp_profile) desired.(tc_assignee)) workflow.(wp_roles)) InvalidProjection);
  let reason := rejection_reason rejection in
  let budget := rejection_budget policy rejection in
  attempts ← query (fun s => map_err ResultStore (projection_attempt p.(pi_projection_id) s));
  let rejected := transact (fun s => map_err ResultStore
    (reject_task_projection p.(pi_projection_id) now reason budget RETRY_COOLDOWN_SECONDS s)) in
  if attempts <? budget then
    answer ← rejected;
    match answer with
    | Retry projection_id attempt => mret (RetryScheduled p.(pi_task_id) projection_id attempt)
    | Exhausted _ => raise InvalidProjection
    end
  else
    let blocked := by_worker rejection in
    transact (fun s => map_err bounds_error (escalate_case_for_bound policy case_key now {|
      bo_bound := if blocked then Bounds.WorkerBlocked else ProviderFailures; bo_observed := attempts; bo_limit := budget;
      bo_details := rejection_details p.(pi_task_id) desired configured reason |} s));;
    rejected;;
    mret (if blocked then WorkerBlockedParked p.(pi_task_id) else ProviderFailureEscalated p.(pi_task_id)).

(** ** A collection *)

Definition RUN_TIMEOUT : Z := 20.
Definition RUN_OUTPUT_BOUND : Z := 4 * 1024 * 1024.

(** The policy the job was accepted under. *)
Definition job_policy (key : string) (revision : Z) (s : Store) : result ResultCycleError RepositoryPolicy :=
  value ← map_err ResultStore (accepted_policy_at_case_revision key revision s);
  map_err (fun _ => InvalidProjection) (load_repository_policy (to_string value)).

(** A valid result: kept for later, or ingested. *)
Definition accept_result (policy : RepositoryPolicy) (p : TaskProjectionInput) (b : WorkerBinding) (r : WorkerResult)
  (observed_at : Z) (advance : bool) : Cycle ResultCycleError ResultCycle :=
  if negb advance then
    transact (fun s => map_err ResultStore (retain_task_result p.(pi_task_id) (encode_result r) observed_at s));;
    mret (Retained p.(pi_task_id))
  else
    workflow ← lift (map_err (fun _ => MalformedResult) (workflow_policy policy));
    budget ← lift (ok_or (case_policy policy) ResultPanic);
    ingested ← transact (fun s => map_err ResultIngest (ingest_worker_result_with_policy budget workflow b r s));
    mret (match ingested with IngestApplied n => Ingested p.(pi_task_id) n | IngestReplayed => ResultIdle end).

(** What was fetched for a job, carried out; [None] is [continue]. *)
Definition settle_job (policy : RepositoryPolicy) (p : TaskProjectionInput) (desired : TaskCreateSpec) (key : string)
  (observed_at : Z) (advance : bool) (fetched : Fetched) : Cycle ResultCycleError (option ResultCycle) :=
  match fetched with
  | Skip => mret None
  | Refused rejection => r ← reject policy p desired key observed_at rejection; mret (Some r)
  | Reported metadata =>
      b ← lift (job_binding p.(pi_task_id) desired);
      match metadata ≫= (fun m => validated_result m b desired observed_at) with
      | Ok result => r ← accept_result policy p b result observed_at advance; mret (Some r)
      | Err reason =>
          if negb advance then mret None
          else r ← reject policy p desired key observed_at (RejectFailed ("the worker result was invalid: " +:+ reason)); mret (Some r)
      end
  end.

Definition collect_projection (policy : RepositoryPolicy) (h : HermesReader) (observed_at : Z) (advance : bool)
  (p : TaskProjectionInput) : Cycle ResultCycleError (option ResultCycle) :=
  if negb (String.eqb p.(pi_board) (po_board policy)) || is_none (get p.(pi_desired) "assignee") then mret None else
  desired ← lift (ok_or (de_spec p.(pi_desired)) InvalidProjection);
  body ← lift (job_body desired);
  key ← lift (text body "case_key");
  c ← query (fun s => ok_or (query_case s key) InvalidProjection);
  current ← (if advance then
               revision ← lift (number body "state_revision");
               query (fun s => map_err ResultStore (current_job_generation s c revision (reviewer_job body)))
             else mret true);
  if negb current then mret None else
  accepted ← (if advance then mret policy else
                revision ← lift (number body "state_revision");
                query (job_policy key revision));
  lift (validate_projection p.(pi_task_id) desired accepted);;
  retained ← query (fun s => map_err ResultStore (retained_task_result p.(pi_task_id) s));
  match retained with
  | Some metadata =>
      if negb advance then mret None else settle_job policy p desired key observed_at advance (Reported (Ok metadata))
  | None =>
      fetched ← fetch_result policy h desired p.(pi_task_id) advance;
      settle_job policy p desired key observed_at advance fetched
  end.

(** A [for] loop that returns from its body. *)
Fixpoint first_cycle {E A B} (f : A -> Cycle E (option B)) (otherwise : B) (l : list A) : Cycle E B :=
  match l with
  | [] => mret otherwise
  | a :: l => found ← f a; match found with Some b => mret b | None => first_cycle f otherwise l end
  end.

Definition reconcile_completed_once_with (scope : RepositoryScope) (hermes_program : string) (observed_at : Z) (advance : bool)
  : Cycle ResultCycleError ResultCycle :=
  let policy := rs_policy scope in
  h ← lift (map_err ResultHermes (new_reader hermes_program RUN_TIMEOUT RUN_OUTPUT_BOUND));
  projections ← query (fun s => map_err ResultStore
    (unconsumed_task_projections_in (rid_id (po_repository policy)) (rs_case_key scope) s));
  first_cycle (collect_projection policy h observed_at advance) ResultIdle projections.
Definition ingest_completed_once_with (scope : RepositoryScope) (hermes_program : string) (observed_at : Z)
  : Cycle ResultCycleError ResultCycle := reconcile_completed_once_with scope hermes_program observed_at true.

(** ** Retries *)

Definition project_retry (policy : RepositoryPolicy) (hermes_program : string) (now : Z) (pending : PendingProjection)
  : Cycle ResultCycleError (option RetryProjectionCycle) :=
  if negb (String.eqb pending.(pp_board) (po_board policy)) then mret None else
  spec ← lift (ok_or (de_spec pending.(pp_desired)) InvalidProjection);
  body ← lift (job_body spec);
  key ← lift (text body "case_key");
  c ← query (fun s => ok_or (query_case s key) InvalidProjection);
  revision ← lift (number body "state_revision");
  current ← query (fun s => map_err ResultStore (current_job_generation s c revision (reviewer_job body)));
  if negb current then mret None else
  projector ← lift (map_err (fun _ => ResultProjection) (new_projector hermes_program RUN_TIMEOUT RUN_OUTPUT_BOUND));
  made ← within (fun _ => ResultProjection) (project projector spec []);
  let task_id := projected_id made in
  h ← lift (map_err ResultHermes (new_reader hermes_program RUN_TIMEOUT RUN_OUTPUT_BOUND));
  detail ← within ResultHermes (show_task_detail h (po_board policy) task_id);
  found ← lift (map_err (fun _ => ResultProjection) (reconcile spec [detail.(td_task)]));
  lift (err_if (negb (bool_decide (found = Some task_id))) ResultProjection);;
  transact (fun s => map_err ResultStore
    (record_projection_task pending.(pp_projection_id) task_id (ser_task detail.(td_task)) now s));;
  mret (Some (RetryProjected pending.(pp_projection_id) task_id)).

Definition project_task_retries (scope : RepositoryScope) (hermes_program : string) (now : Z) (authorized : bool)
  : Cycle ResultCycleError RetryProjectionCycle :=
  if negb authorized then mret RetryBlocked else
  let policy := rs_policy scope in
  pending ← query (fun s => map_err ResultStore
    (pending_projection_retries (rid_id (po_repository policy)) (rs_case_key scope) now s));
  first_cycle (project_retry policy hermes_program now) RetryIdle pending.
End collect.

(** ** What a collection moves *)

Section moves.
Context `{Codec} {runner : CommandRunner} {words : DecodeText}.

(** A job that still belongs to its case, as the policy gives it out. *)
Record current_job (scope : RepositoryScope) (s : Store) (p : TaskProjectionInput) (desired : TaskCreateSpec) (c : StoredCase) : Prop := {
  cj_pending : exists l, unconsumed_task_projections_in (rid_id (po_repository (rs_policy scope))) (rs_case_key scope) s = Ok l /\ p ∈ l;
  cj_spec : de_spec p.(pi_desired) = Some desired;
  cj_stored : query_case s c.(sc_case_key) = Some c;
  cj_current : exists body revision, as_object desired.(tc_body) = Some body /\ text body "case_key" = Ok c.(sc_case_key)
    /\ number body "state_revision" = Ok revision /\ current_job_generation s c revision (reviewer_job body) = Ok true;
  cj_valid : validate_projection p.(pi_task_id) desired (rs_policy scope) = Ok ();
}.

(** *** Reading the board *)

Definition Reads {E A} (m : Cycle E A) : Prop := forall w r w', m w = (r, w') -> w'.(w_db) = w.(w_db).

Lemma reads_bind {E A B} (m : Cycle E A) (k : A -> Cycle E B) : Reads m -> (forall a, Reads (k a)) -> Reads (m ≫= k).
Proof.
  intros Hm Hk w r w' [(a & w1 & Ha & Hr)|(e & He & _)]%bind_inv; [|by eapply Hm]. rewrite (Hk _ _ _ _ Hr). by eapply Hm.
Qed.
Lemma reads_lift {E A} (x : result E A) : Reads (lift x).
Proof. by intros w r w' [= <- <-]. Qed.
Lemma reads_ret {E A} (a : A) : Reads (E := E) (mret a).
Proof. by intros w r w' [= <- <-]. Qed.
Lemma reads_ask {E A} q (f : list Request -> result E A) : Reads (ask q f).
Proof. by intros w r w' [= <- <-]. Qed.
Lemma reads_within {E E' A} (f : E -> E') (m : Cycle E A) : Reads m -> Reads (within f m).
Proof. intros Hm w r w' Hw. unfold within in Hw. destruct (m w) as [r0 w0] eqn:H0. injection Hw as <- <-. by eapply Hm. Qed.
Lemma reads_attempt {E E' A} (m : Cycle E A) : Reads m -> Reads (E := E') (attempt m).
Proof. intros Hm w r w' Hw. unfold attempt in Hw. destruct (m w) as [r0 w0] eqn:H0. injection Hw as <- <-. by eapply Hm. Qed.

Ltac reads :=
  repeat first [ apply reads_ret | apply reads_lift | apply reads_ask | apply reads_within | apply reads_attempt
               | apply reads_bind; [|intros ?] | case_match ].

Lemma show_reads h board id : Reads (show_task_detail h board id).
Proof. unfold show_task_detail, execute_json, execute. reads. Qed.
Lemma completed_reads h board id : Reads (show_completed_result h board id).
Proof. unfold show_completed_result. apply reads_bind; [apply show_reads|]. intros d. reads. Qed.
Lemma fetch_reads policy h desired id advance : Reads (fetch_result policy h desired id advance).
Proof. unfold fetch_result. apply reads_bind; [apply reads_attempt, completed_reads|]. intros d. reads. Qed.
Lemma create_reads h spec observed : Reads (project h spec observed).
Proof. unfold project, create. reads. Qed.

(** *** Other cases stay *)

Lemma batch_others key l : forall s s', Forall (fun i => i.(ti_case_key) = key) l -> batch_transaction None l s = Ok s' ->
  forall k, k <> key -> query_case s' k = query_case s k.
Proof.
  induction l as [|i l IH]; intros s s' Hl Hb k Hk; simpl in Hb; [by simplify_eq|]. apply Forall_cons in Hl as [Hi Hl].
  apply bind_ok in Hb as (s1 & Ha & Hb). apply bind_ok in Hb as (_ & _ & Hb). rewrite (IH _ _ Hl Hb _ Hk).
  apply apply_one_applied in Ha as (c & pol & Ha). unfold query_case. erewrite applied_others; [done|exact Ha|congruence].
Qed.
Lemma transition_batch_others key l s a s' : Forall (fun i => i.(ti_case_key) = key) l -> apply_transition_batch l None s = Ok (a, s') ->
  forall k, k <> key -> query_case s' k = query_case s k.
Proof.
  intros Hl Hb. unfold apply_transition_batch in Hb. inv_store. case_match; inv_store; simplify_eq; [done|]. by eapply batch_others.
Qed.
Lemma commands_keyed key ws l :
  Forall (fun w => case_key w.(wc_case_id) = key) ws ->
  Forall2 (fun w i => i.(ti_run) = w.(wc_run) /\ i.(ti_case_key) = case_key w.(wc_case_id)) ws l ->
  Forall (fun i => i.(ti_case_key) = key) l.
Proof.
  intros Hw. induction 1 as [|w i ws l [_ Hi] _ IH]; constructor; apply Forall_cons in Hw as [Hw Hws]; [congruence|by apply IH].
Qed.
Lemma ingest_others policy wp b r s n s1 id :
  ingest_worker_result_inner policy wp b r s = Ok (IngestApplied n, s1) -> case_id b = Ok id ->
  forall k, k <> case_key id -> query_case s1 k = query_case s k.
Proof.
  intros (_ & _ & id' & stored & a & Hid' & _ & Hcmd)%ingest_applied_inv Hid. rewrite Hid in Hid'. injection Hid' as <-.
  destruct Hcmd as [(w & _ & Hw & Ha)|(w0 & rev & w & _ & _ & _ & Hw0 & Hw & Ha)].
  - apply result_workflow_inv in Hw as (Hw & _). apply apply_inputs in Ha as (l & Hb & Hl).
    eapply transition_batch_others; [|exact Hb]. eapply commands_keyed; [|exact Hl]. by repeat constructor; rewrite Hw.
  - apply result_workflow_inv in Hw as (Hw & _). apply workflow_command_inv in Hw0 as (Hw0 & _).
    apply apply_batch_inputs in Ha as (l & Hb & Hl).
    eapply transition_batch_others; [|exact Hb]. eapply commands_keyed; [|exact Hl]. repeat constructor; congruence.
Qed.
Lemma ingest_replayed policy wp b r s s1 : ingest_worker_result_inner policy wp b r s = Ok (IngestReplayed, s1) -> s1 = s.
Proof.
  unfold ingest_worker_result_inner. intros Hi. apply bind_ok in Hi as ([] & _ & Hi). apply bind_ok in Hi as ([] & _ & Hi).
  apply bind_ok in Hi as ([run|] & _ & Hi); open_ok; repeat (case_match; open_ok); simplify_eq; try done.
  all: repeat match goal with x : _ * _ |- _ => destruct x end; open_ok; by simplify_eq.
Qed.

(** An escalation moves its case, or was made before. *)
Lemma escalated policy key now o s r s' :
  keys_match s = true -> 0 <= now -> escalate_case_for_bound policy key now o s = Ok (r, s') ->
  s' = s \/ exists c, query_case s key = Some c /\ moved c Ev.OperationalBoundReached s s'.
Proof.
  intros Hkeys Hnow He. unfold escalate_case_for_bound in He. apply bind_ok in He as (c & Hq & He). apply ok_or_ok in Hq.
  apply bind_ok in He as ([] & _ & He). pose proof (keys_match_keyed _ _ _ Hkeys Hq) as Hkey.
  assert (c.(sc_case_key) = key) as Hk.
  { apply fmap_Some in Hq as (row & Hr & ->). by apply find_case_elem in Hr as [_ ?]. }
  unfold escalate in He. open_ok. repeat match goal with x : _ * _ |- _ => destruct x end. open_ok. simplify_eq.
  rename select (case_command _ _ _ _ _ _ _ = _) into Hcc. rename select (LedgerController.apply _ _ _ = _) into Ha.
  pose proof (case_command_inv _ _ _ _ _ _ _ _ Hcc) as (Hcid & _).
  eapply command_outcome in Ha as [[_ Hm]|[_ ->]]; [right; by exists c|by left|done|by apply Hkey|done|done|exact Hcc].
Qed.
End moves.

Section outcome.
Context `{Codec} {runner : CommandRunner} {words : DecodeText}.

Lemma moved_quiet c ev s s1 s' : moved c ev s s1 -> quiet s1 s' -> moved c ev s s'.
Proof.
  intros (st & ctx & d & c' & ? & ? & Hc' & ? & ? & ? & ? & ? & Ho) Hq. exists st, ctx, d, c'.
  split_and!; try done; [by rewrite (quiet_query _ _ _ Hq)|]. intros k Hk. by rewrite (quiet_query _ _ _ Hq), Ho.
Qed.

(** The case of a job whose budget is spent. *)
Definition spent (policy : RepositoryPolicy) (p : TaskProjectionInput) (s : Store) : Prop :=
  exists rejection attempts, projection_attempt p.(pi_projection_id) s = Ok attempts /\ rejection_budget policy rejection <= attempts.

Lemma reject_moves policy p desired key now rejection w r w' :
  keys_match (w_store w) = true -> 0 <= now -> reject policy p desired key now rejection w = (r, w') ->
  (forall k, query_case (w_store w') k = query_case (w_store w) k)
  \/ exists c, query_case (w_store w) key = Some c /\ spent policy p (w_store w)
       /\ moved c Ev.OperationalBoundReached (w_store w) (w_store w').
Proof.
  intros Hkeys Hnow Hr. unfold reject in Hr. rewrite lift_run in Hr. destruct (map_err _ (workflow_policy _)) as [workflow|]; [|by simplify_eq; left].
  rewrite lift_run in Hr. destruct (ok_or _ _) as [configured|]; [|by simplify_eq; left].
  rewrite query_run in Hr. destruct (map_err _ (projection_attempt _ _)) as [attempts|] eqn:Hat; [|by simplify_eq; left].
  apply map_err_ok in Hat. destruct (attempts <? _) eqn:Hb.
  - left. intros k. rewrite transact_run in Hr.
    destruct (map_err _ (reject_task_projection _ _ _ _ _ _)) as [[a s1]|] eqn:Ht in Hr; [|by simplify_eq]. apply map_err_ok in Ht.
    apply reject_evolves in Ht. assert (w_store w' = s1) as -> by (destruct a; by injection Hr as <- <-). by apply quiet_query.
  - rewrite transact_run in Hr. destruct (map_err _ (escalate_case_for_bound _ _ _ _ _)) as [[a s1]|] eqn:Hes in Hr; [|by simplify_eq; left].
    apply map_err_ok in Hes. rewrite transact_run in Hr.
    assert (quiet s1 (w_store w')) as Hq.
    { destruct (map_err _ (reject_task_projection _ _ _ _ _ _)) as [[a2 s2]|] eqn:Ht in Hr; injection Hr as <- <-; [|done].
      apply map_err_ok in Ht. by apply reject_evolves in Ht. }
    apply escalated in Hes as [->|(c & Hc & Hm)]; [|right|done|done].
    + left. intros k. by rewrite (quiet_query _ _ _ Hq).
    + exists c. split_and!; [done| |by eapply moved_quiet]. exists rejection, attempts. split; [done|lia].
Qed.

(** What settling a job does to the cases: nothing, parking its case, or ingesting its result. *)
Definition job_outcome (policy : RepositoryPolicy) (p : TaskProjectionInput) (desired : TaskCreateSpec) (key : string) (now : Z)
  (advance : bool) (s s' : Store) (r : result ResultCycleError ResultCycle) : Prop :=
  (forall k, query_case s' k = query_case s k)
  \/ advance = true
     /\ ((exists c, query_case s key = Some c /\ spent policy p s /\ moved c Ev.OperationalBoundReached s s')
         \/ exists b metadata result budget workflow n, job_binding p.(pi_task_id) desired = Ok b
              /\ validated_result metadata b desired now = Ok result
              /\ ingest_worker_result_with_policy budget workflow b result s = Ok (IngestApplied n, s')
              /\ r = Ok (Ingested p.(pi_task_id) n)).
Definition job_answer {A} (r : result ResultCycleError (option A)) : option (result ResultCycleError A) :=
  match r with Ok None => None | Ok (Some a) => Some (Ok a) | Err e => Some (Err e) end.

(** [m] answers with [Some] of what [f] answers. *)
Lemma some_inv {E A} (m : Cycle E A) w r w' :
  (m ≫= fun a => mret (Some a)) w = (r, w') -> exists r0, m w = (r0, w') /\ r = (r0 ≫= fun a => Ok (Some a)).
Proof. intros [(a & w1 & Hm & [= <- <-])|(e & Hm & ->)]%bind_inv; eauto. Qed.

Lemma accept_moves policy p desired key now advance b metadata result w r w' :
  job_binding p.(pi_task_id) desired = Ok b -> validated_result metadata b desired now = Ok result ->
  accept_result policy p b result now advance w = (r, w') -> job_outcome policy p desired key now advance (w_store w) (w_store w') r.
Proof.
  intros Hb Hv Hr. unfold accept_result in Hr. destruct advance; simpl in Hr.
  - rewrite lift_run in Hr. destruct (map_err _ (workflow_policy _)) as [workflow|]; [|injection Hr as <- <-; by left].
    rewrite lift_run in Hr. destruct (ok_or _ _) as [budget|]; [|injection Hr as <- <-; by left]. rewrite transact_run in Hr.
    destruct (map_err _ (ingest_worker_result_with_policy _ _ _ _ _)) as [[[n|] s1]|] eqn:Hi; injection Hr as <- <-; [|left|by left];
      apply map_err_ok in Hi.
    + right. split; [done|]. right. by exists b, metadata, result, budget, workflow, n.
    + by apply ingest_replayed in Hi as ->.
  - left. intros k. rewrite transact_run in Hr.
    destruct (map_err _ (retain_task_result _ _ _ _)) as [[a s1]|] eqn:Ht; injection Hr as <- <-; [|done].
    apply map_err_ok, retain_evolves in Ht. by apply (quiet_query _ s1).
Qed.

Lemma settle_moves policy p desired key now advance fetched w r w' :
  keys_match (w_store w) = true -> 0 <= now -> (forall x, fetched = Refused x -> advance = true) ->
  settle_job policy p desired key now advance fetched w = (r, w') ->
  match job_answer r with None => w' = w | Some r => job_outcome policy p desired key now advance (w_store w) (w_store w') r end.
Proof.
  intros Hkeys Hnow Hadv Hr.
  assert (forall rej r0, advance = true -> reject policy p desired key now rej w = (r0, w') -> r = (r0 ≫= fun a => Ok (Some a)) ->
    match job_answer r with None => w' = w | Some r => job_outcome policy p desired key now advance (w_store w) (w_store w') r end) as Hrej.
  { intros rej r0 Ha Hj ->. apply reject_moves in Hj; [|done|done].
    destruct r0; simpl; (destruct Hj as [|]; [by left|right; split; [done|by left]]). }
  destruct fetched as [|rejection|metadata]; simpl in Hr.
  - by injection Hr as <- <-.
  - apply some_inv in Hr as (r0 & Hj & Hr). eapply Hrej; [by eapply Hadv|exact Hj|exact Hr].
  - rewrite lift_run in Hr. destruct (job_binding _ _) as [b|] eqn:Hb; [|injection Hr as <- <-; by left].
    destruct metadata as [m|reason]; simpl in Hr; [destruct (validated_result m b desired now) as [result|reason] eqn:Hv|].
    + apply some_inv in Hr as (r0 & Ha & ->). eapply accept_moves in Ha; [|done|exact Hv]. destruct r0; exact Ha.
    + destruct advance; simpl in Hr; [|by injection Hr as <- <-]. apply some_inv in Hr as (r0 & Hj & Hr). by eapply Hrej.
    + destruct advance; simpl in Hr; [|by injection Hr as <- <-]. apply some_inv in Hr as (r0 & Hj & Hr). by eapply Hrej.
Qed.

Lemma fetched_refused policy h desired id advance w x w' :
  fetch_result policy h desired id advance w = (Ok (Refused x), w') -> advance = true.
Proof.
  unfold fetch_result. intros Hf. apply bind_inv in Hf as [(shown & w1 & _ & Hf)|(e & _ & [=])].
  destruct shown as [completed|[]]; try done; try (by injection Hf as Hf _; destruct advance).
  rewrite lift_run in Hf. by destruct (err_if _ _).
Qed.

Lemma settle_fetched policy h p desired key now advance w r w' :
  keys_match (w_store w) = true -> 0 <= now ->
  (fetch_result policy h desired p.(pi_task_id) advance ≫= settle_job policy p desired key now advance) w = (r, w') ->
  match job_answer r with
  | None => w_store w' = w_store w
  | Some r => job_outcome policy p desired key now advance (w_store w) (w_store w') r
  end.
Proof.
  intros Hkeys Hnow [(fetched & w1 & Hf & Hr)|(e & Hf & ->)]%bind_inv; pose proof (fetch_reads _ _ _ _ _ _ _ _ Hf) as Hdb;
    apply (f_equal ledger) in Hdb; [|by left; intros; unfold w_store; rewrite Hdb].
  change (w_store w1 = w_store w) in Hdb. rewrite <-Hdb in Hkeys |- *.
  apply settle_moves in Hr; [by destruct (job_answer r) as [|]; [|congruence]|done|done|]. intros x ->. by eapply fetched_refused.
Qed.

(** One projection: the iteration ends without a trace in the ledger, or settles a job. *)
Lemma collect_moves scope h now advance l p w r w' :
  keys_match (w_store w) = true -> 0 <= now -> p ∈ l ->
  unconsumed_task_projections_in (rid_id (po_repository (rs_policy scope))) (rs_case_key scope) (w_store w) = Ok l ->
  collect_projection (rs_policy scope) h now advance p w = (r, w') ->
  match job_answer r with
  | None => w_store w' = w_store w
  | Some r => (forall k, query_case (w_store w') k = query_case (w_store w) k)
      \/ exists desired c, current_job scope (w_store w) p desired c
           /\ job_outcome (rs_policy scope) p desired c.(sc_case_key) now advance (w_store w) (w_store w') r /\ advance = true
  end.
Proof.
  intros Hkeys Hnow Hin Hl Hr. unfold collect_projection in Hr. destruct (_ || _); [by injection Hr as <- <-|].
  rewrite lift_run in Hr. destruct (ok_or (de_spec _) _) as [desired|] eqn:Hspec; [|injection Hr as <- <-; by left]. apply ok_or_ok in Hspec.
  rewrite lift_run in Hr. destruct (job_body _) as [body|] eqn:Hbody; [|injection Hr as <- <-; by left]. apply ok_or_ok in Hbody.
  rewrite lift_run in Hr. destruct (text _ _) as [key|] eqn:Hkey; [|injection Hr as <- <-; by left].
  rewrite query_run in Hr. destruct (ok_or _ _) as [c|] eqn:Hc in Hr; [|injection Hr as <- <-; by left]. apply ok_or_ok in Hc.
  assert (c.(sc_case_key) = key) as <-.
  { apply fmap_Some in Hc as (row & Hrow & ->). by apply find_case_elem in Hrow as [_ ?]. }
  destruct advance.
  - rewrite bind_run, lift_run in Hr. destruct (number _ _) as [revision|] eqn:Hrev; [|injection Hr as <- <-; by left].
    rewrite query_run in Hr. destruct (map_err _ (current_job_generation _ _ _ _)) as [[]|] eqn:Hcur in Hr; [|by injection Hr as <- <-|injection Hr as <- <-; by left].
    apply map_err_ok in Hcur. cbn [negb] in Hr. rewrite ret_run, lift_run in Hr.
    destruct (validate_projection _ _ _) as [[]|] eqn:Hval in Hr; [|injection Hr as <- <-; by left]. rewrite query_run in Hr.
    assert (current_job scope (w_store w) p desired c) as Hjob by (split; eauto 10).
    destruct (map_err _ (retained_task_result _ _)) as [[metadata|]|] in Hr; [| |injection Hr as <- <-; by left].
    + apply settle_moves in Hr; [|done..]. destruct (job_answer r); [right; eauto|by subst].
    + apply settle_fetched in Hr; [|done..]. destruct (job_answer r); [right; eauto|done].
  - rewrite ret_run in Hr. cbn [negb] in Hr. rewrite bind_run, lift_run in Hr. destruct (number _ _) as [revision|]; [|injection Hr as <- <-; by left].
    rewrite query_run in Hr. destruct (job_policy _ _ _) as [accepted|]; [|injection Hr as <- <-; by left]. rewrite lift_run in Hr.
    destruct (validate_projection _ _ _) as [[]|] in Hr; [|injection Hr as <- <-; by left]. rewrite query_run in Hr.
    destruct (map_err _ (retained_task_result _ _)) as [[metadata|]|] in Hr; [by injection Hr as <- <-| |injection Hr as <- <-; by left].
    apply settle_fetched in Hr; [|done..]. destruct (job_answer r); [|done]. left. by destruct Hr as [|[[=] _]].
Qed.
End outcome.

Section collection.
Context `{Codec} {runner : CommandRunner} {words : DecodeText}.

Lemma collect_loop scope h now advance l : forall l' w r w',
  keys_match (w_store w) = true -> 0 <= now -> (forall p, p ∈ l' -> p ∈ l) ->
  unconsumed_task_projections_in (rid_id (po_repository (rs_policy scope))) (rs_case_key scope) (w_store w) = Ok l ->
  first_cycle (collect_projection (rs_policy scope) h now advance) ResultIdle l' w = (r, w') ->
  (forall k, query_case (w_store w') k = query_case (w_store w) k)
  \/ exists p desired c, current_job scope (w_store w) p desired c
       /\ job_outcome (rs_policy scope) p desired c.(sc_case_key) now advance (w_store w) (w_store w') r /\ advance = true.
Proof.
  induction l' as [|p l' IH]; intros w r w' Hkeys Hnow Hin Hl Hr; [injection Hr as <- <-; by left|]. simpl in Hr.
  apply bind_inv in Hr as [(found & w1 & Hp & Hr)|(e & Hp & ->)];
    (eapply collect_moves in Hp; [|done|done|apply Hin, list_elem_of_here|exact Hl]).
  - destruct found as [a|].
    + injection Hr as <- <-. destruct Hp as [|(desired & c & ? & ?)]; [by left|right; eauto].
    + simpl in Hp. rewrite <-Hp in *. eapply IH; try done. intros q Hq. by apply Hin, list_elem_of_further.
  - destruct Hp as [|(desired & c & ? & ?)]; [by left|right; eauto].
Qed.

End collection.

(** ** Collections are system steps *)

Section sound.
Context `{Codec} {runner : CommandRunner} {words : DecodeText}.

Lemma de_common_times m c : de_common m = Some c -> 0 <= started_at_unix c /\ 0 <= completed_at_unix c.
Proof.
  unfold de_common. intros Hd. repeat (apply bind_Some in Hd as (? & ? & Hd)). simplify_eq. simpl.
  split; [rename select (field m "started_at_unix" _ = _) into Hf|rename select (field m "completed_at_unix" _ = _) into Hf];
    unfold field in Hf; apply bind_Some in Hf as (v & _ & Hf); apply as_u64_some in Hf as [_ []]; lia.
Qed.
Lemma decode_times v r : Contracts.decode v = Some r -> 0 <= started_at_unix (common r) /\ 0 <= completed_at_unix (common r).
Proof.
  unfold Contracts.decode. intros Hd. apply bind_Some in Hd as (role & _ & Hd). apply bind_Some in Hd as (m & _ & Hd).
  destruct role; apply fmap_Some in Hd as (x & Hx & ->); simpl;
    apply bind_Some in Hx as (c & Hc & Hx); apply de_common_times in Hc;
    repeat (apply bind_Some in Hx as (? & _ & Hx)); simplify_eq; exact Hc.
Qed.

Lemma workflow_floor c id ev eid at_ pl run evd w :
  case_ranges c -> 0 <= at_ -> workflow_command c id ev eid at_ pl run None None evd = Ok w -> command_floor w.
Proof.
  intros [] Hat Hw. unfold workflow_command in Hw. open_ok. subst.
  unfold is_u32 in *. split; simpl; try done; try lia.
  - unfold nonzero. destruct (Z.eqb_spec (sc_plan_version c) 0); simpl; [done|lia].
  - destruct (sc_pr_number c) as [n|]; simpl; [|done]. unfold nonzero. destruct (Z.eqb_spec n 0); simpl; [done|lia].
Qed.
Lemma result_floor s c id wp b r w :
  case_ranges c -> 0 <= completed_at_unix (common r) -> result_workflow s c id wp b r (encode_result r) = Ok w -> command_floor w.
Proof.
  intros Hc Ht Hw. unfold result_workflow in Hw. open_ok. subst w.
  rename select (map_event _ _ _ _ = _) into Hm. apply map_event_inv in Hm as (ev & -> & _).
  rename select (workflow_command _ _ _ _ _ _ _ _ _ _ = _) into Hcc. simpl in Hcc.
  apply workflow_floor in Hcc as []; [|done|done]. by split.
Qed.

Lemma batch_wf policy ws : forall prev inputs s s',
  Forall command_floor ws -> batch_inputs policy prev ws = Ok inputs -> batch_transaction None inputs s = Ok s' -> Forall wf_command ws.
Proof.
  induction ws as [|w ws IH]; intros prev inputs s s' Hf Hb Ht; [constructor|]. apply Forall_cons in Hf as [Hw Hf].
  simpl in Hb. open_ok. subst inputs. simpl in Ht. apply bind_ok in Ht as (s1 & Ha & Ht). apply bind_ok in Ht as (_ & _ & Ht).
  constructor; [by eapply floor_wf|by eapply IH].
Qed.
Lemma batch_system_step policy ws s r s' :
  Forall command_floor ws -> LedgerController.apply_batch policy ws s = Ok (r, s') -> rtc system_step s s'.
Proof.
  intros Hf Ha. pose proof Ha as Hb. unfold LedgerController.apply_batch in Hb. open_ok.
  rename select (apply_transition_batch _ _ _ = _) into Ht. rename select (batch_inputs _ _ _ = _) into Hi.
  unfold apply_transition_batch in Ht. apply bind_ok in Ht as (early & _ & Ht). destruct early; [by simplify_eq|].
  apply bind_ok in Ht as (s1 & Ht & [= <- <-]). apply rtc_once. eapply sys_apply_batch; [|exact Ha]. by eapply batch_wf.
Qed.

Lemma ingest_steps policy wp b r s x s' :
  0 <= started_at_unix (common r) /\ 0 <= completed_at_unix (common r) ->
  ingest_worker_result_inner policy wp b r s = Ok (x, s') -> rtc system_step s s'.
Proof.
  intros [Hst Hct] Hi. destruct x; [|by apply ingest_replayed in Hi as ->]. unfold ingest_worker_result_inner in Hi.
  apply bind_ok in Hi as ([] & _ & Hi). apply bind_ok in Hi as ([] & _ & Hi). apply bind_ok in Hi as ([run|] & _ & Hi); [open_ok; by case_match|].
  apply bind_ok in Hi as (id & _ & Hi). apply bind_ok in Hi as (stored & Hq & Hi). apply ok_or_ok, query_case_ranges in Hq.
  apply bind_ok in Hi as ([] & _ & Hi). destruct (is_builder r && _).
  - apply bind_ok in Hi as (w0 & Hw0 & Hi). apply bind_ok in Hi as (rev & Hrev & Hi). apply ok_or_ok, checked_add_some in Hrev.
    apply bind_ok in Hi as (w & Hw & Hi). apply bind_ok in Hi as ([a s2] & Ha & [= <- <-]). apply map_err_ok in Ha.
    eapply batch_system_step; [|exact Ha]. constructor; [exact (workflow_floor _ _ _ _ _ _ _ _ _ Hq Hst Hw0)|]. constructor; [|constructor].
    eapply result_floor; [|done|exact Hw]. destruct Hq. split; simpl; [lia|done..].
  - apply bind_ok in Hi as (w & Hw & Hi). apply bind_ok in Hi as ([a s2] & Ha & [= <- <-]). apply map_err_ok in Ha.
    eapply command_system_step; [|exact Ha]. by eapply result_floor.
Qed.

Lemma validated_times metadata b desired now r :
  validated_result metadata b desired now = Ok r -> 0 <= started_at_unix (common r) /\ 0 <= completed_at_unix (common r).
Proof. unfold validated_result. intros Hv. open_ok. subst. eapply decode_times. eassumption. Qed.

(** A command built from a stored case. *)
Lemma case_command_steps c rev id ev p now evd w policy s r s' :
  case_ranges c -> 0 <= rev -> 0 <= now -> ev <> Ev.ReviewReady ->
  case_command c rev id ev p now evd = Some w -> LedgerController.apply policy w s = Ok (r, s') -> rtc system_step s s'.
Proof.
  intros Hc Hrev Hnow Hev Hcc Ha. eapply command_system_step; [|exact Ha].
  exact (case_command_floor _ _ _ _ _ _ _ _ Hc Hrev Hnow Hev Hcc).
Qed.

Lemma escalate_steps policy c now o s r s' :
  case_ranges c -> 0 <= now -> escalate policy c now o s = Ok (r, s') -> rtc system_step s s'.
Proof.
  intros Hc Hnow He. unfold escalate in He. open_ok. repeat match goal with x : _ * _ |- _ => destruct x end. open_ok.
  simplify_eq. rename select (case_command _ _ _ _ _ _ _ = _) into Hcc. rename select (LedgerController.apply _ _ _ = _) into Ha.
  eapply case_command_steps; [exact Hc|apply Hc|exact Hnow| |exact Hcc|exact Ha]. done.
Qed.

Lemma escalate_case_steps policy key now o s r s' :
  0 <= now -> escalate_case_for_bound policy key now o s = Ok (r, s') -> rtc system_step s s'.
Proof.
  intros Hnow Hb. unfold escalate_case_for_bound in Hb. open_ok. eapply escalate_steps; [|done|done].
  by eapply query_case_ranges.
Qed.

Lemma sound_first {E A B} (f : A -> Cycle E (option B)) b l : (forall a, Sound (f a)) -> Sound (first_cycle f b l).
Proof. intros Hf. induction l as [|a l IH]; simpl; [apply sound_ret|]. apply sound_bind; [apply Hf|]. intros [|]; [apply sound_ret|done]. Qed.

Lemma reject_sound policy p desired key now rejection : 0 <= now -> Sound (reject policy p desired key now rejection).
Proof.
  intros Hnow. unfold reject.
  assert (Sound (transact (fun s => map_err ResultStore (reject_task_projection (pi_projection_id p) now (rejection_reason rejection)
            (rejection_budget policy rejection) RETRY_COOLDOWN_SECONDS s)))) as Hrej.
  { apply sound_quiet. intros s a s' Hs%map_err_ok. split; [by eapply step_reject|by eapply reject_evolves]. }
  sound; try exact Hrej. apply sound_transact. intros ? ? ? Hs%map_err_ok. by eapply escalate_case_steps.
Qed.
Lemma accept_sound policy p b r now advance :
  0 <= started_at_unix (common r) /\ 0 <= completed_at_unix (common r) -> Sound (accept_result policy p b r now advance).
Proof.
  intros Ht. unfold accept_result. sound.
  - apply sound_quiet. intros s a s' Hs%map_err_ok. split; [by eapply step_retain|by eapply retain_evolves].
  - apply sound_transact. intros ? ? ? Hs%map_err_ok. exact (ingest_steps _ _ _ _ _ _ _ Ht Hs).
Qed.
Lemma settle_sound policy p desired key now advance fetched : 0 <= now -> Sound (settle_job policy p desired key now advance fetched).
Proof.
  intros Hnow. destruct fetched as [|rejection|metadata]; simpl; [apply sound_ret| |].
  - sound. by apply reject_sound.
  - apply sound_lift_bind. intros b _.
    destruct (metadata ≫= _) as [result|reason] eqn:Hv; [|sound; by apply reject_sound].
    apply bind_ok in Hv as (m & _ & Hv). sound. apply accept_sound. by eapply validated_times.
Qed.
Lemma fetch_sound policy h desired id advance : Sound (fetch_result policy h desired id advance).
Proof.
  unfold fetch_result. apply sound_bind; [apply sound_attempt|intros ?; sound].
  unfold show_completed_result. apply sound_bind; [apply show_sound|intros ?; sound].
Qed.
Lemma results_sound scope program now advance : 0 <= now -> Sound (reconcile_completed_once_with scope program now advance).
Proof.
  intros Hnow. unfold reconcile_completed_once_with. sound. apply sound_first. intros p. unfold collect_projection.
  sound; eauto using settle_sound, fetch_sound, reject_sound, accept_sound, validated_times.
Qed.
Lemma retries_sound scope program now authorized : Sound (project_task_retries scope program now authorized).
Proof.
  unfold project_task_retries. sound. apply sound_first. intros pending. unfold project_retry. repeat sound_step.
  - apply sound_within, create_sound.
  - apply sound_within, show_sound.
  - apply sound_quiet. intros ? ? ? Hs%map_err_ok. split; [by eapply step_bind|by eapply bind_evolves].
Qed.
End sound.

(** ** A worker that blocks its task *)

Definition demo_words : DecodeText := fun _ => "invalid"%string.
(** The board shows the created task, blocked by its worker. *)
Definition demo_blocked : CommandRunner := fun sent spec =>
  match demo_tasks sent with
  | task :: _ => demo_output (json_object [("task", ser_task {|
      ts_id := task.(ts_id); ts_title := task.(ts_title); ts_status := "blocked"; ts_assignee := task.(ts_assignee);
      ts_created_by := task.(ts_created_by); ts_body := task.(ts_body); ts_configuration := task.(ts_configuration) |});
      ("parents", Array []); ("events", Array [json_object [("kind", Str "blocked"); ("payload", json_object [("reason", Str "no access")])]])])
  | [] => Err HermesProcess
  end.
Definition run_collect (w : World) :=
  reconcile_completed_once_with (H := lean_codec) (runner := demo_blocked) (words := demo_words) demo_scope "hermes" 400 true w.
Definition demo_collected : World := (run_collect demo_recovered).2.

