(* ===== verification/DirectJobs.v ===== *)
(** * DirectJobs: the jobs of direct workers

    The job side of crates/pip-control/src/direct_worker.rs and [source_for] of review_workspace.rs: a
    frozen direct task is accepted only when every field of it is what the policy and the case it
    was made for determine, and the binding its result is held to is read off it.  Running the
    provider's program is the parameter [DirectWorkerRuntime]. *)

From Stdlib Require Import Ascii.
From S2P Require Import Prelude Text Parse Json Serde Domain Revision Sql Tables Inputs Frozen StoreCore Outbox Ledger Results.
From S2P Require Import Contracts RolePolicy Scheduling Policy PolicyLaws Commands Cycles Bounds World Board Dispatch Collect.
Open Scope Z_scope.

Definition RUN_EFFECT : string := "RUN_DIRECT_WORKER".
Definition LEASE_RECOVERY_MARGIN_SECONDS : Z := 120.

Inductive DirectWorkerRuntimeError :=
| Unavailable (error : string)
| ModelUnavailable (error : string)
| RuntimeFailed (error : string).
Definition runtime_text (e : DirectWorkerRuntimeError) : string :=
  match e with
  | Unavailable error => "direct worker runtime unavailable: " +:+ error
  | ModelUnavailable error => "direct worker model unavailable: " +:+ error
  | RuntimeFailed error => "direct worker execution failed: " +:+ error
  end.
Class DirectWorkerRuntime := execute_task (sent : list Request) (task : DirectTaskSpec) (attempt_id : Z)
  : result DirectWorkerRuntimeError WorkerResult.

Inductive DirectWorkerError := DirectPolicy (e : PolicyError) | InvalidJob.

(** ** Leases long enough for every direct role *)

Definition parse_runtime (value : string) : result DirectWorkerRuntimeError Z :=
  ok_or (v ← strip_prefix "PT" value; v ← strip_suffix_char "M"%char v; n ← parse_u64 v;
         if (1 <=? n) && (n <=? 240) then Some (n * 60) else None) (Unavailable "invalid bounded direct runtime").
(** The text of a policy error is not kept. *)
Definition recommended_direct_lease_seconds (policy : RepositoryPolicy) : result DirectWorkerRuntimeError Z :=
  workflow ← map_err (fun _ => Unavailable "") (workflow_policy policy);
  runtimes ← try_map (fun r => parse_runtime r.(rp_max_runtime))
               (List.filter (fun r => bool_decide (r.(rp_execution) = RolePolicy.Direct)) workflow.(wp_roles));
  longest ← ok_or (max_opt runtimes) (Unavailable "policy has no direct worker roles");
  ok_or (checked_add u64_max longest LEASE_RECOVERY_MARGIN_SECONDS) (Unavailable "direct worker lease overflow").

(** ** The fields of a body *)

(** The readers of results.rs, with this module's error. *)
Definition direct_field {A} (r : result ResultCycleError A) : result DirectWorkerError A := map_err (fun _ => InvalidJob) r.
Definition text_is (body : list (string * Value)) (name value : string) : bool :=
  match text body name with Ok v => String.eqb v value | Err _ => false end.
Definition number_is (body : list (string * Value)) (name : string) (value : Z) : bool :=
  match number body name with Ok n => n =? value | Err _ => false end.

Definition valid_evidence_bundle (value : option Value) : bool :=
  match value ≫= as_object with
  | Some bundle =>
      match map_get "schema_version" bundle ≫= as_u64 with Some n => (n =? 1) || (n =? 2) | None => false end
      && match map_get "sha256" bundle ≫= as_str with Some d => is_hex d 64 | None => false end
  | None => false
  end.

Section jobs.
Context `{Codec}.

(** The worktree a task may name: the case's own, or the snapshot of a review. *)
Definition source_for (body : Value) (source key : string) : option string :=
  match get body "review_snapshot" with
  | None => Some source
  | Some snapshot =>
      role ← as_str (index body "role");
      head ← as_str (index body "expected_head_sha");
      if one_of ["reviewer-general"; "reviewer-secperf"; "final-reviewer"] role && is_hex head 40
         && bool_decide (snapshot = review_snapshot source key head)
      then (fun root => root +:+ "/source") <$> as_str (index snapshot "root")
      else None
  end.

Definition case_source (policy : RepositoryPolicy) (c : StoredCase) : string :=
  trim_end_char "/" (po_workspace policy) +:+ "/repo-" +:+ show c.(sc_repository_id) +:+ "-issue-"
  +:+ show c.(sc_issue_number) +:+ "-workflow-" +:+ show c.(sc_workflow_version).
Definition direct_round (c : StoredCase) (role : WorkerRole) : Z :=
  match role with
  | Planner => Z.max (saturating_add u32_max c.(sc_plan_version) 1) 1
  | _ => saturating_add u32_max c.(sc_remediation_round) 1
  end.
Definition expected_task_id (c : StoredCase) (worker_id : string) (role : WorkerRole) : string :=
  c.(sc_case_key) +:+ ":" +:+ worker_id +:+ ":round:" +:+ show (direct_round c role) +:+ ":revision:"
  +:+ show c.(sc_state_revision) +:+ ":worker".
Definition observes (mode : option ReviewMode) : bool :=
  match mode with Some Advisory | Some ShadowMode => true | _ => false end.

Definition validate_role_fields (body : list (string * Value)) (role : WorkerRole) (c : StoredCase) (policy : RepositoryPolicy)
  (expected_workspace : string) : result DirectWorkerError () :=
  plan ← direct_field (number body "plan_version");
  pr ← direct_field (optional_number body "pr_number");
  head ← direct_field (optional_text body "expected_head_sha");
  let expected_plan := if bool_decide (role = Planner) then Z.max (saturating_add u32_max c.(sc_plan_version) 1) 1
                       else c.(sc_plan_version) in
  err_if (negb (plan =? expected_plan) || negb (bool_decide (pr = c.(sc_pr_number))) || negb (bool_decide (head = c.(sc_head_sha))))
    InvalidJob;;
  err_if (bool_decide (role = Builder)
    && negb (text_is body "assigned_branch" (po_branch_prefix policy +:+ "repo-" +:+ show c.(sc_repository_id) +:+ "/issue-"
               +:+ show c.(sc_issue_number) +:+ "/workflow-" +:+ show c.(sc_workflow_version))
             && text_is body "assigned_worktree" expected_workspace)) InvalidJob.

Definition validate_job (claimed : ClaimedEffect) (c : StoredCase) (task : DirectTaskSpec) (policy : RepositoryPolicy)
  : result DirectWorkerError WorkerBinding :=
  body ← ok_or (as_object task.(dt_body)) InvalidJob;
  workflow ← map_err DirectPolicy (workflow_policy policy);
  reviewer_id ← direct_field (optional_text body "reviewer_id");
  configured ← direct_field (configured_role workflow task.(dt_role) reviewer_id);
  let role := role_name task.(dt_role) in
  let worker_id := default role reviewer_id in
  let task_id := expected_task_id c worker_id task.(dt_role) in
  workspace ← ok_or (source_for task.(dt_body) (case_source policy c) task_id) InvalidJob;
  let requested_model := configured.(rp_provider) +:+ "/" +:+ configured.(rp_model) in
  review_mode ← direct_field (optional_text body "review_mode");
  commit ← direct_field (text body "skills_repository_commit");
  err_if (negb (
    (task.(dt_schema_version) =? 1)
    && String.eqb claimed.(ce_effect_type) (if observes configured.(rp_review_mode) then "RUN_DIRECT_OBSERVER" else RUN_EFFECT)
    && String.eqb claimed.(ce_effect_id) (task.(dt_source_effect_id) +:+ ":direct:" +:+ worker_id)
    && String.eqb claimed.(ce_case_key) c.(sc_case_key)
    && (claimed.(ce_state_revision) =? c.(sc_state_revision))
    && (c.(sc_repository_id) =? rid_id (po_repository policy))
    && (c.(sc_workflow_version) =? po_workflow_version policy)
    && String.eqb task.(dt_task_id) task_id
    && String.eqb task.(dt_title) ("Run " +:+ worker_id +:+ " for " +:+ c.(sc_case_key))
    && String.eqb task.(dt_workspace) workspace
    && bool_decide (configured.(rp_execution) = RolePolicy.Direct)
    && String.eqb task.(dt_profile) configured.(rp_profile)
    && String.eqb task.(dt_provider) configured.(rp_provider)
    && String.eqb task.(dt_model) configured.(rp_model)
    && negb (one_of ["auto"; "default"; "latest"] (to_ascii_lowercase task.(dt_model)))
    && bool_decide (task.(dt_skills) = configured.(rp_skills))
    && String.eqb task.(dt_max_runtime) configured.(rp_max_runtime)
    && (task.(dt_priority) =? configured.(rp_priority))
    && String.eqb task.(dt_provider) "cursor"
    && text_is body "case_key" c.(sc_case_key)
    && number_is body "repository_id" c.(sc_repository_id)
    && number_is body "issue_number" c.(sc_issue_number)
    && number_is body "workflow_version" c.(sc_workflow_version)
    && number_is body "state_revision" c.(sc_state_revision)
    && text_is body "role" role
    && bool_decide (reviewer_id = configured.(rp_reviewer_id))
    && bool_decide (review_mode = review_mode_name <$> configured.(rp_review_mode))
    && text_is body "execution" "direct"
    && text_is body "provider" configured.(rp_provider)
    && text_is body "model" configured.(rp_model)
    && text_is body "requested_model" requested_model
    && is_hex commit 40
    && valid_evidence_bundle (map_get "immutable_evidence_bundle" body))) InvalidJob;;
  validate_role_fields body task.(dt_role) c policy workspace;;
  plan ← direct_field (n ← number body "plan_version"; narrow_u32 n);
  pr ← direct_field (optional_number body "pr_number");
  head ← direct_field (optional_text body "expected_head_sha");
  Ok {| wb_case := {| Contracts.repository_id := c.(sc_repository_id); Contracts.issue_number := c.(sc_issue_number);
                      Contracts.workflow_version := c.(sc_workflow_version) |};
        wb_task_id := task.(dt_task_id); wb_role := task.(dt_role); wb_reviewer_id := configured.(rp_reviewer_id);
        wb_review_mode := configured.(rp_review_mode); wb_requested_model := requested_model; wb_skills_repository_commit := commit;
        wb_plan_version := plan; wb_pr_number := pr; wb_expected_head_sha := head |}.
End jobs.
