(* ===== verification/DirectQueue.v ===== *)
(** * DirectQueue: the hand-over to direct workers

    crates/pip-control/src/direct_queue.rs.  The controller and an unprivileged worker exchange files:
    a claimed job is written to the inbox, the worker writes a result, and a collection reads the
    result back, checks it against the attempt in the ledger, and only then lets it count.  The file
    system is [Filesystem]: its answers may be anything, since the worker writes there as well.  The
    pool of worker threads is not modelled, its test for a free slot is. *)

From stdpp Require Import relations.
From S2P Require Import Prelude Text Parse Json Serde Domain StateMachine Revision Sql Tables Inputs Recovery Frozen StoreCore Outbox Attempts.
From S2P Require Import Records Status History Frames Steps Invariants Conversations CaseHistory Ledger Results System Ingest.
From S2P Require Import Contracts RolePolicy Scheduling Policy PolicyLaws Commands Cycles Bounds World Claims Takeover Board Dispatch Collect DirectJobs.
From Stdlib Require Import Ascii.
Open Scope Z_scope.

Definition MAX_QUEUE_FILES : nat := 1024.
Definition MAX_ENVELOPE_BYTES : Z := 12 * 1024 * 1024.
Definition FAILED_ATTEMPT_COOLDOWN_SECONDS : Z := 120.

Inductive DirectQueueCycle :=
| QueueIdle
| QueueAuthorizationBlocked
| QueueRetained (attempt_id : Z)
| Prepared (attempt_id : Z) (task_id : string)
| Executed (attempt_id : Z) (succeeded : bool)
| QueueIngested (task_id : string) (transition_count : Z)
| Observed (task_id : string)
| Cleaned (attempt_id : Z)
| QueueFailed (attempt_id : Z).
#[export] Instance queue_cycle_eq_dec : EqDecision DirectQueueCycle.
Proof. solve_decision. Defined.

(** The texts of serde and ingestion errors are not kept; [QueuePanic] is a failed [expect] on the policy. *)
Inductive DirectQueueError :=
| QueueStore (e : StoreError)
| QueuePolicy (e : PolicyError)
| QueueIngest
| InvalidQueue
| InvalidEnvelope
| QueueFilesystem (text : string)
| QueueSerialization
| QueuePanic.

Definition bounded_error (error : string) : string :=
  match concat_chars (take (Z.to_nat 4096) (chars (trim error))) with
  | "" => "direct worker failed without an error"
  | value => value
  end%string.

(** ** The file system *)

Inductive IoError := IoNotFound (text : string) | IoOther (text : string).
Definition io_text (e : IoError) : string := match e with IoNotFound t | IoOther t => t end.
Record Metadata := { md_symlink : bool; md_file : bool; md_dir : bool; md_len : Z }.
Class Filesystem := {
  read_dir (sent : list Request) (path : string) : result IoError (list string);
  symlink_metadata (sent : list Request) (path : string) : result IoError Metadata;
  read_bytes (sent : list Request) (path : string) (limit : Z) : result IoError string;
  canonicalize (sent : list Request) (path : string) : result IoError string;
  file_call (sent : list Request) (op : FileOp) : result IoError ();
  path_exists (sent : list Request) (path : string) : bool;
  (** [Ok(false)] is [WouldBlock]. *)
  try_lock (sent : list Request) (path : string) : result IoError bool;
}.

Section files.
Context {fs : Filesystem}.

Definition filesystem {A} (m : Cycle IoError A) : Cycle DirectQueueError A := within (fun e => QueueFilesystem (io_text e)) m.
Definition stat (path : string) : Cycle IoError Metadata := ask (FileCall (Stat path)) (fun sent => symlink_metadata sent path).
Definition change (op : FileOp) : Cycle IoError () := ask (FileCall op) (fun sent => file_call sent op).

(** A regular file within the bound. *)
Definition bounded_file (m : Metadata) : bool :=
  negb m.(md_symlink) && m.(md_file) && negb (m.(md_len) =? 0) && (m.(md_len) <=? MAX_ENVELOPE_BYTES).

Definition real_directory (path : string) : Cycle DirectQueueError string :=
  m ← filesystem (stat path);
  lift (err_if (m.(md_symlink) || negb m.(md_dir)) InvalidQueue);;
  filesystem (ask (FileCall (Canonicalize path)) (fun sent => canonicalize sent path)).

Definition queue_paths (directory : string) : Cycle DirectQueueError (list string) :=
  paths ← filesystem (ask (FileCall (ReadDir directory)) (fun sent => read_dir sent directory));
  lift (err_if (MAX_QUEUE_FILES <? length paths)%nat InvalidQueue);;
  mret (order_by str_leb paths).
Definition check_file (_ : unit) (path : string) : Cycle DirectQueueError unit :=
  m ← attempt (stat path);
  lift (err_if (match m with Ok m => negb (bounded_file m) | Err _ => true end) InvalidQueue).
Definition queue_files (directory : string) : Cycle DirectQueueError (list string) :=
  paths ← queue_paths directory;
  fold_cycle check_file () paths;;
  mret paths.

Definition read_envelope `{Codec} {A} (de : Value -> option A) (path : string) : Cycle DirectQueueError A :=
  m ← filesystem (stat path);
  lift (err_if (negb (bounded_file m)) InvalidEnvelope);;
  bytes ← filesystem (ask (FileCall (ReadFile path)) (fun sent => read_bytes sent path (MAX_ENVELOPE_BYTES + 1)));
  lift (err_if (MAX_ENVELOPE_BYTES <? len bytes) InvalidEnvelope);;
  lift (ok_or (from_str bytes ≫= de) QueueSerialization).

(** Why an envelope was not written. *)
Inductive WriteError := WriteSize | WriteIo (e : IoError).
Definition write_error (e : WriteError) : DirectQueueError :=
  match e with WriteSize => InvalidEnvelope | WriteIo e => QueueFilesystem (io_text e) end.
Definition write_text (e : WriteError) : string :=
  match e with
  | WriteSize => "invalid direct worker envelope"
  | WriteIo e => "direct queue filesystem error: " +:+ io_text e
  end.
(** [path.with_extension("json.new")] of a path that ends in [.json]. *)
Definition temporary_path (path : string) : string := path +:+ ".new".
(** On failure of a step the temporary file is removed, if it can be. *)
Definition or_remove (temporary : string) (m : Cycle IoError ()) : Cycle WriteError () :=
  done_ ← attempt m;
  match done_ with
  | Ok tt => mret ()
  | Err e => (_ ← attempt (change (RemoveFile temporary)); raise (WriteIo e))
  end.
Definition write_new `{Codec} (path : string) (value : Value) (mode : Z) : Cycle WriteError () :=
  let bytes := to_string value in
  let temporary := temporary_path path in
  lift (err_if (is_empty bytes || (MAX_ENVELOPE_BYTES <? len bytes)) WriteSize);;
  within WriteIo (change (CreateNew temporary mode));;
  or_remove temporary (change (WriteSync temporary bytes));;
  within WriteIo (change (SetMode temporary mode));;
  or_remove temporary (change (HardLink temporary path));;
  within WriteIo (change (RemoveFile temporary)).

(** ** The queue *)

Record DirectQueue := { dq_inbox : string; dq_results : string; dq_archive : string }.
Definition new_queue (root : string) : Cycle DirectQueueError DirectQueue :=
  root ← real_directory root;
  inbox ← real_directory (path_join root "inbox");
  results ← real_directory (path_join root "results");
  archive ← real_directory (path_join root "archive");
  mret {| dq_inbox := inbox; dq_results := results; dq_archive := archive |}.

Definition attempt_name (attempt_id : Z) : string := "attempt-" +:+ show attempt_id.
Definition input_path (q : DirectQueue) (attempt_id : Z) : string := path_join q.(dq_inbox) (attempt_name attempt_id +:+ ".json").
Definition result_path (q : DirectQueue) (attempt_id : Z) : string := path_join q.(dq_results) (attempt_name attempt_id +:+ ".json").
Definition exists_file (path : string) : Cycle DirectQueueError bool := ask (FileCall (PathExists path)) (fun sent => Ok (path_exists sent path)).
Definition archive_one (q : DirectQueue) (attempt_id : Z) (source suffix : string) : Cycle DirectQueueError () :=
  there ← exists_file source;
  if (there : bool) then filesystem (change (RenameFile source (path_join q.(dq_archive) (attempt_name attempt_id +:+ "." +:+ suffix +:+ ".json"))))
  else mret ().
Definition archive (q : DirectQueue) (attempt_id : Z) : Cycle DirectQueueError () :=
  archive_one q attempt_id (input_path q attempt_id) "input";;
  archive_one q attempt_id (result_path q attempt_id) "result".
End files.

(** ** Envelopes *)

Record WorkEnvelope := { we_schema_version : Z; we_attempt_id : Z; we_claimed : ClaimedEffect; we_task : DirectTaskSpec }.
Inductive ResultEnvelope :=
| EnvelopeUnavailable (schema_version attempt_id : Z) (error : string) (cause : option string)
| EnvelopeComplete (schema_version attempt_id : Z) (r : WorkerResult)
| EnvelopeFailed (schema_version attempt_id : Z) (error : string).
Definition envelope_attempt (e : ResultEnvelope) : Z :=
  match e with EnvelopeUnavailable _ a _ _ | EnvelopeComplete _ a _ | EnvelopeFailed _ a _ => a end.
Definition envelope_version (e : ResultEnvelope) : Z :=
  match e with EnvelopeUnavailable v _ _ _ | EnvelopeComplete v _ _ | EnvelopeFailed v _ _ => v end.

Definition ser_claimed (c : ClaimedEffect) : Value :=
  json_object [("effect_id", Str c.(ce_effect_id)); ("case_key", Str c.(ce_case_key)); ("state_revision", Number c.(ce_state_revision));
               ("effect_type", Str c.(ce_effect_type)); ("payload", c.(ce_payload)); ("lease_owner", Str c.(ce_lease_owner));
               ("lease_until", Number c.(ce_lease_until))].
Definition de_claimed (v : Value) : option ClaimedEffect :=
  m ← as_record 7 ["effect_id"; "case_key"; "state_revision"; "effect_type"; "payload"; "lease_owner"; "lease_until"] v;
  e ← field m "effect_id" as_str;
  k ← field m "case_key" as_str;
  r ← field m "state_revision" de_u64;
  t ← field m "effect_type" as_str;
  p ← map_get "payload" m;
  o ← field m "lease_owner" as_str;
  u ← field m "lease_until" de_u64;
  Some {| ce_effect_id := e; ce_case_key := k; ce_state_revision := r; ce_effect_type := t; ce_payload := p; ce_lease_owner := o;
          ce_lease_until := u |}.
Definition ser_work (w : WorkEnvelope) : Value :=
  json_object [("schema_version", Number w.(we_schema_version)); ("attempt_id", Number w.(we_attempt_id));
               ("claimed", ser_claimed w.(we_claimed)); ("task", ser_direct w.(we_task))].
Definition de_work (v : Value) : option WorkEnvelope :=
  m ← as_struct ["schema_version"; "attempt_id"; "claimed"; "task"] v;
  n ← field m "schema_version" de_u32;
  a ← field m "attempt_id" de_u64;
  c ← field m "claimed" de_claimed;
  t ← field m "task" de_direct;
  Some {| we_schema_version := n; we_attempt_id := a; we_claimed := c; we_task := t |}.

Definition ser_result_envelope (e : ResultEnvelope) : Value :=
  match e with
  | EnvelopeUnavailable v a error cause =>
      json_object ([("status", Str "UNAVAILABLE"); ("schema_version", Number v); ("attempt_id", Number a); ("error", Str error)]
                   ++ when_some cause (fun c => [("cause", Str c)]))
  | EnvelopeComplete v a r =>
      json_object [("status", Str "COMPLETE"); ("schema_version", Number v); ("attempt_id", Number a); ("result", encode_result r)]
  | EnvelopeFailed v a error =>
      json_object [("status", Str "FAILED"); ("schema_version", Number v); ("attempt_id", Number a); ("error", Str error)]
  end.
(** The tag of an internally tagged enum, and what is left. *)
Definition untag (v : Value) : option (string * Value) :=
  match v with
  | Object m => tag ← field m "status" as_str; Some (tag, Object (map_remove "status" m))
  | Array (Str tag :: rest) => Some (tag, Array rest)
  | _ => None
  end.
(** The fields of a variant, with [deny_unknown_fields]. *)
Definition variant (required : nat) (fields : list string) (v : Value) : option (list (string * Value)) :=
  m ← as_record required fields v;
  if deny_unknown fields m then Some m else None.
Definition de_result_envelope (v : Value) : option ResultEnvelope :=
  '(tag, rest) ← untag v;
  if String.eqb tag "UNAVAILABLE" then
    m ← variant 3 ["schema_version"; "attempt_id"; "error"; "cause"] rest;
    n ← field m "schema_version" de_u32;
    a ← field m "attempt_id" de_u64;
    e ← field m "error" as_str;
    c ← option_field m "cause" as_str;
    Some (EnvelopeUnavailable n a e c)
  else if String.eqb tag "COMPLETE" then
    m ← variant 3 ["schema_version"; "attempt_id"; "result"] rest;
    n ← field m "schema_version" de_u32;
    a ← field m "attempt_id" de_u64;
    r ← field m "result" Contracts.decode;
    Some (EnvelopeComplete n a r)
  else if String.eqb tag "FAILED" then
    m ← variant 3 ["schema_version"; "attempt_id"; "error"] rest;
    n ← field m "schema_version" de_u32;
    a ← field m "attempt_id" de_u64;
    e ← field m "error" as_str;
    Some (EnvelopeFailed n a e)
  else None.

(** ** Slots *)

Definition builds (w : WorkEnvelope) : bool := bool_decide (w.(we_task).(dt_role) = Builder).
Definition slot_limit (capacity : ExecutionCapacity) (builder : bool) : Z :=
  if builder then ec_builders capacity else ec_direct_reviewers capacity.
(** Two jobs that may not run together. *)
Definition conflicts (work job : WorkEnvelope) : bool :=
  String.eqb job.(we_task).(dt_workspace) work.(we_task).(dt_workspace)
  || (String.eqb job.(we_claimed).(ce_case_key) work.(we_claimed).(ce_case_key) && (builds work || builds job)).
Definition slot_available (work : WorkEnvelope) (jobs : list WorkEnvelope) (capacity : ExecutionCapacity) : bool :=
  (Z.of_nat (length (List.filter (fun job => Bool.eqb (builds job) (builds work)) jobs)) <? slot_limit capacity (builds work))
  && negb (existsb (conflicts work) jobs).

(** ** The case a job is checked against *)

Definition body_u64 (body : list (string * Value)) (name : string) : result DirectQueueError Z :=
  ok_or (map_get name body ≫= as_u64) InvalidEnvelope.
Definition body_u32 (body : list (string * Value)) (name : string) : result DirectQueueError Z :=
  n ← body_u64 body name;
  if n <=? u32_max then Ok n else Err InvalidEnvelope.
Definition body_optional {A} (body : list (string * Value)) (name : string) (read : Value -> option A)
  : result DirectQueueError (option A) :=
  match map_get name body with Some v => a ← ok_or (read v) InvalidEnvelope; Ok (Some a) | None => Ok None end.
Definition filled_text (v : Value) : option string := t ← as_str v; if is_empty t then None else Some t.

Definition validation_case (claimed : ClaimedEffect) (current : StoredCase) (task : DirectTaskSpec) (frozen : bool)
  : result DirectQueueError StoredCase :=
  if negb frozen && negb (String.eqb claimed.(ce_effect_type) "RUN_DIRECT_OBSERVER") then Ok current else
  body ← ok_or (as_object task.(dt_body)) InvalidEnvelope;
  repository ← body_u64 body "repository_id";
  issue ← body_u64 body "issue_number";
  workflow ← body_u64 body "workflow_version";
  err_if (negb (String.eqb claimed.(ce_case_key) current.(sc_case_key)) || negb (repository =? current.(sc_repository_id))
          || negb (issue =? current.(sc_issue_number)) || negb (workflow =? current.(sc_workflow_version))) InvalidEnvelope;;
  round ← body_u32 body "remediation_round";
  plan ← body_u32 body "plan_version";
  pr ← body_optional body "pr_number" as_u64;
  head ← body_optional body "expected_head_sha" filled_text;
  Ok {| sc_case_key := current.(sc_case_key); sc_repository_id := current.(sc_repository_id);
        sc_issue_number := current.(sc_issue_number); sc_workflow_version := current.(sc_workflow_version);
        sc_state := "REVIEWING"; sc_state_revision := claimed.(ce_state_revision); sc_policy_revision := current.(sc_policy_revision);
        sc_remediation_round := round; sc_plan_version := plan; sc_pr_number := pr; sc_head_sha := head |}.
(** The current case under the revision of its frozen cohort. *)
Definition at_revision (revision : Z) (c : StoredCase) : StoredCase := {|
  sc_case_key := c.(sc_case_key); sc_repository_id := c.(sc_repository_id); sc_issue_number := c.(sc_issue_number);
  sc_workflow_version := c.(sc_workflow_version); sc_state := c.(sc_state); sc_state_revision := revision;
  sc_policy_revision := c.(sc_policy_revision); sc_remediation_round := c.(sc_remediation_round);
  sc_plan_version := c.(sc_plan_version); sc_pr_number := c.(sc_pr_number); sc_head_sha := c.(sc_head_sha) |}.
Definition reviews_role (r : WorkerRole) : bool := match r with ReviewerGeneral | ReviewerSecperf => true | _ => false end.

(** ** Preparing a job *)

Section prepare.
Context `{Codec} {fs : Filesystem}.

(** A claimed job, as its own case and today's policy determine it. *)
Definition claimed_task (policy : RepositoryPolicy) (claimed : ClaimedEffect) (s : Store) : result DirectQueueError DirectTaskSpec :=
  task ← ok_or (de_direct claimed.(ce_payload)) InvalidEnvelope;
  c ← ok_or (query_case s claimed.(ce_case_key)) InvalidEnvelope;
  peer ← (if String.eqb claimed.(ce_effect_type) RUN_EFFECT && reviews_role task.(dt_role)
          then map_err QueueStore (current_job_generation s c claimed.(ce_state_revision) true) else Ok false);
  checked ← (if (peer : bool) then Ok (at_revision claimed.(ce_state_revision) c) else validation_case claimed c task false);
  map_err (fun _ => InvalidEnvelope) (validate_job claimed checked task policy);;
  Ok task.

Definition own_envelope (q : DirectQueue) (path : string) (w : WorkEnvelope) : bool :=
  (w.(we_schema_version) =? 1) && negb (w.(we_attempt_id) =? 0) && String.eqb path (input_path q w.(we_attempt_id)).

(** A confirmed missing hand-over proves that nothing was started. *)
Definition handoff_failed (q : DirectQueue) (claimed : ClaimedEffect) (attempt_id now : Z) (e : WriteError)
  : Cycle DirectQueueError DirectQueueCycle :=
  there ← attempt (stat (input_path q attempt_id));
  match there with
  | Err (IoNotFound _) =>
      transact (fun s => map_err QueueStore
        (record_direct_unavailability attempt_id claimed.(ce_lease_owner) now (bounded_error (write_text e)) s));;
      raise (write_error e)
  | _ => raise (write_error e)
  end.

Definition hand_over (q : DirectQueue) (claimed : ClaimedEffect) (task : DirectTaskSpec) (now : Z)
  : Cycle DirectQueueError DirectQueueCycle :=
  attempt_id ← transact (fun s => map_err QueueStore (begin_direct_attempt claimed task.(dt_task_id) now s));
  written ← attempt (write_new (input_path q attempt_id)
    (ser_work {| we_schema_version := 1; we_attempt_id := attempt_id; we_claimed := claimed; we_task := task |}) 288);
  match written with
  | Ok _ => mret (Prepared attempt_id task.(dt_task_id))
  | Err e => handoff_failed q claimed attempt_id now e
  end.

Definition prepare_claimed (scope : RepositoryScope) (q : DirectQueue) (owner : string) (now : Z) (occupied : list WorkEnvelope)
  (claimed : ClaimedEffect) : Cycle DirectQueueError DirectQueueCycle :=
  let policy := rs_policy scope in
  task ← or_release QueueStore claimed.(ce_effect_id) owner (query (claimed_task policy claimed));
  let proposed := {| we_schema_version := 1; we_attempt_id := 0; we_claimed := claimed; we_task := task |} in
  if match po_execution_capacity policy with Some capacity => negb (slot_available proposed occupied capacity) | None => false end
  then release QueueStore claimed.(ce_effect_id) owner;; mret QueueIdle
  else hand_over q claimed task now.

Definition prepare_direct_queue_once (scope : RepositoryScope) (q : DirectQueue) (owner : string) (now lease_seconds : Z) (effect : string)
  : Cycle DirectQueueError DirectQueueCycle :=
  locked ← filesystem (ask (FileCall (TryLock q.(dq_inbox))) (fun sent => try_lock sent q.(dq_inbox)));
  if negb locked then mret QueueIdle else
  paths ← queue_files q.(dq_inbox);
  if is_none (po_execution_capacity (rs_policy scope)) && negb (bool_decide (paths = [])) then mret QueueIdle else
  occupied ← fold_cycle (fun acc path => w ← read_envelope de_work path; mret (acc ++ [w])) [] paths;
  lift (err_if (negb (forallb (fun '(path, w) => own_envelope q path w) (zip paths occupied))) InvalidEnvelope);;
  claimed ← claim QueueStore scope owner now lease_seconds [effect];
  match claimed with
  | None => mret QueueIdle
  | Some effect => prepare_claimed scope q owner now occupied effect
  end.

(** Required work first, then comparisons. *)
Definition QUEUE_EFFECTS : list string := ["RUN_DIRECT_WORKER"; "RUN_DIRECT_OBSERVER"].

(** ** Executing a job *)

Definition execution_result (runtime : DirectWorkerRuntime) (work : WorkEnvelope) (now : Z) : Cycle DirectQueueError ResultEnvelope :=
  let id := work.(we_attempt_id) in
  if work.(we_claimed).(ce_lease_until) <? now then
    mret (EnvelopeUnavailable 1 id "controller lease expired before direct execution" (Some "LEASE_EXPIRED"%string))
  else
    answer ← attempt (ask (RunDirect work.(we_task).(dt_task_id) id) (fun sent => execute_task sent work.(we_task) id));
    mret (match answer with
          | Ok r => EnvelopeComplete 1 id r
          | Err (Unavailable e) => EnvelopeUnavailable 1 id (bounded_error e) None
          | Err (ModelUnavailable e) => EnvelopeUnavailable 1 id (bounded_error e) (Some "MODEL_UNAVAILABLE"%string)
          | Err (RuntimeFailed e) => EnvelopeFailed 1 id (bounded_error (runtime_text (RuntimeFailed e)))
          end).
Definition execute_work (runtime : DirectWorkerRuntime) (q : DirectQueue) (work : WorkEnvelope) (now : Z)
  : Cycle DirectQueueError DirectQueueCycle :=
  r ← execution_result runtime work now;
  within write_error (write_new (result_path q work.(we_attempt_id)) (ser_result_envelope r) 416);;
  mret (Executed work.(we_attempt_id) (match r with EnvelopeComplete _ _ _ => true | _ => false end)).
Definition execute_path (runtime : DirectWorkerRuntime) (q : DirectQueue) (now : Z) (path : string)
  : Cycle DirectQueueError (option DirectQueueCycle) :=
  work ← read_envelope de_work path;
  lift (err_if (negb (own_envelope q path work)) InvalidEnvelope);;
  there ← exists_file (result_path q work.(we_attempt_id));
  if (there : bool) then mret None else r ← execute_work runtime q work now; mret (Some r).
Definition execute_direct_queue_once (runtime : DirectWorkerRuntime) (q : DirectQueue) (now : Z)
  : Cycle DirectQueueError DirectQueueCycle :=
  paths ← queue_files q.(dq_inbox);
  first_cycle (execute_path runtime q now) QueueIdle paths.

(** ** Collecting results *)

(** The attempt a result file is named after. *)
Definition strip_suffix (suffix name : string) : option string :=
  if ends_with suffix name then Some (take_bytes (String.length name - String.length suffix) name) else None.
Definition attempt_of_name (name : string) : option Z :=
  rest ← strip_prefix "attempt-" name;
  id ← strip_suffix ".json" rest;
  n ← parse_u64 id;
  if n =? 0 then None else Some n.
(** The job of the inbox is the attempt of the ledger. *)
Definition same_attempt (a : StoredDirectAttempt) (w : WorkEnvelope) : bool :=
  (w.(we_schema_version) =? 1) && (w.(we_attempt_id) =? a.(sa_attempt_id))
  && String.eqb a.(sa_effect_id) w.(we_claimed).(ce_effect_id) && String.eqb a.(sa_case_key) w.(we_claimed).(ce_case_key)
  && (a.(sa_state_revision) =? w.(we_claimed).(ce_state_revision)) && String.eqb a.(sa_task_id) w.(we_task).(dt_task_id)
  && String.eqb a.(sa_lease_owner) w.(we_claimed).(ce_lease_owner) && (a.(sa_lease_until) =? w.(we_claimed).(ce_lease_until)).
Definition is_running (a : StoredDirectAttempt) : bool := match a.(sa_status) with Attempts.Running => true | _ => false end.
Definition required_work (w : WorkEnvelope) : bool := String.eqb w.(we_claimed).(ce_effect_type) RUN_EFFECT.
Definition observer_work (w : WorkEnvelope) : bool := String.eqb w.(we_claimed).(ce_effect_type) "RUN_DIRECT_OBSERVER".

(** The binding of a frozen job, under the policy its case accepted. *)
Definition frozen_binding (c : StoredCase) (w : WorkEnvelope) (s : Store) : result DirectQueueError WorkerBinding :=
  checked ← validation_case w.(we_claimed) c w.(we_task) true;
  value ← map_err QueueStore (StoreCore.accepted_policy c.(sc_repository_id) c.(sc_policy_revision) s);
  policy ← map_err QueuePolicy (load_repository_policy (to_string value));
  map_err (fun _ => InvalidEnvelope) (validate_job w.(we_claimed) checked w.(we_task) policy).

(** A job that failed, or could not be run ([cause]). *)
Definition settle_failure (q : DirectQueue) (a : StoredDirectAttempt) (w : WorkEnvelope) (now : Z) (error : string) (cause : option string)
  : Cycle DirectQueueError DirectQueueCycle :=
  let id := a.(sa_attempt_id) in
  let owner := a.(sa_lease_owner) in
  (if observer_work w then
     lift (err_if (match a.(sa_status) with Attempts.Complete => true | _ => false end) InvalidEnvelope);;
     (if is_running a then transact (fun s => map_err QueueStore (fail_direct_attempt id owner now (bounded_error error) s)) else mret ());;
     transact (fun s => map_err QueueStore (complete_effect_evidence a.(sa_effect_id) owner now {|
       vi_evidence_id := "evidence-observer-failed-" +:+ a.(sa_task_id); vi_kind := "DETACHED_REVIEW_FAILURE"; vi_source := a.(sa_task_id);
       vi_payload := json_object [("error", Str (bounded_error error))] |} s));;
     mret ()
   else if is_running a then
     match cause with
     | Some cause =>
         transact (fun s => map_err QueueStore (record_direct_unavailability_with_cause id owner now error cause s));; mret ()
     | None =>
         transact (fun s => map_err QueueStore
           (fail_direct_attempt_with_cooldown id owner now (bounded_error error) FAILED_ATTEMPT_COOLDOWN_SECONDS s));; mret ()
     end
   else mret ());;
  archive q id;;
  mret (QueueFailed id).

(** The result that counts for an attempt: the recorded one, or this one, now recorded; [None] when it was given up. *)
Definition recorded_result (a : StoredDirectAttempt) (r : WorkerResult) (now : Z) : Cycle DirectQueueError (option WorkerResult) :=
  match a.(sa_status) with
  | Attempts.Complete =>
      value ← lift (ok_or a.(sa_result) InvalidEnvelope);
      saved ← lift (ok_or (Contracts.decode value) QueueSerialization);
      mret (Some saved)
  | Attempts.Running =>
      transact (fun s => map_err QueueStore (complete_direct_attempt a.(sa_attempt_id) a.(sa_lease_owner) now (encode_result r) s));;
      mret (Some r)
  | Attempts.Failed => mret None
  end.

(** The result of a comparison: kept beside the case. *)
Definition observe_result (q : DirectQueue) (a : StoredDirectAttempt) (b : WorkerBinding) (r : WorkerResult) (now : Z)
  : Cycle DirectQueueError DirectQueueCycle :=
  lift (map_err (fun _ => QueueIngest) (validate_binding r b));;
  match r with
  | ReviewR review =>
      transact (fun s => map_err QueueStore (complete_review_observation_effect a.(sa_effect_id) a.(sa_lease_owner) now {|
        oi_observation_id := "observation-" +:+ a.(sa_task_id); oi_task_id := a.(sa_task_id); oi_reviewer_id := rv_reviewer_id review;
        oi_role := role_name (role (rv_common review)); oi_review_mode := default ""%string (review_mode_name <$> b.(wb_review_mode));
        oi_plan_version := rv_plan_version review; oi_review_round := rv_review_round review; oi_pr_number := rv_pr_number review;
        oi_reviewed_head_sha := rv_reviewed_head_sha review; oi_payload := encode_result r |} s));;
      archive q a.(sa_attempt_id);;
      mret (Observed a.(sa_task_id))
  | _ => raise InvalidEnvelope
  end.

Definition ingest_direct (policy : RepositoryPolicy) (q : DirectQueue) (a : StoredDirectAttempt) (b : WorkerBinding) (r : WorkerResult)
  : Cycle DirectQueueError DirectQueueCycle :=
  workflow ← lift (map_err QueuePolicy (workflow_policy policy));
  budget ← lift (ok_or (case_policy policy) QueuePanic);
  ingested ← transact (fun s => map_err (fun _ => QueueIngest) (ingest_worker_result_with_policy budget workflow b r s));
  archive q a.(sa_attempt_id);;
  mret (match ingested with
        | IngestApplied n => QueueIngested a.(sa_task_id) n
        | IngestReplayed => Cleaned a.(sa_attempt_id)
        end).

Definition settle_complete (policy : RepositoryPolicy) (q : DirectQueue) (c : StoredCase) (a : StoredDirectAttempt) (w : WorkEnvelope)
  (b : WorkerBinding) (r : WorkerResult) (now : Z) (advance : bool) : Cycle DirectQueueError DirectQueueCycle :=
  let id := a.(sa_attempt_id) in
  lift (map_err (fun _ => QueueIngest) (validate_binding r b));;
  recorded ← recorded_result a r now;
  match recorded with
  | None => archive q id;; mret (Cleaned id)
  | Some r =>
      if negb advance then mret (QueueRetained id) else
      current ← (if required_work w then
                   query (fun s => map_err QueueStore
                     (current_job_generation s c w.(we_claimed).(ce_state_revision) (reviews_role b.(wb_role))))
                 else mret true);
      if negb current then archive q id;; mret (Cleaned id)
      else if observes b.(wb_review_mode) then observe_result q a b r now
      else ingest_direct policy q a b r
  end.

Definition ingest_result (scope : RepositoryScope) (q : DirectQueue) (path : string) (now : Z) (advance : bool)
  : Cycle DirectQueueError DirectQueueCycle :=
  id ← lift (ok_or (attempt_of_name (file_name path)) InvalidEnvelope);
  lift (err_if (negb (String.eqb path (result_path q id))) InvalidEnvelope);;
  a ← query (fun s => found ← map_err QueueStore (direct_attempt id s); ok_or found InvalidEnvelope);
  c ← query (fun s => ok_or (query_case s a.(sa_case_key)) InvalidEnvelope);
  if negb (scope_matches scope c) then mret QueueIdle else
  envelope ← read_envelope de_result_envelope path;
  lift (err_if (negb (envelope_version envelope =? 1) || negb (envelope_attempt envelope =? id)) InvalidEnvelope);;
  w ← read_envelope de_work (input_path q id);
  lift (err_if (negb (w.(we_attempt_id) =? id) || negb (same_attempt a w)) InvalidEnvelope);;
  finished ← (if required_work w then query (fun s => map_err QueueStore (run_by_task_id a.(sa_task_id) s)) else mret None);
  match finished with
  | Some _ => archive q id;; mret (Cleaned id)
  | None =>
      b ← query (frozen_binding c w);
      match envelope with
      | EnvelopeFailed _ _ error => settle_failure q a w now error None
      | EnvelopeUnavailable _ _ error cause =>
          settle_failure q a w now error (Some (default "PROVIDER_UNAVAILABLE"%string cause))
      | EnvelopeComplete _ _ r => settle_complete (rs_policy scope) q c a w b r now advance
      end
  end.

(** One result after another, until one is done with; a retained one is remembered. *)
Fixpoint collect_paths (scope : RepositoryScope) (q : DirectQueue) (now : Z) (advance : bool) (retained : option DirectQueueCycle)
  (paths : list string) : Cycle DirectQueueError (option DirectQueueCycle) :=
  match paths with
  | [] => mret retained
  | path :: paths =>
      r ← ingest_result scope q path now advance;
      match r with
      | QueueIdle => collect_paths scope q now advance retained paths
      | QueueRetained _ => collect_paths scope q now advance (Some r) paths
      | _ => mret (Some r)
      end
  end.
Definition collect_direct_queue_once (scope : RepositoryScope) (q : DirectQueue) (now : Z) (authorization_valid : bool)
  : Cycle DirectQueueError DirectQueueCycle :=
  paths ← queue_paths q.(dq_results);
  found ← collect_paths scope q now authorization_valid None paths;
  mret (match found with
        | Some r => r
        | None => if authorization_valid then QueueIdle else QueueAuthorizationBlocked
        end).

(** ** The cycles *)

Definition reconcile_direct_queue_once (scope : RepositoryScope) (q : DirectQueue) (owner : string) (now lease_seconds : Z)
  (authorization_valid : bool) : Cycle DirectQueueError DirectQueueCycle :=
  collected ← collect_direct_queue_once scope q now authorization_valid;
  if negb (bool_decide (collected = QueueIdle)) then mret collected else
  first_cycle (fun effect =>
    prepared ← prepare_direct_queue_once scope q owner now lease_seconds effect;
    mret (if bool_decide (prepared = QueueIdle) then None else Some prepared)) QueueIdle QUEUE_EFFECTS.

Record DirectQueueSchedule := { qs_prepared : option DirectQueueCycle; qs_errors : list (string * DirectQueueError) }.
(** One case and kind of work; a case that failed is passed over from then on. *)
Definition schedule_one (policy : RepositoryPolicy) (q : DirectQueue) (owner : string) (now lease_seconds : Z)
  (report : DirectQueueSchedule) (job : string * string) : Cycle DirectQueueError DirectQueueSchedule :=
  let '(effect, case_key) := job in
  if negb (is_none report.(qs_prepared)) || existsb (fun e => String.eqb e.1 case_key) report.(qs_errors) then mret report else
  answer ← attempt (prepare_direct_queue_once {| rs_policy := policy; rs_case_key := Some case_key |} q owner now lease_seconds effect);
  mret (match answer with
        | Ok QueueIdle => report
        | Ok prepared => {| qs_prepared := Some prepared; qs_errors := report.(qs_errors) |}
        | Err e => {| qs_prepared := None; qs_errors := report.(qs_errors) ++ [(case_key, e)] |}
        end).
Definition schedule_direct_queue_once (policy : RepositoryPolicy) (authorized_cases : list string) (q : DirectQueue) (owner : string)
  (now lease_seconds : Z) : Cycle DirectQueueError DirectQueueSchedule :=
  let nothing := {| qs_prepared := None; qs_errors := [] |} in
  let jobs := QUEUE_EFFECTS ≫= (fun effect => (fun key => (effect, key)) <$> authorized_cases) in
  if is_none (po_execution_capacity policy) then
    paths ← queue_files q.(dq_inbox);
    if negb (bool_decide (paths = [])) then mret nothing
    else fold_cycle (schedule_one policy q owner now lease_seconds) nothing jobs
  else fold_cycle (schedule_one policy q owner now lease_seconds) nothing jobs.
End prepare.

(** ** Slots are never overdrawn *)

(** Jobs that may run at the same time within the capacity. *)
Record pool_ok (capacity : ExecutionCapacity) (jobs : list WorkEnvelope) : Prop := {
  po_builders : Z.of_nat (length (List.filter builds jobs)) <= Z.max 0 (ec_builders capacity);
  po_reviewers : Z.of_nat (length (List.filter (fun j => negb (builds j)) jobs)) <= Z.max 0 (ec_direct_reviewers capacity);
  po_apart : forall i j a b, jobs !! i = Some a -> jobs !! j = Some b -> i <> j -> conflicts a b = false;
}.
Lemma conflicts_sym a b : conflicts a b = conflicts b a.
Proof. unfold conflicts. by rewrite (String.eqb_sym (dt_workspace _)), (String.eqb_sym (ce_case_key _)), (orb_comm (builds a)). Qed.

Lemma slot_keeps_pool capacity jobs work :
  pool_ok capacity jobs -> slot_available work jobs capacity = true -> pool_ok capacity (jobs ++ [work]).
Proof.
  intros [Hb Hr Ha] [Hslot Hfree]%andb_true_iff. apply Z.ltb_lt in Hslot. apply negb_true_iff in Hfree.
  assert (forall a, a ∈ jobs -> conflicts work a = false) as Hno.
  { intros a Hin. apply not_true_iff_false. intros Hc. apply not_true_iff_false in Hfree. apply Hfree, existsb_exists.
    exists a. split; [by apply list_elem_of_In|done]. }
  assert (forall b, List.filter (fun job => Bool.eqb (builds job) b) jobs
            = if b then List.filter builds jobs else List.filter (fun j => negb (builds j)) jobs) as Hside.
  { intros []; apply List.filter_ext; intros x; by destruct (builds x). }
  rewrite Hside in Hslot. unfold slot_limit in Hslot. split.
  - rewrite List.filter_app, length_app. simpl. destruct (builds work); simpl; lia.
  - rewrite List.filter_app, length_app. simpl. destruct (builds work); simpl; lia.
  - intros i j a b Hi Hj Hij. apply lookup_snoc_Some in Hi, Hj.
    destruct Hi as [[_ Hi]|[-> <-]], Hj as [[_ Hj]|[-> <-]].
    + by eapply Ha.
    + rewrite conflicts_sym. apply Hno. by eapply list_elem_of_lookup_2.
    + apply Hno. by eapply list_elem_of_lookup_2.
    + done.
Qed.

Ltac reads :=
  repeat first [ apply reads_ret | apply reads_lift | apply reads_ask | apply reads_within | apply reads_attempt
               | apply reads_bind; [|intros ?] | case_match ].

Section capacity.
Context `{Codec} {fs : Filesystem}.

(** The jobs that are in the inbox, as the file system shows them. *)
Definition inbox_holds (q : DirectQueue) (jobs : list WorkEnvelope) : Prop :=
  exists sent listed, read_dir sent q.(dq_inbox) = Ok listed
    /\ Forall2 (fun path job => exists sent bytes, read_bytes sent path (MAX_ENVELOPE_BYTES + 1) = Ok bytes
                  /\ (from_str bytes ≫= de_work) = Some job /\ own_envelope q path job = true)
         (order_by str_leb listed) jobs.

Lemma within_inv {E E' A} (f : E -> E') (m : Cycle E A) w a w' : within f m w = (Ok a, w') -> m w = (Ok a, w').
Proof. unfold within. destruct (m w) as [[x|e] w1]; simpl; by intros [= <- <-]. Qed.

Lemma read_envelope_inv {A} (de : Value -> option A) path w a w' :
  read_envelope de path w = (Ok a, w') ->
  exists sent bytes, read_bytes sent path (MAX_ENVELOPE_BYTES + 1) = Ok bytes /\ (from_str bytes ≫= de) = Some a.
Proof.
  unfold read_envelope. intros [(m & w1 & _ & Hr)|(e & _ & [=])]%bind_inv. rewrite lift_run in Hr. destruct (err_if _ _); [|done].
  apply bind_inv in Hr as [(bytes & w2 & Hb & Hr)|(e & _ & [=])]. apply within_inv in Hb. injection Hb as Hb _.
  rewrite lift_run in Hr. destruct (err_if _ _); [|done]. injection Hr as Ho _. apply ok_or_ok in Ho. eauto.
Qed.
Lemma read_all paths : forall acc w out w',
  fold_cycle (fun acc path => x ← read_envelope de_work path; mret (acc ++ [x])) acc paths w = (Ok out, w') ->
  exists jobs, out = acc ++ jobs
    /\ Forall2 (fun path job => exists sent bytes, read_bytes sent path (MAX_ENVELOPE_BYTES + 1) = Ok bytes
                  /\ (from_str bytes ≫= de_work) = Some job) paths jobs.
Proof.
  induction paths as [|path paths IH]; intros acc w out w' Hr; simpl in Hr; [injection Hr as <- _; exists []; by rewrite app_nil_r|].
  apply bind_inv in Hr as [(acc1 & w1 & Hp & Hr)|(e & _ & [=])]. apply bind_inv in Hp as [(x & w2 & Hx & [= <- <-])|(e & _ & [=])].
  apply read_envelope_inv in Hx. apply IH in Hr as (jobs & -> & Hj). exists (x :: jobs). rewrite <-app_assoc. split; [done|by constructor].
Qed.
Lemma zip_forall {A B} (p : A * B -> bool) (R : A -> B -> Prop) l k :
  Forall2 R l k -> forallb p (zip l k) = true -> Forall2 (fun a b => R a b /\ p (a, b) = true) l k.
Proof.
  induction 1 as [|a b l k Hab _ IH]; simpl; [constructor|]. intros [Hp Hall]%andb_true_iff. constructor; [done|by apply IH].
Qed.

Lemma or_release_ok {E A} (err : StoreError -> E) id owner (m : Cycle E A) w a w' :
  or_release err id owner m w = (Ok a, w') -> m w = (Ok a, w').
Proof.
  unfold or_release. destruct (m w) as [[x|e] w1]; [done|]. unfold mbind, cycle_bind.
  by destruct (release err id owner w1) as [[]].
Qed.

Lemma queue_files_inv dir w paths w' :
  queue_files dir w = (Ok paths, w') -> exists sent listed, read_dir sent dir = Ok listed /\ paths = order_by str_leb listed.
Proof.
  unfold queue_files, queue_paths. intros [(l & w1 & Hl & Hr)|(e & _ & [=])]%bind_inv.
  apply bind_inv in Hr as [([] & w2 & _ & [= <- _])|(e & _ & [=])].
  apply bind_inv in Hl as [(listed & w3 & Hd & Hl)|(e & _ & [=])]. apply within_inv in Hd. injection Hd as Hd _.
  rewrite lift_run in Hl. destruct (err_if _ _); [|done]. injection Hl as <- _. eauto.
Qed.
Lemma hand_over_inv q claimed task now w id name w' :
  hand_over q claimed task now w = (Ok (Prepared id name), w') ->
  name = task.(dt_task_id) /\ begin_direct_attempt claimed name now (w_store w) = Ok (id, w_store w').
Proof.
  unfold hand_over. rewrite transact_run.
  destruct (map_err _ (begin_direct_attempt _ _ _ _)) as [[a s1]|] eqn:Hb; [|done]. apply map_err_ok in Hb.
  intros [(written & w2 & Hw & Hr)|(e & _ & [=])]%bind_inv. destruct written as [u|e].
  - injection Hr as <- <- <-. split; [done|]. rewrite Hb. do 2 f_equal. symmetry.
    change s1 with (w_store (with_store s1 w)). unfold w_store. f_equal. revert Hw. apply reads_attempt. unfold write_new, or_remove, change. reads.
  - unfold handoff_failed in Hr. apply bind_inv in Hr as [(there & w3 & _ & Hr)|(e' & _ & [=])].
    destruct there as [|[]]; try done. rewrite transact_run in Hr. by destruct (map_err _ _) as [[]|].
Qed.

End capacity.

(** ** What a collection moves *)

Section direct.
Context `{Codec} {fs : Filesystem}.

(** A step that leaves cases and events alone, whatever it answers. *)
Definition Keeps {E A} (m : Cycle E A) : Prop := forall w r w', m w = (r, w') -> quiet (w_store w) (w_store w').
Lemma keeps_reads {E A} (m : Cycle E A) : Reads m -> Keeps m.
Proof. intros Hm w r w' Hr. unfold w_store. by rewrite (Hm _ _ _ Hr). Qed.
Lemma keeps_query {E A} (f : Store -> result E A) : Keeps (query f).
Proof. by intros w r w' [= <- <-]. Qed.
Lemma keeps_bind {E A B} (m : Cycle E A) (k : A -> Cycle E B) : Keeps m -> (forall a, Keeps (k a)) -> Keeps (m ≫= k).
Proof.
  intros Hm Hk w r w' [(a & w1 & Ha & Hr)|(e & He & _)]%bind_inv; [|by eapply Hm]. etrans; [by eapply Hm|by eapply Hk].
Qed.
Lemma keeps_transact {E A} (f : Store -> result E (A * Store)) :
  (forall s a s', f s = Ok (a, s') -> quiet s s') -> Keeps (transact f).
Proof. intros Hf w r w' Hr. by destruct (transact_still f w r w' Hf Hr) as [? _]. Qed.

Lemma archive_reads q id : Reads (archive q id).
Proof. unfold archive, archive_one, exists_file, filesystem, change. reads. Qed.
Lemma envelope_reads {A} (de : Value -> option A) path : Reads (read_envelope de path).
Proof. unfold read_envelope, filesystem, stat. reads. Qed.
Lemma paths_reads dir : Reads (queue_paths dir).
Proof. unfold queue_paths, filesystem. reads. Qed.

Lemma files_reads dir : Reads (queue_files dir).
Proof.
  unfold queue_files. apply reads_bind; [apply paths_reads|]. intros paths. apply reads_bind; [|intros; apply reads_ret].
  generalize (). induction paths as [|p paths IH]; intros u; simpl; [apply reads_ret|].
  apply reads_bind; [|intros; apply IH]. unfold check_file, stat. reads.
Qed.

Ltac keeps :=
  repeat first [ apply keeps_query | apply keeps_reads; first [apply archive_reads|apply envelope_reads|apply reads_ret|apply reads_lift]
               | apply keeps_transact; intros ? ? ? ?%map_err_ok;
                 eauto using complete_attempt_evolves, fail_evolves, cooldown_evolves, unavailable_evolves, complete_evidence_evolves,
                   complete_observation_evolves
               | apply keeps_bind; [|intros ?] | case_match ].

Lemma failure_keeps q a w now error cause : Keeps (settle_failure q a w now error cause).
Proof. unfold settle_failure. keeps. Qed.
Lemma recorded_keeps a r now : Keeps (recorded_result a r now).
Proof. unfold recorded_result. keeps. Qed.
Lemma observe_keeps q a b r now : Keeps (observe_result q a b r now).
Proof. unfold observe_result. keeps. Qed.

(** A result of a job of the present generation, held to its frozen binding. *)
Record direct_job_done (scope : RepositoryScope) (s : Store) (a : StoredDirectAttempt) (c : StoredCase) (w : WorkEnvelope)
  (b : WorkerBinding) : Prop := {
  dd_attempt : direct_attempt a.(sa_attempt_id) s = Ok (Some a);
  dd_case : query_case s a.(sa_case_key) = Some c;
  dd_scope : scope_matches scope c = true;
  dd_same : same_attempt a w = true;
  dd_binding : frozen_binding c w s = Ok b;
  dd_mode : observes b.(wb_review_mode) = false;
}.
Definition direct_outcome (scope : RepositoryScope) (advance : bool) (s s' : Store) (r : result DirectQueueError DirectQueueCycle) : Prop :=
  quiet s s'
  \/ advance = true /\ exists a c w b result s1 budget workflow n,
       direct_job_done scope s a c w b /\ quiet s s1
       /\ (required_work w = true ->
           current_job_generation s1 c w.(we_claimed).(ce_state_revision) (reviews_role b.(wb_role)) = Ok true)
       /\ ingest_worker_result_with_policy budget workflow b result s1 = Ok (IngestApplied n, s')
       /\ forall x, r = Ok x -> x = QueueIngested a.(sa_task_id) n.

Lemma direct_ingest_inv policy q a b r w x w' :
  ingest_direct policy q a b r w = (x, w') ->
  w_store w' = w_store w
  \/ exists budget workflow n, ingest_worker_result_with_policy budget workflow b r (w_store w) = Ok (IngestApplied n, w_store w')
       /\ forall y, x = Ok y -> y = QueueIngested a.(sa_task_id) n.
Proof.
  unfold ingest_direct. rewrite lift_run. destruct (map_err _ (workflow_policy _)) as [workflow|]; [|intros [= _ <-]; by left].
  rewrite lift_run. destruct (ok_or _ _) as [budget|]; [|intros [= _ <-]; by left]. rewrite transact_run.
  destruct (map_err _ (ingest_worker_result_with_policy _ _ _ _ _)) as [[ingested s1]|] eqn:Hi; [|intros [= _ <-]; by left].
  apply map_err_ok in Hi. intros Hr.
  assert (w_store w' = s1 /\ forall y, x = Ok y -> y = match ingested with
     | IngestApplied n => QueueIngested a.(sa_task_id) n | IngestReplayed => Cleaned a.(sa_attempt_id) end) as [<- Hx].
  { apply bind_inv in Hr as [([] & w2 & Ha & [= <- <-])|(e & Ha & ->)]; apply archive_reads in Ha; unfold w_store; rewrite Ha;
      (split; [done|]); intros y [=]; done. }
  destruct ingested as [n|]; [right|left; by eapply ingest_replayed]. by exists budget, workflow, n.
Qed.
End direct.

Section collected.
Context `{Codec} {fs : Filesystem}.

Lemma complete_moves scope q c a wk b r now advance w x w' :
  direct_attempt a.(sa_attempt_id) (w_store w) = Ok (Some a) -> query_case (w_store w) a.(sa_case_key) = Some c ->
  scope_matches scope c = true -> same_attempt a wk = true -> frozen_binding c wk (w_store w) = Ok b ->
  settle_complete (rs_policy scope) q c a wk b r now advance w = (x, w') ->
  direct_outcome scope advance (w_store w) (w_store w') x.
Proof.
  intros Ha Hc Hsc Hsame Hb Hr. unfold settle_complete in Hr. rewrite lift_run in Hr.
  destruct (map_err _ (validate_binding _ _)) as [[]|]; [|injection Hr as _ <-; by left].
  apply bind_inv in Hr as [(recorded & w1 & Hrec & Hr)|(e & Hrec & _)]; apply recorded_keeps in Hrec; [|by left].
  assert (forall m : Cycle DirectQueueError DirectQueueCycle, Keeps m -> m w1 = (x, w') -> direct_outcome scope advance (w_store w) (w_store w') x) as Hk.
  { intros m Hm Hw. left. etrans; [exact Hrec|by eapply Hm]. }
  assert (Keeps (archive q (sa_attempt_id a);; mret (Cleaned (sa_attempt_id a)))) as Har.
  { apply keeps_reads, reads_bind; [apply archive_reads|]. intros []. apply reads_ret. }
  destruct recorded as [r'|]; [|by eapply Hk].
  destruct advance; cbn [negb] in Hr; [|eapply Hk; [|exact Hr]; apply keeps_reads, reads_ret].
  apply bind_inv in Hr as [(current & w2 & Hcur & Hr)|(e & Hcur & ->)].
  - assert (w2 = w1) as -> by (by destruct (required_work wk); injection Hcur as _ <-).
    destruct current; cbn [negb] in Hr; [|by eapply Hk]. destruct (observes (wb_review_mode b)) eqn:Hmode.
    { eapply Hk; [|exact Hr]. apply observe_keeps. }
    apply direct_ingest_inv in Hr as [->|(budget & workflow & n & Hi & Hx)]; [by left|right]. split; [done|].
    exists a, c, wk, b, r', (w_store w1), budget, workflow, n. split_and!; try done.
    intros Hreq. rewrite Hreq in Hcur. injection Hcur as Hcur. by apply map_err_ok in Hcur.
  - left. assert (w' = w1) as -> by (by destruct (required_work wk); injection Hcur as _ <-). exact Hrec.
Qed.

Lemma ingest_result_moves scope q path now advance w x w' :
  ingest_result scope q path now advance w = (x, w') -> direct_outcome scope advance (w_store w) (w_store w') x.
Proof.
  unfold ingest_result. rewrite lift_run. destruct (ok_or _ _) as [id|]; [|intros [= _ <-]; by left].
  rewrite lift_run. destruct (err_if _ _) as [[]|]; [|intros [= _ <-]; by left].
  rewrite query_run. destruct (_ ≫= _) as [a|] eqn:Ha; [|intros [= _ <-]; by left].
  apply bind_ok in Ha as (found & Hf & Ha). apply map_err_ok in Hf. apply ok_or_ok in Ha. subst found.
  rewrite query_run. destruct (ok_or _ _) as [c|] eqn:Hc; [|intros [= _ <-]; by left]. apply ok_or_ok in Hc.
  destruct (scope_matches scope c) eqn:Hsc; cbn [negb]; [|intros [= _ <-]; by left].
  intros [(envelope & w1 & He & Hr)|(e & He & _)]%bind_inv; apply envelope_reads in He; [|left; unfold w_store; by rewrite He].
  rewrite lift_run in Hr. destruct (err_if _ _) as [[]|] in Hr; [|injection Hr as _ <-; left; unfold w_store; by rewrite He].
  apply bind_inv in Hr as [(wk & w2 & Hw & Hr)|(e & Hw & _)]; apply envelope_reads in Hw; rewrite He in Hw; [|left; unfold w_store; by rewrite Hw].
  rewrite lift_run in Hr. destruct (err_if _ _) as [[]|] eqn:Hsame in Hr; [|injection Hr as _ <-; left; unfold w_store; by rewrite Hw].
  apply err_if_ok, orb_false_iff in Hsame as [Hid Hsame]. apply negb_false_iff in Hid, Hsame. apply Z.eqb_eq in Hid.
  assert (id = a.(sa_attempt_id)) as -> by (unfold same_attempt in Hsame; bools; lia).
  assert (w_store w2 = w_store w) as Hst by (unfold w_store; by rewrite Hw).
  assert (forall m : Cycle DirectQueueError DirectQueueCycle, Keeps m -> m w2 = (x, w') -> direct_outcome scope advance (w_store w) (w_store w') x) as Hk.
  { intros m Hm Hmw. left. rewrite <-Hst. by eapply Hm. }
  apply bind_inv in Hr as [(finished & w3 & Hfin & Hr)|(e & Hfin & ->)].
  - assert (w3 = w2) as -> by (by destruct (required_work wk); injection Hfin as _ <-). destruct finished as [run|].
    { eapply Hk; [|exact Hr]. apply keeps_reads, reads_bind; [apply archive_reads|]. intros []. apply reads_ret. }
    rewrite query_run in Hr. destruct (frozen_binding _ _ _) as [b|] eqn:Hb; [|injection Hr as _ <-; left; by rewrite Hst].
    destruct envelope; try (eapply Hk; [apply failure_keeps|exact Hr]). rewrite Hst in Hb. rewrite <-Hst.
    eapply complete_moves; try exact Hr; by rewrite ?Hst.
  - left. assert (w' = w2) as -> by (by destruct (required_work wk); injection Hfin as _ <-). by rewrite Hst.
Qed.

(** A later look at a ledger with the same cases. *)
Definition collected_outcome (scope : RepositoryScope) (advance : bool) (s s' : Store) (r : result DirectQueueError DirectQueueCycle) : Prop :=
  exists s0, quiet s s0 /\ direct_outcome scope advance s0 s' r.
Lemma collect_paths_moves scope q now advance paths : forall retained w x w',
  collect_paths scope q now advance retained paths w = (x, w') ->
  collected_outcome scope advance (w_store w) (w_store w') (x ≫= fun r => Ok (default QueueIdle r)).
Proof.
  induction paths as [|path paths IH]; intros retained w x w' Hr; simpl in Hr.
  { injection Hr as <- <-. exists (w_store w). split; [done|by left]. }
  apply bind_inv in Hr as [(r & w1 & Hi & Hr)|(e & Hi & ->)]; apply ingest_result_moves in Hi.
  - assert (quiet (w_store w) (w_store w1) -> forall retained, collect_paths scope q now advance retained paths w1 = (x, w') ->
      collected_outcome scope advance (w_store w) (w_store w') (x ≫= fun r => Ok (default QueueIdle r))) as Hgo.
    { intros Hq ret (s0 & Hq0 & Hout)%IH. exists s0. split; [by etrans|done]. }
    assert (r = QueueIdle \/ (exists id, r = QueueRetained id) -> quiet (w_store w) (w_store w1)) as Hquiet.
    { intros Hcont. destruct Hi as [|(_ & a & c & wk & b & res & s1 & bu & wf & n & _ & _ & _ & _ & Hn)]; [done|].
      specialize (Hn r eq_refl). subst r. by destruct Hcont as [|[]]. }
    destruct r; try (injection Hr as <- <-; by exists (w_store w)); eapply Hgo; eauto.
  - by exists (w_store w).
Qed.

Lemma collect_queue_moves scope q now advance w x w' :
  collect_direct_queue_once scope q now advance w = (x, w') -> collected_outcome scope advance (w_store w) (w_store w') x.
Proof.
  unfold collect_direct_queue_once. intros [(paths & w1 & Hp & Hr)|(e & Hp & ->)]%bind_inv; apply paths_reads in Hp;
    assert (quiet (w_store w) (w_store w)) as Hq by done.
  - assert (w_store w1 = w_store w) as Hst by (unfold w_store; by rewrite Hp).
    apply bind_inv in Hr as [(found & w2 & Hf & [= <- <-])|(e & Hf & ->)]; apply collect_paths_moves in Hf as (s0 & Hq0 & Hout);
      rewrite Hst in Hq0; exists s0; (split; [done|]); [|done].
    destruct Hout as [|(Hadv & a & c & wk & b & res & s1 & bu & wf & n & Hd & Hq1 & Hg & Hi & Hn)]; [by left|right; split; [done|]].
    exists a, c, wk, b, res, s1, bu, wf, n. split_and!; try done. intros y [= <-]. destruct found as [r|]; [by apply Hn|].
    specialize (Hn QueueIdle eq_refl). done.
  - exists (w_store w). split; [done|]. left. unfold w_store. by rewrite Hp.
Qed.
End collected.

Section theorem.
Context `{Codec} {fs : Filesystem}.

(** The binding of a frozen job names the case of its attempt. *)
Lemma frozen_binding_case c wk s b :
  frozen_binding c wk s = Ok b ->
  b.(wb_case) = {| Contracts.repository_id := c.(sc_repository_id); Contracts.issue_number := c.(sc_issue_number);
                   Contracts.workflow_version := c.(sc_workflow_version) |}.
Proof.
  unfold frozen_binding. intros Hf. apply bind_ok in Hf as (checked & Hv & Hf). apply bind_ok in Hf as (value & _ & Hf).
  apply bind_ok in Hf as (policy & _ & Hf). apply map_err_ok in Hf.
  assert (sc_repository_id checked = sc_repository_id c /\ sc_issue_number checked = sc_issue_number c
          /\ sc_workflow_version checked = sc_workflow_version c) as (<- & <- & <-).
  { unfold validation_case in Hv. simpl in Hv. open_ok. by subst. }
  unfold validate_job in Hf. open_ok. by subst.
Qed.
Lemma binding_keyed c wk s b id :
  well_keyed c -> frozen_binding c wk s = Ok b -> case_id b = Ok id -> case_key id = c.(sc_case_key).
Proof.
  intros Hk Hb%frozen_binding_case Hid. apply Hk. unfold case_id in Hid. rewrite Hb in Hid. simpl in Hid. unfold case_id_of.
  destruct (nonzero (sc_repository_id c)), (nonzero (sc_issue_number c)), (nonzero (sc_workflow_version c)); simpl in *; congruence.
Qed.

Lemma prepare_keeps scope q owner now lease effect : Keeps (prepare_direct_queue_once scope q owner now lease effect).
Proof.
  assert (forall A (m : Cycle DirectQueueError A), Reads m -> Keeps m) as Hreads by (intros; by apply keeps_reads).
  assert (forall id, Keeps (release QueueStore id owner)) as Hrel.
  { intros id w r w' Hr. by apply release_still in Hr as [? _]. }
  assert (forall paths acc, Reads (fold_cycle (fun acc path => x ← read_envelope de_work path; mret (acc ++ [x])) acc paths)) as Hall.
  { induction paths as [|p paths IH]; intros acc; simpl; [apply reads_ret|]. apply reads_bind; [|intros; apply IH].
    apply reads_bind; [apply envelope_reads|intros; apply reads_ret]. }
  assert (forall claimed task, Keeps (hand_over q claimed task now)) as Hhand.
  { intros claimed task. unfold hand_over. apply keeps_bind; [apply keeps_transact; intros ? ? ? ?%map_err_ok; by eapply begin_evolves|].
    intros id. apply keeps_bind; [apply Hreads, reads_attempt; unfold write_new, or_remove, change; reads|]. intros written.
    destruct written as [u|e]; [apply Hreads, reads_ret|]. unfold handoff_failed.
    apply keeps_bind; [apply Hreads; unfold stat; reads|]. intros there. destruct there as [|[]]; try (apply Hreads, reads_lift).
    apply keeps_bind; [|intros; apply Hreads, reads_lift]. apply keeps_transact. intros ? ? ? ?%map_err_ok. by eapply unavailable_evolves. }
  unfold prepare_direct_queue_once. apply keeps_bind; [apply Hreads; unfold filesystem; reads|]. intros []; cbn [negb]; [|apply Hreads, reads_ret].
  apply keeps_bind; [apply Hreads, files_reads|]. intros paths. case_match; [apply Hreads, reads_ret|].
  apply keeps_bind; [by apply Hreads|]. intros jobs. apply keeps_bind; [apply Hreads, reads_lift|]. intros _.
  apply keeps_bind; [intros w r w' Hr; by apply claim_still in Hr as [? _]|]. intros [claimed|]; [|apply Hreads, reads_ret].
  unfold prepare_claimed. apply keeps_bind.
  - intros w r w' Hr. unfold or_release in Hr. destruct (query _ w) as [[t|e] w1] eqn:Hq; injection Hq as _ <-; [by injection Hr as _ <-|].
    revert Hr. apply keeps_bind; [apply Hrel|intros; apply Hreads, reads_lift].
  - intros task. case_match; [apply keeps_bind; [apply Hrel|intros; apply Hreads, reads_ret]|apply Hhand].
Qed.

(** C22: A direct worker's result moves only the case of its own attempt.  Whatever the files contain and
    whatever the cycle answers: when a case differs after a cycle of the queue, the cycle was authorized, the
    case is that of an attempt in the ledger and lies in the scope, the hand-over agrees with the attempt in
    every field, and a result that is valid for the binding frozen with the job was ingested; required
    work was of the present generation of the case, and comparisons are never ingested. *)
Theorem direct_results_move_own_case (scope : RepositoryScope) (q : DirectQueue) (owner : string) (now lease : Z) (valid : bool)
  (w w' : World) (r : result DirectQueueError DirectQueueCycle) (k : string) (c c' : StoredCase)
  (Hkeys : keys_match (w_store w) = true)
  (Hrun : reconcile_direct_queue_once scope q owner now lease valid w = (r, w'))
  (Hc : query_case (w_store w) k = Some c) (Hc' : query_case (w_store w') k = Some c') (Hne : c' <> c) :
  valid = true /\ exists s0 a wk b result s1 budget workflow n,
    quiet (w_store w) s0 /\ direct_job_done scope s0 a c wk b /\ a.(sa_case_key) = k
    /\ quiet s0 s1 /\ validate_binding result b = Ok ()
    /\ (required_work wk = true ->
        current_job_generation s1 c wk.(we_claimed).(ce_state_revision) (reviews_role b.(wb_role)) = Ok true)
    /\ ingest_worker_result_with_policy budget workflow b result s1 = Ok (IngestApplied n, w_store w')
    /\ forall x, r = Ok x -> x = QueueIngested a.(sa_task_id) n.
Proof.
  unfold reconcile_direct_queue_once in Hrun.
  assert (collected_outcome scope valid (w_store w) (w_store w') r) as (s0 & Hq0 & Hout).
  { apply bind_inv in Hrun as [(x & w1 & Hx & Hr)|(e & Hx & ->)]; apply collect_queue_moves in Hx; [|done].
    case_bool_decide as Hidle; cbn [negb] in Hr; [|by injection Hr as <- <-]. subst x. destruct Hx as (s0 & Hq0 & Hout).
    exists s0. split; [done|]. left. etrans.
    - destruct Hout as [Hq|(_ & ? & ? & ? & ? & ? & ? & ? & ? & ? & _ & _ & _ & _ & Hn)]; [exact Hq|]. by specialize (Hn _ eq_refl).
    - clear Hout. revert Hr. generalize QUEUE_EFFECTS. intros l. revert w1. induction l as [|e l IH]; intros w1 Hr; [by injection Hr as _ <-|].
      simpl in Hr. apply bind_inv in Hr as [(found & w2 & Hp & Hr)|(e' & Hp & _)].
      + assert (quiet (w_store w1) (w_store w2)) as Hq.
        { revert Hp. apply keeps_bind; [apply prepare_keeps|intros; apply keeps_reads, reads_ret]. }
        destruct found; [by injection Hr as _ <-|]. etrans; [exact Hq|]. by eapply IH.
      + revert Hp. apply keeps_bind; [apply prepare_keeps|intros; apply keeps_reads, reads_ret]. }
  destruct Hout as [Hq|(-> & a & c0 & wk & b & res & s1 & bu & wf & n & Hd & Hq1 & Hg & Hi & Hn)].
  { rewrite (quiet_query _ _ _ Hq), (quiet_query _ _ _ Hq0) in Hc'. congruence. }
  split; [done|]. pose proof (ingest_applied_inv _ _ _ _ _ _ _ Hi) as (Hv & _ & id & _ & _ & Hid & _).
  destruct Hd as [Hat Hcase Hsc Hsame Hb Hmode].
  assert (well_keyed c0) as Hwk.
  { rewrite (quiet_query _ _ _ Hq0) in Hcase. by eapply keys_match_keyed. }
  pose proof (binding_keyed _ _ _ _ _ Hwk Hb Hid) as Hkey. pose proof (query_case_key _ _ _ Hcase) as Hk0.
  assert (k = a.(sa_case_key)) as ->.
  { destruct (decide (k = case_key id)) as [->|Hk]; [congruence|].
    rewrite (ingest_others _ _ _ _ _ _ _ _ Hi Hid _ Hk), (quiet_query _ _ _ Hq1), (quiet_query _ _ _ Hq0) in Hc'. congruence. }
  rewrite (quiet_query _ _ _ Hq0), Hc in Hcase. injection Hcase as <-.
  exists s0, a, wk, b, res, s1, bu, wf, n. split_and!; try done. split; try done. by rewrite (quiet_query _ _ _ Hq0).
Qed.
End theorem.

(** ** Cycles of the queue are system steps *)

Section sound.
Context `{Codec} {fs : Filesystem}.

Lemma sound_reads {E A} (m : Cycle E A) : Reads m -> Sound m.
Proof. intros Hm w r w' Hr. unfold w_store. by rewrite (Hm _ _ _ Hr). Qed.
(** A continuation may use that its argument was answered. *)
Lemma sound_bind_answered {E A B} (m : Cycle E A) (k : A -> Cycle E B) :
  Sound m -> (forall w a w', m w = (Ok a, w') -> Sound (k a)) -> Sound (m ≫= k).
Proof.
  intros Hm Hk w r w' [(a & w1 & Ha & Hr)|(e & He & _)]%bind_inv; [|by eapply Hm].
  etrans; [exact (Hm _ _ _ Ha)|exact (Hk _ _ _ Ha _ _ _ Hr)].
Qed.

Ltac sound_method :=
  apply sound_quiet; intros ? ? ? ?%map_err_ok; split;
  solve [eauto using step_begin, step_complete, step_fail, step_cooldown, step_unavailable, step_evidence, step_observation, begin_evolves,
    complete_attempt_evolves, fail_evolves, cooldown_evolves, unavailable_evolves, complete_evidence_evolves, complete_observation_evolves].
Ltac sound_queue :=
  repeat first [ sound_method | apply sound_lease | apply sound_reads; first [apply archive_reads|apply envelope_reads]
               | apply sound_attempt | apply sound_within | apply sound_ask | sound_step ].

Definition timely (r : WorkerResult) : Prop := 0 <= started_at_unix (common r) /\ 0 <= completed_at_unix (common r).

Lemma failure_sound q a w now error cause : Sound (settle_failure q a w now error cause).
Proof. unfold settle_failure. sound_queue. Qed.
Lemma direct_ingest_sound policy q a b r : timely r -> Sound (ingest_direct policy q a b r).
Proof.
  intros Ht. unfold ingest_direct. sound_queue. apply sound_transact. intros ? ? ? Hs%map_err_ok. exact (ingest_steps _ _ _ _ _ _ _ Ht Hs).
Qed.
Lemma complete_sound policy q c a wk b r now advance : timely r -> Sound (settle_complete policy q c a wk b r now advance).
Proof.
  intros Ht. unfold settle_complete. apply sound_lift_bind. intros u _.
  apply sound_bind_answered; [unfold recorded_result; sound_queue|]. intros w recorded w' Hrec.
  assert (forall x, recorded = Some x -> timely x) as Hx.
  { intros x ->. unfold recorded_result in Hrec. destruct (sa_status a); [| |done].
    - rewrite transact_run in Hrec. destruct (map_err _ _) as [[]|]; [|done]. by injection Hrec as <- _.
    - rewrite lift_run in Hrec. destruct (ok_or _ _) as [v|]; [|done]. rewrite lift_run in Hrec.
      destruct (ok_or (Contracts.decode v) _) as [saved|] eqn:Hd; [|done]. injection Hrec as <- _. apply ok_or_ok in Hd. by eapply decode_times. }
  unfold observe_result. sound_queue; [apply direct_ingest_sound; eauto..].
Qed.
Lemma envelope_timely v n a r : de_result_envelope v = Some (EnvelopeComplete n a r) -> timely r.
Proof.
  unfold de_result_envelope. intros Hd. apply bind_Some in Hd as ([tag rest] & _ & Hd).
  destruct (String.eqb tag "UNAVAILABLE"); [repeat (apply bind_Some in Hd as (? & _ & Hd)); done|].
  destruct (String.eqb tag "COMPLETE"); [|destruct (String.eqb tag "FAILED"); [repeat (apply bind_Some in Hd as (? & _ & Hd)); done|done]].
  apply bind_Some in Hd as (m & _ & Hd). apply bind_Some in Hd as (? & _ & Hd). apply bind_Some in Hd as (? & _ & Hd).
  apply bind_Some in Hd as (res & Hx & [= _ _ <-]). apply bind_Some in Hx as (val & _ & Hx). by eapply decode_times.
Qed.
Lemma ingest_result_sound scope q path now advance : Sound (ingest_result scope q path now advance).
Proof.
  unfold ingest_result. do 4 (sound_step). sound_step; [sound_step|].
  apply sound_bind_answered; [apply sound_reads, envelope_reads|]. intros w envelope w' He.
  apply read_envelope_inv in He as (sent & bytes & _ & Hd). apply bind_Some in Hd as (v & _ & Hd).
  sound_queue; first [apply failure_sound|apply complete_sound; by eapply envelope_timely|idtac].
Qed.
Lemma collect_queue_sound scope q now advance : Sound (collect_direct_queue_once scope q now advance).
Proof.
  unfold collect_direct_queue_once. apply sound_bind; [apply sound_reads, paths_reads|]. intros paths.
  apply sound_bind; [|intros; apply sound_ret]. generalize (None : option DirectQueueCycle).
  induction paths as [|path paths IH]; intros retained; simpl; [apply sound_ret|].
  apply sound_bind; [apply ingest_result_sound|]. intros []; first [apply IH|apply sound_ret].
Qed.
Lemma prepare_sound scope q owner now lease effect : Sound (prepare_direct_queue_once scope q owner now lease effect).
Proof.
  unfold prepare_direct_queue_once, prepare_claimed, hand_over, handoff_failed, record_direct_unavailability, filesystem, stat.
  sound_queue; try (apply sound_reads, files_reads).
  all: try apply sound_or_release; sound_queue; try apply sound_release.
  all: unfold write_new, or_remove, change; sound_queue.
Qed.
Lemma queue_sound scope q owner now lease valid : Sound (reconcile_direct_queue_once scope q owner now lease valid).
Proof.
  unfold reconcile_direct_queue_once. apply sound_bind; [apply collect_queue_sound|]. intros r. case_match; [apply sound_ret|].
  apply sound_first. intros effect. apply sound_bind; [apply prepare_sound|]. intros. apply sound_ret.
Qed.
Lemma schedule_sound policy cases q owner now lease : Sound (schedule_direct_queue_once policy cases q owner now lease).
Proof.
  unfold schedule_direct_queue_once.
  assert (forall report jobs, Sound (fold_cycle (schedule_one policy q owner now lease) report jobs)) as Hfold.
  { intros report jobs. apply sound_fold. intros acc [effect key] _. unfold schedule_one.
    case_match; [apply sound_ret|]. apply sound_bind; [apply sound_attempt, prepare_sound|]. intros. apply sound_ret. }
  case_match; [|apply Hfold]. apply sound_bind; [apply sound_reads, files_reads|]. intros paths. case_match; [apply sound_ret|apply Hfold].
Qed.
End sound.

(** ** A worker at a queue *)

(** [lean_codec] with digests of the shape of SHA-256. *)
Definition hex_digit (n : nat) : ascii := match String.get n "0123456789abcdef" with Some a => a | None => "0"%char end.
Definition hex_codec : Codec := {|
  to_string := lean;
  from_str := from_str (Codec := lean_codec);
  hash_bytes s := String.concat "" (replicate 62 "0"%string)
    +:+ String (hex_digit (String.length s / 16 mod 16)) (String (hex_digit (String.length s mod 16)) "");
  float_cmp := Z.compare; float_cmp_int := Z.compare; float_of_int n := n; int_text _ := None;
|}.

Definition file_at (p : string) (files : list (string * string)) : option string :=
  snd <$> List.find (fun f => String.eqb f.1 p) files.
(** The files after a history of requests; directories always exist. *)
Definition file_effect (files : list (string * string)) (q : Request) : list (string * string) :=
  let without p := List.filter (fun f => negb (String.eqb f.1 p)) files in
  match q with
  | FileCall (CreateNew p _) => (p, ""%string) :: without p
  | FileCall (WriteSync p bytes) => (p, bytes) :: without p
  | FileCall (HardLink p l) => match file_at p files with Some b => (l, b) :: files | None => files end
  | FileCall (RemoveFile p) => without p
  | FileCall (RenameFile p l) => match file_at p files with Some b => (l, b) :: without p | None => files end
  | _ => files
  end.
Definition demo_files (sent : list Request) : list (string * string) := fold_left file_effect sent [].
Definition demo_fs : Filesystem := {|
  read_dir sent dir := Ok (fst <$> List.filter (fun f => starts_with (dir +:+ "/") f.1) (demo_files sent));
  symlink_metadata sent p :=
    match file_at p (demo_files sent) with
    | Some b => Ok {| md_symlink := false; md_file := true; md_dir := false; md_len := len b |}
    | None => Ok {| md_symlink := false; md_file := false; md_dir := true; md_len := 0 |}
    end;
  read_bytes sent p _ := match file_at p (demo_files sent) with Some b => Ok b | None => Err (IoNotFound "no file") end;
  canonicalize _ p := Ok p;
  file_call _ _ := Ok ();
  path_exists sent p := negb (is_none (file_at p (demo_files sent)));
  try_lock _ _ := Ok true;
|}.

(** The policy of the examples with a capacity. *)
Definition direct_policy : RepositoryPolicy :=
  let p := demo_policy 1 1000 in {|
  po_conversations_enabled := false; po_conversation_model := None; po_policy_format := po_policy_format p;
  po_revision := po_revision p; po_repository := po_repository p; po_board := po_board p;
  po_workflow_version := po_workflow_version p; po_checkout := po_checkout p; po_workspace := po_workspace p;
  po_artifacts := po_artifacts p; po_workspace_storage := po_workspace_storage p;
  po_branch_prefix := po_branch_prefix p; po_github := po_github p; po_intake := po_intake p;
  po_dispatch_enabled := true;
  po_execution_capacity := Some {| ec_native_sessions := 1; ec_builders := 1; ec_direct_reviewers := 1; ec_ready_plans := 1;
                                   ec_cargo_jobs := 1 |};
  po_merge := po_merge p; po_max_remediation_rounds := 3;
  po_max_case_elapsed_seconds := 1000; po_max_provider_failures := 3; po_max_hermes_attempts := None;
  po_max_outage_seconds := None; po_max_stall_seconds := None; po_hermes_scratch_root := None;
  po_max_repeated_finding_fingerprint := 2; po_sensitive_scope_categories := ["CRYPTOGRAPHY"];
  po_required_ci_contexts := ["ci"];
  po_roles := [demo_role Planner None false; demo_role Builder None true;
               demo_role ReviewerGeneral (Some "g"%string) false; demo_role ReviewerSecperf (Some "s"%string) true;
               demo_role FinalReviewer None false] |}.
Definition direct_scope : RepositoryScope := {| rs_policy := direct_policy; rs_case_key := None |}.
Definition demo_queue : DirectQueue := {| dq_inbox := "/q/inbox"; dq_results := "/q/results"; dq_archive := "/q/archive" |}.

(** A builder that finishes the task it is given. *)
Definition demo_builder : DirectWorkerRuntime := fun _ task _ => Ok (BuilderR {|
  bu_common := {| contract_version := 2; cr_workflow_version := 3; case := case (demo_common "" Builder); task_id := dt_task_id task;
    role := Builder; requested_model := "cursor/model-1"; actual_model := "cursor/model-1";
    skills_repository_commit := dx_skills_repository_commit (demo_dispatch 0); started_at_unix := 210; completed_at_unix := 220;
    evidence := [] |};
  bu_outcome := BuilderOutcome.ReviewReady; bu_plan_version := 1; bu_build_round := 1; bu_head_sha := Some demo_commit;
  bu_local_checks := ["tests"%string]; bu_finding_resolutions := [] |}).

(** A case with an accepted plan, waiting to be built. *)
Definition direct_start : World := demo_world
  (after (apply_transition_batch (H := hex_codec) [{|
     ti_case_key := demo_case_key; ti_expected_revision := 1; ti_next_state := "READY_TO_BUILD"; ti_remediation_round := 0;
     ti_plan_version := 1; ti_pr_number := None; ti_head_sha := None; ti_observed_at := 110;
     ti_event := {| ei_event_id := "e2"; ei_event_type := "PLAN_READY"; ei_payload := Object [] |};
     ti_run := None; ti_evidence := []; ti_findings := [];
     ti_effects := [{| fi_effect_id := "x1"; fi_effect_type := "DISPATCH_BUILDER"; fi_payload := Object [] |}] |}] None
  (after (record_policy (H := hex_codec) {| yi_repository_id := 1; yi_revision := 1; yi_accepted_at := 100; yi_payload := ser_policy direct_policy |}
  (after (create_case (H := hex_codec) {|
     nc_case_key := demo_case_key; nc_repository_id := 1; nc_issue_number := 2; nc_workflow_version := 3; nc_policy_revision := 1;
     nc_initial_state := "PLANNING"; nc_observed_at := 100;
     nc_event := {| ei_event_id := "e1"; ei_event_type := "ISSUE_AUTHORIZED"; ei_payload := Object [] |};
     nc_effects := [] |} empty_store)))))).
Definition direct_dispatched :=
  dispatch_once_inner (H := hex_codec) (runner := demo_board true) (elapsed := demo_clock) None direct_scope (demo_dispatch 200) direct_start.
Definition run_queue (now : Z) (w : World) :=
  reconcile_direct_queue_once (H := hex_codec) (fs := demo_fs) direct_scope demo_queue "w" now 600 true w.
Definition run_prepare (w : World) :=
  prepare_direct_queue_once (H := hex_codec) (fs := demo_fs) direct_scope demo_queue "w" 205 600 RUN_EFFECT w.
Definition direct_prepared : World := (run_prepare direct_dispatched.2).2.
Definition direct_executed :=
  execute_direct_queue_once (H := hex_codec) (fs := demo_fs) demo_builder demo_queue 210 direct_prepared.
Definition direct_collected : World := (run_queue 230 direct_executed.2).2.


Lemma direct_results_move_own_case_witness :
  exists c c' s0 a wk b, query_case (w_store direct_executed.2) demo_case_key = Some c
    /\ query_case (w_store direct_collected) demo_case_key = Some c' /\ c'.(sc_state) = "BUILDING"%string
    /\ direct_job_done (H := hex_codec) direct_scope s0 a c wk b /\ a.(sa_case_key) = demo_case_key.
Proof.
  assert (state_in direct_executed.2 = Some "READY_TO_BUILD"%string) as Hs by (vm_compute; reflexivity).
  assert (state_in direct_collected = Some "BUILDING"%string) as Hs' by (vm_compute; reflexivity).
  apply fmap_Some in Hs as (c & Hc & Hst), Hs' as (c' & Hc' & Hst').
  assert (c' <> c) as Hne by (intros ->; rewrite <-Hst in Hst'; discriminate Hst').
  destruct (direct_results_move_own_case (H := hex_codec) (fs := demo_fs) direct_scope demo_queue "w" 230 600 true
              direct_executed.2 direct_collected (run_queue 230 direct_executed.2).1 demo_case_key c c')
    as (_ & s0 & a & wk & b & res & s1 & bu & wf & n & _ & Hd & Hk & _).
  - vm_compute. reflexivity.
  - unfold direct_collected, run_queue. apply surjective_pairing.
  - exact Hc.
  - exact Hc'.
  - exact Hne.
  - exists c, c', s0, a, wk, b. split_and!; [exact Hc|exact Hc'|symmetry; exact Hst'|exact Hd|exact Hk].
Defined.
