(* ===== verification/DirectPool.v ===== *)
(** * DirectPool: the threads of the direct worker

    [execute_direct_queue_pool] of crates/pip-control/src/direct_queue.rs.  One thread per job runs
    [execute_work] while the drainer keeps taking finished threads off the pool and starting
    jobs of the inbox in the slots that are free.  A turn of the drainer is a function; threads and
    turns interleave as steps ([pool_step]).  That whole calls of [execute_work] alternate with turns is no
    restriction for what is shown: the files answer arbitrarily, whatever was sent before. *)

From stdpp Require Import relations.
From S2P Require Import Prelude Text Parse Json Serde Domain Sql Tables Outbox Ledger Contracts RolePolicy Scheduling Policy PolicyLaws Commands World.
From S2P Require Import Claims Ingest Takeover Board Dispatch Collect DirectJobs DirectQueue.
Open Scope Z_scope.

(** A job with its thread: the time it was started at, and the answer once the thread has finished.  A
    thread that panicked answers [InvalidQueue], as its [join] is read. *)
Record PoolJob := { pj_work : WorkEnvelope; pj_now : Z; pj_outcome : option (result DirectQueueError DirectQueueCycle) }.
Record Pool := { pl_active : list PoolJob; pl_finished : list DirectQueueCycle }.
Definition empty_pool : Pool := {| pl_active := []; pl_finished := [] |}.
Definition pool_works (p : Pool) : list WorkEnvelope := pj_work <$> p.(pl_active).

Section pool.
Context `{Codec} {fs : Filesystem} {elapsed : Elapsed}.
Variables (runtime : DirectWorkerRuntime) (q : DirectQueue) (policy : RepositoryPolicy) (capacity : ExecutionCapacity) (now : Z).

(** Finished threads leave the pool in order; the first error ends the pool. *)
Fixpoint reap (active : list PoolJob) (finished : list DirectQueueCycle) : result DirectQueueError Pool :=
  match active with
  | [] => Ok {| pl_active := []; pl_finished := finished |}
  | job :: active =>
      match job.(pj_outcome) with
      | None => p ← reap active finished; Ok {| pl_active := job :: p.(pl_active); pl_finished := p.(pl_finished) |}
      | Some r => cycle ← r; reap active (finished ++ [cycle])
      end
  end.

(** A hand-over that is still being written. *)
Definition being_written (path : string) : bool :=
  match (rest ← strip_prefix "attempt-" (file_name path); id ← strip_suffix ".json.new" rest; parse_u64 id) with
  | Some id => 0 <? id
  | None => false
  end.
(** A file that was archived since it was listed is not an error. *)
Definition read_listed (path : string) : Cycle DirectQueueError (option WorkEnvelope) :=
  answer ← attempt (read_envelope de_work path);
  match answer with
  | Ok work => mret (Some work)
  | Err e => m ← attempt (stat path); match m with Err (IoNotFound _) => mret None | _ => raise e end
  end.
Definition own_repository (work : WorkEnvelope) : bool :=
  bool_decide (as_u64 (index work.(we_task).(dt_body) "repository_id") = Some (rid_id (po_repository policy))).
Definition is_active (active : list PoolJob) (work : WorkEnvelope) : bool :=
  existsb (fun job => job.(pj_work).(we_attempt_id) =? work.(we_attempt_id)) active.

Definition consider (active : list PoolJob) (path : string) : Cycle DirectQueueError (list PoolJob) :=
  if being_written path then mret active else
  found ← read_listed path;
  match found with
  | None => mret active
  | Some work =>
      lift (err_if (negb (own_envelope q path work)) InvalidEnvelope);;
      if negb (own_repository work) then mret active else
      there ← exists_file (result_path q work.(we_attempt_id));
      if (there : bool) || is_active active work then mret active
      else if negb (slot_available work (pj_work <$> active) capacity) then mret active
      else
        observed ← ask ReadClock (fun sent => Ok (saturating_add u64_max now (elapsed_secs sent)));
        mret (active ++ [{| pj_work := work; pj_now := observed; pj_outcome := None |}])
  end.

(** One round of the loop. *)
Definition pool_turn (p : Pool) : Cycle DirectQueueError Pool :=
  p ← lift (reap p.(pl_active) p.(pl_finished));
  paths ← queue_paths q.(dq_inbox);
  active ← fold_cycle consider p.(pl_active) paths;
  mret {| pl_active := active; pl_finished := p.(pl_finished) |}.
(** Before the loop: a valid capacity, and one drainer at a time ([false]: another one runs). *)
Definition pool_start : Cycle DirectQueueError bool :=
  lift (err_if (negb (capacity_valid capacity)) InvalidQueue);;
  filesystem (ask (FileCall (TryLock q.(dq_results))) (fun sent => try_lock sent q.(dq_results))).

Definition with_outcome (i : nat) (job : PoolJob) (r : result DirectQueueError DirectQueueCycle) (p : Pool) : Pool := {|
  pl_active := <[i := {| pj_work := job.(pj_work); pj_now := job.(pj_now); pj_outcome := Some r |}]> p.(pl_active);
  pl_finished := p.(pl_finished) |}.
Inductive pool_step : Pool * World -> Pool * World -> Prop :=
| pool_drain p w p' w' : pool_turn p w = (Ok p', w') -> pool_step (p, w) (p', w')
| pool_thread p w i job r w' :
    p.(pl_active) !! i = Some job -> job.(pj_outcome) = None -> execute_work runtime q job.(pj_work) job.(pj_now) w = (r, w') ->
    pool_step (p, w) (with_outcome i job r p, w')
| pool_panic p w i job w' :
    p.(pl_active) !! i = Some job -> job.(pj_outcome) = None -> w'.(w_db) = w.(w_db) ->
    pool_step (p, w) (with_outcome i job (Err InvalidQueue) p, w').
End pool.

(** ** The pool never overdraws the capacity *)

Lemma pool_ok_remove capacity l1 x l2 : pool_ok capacity (l1 ++ x :: l2) -> pool_ok capacity (l1 ++ l2).
Proof.
  intros [Hb Hr Ha]. split.
  - rewrite List.filter_app, length_app in *. simpl in Hb. destruct (builds x); simpl in Hb; lia.
  - rewrite List.filter_app, length_app in *. simpl in Hr. destruct (builds x); simpl in Hr; lia.
  - set (f := fun i => if (i <? length l1)%nat then i else S i).
    assert (forall i a, (l1 ++ l2) !! i = Some a -> (l1 ++ x :: l2) !! f i = Some a) as Hf.
    { intros i a. unfold f. destruct (Nat.ltb_spec i (length l1)) as [Hi|Hi].
      - by rewrite !lookup_app_l by lia.
      - rewrite !lookup_app_r by lia. by replace (S i - length l1)%nat with (S (i - length l1)) by lia. }
    intros i j a b Hi Hj Hij. eapply Ha; [by apply Hf|by apply Hf|]. unfold f.
    destruct (Nat.ltb_spec i (length l1)), (Nat.ltb_spec j (length l1)); lia.
Qed.

Section kept.
Context `{Codec} {fs : Filesystem} {elapsed : Elapsed}.
Variables (runtime : DirectWorkerRuntime) (q : DirectQueue) (policy : RepositoryPolicy) (capacity : ExecutionCapacity) (now : Z).

(** Jobs that may run together, of different attempts, all of this repository. *)
Record jobs_ok (jobs : list WorkEnvelope) : Prop := {
  jo_pool : pool_ok capacity jobs;
  jo_once : NoDup (we_attempt_id <$> jobs);
  jo_own : Forall (fun job => own_repository policy job = true /\ job.(we_schema_version) = 1 /\ job.(we_attempt_id) <> 0) jobs;
}.
Lemma jobs_ok_remove l1 x l2 : jobs_ok (l1 ++ x :: l2) -> jobs_ok (l1 ++ l2).
Proof.
  intros [Hp Hn Ho]. split.
  - by eapply pool_ok_remove.
  - revert Hn. rewrite !fmap_app, fmap_cons. intros Hn. apply NoDup_app in Hn as (H1 & H2 & H3). apply NoDup_cons in H3 as [_ H3].
    apply NoDup_app. split_and!; [done| |done]. intros y Hy Hy'. eapply H2; [exact Hy|by constructor].
  - apply Forall_app in Ho as [H1 H2]. apply Forall_app. split; [done|by inversion H2].
Qed.

Lemma reap_ok active : forall pre finished p,
  jobs_ok (pre ++ (pj_work <$> active)) -> reap active finished = Ok p -> jobs_ok (pre ++ pool_works p).
Proof.
  induction active as [|job active IH]; intros pre finished p Hok Hr; simpl in Hr; [by injection Hr as <-|].
  destruct (pj_outcome job) as [r|].
  - apply bind_ok in Hr as (cycle & _ & Hr). eapply IH; [|exact Hr]. by eapply jobs_ok_remove.
  - apply bind_ok in Hr as (p1 & Hp & [= <-]). unfold pool_works. simpl. apply (IH (pre ++ [pj_work job])) in Hp; simplify_list_eq; done.
Qed.

Lemma consider_ok active path w active' w' :
  jobs_ok (pj_work <$> active) -> consider q policy capacity now active path w = (Ok active', w') -> jobs_ok (pj_work <$> active').
Proof.
  intros Hok Hr. unfold consider in Hr. case_match; [by injection Hr as <- _|].
  apply bind_inv in Hr as [([work|] & w1 & _ & Hr)|(e & _ & [=])]; [|by injection Hr as <- _].
  rewrite lift_run in Hr. destruct (err_if _ _) as [[]|] eqn:Hown in Hr; [|done]. apply err_if_ok, negb_false_iff in Hown.
  destruct (own_repository policy work) eqn:Hrep; cbn [negb] in Hr; [|by injection Hr as <- _].
  apply bind_inv in Hr as [(there & w2 & _ & Hr)|(e & _ & [=])].
  destruct (_ || _) eqn:Hnew in Hr; [by injection Hr as <- _|]. apply orb_false_iff in Hnew as [_ Hnew].
  destruct (slot_available _ _ _) eqn:Hslot in Hr; cbn [negb] in Hr; [|by injection Hr as <- _].
  apply bind_inv in Hr as [(observed & w3 & _ & [= <- _])|(e & _ & [=])]. rewrite fmap_app. simpl.
  apply andb_true_iff in Hown as [[Hv Hid]%andb_true_iff _]. destruct Hok as [Hp Hn Ho]. split.
  - by apply slot_keeps_pool.
  - rewrite fmap_app. apply NoDup_app. split_and!; [done| |apply NoDup_singleton].
    intros y Hy ->%list_elem_of_singleton. apply not_true_iff_false in Hnew. apply Hnew, existsb_exists.
    apply list_elem_of_fmap in Hy as (w0 & Heq & Hy). apply list_elem_of_fmap in Hy as (job & -> & Hy).
    exists job. split; [by apply list_elem_of_In|by apply Z.eqb_eq].
  - apply Forall_app. split; [done|]. apply Forall_singleton. split_and!; [done|lia|].
    apply negb_true_iff in Hid. by apply Z.eqb_neq in Hid.
Qed.
Lemma considered_ok paths : forall active w active' w',
  jobs_ok (pj_work <$> active) -> fold_cycle (consider q policy capacity now) active paths w = (Ok active', w') ->
  jobs_ok (pj_work <$> active').
Proof.
  induction paths as [|path paths IH]; intros active w active' w' Hok Hr; simpl in Hr; [by injection Hr as <- _|].
  apply bind_inv in Hr as [(a1 & w1 & Hc & Hr)|(e & _ & [=])]. eapply IH; [|exact Hr]. by eapply consider_ok.
Qed.

Lemma considered_reads paths : forall active, Reads (fold_cycle (consider q policy capacity now) active paths).
Proof.
  induction paths as [|path paths IH]; intros active; simpl; [apply reads_ret|]. apply reads_bind; [|intros; apply IH].
  unfold consider. case_match; [apply reads_ret|]. apply reads_bind.
  - unfold read_listed. apply reads_bind; [apply reads_attempt, envelope_reads|]. intros [work|e]; [apply reads_ret|]. unfold stat, raise. reads.
  - intros [work|]; [|apply reads_ret]. unfold exists_file. reads.
Qed.
Lemma execute_reads work t : Reads (execute_work runtime q work t).
Proof. unfold execute_work, execution_result, write_new, or_remove, change. reads. Qed.
Lemma worker_reads t : Reads (execute_direct_queue_once runtime q t).
Proof.
  unfold execute_direct_queue_once. apply reads_bind; [apply files_reads|].
  induction a as [|path paths IH]; simpl; [apply reads_ret|]. apply reads_bind; [|intros []; [apply reads_ret|exact IH]].
  unfold execute_path. apply reads_bind; [apply envelope_reads|]. intros work. apply reads_bind; [apply reads_lift|]. intros _.
  apply reads_bind; [unfold exists_file; reads|]. intros []; [apply reads_ret|]. apply reads_bind; [apply execute_reads|intros; apply reads_ret].
Qed.

Lemma step_keeps_jobs x y : pool_step runtime q policy capacity now x y -> jobs_ok (pool_works x.1) -> jobs_ok (pool_works y.1).
Proof.
  assert (forall i job r p, pl_active p !! i = Some job -> pool_works (with_outcome i job r p) = pool_works p) as Hsame.
  { intros i job r p Hi. unfold pool_works, with_outcome. simpl. rewrite list_fmap_insert. simpl. apply list_insert_id.
    by rewrite list_lookup_fmap, Hi. }
  intros [p w p' w' Ht|p w i job r w' Hi _ _|p w i job w' Hi _ _] Hok; simpl in *; [|by rewrite Hsame..].
  unfold pool_turn in Ht. rewrite lift_run in Ht. destruct (reap _ _) as [p1|] eqn:Hreap; [|done].
  apply (reap_ok _ []) in Hreap; [|done]. apply bind_inv in Ht as [(paths & w1 & _ & Ht)|(e & _ & [=])].
  apply bind_inv in Ht as [(active & w2 & Hc & [= <- _])|(e & _ & [=])]. exact (considered_ok _ _ _ _ _ Hreap Hc).
Qed.
Lemma step_keeps_ledger x y : pool_step runtime q policy capacity now x y -> y.2.(w_db) = x.2.(w_db).
Proof.
  intros [p w p' w' Ht|p w i job r w' _ _ He|p w i job w' _ _ Hw]; simpl; [|by eapply execute_reads|done].
  revert Ht. unfold pool_turn. apply reads_bind; [apply reads_lift|]. intros p1. apply reads_bind; [apply paths_reads|]. intros paths.
  apply reads_bind; [apply considered_reads|]. intros. apply reads_ret.
Qed.
End kept.

(** C24: The worker's pool keeps within its capacity.  However the threads and the drainer interleave,
    and whatever the files contain, the jobs in the pool of a drainer that started empty are at most the builders and
    reviewers the capacity allows, no two of them share a worktree, no builder runs beside
    another job of its case, no attempt runs twice at a time, and all are of the pool's repository; and the
    worker never changes the ledger. *)
Theorem pool_within_capacity `{Codec} {fs : Filesystem} {elapsed : Elapsed} (runtime : DirectWorkerRuntime) (q : DirectQueue)
  (policy : RepositoryPolicy) (capacity : ExecutionCapacity) (now : Z) (w w' : World) (p : Pool)
  (Hrun : rtc (pool_step runtime q policy capacity now) (empty_pool, w) (p, w')) :
  jobs_ok policy capacity (pool_works p) /\ w'.(w_db) = w.(w_db).
Proof.
  enough (forall x y, rtc (pool_step runtime q policy capacity now) x y ->
            jobs_ok policy capacity (pool_works x.1) -> jobs_ok policy capacity (pool_works y.1) /\ y.2.(w_db) = x.2.(w_db)) as Hall.
  { apply (Hall _ _ Hrun). split; [split; simpl; [lia|lia|done]|constructor|constructor]. }
  clear. induction 1 as [x|x y z Hxy _ IH]; intros Hok; [done|].
  destruct IH as [? Hz]; [by eapply step_keeps_jobs|]. split; [done|]. rewrite Hz. by eapply step_keeps_ledger.
Qed.

(** The job handed over in [direct_prepared], drained by a pool of its policy. *)
Definition demo_capacity : ExecutionCapacity :=
  {| ec_native_sessions := 1; ec_builders := 1; ec_direct_reviewers := 1; ec_ready_plans := 1; ec_cargo_jobs := 1 |}.
Definition demo_turn (p : Pool) (w : World) :=
  pool_turn (H := hex_codec) (fs := demo_fs) (elapsed := demo_clock) demo_queue direct_policy demo_capacity 210 p w.
Definition started : Pool := match (demo_turn empty_pool direct_prepared).1 with Ok p => p | Err _ => empty_pool end.
Definition demo_started : World := (demo_turn empty_pool direct_prepared).2.

Lemma pool_within_capacity_witness :
  jobs_ok direct_policy demo_capacity (pool_works started) /\ length (pool_works started) = 1%nat.
Proof.
  split; [|vm_compute; reflexivity].
  destruct (pool_within_capacity (H := hex_codec) (fs := demo_fs) (elapsed := demo_clock) demo_builder demo_queue direct_policy
              demo_capacity 210 direct_prepared demo_started started) as [Hok _]; [|exact Hok].
  apply rtc_once, pool_drain. assert ((demo_turn empty_pool direct_prepared).1 = Ok started) as <- by (vm_compute; reflexivity).
  unfold demo_started, demo_turn. apply surjective_pairing.
Defined.
