(* ===== verification/DirectDispatch.v ===== *)
(** * DirectDispatch: dispatched direct jobs are accepted

    The controller writes a direct job in one cycle (Scheduling.v, Dispatch.v) and checks it in another one,
    before a worker gets it (DirectJobs.v, DirectQueue.v), by comparing some thirty fields with what
    the case and the policy determine.  Here the two sides meet: a job that was scheduled for a
    case passes the check as long as the case stays at that revision, and the binding its result is held to
    is that of its role and case. *)

From S2P Require Import Prelude Text Parse Json Serde Domain StateMachine Sql Tables Inputs Recovery Frozen StoreCore Outbox Ledger Results.
From S2P Require Import Contracts RolePolicy CaseHistory Scheduling Jobs Policy PolicyLaws Commands World Ingest Takeover Board Dispatch Collect DirectJobs DirectQueue.
From Stdlib Require Import Ascii.
Open Scope Z_scope.

(** ** Texts that are not blank *)

(** A text that starts with a visible ASCII character. *)
Definition starts_visible (s : string) : bool :=
  match s with String a _ => (33 <=? byte_of a) && (byte_of a <? 127) | EmptyString => false end.
Lemma visible_not_blank s : starts_visible s = true -> is_empty (trim s) = false.
Proof.
  intros Hv. assert (blank s = false) as Hb.
  { destruct s as [|a s]; [done|]. simpl in Hv. bools. unfold blank. simpl.
    rewrite (proj2 (Z.ltb_lt (byte_of a) 192)) by lia. simpl. apply andb_false_iff. left. unfold is_whitespace.
    repeat (apply orb_false_iff; split); try apply Z.eqb_neq; try (apply andb_false_iff); lia. }
  destruct (trim s) eqn:Ht; [|done]. apply trim_blank in Ht. congruence.
Qed.
Lemma visible_app s t : starts_visible s = true -> starts_visible (s +:+ t) = true.
Proof. by destruct s. Qed.
Lemma visible_rooted w t : starts_with_char "/" w = true -> starts_visible (trim_end_char "/" w +:+ "/" +:+ t) = true.
Proof.
  destruct w as [|a w]; [done|]. simpl. intros ->%Ascii.eqb_eq. destruct (trim_end_char "/" w); done.
Qed.
Lemma alphanumeric_visible b : is_ascii_alphanumeric b = true -> 33 <= b < 127.
Proof. unfold is_ascii_alphanumeric, is_ascii_uppercase, is_ascii_lowercase, is_ascii_digit. lia. Qed.
Lemma id_byte_visible b : id_byte b = true -> 33 <= b < 127.
Proof.
  unfold id_byte. intros [[[Hb|Hb]%orb_true_iff|Hb]%orb_true_iff|Hb]%orb_true_iff; [by apply alphanumeric_visible|lia..].
Qed.
Lemma id_visible s : RolePolicy.valid_id s = true -> starts_visible s = true.
Proof.
  unfold RolePolicy.valid_id. destruct s as [|a s]; [done|]. simpl. intros [Ha _]%andb_true_iff. apply id_byte_visible in Ha. lia.
Qed.
Lemma hex_visible s n : 0 < n -> is_hex s n = true -> starts_visible s = true.
Proof.
  intros Hn [Hl Hs]%andb_true_iff. apply Z.eqb_eq in Hl. destruct s as [|a s]; [unfold len in Hl; simpl in Hl; lia|].
  simpl in Hs |- *. apply andb_true_iff in Hs as [Ha _]. unfold is_lower_hex, is_ascii_digit in Ha. lia.
Qed.
Lemma split_head a s : forallb RolePolicy.valid_id (split_on "/" (String a s)) = true -> starts_visible (String a "") = true.
Proof.
  simpl. destruct (Ascii.eqb a "/"); [done|]. intros Hall. assert (exists part, RolePolicy.valid_id (String a part) = true) as (part & Hp).
  { destruct (split_on "/" s) as [|part parts]; simpl in Hall; bools; eauto. }
  apply id_visible in Hp. done.
Qed.
Lemma prefix_visible s : RolePolicy.valid_branch_prefix s = true -> starts_visible s = true.
Proof.
  unfold RolePolicy.valid_branch_prefix. intros [_ Hall]%andb_true_iff. destruct s as [|a s]; [done|]. cbn [trim_end_char] in Hall.
  destruct (trim_end_char "/" s); [destruct (Ascii.eqb a "/"); [done|]|]; apply split_head in Hall; done.
Qed.

(** ** The fields of a scheduled body *)

Section fields.
Context `{Codec}.

(** A literal key in the body of a direct job. *)
Ltac field_of :=
  rewrite map_get_map_of; unfold body_members; rewrite !last_get_app;
  repeat match goal with
  | |- context [last_get ?k (when ?b ?l)] => rewrite (last_get_when_none k b l eq_refl)
  | |- context [last_get ?k (when_some ?o ?f)] => rewrite (last_get_when_some_none k o f (fun _ => eq_refl))
  end;
  rewrite ?last_get_when, ?last_get_when_some; simpl.

Record job_fields (c : DispatchContext) (b : RolePolicy) (p : WorkflowPolicy) (snapshot : option Value) (m : list (string * Value))
  : Prop := {
  df_case : map_get "case_key" m = Some (Str (case_key c.(dc_case_id)));
  df_repository : map_get "repository_id" m = Some (Number (repository c.(dc_case_id)));
  df_issue : map_get "issue_number" m = Some (Number (issue c.(dc_case_id)));
  df_workflow : map_get "workflow_version" m = Some (Number (workflow c.(dc_case_id)));
  df_revision : map_get "state_revision" m = Some (Number c.(dc_state_revision));
  df_role : map_get "role" m = Some (Str (role_name b.(rp_role)));
  df_round : map_get "remediation_round" m = Some (Number c.(dc_remediation_round));
  df_plan : 0 < result_plan_version c b.(rp_role) -> map_get "plan_version" m = Some (Number (result_plan_version c b.(rp_role)));
  df_pr : map_get "pr_number" m = Number <$> c.(dc_pr_number);
  df_head : map_get "expected_head_sha" m = Str <$> c.(dc_head_sha);
  df_reviewer : map_get "reviewer_id" m = Str <$> b.(rp_reviewer_id);
  df_mode : map_get "review_mode" m = (fun mode => Str (review_mode_name mode)) <$> b.(rp_review_mode);
  df_execution : map_get "execution" m = Some (Str "direct");
  df_provider : map_get "provider" m = Some (Str b.(rp_provider));
  df_model : map_get "model" m = Some (Str b.(rp_model));
  df_requested : map_get "requested_model" m = Some (Str (b.(rp_provider) +:+ "/" +:+ b.(rp_model)));
  df_skills : map_get "skills_repository_commit" m = Some (Str c.(dc_skills_repository_commit));
  df_bundle : map_get "immutable_evidence_bundle" m = Some c.(dc_immutable_evidence_bundle);
  df_branch : b.(rp_role) = Builder -> map_get "assigned_branch" m = Some (Str (p.(wp_branch_prefix) +:+ "repo-"
    +:+ show (repository c.(dc_case_id)) +:+ "/issue-" +:+ show (issue c.(dc_case_id)) +:+ "/workflow-" +:+ show (workflow c.(dc_case_id))));
  df_worktree : b.(rp_role) = Builder -> map_get "assigned_worktree" m = Some (Str (case_workspace p c.(dc_case_id)));
  df_snapshot : map_get "review_snapshot" m = snapshot;
}.

Lemma body_fields c b p review snapshot :
  valid_role_policy b = true -> b.(rp_execution) = RolePolicy.Direct -> review_members c b = Ok review ->
  job_fields c b p snapshot (map_of (body_members c b p review [] snapshot)).
Proof.
  intros Hv Hx Hr. unfold valid_role_policy in Hv. bools. rewrite Hx in *.
  assert (last_get "reviewer_id" review = Str <$> rp_reviewer_id b
          /\ last_get "review_mode" review = (fun mode => Str (review_mode_name mode)) <$> rp_review_mode b) as [Hid Hmode].
  { unfold review_members in Hr. destruct (rp_role b) eqn:Hrole; simpl in *; open_ok; subst; bools.
    all: repeat match goal with Hn : _ = None |- _ => rewrite Hn end; try done.
    all: rename select (rp_review_mode b = Some _) into Hm; rewrite Hm; unfold worker_id; destruct (rp_reviewer_id b); done. }
  assert (forall k, one_of ["review_round"; "reviewer_id"; "review_mode"]%string k = false -> last_get k review = None) as Hk
    by (intros; by eapply review_keys).
  split.
  all: try intros Hrole.
  all: field_of; rewrite ?Hid, ?Hmode.
  all: repeat match goal with |- context [last_get ?k _] => rewrite (Hk k eq_refl) end; try done.
  all: first [ by destruct (dc_pr_number c) | by destruct (dc_head_sha c) | by destruct (rp_reviewer_id b)
             | by destruct (rp_review_mode b) | by destruct snapshot | by rewrite Hx
             | by rewrite (bool_decide_eq_true_2 _ Hrole) | by rewrite (proj2 (Z.ltb_lt _ _) Hrole) ].
Qed.
End fields.

(** ** Readers *)

Lemma text_read m k v : map_get k m = Some (Str v) -> starts_visible v = true -> text m k = Ok v.
Proof. intros Hm Hv. unfold text. rewrite Hm. simpl. by rewrite visible_not_blank. Qed.
Lemma text_reads m k v : map_get k m = Some (Str v) -> starts_visible v = true -> text_is m k v = true.
Proof. intros Hm Hv. unfold text_is. rewrite (text_read _ _ _ Hm Hv). apply String.eqb_refl. Qed.
Lemma number_read m k n : map_get k m = Some (Number n) -> 0 < n <= u64_max -> number m k = Ok n.
Proof.
  intros Hm Hn. unfold number. rewrite Hm. simpl. rewrite (proj2 (Z.leb_le 0 n)), (proj2 (Z.leb_le n u64_max)) by lia. simpl.
  by rewrite (proj2 (Z.ltb_lt 0 n)) by lia.
Qed.
Lemma number_reads m k n : map_get k m = Some (Number n) -> 0 < n <= u64_max -> number_is m k n = true.
Proof. intros Hm Hn. unfold number_is. rewrite (number_read _ _ _ Hm Hn). apply Z.eqb_refl. Qed.
Lemma optional_text_read m k o :
  map_get k m = Str <$> o -> (forall v, o = Some v -> starts_visible v = true) -> optional_text m k = Ok o.
Proof.
  intros Hm Hv. unfold optional_text. rewrite Hm. destruct o as [v|]; simpl in *; [|done]. by rewrite (text_read _ _ _ Hm (Hv v eq_refl)).
Qed.
Lemma optional_number_read m k o :
  map_get k m = Number <$> o -> (forall n, o = Some n -> 0 < n <= u64_max) -> optional_number m k = Ok o.
Proof.
  intros Hm Hv. unfold optional_number. rewrite Hm. destruct o as [n|]; simpl in *; [|done]. by rewrite (number_read _ _ _ Hm (Hv n eq_refl)).
Qed.

(** ** The policy's roles *)

Lemma find_only {A} (p : A -> bool) l x : x ∈ l -> p x = true -> (forall y, y ∈ l -> p y = true -> y = x) -> List.find p l = Some x.
Proof.
  intros Hin Hx Hall. destruct (List.find p l) as [y|] eqn:Hf.
  - apply find_some in Hf as [Hy%list_elem_of_In Hp]. f_equal. by apply Hall.
  - eapply find_none in Hf; [|by apply list_elem_of_In]. congruence.
Qed.

Record workflow_of (policy : RepositoryPolicy) (workflow : WorkflowPolicy) : Prop := {
  wo_workspace : workflow.(wp_workspace) = po_workspace policy;
  wo_prefix : workflow.(wp_branch_prefix) = po_branch_prefix policy;
  wo_roles : workflow.(wp_roles) = role_policy_of <$> po_roles policy;
  wo_rooted : starts_with_char "/" (po_workspace policy) = true;
  wo_visible : starts_visible (po_branch_prefix policy) = true;
  wo_valid : forallb valid_role_policy workflow.(wp_roles) = true;
  wo_counts : valid_roles workflow.(wp_roles) = true;
}.
Lemma workflow_policy_of policy workflow : workflow_policy policy = Ok workflow -> workflow_of policy workflow.
Proof.
  unfold workflow_policy, new, with_cargo_jobs, with_sensitive_scope_categories, with_max_provider_failures, with_max_hermes_attempts,
    with_hermes_scratch_root. intros Hw. open_ok.
  repeat (case_match; open_ok); subst; simpl in *; bools; (split; simpl; try done; by apply prefix_visible).
Qed.

(** What a valid direct role is. *)
Record direct_role (b : RolePolicy) : Prop := {
  dr_kind : b.(rp_role) = Builder /\ b.(rp_reviewer_id) = None /\ b.(rp_review_mode) = None
            \/ is_reviewer b.(rp_role) = true /\ is_Some b.(rp_reviewer_id) /\ is_Some b.(rp_review_mode);
  dr_reviewer : forall id, b.(rp_reviewer_id) = Some id -> starts_visible id = true;
  dr_cursor : b.(rp_provider) = "cursor"%string;
  dr_model : starts_visible b.(rp_model) = true;
  dr_fixed : one_of ["auto"; "default"; "latest"] (to_ascii_lowercase b.(rp_model)) = false;
}.
Lemma valid_direct_role b : valid_role_policy b = true -> b.(rp_execution) = RolePolicy.Direct -> direct_role b.
Proof.
  intros Hv Hx. unfold valid_role_policy in Hv. bools. rewrite Hx in *. split; [| | |by apply id_visible|done].
  - destruct (rp_role b); simpl in *; bools; try done; [by left|right..]; destruct (rp_reviewer_id b); by eauto.
  - intros id Hid. rewrite Hid in *. apply id_visible. by destruct (is_reviewer (rp_role b)); bools.
  - by destruct (rp_role b); simpl in *; bools; apply String.eqb_eq.
Qed.

(** The role a job names is found again. *)
Lemma same_reviewer p ids x y id :
  Forall2 (fun b id => b.(rp_reviewer_id) = Some id) (reviewers p) ids -> NoDup ids -> x ∈ reviewers p -> y ∈ reviewers p ->
  x.(rp_reviewer_id) = Some id -> y.(rp_reviewer_id) = Some id -> x = y.
Proof.
  intros Hids Hnd [i Hi]%list_elem_of_lookup [j Hj]%list_elem_of_lookup Hx Hy.
  destruct (Forall2_lookup_l _ _ _ _ _ Hids Hi) as (a & Ha & Hxa), (Forall2_lookup_l _ _ _ _ _ Hids Hj) as (a' & Ha' & Hya).
  assert (i = j) as -> by (eapply NoDup_lookup; [exact Hnd|exact Ha|congruence]). congruence.
Qed.
Lemma same_fixed (roles : list RolePolicy) r x y :
  count_role roles (fun b => bool_decide (b.(rp_role) = r)) = 1%nat -> x ∈ roles -> y ∈ roles -> x.(rp_role) = r -> y.(rp_role) = r -> x = y.
Proof.
  intros Hn Hx Hy Hrx Hry. unfold count_role in Hn.
  assert (forall z, z ∈ roles -> rp_role z = r -> In z (List.filter (fun b => bool_decide (rp_role b = r)) roles)) as Hin.
  { intros z Hz Hr. apply filter_In. split; [by apply list_elem_of_In|by apply bool_decide_eq_true_2]. }
  apply Hin in Hx, Hy; [|done..]. destruct (List.filter _ roles) as [|a [|]]; [done| |done]. destruct Hx as [->|[]], Hy as [->|[]]. done.
Qed.
Lemma role_found policy workflow b :
  workflow_of policy workflow -> b ∈ workflow.(wp_roles) -> direct_role b ->
  configured_role workflow b.(rp_role) b.(rp_reviewer_id) = Ok b.
Proof.
  intros Hw Hin Hb. pose proof (reviewer_ids_distinct _ (wo_valid _ _ Hw) (wo_counts _ _ Hw)) as (ids & Hids & Hnd & _).
  unfold configured_role. destruct (dr_kind _ Hb) as [(Hr & Hid & _)|(Hr & [id Hid] & _)]; rewrite Hid.
  - rewrite (find_only _ _ b); [done|done| |].
    + rewrite Hid. simpl. by rewrite bool_decide_eq_true_2.
    + intros y Hy [Hp%bool_decide_eq_true _]%andb_true_iff. eapply same_fixed; try done. rewrite Hr.
      pose proof (wo_counts _ _ Hw) as Hc. unfold valid_roles in Hc. simpl in Hc. bools. by apply Nat.eqb_eq.
  - unfold reviewer. assert (b ∈ reviewers workflow) as Hrv by (by apply reviewers_elem).
    rewrite (find_only _ _ b); [done|done|by apply bool_decide_eq_true_2|].
    intros y Hy Hp%bool_decide_eq_true. by eapply same_reviewer.
Qed.

(** ** What a job is scheduled with *)

(** The fields of a case are of their types; GitHub counts pull requests from one. *)
Record case_typed (c : StoredCase) : Prop := {
  ct_repository : is_u64 c.(sc_repository_id);
  ct_issue : is_u64 c.(sc_issue_number);
  ct_workflow : is_u32 c.(sc_workflow_version);
  ct_revision : is_u64 c.(sc_state_revision);
  ct_round : is_u32 c.(sc_remediation_round);
  ct_plan : is_u32 c.(sc_plan_version);
  ct_pr : forall n, c.(sc_pr_number) = Some n -> 1 <= n <= u64_max;
}.

Section scheduled.
Context `{Codec}.

Record case_context (c : StoredCase) (s : Store) (skills : string) (ctx : DispatchContext) : Prop := {
  cx_repository : repository ctx.(dc_case_id) = c.(sc_repository_id) /\ 0 < c.(sc_repository_id);
  cx_issue : issue ctx.(dc_case_id) = c.(sc_issue_number) /\ 0 < c.(sc_issue_number);
  cx_workflow : workflow ctx.(dc_case_id) = c.(sc_workflow_version) /\ 0 < c.(sc_workflow_version);
  cx_key : case_key ctx.(dc_case_id) = c.(sc_case_key);
  cx_revision : ctx.(dc_state_revision) = c.(sc_state_revision) /\ 0 < c.(sc_state_revision);
  cx_plan : ctx.(dc_plan_version) = nonzero c.(sc_plan_version);
  cx_round : ctx.(dc_remediation_round) = c.(sc_remediation_round);
  cx_pr : ctx.(dc_pr_number) = c.(sc_pr_number);
  cx_head : ctx.(dc_head_sha) = c.(sc_head_sha);
  cx_hex : forall h, c.(sc_head_sha) = Some h -> is_hex h 40 = true;
  cx_skills : ctx.(dc_skills_repository_commit) = skills;
  cx_bundle : immutable_evidence_bundle s c = Ok ctx.(dc_immutable_evidence_bundle);
}.
Lemma scheduled_context claimed c s p skills ds :
  case_typed c -> schedule_claimed_dispatch claimed c s p skills = Ok ds ->
  exists e ctx, schedule_effect claimed.(ce_effect_id) e ctx p = Ok ds /\ case_context c s skills ctx.
Proof.
  intros Ht Hs. unfold schedule_claimed_dispatch in Hs. open_ok. bools. eexists _, _. split; [eassumption|].
  match goal with Hx : stored_head c = Ok ?h |- _ => rename Hx into Hh; rename h into head end.
  assert (head = sc_head_sha c /\ forall h, sc_head_sha c = Some h -> is_hex h 40 = true) as [-> Hhex].
  { unfold stored_head, GitSha_from_str in Hh. destruct (sc_head_sha c) as [h|]; [|by simplify_eq]. apply map_err_ok in Hh.
    destruct (_ || _) eqn:Hx in Hh; [done|]. injection Hh as <-. split; [done|]. intros ? [= <-]. unfold is_hex, hex_string. bools.
    apply andb_true_iff. split; [by apply Z.eqb_eq|done]. }
  destruct Ht. unfold is_u64, is_u32 in *. split; simpl; subst; try done; try lia.
  - by apply String.eqb_eq.
  - destruct (sc_pr_number c) as [n|]; [|done]. simpl. apply nonzero_pos. specialize (ct_pr0 n eq_refl). lia.
Qed.

Lemma bundle_valid s c v :
  (forall t, is_hex (hash_bytes t) 64 = true) -> immutable_evidence_bundle s c = Ok v -> valid_evidence_bundle (Some v) = true.
Proof.
  intros Hsha Hb. unfold immutable_evidence_bundle in Hb. open_ok. subst. unfold valid_evidence_bundle. cbn [mbind option_bind as_object].
  apply Hsha.
Qed.
End scheduled.

(** ** The check passes *)

(** A case as it was, but for its state and policy. *)
Definition in_state (state : string) (policy_revision : Z) (c : StoredCase) : StoredCase := {|
  sc_case_key := c.(sc_case_key); sc_repository_id := c.(sc_repository_id); sc_issue_number := c.(sc_issue_number);
  sc_workflow_version := c.(sc_workflow_version); sc_state := state; sc_state_revision := c.(sc_state_revision);
  sc_policy_revision := policy_revision; sc_remediation_round := c.(sc_remediation_round);
  sc_plan_version := c.(sc_plan_version); sc_pr_number := c.(sc_pr_number); sc_head_sha := c.(sc_head_sha) |}.
Lemma in_own_state c : in_state c.(sc_state) c.(sc_policy_revision) c = c.
Proof. by destruct c. Qed.

Lemma ok_bind {E A B} (r : result E A) (k : A -> result E B) a : r = Ok a -> (r ≫= k) = k a.
Proof. by intros ->. Qed.
Lemma field_ok {A} (r : result ResultCycleError A) a : r = Ok a -> direct_field r = Ok a.
Proof. by intros ->. Qed.
Lemma bool_refl {A} `{EqDecision A} (x : A) : bool_decide (x = x) = true.
Proof. by apply bool_decide_eq_true_2. Qed.

Section accepted.
Context `{Codec}.

(** The direct task of a job of role [b], with its snapshot and the fields of its body. *)
Record direct_job_of (source : string) (b : RolePolicy) (ctx : DispatchContext) (p : WorkflowPolicy) (snapshot : option Value)
  (m : list (string * Value)) (task : DirectTaskSpec) : Prop := {
  dj_snapshot : snapshot_of ctx b p = Ok snapshot;
  dj_fields : job_fields ctx b p snapshot m;
  dj_task : task = {|
    dt_schema_version := 1; dt_source_effect_id := source; dt_task_id := projection_key ctx b;
    dt_title := "Run " +:+ worker_id b +:+ " for " +:+ case_key ctx.(dc_case_id); dt_body := Object m; dt_role := b.(rp_role);
    dt_profile := b.(rp_profile);
    dt_workspace := match snapshot with
                    | Some v => default "" (as_str (index v "root")) +:+ "/source"
                    | None => case_workspace p ctx.(dc_case_id)
                    end;
    dt_skills := b.(rp_skills); dt_provider := b.(rp_provider); dt_model := b.(rp_model); dt_max_runtime := b.(rp_max_runtime);
    dt_priority := b.(rp_priority) |};
}.
Lemma dispatched_direct id source b ctx p d task :
  valid_role_policy b = true -> dispatch id source b ctx p = Ok d -> direct_task d = Ok task ->
  b.(rp_execution) = RolePolicy.Direct /\ exists snapshot m, direct_job_of source b ctx p snapshot m task.
Proof.
  intros Hv Hd Ht. unfold dispatch in Hd. open_ok. subst. unfold direct_task in Ht. open_ok. bools. subst. simpl in *.
  rename select (rp_execution b = _) into Hx. split; [done|]. rename select (storage_members _ _ _ _ = _) into Hs.
  unfold storage_members in Hs. rewrite Hx in Hs. injection Hs as <-.
  rename select (review_members _ _ = _) into Hr. pose proof (body_fields _ _ p _ x0 Hv Hx Hr) as Hf.
  eexists _, _. split; [eassumption|exact Hf|done].
Qed.

(** The worktree of the task is the one the check expects. *)
Lemma source_expected source b ctx p snapshot m task c :
  direct_job_of source b ctx p snapshot m task -> is_reviewer b.(rp_role) = true \/ b.(rp_role) = Builder ->
  (forall h, ctx.(dc_head_sha) = Some h -> is_hex h 40 = true) -> case_workspace p ctx.(dc_case_id) = c ->
  source_for task.(dt_body) c (projection_key ctx b) = Some task.(dt_workspace).
Proof.
  intros [Hs Hf ->] Hrole Hhex <-. simpl. unfold source_for, get. rewrite (df_snapshot _ _ _ _ _ Hf).
  destruct snapshot as [v|]; [|done]. unfold snapshot_of in Hs. destruct (_ && _) eqn:Hiso in Hs; [|done]. open_ok. simplify_eq.
  rename select (dc_head_sha ctx = Some _) into Hh. rewrite !(index_object m), (df_role _ _ _ _ _ Hf), (df_head _ _ _ _ _ Hf), Hh. simpl.
  rewrite (Hhex _ Hh), bool_decide_eq_true_2 by done. rewrite andb_true_r, andb_true_r.
  apply andb_true_iff in Hiso as [_ Hiso]. destruct Hrole as [Hrole|Hrole]; [by destruct (rp_role b)|]. by rewrite Hrole in Hiso.
Qed.

Definition accepted_binding (b : RolePolicy) (c : StoredCase) (task : DirectTaskSpec) (skills : string) : WorkerBinding := {|
  wb_case := {| Contracts.repository_id := c.(sc_repository_id); Contracts.issue_number := c.(sc_issue_number);
                Contracts.workflow_version := c.(sc_workflow_version) |};
  wb_task_id := task.(dt_task_id); wb_role := b.(rp_role); wb_reviewer_id := b.(rp_reviewer_id); wb_review_mode := b.(rp_review_mode);
  wb_requested_model := b.(rp_provider) +:+ "/" +:+ b.(rp_model); wb_skills_repository_commit := skills;
  wb_plan_version := c.(sc_plan_version); wb_pr_number := c.(sc_pr_number); wb_expected_head_sha := c.(sc_head_sha) |}.

Section job.
Context (policy : RepositoryPolicy) (p : WorkflowPolicy) (b : RolePolicy) (ctx : DispatchContext) (c : StoredCase) (s : Store).
Context (source skills : string) (snapshot : option Value) (m : list (string * Value)) (task : DirectTaskSpec).
Context (Hsha : forall t, is_hex (hash_bytes t) 64 = true) (Hw : workflow_policy policy = Ok p) (Hb : b ∈ p.(wp_roles)).
Context (Hx : b.(rp_execution) = RolePolicy.Direct) (Hjob : direct_job_of source b ctx p snapshot m task).
Context (Ht : case_typed c) (Hc : case_context c s skills ctx) (Hskills : is_hex skills 40 = true) (Hplan : 0 < c.(sc_plan_version)).
Context (Hrepo : c.(sc_repository_id) = rid_id (po_repository policy)) (Hversion : c.(sc_workflow_version) = po_workflow_version policy).

Let Hof : workflow_of policy p := workflow_policy_of _ _ Hw.
Lemma job_role : direct_role b.
Proof.
  apply valid_direct_role; [|exact Hx]. pose proof (wo_valid _ _ Hof) as Hall. rewrite forallb_forall in Hall.
  by apply Hall, list_elem_of_In.
Qed.
Lemma job_kind : is_reviewer b.(rp_role) = true \/ b.(rp_role) = Builder.
Proof. destruct (dr_kind _ job_role) as [(? & _)|(? & _)]; auto. Qed.
Lemma job_not_planner : bool_decide (b.(rp_role) = Planner) = false.
Proof. apply bool_decide_eq_false_2. destruct job_kind as [Hk|Hk]; [|congruence]. by destruct (rp_role b). Qed.

Lemma job_plan : map_get "plan_version" m = Some (Number c.(sc_plan_version)).
Proof.
  destruct Hjob as [_ Hf _], Hc. assert (result_plan_version ctx (rp_role b) = sc_plan_version c) as Hp.
  { unfold result_plan_version. rewrite job_not_planner, cx_plan0, nonzero_pos by done. done. }
  rewrite <-Hp. apply (df_plan _ _ _ _ _ Hf). rewrite Hp. done.
Qed.
Lemma job_workspace : case_workspace p ctx.(dc_case_id) = case_source policy c.
Proof.
  unfold case_workspace, case_source. by rewrite (wo_workspace _ _ Hof), (proj1 (cx_repository _ _ _ _ Hc)), (proj1 (cx_issue _ _ _ _ Hc)),
    (proj1 (cx_workflow _ _ _ _ Hc)).
Qed.
Lemma job_key : expected_task_id c (worker_id b) b.(rp_role) = projection_key ctx b.
Proof.
  unfold expected_task_id, projection_key. rewrite (cx_key _ _ _ _ Hc), (proj1 (cx_revision _ _ _ _ Hc)).
  replace (direct_round c (rp_role b)) with (job_round ctx (rp_role b)); [done|].
  unfold job_round, direct_round, review_round. rewrite (cx_round _ _ _ _ Hc). by destruct job_kind as [Hk| ->]; [destruct (rp_role b)|].
Qed.

Lemma job_u64 n : is_u32 n -> 0 < n -> 0 < n <= u64_max.
Proof. unfold is_u32, u32_max, u64_max. lia. Qed.
Lemma job_plan_read : number m "plan_version" = Ok c.(sc_plan_version).
Proof. apply number_read; [exact job_plan|]. by apply job_u64; [apply (ct_plan _ Ht)|]. Qed.
Lemma job_pr_read : optional_number m "pr_number" = Ok c.(sc_pr_number).
Proof.
  apply optional_number_read; [by rewrite (df_pr _ _ _ _ _ (dj_fields _ _ _ _ _ _ _ Hjob)), (cx_pr _ _ _ _ Hc)|].
  intros n Hn. apply (ct_pr _ Ht) in Hn. lia.
Qed.
Lemma job_head_read : optional_text m "expected_head_sha" = Ok c.(sc_head_sha).
Proof.
  apply optional_text_read; [by rewrite (df_head _ _ _ _ _ (dj_fields _ _ _ _ _ _ _ Hjob)), (cx_head _ _ _ _ Hc)|].
  intros h Hh. by eapply (hex_visible _ 40), (cx_hex _ _ _ _ Hc).
Qed.

Lemma job_role_fields state rev : validate_role_fields m b.(rp_role) (in_state state rev c) policy (dt_workspace task) = Ok ().
Proof.
  destruct Hjob as [Hsnap Hf Htask]. unfold validate_role_fields.
  rewrite (ok_bind _ _ _ (field_ok _ _ job_plan_read)), (ok_bind _ _ _ (field_ok _ _ job_pr_read)), (ok_bind _ _ _ (field_ok _ _ job_head_read)).
  rewrite job_not_planner. cbn [in_state sc_plan_version sc_pr_number sc_head_sha].
  rewrite Z.eqb_refl, !bool_refl. cbn [negb orb err_if mbind result_bind].
  case_bool_decide as Hbuild; [|done]. cbn [andb in_state sc_repository_id sc_issue_number sc_workflow_version].
  assert (snapshot = None) as Hnone.
  { unfold snapshot_of in Hsnap. rewrite Hbuild, andb_false_r in Hsnap. by injection Hsnap. }
  rewrite text_reads; [|by rewrite (df_branch _ _ _ _ _ Hf Hbuild), (wo_prefix _ _ Hof), (proj1 (cx_repository _ _ _ _ Hc)),
    (proj1 (cx_issue _ _ _ _ Hc)), (proj1 (cx_workflow _ _ _ _ Hc))|apply visible_app, (wo_visible _ _ Hof)].
  rewrite text_reads; [done|by rewrite (df_worktree _ _ _ _ _ Hf Hbuild), Htask, Hnone|].
  rewrite Htask, Hnone. simpl. unfold case_workspace. rewrite (wo_workspace _ _ Hof). apply visible_rooted, (wo_rooted _ _ Hof).
Qed.

(** The claim of the job. *)
Record claim_of (claimed : ClaimedEffect) : Prop := {
  co_effect : claimed.(ce_effect_id) = source +:+ ":direct:" +:+ worker_id b;
  co_type : claimed.(ce_effect_type) = if observes b.(rp_review_mode) then "RUN_DIRECT_OBSERVER"%string else RUN_EFFECT;
  co_case : claimed.(ce_case_key) = c.(sc_case_key);
  co_revision : claimed.(ce_state_revision) = c.(sc_state_revision);
}.

Lemma job_numbers :
  number_is m "repository_id" c.(sc_repository_id) && number_is m "issue_number" c.(sc_issue_number)
  && number_is m "workflow_version" c.(sc_workflow_version) && number_is m "state_revision" c.(sc_state_revision) = true.
Proof.
  destruct Hjob as [_ Hf _], Hc, Ht. destruct cx_repository0 as [E1 ?], cx_issue0 as [E2 ?], cx_workflow0 as [E3 ?], cx_revision0 as [E4 ?].
  unfold is_u64 in *. rewrite !andb_true_iff.
  split_and!; (apply number_reads; [rewrite <-?E1, <-?E2, <-?E3, <-?E4; apply Hf|first [by apply job_u64|lia]]).
Qed.
Lemma job_texts :
  text_is m "case_key" c.(sc_case_key) && text_is m "role" (role_name b.(rp_role)) && text_is m "execution" "direct"
  && text_is m "provider" b.(rp_provider) && text_is m "model" b.(rp_model)
  && text_is m "requested_model" (b.(rp_provider) +:+ "/" +:+ b.(rp_model)) = true.
Proof.
  destruct Hjob as [_ Hf _]. rewrite <-(cx_key _ _ _ _ Hc). pose proof job_role as [_ _ Hcur Hmod _].
  rewrite !andb_true_iff. split_and!; apply text_reads; try apply Hf; try done; rewrite ?Hcur; try done. by destruct (rp_role b).
Qed.

Lemma job_validates state rev claimed : claim_of claimed -> validate_job claimed (in_state state rev c) task policy = Ok (accepted_binding b c task skills).
Proof.
  intros [He Hty Hck Hrev]. pose proof job_role as Hdr. pose proof (job_role_fields state rev) as Hrf. destruct Hjob as [Hsnap Hf Htask].
  assert (dt_role task = rp_role b) as Hrole by (by rewrite Htask).
  assert (source_for (dt_body task) (case_source policy c) (projection_key ctx b) = Some (dt_workspace task)) as Hsrc.
  { eapply source_expected; [exact Hjob|exact job_kind|intros h Hh; rewrite (cx_head _ _ _ _ Hc) in Hh; by eapply (cx_hex _ _ _ _ Hc)|].
    exact job_workspace. }
  unfold validate_job. rewrite (ok_bind _ _ m) by (by rewrite Htask). rewrite (ok_bind _ _ p) by (by rewrite Hw).
  rewrite (ok_bind _ _ (rp_reviewer_id b)) by (apply field_ok, optional_text_read; [apply Hf|exact (dr_reviewer _ Hdr)]).
  rewrite Hrole. rewrite (ok_bind _ _ b) by (apply field_ok; by eapply role_found). cbn zeta.
  change (expected_task_id (in_state state rev c)) with (expected_task_id c). change (case_source policy (in_state state rev c)) with (case_source policy c).
  fold (worker_id b). rewrite job_key, Hsrc. rewrite (ok_bind _ _ (dt_workspace task)) by done.
  rewrite (ok_bind _ _ (review_mode_name <$> rp_review_mode b)).
  2: { apply field_ok, optional_text_read; [rewrite (df_mode _ _ _ _ _ Hf); by destruct (rp_review_mode b)|].
       intros v Hv. by destruct (rp_review_mode b) as [[]|]; simplify_eq/=. }
  rewrite (ok_bind _ _ skills) by (apply field_ok, text_read;
    [rewrite (df_skills _ _ _ _ _ Hf); by rewrite (cx_skills _ _ _ _ Hc)|by apply (hex_visible _ 40)]).
  rewrite (ok_bind _ _ ()).
  2: { apply err_if_ok, negb_false_iff. pose proof job_texts as Htx. pose proof job_numbers as Hnm. bools.
       pose proof Hdr as [_ _ Hcur _ Hfix]. pose proof (cx_key _ _ _ _ Hc) as Hkey.
       repeat (match goal with |- (_ && _) = true => apply andb_true_iff; split end); try assumption.
       all: try (rewrite Htask; first [apply String.eqb_refl | apply Z.eqb_refl | apply bool_refl]).
       all: try (first [apply String.eqb_eq | apply Z.eqb_eq]; assumption).
       - apply String.eqb_eq. by rewrite Htask.
       - apply String.eqb_eq. rewrite Htask. simpl. by rewrite Hkey.
       - by apply bool_decide_eq_true_2.
       - rewrite Htask. by apply negb_true_iff.
       - apply String.eqb_eq. by rewrite Htask.
       - apply bool_refl.
       - apply bool_refl.
       - rewrite (df_bundle _ _ _ _ _ Hf). exact (bundle_valid _ _ _ Hsha (cx_bundle _ _ _ _ Hc)). }
  rewrite Hrf. rewrite (ok_bind _ _ ()) by done.
  rewrite (ok_bind _ _ (sc_plan_version c)).
  2: { apply field_ok. rewrite (ok_bind _ _ _ job_plan_read). unfold narrow_u32. pose proof (ct_plan _ Ht) as Hp. unfold is_u32 in Hp.
       by rewrite (proj2 (Z.leb_le _ _)) by lia. }
  by rewrite (ok_bind _ _ _ (field_ok _ _ job_pr_read)), (ok_bind _ _ _ (field_ok _ _ job_head_read)).
Qed.

(** Read back from its own fields, whatever the case has become. *)
Lemma job_frozen claimed c2 :
  claim_of claimed -> c2.(sc_case_key) = c.(sc_case_key) -> c2.(sc_repository_id) = c.(sc_repository_id) ->
  c2.(sc_issue_number) = c.(sc_issue_number) -> c2.(sc_workflow_version) = c.(sc_workflow_version) ->
  forall frozen, frozen = true \/ claimed.(ce_effect_type) = "RUN_DIRECT_OBSERVER"%string ->
  validation_case claimed c2 task frozen = Ok (in_state "REVIEWING" c2.(sc_policy_revision) c).
Proof.
  intros [He Hty Hck Hrev] H1 H2 H3 H4 frozen Hfr. destruct Hjob as [_ Hf Htask], Ht, (cx_repository _ _ _ _ Hc) as [E1 _],
    (cx_issue _ _ _ _ Hc) as [E2 _], (cx_workflow _ _ _ _ Hc) as [E3 _]. unfold is_u64, is_u32 in *.
  assert (forall k n, map_get k m = Some (Number n) -> 0 <= n <= u64_max -> body_u64 m k = Ok n) as Hnum.
  { intros k n Hm Hn. unfold body_u64. rewrite Hm. simpl. by rewrite (proj2 (Z.leb_le 0 n)), (proj2 (Z.leb_le n u64_max)) by lia. }
  assert (forall k n, map_get k m = Some (Number n) -> 0 <= n <= u32_max -> body_u32 m k = Ok n) as Hnum32.
  { intros k n Hm Hn. unfold body_u32. rewrite (ok_bind _ _ _ (Hnum k n Hm ltac:(unfold u32_max, u64_max in *; lia))).
    by rewrite (proj2 (Z.leb_le n u32_max)) by lia. }
  unfold validation_case. replace (negb frozen && _) with false by (destruct Hfr as [->|Ho]; [done|]; rewrite Ho; by rewrite andb_false_r).
  rewrite (ok_bind _ _ m) by (by rewrite Htask).
  rewrite (ok_bind _ _ _ (Hnum _ _ (df_repository _ _ _ _ _ Hf) ltac:(lia))), (ok_bind _ _ _ (Hnum _ _ (df_issue _ _ _ _ _ Hf) ltac:(lia))),
    (ok_bind _ _ _ (Hnum _ _ (df_workflow _ _ _ _ _ Hf) ltac:(unfold u32_max, u64_max in *; lia))).
  rewrite Hck, H1, H2, H3, H4, E1, E2, E3, String.eqb_refl, !Z.eqb_refl. rewrite (ok_bind _ _ ()) by done.
  rewrite (ok_bind _ _ _ (Hnum32 _ _ (df_round _ _ _ _ _ Hf) ltac:(rewrite (cx_round _ _ _ _ Hc); lia))).
  rewrite (ok_bind _ _ _ (Hnum32 _ _ job_plan ltac:(lia))).
  rewrite (ok_bind _ _ (sc_pr_number c)).
  2: { unfold body_optional. rewrite (df_pr _ _ _ _ _ Hf), (cx_pr _ _ _ _ Hc). destruct (sc_pr_number c) as [n|]; [|done]. simpl.
       specialize (ct_pr0 n eq_refl). by rewrite (proj2 (Z.leb_le 0 n)), (proj2 (Z.leb_le n u64_max)) by lia. }
  rewrite (ok_bind _ _ (sc_head_sha c)).
  2: { unfold body_optional. rewrite (df_head _ _ _ _ _ Hf), (cx_head _ _ _ _ Hc). destruct (sc_head_sha c) as [h|] eqn:Hh; [|done]. simpl.
       pose proof (cx_hex _ _ _ _ Hc h Hh) as Hhx. apply hex_visible in Hhx; [|lia]. by destruct h. }
  unfold in_state. by rewrite Hrev, (cx_round _ _ _ _ Hc).
Qed.
End job.
End accepted.

(** ** Dispatched jobs are accepted *)

Lemma de_ser_direct t : t.(dt_schema_version) = 1 -> is_u32 t.(dt_priority) -> de_direct (ser_direct t) = Some t.
Proof.
  intros Hv Hp. unfold de_direct, ser_direct. decode_struct.
  rewrite Hv, !de_u32_number, de_role_name, (de_vec_fmap as_str Str) by done. destruct t. simpl in *. by subst.
Qed.

Section theorem.
Context `{Codec}.

(** The claim of a job that was dispatched for a case. *)
Definition claimed_job (job : EffectInput) (c : StoredCase) (owner : string) (until : Z) : ClaimedEffect := {|
  ce_effect_id := job.(fi_effect_id); ce_case_key := c.(sc_case_key); ce_state_revision := c.(sc_state_revision);
  ce_effect_type := job.(fi_effect_type); ce_payload := job.(fi_payload); ce_lease_owner := owner; ce_lease_until := until |}.

Lemma direct_job_claim source b ctx p snapshot m task job c owner until :
  direct_role b -> direct_job_of source b ctx p snapshot m task -> direct_job source task = Ok job ->
  claim_of b c source (claimed_job job c owner until) /\ job.(fi_payload) = ser_direct task.
Proof.
  intros Hb [_ Hf ->] Hj. unfold direct_job in Hj. cbn [dt_body get] in Hj.
  rewrite (df_role _ _ _ _ _ Hf), (df_reviewer _ _ _ _ _ Hf), (df_mode _ _ _ _ _ Hf) in Hj. open_ok. subst. split; [|done].
  rename select (Some _ ≫= as_str = Some _) into Hr. injection Hr as <-. split; simpl; try done.
  - unfold worker_id. by destruct (rp_reviewer_id b).
  - by destruct (rp_review_mode b) as [[]|].
Qed.

Lemma generation_unmoved s c reviews : exists current, current_job_generation s c c.(sc_state_revision) reviews = Ok current.
Proof. unfold current_job_generation. rewrite Z.eqb_refl. case_match; eauto. Qed.
(** A job of a case that has not moved is checked against the case, but for its state and policy revision. *)
Lemma unmoved_task policy job c owner until s task :
  de_direct job.(fi_payload) = Some task -> query_case s c.(sc_case_key) = Some c ->
  (job.(fi_effect_type) = "RUN_DIRECT_OBSERVER"%string ->
   exists st rev, validation_case (claimed_job job c owner until) c task false = Ok (in_state st rev c)) ->
  (forall st rev, exists b, validate_job (claimed_job job c owner until) (in_state st rev c) task policy = Ok b) ->
  claimed_task policy (claimed_job job c owner until) s = Ok task.
Proof.
  intros Hd Hc Hobs Hval. unfold claimed_task. cbn [claimed_job ce_payload ce_case_key ce_effect_type ce_state_revision].
  rewrite (ok_bind _ _ task) by (by rewrite Hd). rewrite (ok_bind _ _ c) by (by rewrite Hc).
  destruct (generation_unmoved s c true) as [current Hcur].
  assert (exists peer, (if String.eqb (fi_effect_type job) RUN_EFFECT && reviews_role (dt_role task)
    then map_err QueueStore (current_job_generation s c (sc_state_revision c) true) else Ok false) = Ok peer) as [peer Hpeer].
  { case_match; [rewrite Hcur; by eexists|by eexists]. }
  rewrite (ok_bind _ _ _ Hpeer).
  assert (exists st rev, (if peer then Ok (at_revision (sc_state_revision c) c)
    else validation_case (claimed_job job c owner until) c task false) = Ok (in_state st rev c)) as (st & rev & Hchecked).
  { destruct peer; [exists (sc_state c), (sc_policy_revision c); by destruct c|].
    destruct (String.eqb_spec (fi_effect_type job) "RUN_DIRECT_OBSERVER") as [Ho|Ho]; [by apply Hobs|].
    exists (sc_state c), (sc_policy_revision c). rewrite in_own_state. unfold validation_case. cbn [claimed_job ce_effect_type negb andb].
    by rewrite (proj2 (String.eqb_neq _ _) Ho). }
  rewrite (ok_bind _ _ _ Hchecked). destruct (Hval st rev) as [b Hb]. by rewrite (ok_bind _ _ b) by (by rewrite Hb).
Qed.
Lemma role_priority policy p b : wf_policy policy -> workflow_of policy p -> b ∈ p.(wp_roles) -> is_u32 b.(rp_priority).
Proof.
  intros Hwf Hof. rewrite (wo_roles _ _ Hof). intros (r & -> & Hr)%list_elem_of_fmap. simpl.
  pose proof (wfp_roles _ Hwf) as Hall. rewrite Forall_forall in Hall. by apply Hall.
Qed.

(** C21: What the controller dispatches to a direct worker, its own check accepts.  Let a direct job be scheduled for a
    case under a loaded policy.  While the case has not moved, preparing the job reads back the very
    task that was scheduled and passes the whole check of the case and the policy; and when its result comes
    back, the check of the frozen job yields the binding of the job's role, case, plan and head,
    whatever state, plan, pull request or head the case has by then. *)
Theorem dispatched_jobs_accepted (policy : RepositoryPolicy) (p : WorkflowPolicy) (text skills owner : string) (claimed : ClaimedEffect)
  (c : StoredCase) (s s' : Store) (ds : list WorkflowDispatch) (d : WorkflowDispatch) (task : DirectTaskSpec) (job : EffectInput) (until : Z)
  (Hsha : forall t, is_hex (hash_bytes t) 64 = true)
  (Hload : load_repository_policy text = Ok policy) (Hworkflow : workflow_policy policy = Ok p)
  (Hsched : schedule_claimed_dispatch claimed c s p skills = Ok ds) (Hd : d ∈ ds)
  (Htask : direct_task d = Ok task) (Hjob : direct_job claimed.(ce_effect_id) task = Ok job)
  (Htyped : case_typed c) (Hskills : is_hex skills 40 = true)
  (Hrepo : c.(sc_repository_id) = rid_id (po_repository policy)) (Hversion : c.(sc_workflow_version) = po_workflow_version policy)
  (Hcase : query_case s' c.(sc_case_key) = Some c) :
  claimed_task policy (claimed_job job c owner until) s' = Ok task
  /\ exists b, b ∈ p.(wp_roles) /\ forall c2,
       c2.(sc_case_key) = c.(sc_case_key) -> c2.(sc_repository_id) = c.(sc_repository_id) ->
       c2.(sc_issue_number) = c.(sc_issue_number) -> c2.(sc_workflow_version) = c.(sc_workflow_version) ->
       exists checked, validation_case (claimed_job job c owner until) c2 task true = Ok checked
         /\ validate_job (claimed_job job c owner until) checked task policy = Ok (accepted_binding b c task skills).
Proof.
  apply scheduled_context in Hsched as (e & ctx & Hs & Hctx); [|done].
  destruct (schedule_effect_jobs _ _ _ _ _ _ Hs Hd) as (b & id & Hb & Hdisp & Hreviewed & Hbuilt).
  assert (valid_role_policy b = true) as Hv.
  { pose proof (wo_valid _ _ (workflow_policy_of _ _ Hworkflow)) as Hall. rewrite forallb_forall in Hall. by apply Hall, list_elem_of_In. }
  destruct (dispatched_direct _ _ _ _ _ _ _ Hv Hdisp Htask) as (Hx & snapshot & m & Hof).
  pose proof (valid_direct_role _ Hv Hx) as Hrole.
  destruct (direct_job_claim _ _ _ _ _ _ _ _ c owner until Hrole Hof Hjob) as [Hclaim Hpay].
  assert (0 < sc_plan_version c) as Hplan.
  { assert (is_Some (dc_plan_version ctx)) as [v Hpv].
    { destruct (dr_kind _ Hrole) as [(Hr & _)|(Hr & _)]; [by apply Hbuilt|]. apply Hreviewed. by destruct (rp_role b). }
    rewrite (cx_plan _ _ _ _ Hctx) in Hpv. apply nonzero_some in Hpv as [-> ?]. pose proof (ct_plan _ Htyped) as Hp. unfold is_u32 in Hp. lia. }
  assert (forall st rev, validate_job (claimed_job job c owner until) (in_state st rev c) task policy = Ok (accepted_binding b c task skills)) as Hval.
  { intros st rev. by eapply job_validates. }
  assert (forall c2 frozen, c2.(sc_case_key) = c.(sc_case_key) -> c2.(sc_repository_id) = c.(sc_repository_id) ->
    c2.(sc_issue_number) = c.(sc_issue_number) -> c2.(sc_workflow_version) = c.(sc_workflow_version) ->
    frozen = true \/ fi_effect_type job = "RUN_DIRECT_OBSERVER"%string ->
    validation_case (claimed_job job c owner until) c2 task frozen = Ok (in_state "REVIEWING" c2.(sc_policy_revision) c)) as Hfrozen.
  { intros. by eapply job_frozen. }
  split.
  - apply unmoved_task; [|done| |by eauto].
    + rewrite Hpay. apply de_ser_direct; rewrite (dj_task _ _ _ _ _ _ _ Hof); [done|]. simpl.
      apply load_inv in Hload as (Hwf & _). by eapply role_priority, Hb; [|apply workflow_policy_of].
    + intros Ho. eexists _, _. apply Hfrozen; auto.
  - exists b. split; [done|]. intros c2 H1 H2 H3 H4. eexists. split; [by apply Hfrozen; auto|apply Hval].
Qed.
End theorem.

(** ** The job of [direct_start] *)

Lemma hex_digit_hex n : is_lower_hex (byte_of (hex_digit n)) = true.
Proof. do 16 (destruct n as [|n]; [reflexivity|]). reflexivity. Qed.
Lemma hex_codec_digest t : is_hex (hash_bytes (Codec := hex_codec) t) 64 = true.
Proof.
  unfold hash_bytes, hex_codec. generalize (String.length t / 16 mod 16)%nat, (String.length t mod 16)%nat. intros a b.
  unfold is_hex, hex_string, len. simpl. by rewrite !hex_digit_hex.
Qed.

Definition direct_case : StoredCase := {|
  sc_case_key := demo_case_key; sc_repository_id := 1; sc_issue_number := 2; sc_workflow_version := 3; sc_state := "READY_TO_BUILD";
  sc_state_revision := 2; sc_policy_revision := 1; sc_remediation_round := 0; sc_plan_version := 1; sc_pr_number := None; sc_head_sha := None |}.
Definition direct_claim : ClaimedEffect := {|
  ce_effect_id := "x1"; ce_case_key := demo_case_key; ce_state_revision := 2; ce_effect_type := "DISPATCH_BUILDER"; ce_payload := Object [];
  ce_lease_owner := "w"; ce_lease_until := 260 |}.

Lemma dispatched_jobs_accepted_witness :
  exists task job, claimed_task (H := hex_codec) direct_policy (claimed_job job direct_case "w" 300) (w_store direct_start) = Ok task
    /\ job.(fi_effect_type) = RUN_EFFECT /\ task.(dt_task_id) = "repo:1#2@3:builder:round:1:revision:2:worker"%string.
Proof.
  eassert (load_repository_policy (H := hex_codec) (lean (ser_policy direct_policy)) = Ok direct_policy) as Hl by (vm_compute; reflexivity).
  eassert (workflow_policy direct_policy = Ok _) as Hw by (vm_compute; reflexivity).
  match type of Hw with _ = Ok ?p =>
    eassert (schedule_claimed_dispatch (H := hex_codec) direct_claim direct_case (w_store direct_start) p
               (dx_skills_repository_commit (demo_dispatch 0)) = Ok [_]) as Hs by (vm_compute; reflexivity) end.
  match type of Hs with _ = Ok [?d] => eassert (direct_task d = Ok _) as Ht by (vm_compute; reflexivity) end.
  match type of Ht with _ = Ok ?t => eassert (direct_job direct_claim.(ce_effect_id) t = Ok _) as Hj by (vm_compute; reflexivity) end.
  eexists _, _. split.
  - refine (proj1 (dispatched_jobs_accepted (H := hex_codec) direct_policy _ (lean (ser_policy direct_policy))
             (dx_skills_repository_commit (demo_dispatch 0)) "w" direct_claim direct_case (w_store direct_start) (w_store direct_start)
             _ _ _ _ 300 hex_codec_digest Hl Hw Hs _ Ht Hj _ _ _ _ _)).
    + by left.
    + split; simpl; unfold is_u64, is_u32, u64_max, u32_max; try lia. intros n [=].
    + reflexivity.
    + reflexivity.
    + reflexivity.
    + vm_compute. reflexivity.
  - split; reflexivity.
Defined.
