(* ===== verification/ControlPlane.v ===== *)
(** * ControlPlane: the cycles together

    Every function of the control plane that moves the ledger, as one step relation
    on the ledger and the log of outside requests.  The answers of GitHub and of the board may differ from step to
    step, and a step counts whatever it returned: an error keeps what was committed before it.
    The theorem is that nothing they do leaves the system of System.v. *)

From S2P Require Import Prelude Text Parse Json Serde Intake Domain StateMachine Revision Sql Tables Inputs Recovery StoreCore.
From S2P Require Import Status Control Records History Frames Steps Invariants Conversations CaseHistory.
From S2P Require Import RolePolicy Ledger System Ingest Policy PolicyLaws Commands Cycles Bounds GitHub Ci World Takeover Authorization.
From S2P Require Import ActiveIntake Recoveries Resume Inbox Claims FinalGate Preflight Plans DraftPr Reviews Disposition Board Dispatch Collect.
From S2P Require Import DirectJobs DirectQueue DirectPool.
From stdpp Require Import relations.
Open Scope Z_scope.

Section plane.
Context `{Codec} {arith : SqlPlusOne} {mac : Mac}.

(** A cycle that is one function on the ledger: an error is a rollback. *)
Definition ledger_cycle {E A} (f : Store -> result E (A * Store)) : Cycle E A := transact f.

(** Issue numbers are u64. *)
Definition source_u64 (source : IntakeSource) : Prop :=
  forall owner name n e, intake owner name n = Ok e -> is_u64 e.(in_issue).(is_number).

Inductive control_step (w w' : World) : Prop :=
| cp_bounds scope now r :
    0 <= now -> ledger_cycle (enforce_operational_bounds scope now) w = (r, w') -> control_step w w'
| cp_bound policy key now o r :
    0 <= now -> ledger_cycle (escalate_case_for_bound policy key now o) w = (r, w') -> control_step w w'
| cp_ci (source : PullRequestSource) scope now r :
    0 <= now -> ledger_cycle (reconcile_ci_once scope now) w = (r, w') -> control_step w w'
| cp_takeover (source : PullRequestSource) scope now r :
    0 <= now -> reconcile_takeover_once scope now w = (r, w') -> control_step w w'
| cp_authorization (source : IntakeSource) scope now r :
    0 <= now -> reconcile_active_authorization scope now w = (r, w') -> control_step w w'
| cp_intake (source : IntakeSource) lock policy now paused quiescent r :
    wf_policy policy -> is_u64 now -> source_u64 source ->
    reconcile_intake_with_quiescence lock policy now paused quiescent w = (r, w') -> control_step w w'
| cp_webhook (source : IntakeSource) lock policy envelope secret now paused r :
    wf_policy policy -> is_u64 now -> source_u64 source ->
    ingest_webhook lock policy envelope secret now paused w = (r, w') -> control_step w w'
| cp_commands (source : IntakeSource) ctx r :
    0 <= rc_now ctx -> apply_control_commands_once ctx w = (r, w') -> control_step w w'
| cp_poll (source : IntakeSource) policy key r :
    poll_control_commands policy key w = (r, w') -> control_step w w'
| cp_recovery kind paused request now uid r :
    0 <= now -> 0 <= request.(rq_expected_revision) ->
    ledger_cycle (recover kind paused request now uid) w = (r, w') -> control_step w w'
| cp_plan (writer : PlanWriter) scope now owner lease valid r :
    0 <= now -> publish_plan_once scope now owner lease valid w = (r, w') -> control_step w w'
| cp_draft (writer : DraftPullRequestWriter) (publisher : BranchPublisher) scope now owner lease valid r :
    0 <= now -> draft_numbers -> publish_draft_pull_request_once_with scope now owner lease valid w = (r, w') -> control_step w w'
| cp_reviews (general secperf : ReviewWriter) scope now owner lease valid r :
    0 <= now -> publish_reviews_once general secperf scope now owner lease valid w = (r, w') -> control_step w w'
| cp_preflight (source : IntakeSource) (pulls : PullRequestSource) (threads : ReviewThreadSource) scope now owner lease valid r :
    0 <= now -> reconcile_final_preflight_once scope now owner lease valid w = (r, w') -> control_step w w'
| cp_disposition (source : IntakeSource) (pulls : PullRequestSource) (threads : ReviewThreadSource)
    (writer : DispositionWriter) scope now owner lease valid r :
    consume_disposition_once scope now owner lease valid w = (r, w') -> control_step w w'
| cp_dispatch (runner : CommandRunner) (elapsed : Elapsed) workspace scope ctx r :
    dispatch_once_inner workspace scope ctx w = (r, w') -> control_step w w'
| cp_results (runner : CommandRunner) (words : DecodeText) scope program now advance r :
    0 <= now -> reconcile_completed_once_with scope program now advance w = (r, w') -> control_step w w'
| cp_retries (runner : CommandRunner) scope program now authorized r :
    project_task_retries scope program now authorized w = (r, w') -> control_step w w'
| cp_queue (fs : Filesystem) scope q owner now lease valid r :
    reconcile_direct_queue_once scope q owner now lease valid w = (r, w') -> control_step w w'
| cp_schedule (fs : Filesystem) policy cases q owner now lease r :
    schedule_direct_queue_once policy cases q owner now lease w = (r, w') -> control_step w w'
| cp_worker (fs : Filesystem) runtime q now r :
    execute_direct_queue_once runtime q now w = (r, w') -> control_step w w'
| cp_pool (fs : Filesystem) (elapsed : Elapsed) runtime q policy capacity now p p' :
    pool_step runtime q policy capacity now (p, w) (p', w') -> control_step w w'.

(** ** Each cycle is made of system steps *)

Lemma sound_ledger {E A} (f : Store -> result E (A * Store)) :
  (forall s a s', f s = Ok (a, s') -> rtc system_step s s') -> Sound (ledger_cycle f).
Proof. apply sound_transact. Qed.

Lemma reported_ranges now s report c : status now s = Ok report -> c ∈ report.(ls_cases) -> case_ranges c.
Proof.
  intros Hst Hin. unfold status in Hst. open_ok. subst. simpl in Hin.
  apply status_cases_elem in Hin as (row & _ & ->). apply stored_case_ranges.
Qed.

Lemma first_bound_elem scope now l s c o : first_bound scope now l s = Ok (Some (c, o)) -> c ∈ l.
Proof. intros Hf. by apply first_bound_some in Hf as (? & _ & _). Qed.

Lemma bounds_steps scope now s r s' :
  0 <= now -> enforce_operational_bounds scope now s = Ok (r, s') -> rtc system_step s s'.
Proof.
  intros Hnow Hb. unfold enforce_operational_bounds in Hb. open_ok. rename select (status _ _ = _) into Hst.
  rename select (first_bound _ _ _ _ = _) into Hf. case_match; [|by open_ok; simplify_eq]. case_match. subst.
  apply first_bound_elem, order_by_elem in Hf. eapply escalate_steps; [|done|done]. by eapply reported_ranges.
Qed.

Lemma ci_steps (source : PullRequestSource) scope now s r s' :
  0 <= now -> reconcile_ci_once scope now s = Ok (r, s') -> rtc system_step s s'.
Proof.
  intros Hnow Hb. unfold reconcile_ci_once in Hb. open_ok. rename select (status _ _ = _) into Hst.
  destruct (waiting_case _ _) as [c|] eqn:Hw; [|by open_ok; simplify_eq]. open_ok.
  assert (case_ranges c) as Hc.
  { unfold waiting_case in Hw. apply find_some in Hw as [Hin%list_elem_of_In _]. by eapply reported_ranges. }
  assert (forall v e p evd, ci_workflow c (rs_policy scope) now (ci_event v) p evd = Ok e -> command_floor e) as Hfl.
  { intros v e p evd [_ Hcc]%ci_workflow_inv. eapply case_command_floor; [done|apply Hc|done| |exact Hcc]. by destruct v. }
  case_match; open_ok; simplify_eq; try done;
    repeat match goal with x : _ * _ |- _ => destruct x end; open_ok; simplify_eq;
    (eapply command_system_step; [by eapply Hfl|done]).
Qed.

Lemma recover_steps kind paused request now uid s r s' :
  0 <= now -> 0 <= request.(rq_expected_revision) -> recover kind paused request now uid s = Ok (r, s') ->
  rtc system_step s s'.
Proof.
  intros Hnow Hrev (c & accepted & p & [_ _ Hq] & [[_ ->]|(_ & _ & Ha)])%recover_inv; [done|].
  unfold apply_recovery, recovery_command in Ha. open_ok.
  eapply case_command_steps; [by eapply query_case_ranges|exact Hrev|exact Hnow| |eassumption|eassumption]. by destruct kind.
Qed.

Lemma intake_cycle_sound (source : IntakeSource) lock policy now paused quiescent :
  wf_policy policy -> is_u64 now -> source_u64 source ->
  Sound (reconcile_intake_with_quiescence lock policy now paused quiescent).
Proof.
  intros Hp Hnow Hs. unfold reconcile_intake_with_quiescence. sound.
  apply intake_sound; [done|done|]. rename select (try_map _ _ = _) into Ht.
  apply try_map_Forall2 in Ht. induction Ht as [|i e l l' He _ IH]; constructor; [|done].
  unfold validated_issue in He. open_ok. subst. by eapply Hs.
Qed.

Lemma control_command_sound (source : IntakeSource) policy value envelope : Sound (control_command policy value envelope).
Proof.
  unfold control_command. sound. apply sound_quiet. intros ? ? ? Hr. open_ok.
  split; [by eapply step_command|by eapply record_command_evolves].
Qed.

Lemma converse_sound (source : IntakeSource) policy envelope value now : Sound (converse policy envelope value now).
Proof.
  intros w r w' Hw. by rewrite (converse_store _ _ _ _ _ _ _ Hw).
Qed.

Lemma ingest_sound (source : IntakeSource) policy envelope now : Sound (ingest policy envelope now).
Proof. unfold ingest. sound; eauto using sound_delivery, control_command_sound, converse_sound. Qed.

Lemma webhook_sound (source : IntakeSource) lock policy envelope secret now paused :
  wf_policy policy -> is_u64 now -> source_u64 source -> Sound (ingest_webhook lock policy envelope secret now paused).
Proof.
  intros Hp Hnow Hs. unfold ingest_webhook. sound; [apply ingest_sound|apply sound_delivery|].
  apply intake_sound; [done|done|]. constructor; [|constructor].
  rename select (delivery_evidence _ _ = _) into He. unfold delivery_evidence in He. open_ok. subst. by eapply Hs.
Qed.

Lemma control_step_sound w w' : control_step w w' -> rtc system_step (w_store w) (w_store w').
Proof.
  destruct 1; try match goal with Hx : _ w = (_, w') |- _ => revert Hx; apply (fun Hm : Sound _ => Hm w r w') end.
  - apply sound_ledger. intros. eapply bounds_steps; eassumption.
  - apply sound_ledger. intros. eapply escalate_case_steps; eassumption.
  - apply sound_ledger. intros. eapply ci_steps; eassumption.
  - by apply takeover_sound.
  - by apply authorization_sound.
  - by apply intake_cycle_sound.
  - by apply webhook_sound.
  - by apply commands_sound.
  - apply poll_sound.
  - apply sound_ledger. intros. eapply recover_steps; [| |eassumption]; assumption.
  - by apply plan_sound.
  - by apply draft_sound.
  - by apply reviews_sound.
  - by apply preflight_sound.
  - apply disposition_sound.
  - apply dispatch_sound.
  - by apply results_sound.
  - apply retries_sound.
  - apply queue_sound.
  - apply schedule_sound.
  - apply sound_reads, worker_reads.
  - rename select (pool_step _ _ _ _ _ _ _) into Hp. apply step_keeps_ledger in Hp. simpl in Hp. unfold w_store. by rewrite Hp.
Qed.

End plane.

(** ** A poll that finds a command, and the command applied *)

Definition no_mac : Mac := fun _ _ => [].


(** ** The two ways a command is recorded differ

    The webhook refuses Pip's reviewer accounts; the poll only refuses the automation
    account.  A valid policy may trust a reviewer account. *)

Definition trusting_policy : RepositoryPolicy :=
  let p := demo_policy 1 1000 in {|
  po_conversations_enabled := false; po_conversation_model := None; po_policy_format := po_policy_format p;
  po_revision := po_revision p; po_repository := po_repository p; po_board := po_board p;
  po_workflow_version := po_workflow_version p; po_checkout := po_checkout p; po_workspace := po_workspace p;
  po_artifacts := po_artifacts p; po_workspace_storage := po_workspace_storage p;
  po_branch_prefix := po_branch_prefix p; po_github := po_github p;
  po_intake := {| ic_enabled := true; ic_paused := false; ic_label := "pip"; ic_trusted_actor_ids := [7; 2];
                  ic_excluded_issue_numbers := []; ic_held_issue_numbers := []; ic_repository_active_limit := 2;
                  ic_global_active_limit := 2 |};
  po_dispatch_enabled := true; po_execution_capacity := None; po_merge := po_merge p; po_max_remediation_rounds := 3;
  po_max_case_elapsed_seconds := 1000; po_max_provider_failures := 3; po_max_hermes_attempts := None;
  po_max_outage_seconds := None; po_max_stall_seconds := None; po_hermes_scratch_root := None;
  po_max_repeated_finding_fingerprint := 2; po_sensitive_scope_categories := ["CRYPTOGRAPHY"];
  po_required_ci_contexts := ["ci"]; po_roles := po_roles p |}.

Lemma poll_accepts_reviewer_account :
  valid_policy trusting_policy = true /\ gc_reviewer_general_actor_id (po_github trusting_policy) = Some 2
  /\ trusted_human trusting_policy 1 2 = false
  /\ (poll_control_commands (H := demo_codec) (source := demo_comment_source 2) trusting_policy demo_case_key
        (demo_world demo_parked)).1 = Ok 1.
Proof. vm_compute. done. Qed.
